(* ===== verification/_CoqProject ===== *)
-Q . S2P
Prelude.v
RtList.v
KService.v
KString.v
KPrint.v
KPrintThm.v
Scheduler.v
ReadyBitmap.v
SchedInv.v
SchedSpec.v
Object.v
ObjInv.v
Timer.v
TimerInv.v
Kernel.v
Thread.v
Clock.v
Ipc.v
Semaphore.v
Mutex.v
Event.v
Mailbox.v
MsgQueue.v
MemPool.v
Idle.v
KernelInv.v
ThreadInv.v
IpcInv.v
BlockInv.v
ClockInv.v
Boot.v
Demo.v
Mem.v
MemInv.v
MemSpec.v
MemThm.v
MemRealloc.v
KHeap.v
SchedThm.v
TimerThm.v
SemSpec.v
PrioInv.v
MutexSpec.v
EventSpec.v
MailboxSpec.v
MqInv.v
MqSpec.v
MpSpec.v
RingBuffer.v
RingSpec.v
Keeps.v
Stable.v
Frames.v
Own.v
Dynamic.v
DynPool.v
Lifetime.v
ThreadLife.v
IdleSpec.v
Calls.v
Progress.v
System.v
LifeThm.v
FinshVm.v
FinshData.v
FinshHeap.v
FinshNode.v
FinshToken.v
FinshParser.v
FinshCompiler.v
FinshShell.v
FinshTree.v
FinshExec.v
FinshRun.v
FinshComp.v
FinshExpr.v
FinshParse.v
FinshLex.v
FinshThm.v
FinshCases.v
