(* ===== verification/Prelude.v ===== *)
(** * A verification of the RT-Thread kernel

    RT-Thread is a real-time kernel: a priority scheduler with ready queues
    and a bitmap (src/scheduler.c), kernel objects kept in containers by class
    (src/object.c), timers in a skip list driven by the clock interrupt
    (src/timer.c, src/clock.c), threads (src/thread.c) and the idle thread
    that frees them (src/idle.c), five kinds of objects threads synchronise
    and communicate with (src/ipc.c), memory pools (src/mempool.c) and a heap
    (src/mem.c).  The shell (components/finsh) evaluates C expressions: it
    tokenizes, parses and compiles a line to byte code and runs it on a stack
    machine.  This library models the kernel and the evaluation of lines
    as executable functions on explicit states, states what each part
    promises, and proves it.

    ** The model

    A function of the kernel is a function of the state that returns a value
    and the next state, or a fault ([M], this file): a failed [RT_ASSERT], a
    stray pointer, a broken list, memory freed while linked, arithmetic that C
    leaves undefined, or fuel used up.
    Machine integers are [Z] with the wrap-around written out ([u8], [u16],
    [u32], [i32], [ubase]).  Addresses are [Z]; a structure at an address is an
    entry of a finite map.  The state [kstate] (Kernel.v) is the product of the
    scheduler [sched], the timer system [tsys], the object system [objsys],
    the IPC objects [ipcs], the heap behind the interface [Heap], and the
    global error number.  A call that blocks is cut where it has called
    [rt_schedule]: it returns [Block pc], and a second function, named
    [..._resumed], is the rest of the call once the thread runs again.  Code
    between disabling and enabling interrupts is one step.

    The shell has a state of its own, [finsh] (FinshData.v): virtual machine
    and memory, node table, variables and symbol lists, string heap, tokenizer
    and parser.  Node and block pointers are indices and addresses; symbols have
    addresses of the class [FinshEnv].  It is modelled for a 32-bit
    little-endian processor whose signed arithmetic wraps around; whether
    [char] is signed is a parameter ([CharSign]), and so are the functions that
    a line calls.

    Parameters: the class [Config] holds the build configuration (number of
    priorities, skip list levels, alignment, size of a pointer, length of
    names), [ConfigOk] its laws; [Heap] and [HeapOk] are the heap the kernel
    allocates from and what it relies on, with src/mem.c as an instance
    (MemThm.v); the timeout functions of the application are a parameter of
    the clock interrupt, and the cleanup functions of its threads one of the
    idle thread.  The build modelled is a uniprocessor with debugging
    assertions, the heap, and all IPC objects; without hooks, signals,
    modules, devices and the soft timer thread.

    ** Files

    - RtList.v: the intrusive lists of include/rtservice.h at pointer level;
      every operation refines the operation on sequences.
    - KService.v: [__rt_ffs] with its table, equal to the first set bit.
    - KString.v: the memory and string functions of src/kservice.c on a memory
      of bytes; the loops on words equal those on bytes, and the string functions
      are what their names say.  KPrint.v, KPrintThm.v: [rt_vsnprintf]; what it
      leaves in the buffer is the text of the format.  KHeap.v: aligned blocks
      and copies of strings on the heap of src/mem.c.
    - Scheduler.v: scheduler state and operations; ReadyBitmap.v, SchedInv.v,
      SchedSpec.v, SchedThm.v: the bitmap represents the non-empty queues,
      the invariant [swf], [rt_schedule] refines the choice of the first thread
      of the highest queue, round robin.
    - Object.v, ObjInv.v: object containers and their invariant [owf].
    - Timer.v, TimerInv.v, Clock.v, ClockInv.v, TimerThm.v: the skip list,
      its invariant [twf], insertion in expiry order on the tick circle, and
      the clock interrupt, which leaves no expired timer.
    - Kernel.v, Thread.v: the kernel state, dynamic objects, threads, error
      numbers; KernelInv.v, ThreadInv.v: the invariant [kwf] of the whole
      kernel and its preservation by the thread operations.
    - Ipc.v, Semaphore.v, Mutex.v, Event.v, Mailbox.v, MsgQueue.v, MemPool.v:
      the objects of src/ipc.c and src/mempool.c; IpcInv.v, BlockInv.v,
      PrioInv.v, MqInv.v: waiting, waking, priority change, the slots of a
      message queue; SemSpec.v, MutexSpec.v, EventSpec.v,
      MailboxSpec.v, MqSpec.v, MpSpec.v: what each operation does on every
      branch, priority inheritance, first-in first-out delivery, counters that
      wrap.
    - Mem.v, MemInv.v, MemSpec.v, MemThm.v, MemRealloc.v: the allocator of
      src/mem.c refines first fit on a list of blocks, hands out disjoint
      aligned memory, joins free neighbours, and keeps contents on
      reallocation.
    - RingBuffer.v, RingSpec.v: the ring buffer of
      components/drivers/src/ringbuffer.c refines a bounded queue of bytes.
    - Boot.v, Demo.v: start-up, initialisation of objects at fresh addresses,
      and a running system the witnesses compute with.
    - Idle.v: the idle thread; its hooks are parameters.
    - Keeps.v, Stable.v, Frames.v: rules for invariants through
      whole calls, and what a call leaves alone at the addresses it does not
      name.
    - Own.v: the invariant [mwf] of dynamic memory: nothing of the kernel lies
      in free memory, and dynamic objects own disjoint allocations.
      Dynamic.v, DynPool.v, Lifetime.v, ThreadLife.v, IdleSpec.v: creation is
      all or nothing, deletion gives the memory back, detached objects leave
      nothing behind; the end of a thread and its collection by the idle
      thread.
    - Calls.v, Progress.v, System.v: the calls of an application with their
      contracts, and the safety of the system: from start-up, through any
      sequence of calls within their contracts, of turns of the idle thread
      and of clock interrupts, both invariants hold and no call faults.
    - LifeThm.v: the idle thread reclaims exactly the memory of terminated
      threads, [rt_thread_exit], creation of message queues, and the types of
      all objects the kernel reaches.
    - FinshVm.v, FinshData.v, FinshHeap.v, FinshNode.v, FinshToken.v,
      FinshParser.v, FinshCompiler.v, FinshShell.v: the shell, one file per
      part: byte code machine, symbols and errors, string heap, node table,
      tokenizer, parser, type check and compiler, evaluation of a line.
    - FinshTree.v, FinshExec.v, FinshRun.v: syntax trees in the
      node table and their byte code; the meaning [eval] of expressions on
      memory; the byte code machine computes it.  FinshComp.v: type
      check and compiler produce that byte code, for lists of statements.
      FinshExpr.v, FinshParse.v, FinshLex.v: source
      expressions and their tokens; the tokenizer inverts printing, and the
      parser builds the tree that precedence and associativity demand.
      FinshThm.v: a line is evaluated to its meaning, the parts of that, and the
      machine always ends.  FinshCases.v: sessions, among them input on which the
      shell does not do what C does.

    ** Bounds and fuel

    Loops whose length depends on the state take fuel: one unit per waiting
    thread for the loops that wake all waiters, one per running timer for the
    clock interrupt, one per block for the loops of the allocator, one per
    terminated thread for the idle thread.  The fuel is
    computed from the state by the definitions themselves or is a hypothesis
    of the theorems ([length (running k) < fuel]), and the theorems state that
    the call returns.  Ticks are compared on the 32-bit circle; the theorems on
    timers ask that waiting times are below half of it, as the source asserts.
    In the shell, the byte code machine has one turn per byte of the text
    segment, the recursion over nodes the size of the node table, and the
    tokenizer and parser a multiple of the length of the line ([line_fuel],
    [parse_fuel]); the theorems show these are enough.

    ** Not modelled

    Context switches and the stacks they use are outside the model: a switch
    is the change of [sc_current].  The alternative allocators (src/slab.c,
    src/memheap.c), signals, multiprocessor scheduling, modules and
    light-weight processes are not part of the configuration.  Device drivers,
    file systems and the network stacks reach hardware or
    third-party code through function pointers the source does not define.  Of
    the shell, line editing, history, completion, the module shell and the
    commands that list objects are left out: they read and print characters.
    The theorems on lines are about expressions; declarations, casts and string
    literals are modelled and appear in FinshCases.v.
    The semaphore with which src/mem.c serialises its callers is left out:
    each allocator call is one step. *)

From stdpp Require Export base tactics option list gmap sets fin_maps.
From Stdlib Require Export ZArith Lia Sorting.Sorted.

#[global] Open Scope Z_scope.

(** ** Machine integers

    [rt_uint8_t], [rt_uint16_t], [rt_uint32_t] and [rt_int32_t] of
    include/rtdef.h, as [Z] with the wrap-around written out. *)

Definition u8 (x : Z) : Z := x mod 2 ^ 8.
Definition u16 (x : Z) : Z := x mod 2 ^ 16.
Definition u32 (x : Z) : Z := x mod 2 ^ 32.
Definition i8 (x : Z) : Z := (x + 2 ^ 7) mod 2 ^ 8 - 2 ^ 7.
Definition i16 (x : Z) : Z := (x + 2 ^ 15) mod 2 ^ 16 - 2 ^ 15.
Definition i32 (x : Z) : Z := (x + 2 ^ 31) mod 2 ^ 32 - 2 ^ 31.

(** C truth values. *)
Definition truthy (x : Z) : bool := negb (x =? 0).

(** Error numbers of include/rtdef.h. *)
Definition RT_EOK : Z := 0.
Definition RT_ERROR : Z := 1.
Definition RT_ETIMEOUT : Z := 2.
Definition RT_EFULL : Z := 3.
Definition RT_EEMPTY : Z := 4.
Definition RT_ENOMEM : Z := 5.
Definition RT_ENOSYS : Z := 6.
Definition RT_EBUSY : Z := 7.
Definition RT_EIO : Z := 8.
Definition RT_EINTR : Z := 9.
Definition RT_EINVAL : Z := 10.

Definition RT_NULL : Z := 0.
Definition RT_TICK_MAX : Z := 0xffffffff.
Definition RT_WAITING_FOREVER : Z := -1.

(** [RT_ALIGN] and [RT_ALIGN_DOWN] on the machine's unsigned word. *)
Definition RT_ALIGN (size align : Z) : Z :=
  Z.land (size + align - 1) (Z.lnot (align - 1)).
Definition RT_ALIGN_DOWN (size align : Z) : Z :=
  Z.land size (Z.lnot (align - 1)).

(** ** Build configuration

    The constants rtconfig.h fixes; their ranges are those of src/KConfig and
    include/rtdef.h. *)

Class Config := {
  RT_THREAD_PRIORITY_MAX : Z;
  RT_NAME_MAX : nat;
  RT_TICK_PER_SECOND : Z;
  RT_ALIGN_SIZE : Z;
  RT_TIMER_SKIP_LIST_LEVEL : nat;
  RT_TIMER_SKIP_LIST_MASK : Z;
  sizeof_ptr : Z;
  object_size : Z -> Z   (* sizeof the structure of an object class *)
}.

Class ConfigOk (C : Config) : Prop := {
  cfg_prio : 0 < RT_THREAD_PRIORITY_MAX <= 256;
  cfg_name : (2 <= RT_NAME_MAX <= 32)%nat;
  cfg_tick : 10 <= RT_TICK_PER_SECOND <= 1000;
  cfg_align : exists k, 0 <= k /\ RT_ALIGN_SIZE = 2 ^ k;
  cfg_level : (1 <= RT_TIMER_SKIP_LIST_LEVEL)%nat;
  cfg_mask : RT_TIMER_SKIP_LIST_MASK = 1 \/ RT_TIMER_SKIP_LIST_MASK = 3;
  cfg_ptr : sizeof_ptr = 4 \/ sizeof_ptr = 8;
  cfg_size : forall c, 0 < object_size c
}.

(** [rt_ubase_t] and [rt_size_t] arithmetic. *)
Definition ubase {CF : Config} (x : Z) : Z := x mod 2 ^ (8 * sizeof_ptr).

(** The defaults of src/KConfig. *)
Definition default_config : Config := {|
  RT_THREAD_PRIORITY_MAX := 32;
  RT_NAME_MAX := 8;
  RT_TICK_PER_SECOND := 100;
  RT_ALIGN_SIZE := 4;
  RT_TIMER_SKIP_LIST_LEVEL := 1;
  RT_TIMER_SKIP_LIST_MASK := 3;
  sizeof_ptr := 4;
  object_size := fun _ => 128
|}.

(** The same with 256 priorities and a two-row timer skip list. *)
Definition large_config : Config := {|
  RT_THREAD_PRIORITY_MAX := 256;
  RT_NAME_MAX := 8;
  RT_TICK_PER_SECOND := 1000;
  RT_ALIGN_SIZE := 4;
  RT_TIMER_SKIP_LIST_LEVEL := 2;
  RT_TIMER_SKIP_LIST_MASK := 3;
  sizeof_ptr := 4;
  object_size := fun _ => 128
|}.

(** ** The state-and-fault monad

    A C function that updates a component's state [S] and returns an [A].  A
    [Fault] is a run that leaves the defined behaviour of the source: a failed
    [RT_ASSERT] (whose handler never returns), the dereference of a pointer
    that is not an object of the expected kind, the insertion of a list node
    that is already linked, arithmetic C leaves undefined, or a loop that runs
    out of the fuel it is given. *)

Inductive fault := AssertFail | BadPtr | BadList | BadFree | BadArith | OutOfFuel.

Inductive outcome (S A : Type) :=
| Ok (a : A) (s : S)
| Fault (f : fault).
Arguments Ok {S A} a s.
Arguments Fault {S A} f.

Definition M (S A : Type) : Type := S -> outcome S A.

#[global] Instance M_ret S : MRet (M S) := fun A a s => Ok a s.
#[global] Instance M_bind S : MBind (M S) := fun A B k m s =>
  match m s with
  | Ok a s' => k a s'
  | Fault f => Fault f
  end.

Definition getS {S} : M S S := fun s => Ok s s.
Definition gets {S A} (f : S -> A) : M S A := fun s => Ok (f s) s.
Definition modify {S} (f : S -> S) : M S unit := fun s => Ok tt (f s).
Definition fail {S A} (f : fault) : M S A := fun _ => Fault f.
Definition of_option {S A} (e : fault) (o : option A) : M S A :=
  match o with Some a => mret a | None => fail e end.

(** [RT_ASSERT(b)]. *)
Definition RT_ASSERT {S} (b : bool) : M S unit :=
  if b then mret tt else fail AssertFail.

(** [if (b) { m }] with no else branch. *)
Definition when {S} (b : bool) (m : M S unit) : M S unit :=
  if b then m else mret tt.

(** A computation on a part [T] of the state [S]. *)
Definition zoom {S T A} (get : S -> T) (put : T -> S -> S) (m : M T A) : M S A :=
  fun s => match m (get s) with
           | Ok a t => Ok a (put t s)
           | Fault f => Fault f
           end.

(** Total-correctness triple: from a state in [P], [m] does not fault and ends
    in a result and state in [Q]. *)
Definition spec {S A} (P : S -> Prop) (m : M S A) (Q : A -> S -> Prop) : Prop :=
  forall s, P s -> exists a s', m s = Ok a s' /\ Q a s'.

(** ** Tactics *)

(** Step a monadic run: unfold the combinators and reduce. *)
Ltac mrun :=
  unfold mbind, M_bind, mret, M_ret, gets, getS, modify, fail, of_option,
    when, RT_ASSERT, zoom in *; cbn beta iota zeta in *.

(** Split the boolean tests of the goal. *)
Ltac bcase :=
  match goal with
  | |- context [if ?b then _ else _] =>
      lazymatch b with
      | context [if _ then _ else _] => fail
      | _ => let E := fresh "E" in destruct b eqn:E
      end
  end.

Ltac btrue := repeat match goal with
  | H : (_ && _)%bool = true |- _ => apply andb_true_iff in H as [? ?]
  | H : (_ || _)%bool = false |- _ => apply orb_false_iff in H as [? ?]
  | H : negb _ = true |- _ => apply negb_true_iff in H
  | H : negb _ = false |- _ => apply negb_false_iff in H
  | H : (_ =? _) = true |- _ => apply Z.eqb_eq in H
  | H : (_ =? _) = false |- _ => apply Z.eqb_neq in H
  | H : (_ <? _) = true |- _ => apply Z.ltb_lt in H
  | H : (_ <? _) = false |- _ => apply Z.ltb_ge in H
  | H : (_ <=? _) = true |- _ => apply Z.leb_le in H
  | H : (_ <=? _) = false |- _ => apply Z.leb_gt in H
  end.

(** ** Generic lemmas *)

Lemma bind_ok {S A B} (m : M S A) (k : A -> M S B) s a s' :
  m s = Ok a s' -> (m ≫= k) s = k a s'.
Proof. unfold mbind, M_bind. by intros ->. Qed.

Lemma bind_fault {S A B} (m : M S A) (k : A -> M S B) s f :
  m s = Fault f -> (m ≫= k) s = Fault f.
Proof. unfold mbind, M_bind. by intros ->. Qed.

Lemma bind_gets {S A B} (f : S -> A) (k : A -> M S B) s : (gets f ≫= k) s = k (f s) s.
Proof. done. Qed.
Lemma bind_getS {S B} (k : S -> M S B) s : (getS ≫= k) s = k s s.
Proof. done. Qed.
Lemma bind_modify {S B} (f : S -> S) (k : unit -> M S B) s :
  (modify f ≫= k) s = k tt (f s).
Proof. done. Qed.
Lemma bind_mret {S A B} (a : A) (k : A -> M S B) s : (mret a ≫= k) s = k a s.
Proof. done. Qed.
Lemma bind_assert {S B} (b : bool) (k : unit -> M S B) s :
  b = true -> (RT_ASSERT b ≫= k) s = k tt s.
Proof. by intros ->. Qed.
Lemma bind_assoc {S A B C} (m : M S A) (f : A -> M S B) (g : B -> M S C) s :
  ((m ≫= f) ≫= g) s = (m ≫= (fun a => f a ≫= g)) s.
Proof. unfold mbind, M_bind. by destruct (m s). Qed.
Lemma bind_when {S B} b (m : M S unit) (k : unit -> M S B) s :
  (when b m ≫= k) s = if b then (m ≫= k) s else k tt s.
Proof. by destruct b. Qed.
Lemma bind_if {S A B} (b : bool) (m1 m2 : M S A) (k : A -> M S B) s :
  ((if b then m1 else m2) ≫= k) s = if b then (m1 ≫= k) s else (m2 ≫= k) s.
Proof. by destruct b. Qed.

(** Facts about single operations, used to run a sequence of them. *)
Create HintDb run.

(** One step of a run [m s]: primitive state access, an assertion whose
    condition is at hand, or an operation whose outcome the database [run] or
    the context gives. *)
Ltac mstep :=
  first
    [ rewrite bind_gets | rewrite bind_getS | rewrite bind_modify | rewrite bind_mret
    | rewrite bind_assert by (first [reflexivity | assumption | solve [eauto with run]])
    | rewrite bind_assoc
    | rewrite bind_when | rewrite bind_if
    | erewrite bind_ok by (first [eassumption | solve [eauto with run]]) ];
  cbn beta.
Ltac msteps := repeat mstep.

Create HintDb rtk.

Lemma u8_range x : 0 <= u8 x < 256.
Proof. unfold u8. apply Z.mod_pos_bound. lia. Qed.

Lemma u16_range x : 0 <= u16 x < 65536.
Proof. unfold u16. apply Z.mod_pos_bound. lia. Qed.

Lemma u32_range x : 0 <= u32 x < 4294967296.
Proof. unfold u32. apply Z.mod_pos_bound. lia. Qed.

Lemma u8_small x : 0 <= x < 256 -> u8 x = x.
Proof. intros. unfold u8. apply Z.mod_small. lia. Qed.

Lemma u16_small x : 0 <= x < 65536 -> u16 x = x.
Proof. intros. unfold u16. apply Z.mod_small. lia. Qed.

Lemma u32_small x : 0 <= x < 4294967296 -> u32 x = x.
Proof. intros. unfold u32. apply Z.mod_small. lia. Qed.

Lemma i32_small x : - 2147483648 <= x < 2147483648 -> i32 x = x.
Proof. intros. unfold i32. rewrite Z.mod_small; lia. Qed.

Lemma ubase_range `{CO : ConfigOk} x : 0 <= ubase x < 2 ^ (8 * sizeof_ptr).
Proof. apply Z.mod_pos_bound. apply Z.pow_pos_nonneg; [lia|]. destruct cfg_ptr; lia. Qed.

Lemma ubase_small `{CO : ConfigOk} x : 0 <= x < 2 ^ (8 * sizeof_ptr) -> ubase x = x.
Proof. apply Z.mod_small. Qed.

(** Alignment to a power of two, by division. *)
Lemma align_down_div n k : 0 <= k -> RT_ALIGN_DOWN n (2 ^ k) = n / 2 ^ k * 2 ^ k.
Proof.
  intros Hk. unfold RT_ALIGN_DOWN. replace (2 ^ k - 1) with (Z.ones k) by (rewrite Z.ones_equiv; lia).
  rewrite <- Z.ldiff_land, Z.ldiff_ones_r, Z.shiftl_mul_pow2, Z.shiftr_div_pow2 by done. done.
Qed.

Lemma align_div n k : 0 <= k -> RT_ALIGN n (2 ^ k) = (n + 2 ^ k - 1) / 2 ^ k * 2 ^ k.
Proof. apply align_down_div. Qed.

#[export] Hint Resolve u8_range u16_range u32_range : rtk.

#[global] Instance default_config_ok : ConfigOk default_config.
Proof.
  split; cbn; try (by exists 2); auto; lia.
Qed.

#[global] Instance large_config_ok : ConfigOk large_config.
Proof.
  split; cbn; try (by exists 2); auto; lia.
Qed.
