(* ===== verification/KService.v ===== *)
(** * Kernel services (src/kservice.c): bit search

    [__rt_ffs], the table-driven search of the lowest set bit the scheduler
    uses to find the highest ready priority, and its correctness. *)

From S2P Require Import Prelude.

Definition __lowest_bit_bitmap : list Z :=
  [
   0; 0; 1; 0; 2; 0; 1; 0; 3; 0; 1; 0; 2; 0; 1; 0;
   4; 0; 1; 0; 2; 0; 1; 0; 3; 0; 1; 0; 2; 0; 1; 0;
   5; 0; 1; 0; 2; 0; 1; 0; 3; 0; 1; 0; 2; 0; 1; 0;
   4; 0; 1; 0; 2; 0; 1; 0; 3; 0; 1; 0; 2; 0; 1; 0;
   6; 0; 1; 0; 2; 0; 1; 0; 3; 0; 1; 0; 2; 0; 1; 0;
   4; 0; 1; 0; 2; 0; 1; 0; 3; 0; 1; 0; 2; 0; 1; 0;
   5; 0; 1; 0; 2; 0; 1; 0; 3; 0; 1; 0; 2; 0; 1; 0;
   4; 0; 1; 0; 2; 0; 1; 0; 3; 0; 1; 0; 2; 0; 1; 0;
   7; 0; 1; 0; 2; 0; 1; 0; 3; 0; 1; 0; 2; 0; 1; 0;
   4; 0; 1; 0; 2; 0; 1; 0; 3; 0; 1; 0; 2; 0; 1; 0;
   5; 0; 1; 0; 2; 0; 1; 0; 3; 0; 1; 0; 2; 0; 1; 0;
   4; 0; 1; 0; 2; 0; 1; 0; 3; 0; 1; 0; 2; 0; 1; 0;
   6; 0; 1; 0; 2; 0; 1; 0; 3; 0; 1; 0; 2; 0; 1; 0;
   4; 0; 1; 0; 2; 0; 1; 0; 3; 0; 1; 0; 2; 0; 1; 0;
   5; 0; 1; 0; 2; 0; 1; 0; 3; 0; 1; 0; 2; 0; 1; 0;
   4; 0; 1; 0; 2; 0; 1; 0; 3; 0; 1; 0; 2; 0; 1; 0].

Definition bitmap_at (i : Z) : Z := nth (Z.to_nat i) __lowest_bit_bitmap 0.

(** [value] is the two's complement bit pattern of the argument. *)
Definition __rt_ffs (value : Z) : Z :=
  if value =? 0 then 0
  else if truthy (Z.land value 0xff) then bitmap_at (Z.land value 0xff) + 1
  else if truthy (Z.land value 0xff00) then
    bitmap_at (Z.shiftr (Z.land value 0xff00) 8) + 9
  else if truthy (Z.land value 0xff0000) then
    bitmap_at (Z.shiftr (Z.land value 0xff0000) 16) + 17
  else bitmap_at (Z.shiftr (Z.land value 0xff000000) 24) + 25.

(** ** Lemmas *)

(** [i] is the index of the lowest set bit of [v]. *)
Definition lowest_bit (v i : Z) : Prop :=
  0 <= i /\ Z.testbit v i = true /\ forall j, 0 <= j < i -> Z.testbit v j = false.

Definition table_entry_ok (b : Z) : bool :=
  let i := bitmap_at b in
  (0 <=? i) && (i <? 8) && Z.testbit b i &&
  forallb (fun j => negb (Z.testbit b (Z.of_nat j))) (seq 0 (Z.to_nat i)).

Lemma table_ok :
  forallb (fun n => table_entry_ok (Z.of_nat n)) (seq 1 255) = true.
Proof. vm_compute. reflexivity. Qed.

Lemma table_lowest b : 0 < b < 256 -> lowest_bit b (bitmap_at b) /\ bitmap_at b < 8.
Proof.
  intros Hb. pose proof table_ok as H. rewrite forallb_forall in H.
  specialize (H (Z.to_nat b)). rewrite Z2Nat.id in H by lia.
  assert (Hin : In (Z.to_nat b) (seq 1 255)) by (apply in_seq; lia).
  apply H in Hin. unfold table_entry_ok in Hin. btrue.
  split; [|done]. split_and!; [done|done|]. intros j Hj.
  match goal with F : forallb _ _ = true |- _ => rewrite forallb_forall in F;
    specialize (F (Z.to_nat j)) end.
  rewrite Z2Nat.id in * by lia.
  apply negb_true_iff. match goal with F : In _ _ -> _ |- _ => apply F end.
  apply in_seq. lia.
Qed.

(** A byte window [k, k+8) of [v]. *)
Lemma land_window v k i :
  0 <= k -> 0 <= i ->
  Z.testbit (Z.shiftr (Z.land v (Z.shiftl 255 k)) k) i = Z.testbit v (i + k) && (i <? 8).
Proof.
  intros Hk Hi. rewrite Z.shiftr_spec, Z.land_spec, Z.shiftl_spec by lia.
  replace (i + k - k) with i by lia.
  change 255 with (Z.ones 8). f_equal.
  destruct (Z.ltb_spec i 8); [by apply Z.ones_spec_low; lia|by apply Z.ones_spec_high; lia].
Qed.

Lemma window_range v k :
  0 <= k -> 0 <= Z.shiftr (Z.land v (Z.shiftl 255 k)) k < 256.
Proof.
  intros Hk. set (w := Z.shiftr _ _).
  assert (E : w = w mod 2 ^ 8).
  { apply Z.bits_inj'. intros i Hi. unfold w.
    destruct (Z.ltb_spec i 8).
    - by rewrite Z.mod_pow2_bits_low by lia.
    - rewrite Z.mod_pow2_bits_high by lia. rewrite land_window by lia.
      destruct (Z.ltb_spec i 8); [lia|]. by rewrite andb_false_r. }
  rewrite E. apply Z.mod_pos_bound. lia.
Qed.

Lemma window_zero v k :
  0 <= k -> Z.land v (Z.shiftl 255 k) = 0 ->
  forall j, k <= j < k + 8 -> Z.testbit v j = false.
Proof.
  intros Hk E j Hj. pose proof (land_window v k (j - k) Hk ltac:(lia)) as H.
  rewrite E, Z.shiftr_0_l, Z.bits_0 in H.
  replace (j - k + k) with j in H by lia.
  destruct (Z.ltb_spec (j - k) 8); [|lia]. by rewrite andb_true_r in H.
Qed.

(** The byte at [k] is the first non-zero one. *)
Lemma window_lowest v k :
  0 <= k -> Z.land v (Z.shiftl 255 k) <> 0 ->
  (forall j, 0 <= j < k -> Z.testbit v j = false) ->
  lowest_bit v (bitmap_at (Z.shiftr (Z.land v (Z.shiftl 255 k)) k) + k) /\
  0 <= bitmap_at (Z.shiftr (Z.land v (Z.shiftl 255 k)) k) < 8.
Proof.
  intros Hk Hnz Hlow. set (w := Z.shiftr _ _).
  pose proof (window_range v k Hk) as Hr. fold w in Hr.
  assert (w <> 0).
  { intros E. apply Hnz. apply Z.bits_inj'. intros i Hi. rewrite Z.bits_0, Z.land_spec.
    destruct (Z.testbit (Z.shiftl 255 k) i) eqn:Eb; [|by rewrite andb_false_r].
    rewrite Z.shiftl_spec in Eb by lia.
    destruct (Z.ltb_spec i k); [by rewrite Z.testbit_neg_r in Eb by lia|].
    pose proof (land_window v k (i - k) Hk ltac:(lia)) as HH. fold w in HH.
    rewrite E, Z.bits_0 in HH. replace (i - k + k) with i in HH by lia.
    destruct (Z.ltb_spec (i - k) 8); [by rewrite andb_true_r in *|].
    change 255 with (Z.ones 8) in Eb. by rewrite Z.ones_spec_high in Eb by lia. }
  destruct (table_lowest w) as [(H0 & H1 & H2) H3]; [lia|].
  split; [|lia]. split_and!; [lia| |].
  - pose proof (land_window v k (bitmap_at w) Hk H0) as HH. fold w in HH.
    rewrite HH in H1. by btrue.
  - intros j Hj. destruct (Z.ltb_spec j k); [by apply Hlow; lia|].
    specialize (H2 (j - k)). pose proof (land_window v k (j - k) Hk ltac:(lia)) as HH.
    fold w in HH. rewrite HH in H2. replace (j - k + k) with j in H2 by lia.
    destruct (Z.ltb_spec (j - k) 8); [|lia]. rewrite andb_true_r in H2. apply H2. lia.
Qed.

Lemma ffs_spec v :
  0 <= v < 2 ^ 32 ->
  (v = 0 -> __rt_ffs v = 0) /\
  (v <> 0 -> 1 <= __rt_ffs v <= 32 /\ lowest_bit v (__rt_ffs v - 1)).
Proof.
  intros Hv. unfold __rt_ffs. split; [by intros ->|]. intros Hnz.
  destruct (Z.eqb_spec v 0); [done|]. unfold truthy.
  destruct (Z.eqb_spec (Z.land v 0xff) 0) as [E0|E0]; simpl.
  2:{ destruct (window_lowest v 0) as [H Hr]; [lia|done|intros; lia|].
      rewrite Z.shiftr_0_r in H, Hr. change (Z.shiftl 255 0) with 255 in *.
      split; [lia|]. by replace (_ + 1 - 1) with (bitmap_at (Z.land v 255) + 0) by lia. }
  pose proof (window_zero v 0 ltac:(lia) E0) as B0.
  destruct (Z.eqb_spec (Z.land v 0xff00) 0) as [E1|E1]; simpl.
  2:{ destruct (window_lowest v 8) as [H Hr]; [lia|done|intros; apply B0; lia|].
      change (Z.shiftl 255 8) with 0xff00 in *. split; [lia|].
      by replace (_ + 9 - 1) with (bitmap_at (Z.shiftr (Z.land v 0xff00) 8) + 8) by lia. }
  pose proof (window_zero v 8 ltac:(lia) E1) as B1.
  assert (B01 : forall j, 0 <= j < 16 -> Z.testbit v j = false).
  { intros j Hj. destruct (Z.ltb_spec j 8); [apply B0; lia|apply B1; lia]. }
  destruct (Z.eqb_spec (Z.land v 0xff0000) 0) as [E2|E2]; simpl.
  2:{ destruct (window_lowest v 16) as [H Hr]; [lia|done|intros; apply B01; lia|].
      change (Z.shiftl 255 16) with 0xff0000 in *. split; [lia|].
      by replace (_ + 17 - 1) with (bitmap_at (Z.shiftr (Z.land v 0xff0000) 16) + 16) by lia. }
  pose proof (window_zero v 16 ltac:(lia) E2) as B2.
  assert (B012 : forall j, 0 <= j < 24 -> Z.testbit v j = false).
  { intros j Hj. destruct (Z.ltb_spec j 16); [apply B01; lia|apply B2; lia]. }
  destruct (window_lowest v 24) as [H Hr]; [lia| |intros; apply B012; lia|].
  { intros E3. pose proof (window_zero v 24 ltac:(lia) E3) as B3. apply Hnz.
    apply Z.bits_inj'. intros i Hi. rewrite Z.bits_0.
    destruct (Z.ltb_spec i 24); [apply B012; lia|].
    destruct (Z.ltb_spec i 32); [apply B3; lia|].
    destruct (Z.eq_dec v 0); [done|].
    apply Z.bits_above_log2; [lia|]. apply Z.log2_lt_pow2; [lia|].
    apply Z.lt_le_trans with (2 ^ 32); [lia|]. apply Z.pow_le_mono_r; lia. }
  change (Z.shiftl 255 24) with 0xff000000 in *. split; [lia|].
  by replace (_ + 25 - 1) with (bitmap_at (Z.shiftr (Z.land v 0xff000000) 24) + 24) by lia.
Qed.

Lemma lowest_bit_unique v i j : lowest_bit v i -> lowest_bit v j -> i = j.
Proof.
  intros (Hi & Bi & Li) (Hj & Bj & Lj).
  destruct (Z.lt_trichotomy i j) as [H|[H|H]]; [|done|].
  - rewrite Lj in Bi by lia. done.
  - rewrite Li in Bj by lia. done.
Qed.

(** The bit-by-bit search the table replaces. *)
Fixpoint ffs_ref (n : nat) (i v : Z) : Z :=
  match n with
  | O => 0
  | S n => if Z.testbit v i then i + 1 else ffs_ref n (i + 1) v
  end.

Lemma ffs_ref_spec n i v b :
  0 <= i -> lowest_bit v b -> (forall j, 0 <= j < i -> Z.testbit v j = false) ->
  b < i + Z.of_nat n -> ffs_ref n i v = b + 1.
Proof.
  revert i. induction n as [|n IH]; intros i Hi Hb Hlow Hn; simpl.
  - destruct Hb as (? & Hb & _). rewrite Hlow in Hb by lia. done.
  - destruct (Z.testbit v i) eqn:E.
    + rewrite (lowest_bit_unique v i b); [done| |done]. by split_and!.
    + apply IH; [lia|done| |lia]. intros j Hj.
      destruct (Z.eq_dec j i) as [->|]; [done|]. apply Hlow. lia.
Qed.

(** C39: the table-driven [__rt_ffs] computes the same result as a bit-by-bit
    search, for every 32-bit value including those with the sign bit set. *)
Theorem rt_ffs_equiv v :
  0 <= v < 2 ^ 32 -> __rt_ffs v = ffs_ref 32 0 v.
Proof.
  intros Hv. destruct (ffs_spec v Hv) as [H0 H1].
  destruct (Z.eq_dec v 0) as [->|Hnz]; [reflexivity|].
  destruct (H1 Hnz) as [Hr Hl].
  rewrite (ffs_ref_spec 32 0 v (__rt_ffs v - 1)); [lia|lia|done|intros; lia|lia].
Qed.

Lemma rt_ffs_equiv_witness : __rt_ffs 0x80000000 = 32.
Proof. rewrite rt_ffs_equiv by lia. reflexivity. Defined.
