(* ===== verification/KString.v ===== *)
(** * Memory and string services (src/kservice.c)

    [rt_memset] to [rt_strlen] on a memory of bytes.  A pointer is an address;
    reading or writing an address without a byte is a fault.  [long] has the
    size of a pointer; words are little-endian, which no result depends on. *)

From S2P Require Import Prelude.

(** Whether [char] is signed is up to the compiler. *)
Class CharSign := char_signed : bool.

Abbreviation bmem := (gmap Z Z).

(** Little-endian access. *)
Fixpoint load (n : nat) (a : Z) (m : bmem) : option Z :=
  match n with
  | O => Some 0
  | S n => b ← m !! a; v ← load n (a + 1) m; Some (b + 256 * v)
  end.
Fixpoint store (n : nat) (a v : Z) (m : bmem) : option bmem :=
  match n with
  | O => Some m
  | S n => _ ← m !! a; store n (a + 1) (v / 256) (<[a := v mod 256]> m)
  end.

Section KString.
Context {CF : Config} {CS : CharSign}.

Definition load8 (p : Z) : M bmem Z := m ← getS; of_option BadPtr (m !! p).
Definition store8 (p v : Z) : M bmem unit :=
  m ← getS; _ ← of_option BadPtr (m !! p); modify <[p := u8 v]>.

(** A word at an address that is not aligned is a fault, too. *)
Definition LBLOCKSIZE : Z := sizeof_ptr.
Definition UNALIGNED (x : Z) : bool := truthy (Z.land x (LBLOCKSIZE - 1)).
Definition load_long (p : Z) : M bmem Z :=
  m ← getS;
  if UNALIGNED p then fail BadPtr else of_option BadPtr (load (Z.to_nat sizeof_ptr) p m).
Definition store_long (p v : Z) : M bmem unit :=
  m ← getS;
  m' ← (if UNALIGNED p then fail BadPtr else of_option BadPtr (store (Z.to_nat sizeof_ptr) p v m));
  modify (fun _ => m').

(** A byte as a [char]. *)
Definition to_char (b : Z) : Z := if char_signed then i8 b else u8 b.

(** The bytes from an address on are no more than the memory has. *)
Definition scan_fuel : M bmem nat := m ← getS; mret (S (size m)).

(** ** rt_memset *)

Definition memset_buffer (d : Z) : Z :=
  if LBLOCKSIZE =? 4 then
    let buffer := Z.lor (Z.shiftl d 8) d in
    Z.lor buffer (Z.shiftl buffer 16)
  else Nat.iter (Z.to_nat LBLOCKSIZE) (fun buffer => Z.lor (ubase (Z.shiftl buffer 8)) d) 0.

(** The loop on [unroll] words a turn. *)
Fixpoint set_longs (n : nat) (a buffer : Z) : M bmem unit :=
  match n with
  | O => mret tt
  | S n => store_long a buffer;; set_longs n (a + LBLOCKSIZE) buffer
  end.
Fixpoint memset_long (fuel unroll : nat) (a count buffer : Z) : M bmem (Z * Z) :=
  let block := LBLOCKSIZE * Z.of_nat unroll in
  if block <=? count then
    match fuel with
    | O => fail OutOfFuel
    | S fuel => set_longs unroll a buffer;; memset_long fuel unroll (a + block) (count - block) buffer
    end
  else mret (a, count).
Fixpoint memset_byte (count : nat) (m d : Z) : M bmem unit :=
  match count with
  | O => mret tt
  | S count => store8 m d;; memset_byte count (m + 1) d
  end.

(** The words of an aligned block, and what is left of it. *)
Definition memset_words (s count d : Z) : M bmem (Z * Z) :=
  if negb (count <? LBLOCKSIZE) && negb (UNALIGNED s) then
    let buffer := memset_buffer d in
    big ← memset_long (Z.to_nat count) 4 s count buffer;
    memset_long (Z.to_nat count) 1 big.1 big.2 buffer
  else mret (s, count).

Definition rt_memset (s c count : Z) : M bmem Z :=
  let d := Z.land c 0xff in
  r ← memset_words s count d;
  memset_byte (Z.to_nat r.2) r.1 d;;
  mret s.

(** ** rt_memcpy *)

Definition BIGBLOCKSIZE : Z := Z.shiftl sizeof_ptr 2.

Fixpoint copy_longs (n : nat) (dst src : Z) : M bmem unit :=
  match n with
  | O => mret tt
  | S n => v ← load_long src; store_long dst v;; copy_longs n (dst + LBLOCKSIZE) (src + LBLOCKSIZE)
  end.

(** [len] is an [int]; compared with a size it is converted to unsigned. *)
Fixpoint memcpy_long (fuel unroll : nat) (dst src len : Z) : M bmem (Z * Z * Z) :=
  let block := LBLOCKSIZE * Z.of_nat unroll in
  if block <=? ubase len then
    match fuel with
    | O => fail OutOfFuel
    | S fuel => copy_longs unroll dst src;; memcpy_long fuel unroll (dst + block) (src + block) (i32 (len - block))
    end
  else mret (dst, src, len).
Fixpoint memcpy_byte (len : nat) (dst src : Z) : M bmem unit :=
  match len with
  | O => mret tt
  | S len => b ← load8 src; store8 dst b;; memcpy_byte len (dst + 1) (src + 1)
  end.

Definition memcpy_words (dst src len : Z) (fuel : nat) : M bmem (Z * Z * Z) :=
  if negb (ubase len <? BIGBLOCKSIZE) && negb (UNALIGNED src || UNALIGNED dst) then
    big ← memcpy_long fuel 4 dst src len;
    memcpy_long fuel 1 big.1.1 big.1.2 big.2
  else mret (dst, src, len).

Definition rt_memcpy (dst src count : Z) : M bmem Z :=
  let len := i32 count in
  r ← memcpy_words dst src len (Z.to_nat count);
  memcpy_byte (Z.to_nat (u32 r.2)) r.1.1 r.1.2;;
  mret dst.

(** ** rt_memmove, rt_memcmp *)

Fixpoint memmove_down (n : nat) (tmp s : Z) : M bmem unit :=
  match n with
  | O => mret tt
  | S n => b ← load8 (s - 1); store8 (tmp - 1) b;; memmove_down n (tmp - 1) (s - 1)
  end.

Definition rt_memmove (dest src n : Z) : M bmem Z :=
  (if (src <? dest) && (dest <? src + n) then memmove_down (Z.to_nat n) (dest + n) (src + n)
   else memcpy_byte (Z.to_nat n) dest src);;
  mret dest.

Fixpoint memcmp_loop (count : nat) (su1 su2 : Z) : M bmem Z :=
  match count with
  | O => mret 0
  | S count =>
      a ← load8 su1;
      b ← load8 su2;
      if negb (a - b =? 0) then mret (a - b) else memcmp_loop count (su1 + 1) (su2 + 1)
  end.
Definition rt_memcmp (cs ct count : Z) : M bmem Z := memcmp_loop (Z.to_nat count) cs ct.

(** ** Strings *)

Fixpoint strlen_loop (fuel : nat) (sc : Z) : M bmem Z :=
  c ← load8 sc;
  if c =? 0 then mret sc
  else match fuel with O => fail OutOfFuel | S fuel => strlen_loop fuel (sc + 1) end.
Definition rt_strlen (s : Z) : M bmem Z :=
  fuel ← scan_fuel; sc ← strlen_loop fuel s; mret (sc - s).

Fixpoint strnlen_loop (fuel : nat) (s sc maxlen : Z) : M bmem Z :=
  c ← load8 sc;
  if negb (c =? 0) && (sc - s <? maxlen) then
    match fuel with O => fail OutOfFuel | S fuel => strnlen_loop fuel s (sc + 1) maxlen end
  else mret sc.
Definition rt_strnlen (s maxlen : Z) : M bmem Z :=
  fuel ← scan_fuel; sc ← strnlen_loop fuel s s maxlen; mret (sc - s).

(** [l1] and [l2] are lengths of strings, here below [2 ^ 31]. *)
Fixpoint strstr_loop (fuel : nat) (l1 l2 s1 s2 : Z) : M bmem Z :=
  if l2 <=? l1 then
    match fuel with
    | O => fail OutOfFuel
    | S fuel =>
        r ← rt_memcmp s1 s2 l2;
        if r =? 0 then mret s1 else strstr_loop fuel (l1 - 1) l2 (s1 + 1) s2
    end
  else mret RT_NULL.
Definition rt_strstr (s1 s2 : Z) : M bmem Z :=
  l2 ← rt_strlen s2;
  if l2 =? 0 then mret s1
  else
    l1 ← rt_strlen s1;
    strstr_loop (S (Z.to_nat l1)) l1 l2 s1 s2.

Definition to_lower (c : Z) : Z := if (65 <=? c) && (c <=? 90) then c + 32 else c.
Fixpoint strcasecmp_loop (fuel : nat) (a b : Z) : M bmem Z :=
  ca ← load8 a;
  cb ← load8 b;
  let ca := to_lower ca in
  let cb := to_lower cb in
  if (ca =? cb) && negb (ca =? 0) then
    match fuel with O => fail OutOfFuel | S fuel => strcasecmp_loop fuel (a + 1) (b + 1) end
  else mret (u32 (ca - cb)).
Definition rt_strcasecmp (a b : Z) : M bmem Z :=
  fuel ← scan_fuel; strcasecmp_loop fuel a b.

Fixpoint strncpy_loop (n : nat) (d s : Z) : M bmem unit :=
  match n with
  | O => mret tt
  | S n =>
      c ← load8 s;
      store8 d c;;
      if c =? 0 then memset_byte n (d + 1) 0 else strncpy_loop n (d + 1) (s + 1)
  end.
Definition rt_strncpy (dst src n : Z) : M bmem Z :=
  strncpy_loop (Z.to_nat n) dst src;; mret dst.

(** The difference is kept in a [signed char]. *)
Fixpoint strncmp_loop (count : nat) (cs ct res : Z) : M bmem Z :=
  match count with
  | O => mret res
  | S count =>
      a ← load8 cs;
      b ← load8 ct;
      let res := i8 (to_char a - to_char b) in
      if negb (res =? 0) || (a =? 0) then mret res else strncmp_loop count (cs + 1) (ct + 1) res
  end.
Definition rt_strncmp (cs ct count : Z) : M bmem Z := strncmp_loop (Z.to_nat count) cs ct 0.

Fixpoint strcmp_loop (fuel : nat) (cs ct : Z) : M bmem Z :=
  a ← load8 cs;
  b ← load8 ct;
  if negb (a =? 0) && (a =? b) then
    match fuel with O => fail OutOfFuel | S fuel => strcmp_loop fuel (cs + 1) (ct + 1) end
  else mret (to_char a - to_char b).
Definition rt_strcmp (cs ct : Z) : M bmem Z :=
  fuel ← scan_fuel; strcmp_loop fuel cs ct.

End KString.

(** ** Regions of memory *)

Definition mapped (p n : Z) (m : bmem) : Prop := forall i, p <= i < p + n -> is_Some (m !! i).
Definition bytes_ok (m : bmem) : Prop := map_Forall (fun _ b => 0 <= b < 256) m.

(** [m'] is [m] with the bytes [f] in the [n] bytes at [p]. *)
Definition updated (p n : Z) (f : Z -> option Z) (m m' : bmem) : Prop :=
  forall i, m' !! i = if (p <=? i) && (i <? p + n) then f i else m !! i.
(** The [n] bytes at [dst] are those that [m] has at [src]. *)
Abbreviation moved dst src n m m' := (updated dst n (fun i => m !! (i - dst + src)) m m').
Abbreviation filled p n c m m' := (updated p n (fun _ => Some c) m m').

Ltac region := repeat match goal with
  | |- context [?a <=? ?b] => destruct (Z.leb_spec a b); cbn [andb]; try lia
  | |- context [?a <? ?b] => destruct (Z.ltb_spec a b); cbn [andb]; try lia
  end.

Lemma mapped_sub p n q k m : mapped p n m -> p <= q -> q + k <= p + n -> mapped q k m.
Proof. intros H ? ? i Hi. apply H. lia. Qed.

Lemma updated_mapped p n f m m' q k : updated p n f m m' -> (forall i, p <= i < p + n -> is_Some (f i)) -> mapped q k m -> mapped q k m'.
Proof. intros U Hf H i Hi. rewrite U. region; first [apply Hf; lia|by apply H]. Qed.

Lemma filled_mapped p n c m m' q k : filled p n c m m' -> mapped q k m -> mapped q k m'.
Proof. intros U. apply (updated_mapped _ _ _ _ _ _ _ U). eauto. Qed.

Lemma moved_mapped dst src n m m' q k : moved dst src n m m' -> mapped src n m -> mapped q k m -> mapped q k m'.
Proof. intros U Hs. apply (updated_mapped _ _ _ _ _ _ _ U). intros i Hi. apply Hs. lia. Qed.

Lemma moved_ok dst src n m m' : moved dst src n m m' -> bytes_ok m -> bytes_ok m'.
Proof. intros U H i b. rewrite U. region; apply H. Qed.

Lemma updated_app p n k f m m1 m2 : 0 <= n -> 0 <= k -> updated p n f m m1 -> updated (p + n) k f m1 m2 -> updated p (n + k) f m m2.
Proof. intros ? ? U1 U2 i. rewrite U2, U1. region; done. Qed.

Lemma updated_nil p f m : updated p 0 f m m.
Proof. intros i. region; done. Qed.

(** A copy can go on behind the bytes copied so far, if these are not to be
    read any more. *)
Lemma moved_app dst src n k m m1 m2 : 0 <= n -> 0 <= k -> dst <= src \/ src + (n + k) <= dst ->
  moved dst src n m m1 -> moved (dst + n) (src + n) k m1 m2 -> moved dst src (n + k) m m2.
Proof.
  intros ? ? Ho U1 U2 i. rewrite U2. replace (i - (dst + n) + (src + n)) with (i - dst + src) by lia.
  rewrite !U1. region; done.
Qed.

(** ** Single accesses *)

Section Laws.
Context `{CO : ConfigOk} {CS : CharSign}.

Lemma load8_run p m b : m !! p = Some b -> load8 p m = Ok b m.
Proof. intros E. unfold load8. rewrite bind_getS, E. done. Qed.

Lemma store8_run p v m : mapped p 1 m -> exists m', store8 p v m = Ok tt m' /\ filled p 1 (u8 v) m m'.
Proof.
  intros H. destruct (H p ltac:(lia)) as [b E]. exists (<[p := u8 v]> m). split.
  - unfold store8. rewrite bind_getS, E. done.
  - intros i. destruct (decide (i = p)) as [->|]; [rewrite lookup_insert_eq|rewrite lookup_insert_ne by done]; region; done.
Qed.

Lemma copy8_run dst src m : bytes_ok m -> mapped src 1 m -> mapped dst 1 m ->
  exists b m', m !! src = Some b /\ store8 dst b m = Ok tt m' /\ moved dst src 1 m m'.
Proof.
  intros Hb Hs Hd. destruct (Hs src ltac:(lia)) as [b E]. destruct (store8_run dst b m Hd) as (m' & R & U).
  exists b, m'. split_and!; [done|done|]. intros i. rewrite U. region; try done.
  replace (i - dst + src) with src by lia. by rewrite E, u8_small by (by apply (Hb src)).
Qed.

Lemma store_run n : forall a v m, mapped a (Z.of_nat n) m -> exists m', store n a v m = Some m' /\
  updated a (Z.of_nat n) (fun i => Some (v / 256 ^ (i - a) mod 256)) m m'.
Proof.
  induction n as [|n IH]; intros a v m Hm; cbn [store]; [exists m; split; [done|apply updated_nil]|].
  destruct (Hm a ltac:(lia)) as [b E]. rewrite E. cbn.
  assert (U1 : updated a 1 (fun i => Some (v / 256 ^ (i - a) mod 256)) m (<[a := v mod 256]> m)).
  { intros i. destruct (decide (i = a)) as [->|]; [rewrite lookup_insert_eq, Z.sub_diag, Z.div_1_r|rewrite lookup_insert_ne by done]; region; done. }
  destruct (IH (a + 1) (v / 256) (<[a := v mod 256]> m)) as (m' & R & U).
  { apply (updated_mapped _ _ _ _ _ _ _ U1); [eauto|]. apply (mapped_sub _ _ _ _ _ Hm); lia. }
  exists m'. split; [done|]. replace (Z.of_nat (S n)) with (1 + Z.of_nat n) by lia.
  eapply updated_app; [lia|lia|exact U1|]. intros i. rewrite U. region; try done. do 2 f_equal.
  rewrite Z.div_div by (try apply Z.pow_pos_nonneg; lia). f_equal. rewrite <- Z.pow_succ_r by lia. f_equal. lia.
Qed.

Lemma load_run n : forall a m, bytes_ok m -> mapped a (Z.of_nat n) m ->
  exists v, load n a m = Some v /\ forall i, a <= i < a + Z.of_nat n -> m !! i = Some (v / 256 ^ (i - a) mod 256).
Proof.
  induction n as [|n IH]; intros a m Hb Hm; cbn [load]; [exists 0; split; [done|lia]|].
  destruct (Hm a ltac:(lia)) as [b E]. rewrite E. cbn. pose proof (Hb _ _ E) as Hr. cbn in Hr.
  destruct (IH (a + 1) m Hb) as (v & R & U); [apply (mapped_sub _ _ _ _ _ Hm); lia|].
  rewrite R. cbn. eexists. split; [done|]. intros i Hi. destruct (decide (i = a)) as [->|].
  - rewrite Z.sub_diag, Z.div_1_r, E. f_equal. rewrite (Z.mul_comm 256), Z_mod_plus_full. by rewrite Z.mod_small.
  - rewrite U by lia. do 2 f_equal. replace (i - a) with (Z.succ (i - (a + 1))) by lia. rewrite Z.pow_succ_r by lia.
    rewrite <- Z.div_div by (try apply Z.pow_pos_nonneg; lia). f_equal. rewrite (Z.mul_comm 256), Z.div_add by lia.
    rewrite Z.div_small; lia.
Qed.

Lemma long_size : Z.of_nat (Z.to_nat sizeof_ptr) = sizeof_ptr /\ 0 < sizeof_ptr.
Proof. destruct cfg_ptr as [-> | ->]; done. Qed.

Lemma unaligned_divide p : UNALIGNED p = false <-> (sizeof_ptr | p).
Proof.
  unfold UNALIGNED, LBLOCKSIZE, truthy. rewrite negb_false_iff, Z.eqb_eq, <- Z.mod_divide by (pose proof long_size; lia).
  destruct cfg_ptr as [-> | ->]; [change (4 - 1) with (Z.ones 2)|change (8 - 1) with (Z.ones 3)]; by rewrite Z.land_ones by lia.
Qed.

Lemma aligned_next p : (sizeof_ptr | p) -> (sizeof_ptr | p + sizeof_ptr).
Proof. intros H. apply Z.divide_add_r; [done|apply Z.divide_refl]. Qed.

Lemma aligned_block p n : (sizeof_ptr | p) -> (sizeof_ptr | p + sizeof_ptr * n).
Proof. intros H. apply Z.divide_add_r; [done|apply Z.divide_factor_l]. Qed.

Lemma copy_long_run dst src m : (sizeof_ptr | dst) -> (sizeof_ptr | src) -> bytes_ok m -> mapped src sizeof_ptr m -> mapped dst sizeof_ptr m ->
  exists v m', load_long src m = Ok v m /\ store_long dst v m = Ok tt m' /\ moved dst src sizeof_ptr m m'.
Proof.
  intros Ad%unaligned_divide As%unaligned_divide. destruct long_size as [El _]. rewrite <- El. intros Hb Hs Hd.
  destruct (load_run _ src m Hb Hs) as (v & R & U). destruct (store_run _ dst v m Hd) as (m' & R' & U').
  exists v, m'. unfold load_long, store_long. rewrite !bind_getS, Ad, As, R, R'. split_and!; [done|done|].
  intros i. rewrite U'. region; try done. rewrite U by lia. by replace (i - dst + src - src) with (i - dst) by lia.
Qed.

(** ** Filling *)

(** [prog] returns [a] and fills the [n] bytes at [p]. *)
Definition fills {A} (prog : M bmem A) (p n c : Z) (m : bmem) (a : A) : Prop :=
  exists m', prog m = Ok a m' /\ filled p n c m m'.

Lemma fills_ret {A} p c m (a : A) : fills (mret a) p 0 c m a.
Proof. exists m. split; [done|apply updated_nil]. Qed.

Lemma fills_bind {A B} (prog : M bmem A) (k : A -> M bmem B) p n n' c m a b : 0 <= n -> 0 <= n' -> mapped p (n + n') m ->
  fills prog p n c m a -> (forall m1, mapped (p + n) n' m1 -> fills (k a) (p + n) n' c m1 b) ->
  fills (prog ≫= k) p (n + n') c m b.
Proof.
  intros ? ? Hm (m1 & R1 & U1) Hk. destruct (Hk m1) as (m2 & R2 & U2).
  { apply (filled_mapped _ _ _ _ _ _ _ U1). apply (mapped_sub _ _ _ _ _ Hm); lia. }
  exists m2. split; [by rewrite (bind_ok _ _ _ _ _ R1)|]. by apply (updated_app _ _ _ _ _ m1).
Qed.

Lemma memset_byte_run n : forall p d m, mapped p (Z.of_nat n) m -> fills (memset_byte n p d) p (Z.of_nat n) (u8 d) m tt.
Proof.
  induction n as [|n IH]; intros p d m Hm; cbn [memset_byte]; [apply fills_ret|].
  replace (Z.of_nat (S n)) with (1 + Z.of_nat n) in * by lia.
  eapply fills_bind; [lia|lia|done|apply store8_run, (mapped_sub _ _ _ _ _ Hm); lia|by intros; apply IH].
Qed.

(** Every byte of the word is [d]. *)
Lemma buffer_byte d k : 0 <= d < 256 -> 0 <= k < sizeof_ptr -> memset_buffer d / 256 ^ k mod 256 = d.
Proof.
  intros Hd Hk.
  assert (H : forallb (fun d => forallb (fun k => memset_buffer d / 256 ^ k mod 256 =? d) (seqZ 0 sizeof_ptr)) (seqZ 0 256) = true).
  { unfold memset_buffer, LBLOCKSIZE, ubase. destruct cfg_ptr as [-> | ->]; vm_compute; reflexivity. }
  rewrite forallb_forall in H. specialize (H d). rewrite forallb_forall in H.
  apply Z.eqb_eq, H; apply list_elem_of_In, elem_of_seqZ; lia.
Qed.

Lemma store_buffer_run p d m : (sizeof_ptr | p) -> 0 <= d < 256 -> mapped p sizeof_ptr m -> fills (store_long p (memset_buffer d)) p sizeof_ptr d m tt.
Proof.
  intros Ap%unaligned_divide. destruct long_size as [El _]. intros Hd. rewrite <- El at 1. intros Hm.
  destruct (store_run _ p (memset_buffer d) m Hm) as (m' & R & U).
  exists m'. unfold store_long. rewrite bind_getS, Ap, R. split; [done|]. rewrite El in U. intros i. rewrite U.
  region; try done. by rewrite buffer_byte by lia.
Qed.

Lemma set_longs_run n : forall p d m, (sizeof_ptr | p) -> 0 <= d < 256 -> mapped p (sizeof_ptr * Z.of_nat n) m ->
  fills (set_longs n p (memset_buffer d)) p (sizeof_ptr * Z.of_nat n) d m tt.
Proof.
  destruct long_size as [_ Hl]. induction n as [|n IH]; intros p d m Ap Hd Hm; cbn [set_longs]; [rewrite Z.mul_0_r; apply fills_ret|].
  replace (sizeof_ptr * Z.of_nat (S n)) with (sizeof_ptr + sizeof_ptr * Z.of_nat n) in * by lia.
  eapply fills_bind; [lia|nia|done|apply store_buffer_run; [done|done|]; apply (mapped_sub _ _ _ _ _ Hm); nia|].
  intros m1 Hm1. by apply IH; [apply aligned_next|..].
Qed.

(** The loop on words stops at a count below its step. *)
Lemma memset_long_run unroll : (0 < unroll)%nat -> forall fuel p count d m, (sizeof_ptr | p) -> 0 <= d < 256 -> 0 <= count <= Z.of_nat fuel -> mapped p count m ->
  exists n, 0 <= n <= count /\ (sizeof_ptr | p + n) /\ fills (memset_long fuel unroll p count (memset_buffer d)) p n d m (p + n, count - n).
Proof.
  intros Hu. destruct long_size as [_ Hl]. unfold LBLOCKSIZE.
  induction fuel as [|fuel IH]; intros p count d m Ap Hd Hc Hm; cbn [memset_long]; unfold LBLOCKSIZE; set (block := sizeof_ptr * Z.of_nat unroll);
    assert (0 < block) by nia; destruct (Z.leb_spec block count); [lia| | |].
  1,3: exists 0; split; [lia|]; rewrite Z.add_0_r, Z.sub_0_r; split; [done|apply fills_ret].
  assert (Hset : fills (set_longs unroll p (memset_buffer d)) p block d m tt) by (apply set_longs_run; [done|done|]; apply (mapped_sub _ _ _ _ _ Hm); lia).
  destruct Hset as (m1 & R1 & U1).
  destruct (IH (p + block) (count - block) d m1) as (n & Hn & An & m2 & R2 & U2); [by apply aligned_block|done|lia| |].
  { apply (filled_mapped _ _ _ _ _ _ _ U1), (mapped_sub _ _ _ _ _ Hm); lia. }
  exists (block + n). split; [lia|]. rewrite Z.add_assoc. split; [done|]. exists m2. split; [|by apply (updated_app _ _ _ _ _ m1); [lia|lia| |]].
  rewrite (bind_ok _ _ _ _ _ R1), R2. do 2 f_equal; lia.
Qed.

Lemma memset_words_run s count d m : 0 <= count -> 0 <= d < 256 -> mapped s count m ->
  exists n, 0 <= n <= count /\ fills (memset_words s count d) s n d m (s + n, count - n).
Proof.
  intros Hc Hd Hm. unfold memset_words.
  destruct (_ && _) eqn:Ec; [|exists 0; split; [lia|]; rewrite Z.add_0_r, Z.sub_0_r; apply fills_ret].
  apply andb_true_iff in Ec as [_ Ea%negb_true_iff%unaligned_divide].
  destruct (memset_long_run 4 ltac:(lia) (Z.to_nat count) s count d m) as (n & Hn & An & m1 & R1 & U1); [done|done|lia|done|].
  destruct (memset_long_run 1 ltac:(lia) (Z.to_nat count) (s + n) (count - n) d m1) as (n' & Hn' & _ & m2 & R2 & U2); [done|done|lia| |].
  { apply (filled_mapped _ _ _ _ _ _ _ U1), (mapped_sub _ _ _ _ _ Hm); lia. }
  exists (n + n'). split; [lia|]. exists m2. cbn zeta. rewrite (bind_ok _ _ _ _ _ R1). cbn [fst snd]. rewrite R2. split; [do 2 f_equal; lia|].
  by apply (updated_app _ _ _ _ _ m1); [lia|lia| |].
Qed.

Lemma rt_memset_run s c count m : 0 <= count -> mapped s count m -> fills (rt_memset s c count) s count (u8 c) m s.
Proof.
  intros Hc Hm. unfold rt_memset. set (d := Z.land c 255).
  assert (Ed : d = u8 c) by (unfold d, u8; change 255 with (Z.ones 8); by rewrite Z.land_ones by lia).
  assert (Hd : 0 <= d < 256) by (rewrite Ed; apply u8_range). rewrite <- Ed.
  destruct (memset_words_run s count d m Hc Hd Hm) as (n & Hn & m1 & R1 & U1).
  destruct (memset_byte_run (Z.to_nat (count - n)) (s + n) d m1) as (m2 & R2 & U2).
  { apply (filled_mapped _ _ _ _ _ _ _ U1), (mapped_sub _ _ _ _ _ Hm); lia. }
  exists m2. cbn zeta. rewrite (bind_ok _ _ _ _ _ R1). cbn [fst snd]. rewrite (bind_ok _ _ _ _ _ R2). split; [done|].
  replace count with (n + Z.of_nat (Z.to_nat (count - n))) by lia. rewrite (u8_small d) in U2 by done.
  by apply (updated_app _ _ _ _ _ m1); [lia|lia| |].
Qed.

(** ** Copying *)

(** Bytes can be copied upwards from [src] to [dst]. *)
Definition copy_ok (dst src n : Z) (m : bmem) : Prop :=
  bytes_ok m /\ mapped src n m /\ mapped dst n m /\ (dst <= src \/ src + n <= dst).

Definition copies {A} (prog : M bmem A) (dst src n : Z) (m : bmem) (a : A) : Prop :=
  exists m', prog m = Ok a m' /\ moved dst src n m m'.

Lemma copies_ret {A} dst src m (a : A) : copies (mret a) dst src 0 m a.
Proof. exists m. split; [done|apply updated_nil]. Qed.

Lemma copy_ok_step dst src n k m m1 : 0 <= n -> 0 <= k -> copy_ok dst src (n + k) m -> moved dst src n m m1 -> copy_ok (dst + n) (src + n) k m1.
Proof.
  intros ? ? (Hb & Hs & Hd & Ho) U. assert (mapped src n m) by (apply (mapped_sub _ _ _ _ _ Hs); lia).
  split_and!; [by apply (moved_ok _ _ _ _ _ U)| | |lia].
  - apply (moved_mapped _ _ _ _ _ _ _ U); [done|]. apply (mapped_sub _ _ _ _ _ Hs); lia.
  - apply (moved_mapped _ _ _ _ _ _ _ U); [done|]. apply (mapped_sub _ _ _ _ _ Hd); lia.
Qed.

Lemma copy_ok_sub dst src n k m : copy_ok dst src n m -> k <= n -> copy_ok dst src k m.
Proof. intros (? & Hs & Hd & ?) ?. split_and!; [done|apply (mapped_sub _ _ _ _ _ Hs); lia|apply (mapped_sub _ _ _ _ _ Hd); lia|lia]. Qed.

Lemma copies_bind {A B} (prog : M bmem A) (k : A -> M bmem B) dst src n n' m a b : 0 <= n -> 0 <= n' -> copy_ok dst src (n + n') m ->
  copies prog dst src n m a -> (forall m1, copy_ok (dst + n) (src + n) n' m1 -> copies (k a) (dst + n) (src + n) n' m1 b) ->
  copies (prog ≫= k) dst src (n + n') m b.
Proof.
  intros ? ? Hok (m1 & R1 & U1) Hk. destruct (Hk m1) as (m2 & R2 & U2); [by apply (copy_ok_step _ _ _ _ m)|].
  exists m2. split; [by rewrite (bind_ok _ _ _ _ _ R1)|]. apply (moved_app _ _ _ _ _ m1); try done. by destruct Hok as (_ & _ & _ & ?).
Qed.

Lemma memcpy_byte_run n : forall dst src m, copy_ok dst src (Z.of_nat n) m -> copies (memcpy_byte n dst src) dst src (Z.of_nat n) m tt.
Proof.
  induction n as [|n IH]; intros dst src m Hok; cbn [memcpy_byte]; [apply copies_ret|].
  destruct (copy_ok_sub _ _ _ 1 _ Hok) as (Hb & Hs & Hd & _); [lia|]. destruct (copy8_run dst src m Hb Hs Hd) as (b & m1 & E & R & U).
  unfold copies. rewrite (bind_ok _ _ _ _ _ (load8_run _ _ _ E)). replace (Z.of_nat (S n)) with (1 + Z.of_nat n) in * by lia.
  eapply copies_bind; [lia|lia|done|by exists m1|by intros; apply IH].
Qed.

Lemma copy_longs_run n : forall dst src m, (sizeof_ptr | dst) -> (sizeof_ptr | src) -> copy_ok dst src (sizeof_ptr * Z.of_nat n) m ->
  copies (copy_longs n dst src) dst src (sizeof_ptr * Z.of_nat n) m tt.
Proof.
  destruct long_size as [_ Hl]. induction n as [|n IH]; intros dst src m Ad As Hok; cbn [copy_longs]; [rewrite Z.mul_0_r; apply copies_ret|].
  replace (sizeof_ptr * Z.of_nat (S n)) with (sizeof_ptr + sizeof_ptr * Z.of_nat n) in * by lia.
  destruct (copy_ok_sub _ _ _ sizeof_ptr _ Hok) as (Hb & Hs & Hd & _); [nia|].
  destruct (copy_long_run dst src m Ad As Hb Hs Hd) as (v & m1 & E & R & U).
  unfold copies. rewrite (bind_ok _ _ _ _ _ E). eapply copies_bind; [lia|nia|done|by exists m1|].
  intros m2 Hm2. by apply IH; [apply aligned_next..|].
Qed.

Lemma memcpy_long_run unroll : (0 < unroll)%nat -> forall fuel dst src len m, (sizeof_ptr | dst) -> (sizeof_ptr | src) ->
  0 <= len < 2 ^ 31 -> len <= Z.of_nat fuel -> copy_ok dst src len m ->
  exists n, 0 <= n <= len /\ (sizeof_ptr | dst + n) /\ (sizeof_ptr | src + n) /\ copies (memcpy_long fuel unroll dst src len) dst src n m (dst + n, src + n, len - n).
Proof.
  intros Hu. destruct long_size as [_ Hl].
  assert (Hub : forall len, 0 <= len < 2 ^ 31 -> ubase len = len) by (intros len ?; apply ubase_small; destruct cfg_ptr as [-> | ->]; lia).
  induction fuel as [|fuel IH]; intros dst src len m Ad As Hc Hf Hok; cbn [memcpy_long]; unfold LBLOCKSIZE; set (block := sizeof_ptr * Z.of_nat unroll);
    assert (0 < block) by nia; rewrite Hub by done; destruct (Z.leb_spec block len); [lia| | |].
  1,3: exists 0; split; [lia|]; rewrite !Z.add_0_r, Z.sub_0_r; split; [done|]; split; [done|apply copies_ret].
  destruct (copy_longs_run unroll dst src m) as (m1 & R1 & U1); [done|done|by apply (copy_ok_sub _ _ len)|].
  replace len with (block + (len - block)) in Hok by lia. rewrite i32_small by lia.
  destruct (IH (dst + block) (src + block) (len - block) m1) as (n & Hn & An & Asn & m2 & R2 & U2);
    [by apply aligned_block|by apply aligned_block|lia|lia|apply (copy_ok_step _ _ _ _ m); [lia|lia|done|exact U1]|].
  exists (block + n). split; [lia|]. rewrite !Z.add_assoc. split; [done|]. split; [done|]. exists m2. rewrite (bind_ok _ _ _ _ _ R1), R2. split; [by rewrite Z.sub_add_distr|].
  apply (moved_app _ _ _ _ _ m1); [lia|lia| |exact U1|exact U2]. destruct Hok as (_ & _ & _ & ?). lia.
Qed.

Lemma memcpy_words_run dst src len m fuel : 0 <= len < 2 ^ 31 -> len <= Z.of_nat fuel -> copy_ok dst src len m ->
  exists n, 0 <= n <= len /\ copies (memcpy_words dst src len fuel) dst src n m (dst + n, src + n, len - n).
Proof.
  intros Hc Hf Hok. unfold memcpy_words.
  destruct (_ && _) eqn:Ec; [|exists 0; split; [lia|]; rewrite !Z.add_0_r, Z.sub_0_r; apply copies_ret].
  apply andb_true_iff in Ec as [_ Ea%negb_true_iff]. apply orb_false_iff in Ea as [As%unaligned_divide Ad%unaligned_divide].
  destruct (memcpy_long_run 4 ltac:(lia) fuel dst src len m) as (n & Hn & An & Asn & m1 & R1 & U1); [done|done|done|lia|done|].
  pose proof Hok as Hok1. replace len with (n + (len - n)) in Hok1 by lia.
  destruct (memcpy_long_run 1 ltac:(lia) fuel (dst + n) (src + n) (len - n) m1) as (n' & Hn' & _ & _ & m2 & R2 & U2);
    [done|done|lia|lia|by apply (copy_ok_step _ _ _ _ m); [lia|lia| |]|].
  exists (n + n'). split; [lia|]. exists m2. rewrite (bind_ok _ _ _ _ _ R1). cbn [fst snd]. rewrite R2. split; [by rewrite !Z.add_assoc, Z.sub_add_distr|].
  apply (moved_app _ _ _ _ _ m1); [lia|lia| |done|done]. destruct Hok as (_ & _ & _ & ?). lia.
Qed.

Lemma rt_memcpy_run dst src count m : 0 <= count < 2 ^ 31 -> copy_ok dst src count m -> copies (rt_memcpy dst src count) dst src count m dst.
Proof.
  intros Hc Hok. unfold rt_memcpy. rewrite i32_small by lia. cbn zeta.
  destruct (memcpy_words_run dst src count m (Z.to_nat count)) as (n & Hn & m1 & R1 & U1); [done|lia|done|].
  pose proof Hok as Hok1. replace count with (n + (count - n)) in Hok1 by lia.
  destruct (memcpy_byte_run (Z.to_nat (count - n)) (dst + n) (src + n) m1) as (m2 & R2 & U2).
  { rewrite Z2Nat.id by lia. by apply (copy_ok_step _ _ _ _ m); [lia|lia| |]. }
  exists m2. rewrite (bind_ok _ _ _ _ _ R1). cbn [fst snd]. rewrite u32_small by lia. rewrite (bind_ok _ _ _ _ _ R2). split; [done|].
  rewrite Z2Nat.id in U2 by lia. replace count with (n + (count - n)) by lia.
  apply (moved_app _ _ _ _ _ m1); [lia|lia| |done|done]. destruct Hok as (_ & _ & _ & ?). lia.
Qed.

Lemma memmove_down_run n : forall dst src m, bytes_ok m -> mapped src (Z.of_nat n) m -> mapped dst (Z.of_nat n) m -> src <= dst ->
  copies (memmove_down n (dst + Z.of_nat n) (src + Z.of_nat n)) dst src (Z.of_nat n) m tt.
Proof.
  induction n as [|n IH]; intros dst src m Hb Hs Hd Ho; cbn [memmove_down]; [apply copies_ret|].
  replace (src + Z.of_nat (S n) - 1) with (src + Z.of_nat n) by lia. replace (dst + Z.of_nat (S n) - 1) with (dst + Z.of_nat n) by lia.
  destruct (copy8_run (dst + Z.of_nat n) (src + Z.of_nat n) m Hb) as (b & m1 & E & R & U);
    [apply (mapped_sub _ _ _ _ _ Hs); lia|apply (mapped_sub _ _ _ _ _ Hd); lia|].
  unfold copies. rewrite (bind_ok _ _ _ _ _ (load8_run _ _ _ E)), (bind_ok _ _ _ _ _ R).
  assert (Hm : forall q k, mapped q k m -> mapped q k m1).
  { intros q k. apply (moved_mapped _ _ _ _ _ _ _ U). apply (mapped_sub _ _ _ _ _ Hs); lia. }
  destruct (IH dst src m1) as (m2 & R2 & U2); [by apply (moved_ok _ _ _ _ _ U)| | |done|].
  1: apply Hm, (mapped_sub _ _ _ _ _ Hs); lia.
  1: apply Hm, (mapped_sub _ _ _ _ _ Hd); lia.
  exists m2. split; [done|]. intros i. rewrite U2, !U. region; try done.
  all: by replace (i - (dst + Z.of_nat n) + (src + Z.of_nat n)) with (i - dst + src) by lia.
Qed.

Lemma rt_memmove_run dest src n m : 0 <= n -> bytes_ok m -> mapped src n m -> mapped dest n m ->
  copies (rt_memmove dest src n) dest src n m dest.
Proof.
  intros Hn Hb Hs Hd. unfold rt_memmove. rewrite <- (Z2Nat.id n) in Hs, Hd by lia.
  assert (H : copies (if (src <? dest) && (dest <? src + n) then memmove_down (Z.to_nat n) (dest + n) (src + n)
     else memcpy_byte (Z.to_nat n) dest src) dest src n m tt).
  { destruct (_ && _) eqn:E.
    - btrue. rewrite <- (Z2Nat.id n) at 2 3 4 by lia. apply memmove_down_run; [done|done|done|lia].
    - rewrite <- (Z2Nat.id n) at 2 by lia. apply memcpy_byte_run. split_and!; [done|done|done|].
      apply andb_false_iff in E as [E|E]; btrue; lia. }
  destruct H as (m' & R & U). exists m'. by rewrite (bind_ok _ _ _ _ _ R).
Qed.

(** ** Strings *)

Definition bytes_at (p : Z) (xs : list Z) (m : bmem) : Prop := forall i x, xs !! i = Some x -> m !! (p + Z.of_nat i) = Some x.
(** The string [s] with its terminator. *)
Definition cstring (p : Z) (s : list Z) (m : bmem) : Prop := bytes_at p (s ++ [0]) m /\ Forall (fun c => 0 < c < 256) s.

Lemma bytes_at_cons p x xs m : bytes_at p (x :: xs) m <-> m !! p = Some x /\ bytes_at (p + 1) xs m.
Proof.
  split.
  - intros H. split; [specialize (H 0%nat x eq_refl); by rewrite Z.add_0_r in H|].
    intros i y Hy. specialize (H (S i) y Hy). by replace (p + 1 + Z.of_nat i) with (p + Z.of_nat (S i)) by lia.
  - intros [H0 H] [|i] y Hy; cbn in Hy; [simplify_eq; by rewrite Z.add_0_r|].
    specialize (H i y Hy). by replace (p + Z.of_nat (S i)) with (p + 1 + Z.of_nat i) by lia.
Qed.

Lemma bytes_at_app p xs ys m : bytes_at p (xs ++ ys) m -> bytes_at p xs m.
Proof. intros H i x Hi. apply H. by apply lookup_app_l_Some. Qed.

Lemma cstring_nil p m : cstring p [] m <-> m !! p = Some 0.
Proof.
  unfold cstring. cbn. rewrite bytes_at_cons. split; [intros [[? _] _]; done|]. intros H. split_and!; [done|intros i x Hi; done|done].
Qed.
Lemma cstring_cons p c s m : cstring p (c :: s) m <-> m !! p = Some c /\ 0 < c < 256 /\ cstring (p + 1) s m.
Proof. unfold cstring. rewrite <- app_comm_cons, bytes_at_cons, Forall_cons. naive_solver. Qed.

Lemma bytes_size p xs m : bytes_at p xs m -> (length xs <= size m)%nat.
Proof.
  intros H. rewrite <- (size_dom (D := gset Z)). set (a := seqZ p (Z.of_nat (length xs))).
  assert (E : size (list_to_set a : gset Z) = length xs).
  { rewrite size_list_to_set by apply NoDup_seqZ. unfold a. rewrite length_seqZ. lia. }
  rewrite <- E. apply subseteq_size. intros i Hi. apply elem_of_list_to_set, elem_of_seqZ in Hi. apply elem_of_dom.
  destruct (lookup_lt_is_Some_2 xs (Z.to_nat (i - p))) as [x Hx]; [lia|]. specialize (H _ _ Hx).
  replace (p + Z.of_nat (Z.to_nat (i - p))) with i in H by lia. by exists x.
Qed.

Lemma cstring_size p s m : cstring p s m -> (S (length s) <= size m)%nat.
Proof. intros [H _]. apply bytes_size in H. rewrite length_app in H. cbn in H. lia. Qed.

Lemma scan_run m : scan_fuel m = Ok (S (size m)) m.
Proof. done. Qed.

Lemma strlen_loop_run s : forall p fuel m, cstring p s m -> (length s <= fuel)%nat -> strlen_loop fuel p m = Ok (p + Z.of_nat (length s)) m.
Proof.
  induction s as [|c s IH]; intros p fuel m H Hf.
  - apply cstring_nil in H. destruct fuel; cbn [strlen_loop]; rewrite (bind_ok _ _ _ _ _ (load8_run _ _ _ H)); cbn; by rewrite Z.add_0_r.
  - apply cstring_cons in H as (E & Hc & H). cbn in Hf. destruct fuel as [|fuel]; [lia|]. cbn [strlen_loop].
    rewrite (bind_ok _ _ _ _ _ (load8_run _ _ _ E)). destruct (Z.eqb_spec c 0); [lia|].
    rewrite IH by (done || lia). cbn [length]. f_equal. lia.
Qed.

Lemma rt_strlen_run p s m : cstring p s m -> rt_strlen p m = Ok (Z.of_nat (length s)) m.
Proof.
  intros H. pose proof (cstring_size _ _ _ H). unfold rt_strlen. rewrite (bind_ok _ _ _ _ _ (scan_run m)).
  rewrite (bind_ok _ _ _ _ _ (strlen_loop_run s p (S (size m)) m H ltac:(lia))). unfold mret, M_ret. f_equal. lia.
Qed.

Lemma strnlen_loop_run s : forall p q maxlen fuel m, cstring p s m -> (length s <= fuel)%nat -> q <= p ->
  strnlen_loop fuel q p maxlen m = Ok (Z.min (p + Z.of_nat (length s)) (Z.max p (q + maxlen))) m.
Proof.
  induction s as [|c s IH]; intros p q maxlen fuel m H Hf Hq.
  - apply cstring_nil in H. destruct fuel; cbn [strnlen_loop]; rewrite (bind_ok _ _ _ _ _ (load8_run _ _ _ H)); cbn; f_equal; lia.
  - apply cstring_cons in H as (E & Hc & H). cbn in Hf. destruct fuel as [|fuel]; [lia|]. cbn [strnlen_loop].
    rewrite (bind_ok _ _ _ _ _ (load8_run _ _ _ E)). destruct (Z.eqb_spec c 0); [lia|]. cbn [negb andb].
    destruct (Z.ltb_spec (p - q) maxlen).
    + rewrite IH by (done || lia). cbn [length]. f_equal. lia.
    + unfold mret, M_ret. f_equal. cbn [length]. lia.
Qed.

Lemma rt_strnlen_run p s maxlen m : 0 <= maxlen -> cstring p s m -> rt_strnlen p maxlen m = Ok (Z.min (Z.of_nat (length s)) maxlen) m.
Proof.
  intros Hm H. pose proof (cstring_size _ _ _ H). unfold rt_strnlen. rewrite (bind_ok _ _ _ _ _ (scan_run m)).
  rewrite (bind_ok _ _ _ _ _ (strnlen_loop_run s p p maxlen (S (size m)) m H ltac:(lia) ltac:(lia))). unfold mret, M_ret. f_equal. lia.
Qed.

(** ** Comparison *)

(** The first difference of two lists of the same length. *)
Fixpoint first_diff (xs ys : list Z) : Z :=
  match xs, ys with
  | x :: xs, y :: ys => if x - y =? 0 then first_diff xs ys else x - y
  | _, _ => 0
  end.

Lemma first_diff_zero xs : forall ys, length xs = length ys -> first_diff xs ys = 0 <-> xs = ys.
Proof.
  induction xs as [|x xs IH]; intros [|y ys] E; cbn in E; try done. cbn [first_diff]. destruct (Z.eqb_spec (x - y) 0).
  - rewrite IH by lia. assert (x = y) as -> by lia. naive_solver.
  - split; [done|]. intros [= -> ->]. lia.
Qed.

Lemma first_diff_at xs : forall ys, length xs = length ys -> first_diff xs ys <> 0 ->
  exists k x y, take k xs = take k ys /\ xs !! k = Some x /\ ys !! k = Some y /\ first_diff xs ys = x - y.
Proof.
  induction xs as [|x xs IH]; intros [|y ys] E H; cbn in E; try done. cbn [first_diff] in *. destruct (Z.eqb_spec (x - y) 0).
  - destruct (IH ys) as (k & a & b & Ht & Ha & Hb & Hd); [lia|done|]. exists (S k), a, b. cbn. split_and!; [f_equal; [lia|done]|done..].
  - by exists 0%nat, x, y.
Qed.

Lemma memcmp_loop_run xs : forall ys p q m, length xs = length ys -> bytes_at p xs m -> bytes_at q ys m ->
  memcmp_loop (length xs) p q m = Ok (first_diff xs ys) m.
Proof.
  induction xs as [|x xs IH]; intros [|y ys] p q m E Hp Hq; cbn in E; try done.
  apply bytes_at_cons in Hp as [Ex Hp]. apply bytes_at_cons in Hq as [Ey Hq]. cbn [length memcmp_loop first_diff].
  rewrite (bind_ok _ _ _ _ _ (load8_run _ _ _ Ex)), (bind_ok _ _ _ _ _ (load8_run _ _ _ Ey)).
  destruct (Z.eqb_spec (x - y) 0); cbn [negb]; [|done]. apply IH; [lia|done|done].
Qed.

Lemma rt_memcmp_run xs ys p q m : length xs = length ys -> bytes_at p xs m -> bytes_at q ys m ->
  rt_memcmp p q (Z.of_nat (length xs)) m = Ok (first_diff xs ys) m.
Proof. unfold rt_memcmp. rewrite Nat2Z.id. apply memcmp_loop_run. Qed.

(** ** Search *)

Lemma prefix_take (s t : list Z) : s `prefix_of` t <-> (length s <= length t)%nat /\ take (length s) t = s.
Proof.
  split.
  - intros [k ->]. rewrite length_app, take_app_length. split; [lia|done].
  - intros [_ E]. exists (drop (length s) t). by rewrite <- E at 1; rewrite take_drop.
Qed.

Lemma drop_cstring p s m i : cstring p s m -> (i <= length s)%nat -> cstring (p + Z.of_nat i) (drop i s) m.
Proof.
  revert p s. induction i as [|i IH]; intros p s H Hi; [by rewrite Z.add_0_r|].
  destruct s as [|c s]; cbn in Hi; [lia|]. apply cstring_cons in H as (_ & _ & H). cbn [drop].
  replace (p + Z.of_nat (S i)) with (p + 1 + Z.of_nat i) by lia. apply IH; [done|lia].
Qed.

Lemma strstr_loop_run s2 q m : bytes_at q s2 m -> forall fuel s1 p, cstring p s1 m -> (length s1 < fuel)%nat ->
  exists r, strstr_loop fuel (Z.of_nat (length s1)) (Z.of_nat (length s2)) p q m = Ok r m /\
    ((exists i, r = p + Z.of_nat i /\ s2 `prefix_of` drop i s1 /\ forall j, (j < i)%nat -> ~ s2 `prefix_of` drop j s1) \/
     (r = RT_NULL /\ (s2 <> [] -> forall j, ~ s2 `prefix_of` drop j s1))).
Proof.
  intros Hq. induction fuel as [|fuel IH]; intros s1 p Hp Hf; [lia|]. cbn [strstr_loop].
  destruct (Z.leb_spec (Z.of_nat (length s2)) (Z.of_nat (length s1))) as [Hl|Hl].
  2:{ exists RT_NULL. split; [done|]. right. split; [done|]. intros _ j Hj%prefix_take. rewrite length_drop in Hj. lia. }
  assert (El : length (take (length s2) s1) = length s2) by (rewrite length_take; lia).
  assert (Hb : bytes_at p (take (length s2) s1) m).
  { destruct Hp as [Hp _]. apply bytes_at_app in Hp. rewrite <- (take_drop (length s2) s1) in Hp. by apply bytes_at_app in Hp. }
  pose proof (rt_memcmp_run (take (length s2) s1) s2 p q m El Hb Hq) as R. rewrite El in R.
  rewrite (bind_ok _ _ _ _ _ R). destruct (Z.eqb_spec (first_diff (take (length s2) s1) s2) 0) as [E|E].
  - exists p. split; [done|]. left. exists 0%nat. split_and!; [lia| |lia]. apply first_diff_zero in E; [|done].
    rewrite drop_0. apply prefix_take. split; [lia|done].
  - assert (Hno : ~ s2 `prefix_of` drop 0 s1) by (rewrite drop_0; intros [_ Ht]%prefix_take; by apply E, first_diff_zero).
    destruct s1 as [|c s1].
    { destruct s2; [|cbn in Hl; lia]. cbn in E. done. }
    apply cstring_cons in Hp as (_ & _ & Hp). destruct (IH s1 (p + 1) Hp) as (r & Rr & Hr); [cbn in Hf; lia|].
    exists r. replace (Z.of_nat (length (c :: s1)) - 1) with (Z.of_nat (length s1)) by (cbn [length]; lia). split; [done|].
    destruct Hr as [(i & -> & Hi & Hm)|[-> Hn]]; [left|right].
    + exists (S i). split_and!; [lia|done|]. intros [|j] Hj; [done|]. apply Hm. lia.
    + split; [done|]. intros Hne [|j]; [done|]. by apply Hn.
Qed.

(** ** Comparison of strings *)

Lemma to_char_inj a b : 0 <= a < 256 -> 0 <= b < 256 -> to_char a - to_char b = 0 <-> a = b.
Proof.
  intros Ha Hb. split; [|intros ->; lia]. unfold to_char. destruct char_signed; [|rewrite !u8_small by done; lia].
  unfold i8. change (2 ^ 7) with 128. change (2 ^ 8) with 256. intros E.
  assert (E' : (a + 128) mod 256 = (b + 128) mod 256) by lia.
  pose proof (Z.div_mod (a + 128) 256). pose proof (Z.div_mod (b + 128) 256).
  assert (0 <= (a + 128) / 256 <= 1) by (split; [apply Z.div_pos|apply Z.lt_succ_r, Z.div_lt_upper_bound]; lia).
  assert (0 <= (b + 128) / 256 <= 1) by (split; [apply Z.div_pos|apply Z.lt_succ_r, Z.div_lt_upper_bound]; lia). lia.
Qed.

Lemma char_diff_zero a b : 0 <= a < 256 -> 0 <= b < 256 -> i8 (to_char a - to_char b) = 0 <-> a = b.
Proof.
  intros Ha Hb. rewrite <- (to_char_inj a b) by done. unfold i8 at 1. change (2 ^ 7) with 128. change (2 ^ 8) with 256.
  assert (-256 < to_char a - to_char b < 256).
  { unfold to_char, i8, u8. change (2 ^ 7) with 128. change (2 ^ 8) with 256.
    destruct char_signed; [pose proof (Z.mod_pos_bound (a + 128) 256); pose proof (Z.mod_pos_bound (b + 128) 256)|
      pose proof (Z.mod_pos_bound a 256); pose proof (Z.mod_pos_bound b 256)]; lia. }
  set (d := to_char a - to_char b) in *. clearbody d. split; [|intros ->; done]. intros E.
  pose proof (Z.div_mod (d + 128) 256). lia.
Qed.

(** The first character of a string, its terminator included. *)
Definition head_of (s : list Z) : Z := match s with [] => 0 | c :: _ => c end.

Lemma cstring_head p s m : cstring p s m -> m !! p = Some (head_of s) /\ 0 <= head_of s < 256 /\ (head_of s = 0 <-> s = []).
Proof.
  destruct s as [|c s]; [rewrite cstring_nil; cbn; naive_solver lia|]. rewrite cstring_cons. cbn. intros (? & ? & _). split; [done|]. split; [lia|]. split; [lia|done].
Qed.

Lemma strcmp_loop_run s1 : forall s2 p q fuel m, cstring p s1 m -> cstring q s2 m -> (length s1 <= fuel)%nat ->
  exists r, strcmp_loop fuel p q m = Ok r m /\ (r = 0 <-> s1 = s2).
Proof.
  induction s1 as [|c s1 IH]; intros s2 p q fuel m H1 H2 Hf;
    destruct (cstring_head _ _ _ H1) as (E1 & B1 & Z1); destruct (cstring_head _ _ _ H2) as (E2 & B2 & Z2);
    destruct fuel as [|fuel]; cbn [strcmp_loop]; try (cbn in Hf; lia);
    rewrite (bind_ok _ _ _ _ _ (load8_run _ _ _ E1)), (bind_ok _ _ _ _ _ (load8_run _ _ _ E2)); cbn [head_of] in *.
  1,2: eexists; split; [reflexivity|]; rewrite to_char_inj by done; rewrite (Z.eq_sym_iff 0), Z2; split; by intros ->.
  destruct (Z.eqb_spec c 0) as [E0|E0]; [by apply Z1 in E0|]. cbn [negb andb]. destruct (Z.eqb_spec c (head_of s2)) as [Eh|Eh].
  - destruct s2 as [|c2 s2]; [done|]. cbn [head_of] in Eh. subst c2. apply cstring_cons in H1 as (_ & _ & H1). apply cstring_cons in H2 as (_ & _ & H2).
    destruct (IH s2 (p + 1) (q + 1) fuel m H1 H2) as (r & R & Hr); [cbn in Hf; lia|]. exists r. split; [done|]. rewrite Hr. split; [by intros ->|by intros [= ?]].
  - eexists. split; [reflexivity|]. rewrite to_char_inj by done. split; [done|]. intros <-. done.
Qed.

Lemma rt_strcmp_run p q s1 s2 m : cstring p s1 m -> cstring q s2 m -> exists r, rt_strcmp p q m = Ok r m /\ (r = 0 <-> s1 = s2).
Proof.
  intros H1 H2. pose proof (cstring_size _ _ _ H1). unfold rt_strcmp. rewrite (bind_ok _ _ _ _ _ (scan_run m)). apply strcmp_loop_run; [done|done|lia].
Qed.

Lemma strncmp_loop_run n : forall s1 s2 p q m, cstring p s1 m -> cstring q s2 m ->
  exists r, strncmp_loop n p q 0 m = Ok r m /\ (r = 0 <-> take n s1 = take n s2).
Proof.
  induction n as [|n IH]; intros s1 s2 p q m H1 H2; cbn [strncmp_loop]; [exists 0; by rewrite !take_0|].
  destruct (cstring_head _ _ _ H1) as (E1 & B1 & Z1); destruct (cstring_head _ _ _ H2) as (E2 & B2 & Z2).
  rewrite (bind_ok _ _ _ _ _ (load8_run _ _ _ E1)), (bind_ok _ _ _ _ _ (load8_run _ _ _ E2)). cbn zeta.
  pose proof (char_diff_zero (head_of s1) (head_of s2) B1 B2) as Hd.
  destruct (Z.eqb_spec (i8 (to_char (head_of s1) - to_char (head_of s2))) 0) as [Ed|Ed]; cbn [negb orb].
  - rewrite Ed. apply Hd in Ed. destruct (Z.eqb_spec (head_of s1) 0) as [E0|E0].
    + exists 0. split; [done|]. assert (s1 = []) as -> by (apply Z1; lia). assert (s2 = []) as -> by (apply Z2; lia). done.
    + destruct s1 as [|c s1], s2 as [|c2 s2]; try (cbn in *; lia). cbn in Ed. subst c2.
      apply cstring_cons in H1 as (_ & _ & H1). apply cstring_cons in H2 as (_ & _ & H2).
      destruct (IH s1 s2 (p + 1) (q + 1) m H1 H2) as (r & R & Hr). exists r. split; [done|]. rewrite Hr. cbn. split; [by intros ->|by intros [= ?]].
  - eexists. split; [reflexivity|]. split; [done|]. intros E. exfalso. apply Ed, Hd.
    destruct s1, s2; cbn in E |- *; by simplify_eq.
Qed.

Lemma rt_strncmp_run p q s1 s2 n m : cstring p s1 m -> cstring q s2 m ->
  exists r, rt_strncmp p q n m = Ok r m /\ (r = 0 <-> take (Z.to_nat n) s1 = take (Z.to_nat n) s2).
Proof. apply strncmp_loop_run. Qed.

Lemma to_lower_zero c : 0 <= c < 256 -> 0 <= to_lower c < 256 /\ (to_lower c = 0 <-> c = 0).
Proof. intros Hc. unfold to_lower. region; cbn [andb]; split_and!; try lia; done. Qed.

Lemma strcasecmp_loop_run s1 : forall s2 p q fuel m, cstring p s1 m -> cstring q s2 m -> (length s1 <= fuel)%nat ->
  exists r, strcasecmp_loop fuel p q m = Ok r m /\ (r = 0 <-> to_lower <$> s1 = to_lower <$> s2).
Proof.
  induction s1 as [|c s1 IH]; intros s2 p q fuel m H1 H2 Hf;
    destruct (cstring_head _ _ _ H1) as (E1 & B1 & Z1); destruct (cstring_head _ _ _ H2) as (E2 & B2 & Z2);
    destruct (to_lower_zero _ B1) as [L1 L1z]; destruct (to_lower_zero _ B2) as [L2 L2z];
    destruct fuel as [|fuel]; cbn [strcasecmp_loop]; try (cbn in Hf; lia);
    rewrite (bind_ok _ _ _ _ _ (load8_run _ _ _ E1)), (bind_ok _ _ _ _ _ (load8_run _ _ _ E2)); cbn zeta; cbn [head_of] in *.
  1,2: change (to_lower 0) with 0; rewrite andb_false_r; eexists; split; [reflexivity|]; unfold u32; 
       destruct s2 as [|c2 s2]; [done|]; split; [|done]; intros E; exfalso; cbn [head_of] in *;
       assert (to_lower c2 <> 0) by (rewrite L2z, Z2; done); pose proof (Z.div_mod (0 - to_lower c2) (2 ^ 32)); lia.
  destruct (Z.eqb_spec (to_lower c) (to_lower (head_of s2))) as [Eh|Eh]; cbn [andb].
  - destruct (Z.eqb_spec (to_lower c) 0) as [E0|E0]; [by apply L1z, Z1 in E0|]. cbn [negb].
    destruct s2 as [|c2 s2]; [by destruct E0|]. cbn [head_of] in Eh. apply cstring_cons in H1 as (_ & _ & H1). apply cstring_cons in H2 as (_ & _ & H2).
    destruct (IH s2 (p + 1) (q + 1) fuel m H1 H2) as (r & R & Hr); [cbn in Hf; lia|]. exists r. split; [done|]. rewrite Hr. cbn. rewrite Eh. split; [by intros ->|by intros [= ?]].
  - eexists. split; [reflexivity|]. split.
    + intros E. exfalso. unfold u32 in E. pose proof (Z.div_mod (to_lower c - to_lower (head_of s2)) (2 ^ 32)). lia.
    + intros E. destruct s2 as [|c2 s2]; cbn in E; [done|]. by injection E as E _.
Qed.

Lemma rt_strcasecmp_run p q s1 s2 m : cstring p s1 m -> cstring q s2 m ->
  exists r, rt_strcasecmp p q m = Ok r m /\ (r = 0 <-> to_lower <$> s1 = to_lower <$> s2).
Proof.
  intros H1 H2. pose proof (cstring_size _ _ _ H1). unfold rt_strcasecmp. rewrite (bind_ok _ _ _ _ _ (scan_run m)). apply strcasecmp_loop_run; [done|done|lia].
Qed.

(** ** Copy of a string *)

Definition apart (p n q k : Z) : Prop := p + n <= q \/ q + k <= p.

Lemma cstring_updated p s d n f m m1 : updated d n f m m1 -> apart d n p (Z.of_nat (S (length s))) -> cstring p s m -> cstring p s m1.
Proof.
  intros U Ha [H Hs]. split; [|done]. intros i x Hi. rewrite <- (H i x Hi), U.
  apply lookup_lt_Some in Hi. rewrite length_app in Hi. cbn in Hi. unfold apart in Ha. region; done.
Qed.

Lemma strncpy_loop_run n : forall s d p m, cstring p s m -> mapped d (Z.of_nat n) m -> apart d (Z.of_nat n) p (Z.of_nat (S (length s))) ->
  exists m', strncpy_loop n d p m = Ok tt m' /\ updated d (Z.of_nat n) (fun i => Some (nth (Z.to_nat (i - d)) s 0)) m m'.
Proof.
  induction n as [|n IH]; intros s d p m Hs Hd Ha; cbn [strncpy_loop]; [exists m; split; [done|apply updated_nil]|].
  destruct (cstring_head _ _ _ Hs) as (E & Hh & Hz). rewrite (bind_ok _ _ _ _ _ (load8_run _ _ _ E)).
  replace (Z.of_nat (S n)) with (1 + Z.of_nat n) in * by lia.
  destruct (store8_run d (head_of s) m) as (m1 & R1 & U1); [apply (mapped_sub _ _ _ _ _ Hd); lia|]. rewrite (bind_ok _ _ _ _ _ R1).
  rewrite u8_small in U1 by done.
  assert (Hd1 : mapped (d + 1) (Z.of_nat n) m1) by (apply (filled_mapped _ _ _ _ _ _ _ U1), (mapped_sub _ _ _ _ _ Hd); lia).
  assert (U1' : updated d 1 (fun i => Some (nth (Z.to_nat (i - d)) s 0)) m m1).
  { intros i. rewrite U1. region; try done. replace (Z.to_nat (i - d)) with 0%nat by lia. by destruct s. }
  destruct (Z.eqb_spec (head_of s) 0) as [E0|E0].
  - apply Hz in E0 as ->. destruct (memset_byte_run n (d + 1) 0 m1 Hd1) as (m2 & R2 & U2). exists m2. split; [done|].
    apply (updated_app _ _ _ _ _ m1); [lia|lia|done|]. intros i. rewrite U2. region; try done. by destruct (Z.to_nat (i - d)).
  - destruct s as [|c s]; [done|]. unfold apart in *.
    assert (Hs1 : cstring (p + 1) s m1).
    { apply cstring_cons in Hs as (_ & _ & Hs). apply (cstring_updated _ _ _ _ _ _ _ U1); [|done]. unfold apart. cbn [length] in *. lia. }
    destruct (IH s (d + 1) (p + 1) m1 Hs1 Hd1) as (m2 & R2 & U2); [cbn [length] in *; lia|]. exists m2. split; [done|].
    apply (updated_app _ _ _ _ _ m1); [lia|lia|done|]. intros i. rewrite U2. region; try done.
    by replace (Z.to_nat (i - d)) with (S (Z.to_nat (i - (d + 1)))) by lia.
Qed.

(** [rt_strncpy] writes exactly [n] bytes: the string, cut or padded with zeros. *)
Lemma rt_strncpy_run s dst src n m : 0 <= n -> cstring src s m -> mapped dst n m -> apart dst n src (Z.of_nat (S (length s))) ->
  exists m', rt_strncpy dst src n m = Ok dst m' /\ updated dst n (fun i => Some (nth (Z.to_nat (i - dst)) s 0)) m m'.
Proof.
  intros Hn Hs Hd Ha. destruct (strncpy_loop_run (Z.to_nat n) s dst src m) as (m' & R & U); [done|by rewrite Z2Nat.id|by rewrite Z2Nat.id|].
  rewrite Z2Nat.id in U by done. exists m'. split; [|done]. unfold rt_strncpy. by rewrite (bind_ok _ _ _ _ _ R).
Qed.

(** ** Theorems *)

(** C25: [rt_memset] and [rt_memcpy], which work in words and in blocks of four
    words where the addresses are aligned, and [rt_memmove] do what filling and
    copying byte by byte do: the [n] bytes at the destination are the given byte,
    or the bytes the source had before the call, and no other byte changes.
    [rt_memmove] allows any overlap; [rt_memcpy] one in which the destination
    does not begin inside the source. *)
Theorem mem_services_correct dst src c n m : 0 <= n < 2 ^ 31 -> bytes_ok m -> mapped dst n m -> mapped src n m ->
  (exists m', rt_memset dst c n m = Ok dst m' /\ filled dst n (u8 c) m m') /\
  (exists m', rt_memmove dst src n m = Ok dst m' /\ moved dst src n m m') /\
  (dst <= src \/ src + n <= dst -> exists m', rt_memcpy dst src n m = Ok dst m' /\ moved dst src n m m').
Proof.
  intros Hn Hb Hd Hs. split; [apply rt_memset_run; [lia|done]|]. split; [apply rt_memmove_run; [lia|done..]|].
  intros Ho. by apply rt_memcpy_run.
Qed.


(** The string comparisons return zero exactly for equal strings, equal up to
    [n] characters, and equal but for the case of letters. *)
Theorem string_compare s1 s2 p q n m : cstring p s1 m -> cstring q s2 m ->
  (exists r, rt_strcmp p q m = Ok r m /\ (r = 0 <-> s1 = s2)) /\
  (exists r, rt_strncmp p q n m = Ok r m /\ (r = 0 <-> take (Z.to_nat n) s1 = take (Z.to_nat n) s2)) /\
  (exists r, rt_strcasecmp p q m = Ok r m /\ (r = 0 <-> to_lower <$> s1 = to_lower <$> s2)).
Proof. intros H1 H2. split_and!; [by apply rt_strcmp_run|by apply rt_strncmp_run|by apply rt_strcasecmp_run]. Qed.

End Laws.

(** ** Examples *)

(** Regions and strings of a given memory, by computation. *)
Lemma mapped_check p n m : forallb (fun i => bool_decide (is_Some (m !! i))) (seqZ p n) = true -> mapped p n m.
Proof. rewrite forallb_forall. intros H i Hi. apply (bool_decide_eq_true_1 (is_Some _)), H, list_elem_of_In, elem_of_seqZ. lia. Qed.
Lemma cstring_check p s m : forallb (fun k => bool_decide (m !! (p + Z.of_nat k) = (s ++ [0]) !! k)) (seq 0 (S (length s))) = true ->
  forallb (fun c => (0 <? c) && (c <? 256)) s = true -> cstring p s m.
Proof.
  intros H Hs. split.
  - rewrite forallb_forall in H. intros i x Hx. specialize (H i). apply bool_decide_eq_true_1 in H; [by rewrite H|].
    apply in_seq. apply lookup_lt_Some in Hx. rewrite length_app in Hx. cbn in Hx. lia.
  - apply Forall_forall. intros c Hc. rewrite forallb_forall in Hs. specialize (Hs c ltac:(by apply list_elem_of_In)). btrue. lia.
Qed.

(** Thirty-two bytes; the string "banana" at 100 and "nan" at 108. *)
Module StringDemo.
Definition pattern : bmem := list_to_map (zip (seqZ 100 32) ([98; 97; 110; 97; 110; 97; 0; 0; 110; 97; 110] ++ replicate 21 0)).
Lemma pattern_ok : bytes_ok pattern.
Proof.
  assert (H : map_Forall (fun _ b => ((0 <=? b) && (b <? 256))%bool = true) pattern) by (apply (bool_decide_eq_true_1 _); vm_compute; reflexivity).
  intros i b E. specialize (H i b E). cbn in H. btrue. lia.
Qed.
End StringDemo.
#[local] Existing Instances default_config default_config_ok.

(** The sixteen bytes at 100 are copied four bytes up, over themselves. *)
Lemma mem_services_correct_witness :
  exists m', rt_memmove 104 100 16 StringDemo.pattern = Ok 104 m' /\ moved 104 100 16 StringDemo.pattern m'.
Proof.
  apply (mem_services_correct 104 100 0 16 StringDemo.pattern).
  - lia.
  - apply StringDemo.pattern_ok.
  - apply mapped_check. vm_compute. reflexivity.
  - apply mapped_check. vm_compute. reflexivity.
Defined.


(** [rt_strnlen] reads one byte more than its limit. *)
Example strnlen_reads_on : rt_strnlen 0 2 (list_to_map [(0, 97); (1, 98)]) = Fault BadPtr.
Proof. vm_compute. reflexivity. Qed.

(** [rt_strncmp] keeps the difference in a [signed char]: the character 200 is
    taken to be smaller than the character 1, also where [char] is unsigned. *)
Example strncmp_sign : rt_strncmp (CS := false) 0 2 1 (list_to_map [(0, 200); (2, 1)]) = Ok (-57) (list_to_map [(0, 200); (2, 1)]).
Proof. vm_compute. reflexivity. Qed.

(** [rt_memcpy] copies upwards: a byte that overlaps is copied again and again. *)
Example memcpy_overlap :
  rt_memcpy 1 0 3 (list_to_map [(0, 7); (1, 8); (2, 9); (3, 10)]) = Ok 1 (list_to_map [(0, 7); (1, 7); (2, 7); (3, 7)]).
Proof. vm_compute. reflexivity. Qed.
