(* ===== verification/KPrint.v ===== *)
(** * Formatted output (src/kservice.c)

    [rt_vsnprintf] and the functions around it, on the byte memory of KString.v.
    The variable arguments are a list of machine words; reading more than there
    are is a fault.  The build has RT_PRINTF_PRECISION, but neither
    RT_PRINTF_LONGLONG nor RT_PRINTF_SPECIAL. *)

From S2P Require Import Prelude KString.

Definition ZEROPAD : Z := 1.
Definition SIGN : Z := 2.
Definition PLUS : Z := 4.
Definition SPACE : Z := 8.
Definition LEFT : Z := 16.
Definition SPECIAL : Z := 32.
Definition LARGE : Z := 64.

Definition isdigit (c : Z) : bool := (48 <=? c) && (c <=? 57).

(** "0123456789abcdef" and "0123456789ABCDEF". *)
Definition digit_char (large : bool) (d : Z) : Z :=
  if d <? 10 then 48 + d else if large then 55 + d else 87 + d.

(** "(NULL)" *)
Definition null_text : list Z := [40; 78; 85; 76; 76; 41].

Section KPrint.
Context {CF : Config}.

(** Conversion to [long]. *)
Definition to_long (x : Z) : Z :=
  let h := 2 ^ (8 * sizeof_ptr - 1) in (x + h) mod (2 * h) - h.

(** [divide]: the remainder and the next value of [*n]. *)
Definition divide (n base : Z) : Z * Z :=
  if base =? 10 then (ubase n mod 10, to_long (ubase n / 10)) else (ubase n mod 16, to_long (ubase n / 16)).

(** [skip_atoi]: the number and the position behind it. *)
Fixpoint skip_atoi_loop (fuel : nat) (s i : Z) : M bmem (Z * Z) :=
  c ← load8 s;
  if isdigit c then
    match fuel with O => fail OutOfFuel | S fuel => skip_atoi_loop fuel (s + 1) (i32 (i * 10 + c - 48)) end
  else mret (i, s).
Definition skip_atoi (s : Z) : M bmem (Z * Z) :=
  fuel ← scan_fuel; skip_atoi_loop fuel s 0.

(** ** Output

    A character goes to [str] unless that is behind [end]; [str] moves on
    either way. *)
Definition put (last str c : Z) : M bmem Z :=
  when (str <=? last) (store8 str c);; mret (str + 1).

Fixpoint put_n (n : nat) (last str c : Z) : M bmem Z :=
  match n with
  | O => mret str
  | S n => str ← put last str c; put_n n last str c
  end.
(** [while (size-- > 0)], with the size it leaves. *)
Definition pad (last str size c : Z) : M bmem (Z * Z) :=
  str ← put_n (Z.to_nat size) last str c; mret (str, Z.min size 0 - 1).

Fixpoint put_chars (l : list Z) (last str : Z) : M bmem Z :=
  match l with
  | [] => mret str
  | c :: l => str ← put last str c; put_chars l last str
  end.

(** ** print_number *)

(** The digits from the last one on; [room] is what is left of [tmp]. *)
Fixpoint tmp_digits (room : nat) (num base : Z) (large : bool) (tmp : list Z) : M bmem (list Z) :=
  if num =? 0 then mret tmp
  else
    match room with
    | O => fail BadPtr
    | S room => let r := divide num base in tmp_digits room r.2 base large (tmp ++ [digit_char large r.1])
    end.

(** The sign to print, or 0, and the number without it. *)
Definition get_sign (type num : Z) : Z * Z :=
  if truthy (Z.land type SIGN) then
    if num <? 0 then (45, to_long (- num))
    else if truthy (Z.land type PLUS) then (43, num)
    else if truthy (Z.land type SPACE) then (32, num)
    else (0, num)
  else (0, num).

Definition put_sign (last buf size sign : Z) : M bmem (Z * Z) :=
  if truthy sign then
    if buf <=? last then store8 buf sign;; mret (buf + 1, size - 1) else mret (buf + 1, size)
  else mret (buf, size).

Definition print_number (buf last num base s precision type : Z) : M bmem Z :=
  let large := truthy (Z.land type LARGE) in
  let type := if truthy (Z.land type LEFT) then Z.land type (Z.lnot ZEROPAD) else type in
  let c := if truthy (Z.land type ZEROPAD) then 48 else 32 in
  let sn := get_sign type num in
  let sign := sn.1 in
  tmp ← (if sn.2 =? 0 then mret [48] else tmp_digits 16 sn.2 base large []);
  let i := Z.of_nat (length tmp) in
  let precision := if precision <? i then i else precision in
  let size := i32 (s - precision) in
  r ← (if negb (truthy (Z.land type (Z.lor ZEROPAD LEFT))) then
         let size := if truthy sign && (0 <? size) then size - 1 else size in
         pad last buf size 32
       else mret (buf, size));
  r ← put_sign last r.1 r.2 sign;
  r ← (if negb (truthy (Z.land type LEFT)) then pad last r.1 r.2 c else mret r);
  buf ← put_n (Z.to_nat (precision - i)) last r.1 48;
  buf ← put_chars (reverse tmp) last buf;
  r ← pad last buf r.2 32;
  mret r.1.

(** ** rt_vsnprintf *)

Definition va_arg (args : list Z) : M bmem (Z * list Z) :=
  match args with [] => fail BadPtr | a :: args => mret (a, args) end.

(** The loop over the flags; the position of the first other character. *)
Fixpoint fmt_flags (fuel : nat) (fmt flags : Z) : M bmem (Z * Z) :=
  let fmt := fmt + 1 in
  c ← load8 fmt;
  let next flag := match fuel with O => fail OutOfFuel | S fuel => fmt_flags fuel fmt (Z.lor flags flag) end in
  if c =? 45 then next LEFT
  else if c =? 43 then next PLUS
  else if c =? 32 then next SPACE
  else if c =? 35 then next SPECIAL
  else if c =? 48 then next ZEROPAD
  else mret (fmt, flags).

(** The position, the field width, the flags and the arguments left. *)
Definition fmt_width (fmt flags : Z) (args : list Z) : M bmem (Z * Z * Z * list Z) :=
  c ← load8 fmt;
  if isdigit c then r ← skip_atoi fmt; mret (r.2, r.1, flags, args)
  else if c =? 42 then
    r ← va_arg args;
    let field_width := i32 r.1 in
    if field_width <? 0 then mret (fmt + 1, i32 (- field_width), Z.lor flags LEFT, r.2)
    else mret (fmt + 1, field_width, flags, r.2)
  else mret (fmt, -1, flags, args).

Definition fmt_precision (fmt : Z) (args : list Z) : M bmem (Z * Z * list Z) :=
  c ← load8 fmt;
  if c =? 46 then
    c ← load8 (fmt + 1);
    r ← (if isdigit c then r ← skip_atoi (fmt + 1); mret (r.2, r.1, args)
         else if c =? 42 then r ← va_arg args; mret (fmt + 2, i32 r.1, r.2)
         else mret (fmt + 1, -1, args));
    mret (r.1.1, if r.1.2 <? 0 then 0 else r.1.2, r.2)
  else mret (fmt, -1, args).

Definition fmt_qualifier (fmt : Z) : M bmem (Z * Z) :=
  c ← load8 fmt;
  if (c =? 104) || (c =? 108) then mret (fmt + 1, c) else mret (fmt, 0).

(** The characters of the string [s], or of "(NULL)". *)
Fixpoint put_string (len : nat) (last str s : Z) : M bmem Z :=
  match len with
  | O => mret str
  | S len => c ← load8 s; str ← put last str c; put_string len last str (s + 1)
  end.
Definition print_string (last str s precision width : Z) (left : bool) : M bmem Z :=
  len ← (if s =? RT_NULL then mret (Z.of_nat (length null_text)) else rt_strlen s);
  let len := if (0 <? precision) && (precision <? len) then precision else len in
  r ← (if negb left then
         str ← put_n (Z.to_nat (width - len)) last str 32; mret (str, Z.min width len - 1)
       else mret (str, width));
  str ← (if s =? RT_NULL then put_chars (take (Z.to_nat len) null_text) last r.1 else put_string (Z.to_nat len) last r.1 s);
  put_n (Z.to_nat (r.2 - len)) last str 32.

(** [while (--field_width > 0)] before and behind the character. *)
Definition print_char (last str c width : Z) (left : bool) : M bmem Z :=
  r ← (if negb left then str ← put_n (Z.to_nat (width - 1)) last str 32; mret (str, Z.min (width - 1) 0)
       else mret (str, width));
  str ← put last r.1 (u8 c);
  put_n (Z.to_nat (r.2 - 1)) last str 32.

(** The number an integer conversion prints. *)
Definition arg_number (qualifier flags a : Z) : Z :=
  let signed := truthy (Z.land flags SIGN) in
  if qualifier =? 104 then
    let num := u16 a in u32 (if signed then i16 num else num)
  else
    let num := u32 a in u32 (if signed then i32 num else num).

(** One conversion: the character at [fmt].  The position of the last character
    used, [str] and the arguments left. *)
Definition fmt_convert (last fmt str flags width precision qualifier : Z) (args : list Z) : M bmem (Z * Z * list Z) :=
  let left := truthy (Z.land flags LEFT) in
  let number base flags :=
    r ← va_arg args;
    str ← print_number str last (to_long (arg_number qualifier flags r.1)) base width precision flags;
    mret (fmt, str, r.2) in
  c ← load8 fmt;
  if c =? 99 then r ← va_arg args; str ← print_char last str r.1 width left; mret (fmt, str, r.2)
  else if c =? 115 then r ← va_arg args; str ← print_string last str r.1 precision width left; mret (fmt, str, r.2)
  else if c =? 112 then
    r ← va_arg args;
    let wf := if width =? -1 then (Z.shiftl sizeof_ptr 1, Z.lor flags ZEROPAD) else (width, flags) in
    str ← print_number str last (to_long r.1) 16 wf.1 precision wf.2;
    mret (fmt, str, r.2)
  else if c =? 37 then str ← put last str 37; mret (fmt, str, args)
  else if c =? 111 then number 8 flags
  else if c =? 88 then number 16 (Z.lor flags LARGE)
  else if c =? 120 then number 16 flags
  else if (c =? 100) || (c =? 105) then number 10 (Z.lor flags SIGN)
  else if c =? 117 then number 10 flags
  else
    str ← put last str 37;
    if negb (c =? 0) then str ← put last str c; mret (fmt, str, args) else mret (fmt - 1, str, args).

(** What follows a percent sign at [fmt]. *)
Definition fmt_directive (fuel : nat) (last fmt str : Z) (args : list Z) : M bmem (Z * Z * list Z) :=
  f ← fmt_flags fuel fmt 0;
  w ← fmt_width f.1 f.2 args;
  p ← fmt_precision w.1.1.1 w.2;
  q ← fmt_qualifier p.1.1;
  fmt_convert last q.1 str w.1.2 w.1.1.2 p.1.2 q.2 p.2.

Fixpoint fmt_loop (fuel : nat) (last fmt str : Z) (args : list Z) : M bmem Z :=
  c ← load8 fmt;
  if c =? 0 then mret str
  else
    match fuel with
    | O => fail OutOfFuel
    | S fuel =>
        if negb (c =? 37) then str ← put last str c; fmt_loop fuel last (fmt + 1) str args
        else r ← fmt_directive (S fuel) last fmt str args; fmt_loop fuel last (r.1.1 + 1) r.1.2 r.2
    end.

Definition rt_vsnprintf (buf size fmt : Z) (args : list Z) : M bmem Z :=
  let last := ubase (buf + size - 1) in
  let last := if last <? buf then ubase (-1) else last in
  fuel ← scan_fuel;
  str ← fmt_loop fuel last fmt buf args;
  (if str <=? last then store8 str 0 else store8 last 0);;
  mret (i32 (str - buf)).

Definition rt_snprintf (buf size fmt : Z) (args : list Z) : M bmem Z := rt_vsnprintf buf size fmt args.
Definition rt_vsprintf (buf format : Z) (args : list Z) : M bmem Z := rt_vsnprintf buf (ubase (-1)) format args.
Definition rt_sprintf (buf format : Z) (args : list Z) : M bmem Z := rt_vsprintf buf format args.

(** [rt_kprintf] with its buffer; the output of the board is a parameter.  The
    adjusted length is not used. *)
Definition rt_kprintf (rt_log_buf RT_CONSOLEBUF_SIZE : Z) (rt_hw_console_output : Z -> M bmem unit) (fmt : Z) (args : list Z) : M bmem unit :=
  length ← rt_vsnprintf rt_log_buf (RT_CONSOLEBUF_SIZE - 1) fmt args;
  rt_hw_console_output rt_log_buf.

End KPrint.
