(* ===== verification/KPrintThm.v ===== *)
(** * What formatted output promises

    [format] is the text a format stands for, as a list of characters; the
    fields are padded, signed and cut by [render_number], [render_string] and
    [render_char].  [rt_vsnprintf] writes this text, cut to the buffer, and
    nothing outside the buffer. *)

From S2P Require Import Prelude KString KPrint.

(** ** The text of a field *)

Definition spaces (n : Z) : list Z := replicate (Z.to_nat n) 32.
Definition zeros (n : Z) : list Z := replicate (Z.to_nat n) 48.

(** The digits of a positive number, the highest first. *)
Fixpoint digits_of (fuel : nat) (base v : Z) : list Z :=
  match fuel with
  | O => []
  | S fuel => if v =? 0 then [] else digits_of fuel base (v / base) ++ [v mod base]
  end.
Definition number_text (large : bool) (base v : Z) : list Z :=
  if v =? 0 then [48] else digit_char large <$> digits_of 16 base v.

(** A sign and digits, at least [precision] of them, in a field of [width]
    characters. *)
Definition render_number (left zero : bool) (width precision : Z) (sign digits : list Z) : list Z :=
  let body := zeros (precision - Z.of_nat (length digits)) ++ digits in
  let fill := width - Z.of_nat (length (sign ++ body)) in
  if left then sign ++ body ++ spaces fill
  else if zero then sign ++ zeros fill ++ body
  else spaces fill ++ sign ++ body.

Definition render_string (left : bool) (width precision : Z) (s : list Z) : list Z :=
  let s := if 0 <? precision then take (Z.to_nat precision) s else s in
  let fill := spaces (width - Z.of_nat (length s)) in
  if left then s ++ fill else fill ++ s.

Definition render_char (left : bool) (width c : Z) : list Z :=
  let fill := spaces (width - 1) in
  if left then u8 c :: fill else fill ++ [u8 c].

Definition has (flags flag : Z) : bool := truthy (Z.land flags flag).

(** ** The text of a format *)

Definition flag_of (c : Z) : option Z :=
  if c =? 45 then Some LEFT else if c =? 43 then Some PLUS else if c =? 32 then Some SPACE
  else if c =? 35 then Some SPECIAL else if c =? 48 then Some ZEROPAD else None.
Fixpoint read_flags (f : list Z) (flags : Z) : Z * list Z :=
  match f with
  | [] => (flags, [])
  | c :: r => match flag_of c with Some b => read_flags r (Z.lor flags b) | None => (flags, f) end
  end.
(** A decimal number that fits an [int]. *)
Fixpoint read_number (f : list Z) (i : Z) : option (Z * list Z) :=
  match f with
  | [] => Some (i, [])
  | c :: r => if isdigit c then let n := i * 10 + c - 48 in if n <? 2 ^ 31 then read_number r n else None else Some (i, f)
  end.
(** The field width, -1 if there is none. *)
Definition read_width (f : list Z) (flags : Z) (args : list Z) : option (Z * Z * list Z * list Z) :=
  match f with
  | c :: r =>
      if isdigit c then n ← read_number f 0; Some (n.1, flags, n.2, args)
      else if c =? 42 then
        match args with
        | [] => None
        | a :: args =>
            if i32 a =? - 2 ^ 31 then None
            else if i32 a <? 0 then Some (- i32 a, Z.lor flags LEFT, r, args) else Some (i32 a, flags, r, args)
        end
      else Some (-1, flags, f, args)
  | [] => Some (-1, flags, [], args)
  end.
(** The precision, -1 if there is none. *)
Definition read_precision (f args : list Z) : option (Z * list Z * list Z) :=
  match f with
  | c :: r =>
      if c =? 46 then
        match r with
        | c :: r' =>
            if isdigit c then n ← read_number r 0; Some (n.1, n.2, args)
            else if c =? 42 then match args with [] => None | a :: args => Some (Z.max (i32 a) 0, r', args) end
            else Some (0, r, args)
        | [] => Some (0, [], args)
        end
      else Some (-1, f, args)
  | [] => Some (-1, [], args)
  end.
Definition read_qualifier (f : list Z) : Z * list Z :=
  match f with
  | c :: r => if (c =? 104) || (c =? 108) then (c, r) else (0, f)
  | [] => (0, [])
  end.

Section Format.
Context {CF : Config}.
Variable string_at : Z -> option (list Z).

(** The text of an integer conversion of [num]. *)
Definition format_number (flags base width precision num : Z) : list Z :=
  let sn := get_sign flags num in
  render_number (has flags LEFT) (has flags ZEROPAD) width precision
    (if sn.1 =? 0 then [] else [sn.1]) (number_text (has flags LARGE) (if base =? 10 then 10 else 16) (ubase sn.2)).

Definition format_arg (c flags width precision qualifier a : Z) : option (list Z) :=
  let number base flags := Some (format_number flags base width precision (to_long (arg_number qualifier flags a))) in
  if c =? 99 then Some (render_char (has flags LEFT) width a)
  else if c =? 115 then
    s ← (if a =? RT_NULL then Some null_text else string_at a);
    Some (render_string (has flags LEFT) width precision s)
  else if c =? 112 then
    Some (if width =? -1 then format_number (Z.lor flags ZEROPAD) 16 (2 * sizeof_ptr) precision (to_long a)
          else format_number flags 16 width precision (to_long a))
  else if c =? 111 then number 8 flags
  else if c =? 88 then number 16 (Z.lor flags LARGE)
  else if c =? 120 then number 16 flags
  else if (c =? 100) || (c =? 105) then number 10 (Z.lor flags SIGN)
  else number 10 flags.

(** The conversions that take an argument: c s p o X x d i u *)
Definition takes_arg (c : Z) : bool := existsb (Z.eqb c) [99; 115; 112; 111; 88; 120; 100; 105; 117].

(** Text, rest of the format and arguments left. *)
Definition format_directive (f args : list Z) : option (list Z * list Z * list Z) :=
  let fl := read_flags f 0 in
  w ← read_width fl.2 fl.1 args;
  p ← read_precision w.1.2 w.2;
  let q := read_qualifier p.1.2 in
  match q.2 with
  | [] => Some ([37], [], p.2)
  | c :: r =>
      if takes_arg c then
        match p.2 with
        | [] => None
        | a :: args => t ← format_arg c w.1.1.2 w.1.1.1 p.1.1 q.1 a; Some (t, r, args)
        end
      else if c =? 37 then Some ([37], r, p.2)
      else Some ([37; c], r, p.2)
  end.

Fixpoint format (fuel : nat) (f args : list Z) : option (list Z) :=
  match f with
  | [] => Some []
  | c :: r =>
      match fuel with
      | O => None
      | S fuel =>
          if c =? 37 then
            d ← format_directive r args;
            t ← format fuel d.1.2 d.2;
            Some (d.1.1 ++ t)
          else t ← format fuel r args; Some (c :: t)
      end
  end.

End Format.
#[local] Arguments takes_arg : simpl never.

(** ** Numbers *)

Section Numbers.
Context `{CO : ConfigOk}.

Definition is_long (x : Z) : Prop := - 2 ^ (8 * sizeof_ptr - 1) <= x < 2 ^ (8 * sizeof_ptr - 1).
Definition real_base (base : Z) : Z := if base =? 10 then 10 else 16.

Lemma word_pow : 2 ^ (8 * sizeof_ptr) = 2 * 2 ^ (8 * sizeof_ptr - 1) /\ 2 ^ 31 <= 2 ^ (8 * sizeof_ptr - 1) <= 2 ^ 63.
Proof. destruct cfg_ptr as [-> | ->]; cbn; lia. Qed.

Lemma to_long_range x : is_long (to_long x).
Proof.
  unfold is_long, to_long. destruct word_pow as [_ H]. set (h := 2 ^ (8 * sizeof_ptr - 1)) in *.
  pose proof (Z.mod_pos_bound (x + h) (2 * h)). lia.
Qed.

Lemma to_long_small x : is_long x -> to_long x = x.
Proof. unfold is_long, to_long. intros H. rewrite Z.mod_small; lia. Qed.

Lemma ubase_zero x : is_long x -> ubase x = 0 <-> x = 0.
Proof.
  unfold is_long, ubase. destruct word_pow as [-> H]. set (h := 2 ^ (8 * sizeof_ptr - 1)) in *. intros Hx.
  split; [|intros ->; by apply Z.mod_0_l; lia]. intros E. pose proof (Z.div_mod x (2 * h)).
  destruct (Z.lt_trichotomy (x / (2 * h)) 0) as [?|[?|?]]; nia.
Qed.

Lemma divide_run num base : is_long num ->
  (divide num base).1 = ubase num mod real_base base /\ ubase (divide num base).2 = ubase num / real_base base /\ is_long (divide num base).2.
Proof.
  intros Hn. pose proof (ubase_range num) as Hu. destruct word_pow as [Ew Hw]. rewrite Ew in Hu.
  unfold divide, real_base. destruct (base =? 10); cbn [fst snd]; (split; [done|]); (split; [|apply to_long_range]).
  all: assert (Hq : forall b, 2 <= b -> 0 <= ubase num / b < 2 ^ (8 * sizeof_ptr - 1)) by
    (intros b Hb; split; [apply Z.div_pos; lia|]; apply Z.div_lt_upper_bound; [lia|]; nia).
  - rewrite to_long_small by (unfold is_long; specialize (Hq 10); lia). apply ubase_small. specialize (Hq 10). lia.
  - rewrite to_long_small by (unfold is_long; specialize (Hq 16); lia). apply ubase_small. specialize (Hq 16). lia.
Qed.

Lemma tmp_digits_run room : forall num base large tmp m, is_long num -> ubase num < real_base base ^ Z.of_nat room ->
  tmp_digits room num base large tmp m = Ok (tmp ++ (digit_char large <$> reverse (digits_of room (real_base base) (ubase num)))) m.
Proof.
  induction room as [|room IH]; intros num base large tmp m Hn Hr; cbn [tmp_digits digits_of].
  - pose proof (ubase_range num). cbn in Hr. assert (E : num = 0) by (apply ubase_zero; [done|lia]). subst num. cbn. by rewrite app_nil_r.
  - destruct (divide_run num base Hn) as (E1 & E2 & Hl).
    destruct (Z.eqb_spec num 0) as [Hz|Hz]; destruct (Z.eqb_spec (ubase num) 0) as [E|E].
    + cbn. by rewrite app_nil_r.
    + exfalso. by apply E, ubase_zero.
    + exfalso. by apply Hz, ubase_zero.
    + cbn zeta. rewrite IH; [|done|]; rewrite E2.
      * rewrite E1, reverse_app, fmap_app, <- app_assoc. done.
      * apply Z.div_lt_upper_bound; [unfold real_base; destruct (base =? 10); lia|].
        rewrite Nat2Z.inj_succ, Z.pow_succ_r in Hr by lia. done.
Qed.

Lemma digits_range fuel base v : 1 < base -> Forall (fun d => 0 <= d < base) (digits_of fuel base v).
Proof.
  intros Hb. revert v. induction fuel as [|fuel IH]; intros v; cbn [digits_of]; [done|]. destruct (v =? 0); [done|].
  apply Forall_app. split; [done|]. constructor; [|done]. apply Z.mod_pos_bound. lia.
Qed.

Lemma digits_length fuel base v : (length (digits_of fuel base v) <= fuel)%nat.
Proof.
  revert v. induction fuel as [|fuel IH]; intros v; cbn [digits_of]; [done|]. destruct (v =? 0); cbn; [lia|].
  rewrite length_app. specialize (IH (v / base)). cbn. lia.
Qed.

Lemma number_text_ok large base v : 1 < base <= 16 ->
  Forall (fun c => 0 <= c < 256) (number_text large base v) /\ (length (number_text large base v) <= 16)%nat.
Proof.
  intros Hb. unfold number_text. destruct (v =? 0); [by repeat constructor|]. split.
  - apply Forall_fmap. eapply Forall_impl; [apply digits_range; lia|]. cbn. intros d Hd. unfold digit_char. region; try destruct large; lia.
  - rewrite length_fmap. apply digits_length.
Qed.

(** The digits in [tmp]. *)
Lemma tmp_text num base large m : is_long num -> ubase num < real_base base ^ 16 ->
  (if num =? 0 then mret [48] else tmp_digits 16 num base large []) m = Ok (reverse (number_text large (real_base base) (ubase num))) m.
Proof.
  intros Hn Hr. unfold number_text. destruct (Z.eqb_spec num 0) as [Hz|Hz]; destruct (Z.eqb_spec (ubase num) 0) as [E|E]; [done| | |].
  - exfalso. by apply E, ubase_zero.
  - exfalso. by apply Hz, ubase_zero.
  - rewrite tmp_digits_run by done. cbn [app]. by rewrite fmap_reverse.
Qed.

(** ** Flags *)

Lemma has_lor t a b : truthy (Z.land t (Z.lor a b)) = has t a || has t b.
Proof.
  unfold has, truthy. rewrite Z.land_lor_distr_r. destruct (Z.eqb_spec (Z.land t a) 0) as [E|E], (Z.eqb_spec (Z.land t b) 0) as [E'|E']; cbn.
  - by rewrite E, E'.
  - rewrite E, Z.lor_0_l. by apply Z.eqb_neq in E' as ->.
  - rewrite E', Z.lor_0_r. by apply Z.eqb_neq in E as ->.
  - destruct (Z.eqb_spec (Z.lor (Z.land t a) (Z.land t b)) 0) as [H|]; [|done]. by apply Z.lor_eq_0_iff in H as [? _].
Qed.

(** Left justified fields are not filled with zeros. *)
Definition field_type (t : Z) : Z := if has t LEFT then Z.land t (Z.lnot ZEROPAD) else t.

Lemma field_type_flag t f : Z.land (Z.lnot ZEROPAD) f = f -> Z.land (field_type t) f = Z.land t f.
Proof. intros E. unfold field_type. destruct (has t LEFT); [|done]. by rewrite <- Z.land_assoc, E. Qed.

Lemma field_type_left t : truthy (Z.land (field_type t) LEFT) = has t LEFT.
Proof. by rewrite field_type_flag. Qed.

Lemma field_type_zero t : truthy (Z.land (field_type t) ZEROPAD) = negb (has t LEFT) && has t ZEROPAD.
Proof.
  unfold field_type. destruct (has t LEFT); [|done]. cbn [negb andb]. rewrite <- Z.land_assoc. change (Z.land (Z.lnot ZEROPAD) ZEROPAD) with 0. by rewrite Z.land_0_r.
Qed.

Lemma field_type_sign t num : get_sign (field_type t) num = get_sign t num.
Proof. unfold get_sign. by rewrite !field_type_flag. Qed.

Lemma get_sign_ok t num : is_long num -> is_long (get_sign t num).2 /\ 0 <= (get_sign t num).1 < 256.
Proof.
  intros H. unfold get_sign. destruct (truthy _); [|cbn; split; [done|lia]]. destruct (num <? 0); [cbn; split; [apply to_long_range|lia]|].
  destruct (truthy _); [cbn; split; [done|lia]|]. destruct (truthy _); cbn; (split; [done|lia]).
Qed.

Lemma arg_number_range qualifier flags a : 0 <= arg_number qualifier flags a < 2 ^ 32.
Proof. unfold arg_number. destruct (qualifier =? 104); apply u32_range. Qed.

(** An integer argument has few enough digits. *)
Lemma arg_digits t qualifier flags a base : ubase (get_sign t (to_long (arg_number qualifier flags a))).2 < real_base base ^ 16.
Proof.
  pose proof (arg_number_range qualifier flags a) as Hr. set (n := arg_number qualifier flags a) in *.
  apply Z.lt_le_trans with (2 ^ 32); [|unfold real_base; destruct (base =? 10); lia].
  destruct cfg_ptr as [E|E]; [pose proof (ubase_range (get_sign t (to_long n)).2) as Hu; rewrite E in Hu; lia|].
  assert (El : to_long n = n) by (apply to_long_small; unfold is_long; rewrite E; lia). rewrite El. unfold get_sign.
  destruct (Z.ltb_spec n 0); [lia|]. assert (Eu : ubase n = n) by (apply ubase_small; rewrite E; lia).
  repeat case_match; cbn [snd]; lia.
Qed.

Lemma pointer_digits x : ubase x < real_base 16 ^ 16.
Proof. pose proof (ubase_range x) as H. destruct cfg_ptr as [E|E]; rewrite E in H; cbn in *; lia. Qed.

End Numbers.

(** ** The rest of a format is no longer *)

Lemma read_flags_length f : forall flags, (length (read_flags f flags).2 <= length f)%nat.
Proof. induction f as [|c f IH]; intros flags; cbn [read_flags]; [done|]. destruct (flag_of c); cbn; [|lia]. specialize (IH (Z.lor flags z)). lia. Qed.

Lemma read_number_length f : forall i n r, read_number f i = Some (n, r) -> (length r <= length f)%nat.
Proof.
  induction f as [|c f IH]; intros i n r H; cbn [read_number] in H; [by simplify_eq|].
  destruct (isdigit c); [|by simplify_eq]. cbn zeta in H. destruct (_ <? _); [|done]. apply IH in H. cbn. lia.
Qed.

Lemma read_width_length f flags args w flags' r args' : read_width f flags args = Some (w, flags', r, args') -> (length r <= length f)%nat.
Proof.
  destruct f as [|c f]; cbn [read_width]; [intros; simplify_eq; cbn; lia|]. destruct (isdigit c).
  - destruct (read_number (c :: f) 0) as [[n r']|] eqn:E; cbn; [|done]. intros. simplify_eq. by apply read_number_length in E.
  - destruct (c =? 42); [|intros; simplify_eq; cbn; lia]. destruct args as [|a args]; [done|]. repeat case_match; intros; simplify_eq; cbn; lia.
Qed.

Lemma read_precision_length f args n r args' : read_precision f args = Some (n, r, args') -> (length r <= length f)%nat.
Proof.
  destruct f as [|c f]; cbn [read_precision]; [intros; simplify_eq; cbn; lia|]. destruct (c =? 46); [|intros; simplify_eq; cbn; lia].
  destruct f as [|d f]; [intros; simplify_eq; cbn; lia|]. destruct (isdigit d).
  - destruct (read_number (d :: f) 0) as [[k r']|] eqn:E; cbn; [|done]. intros. simplify_eq. apply read_number_length in E. cbn in *. lia.
  - destruct (d =? 42); [destruct args; [done|]|]; intros; simplify_eq; cbn; lia.
Qed.

Lemma directive_length `{CF : Config} sv f args t r args' : format_directive sv f args = Some (t, r, args') -> (length r <= length f)%nat.
Proof.
  unfold format_directive. cbn zeta. pose proof (read_flags_length f 0). destruct (read_flags f 0) as [flags f1]. cbn [fst snd] in *.
  destruct (read_width f1 flags args) as [[[[w flags'] f2] args2]|] eqn:Ew; cbn; [|done]. apply read_width_length in Ew.
  destruct (read_precision f2 args2) as [[[n f3] args3]|] eqn:Ep; cbn; [|done]. apply read_precision_length in Ep.
  assert (Hq : (length (read_qualifier f3).2 <= length f3)%nat) by (destruct f3; cbn; [lia|]; case_match; cbn; lia).
  destruct (read_qualifier f3) as [q [|c f4]]; cbn [fst snd length] in *; [intros; simplify_eq; cbn; lia|].
  destruct (takes_arg c); [destruct args3; [done|]; destruct (format_arg _ _ _ _ _ _ _)|destruct (c =? 37)]; cbn; intros; simplify_eq; lia.
Qed.

(** ** Printing into the buffer *)

Section Buffer.
Context `{CO : ConfigOk}.
(** The buffer from [buf] to [last], in the memory [m0] before the call. *)
Variables (buf last : Z) (m0 : bmem).
Hypotheses (Hroom : buf <= last) (Hmapped : mapped buf (last - buf + 1) m0).

(** [out] has been printed: its first characters are in the buffer, and nothing
    else has changed.  Once the buffer is full [str] is only known to be behind
    it. *)
Definition shows (out : list Z) (str : Z) (m : bmem) : Prop :=
  updated buf (Z.min (Z.of_nat (length out)) (last - buf + 1)) (fun i => out !! Z.to_nat (i - buf)) m0 m /\
  (str = buf + Z.of_nat (length out) \/ (last < str /\ last < buf + Z.of_nat (length out))).

(** [prog], which moves the position of the output, prints [out]. *)
Definition prints (prog : Z -> M bmem Z) (out : list Z) : Prop :=
  forall o str m, shows o str m -> exists str' m', prog str m = Ok str' m' /\ shows (o ++ out) str' m' /\ str <= str'.

Lemma shows_start : shows [] buf m0.
Proof. split; [|left; cbn; lia]. intros i. cbn [length]. region; done. Qed.

Lemma shows_mapped o str m : shows o str m -> mapped buf (last - buf + 1) m.
Proof.
  intros [U _]. apply (updated_mapped _ _ _ _ _ _ _ U); [|done]. intros i Hi. apply lookup_lt_is_Some. lia.
Qed.

Lemma shows_full o str m : shows o str m -> last < str -> last < buf + Z.of_nat (length o).
Proof. intros [_ [-> |[_ H]]] Hs; lia. Qed.

(** What is printed behind the end of the buffer does not matter. *)
Lemma shows_tail o x y str m : last < buf + Z.of_nat (length o) -> last < str -> shows (o ++ x) str m -> shows (o ++ y) str m.
Proof.
  intros Hf Hs [U _]. split; [|right; rewrite length_app; lia]. intros i. rewrite U, !length_app. region; try done.
  rewrite !lookup_app_l by lia. done.
Qed.

Lemma prints_nil : prints (fun str => mret str) [].
Proof. intros o str m H. exists str, m. rewrite app_nil_r. split_and!; [done|done|lia]. Qed.

Lemma prints_bind p q x y : prints p x -> prints q y -> prints (fun str => s ← p str; q s) (x ++ y).
Proof.
  intros Hp Hq o str m H. destruct (Hp _ _ _ H) as (s1 & m1 & R1 & H1 & L1). destruct (Hq _ _ _ H1) as (s2 & m2 & R2 & H2 & L2).
  exists s2, m2. rewrite (bind_ok _ _ _ _ _ R1), app_assoc. split_and!; [done|done|lia].
Qed.

Lemma prints_ext p q x y : (forall str m, p str m = q str m) -> x = y -> prints q y -> prints p x.
Proof. intros E -> H o str m Hs. rewrite E. by apply H. Qed.

Lemma put_prints c : prints (fun str => put last str c) [u8 c].
Proof.
  intros o str m H. pose proof (shows_mapped _ _ _ H) as Hm. unfold put. rewrite bind_when. destruct (Z.leb_spec str last) as [Hl|Hl].
  - destruct H as [U [-> |?]]; [|lia]. set (k := Z.of_nat (length o)) in *.
    destruct (store8_run (buf + k) c m) as (m1 & R & U1); [apply (mapped_sub _ _ _ _ _ Hm); lia|].
    rewrite (bind_ok _ _ _ _ _ R). eexists _, m1. split_and!; [done| |lia]. split; [|left; rewrite length_app; cbn; lia].
    intros i. rewrite U1, U, length_app. cbn [length]. region; try done.
    + rewrite lookup_app_r by lia. by replace (Z.to_nat (i - buf) - length o)%nat with 0%nat by lia.
    + by rewrite lookup_app_l by lia.
  - pose proof (shows_full _ _ _ H Hl). exists (str + 1), m. split_and!; [done| |lia].
    rewrite <- (app_nil_r o) in H. apply (shows_tail _ [] _ _ _ H0); [lia|]. destruct H as [U _]. split; [done|]. right. rewrite app_nil_r. lia.
Qed.

Lemma put_n_prints n c : prints (fun str => put_n n last str c) (replicate n (u8 c)).
Proof.
  induction n as [|n IH]; [apply prints_nil|]. cbn [put_n replicate]. change (u8 c :: replicate n (u8 c)) with ([u8 c] ++ replicate n (u8 c)).
  by apply (prints_bind (fun str => put last str c) (fun s => put_n n last s c)); [apply put_prints|].
Qed.

Lemma put_chars_prints l : Forall (fun c => 0 <= c < 256) l -> prints (fun str => put_chars l last str) l.
Proof.
  induction 1 as [|c l Hc Hl IH]; [apply prints_nil|]. cbn [put_chars]. change (c :: l) with ([c] ++ l).
  pose proof (put_prints c) as Hp. rewrite (u8_small c Hc) in Hp. by apply (prints_bind (fun str => put last str c) (fun s => put_chars l last s)).
Qed.


(** ** Strings and characters *)

(** A string that printing does not change. *)
Definition stable (p : Z) (t : list Z) : Prop := cstring p t m0 /\ apart buf (last - buf + 1) p (Z.of_nat (S (length t))).

Lemma shows_cstring o str m p t : shows o str m -> stable p t -> cstring p t m.
Proof. intros [U _] [Ht Ha]. apply (cstring_updated _ _ _ _ _ _ _ U); [|done]. unfold apart in *. lia. Qed.

Lemma stable_tail p c t : stable p (c :: t) -> stable (p + 1) t.
Proof. intros [Ht Ha]. apply cstring_cons in Ht as (_ & _ & Ht). split; [done|]. unfold apart in *. cbn [length] in Ha. lia. Qed.

Lemma prints_if (b : bool) p q x y : prints p x -> prints q y -> prints (fun str => if b then p str else q str) (if b then x else y).
Proof. by destruct b. Qed.

Lemma put_string_prints n : forall p t, (n <= length t)%nat -> stable p t -> prints (fun str => put_string n last str p) (take n t).
Proof.
  induction n as [|n IH]; intros p t Hn Hs; [rewrite take_0; apply prints_nil|]. destruct t as [|c t]; cbn in Hn; [lia|].
  intros o str m H. pose proof (shows_cstring _ _ _ _ _ H Hs) as Hc. apply cstring_cons in Hc as (E & Hc & _). cbn [put_string take].
  rewrite (bind_ok _ _ _ _ _ (load8_run _ _ _ E)). pose proof (put_prints c) as Hp. rewrite u8_small in Hp by lia.
  apply (prints_bind _ (fun s => put_string n last s (p + 1)) _ _ Hp (IH (p + 1) t ltac:(lia) (stable_tail _ _ _ Hs)) _ _ _ H).
Qed.

(** A string argument and its text. *)
Definition is_text (s : Z) (t : list Z) : Prop := if s =? RT_NULL then t = null_text else stable s t.

Lemma print_string_prints s t precision width left : is_text s t ->
  prints (fun str => print_string last str s precision width left) (render_string left width precision t).
Proof.
  unfold is_text. intros Ht. set (n := if (0 <? precision) && (precision <? Z.of_nat (length t)) then precision else Z.of_nat (length t)).
  assert (En : 0 <= n <= Z.of_nat (length t)) by (subst n; region; lia).
  assert (Ecut : (if 0 <? precision then take (Z.to_nat precision) t else t) = take (Z.to_nat n) t).
  { subst n. region; [done|..]; rewrite Nat2Z.id, firstn_all; [|done..]. by apply take_ge; lia. }
  set (q := fun str => s1 ← (if left then mret str else put_n (Z.to_nat (width - n)) last str 32);
    s2 ← (if s =? RT_NULL then put_chars (take (Z.to_nat n) null_text) last s1 else put_string (Z.to_nat n) last s1 s);
    put_n (Z.to_nat (if left then width - n else 0)) last s2 32).
  assert (Hq : prints q ((if left then [] else spaces (width - n)) ++ take (Z.to_nat n) t ++ spaces (if left then width - n else 0))).
  { unfold q. apply (prints_bind (fun str => if left then mret str else put_n (Z.to_nat (width - n)) last str 32)).
    { apply (prints_if left (fun str => mret str)); [apply prints_nil|apply put_n_prints]. }
    apply (prints_bind (fun str => if s =? RT_NULL then put_chars (take (Z.to_nat n) null_text) last str else put_string (Z.to_nat n) last str s)
      (fun s2 => put_n (Z.to_nat (if left then width - n else 0)) last s2 32)); [|apply put_n_prints].
    destruct (s =? RT_NULL); [subst t|].
    - apply put_chars_prints, Forall_take. repeat constructor; lia.
    - apply put_string_prints; [lia|done]. }
  intros o str m Hs. assert (E : print_string last str s precision width left m = q str m).
  { unfold print_string, q. rewrite (bind_ok _ _ _ (Z.of_nat (length t)) m).
    2:{ destruct (s =? RT_NULL); [by subst t|]. apply rt_strlen_run. by apply (shows_cstring _ _ _ _ _ Hs). }
    fold n. cbn zeta. destruct left; cbn [negb]; rewrite ?bind_assoc, ?bind_mret; [done|].
    unfold mbind, M_bind. destruct (put_n _ last str 32 m) as [s1 m1|]; [|done]. cbn.
    by replace (Z.to_nat (Z.min width n - 1 - n)) with 0%nat by lia. }
  rewrite E. unfold render_string. rewrite Ecut. replace (Z.of_nat (length (take (Z.to_nat n) t))) with n by (rewrite length_take; lia).
  destruct left; cbn [app] in Hq; [by apply Hq|]. change (spaces 0) with (@nil Z) in Hq. rewrite app_nil_r in Hq. by apply Hq.
Qed.

Lemma print_char_prints c width left : prints (fun str => print_char last str c width left) (render_char left width c).
Proof.
  set (q := fun str => s1 ← (if left then mret str else put_n (Z.to_nat (width - 1)) last str 32);
    s2 ← put last s1 (u8 c); put_n (Z.to_nat (if left then width - 1 else 0)) last s2 32).
  assert (Hq : prints q ((if left then [] else spaces (width - 1)) ++ [u8 c] ++ spaces (if left then width - 1 else 0))).
  { unfold q. apply (prints_bind (fun str => if left then mret str else put_n (Z.to_nat (width - 1)) last str 32)).
    { apply (prints_if left (fun str => mret str)); [apply prints_nil|apply put_n_prints]. }
    pose proof (put_prints (u8 c)) as Hp. rewrite (u8_small (u8 c)) in Hp by apply u8_range.
    apply (prints_bind _ (fun s2 => put_n (Z.to_nat (if left then width - 1 else 0)) last s2 32) _ _ Hp). apply put_n_prints. }
  intros o str m Hs. assert (E : print_char last str c width left m = q str m).
  { unfold print_char, q. destruct left; cbn [negb]; rewrite ?bind_assoc, ?bind_mret; [done|].
    unfold mbind, M_bind. destruct (put_n _ last str 32 m) as [s1 m1|]; [|done]. cbn.
    by replace (Z.to_nat (Z.min (width - 1) 0 - 1)) with 0%nat by lia. }
  rewrite E. unfold render_char. destruct left; cbn [app] in Hq; [by apply Hq|].
  change (spaces 0) with (@nil Z) in Hq. by apply Hq.
Qed.

(** ** Number fields *)

(** What follows the sign: zeros or spaces, the digits, and spaces. *)
Definition field_tail (left : bool) (c : Z) (z : nat) (ds : list Z) (size str : Z) : M bmem Z :=
  r ← (if negb left then pad last str size c else mret (str, size));
  s ← put_n z last r.1 48;
  s ← put_chars ds last s;
  r ← pad last s r.2 32;
  mret r.1.
Definition tail_text (left : bool) (c : Z) (z : nat) (ds : list Z) (size : Z) : list Z :=
  (if left then [] else replicate (Z.to_nat size) c) ++ replicate z 48 ++ ds ++ (if left then spaces size else []).

Lemma field_tail_prints left c z ds size : 0 <= c < 256 -> Forall (fun d => 0 <= d < 256) ds ->
  prints (field_tail left c z ds size) (tail_text left c z ds size).
Proof.
  intros Hc Hd. set (q := fun str => s1 ← (if left then mret str else put_n (Z.to_nat size) last str c);
    s2 ← put_n z last s1 48; s3 ← put_chars ds last s2; put_n (Z.to_nat (if left then size else 0)) last s3 32).
  assert (Hq : prints q (tail_text left c z ds size)).
  { unfold q, tail_text. apply (prints_bind (fun str => if left then mret str else put_n (Z.to_nat size) last str c)).
    { apply (prints_if left (fun str => mret str)); [apply prints_nil|]. pose proof (put_n_prints (Z.to_nat size) c) as Hp. by rewrite u8_small in Hp. }
    apply (prints_bind (fun s1 => put_n z last s1 48) (fun s2 => s3 ← put_chars ds last s2; put_n (Z.to_nat (if left then size else 0)) last s3 32)); [apply put_n_prints|].
    apply (prints_bind (fun s2 => put_chars ds last s2) (fun s3 => put_n (Z.to_nat (if left then size else 0)) last s3 32)); [by apply put_chars_prints|].
    destruct left; [apply put_n_prints|apply prints_nil]. }
  intros o str m Hs. assert (E : field_tail left c z ds size str m = q str m); [|rewrite E; by apply Hq].
  unfold field_tail, q, pad. destruct left; cbn [negb]; unfold mbind, M_bind, mret, M_ret.
  - cbn [fst snd]. destruct (put_n z last str 48 m) as [s2 m2|]; [|done]. destruct (put_chars ds last s2 m2) as [s3 m3|]; [|done].
    by destruct (put_n _ last s3 32 m3).
  - destruct (put_n _ last str c m) as [s1 m1|]; [|done]. cbn [fst snd]. destruct (put_n z last s1 48 m1) as [s2 m2|]; [|done].
    destruct (put_chars ds last s2 m2) as [s3 m3|]; [|done]. by replace (Z.to_nat (Z.min size 0 - 1)) with 0%nat by lia.
Qed.

Definition sign_text (sign : Z) : list Z := if sign =? 0 then [] else [sign].

(** A sign that does not fit the buffer is not counted, which only changes the
    length of the text behind the end of the buffer. *)
Lemma signed_prints left c z ds size sign : 0 <= c < 256 -> Forall (fun d => 0 <= d < 256) ds -> 0 <= sign < 256 ->
  prints (fun str => r ← put_sign last str size sign; field_tail left c z ds r.2 r.1)
    (sign_text sign ++ tail_text left c z ds (size - Z.of_nat (length (sign_text sign)))).
Proof.
  intros Hc Hd Hsg. unfold sign_text, put_sign, truthy. destruct (Z.eqb_spec sign 0) as [E|E]; cbn [negb length app].
  - rewrite Z.sub_0_r. by apply (field_tail_prints left c z ds size).
  - intros o str m Hs. pose proof (put_prints sign o str m Hs) as (s1 & m1 & R1 & H1 & L1). rewrite u8_small in H1 by done.
    unfold put in R1. rewrite bind_when in R1. destruct (Z.leb_spec str last) as [Hl|Hl].
    + destruct (store8 str sign m) as [[] m2|f] eqn:R2; [|by rewrite (bind_fault _ _ _ _ R2) in R1].
      rewrite (bind_ok _ _ _ _ _ R2) in R1. cbn in R1. injection R1 as <- <-. rewrite bind_assoc, (bind_ok _ _ _ _ _ R2), bind_mret.
      cbn [fst snd]. destruct (field_tail_prints left c z ds (size - 1) Hc Hd _ _ _ H1) as (s3 & m3 & R3 & H3 & L3).
      exists s3, m3. rewrite R3. rewrite <- app_assoc in H3. split_and!; [done|done|lia].
    + cbn in R1. injection R1 as <- <-. rewrite bind_mret. cbn [fst snd].
      destruct (field_tail_prints left c z ds size Hc Hd _ _ _ H1) as (s3 & m3 & R3 & H3 & L3).
      exists s3, m3. rewrite R3. split_and!; [done| |lia]. rewrite <- app_assoc in H3.
      pose proof (shows_full _ _ _ Hs Hl). refine (shows_tail o _ _ s3 m3 H _ H3). lia.
Qed.

(** The pieces make up the field. *)
Lemma field_text left zero width precision sign ds :
  let i := Z.of_nat (length ds) in
  let prec := if precision <? i then i else precision in
  let size := width - prec in
  let size1 := if truthy sign && (0 <? size) then size - 1 else size in
  let plain := negb zero && negb left in
  (if plain then spaces size1 else []) ++ sign_text sign ++
    tail_text left (if negb left && zero then 48 else 32) (Z.to_nat (prec - i)) ds
      ((if plain then Z.min size1 0 - 1 else size) - Z.of_nat (length (sign_text sign))) =
  render_number left zero width precision (sign_text sign) ds.
Proof.
  intros i prec size size1 plain. unfold render_number, tail_text. rewrite !length_app. unfold zeros, spaces. rewrite !length_replicate.
  assert (Ez : Z.to_nat (prec - i) = Z.to_nat (precision - i)) by (subst prec; region; lia). rewrite Ez. fold i.
  set (sg := sign_text sign). set (z := Z.to_nat (precision - i)) in *.
  assert (Ef : width - Z.of_nat (length sg + (z + length ds)) = size - Z.of_nat (length sg)) by (subst size prec z; region; lia).
  rewrite Ef. destruct left, zero; cbn [negb andb] in *; subst plain; cbn [negb andb app].
  1,2: by rewrite <- !app_assoc.
  - by rewrite app_nil_r.
  - rewrite app_nil_r. replace (Z.to_nat (Z.min size1 0 - 1 - Z.of_nat (length sg))) with 0%nat by lia. cbn [replicate app].
    f_equal. f_equal. subst size1 sg. unfold sign_text, truthy. destruct (Z.eqb_spec sign 0); cbn [negb andb length]; [lia|]. region; lia.
Qed.

Lemma print_number_prints num base width precision flags : is_long num -> ubase (get_sign flags num).2 < real_base base ^ 16 ->
  -1 <= width < 2 ^ 31 -> precision < 2 ^ 31 ->
  prints (fun str => print_number str last num base width precision flags) (format_number flags base width precision num).
Proof.
  intros Hn Hr Hw Hp. destruct (get_sign_ok flags num Hn) as [Hl Hs]. unfold format_number. fold (real_base base).
  destruct (number_text_ok (has flags LARGE) (real_base base) (ubase (get_sign flags num).2)) as [Hd Hlen];
    [unfold real_base; destruct (base =? 10); lia|].
  set (ds := number_text _ _ _) in *. set (sign := (get_sign flags num).1) in *. fold (sign_text sign).
  set (i := Z.of_nat (length ds)). set (prec := if precision <? i then i else precision).
  set (size := width - prec). assert (Ei : 0 <= i <= 16) by lia. assert (Epr : i <= prec < 2 ^ 31) by (subst prec; region; lia).
  set (left := has flags LEFT). set (zero := has flags ZEROPAD). set (c := if negb left && zero then 48 else 32).
  set (plain := negb zero && negb left). set (size1 := if truthy sign && (0 <? size) then size - 1 else size).
  set (q := fun str => s1 ← (if plain then put_n (Z.to_nat size1) last str 32 else mret str);
    r ← put_sign last s1 (if plain then Z.min size1 0 - 1 else size) sign; field_tail left c (Z.to_nat (prec - i)) ds r.2 r.1).
  assert (Hq : prints q ((if plain then spaces size1 else []) ++ sign_text sign ++
      tail_text left c (Z.to_nat (prec - i)) ds ((if plain then Z.min size1 0 - 1 else size) - Z.of_nat (length (sign_text sign))))).
  { unfold q. apply (prints_bind (fun str => if plain then put_n (Z.to_nat size1) last str 32 else mret str)).
    - apply (prints_if plain _ (fun str => mret str)); [apply put_n_prints|apply prints_nil].
    - apply signed_prints; [|done|done]. subst c. destruct (negb left && zero); lia. }
  assert (E : forall str m, print_number str last num base width precision flags m = q str m).
  { intros str m. unfold print_number. fold (has flags LEFT). fold (field_type flags). rewrite field_type_sign. cbn zeta.
    rewrite (bind_ok _ _ _ _ _ (tmp_text _ base (has flags LARGE) m Hl Hr)). rewrite length_reverse, reverse_involutive. fold ds sign i prec.
    rewrite has_lor. unfold has. rewrite field_type_left, field_type_zero. fold left zero size. rewrite i32_small by lia. fold c size1 plain.
    unfold q, field_tail, plain. rewrite negb_orb. fold left zero.
    destruct left eqn:El, zero eqn:Ez; cbn [negb andb orb]; try done.
    change (pad last str size1 32) with (s ← put_n (Z.to_nat size1) last str 32; mret (s, Z.min size1 0 - 1)). by rewrite bind_assoc. }
  intros o str m Hsh. rewrite E, <- (field_text left zero width precision sign ds). by apply Hq.
Qed.

(** ** Reading the format *)

(** The strings that printing does not change are as they were. *)
Definition agrees (m : bmem) : Prop := forall p t, stable p t -> cstring p t m.

Lemma shows_agrees o str m : shows o str m -> agrees m.
Proof. intros H p t. by apply shows_cstring with o str. Qed.

Lemma agrees_head m p f : agrees m -> stable p f -> load8 p m = Ok (head_of f) m.
Proof. intros Ha Hs. apply load8_run. by apply cstring_head, Ha. Qed.

Lemma fmt_flags_run m : agrees m -> forall f fuel p flags, stable p f -> (length f <= fuel)%nat ->
  exists p', fmt_flags fuel (p - 1) flags m = Ok (p', (read_flags f flags).1) m /\ stable p' (read_flags f flags).2.
Proof.
  intros Ha. induction f as [|c f IH]; intros fuel p flags Hs Hf.
  - exists p. split; [|done]. destruct fuel; cbn [fmt_flags]; rewrite Z.sub_add, (bind_ok _ _ _ _ _ (agrees_head _ _ _ Ha Hs)); done.
  - destruct fuel as [|fuel]; cbn in Hf; [lia|]. cbn [fmt_flags read_flags]. rewrite Z.sub_add, (bind_ok _ _ _ _ _ (agrees_head _ _ _ Ha Hs)). cbn [head_of].
    assert (Hn : forall b, exists p', fmt_flags fuel p (Z.lor flags b) m = Ok (p', (read_flags f (Z.lor flags b)).1) m /\ stable p' (read_flags f (Z.lor flags b)).2).
    { intros b. destruct (IH fuel (p + 1) (Z.lor flags b)) as (p' & R & H); [by apply stable_tail with c|lia|].
      replace (p + 1 - 1) with p in R by lia. by exists p'. }
    unfold flag_of. repeat (case_match; [by apply Hn|]). by exists p.
Qed.

Lemma skip_loop_run m : agrees m -> forall f fuel p i n r, stable p f -> (length f <= fuel)%nat -> 0 <= i < 2 ^ 31 -> read_number f i = Some (n, r) ->
  exists p', skip_atoi_loop fuel p i m = Ok (n, p') m /\ stable p' r /\ 0 <= n < 2 ^ 31.
Proof.
  intros Ha. induction f as [|c f IH]; intros fuel p i n r Hs Hf Hi Hr; cbn [read_number] in Hr.
  - simplify_eq. exists p. split; [|done]. destruct fuel; cbn [skip_atoi_loop]; by rewrite (bind_ok _ _ _ _ _ (agrees_head _ _ _ Ha Hs)).
  - destruct fuel as [|fuel]; cbn in Hf; [lia|]. cbn [skip_atoi_loop]. rewrite (bind_ok _ _ _ _ _ (agrees_head _ _ _ Ha Hs)). cbn [head_of].
    destruct (isdigit c) eqn:Ed; [|simplify_eq; by exists p]. cbn zeta in Hr. destruct (Z.ltb_spec (i * 10 + c - 48) (2 ^ 31)); [|done].
    unfold isdigit in Ed. btrue. rewrite i32_small by lia. apply IH; [by apply stable_tail with c|lia|lia|done].
Qed.

Lemma skip_atoi_run m f p n r : agrees m -> stable p f -> read_number f 0 = Some (n, r) ->
  exists p', skip_atoi p m = Ok (n, p') m /\ stable p' r /\ 0 <= n < 2 ^ 31.
Proof.
  intros Ha Hs Hr. unfold skip_atoi. rewrite (bind_ok _ _ _ _ _ (scan_run m)). pose proof (cstring_size _ _ _ (Ha _ _ Hs)).
  apply (skip_loop_run m Ha f); [done|lia|lia|done].
Qed.

Lemma i32_range x : - 2 ^ 31 <= i32 x < 2 ^ 31.
Proof. unfold i32. pose proof (Z.mod_pos_bound (x + 2 ^ 31) (2 ^ 32)). lia. Qed.

Lemma fmt_width_run m f p flags args w flags' r args' : agrees m -> stable p f -> read_width f flags args = Some (w, flags', r, args') ->
  exists p', fmt_width p flags args m = Ok (p', w, flags', args') m /\ stable p' r /\ -1 <= w < 2 ^ 31.
Proof.
  intros Ha Hs Hr. unfold fmt_width. rewrite (bind_ok _ _ _ _ _ (agrees_head _ _ _ Ha Hs)).
  destruct f as [|c f]; cbn [read_width head_of] in *; [simplify_eq; exists p; split; [done|]; split; [done|lia]|].
  destruct (isdigit c).
  - destruct (read_number (c :: f) 0) as [[n r']|] eqn:En; cbn in Hr; [|done]. simplify_eq.
    destruct (skip_atoi_run m _ p _ _ Ha Hs En) as (p' & R & Hs' & Hn). exists p'. rewrite (bind_ok _ _ _ _ _ R). split; [done|]. split; [done|lia].
  - destruct (c =? 42); [|simplify_eq; exists p; split; [done|]; split; [done|lia]]. destruct args as [|a args]; [done|]. cbn [va_arg]. rewrite bind_mret. cbn [fst snd].
    pose proof (i32_range a). destruct (Z.eqb_spec (i32 a) (- 2 ^ 31)); [done|].
    destruct (Z.ltb_spec (i32 a) 0); simplify_eq; exists (p + 1); [rewrite i32_small by lia|]; (split; [done|]); (split; [by apply stable_tail with c|lia]).
Qed.

Lemma fmt_precision_run m f p args n r args' : agrees m -> stable p f -> read_precision f args = Some (n, r, args') ->
  exists p', fmt_precision p args m = Ok (p', n, args') m /\ stable p' r /\ n < 2 ^ 31.
Proof.
  intros Ha Hs Hr. unfold fmt_precision. rewrite (bind_ok _ _ _ _ _ (agrees_head _ _ _ Ha Hs)).
  destruct f as [|c f]; cbn [read_precision head_of] in *; [simplify_eq; exists p; split; [done|]; split; [done|lia]|].
  destruct (c =? 46); [|simplify_eq; exists p; split; [done|]; split; [done|lia]]. apply stable_tail in Hs.
  rewrite (bind_ok _ _ _ _ _ (agrees_head _ _ _ Ha Hs)). destruct f as [|d f]; cbn [head_of].
  { simplify_eq. exists (p + 1). split; [done|]. split; [done|lia]. }
  destruct (isdigit d).
  - destruct (read_number (d :: f) 0) as [[k r']|] eqn:En; cbn in Hr; [|done]. simplify_eq.
    destruct (skip_atoi_run m _ (p + 1) _ _ Ha Hs En) as (p' & R & Hs' & Hn). exists p'. rewrite bind_assoc, (bind_ok _ _ _ _ _ R), bind_mret. cbn [fst snd].
    destruct (Z.ltb_spec n 0); [lia|]. split; [done|]. split; [done|lia].
  - destruct (d =? 42); [|simplify_eq; exists (p + 1); split; [done|]; split; [done|lia]]. destruct args as [|a args]; [done|]. simplify_eq. cbn [va_arg].
    rewrite bind_assoc, !bind_mret. cbn [fst snd]. pose proof (i32_range a). exists (p + 2).
    split; [destruct (Z.ltb_spec (i32 a) 0); unfold mret, M_ret; do 2 f_equal; f_equal; lia|]. apply stable_tail in Hs.
    replace (p + 2) with (p + 1 + 1) by lia. split; [done|lia].
Qed.

Lemma fmt_qualifier_run m f p : agrees m -> stable p f ->
  exists p', fmt_qualifier p m = Ok (p', (read_qualifier f).1) m /\ stable p' (read_qualifier f).2.
Proof.
  intros Ha Hs. unfold fmt_qualifier. rewrite (bind_ok _ _ _ _ _ (agrees_head _ _ _ Ha Hs)).
  destruct f as [|c f]; cbn [read_qualifier head_of]; [by exists p|]. destruct (_ || _); [|by exists p]. exists (p + 1). split; [done|]. by apply stable_tail with c.
Qed.

(** ** Conversions *)

Variable string_at : Z -> option (list Z).
Hypothesis Hstrings : forall a t, a <> RT_NULL -> string_at a = Some t -> stable a t.

(** [prog], a function of the position, prints [t] and then returns with [args]. *)
Lemma prints_then prog t (p : Z) (args : list Z) o str m : prints prog t -> shows o str m ->
  exists str' m', (s ← prog str; mret (p, s, args)) m = Ok (p, str', args) m' /\ shows (o ++ t) str' m'.
Proof. intros Hp Hs. destruct (Hp _ _ _ Hs) as (s1 & m1 & R & H & _). exists s1, m1. by rewrite (bind_ok _ _ _ _ _ R). Qed.

Lemma number_conversion (p base flags width precision qualifier a : Z) (args : list Z) o str m : -1 <= width < 2 ^ 31 -> precision < 2 ^ 31 -> shows o str m ->
  exists str' m', (s ← print_number str last (to_long (arg_number qualifier flags a)) base width precision flags; mret (p, s, args)) m =
      Ok (p, str', args) m' /\ shows (o ++ format_number flags base width precision (to_long (arg_number qualifier flags a))) str' m'.
Proof.
  intros Hw Hp. apply (prints_then (fun str => print_number str last _ base width precision flags)).
  apply print_number_prints; [apply to_long_range|apply arg_digits|done|done].
Qed.

Lemma convert_arg_run p c r flags width precision qualifier a args t o str m : stable p (c :: r) -> takes_arg c = true ->
  -1 <= width < 2 ^ 31 -> precision < 2 ^ 31 -> format_arg string_at c flags width precision qualifier a = Some t -> shows o str m ->
  exists str' m', fmt_convert last p str flags width precision qualifier (a :: args) m = Ok (p, str', args) m' /\ shows (o ++ t) str' m'.
Proof.
  intros Hs Ht Hw Hp Hf Ho. unfold fmt_convert. rewrite (bind_ok _ _ _ _ _ (agrees_head _ _ _ (shows_agrees _ _ _ Ho) Hs)).
  cbn [head_of va_arg]. unfold format_arg in Hf. unfold takes_arg in Ht. cbn in Ht.
  destruct (Z.eqb_spec c 99); [simplify_eq; rewrite bind_mret; by apply (prints_then _ _ _ _ _ _ _ (print_char_prints _ _ _))|].
  destruct (Z.eqb_spec c 115).
  { destruct (if a =? RT_NULL then Some null_text else string_at a) as [s|] eqn:Es; cbn in Hf; simplify_eq. rewrite bind_mret. cbn [fst snd].
    apply (prints_then (fun str => print_string last str a precision width _)); [|done]. apply print_string_prints.
    unfold is_text. destruct (Z.eqb_spec a RT_NULL); [by simplify_eq|by apply Hstrings]. }
  destruct (Z.eqb_spec c 112).
  { rewrite bind_mret. cbn [fst snd]. simplify_eq. destruct (Z.eqb_spec width (-1)); cbn [fst snd].
    - apply (prints_then (fun str => print_number str last _ 16 _ precision _)); [|done]. replace (Z.shiftl sizeof_ptr 1) with (2 * sizeof_ptr)
        by (rewrite Z.shiftl_mul_pow2; lia). apply print_number_prints; [apply to_long_range|apply pointer_digits|destruct cfg_ptr as [-> | ->]; lia|done].
    - apply (prints_then (fun str => print_number str last _ 16 _ precision _)); [|done].
      apply print_number_prints; [apply to_long_range|apply pointer_digits|done|done]. }
  destruct (Z.eqb_spec c 37); [by subst c|].
  destruct (Z.eqb_spec c 111); [simplify_eq; rewrite bind_mret; by apply number_conversion|].
  destruct (Z.eqb_spec c 88); [simplify_eq; rewrite bind_mret; by apply number_conversion|].
  destruct (Z.eqb_spec c 120); [simplify_eq; rewrite bind_mret; by apply number_conversion|].
  destruct ((c =? 100) || (c =? 105)) eqn:Ed; [simplify_eq; rewrite bind_mret; by apply number_conversion|].
  destruct (Z.eqb_spec c 117); [simplify_eq; rewrite bind_mret; by apply number_conversion|].
  apply orb_false_iff in Ed as [E1 E2]. by rewrite E1, E2 in Ht.
Qed.

Lemma convert_other_run p f flags width precision qualifier args o str m : stable p f ->
  match f with c :: _ => takes_arg c = false | [] => True end -> shows o str m ->
  exists p' str' m', fmt_convert last p str flags width precision qualifier args m = Ok (p', str', args) m' /\
    shows (o ++ match f with [] => [37] | c :: _ => if c =? 37 then [37] else [37; c] end) str' m' /\
    stable (p' + 1) match f with [] => [] | _ :: r => r end.
Proof.
  intros Hs Hf Ho. unfold fmt_convert. rewrite (bind_ok _ _ _ _ _ (agrees_head _ _ _ (shows_agrees _ _ _ Ho) Hs)).
  pose proof (put_prints 37) as Hp. change (u8 37) with 37 in Hp.
  destruct f as [|c r]; cbn [head_of].
  - cbn. destruct (Hp _ _ _ Ho) as (s1 & m1 & R & H & _). exists (p - 1), s1, m1. rewrite (bind_ok _ _ _ _ _ R). rewrite Z.sub_add. done.
  - assert (Hc : 0 < c < 256) by (destruct Hs as [Hs _]; by apply cstring_cons in Hs as (_ & ? & _)).
    unfold takes_arg in Hf. cbn in Hf. repeat (apply orb_false_iff in Hf as [-> Hf]). apply stable_tail in Hs as Ht.
    destruct (Z.eqb_spec c 37); cbn [orb].
    + destruct (Hp _ _ _ Ho) as (s1 & m1 & R & H & _). exists p, s1, m1. by rewrite (bind_ok _ _ _ _ _ R).
    + destruct (Hp _ _ _ Ho) as (s1 & m1 & R & H & _). rewrite (bind_ok _ _ _ _ _ R). destruct (Z.eqb_spec c 0); [lia|]. cbn [negb].
      pose proof (put_prints c) as Hp2. rewrite u8_small in Hp2 by lia. destruct (Hp2 _ _ _ H) as (s2 & m2 & R2 & H2 & _).
      exists p, s2, m2. rewrite (bind_ok _ _ _ _ _ R2), <- app_assoc in *. done.
Qed.

Lemma directive_run p f fuel args t r args' o str m : stable p f -> (length f <= fuel)%nat ->
  format_directive string_at f args = Some (t, r, args') -> shows o str m ->
  exists p' str' m', fmt_directive fuel last (p - 1) str args m = Ok (p', str', args') m' /\ shows (o ++ t) str' m' /\ stable (p' + 1) r.
Proof.
  intros Hs Hf Hd Ho. pose proof (shows_agrees _ _ _ Ho) as Ha. unfold format_directive in Hd. cbn zeta in Hd.
  destruct (fmt_flags_run m Ha f fuel p 0 Hs Hf) as (p1 & R1 & S1). destruct (read_flags f 0) as [flags f1]. cbn [fst snd] in *.
  destruct (read_width f1 flags args) as [[[[w flags'] f2] args2]|] eqn:Ew; cbn in Hd; [|done].
  destruct (fmt_width_run m _ _ _ _ _ _ _ _ Ha S1 Ew) as (p2 & R2 & S2 & Hw).
  destruct (read_precision f2 args2) as [[[n f3] args3]|] eqn:Ep; cbn in Hd; [|done].
  destruct (fmt_precision_run m _ _ _ _ _ _ Ha S2 Ep) as (p3 & R3 & S3 & Hn).
  destruct (fmt_qualifier_run m _ _ Ha S3) as (p4 & R4 & S4). destruct (read_qualifier f3) as [q f4]. cbn [fst snd] in *.
  unfold fmt_directive. rewrite (bind_ok _ _ _ _ _ R1), (bind_ok _ _ _ _ _ R2), (bind_ok _ _ _ _ _ R3), (bind_ok _ _ _ _ _ R4). cbn [fst snd].
  destruct f4 as [|c f4]; [|destruct (takes_arg c) eqn:Et].
  - simplify_eq. by apply (convert_other_run p4 []).
  - destruct args3 as [|a args3]; [done|]. destruct (format_arg _ _ _ _ _ _ _) as [t'|] eqn:Ef; cbn in Hd; simplify_eq.
    destruct (convert_arg_run p4 c r flags' w n q a args' t o str m S4 Et Hw Hn Ef Ho) as (s' & m' & R & H).
    exists p4, s', m'. split; [done|]. split; [done|]. by apply stable_tail with c.
  - pose proof (convert_other_run p4 (c :: f4) flags' w n q args3 o str m S4 Et Ho) as H. cbn in H.
    destruct (c =? 37); simplify_eq; exact H.
Qed.

Lemma fmt_loop_run fuel : forall f p args t o str m, stable p f -> (length f <= fuel)%nat -> (exists n, format string_at n f args = Some t) -> shows o str m ->
  exists str' m', fmt_loop fuel last p str args m = Ok str' m' /\ shows (o ++ t) str' m'.
Proof.
  induction fuel as [|fuel IH]; intros f p args t o str m Hs Hf [n Ht] Ho; destruct n as [|n]; destruct f as [|c f]; cbn in Ht, Hf; try (done || lia);
    cbn [fmt_loop]; rewrite (bind_ok _ _ _ _ _ (agrees_head _ _ _ (shows_agrees _ _ _ Ho) Hs)); cbn [head_of].
  1-4: simplify_eq; exists str, m; rewrite app_nil_r; done.
  assert (Hc : 0 < c < 256) by (destruct Hs as [Hs _]; by apply cstring_cons in Hs as (_ & ? & _)). destruct (Z.eqb_spec c 0); [lia|].
  apply stable_tail in Hs. destruct (Z.eqb_spec c 37); cbn [negb].
  - destruct (format_directive string_at f args) as [[[t1 r] args1]|] eqn:Ed; cbn in Ht; [|done].
    destruct (format string_at n r args1) as [t2|] eqn:Et; cbn in Ht; simplify_eq. pose proof (directive_length _ _ _ _ _ _ Ed).
    destruct (directive_run (p + 1) f (S fuel) args t1 r args1 o str m Hs ltac:(lia) Ed Ho) as (p' & s1 & m1 & R & H1 & S1).
    replace (p + 1 - 1) with p in R by lia. rewrite (bind_ok _ _ _ _ _ R). cbn [fst snd]. rewrite app_assoc.
    apply (IH r _ args1); [done|lia|by exists n|done].
  - destruct (format string_at n f args) as [t2|] eqn:Et; cbn in Ht; simplify_eq.
    pose proof (put_prints c) as Hp. rewrite u8_small in Hp by lia. destruct (Hp _ _ _ Ho) as (s1 & m1 & R & H1 & _).
    rewrite (bind_ok _ _ _ _ _ R). replace (o ++ c :: t2) with ((o ++ [c]) ++ t2) by (by rewrite <- app_assoc).
    apply (IH f _ args); [done|lia|by exists n|done].
Qed.

End Buffer.

(** ** The theorems *)

Section Thm.
Context `{CO : ConfigOk}.

(** What [rt_vsnprintf] leaves in the buffer. *)
Lemma vsnprintf_run string_at buf size fmt f args t m :
  0 <= buf -> 0 < size -> buf + size <= 2 ^ (8 * sizeof_ptr) -> mapped buf size m ->
  cstring fmt f m -> apart buf size fmt (Z.of_nat (S (length f))) ->
  (forall a s, a <> RT_NULL -> string_at a = Some s -> cstring a s m /\ apart buf size a (Z.of_nat (S (length s)))) ->
  format string_at (length f) f args = Some t ->
  exists n m', rt_vsnprintf buf size fmt args m = Ok (i32 n) m' /\
    (Z.of_nat (length t) < size -> n = Z.of_nat (length t)) /\ (size <= Z.of_nat (length t) -> size <= n) /\
    let k := Z.min (Z.of_nat (length t)) (size - 1) in
    updated buf (k + 1) (fun i => (take (Z.to_nat k) t ++ [0]) !! Z.to_nat (i - buf)) m m'.
Proof.
  intros Hb Hs Hw Hm Hf Ha Hst Ht. set (last := buf + size - 1). assert (El : last - buf + 1 = size) by lia.
  unfold rt_vsnprintf. fold last. rewrite (ubase_small last) by lia. destruct (Z.ltb_spec last buf); [lia|]. rewrite (bind_ok _ _ _ _ _ (scan_run m)).
  destruct (fmt_loop_run buf last m ltac:(lia) ltac:(by rewrite El) string_at) with (fuel := S (base.size m)) (f := f) (p := fmt) (args := args)
    (t := t) (o := @nil Z) (str := buf) (m := m) as (str & m1 & R & Hsh).
  { intros a s Hn E. destruct (Hst a s Hn E). split; [done|]. by rewrite El. }
  { split; [done|]. by rewrite El. }
  { pose proof (cstring_size _ _ _ Hf). lia. }
  { by exists (length f). }
  { by apply shows_start. }
  rewrite (bind_ok _ _ _ _ _ R). cbn [app] in Hsh. assert (Hm1 : mapped buf (last - buf + 1) m1) by (eapply shows_mapped; [..|exact Hsh]; by rewrite ?El).
  destruct Hsh as [U Hstr]. rewrite El in *.
  exists (str - buf). set (k := Z.min (Z.of_nat (length t)) (size - 1)).
  assert (Hstore : forall q, q = buf + k -> exists m', store8 q 0 m1 = Ok tt m' /\
    updated buf (k + 1) (fun i => (take (Z.to_nat k) t ++ [0]) !! Z.to_nat (i - buf)) m m').
  { intros q ->. destruct (store8_run (buf + k) 0 m1) as (m2 & R2 & U2); [apply (mapped_sub _ _ _ _ _ Hm1); lia|]. exists m2. split; [done|].
    intros i. rewrite U2, U. region; try done.
    - rewrite lookup_app_r by (rewrite length_take; lia). rewrite length_take.
      by replace (Z.to_nat (i - buf) - Nat.min (Z.to_nat k) (length t))%nat with 0%nat by lia.
    - rewrite lookup_app_l by (rewrite length_take; lia). by rewrite lookup_take_lt by lia. }
  destruct (Z.leb_spec str last).
  - destruct (Hstore str ltac:(lia)) as (m2 & R2 & U2). exists m2. rewrite (bind_ok _ _ _ _ _ R2). split_and!; [done|lia|lia|done].
  - destruct (Hstore last ltac:(lia)) as (m2 & R2 & U2). exists m2. rewrite (bind_ok _ _ _ _ _ R2). split_and!; [done|lia|lia|done].
Qed.

(** ** Decimal numbers *)

Definition digits_value (base : Z) (l : list Z) : Z := foldl (fun v d => v * base + d) 0 l.
(** The number a decimal text stands for. *)
Definition decimal_value (t : list Z) : Z :=
  let value l := digits_value 10 ((fun c => c - 48) <$> l) in
  match t with c :: r => if c =? 45 then - value r else value t | [] => 0 end.

Lemma digits_of_value fuel base v : 1 < base -> 0 <= v < base ^ Z.of_nat fuel -> digits_value base (digits_of fuel base v) = v.
Proof.
  intros Hb. revert v. induction fuel as [|fuel IH]; intros v Hv; cbn [digits_of]; [cbn in Hv |- *; lia|].
  destruct (Z.eqb_spec v 0) as [-> |]; [done|]. unfold digits_value in *. rewrite foldl_app. cbn. rewrite IH.
  - pose proof (Z.div_mod v base). lia.
  - rewrite Nat2Z.inj_succ, Z.pow_succ_r in Hv by lia. split; [apply Z.div_pos; lia|apply Z.div_lt_upper_bound; lia].
Qed.

Lemma digits_of_short base k : 1 < base -> forall fuel v, 0 <= v < base ^ Z.of_nat k -> (length (digits_of fuel base v) <= k)%nat.
Proof.
  intros Hb. induction k as [|k IH]; intros [|fuel] v Hv; cbn [digits_of length]; try lia.
  - cbn in Hv. assert (v = 0) as -> by lia. done.
  - destruct (v =? 0); [cbn; lia|]. rewrite length_app. cbn [length].
    assert (length (digits_of fuel base (v / base)) <= k)%nat; [|lia]. apply IH.
    rewrite Nat2Z.inj_succ, Z.pow_succ_r in Hv by lia. split; [apply Z.div_pos; lia|apply Z.div_lt_upper_bound; lia].
Qed.

Lemma decimal_digits_text v : 0 <= v < 10 ^ 10 ->
  let t := number_text false 10 v in
  (length t <= 10)%nat /\ Forall (fun c => 48 <= c <= 57) t /\ t <> [] /\ digits_value 10 ((fun c => c - 48) <$> t) = v.
Proof.
  intros Hv. unfold number_text. destruct (Z.eqb_spec v 0) as [-> |]; [cbn; split_and!; [lia|by repeat constructor|done|done]|]. cbn zeta.
  rewrite length_fmap. assert (Hd : Forall (fun d => 0 <= d < 10) (digits_of 16 10 v)) by (apply digits_range; lia). split_and!.
  - apply digits_of_short; [lia|]. change (Z.of_nat 10) with 10. done.
  - apply Forall_fmap. eapply Forall_impl; [exact Hd|]. cbn. intros d Hr. unfold digit_char. region; lia.
  - intros E. apply fmap_nil_inv in E. assert (Hval : digits_value 10 (digits_of 16 10 v) = v) by (apply digits_of_value; lia). by rewrite E in Hval.
  - rewrite <- list_fmap_compose. rewrite (list_fmap_ext _ id).
    + rewrite list_fmap_id. apply digits_of_value; [lia|]. change (Z.of_nat 16) with 16. lia.
    + intros i d Hi. eapply Forall_lookup_1 in Hd; [|exact Hi]. cbn in *. unfold digit_char. region; lia.
Qed.

Lemma i32_u32 x : i32 (u32 x) = i32 x.
Proof. unfold i32, u32. by rewrite Z.add_mod_idemp_l by lia. Qed.

(** The text of [%d]. *)
Lemma format_int string_at v : sizeof_ptr = 4 -> - 2 ^ 31 <= v < 2 ^ 31 ->
  exists t, format string_at 2 [37; 100] [v] = Some t /\ (length t <= 11)%nat /\ Forall (fun c => 0 < c < 256) t /\ decimal_value t = v.
Proof.
  intros Ew Hv. assert (Ea : to_long (arg_number 0 2 v) = v).
  { replace (to_long (arg_number 0 2 v)) with (i32 (arg_number 0 2 v)) by (unfold to_long; by rewrite Ew).
    change (arg_number 0 2 v) with (u32 (i32 (u32 v))). rewrite !i32_u32, (i32_small v) by lia. by apply i32_small. }
  assert (Ef : format string_at 2 [37; 100] [v] = Some (format_number 2 10 (-1) (-1) v ++ [])).
  { transitivity (Some (format_number 2 10 (-1) (-1) (to_long (arg_number 0 2 v)) ++ [])); [reflexivity|by rewrite Ea]. }
  rewrite app_nil_r in Ef. eexists. split; [exact Ef|]. clear Ea Ef. unfold format_number.
  change (has 2 LEFT) with false. change (has 2 ZEROPAD) with false. change (has 2 LARGE) with false. change (10 =? 10) with true.
  replace (get_sign 2 v) with (if v <? 0 then (45, to_long (- v)) else (0, v)) by done.
  set (num := (if v <? 0 then (45, to_long (- v)) else (0, v))).
  assert (En : ubase num.2 = Z.abs v).
  { subst num. destruct (Z.ltb_spec v 0); cbn [snd]; [|rewrite ubase_small by (rewrite Ew; lia); lia].
    unfold ubase, to_long. rewrite Ew. change (2 * 2 ^ (8 * 4 - 1)) with (2 ^ (8 * 4)). rewrite Zminus_mod_idemp_l.
    replace (- v + 2 ^ (8 * 4 - 1) - 2 ^ (8 * 4 - 1)) with (- v) by lia. rewrite Z.mod_small; lia. }
  rewrite En. destruct (decimal_digits_text (Z.abs v) ltac:(lia)) as (Hl & Hd & Hne & Hval). set (ds := number_text false 10 (Z.abs v)) in *.
  unfold render_number, zeros, spaces. replace (Z.to_nat (-1 - Z.of_nat (length ds))) with 0%nat by lia.
  replace (Z.to_nat (-1 - Z.of_nat (length _))) with 0%nat by lia. cbn [replicate app].
  assert (Hds : Forall (fun c => 0 < c < 256) ds) by (eapply Forall_impl; [exact Hd|]; cbn; lia).
  subst num. destruct (Z.ltb_spec v 0); cbn [fst]; cbn -[digits_value Z.mul].
  - split_and!; [lia|constructor; [lia|done]|]. rewrite Hval. lia.
  - split_and!; [lia|done|]. unfold decimal_value. destruct ds as [|c ds]; [done|]. inversion_clear Hd.
    destruct (Z.eqb_spec c 45); [lia|]. rewrite Hval. lia.
Qed.


(** C27: A number survives printing: on a 32-bit machine [rt_snprintf] with the
    format [%d] leaves in a buffer of twelve bytes or more a terminated string
    that stands for the argument, whatever its value, and returns its length. *)
Theorem print_int_roundtrip v buf size fmt m : sizeof_ptr = 4 -> - 2 ^ 31 <= v < 2 ^ 31 ->
  0 <= buf -> 12 <= size -> buf + size <= 2 ^ 32 -> mapped buf size m -> cstring fmt [37; 100] m -> apart buf size fmt 3 ->
  exists t m', rt_snprintf buf size fmt [v] m = Ok (Z.of_nat (length t)) m' /\ cstring buf t m' /\ decimal_value t = v.
Proof.
  intros Ew Hv Hb Hs Hsz Hm Hf Ha. destruct (format_int (fun _ => None) v Ew Hv) as (t & Et & Hl & Ht & Hval). exists t.
  destruct (vsnprintf_run (fun _ => None) buf size fmt [37; 100] [v] t m) as (n & m' & R & Hn & _ & U); try done; [lia|by rewrite Ew|].
  exists m'. unfold rt_snprintf. rewrite R, Hn by lia. rewrite i32_small by lia. split; [done|]. split; [|done]. split; [|done]. cbn zeta in U.
  replace (Z.min (Z.of_nat (length t)) (size - 1)) with (Z.of_nat (length t)) in U by lia. rewrite Nat2Z.id, firstn_all in U.
  intros i x Hx. pose proof (lookup_lt_Some _ _ _ Hx) as Hi. rewrite length_app in Hi. cbn in Hi. rewrite U. region.
  replace (Z.to_nat (buf + Z.of_nat i - buf)) with i by lia. done.
Qed.

End Thm.

(** ** Examples *)

Module PrintDemo.
(** The format [f] at 100, the string "abc" at 120, and a buffer of sixteen
    bytes at 200. *)
Definition page (f : list Z) : bmem :=
  list_to_map (zip (seqZ 100 (Z.of_nat (length f) + 1)) (f ++ [0]) ++ zip (seqZ 120 4) [97; 98; 99; 0] ++ zip (seqZ 200 16) (replicate 16 1)).
Fixpoint until_nul (l : list Z) : list Z := match l with [] => [] | c :: l => if c =? 0 then [] else c :: until_nul l end.
(** The result, and what is in the buffer up to the terminator. *)
Definition shown (CF : Config) (size : Z) (f args : list Z) : option (Z * list Z) :=
  match rt_snprintf 200 size 100 args (page f) with
  | Ok n m => Some (n, until_nul (default 0 ∘ (fun p => m !! p) <$> seqZ 200 16))
  | Fault _ => None
  end.
Definition strings (a : Z) : option (list Z) := if a =? 120 then Some [97; 98; 99] else None.
End PrintDemo.
#[local] Existing Instances default_config default_config_ok.


(** The smallest number, which has no positive counterpart. *)
Lemma print_int_roundtrip_witness : exists t m', rt_snprintf 200 16 100 [- 2 ^ 31] (PrintDemo.page [37; 100]) = Ok (Z.of_nat (length t)) m' /\
  cstring 200 t m' /\ decimal_value t = - 2 ^ 31.
Proof.
  apply print_int_roundtrip.
  - reflexivity.
  - lia.
  - lia.
  - lia.
  - lia.
  - apply mapped_check. vm_compute. reflexivity.
  - apply cstring_check; vm_compute; reflexivity.
  - right. lia.
Defined.

(** [%o] prints hexadecimal digits: [divide] knows the bases 10 and 16 only. *)
Example octal_is_hexadecimal : PrintDemo.shown default_config 16 [37; 111] [8] = Some (1, [56]).
Proof. vm_compute. reflexivity. Qed.

(** A size of 0 is taken for an unbounded buffer. *)
Example size_zero_unbounded : PrintDemo.shown default_config 0 [104; 105] [] = Some (2, [104; 105]).
Proof. vm_compute. reflexivity. Qed.

(** The length of "x%-3d" of -1 depends on the buffer: it is 4, but 5 when the
    sign is cut off. *)
Example cut_sign_counts :
  PrintDemo.shown default_config 16 [120; 37; 45; 51; 100] [-1] = Some (4, [120; 45; 49; 32]) /\
  PrintDemo.shown default_config 1 [120; 37; 45; 51; 100] [-1] = Some (5, []).
Proof. vm_compute. split; reflexivity. Qed.

(** On a 64-bit machine negative numbers lose their sign: -1 is 4294967295. *)
Example negative_on_64_bits :
  PrintDemo.shown {| RT_THREAD_PRIORITY_MAX := 32; RT_NAME_MAX := 8; RT_TICK_PER_SECOND := 100; RT_ALIGN_SIZE := 8;
    RT_TIMER_SKIP_LIST_LEVEL := 1; RT_TIMER_SKIP_LIST_MASK := 3; sizeof_ptr := 8; object_size := fun _ => 128 |}
    16 [37; 100] [-1] = Some (10, [52; 50; 57; 52; 57; 54; 55; 50; 57; 53]).
Proof. vm_compute. reflexivity. Qed.
