(* ===== verification/Scheduler.v ===== *)
(** * Thread scheduler (src/scheduler.c, src/irq.c)

    The single-processor scheduler: the thread control blocks, the ready queue
    of each priority with its bitmap, the wait lists the other components keep
    their suspended threads in, the current thread, the scheduler lock and the
    interrupt nesting count.  An [rt_list_t] of threads is the list of its
    threads (RtList shows the pointer structure implements it); the node of a
    thread is its [tlist] field, so a thread is in at most one list. *)

From S2P Require Import Prelude KService.

(** ** Data *)

Definition RT_THREAD_INIT : Z := 0x00.
Definition RT_THREAD_READY : Z := 0x01.
Definition RT_THREAD_SUSPEND : Z := 0x02.
Definition RT_THREAD_CLOSE : Z := 0x04.
Definition RT_THREAD_STAT_MASK : Z := 0x0f.

(** [struct rt_thread] of include/rtdef.h, without the object header
    (Object), the built-in timer (Timer) and the saved stack pointer. *)
Record rt_thread := mk_thread {
  th_entry : Z;
  th_parameter : Z;
  th_stack_addr : Z;
  th_stack_size : Z;
  th_error : Z;
  th_stat : Z;
  th_current_priority : Z;
  th_init_priority : Z;
  th_number : Z;
  th_high_mask : Z;
  th_number_mask : Z;
  th_event_set : Z;
  th_event_info : Z;
  th_init_tick : Z;
  th_remaining_tick : Z;
  th_cleanup : Z;
  th_user_data : Z
}.

(** The heads of the lists a thread can be in: the ready queue of a priority,
    the defunct list, the waiters of a kernel object, and the senders waiting
    on a full mailbox. *)
Inductive lhead :=
| HReady (p : Z)
| HDefunct
| HSuspend (o : Z)
| HSender (o : Z).

#[global] Instance lhead_eq_dec : EqDecision lhead.
Proof. solve_decision. Defined.

#[global] Instance lhead_countable : Countable lhead.
Proof.
  refine (inj_countable'
    (fun h => match h with
              | HReady p => inl (inl p) | HDefunct => inl (inr tt)
              | HSuspend o => inr (inl o) | HSender o => inr (inr o) end)
    (fun x => match x with
              | inl (inl p) => HReady p | inl (inr _) => HDefunct
              | inr (inl o) => HSuspend o | inr (inr o) => HSender o end) _).
  by intros [].
Defined.

(** Scheduler globals; [sc_table] is [rt_thread_ready_table], used when
    [RT_THREAD_PRIORITY_MAX > 32]. *)
Record sched := mk_sched {
  sc_threads : gmap Z rt_thread;
  sc_lists : gmap lhead (list Z);
  sc_group : Z;
  sc_table : list Z;
  sc_lock_nest : Z;
  sc_current : Z;
  sc_current_priority : Z;
  sc_irq_nest : Z
}.

Abbreviation Sc := (M sched).

(** ** Access to threads and thread lists *)

Definition get_thread (t : Z) : Sc rt_thread :=
  fun s => of_option BadPtr (sc_threads s !! t) s.

Definition put_thread (t : Z) (th : rt_thread) (s : sched) : sched :=
  {| s with sc_threads := <[t := th]> (sc_threads s) |}.
Definition upd_thread (t : Z) (f : rt_thread -> rt_thread) : Sc unit :=
  th ← get_thread t; modify (put_thread t (f th)).

Definition put_lists (ls : gmap lhead (list Z)) (s : sched) : sched :=
  {| s with sc_lists := ls |}.
Definition put_list (h : lhead) (l : list Z) (s : sched) : sched :=
  put_lists (<[h := l]> (sc_lists s)) s.
Definition put_group (g : Z) (s : sched) : sched := {| s with sc_group := g |}.
Definition put_table (tb : list Z) (s : sched) : sched := {| s with sc_table := tb |}.
Definition put_current (t : Z) (s : sched) : sched := {| s with sc_current := t |}.
Definition put_lock (n : Z) (s : sched) : sched := {| s with sc_lock_nest := n |}.

(** Is the [tlist] node of [t] in some list? *)
Definition linked (t : Z) (s : sched) : bool :=
  existsb (fun hl : lhead * list Z => bool_decide (t ∈ hl.2)) (map_to_list (sc_lists s)).

Definition get_list (h : lhead) : Sc (list Z) :=
  fun s => of_option BadPtr (sc_lists s !! h) s.

(** [rt_list_init] of a list head: a head whose list still holds threads must
    not be re-initialised. *)
Definition tlist_head_init (h : lhead) : Sc unit :=
  s ← getS;
  match sc_lists s !! h with
  | Some (_ :: _) => fail BadList
  | _ => modify (put_list h [])
  end.

(** [rt_list_init(&thread->tlist)]. *)
Definition tlist_node_init (t : Z) : Sc unit :=
  s ← getS; if linked t s then fail BadList else mret tt.

(** [rt_list_insert_before(head, &thread->tlist)]. *)
Definition tlist_insert_before (h : lhead) (t : Z) : Sc unit :=
  get_thread t;; l ← get_list h; s ← getS;
  if linked t s then fail BadList else modify (put_list h (l ++ [t])).

(** [rt_list_insert_after(head, &thread->tlist)]. *)
Definition tlist_insert_after (h : lhead) (t : Z) : Sc unit :=
  get_thread t;; l ← get_list h; s ← getS;
  if linked t s then fail BadList else modify (put_list h (t :: l)).

(** [rt_list_remove(&thread->tlist)]: the node leaves the list it is in. *)
Definition unlink (t : Z) (l : list Z) : list Z := filter (fun x => x <> t) l.
Definition tlist_remove (t : Z) : Sc unit :=
  get_thread t;; modify (fun s => put_lists (unlink t <$> sc_lists s) s).

Definition tlist_isempty (h : lhead) : Sc bool :=
  l ← get_list h; mret (bool_decide (l = [])).

(** [rt_thread_ready_table[i]], out of range being a stray access. *)
Definition table_get (i : Z) : Sc Z :=
  fun s => if 0 <=? i then of_option BadPtr (sc_table s !! Z.to_nat i) s
           else Fault BadPtr.
Definition table_set (i v : Z) : Sc unit :=
  table_get i;;
  modify (fun s => put_table (<[Z.to_nat i := v]> (sc_table s)) s).
Definition group_set (f : Z -> Z) : Sc unit :=
  modify (fun s => put_group (f (sc_group s)) s).

Definition stat_of (th : rt_thread) : Z := Z.land (th_stat th) RT_THREAD_STAT_MASK.

(** [new | (stat & ~RT_THREAD_STAT_MASK)] on the 8-bit field. *)
Definition set_stat (new : Z) (th : rt_thread) : rt_thread :=
  {| th with th_stat := u8 (Z.lor new (Z.land (th_stat th) (Z.lnot RT_THREAD_STAT_MASK))) |}.

Section Operations.
Context `{Config}.

(** The priority attributes derived from [current_priority], as computed by
    [rt_thread_startup] and [rt_thread_control]. *)
Definition prio_attr (th : rt_thread) : rt_thread :=
  if 32 <? RT_THREAD_PRIORITY_MAX then
    let n := Z.shiftr (th_current_priority th) 3 in
    {| th with th_number := n;
               th_number_mask := u32 (Z.shiftl 1 n);
               th_high_mask := u8 (Z.shiftl 1 (Z.land (th_current_priority th) 0x07)) |}
  else
    {| th with th_number_mask := u32 (Z.shiftl 1 (th_current_priority th)) |}.

(** ** Operations of src/scheduler.c *)

Definition _get_highest_priority_thread : Sc (Z * Z) :=
  s ← getS;
  highest ←
    (if 32 <? RT_THREAD_PRIORITY_MAX then
       let number := __rt_ffs (sc_group s) - 1 in
       tb ← table_get number;
       mret (Z.shiftl number 3 + __rt_ffs tb - 1)
     else mret (__rt_ffs (sc_group s) - 1));
  l ← get_list (HReady highest);
  match l with
  | t :: _ => mret (t, highest)
  | [] => fail BadPtr
  end.

Fixpoint priority_table_init (n : nat) : Sc unit :=
  match n with
  | O => mret tt
  | S n => priority_table_init n;; modify (put_list (HReady (Z.of_nat n)) [])
  end.

Definition rt_system_scheduler_init : Sc unit :=
  modify (put_lock 0);;
  priority_table_init (Z.to_nat RT_THREAD_PRIORITY_MAX);;
  group_set (fun _ => 0);;
  when (32 <? RT_THREAD_PRIORITY_MAX)
    (modify (put_table (replicate 32 0)));;
  modify (put_list HDefunct []).

Definition rt_schedule_insert_thread (thread : Z) : Sc unit :=
  RT_ASSERT (negb (thread =? RT_NULL));;
  upd_thread thread (set_stat RT_THREAD_READY);;
  current ← gets sc_current;
  if thread =? current then mret tt
  else
    th ← get_thread thread;
    tlist_insert_before (HReady (th_current_priority th)) thread;;
    when (32 <? RT_THREAD_PRIORITY_MAX)
      (tb ← table_get (th_number th);
       table_set (th_number th) (Z.lor tb (th_high_mask th)));;
    group_set (fun g => Z.lor g (th_number_mask th)).

Definition rt_schedule_remove_thread (thread : Z) : Sc unit :=
  RT_ASSERT (negb (thread =? RT_NULL));;
  tlist_remove thread;;
  th ← get_thread thread;
  empty ← tlist_isempty (HReady (th_current_priority th));
  when empty
    (if 32 <? RT_THREAD_PRIORITY_MAX then
       tb ← table_get (th_number th);
       let tb' := Z.land tb (Z.lnot (th_high_mask th)) in
       table_set (th_number th) tb';;
       when (tb' =? 0) (group_set (fun g => Z.land g (Z.lnot (th_number_mask th))))
     else group_set (fun g => Z.land g (Z.lnot (th_number_mask th)))).

Definition rt_system_scheduler_start : Sc unit :=
  r ← _get_highest_priority_thread;
  let to_thread := r.1 in
  modify (put_current to_thread);;
  rt_schedule_remove_thread to_thread.

(** The decision and bookkeeping of a reschedule; [sc_current] afterwards is
    the thread the processor switches to. *)
Definition rt_schedule : Sc unit :=
  s ← getS;
  when (sc_lock_nest s =? 0)
    (when (negb (sc_group s =? 0))
      (r ← _get_highest_priority_thread;
       let '(highest_thread, highest_ready_priority) := r in
       let from_thread := sc_current s in
       cur ← get_thread from_thread;
       let ready := stat_of cur =? RT_THREAD_READY in
       let keep := ready && (th_current_priority cur <? highest_ready_priority) in
       let need_insert_from_thread := ready && negb keep in
       let to_thread := if keep then from_thread else highest_thread in
       if negb (to_thread =? from_thread) then
         modify (fun s => {| s with sc_current_priority := u8 highest_ready_priority |});;
         modify (put_current to_thread);;
         when need_insert_from_thread (rt_schedule_insert_thread from_thread);;
         rt_schedule_remove_thread to_thread
       else rt_schedule_remove_thread from_thread)).

Definition rt_enter_critical : Sc unit :=
  modify (fun s => put_lock (i16 (sc_lock_nest s + 1)) s).

Definition rt_exit_critical : Sc unit :=
  modify (fun s => put_lock (i16 (sc_lock_nest s - 1)) s);;
  n ← gets sc_lock_nest;
  when (n <=? 0)
    (modify (put_lock 0);; rt_schedule).

Definition rt_critical_level : Sc Z := n ← gets sc_lock_nest; mret (u16 n).

Definition rt_thread_self : Sc Z := gets sc_current.

(** ** Interrupt nesting (src/irq.c) *)

Definition rt_interrupt_enter : Sc unit :=
  modify (fun s => {| s with sc_irq_nest := u8 (sc_irq_nest s + 1) |}).
Definition rt_interrupt_leave : Sc unit :=
  modify (fun s => {| s with sc_irq_nest := u8 (sc_irq_nest s - 1) |}).
Definition rt_interrupt_get_nest : Sc Z := gets sc_irq_nest.

End Operations.
