(* ===== verification/ReadyBitmap.v ===== *)
(** * The ready bitmap

    [rt_thread_ready_priority_group] and [rt_thread_ready_table] as a
    representation of a set of priorities: [bitmap_rep f g tb] says that the
    group [g] and table [tb] hold exactly the priorities [f] selects, in one
    level when [RT_THREAD_PRIORITY_MAX <= 32] and in two levels above.  The
    lemmas say what setting and clearing a thread's masks does to the set, and
    that the search of [_get_highest_priority_thread] finds its least element. *)

From S2P Require Import Prelude KService Scheduler.

Section Bitmap.
Context `{CO : ConfigOk}.

(** Priorities the bitmap has a bit for. *)
Definition bitmap_bits : Z := if 32 <? RT_THREAD_PRIORITY_MAX then 256 else 32.

Definition pbit (g : Z) (tb : list Z) (p : Z) : bool :=
  if 32 <? RT_THREAD_PRIORITY_MAX
  then Z.testbit (nth (Z.to_nat (Z.shiftr p 3)) tb 0) (Z.land p 7)
  else Z.testbit g p.

Record bitmap_rep (f : Z -> bool) (g : Z) (tb : list Z) : Prop := {
  bm_group : 0 <= g < 2 ^ 32;
  bm_bits : forall p, 0 <= p < bitmap_bits -> pbit g tb p = f p;
  bm_table : 32 < RT_THREAD_PRIORITY_MAX ->
    length tb = 32%nat /\
    forall n, 0 <= n < 32 ->
      0 <= nth (Z.to_nat n) tb 0 < 256 /\
      Z.testbit g n = negb (nth (Z.to_nat n) tb 0 =? 0)
}.

(** What the search computes. *)
Definition bitmap_min (g : Z) (tb : list Z) : Z :=
  if 32 <? RT_THREAD_PRIORITY_MAX then
    Z.shiftl (__rt_ffs g - 1) 3 + __rt_ffs (nth (Z.to_nat (__rt_ffs g - 1)) tb 0) - 1
  else __rt_ffs g - 1.

(** What inserting and removing a thread does to the bitmap. *)
Definition bm_set (th : rt_thread) (g : Z) (tb : list Z) : Z * list Z :=
  (Z.lor g (th_number_mask th),
   if 32 <? RT_THREAD_PRIORITY_MAX then
     <[Z.to_nat (th_number th) :=
         Z.lor (nth (Z.to_nat (th_number th)) tb 0) (th_high_mask th)]> tb
   else tb).

Definition bm_clear (th : rt_thread) (g : Z) (tb : list Z) : Z * list Z :=
  if 32 <? RT_THREAD_PRIORITY_MAX then
    let v := Z.land (nth (Z.to_nat (th_number th)) tb 0) (Z.lnot (th_high_mask th)) in
    (if v =? 0 then Z.land g (Z.lnot (th_number_mask th)) else g,
     <[Z.to_nat (th_number th) := v]> tb)
  else (Z.land g (Z.lnot (th_number_mask th)), tb).

(** The masks of [th] are those of its priority, which is in range. *)
Definition masks_ok (th : rt_thread) : Prop :=
  0 <= th_current_priority th < RT_THREAD_PRIORITY_MAX /\ prio_attr th = th.

(** ** Bit arithmetic *)

Lemma shiftl_one n : 0 <= n -> Z.shiftl 1 n = 2 ^ n.
Proof. intros. rewrite Z.shiftl_mul_pow2 by lia. lia. Qed.

Lemma testbit_pow2 n i : 0 <= n -> 0 <= i -> Z.testbit (2 ^ n) i = (i =? n).
Proof.
  intros. destruct (Z.eqb_spec i n) as [->|].
  - by rewrite Z.pow2_bits_true.
  - by rewrite Z.pow2_bits_false.
Qed.

Lemma testbit_set g n i :
  0 <= n -> 0 <= i -> Z.testbit (Z.lor g (2 ^ n)) i = (i =? n) || Z.testbit g i.
Proof. intros. rewrite Z.lor_spec, testbit_pow2 by done. apply orb_comm. Qed.

Lemma testbit_clear g n i :
  0 <= n -> 0 <= i ->
  Z.testbit (Z.land g (Z.lnot (2 ^ n))) i = negb (i =? n) && Z.testbit g i.
Proof.
  intros. rewrite Z.land_spec, Z.lnot_spec, testbit_pow2 by done. apply andb_comm.
Qed.

Lemma bits_bound v k :
  0 <= k -> 0 <= v -> (forall i, k <= i -> Z.testbit v i = false) -> v < 2 ^ k.
Proof.
  intros Hk Hv Hb. destruct (Z.eq_dec v 0) as [->|]; [by apply Z.pow_pos_nonneg|].
  apply Z.log2_lt_pow2; [lia|].
  destruct (Z.lt_ge_cases (Z.log2 v) k); [done|].
  pose proof (Z.bit_log2 v ltac:(lia)) as HH. by rewrite Hb in HH.
Qed.

Lemma bits_above v k i : 0 <= v < 2 ^ k -> k <= i -> Z.testbit v i = false.
Proof.
  intros Hv Hi. destruct (Z.eq_dec v 0) as [->|]; [apply Z.bits_0|].
  apply Z.bits_above_log2; [lia|].
  apply Z.lt_le_trans with k; [|done].
  apply Z.log2_lt_pow2; lia.
Qed.

Lemma set_range g n k : 0 <= n < k -> 0 <= g < 2 ^ k -> 0 <= Z.lor g (2 ^ n) < 2 ^ k.
Proof.
  intros Hn Hg.
  assert (0 <= Z.lor g (2 ^ n)) by (apply Z.lor_nonneg; split; [lia|apply Z.pow_nonneg; lia]).
  split; [done|]. apply bits_bound; [lia|done|]. intros i Hi.
  rewrite testbit_set by lia. rewrite (bits_above g k) by lia.
  destruct (Z.eqb_spec i n); [lia|done].
Qed.

Lemma clear_range g m k : 0 <= g < 2 ^ k -> 0 <= k -> 0 <= Z.land g (Z.lnot m) < 2 ^ k.
Proof.
  intros Hg Hk. assert (0 <= Z.land g (Z.lnot m)) by (apply Z.land_nonneg; lia).
  split; [done|]. apply bits_bound; [lia|done|]. intros i Hi.
  by rewrite Z.land_spec, (bits_above g k).
Qed.

Lemma zero_bits v : (forall i, 0 <= i -> Z.testbit v i = false) -> v = 0.
Proof. intros Hb. apply Z.bits_inj'. intros. by rewrite Z.bits_0, Hb. Qed.

Lemma nonzero_bit v k : 0 <= v < 2 ^ k -> v <> 0 -> exists i, 0 <= i < k /\ Z.testbit v i = true.
Proof.
  intros Hv Hnz. exists (Z.log2 v). split; [split; [apply Z.log2_nonneg|]|].
  - apply Z.log2_lt_pow2; lia.
  - apply Z.bit_log2. lia.
Qed.

(** Row and column of a priority in the two-level bitmap. *)
Lemma prio_split p : 0 <= p < 256 ->
  0 <= Z.shiftr p 3 < 32 /\ 0 <= Z.land p 7 < 8 /\ p = 8 * Z.shiftr p 3 + Z.land p 7.
Proof.
  intros. rewrite Z.shiftr_div_pow2 by lia. change 7 with (Z.ones 3).
  rewrite Z.land_ones by lia. change (2 ^ 3) with 8.
  pose proof (Z.div_mod p 8 ltac:(lia)). pose proof (Z.mod_pos_bound p 8 ltac:(lia)).
  assert (0 <= p / 8 < 32) by (split; [apply Z.div_pos|apply Z.div_lt_upper_bound]; lia).
  lia.
Qed.

Lemma prio_join n b : 0 <= b < 8 -> Z.shiftr (8 * n + b) 3 = n /\ Z.land (8 * n + b) 7 = b.
Proof.
  intros. rewrite Z.shiftr_div_pow2 by lia. change 7 with (Z.ones 3).
  rewrite Z.land_ones by lia. change (2 ^ 3) with 8.
  split.
  - rewrite Z.mul_comm, Z.div_add_l, Z.div_small by lia. lia.
  - rewrite Z.add_comm, Z.mul_comm, Z.mod_add, Z.mod_small by lia. lia.
Qed.

Lemma nth_insert_Z (tb : list Z) (n m v : Z) :
  0 <= n < Z.of_nat (length tb) -> 0 <= m ->
  nth (Z.to_nat m) (<[Z.to_nat n := v]> tb) 0 = if m =? n then v else nth (Z.to_nat m) tb 0.
Proof.
  intros Hn Hm. rewrite !nth_lookup.
  destruct (Z.eqb_spec m n) as [->|].
  - rewrite list_lookup_insert_eq by lia. done.
  - rewrite list_lookup_insert_ne by lia. done.
Qed.

(** The masks, written with powers of two. *)
Lemma masks_small th : masks_ok th -> RT_THREAD_PRIORITY_MAX <= 32 ->
  th_number_mask th = 2 ^ th_current_priority th.
Proof.
  intros [Hp E] Hm. unfold prio_attr in E. destruct (Z.ltb_spec 32 RT_THREAD_PRIORITY_MAX); [lia|].
  rewrite <- E. cbn. rewrite shiftl_one by lia. apply u32_small.
  split; [apply Z.pow_nonneg; lia|]. change 4294967296 with (2 ^ 32).
  apply Z.pow_lt_mono_r; lia.
Qed.

Lemma masks_large th : masks_ok th -> 32 < RT_THREAD_PRIORITY_MAX ->
  th_number th = Z.shiftr (th_current_priority th) 3 /\
  th_number_mask th = 2 ^ Z.shiftr (th_current_priority th) 3 /\
  th_high_mask th = 2 ^ Z.land (th_current_priority th) 7 /\
  0 <= Z.shiftr (th_current_priority th) 3 < 32 /\
  0 <= Z.land (th_current_priority th) 7 < 8.
Proof.
  intros [Hp E] Hm. unfold prio_attr in E. destruct (Z.ltb_spec 32 RT_THREAD_PRIORITY_MAX); [|lia].
  pose proof cfg_prio. destruct (prio_split (th_current_priority th)) as (H1 & H2 & H3); [lia|].
  rewrite <- E at 1 3 5. cbn. rewrite !shiftl_one by lia.
  split_and!; try done; try lia.
  - apply u32_small. split; [apply Z.pow_nonneg; lia|].
    change 4294967296 with (2 ^ 32). apply Z.pow_lt_mono_r; lia.
  - apply u8_small. split; [apply Z.pow_nonneg; lia|].
    change 256 with (2 ^ 8). apply Z.pow_lt_mono_r; lia.
Qed.

(** ** Setting, clearing and searching *)

Lemma bm_set_rep f g tb th :
  bitmap_rep f g tb -> masks_ok th ->
  bitmap_rep (fun p => (p =? th_current_priority th) || f p)
    (bm_set th g tb).1 (bm_set th g tb).2.
Proof.
  intros [Hg Hb Ht] Hm. pose proof Hm as [Hp _]. pose proof cfg_prio.
  unfold bm_set, bitmap_bits, pbit in *. cbn [fst snd].
  destruct (Z.ltb_spec 32 RT_THREAD_PRIORITY_MAX) as [Hl|Hl].
  - destruct (masks_large th Hm Hl) as (E1 & E2 & E3 & R1 & R2).
    destruct (Ht Hl) as [Hlen Htb]. rewrite E1, E2, E3.
    set (p0 := th_current_priority th) in *. set (n0 := Z.shiftr p0 3) in *.
    split; [by apply set_range| |].
    + intros p Hpr. unfold bitmap_bits in Hpr. rewrite (proj2 (Z.ltb_lt _ _) Hl) in Hpr.
      destruct (prio_split p Hpr) as (P1 & P2 & P3).
      unfold pbit. destruct (Z.ltb_spec 32 RT_THREAD_PRIORITY_MAX); [|lia].
      rewrite nth_insert_Z by lia. rewrite <- Hb by done.
      destruct (prio_split p0) as (Q1 & Q2 & Q3); [lia|]. fold n0 in Q1, Q3.
      destruct (Z.eqb_spec (Z.shiftr p 3) n0) as [En|En].
      * rewrite testbit_set by lia. rewrite En. f_equal.
        destruct (Z.eqb_spec (Z.land p 7) (Z.land p0 7)), (Z.eqb_spec p p0); lia || congruence.
      * destruct (Z.eqb_spec p p0) as [->|]; [by destruct En|done].
    + intros _. split; [by rewrite length_insert|]. intros n Hn.
      rewrite nth_insert_Z by lia. destruct (Htb n Hn) as [B1 B2].
      rewrite testbit_set by lia. destruct (Z.eqb_spec n n0) as [->|]; [|done].
      split; [by apply (set_range _ _ 8)|]. cbn.
      destruct (Z.eqb_spec (Z.lor (nth (Z.to_nat n0) tb 0) (2 ^ Z.land p0 7)) 0) as [E|]; [|done].
      apply (f_equal (fun v => Z.testbit v (Z.land p0 7))) in E.
      rewrite testbit_set, Z.bits_0, Z.eqb_refl in E by lia. done.
  - pose proof (masks_small th Hm Hl) as E. rewrite E.
    split; [by apply set_range; lia| |lia].
    intros p Hpr. unfold bitmap_bits in Hpr. rewrite (proj2 (Z.ltb_ge _ _) Hl) in Hpr.
    unfold pbit. destruct (Z.ltb_spec 32 RT_THREAD_PRIORITY_MAX); [lia|].
    rewrite testbit_set by lia. by rewrite <- Hb.
Qed.

Lemma bm_clear_rep f g tb th :
  bitmap_rep f g tb -> masks_ok th ->
  bitmap_rep (fun p => negb (p =? th_current_priority th) && f p)
    (bm_clear th g tb).1 (bm_clear th g tb).2.
Proof.
  intros [Hg Hb Ht] Hm. pose proof Hm as [Hp _]. pose proof cfg_prio.
  unfold bm_clear, bitmap_bits, pbit in *.
  destruct (Z.ltb_spec 32 RT_THREAD_PRIORITY_MAX) as [Hl|Hl]; cbn [fst snd].
  - destruct (masks_large th Hm Hl) as (E1 & E2 & E3 & R1 & R2).
    destruct (Ht Hl) as [Hlen Htb]. rewrite E1, E2, E3.
    set (p0 := th_current_priority th) in *. set (n0 := Z.shiftr p0 3) in *.
    set (v := Z.land _ _). destruct (Htb n0 R1) as [B1 B2].
    assert (Hv : 0 <= v < 2 ^ 8) by (apply clear_range; [exact B1|lia]).
    split.
    + case_match; [apply clear_range; lia|done].
    + intros p Hpr. unfold bitmap_bits in Hpr. rewrite (proj2 (Z.ltb_lt _ _) Hl) in Hpr.
      destruct (prio_split p Hpr) as (P1 & P2 & P3).
      unfold pbit. destruct (Z.ltb_spec 32 RT_THREAD_PRIORITY_MAX); [|lia].
      rewrite nth_insert_Z by lia. rewrite <- Hb by done.
      destruct (prio_split p0) as (Q1 & Q2 & Q3); [lia|]. fold n0 in Q1, Q3.
      destruct (Z.eqb_spec (Z.shiftr p 3) n0) as [En|En].
      * unfold v. rewrite testbit_clear by lia. rewrite En. f_equal. f_equal.
        destruct (Z.eqb_spec (Z.land p 7) (Z.land p0 7)), (Z.eqb_spec p p0); lia || congruence.
      * destruct (Z.eqb_spec p p0) as [->|]; [by destruct En|done].
    + intros _. split; [by rewrite length_insert|]. intros n Hn.
      rewrite nth_insert_Z by lia. destruct (Htb n Hn) as [C1 C2].
      destruct (Z.eqb_spec n n0) as [->|Hne].
      * split; [done|]. destruct (Z.eqb_spec v 0) as [Ev|Ev].
        -- rewrite testbit_clear by lia. by rewrite Z.eqb_refl.
        -- rewrite C2. destruct (Z.eqb_spec (nth (Z.to_nat n0) tb 0) 0) as [E|]; [|done].
           exfalso. apply Ev. unfold v. by rewrite E, Z.land_0_l.
      * split; [done|]. case_match; [|done].
        rewrite testbit_clear by lia. destruct (Z.eqb_spec n n0); [lia|done].
  - pose proof (masks_small th Hm Hl) as E. rewrite E.
    split; [by apply clear_range; lia| |lia].
    intros p Hpr. unfold bitmap_bits in Hpr. rewrite (proj2 (Z.ltb_ge _ _) Hl) in Hpr.
    unfold pbit. destruct (Z.ltb_spec 32 RT_THREAD_PRIORITY_MAX); [lia|].
    rewrite testbit_clear by lia. by rewrite <- Hb.
Qed.

Lemma bitmap_empty f g tb : bitmap_rep f g tb -> g = 0 ->
  forall p, 0 <= p < bitmap_bits -> f p = false.
Proof.
  intros [Hg Hb Ht] -> p Hp. rewrite <- Hb by done. unfold bitmap_bits, pbit in *.
  destruct (Z.ltb_spec 32 RT_THREAD_PRIORITY_MAX) as [Hl|Hl]; [|apply Z.bits_0].
  destruct (prio_split p Hp) as (P1 & P2 & P3).
  destruct (Ht Hl) as [_ Htb]. destruct (Htb _ P1) as [_ E]. rewrite Z.bits_0 in E.
  destruct (Z.eqb_spec (nth (Z.to_nat (Z.shiftr p 3)) tb 0) 0) as [->|]; [|done].
  apply Z.bits_0.
Qed.

Lemma bitmap_min_spec f g tb : bitmap_rep f g tb -> g <> 0 ->
  let p := bitmap_min g tb in
  0 <= p < bitmap_bits /\ f p = true /\ forall q, 0 <= q < p -> f q = false.
Proof.
  intros [Hg Hb Ht] Hnz. cbv zeta. destruct (ffs_spec g Hg) as [_ HH].
  destruct (HH Hnz) as [Hr (H0 & Hbit & Hlow)]. clear HH.
  unfold bitmap_min, bitmap_bits, pbit in *.
  destruct (Z.ltb_spec 32 RT_THREAD_PRIORITY_MAX) as [Hl|Hl].
  - destruct (Ht Hl) as [Hlen Htb]. set (n := __rt_ffs g - 1) in *.
    destruct (Htb n) as [B1 B2]; [lia|]. rewrite Hbit in B2. symmetry in B2. btrue.
    set (v := nth (Z.to_nat n) tb 0) in *.
    destruct (ffs_spec v) as [_ HH]; [lia|]. destruct (HH B2) as [Vr (V0 & Vbit & Vlow)].
    set (b := __rt_ffs v - 1) in *.
    assert (Hb8 : b < 8).
    { destruct (Z.lt_ge_cases b 8); [done|]. rewrite (bits_above v 8) in Vbit; [done|done|done]. }
    rewrite Z.shiftl_mul_pow2 by lia.
    replace (n * 2 ^ 3 + __rt_ffs v - 1) with (8 * n + b) by (unfold b; lia).
    destruct (prio_join n b) as [J1 J2]; [lia|].
    assert (Hp : forall q, 0 <= q < 256 ->
      Z.testbit (nth (Z.to_nat (Z.shiftr q 3)) tb 0) (Z.land q 7) = f q)
      by (intros; by apply Hb).
    split; [lia|]. split.
    + rewrite <- Hp by lia. by rewrite J1, J2.
    + intros q Hq. rewrite <- Hp by lia. destruct (prio_split q) as (Q1 & Q2 & Q3); [lia|].
      destruct (Z.eq_dec (Z.shiftr q 3) n) as [E|E]; [rewrite E; apply Vlow; lia|].
      destruct (Htb _ Q1) as [_ T2]. rewrite Hlow in T2 by lia. symmetry in T2.
      btrue. rewrite T2. apply Z.bits_0.
  - split; [lia|]. rewrite <- Hb by lia. split; [done|].
    intros q Hq. rewrite <- Hb by lia. apply Hlow. lia.
Qed.

Lemma bitmap_rep_ext f f' g tb :
  bitmap_rep f g tb -> (forall p, 0 <= p < bitmap_bits -> f' p = f p) -> bitmap_rep f' g tb.
Proof. intros [Hg Hb Ht] E. split; [done| |done]. intros. by rewrite E, Hb. Qed.

Lemma nth_zeros n k : nth k (replicate n 0) 0 = 0.
Proof. revert k. induction n as [|n IH]; intros [|k]; simpl; auto. Qed.

Lemma bitmap_rep_zero tb :
  (32 < RT_THREAD_PRIORITY_MAX -> tb = replicate 32 0) -> bitmap_rep (fun _ => false) 0 tb.
Proof.
  intros E. split; [lia| |].
  - intros p Hp. unfold pbit, bitmap_bits in *.
    destruct (Z.ltb_spec 32 RT_THREAD_PRIORITY_MAX); [|apply Z.bits_0].
    rewrite E, nth_zeros by done. apply Z.bits_0.
  - intros Hl. rewrite E by done. split; [done|]. intros n Hn.
    rewrite nth_zeros, Z.bits_0. done.
Qed.

End Bitmap.
