(* ===== verification/SchedInv.v ===== *)
(** * Scheduler invariant

    [swf X s]: the ready queues, wait lists, thread states, priority masks and
    ready bitmap of [s] agree with each other, except that nothing is asked of
    the position of the threads of [X] (those an operation is moving).  Each
    scheduler operation is shown to run without fault from a well-formed state
    and to lead to a well-formed state; the effect of the operations is given
    by the pure functions [sched_insert] and [sched_remove]. *)

From S2P Require Import Prelude KService Scheduler ReadyBitmap.

Section Inv.
Context `{CO : ConfigOk}.

Definition lget (s : sched) (h : lhead) : list Z := default [] (sc_lists s !! h).
Definition rdy (s : sched) (p : Z) : list Z := lget s (HReady p).

(** The state of the threads each kind of list holds. *)
Definition head_stat (h : lhead) : Z :=
  match h with
  | HReady _ => RT_THREAD_READY
  | HDefunct => RT_THREAD_CLOSE
  | HSuspend _ | HSender _ => RT_THREAD_SUSPEND
  end.

Definition unlinked (t : Z) (s : sched) : Prop := forall h, t ∉ lget s h.

(** A thread control block on its own. *)
Definition thread_ok (t : Z) (th : rt_thread) : Prop :=
  t <> RT_NULL /\
  0 <= th_stat th < 256 /\
  0 <= th_current_priority th < RT_THREAD_PRIORITY_MAX /\
  (stat_of th <> RT_THREAD_INIT -> stat_of th <> RT_THREAD_CLOSE -> masks_ok th).

Definition ready_set (s : sched) (p : Z) : bool := negb (bool_decide (rdy s p = [])).

Record swf (X : gset Z) (s : sched) : Prop := {
  sw_heads : forall p, is_Some (sc_lists s !! HReady p) <-> 0 <= p < RT_THREAD_PRIORITY_MAX;
  sw_defunct : is_Some (sc_lists s !! HDefunct);
  sw_nodup : forall h, NoDup (lget s h);
  sw_disj : forall h h' t, t ∈ lget s h -> t ∈ lget s h' -> h = h';
  sw_member : forall h t, t ∈ lget s h -> is_Some (sc_threads s !! t);
  sw_stat : forall h t th, t ∈ lget s h -> sc_threads s !! t = Some th ->
    t ∉ X -> stat_of th = head_stat h;
  sw_ready : forall p t th, t ∈ rdy s p -> sc_threads s !! t = Some th ->
    th_current_priority th = p /\ masks_ok th;
  sw_running : forall p t, t ∈ rdy s p -> t ∉ X -> t <> sc_current s;
  sw_queued : forall t th, sc_threads s !! t = Some th -> t ∉ X ->
    stat_of th = RT_THREAD_READY -> t <> sc_current s ->
    t ∈ rdy s (th_current_priority th);
  sw_bitmap : bitmap_rep (ready_set s) (sc_group s) (sc_table s);
  sw_thread : forall t th, sc_threads s !! t = Some th -> thread_ok t th;
  sw_current : sc_current s <> RT_NULL -> is_Some (sc_threads s !! sc_current s)
}.

(** ** Effects of the list operations *)

Definition bm_put (b : Z * list Z) (s : sched) : sched :=
  {| s with sc_group := b.1; sc_table := b.2 |}.

Definition sched_remove (t : Z) (th : rt_thread) (s : sched) : sched :=
  let s1 := put_lists (unlink t <$> sc_lists s) s in
  if bool_decide (rdy s1 (th_current_priority th) = [])
  then bm_put (bm_clear th (sc_group s) (sc_table s)) s1 else s1.

Definition sched_insert (t : Z) (th : rt_thread) (s : sched) : sched :=
  let s1 := put_thread t (set_stat RT_THREAD_READY th) s in
  if t =? sc_current s then s1
  else bm_put (bm_set th (sc_group s) (sc_table s))
         (put_list (HReady (th_current_priority th))
                   (rdy s (th_current_priority th) ++ [t]) s1).

(** ** Lemmas on lists *)

Lemma elem_of_unlink x t l : x ∈ unlink t l <-> x ∈ l /\ x <> t.
Proof. unfold unlink. rewrite list_elem_of_filter. tauto. Qed.

Lemma unlink_notin t l : t ∉ l -> unlink t l = l.
Proof.
  unfold unlink. induction l as [|x l IH]; [done|]. intros Hn.
  rewrite filter_cons_True by set_solver. rewrite IH; set_solver.
Qed.

Lemma NoDup_unlink t l : NoDup l -> NoDup (unlink t l).
Proof. apply NoDup_filter. Qed.

Lemma lget_unlink s t h :
  default [] ((unlink t <$> sc_lists s) !! h) = unlink t (lget s h).
Proof. unfold lget. rewrite lookup_fmap. by destruct (sc_lists s !! h). Qed.

Lemma lget_put s h h' l :
  lget (put_list h l s) h' = if decide (h' = h) then l else lget s h'.
Proof. unfold lget, put_list. cbn. case_decide; subst; by simplify_map_eq. Qed.

Lemma linked_spec t s : linked t s = false <-> unlinked t s.
Proof.
  unfold linked, unlinked, lget. split.
  - intros H h Hin. destruct (sc_lists s !! h) as [l|] eqn:E; [|set_solver].
    assert (existsb (fun hl : lhead * list Z => bool_decide (t ∈ hl.2))
              (map_to_list (sc_lists s)) = true) as HH; [|congruence].
    apply existsb_exists. exists (h, l). split.
    + by apply list_elem_of_In, elem_of_map_to_list.
    + by apply bool_decide_eq_true.
  - intros H. apply not_true_is_false. intros HH.
    apply existsb_exists in HH as ([h l] & Hin & Hb).
    apply list_elem_of_In, elem_of_map_to_list in Hin.
    apply bool_decide_eq_true in Hb. apply (H h). by rewrite Hin.
Qed.

(** ** Lemmas on thread states *)

Lemma stat_of_set n th :
  0 <= n < 16 -> stat_of (set_stat n th) = n.
Proof.
  intros Hn. unfold stat_of, set_stat, u8. cbn [th_stat].
  apply Z.bits_inj'. intros i Hi. rewrite Z.land_spec.
  change RT_THREAD_STAT_MASK with (Z.ones 4).
  destruct (Z.ltb_spec i 4).
  - rewrite Z.ones_spec_low, andb_true_r, Z.mod_pow2_bits_low by lia.
    rewrite Z.lor_spec, Z.land_spec, Z.lnot_spec, Z.ones_spec_low by lia.
    by rewrite andb_false_r, orb_false_r.
  - rewrite Z.ones_spec_high by lia. rewrite andb_false_r.
    symmetry. apply (bits_above n 4); [change (2^4) with 16; lia|lia].
Qed.

Lemma set_stat_id n th :
  0 <= th_stat th < 256 -> stat_of th = n -> set_stat n th = th.
Proof.
  intros Hr E. unfold set_stat, stat_of in *. destruct th; cbn in *. f_equal.
  rewrite <- E, <- Z.land_lor_distr_r, Z.lor_lnot_diag, Z.land_m1_r.
  apply u8_small. lia.
Qed.

Lemma set_stat_range n th : 0 <= th_stat (set_stat n th) < 256.
Proof. apply u8_range. Qed.

Lemma set_stat_masks n th : masks_ok th -> masks_ok (set_stat n th).
Proof.
  intros [Hp E]. split; [done|]. unfold prio_attr, set_stat in *. destruct th; cbn in *.
  destruct (32 <? RT_THREAD_PRIORITY_MAX); injection E; intros; congruence.
Qed.

Lemma thread_ok_stat t th n :
  thread_ok t th -> masks_ok th -> thread_ok t (set_stat n th).
Proof.
  intros (H1 & H2 & H3 & H4) Hm. split; [done|]. split; [apply set_stat_range|].
  split; [done|]. intros _ _. by apply set_stat_masks.
Qed.

Lemma prio_attr_masks th :
  0 <= th_current_priority th < RT_THREAD_PRIORITY_MAX -> masks_ok (prio_attr th).
Proof.
  intros Hp. unfold masks_ok, prio_attr. destruct th; cbn in *.
  destruct (32 <? RT_THREAD_PRIORITY_MAX); cbn; done.
Qed.

(** ** Running the operations *)

(** The bitmap row of [th] exists. *)
Lemma table_row X s th :
  swf X s -> masks_ok th -> 32 < RT_THREAD_PRIORITY_MAX ->
  0 <= th_number th /\
  sc_table s !! Z.to_nat (th_number th) = Some (nth (Z.to_nat (th_number th)) (sc_table s) 0).
Proof.
  intros Hw Hm Hl. destruct (masks_large th Hm Hl) as (E & _ & _ & R & _).
  destruct (bm_table _ _ _ (sw_bitmap _ _ Hw) Hl) as [Hlen _].
  rewrite E. split; [lia|]. rewrite nth_lookup.
  destruct (lookup_lt_is_Some_2 (sc_table s) (Z.to_nat (Z.shiftr (th_current_priority th) 3)))
    as [v Hv]; [lia|]. by rewrite Hv.
Qed.

Lemma ready_head X s th :
  swf X s -> masks_ok th ->
  sc_lists s !! HReady (th_current_priority th) = Some (rdy s (th_current_priority th)).
Proof.
  intros Hw [Hp _]. apply (sw_heads _ _ Hw) in Hp as [l Hl].
  unfold rdy, lget. by rewrite Hl.
Qed.

Lemma get_thread_run s t th : sc_threads s !! t = Some th -> get_thread t s = Ok th s.
Proof. unfold get_thread. by intros ->. Qed.
Lemma get_list_run s h l : sc_lists s !! h = Some l -> get_list h s = Ok l s.
Proof. unfold get_list. by intros ->. Qed.
Lemma upd_thread_run s t f th :
  sc_threads s !! t = Some th -> upd_thread t f s = Ok tt (put_thread t (f th) s).
Proof. intros E. unfold upd_thread. by rewrite (bind_ok _ _ _ _ _ (get_thread_run _ _ _ E)). Qed.
Lemma tlist_remove_run s t th :
  sc_threads s !! t = Some th ->
  tlist_remove t s = Ok tt (put_lists (unlink t <$> sc_lists s) s).
Proof. intros E. unfold tlist_remove. by rewrite (bind_ok _ _ _ _ _ (get_thread_run _ _ _ E)). Qed.
Lemma tlist_isempty_run s h l :
  sc_lists s !! h = Some l -> tlist_isempty h s = Ok (bool_decide (l = [])) s.
Proof. intros E. unfold tlist_isempty. by rewrite (bind_ok _ _ _ _ _ (get_list_run _ _ _ E)). Qed.
Lemma tlist_insert_before_run s h t th l :
  sc_threads s !! t = Some th -> sc_lists s !! h = Some l -> unlinked t s ->
  tlist_insert_before h t s = Ok tt (put_list h (l ++ [t]) s).
Proof.
  intros E1 E2 Hu. unfold tlist_insert_before.
  rewrite (bind_ok _ _ _ _ _ (get_thread_run _ _ _ E1)).
  rewrite (bind_ok _ _ _ _ _ (get_list_run _ _ _ E2)). mstep.
  apply linked_spec in Hu. by rewrite Hu.
Qed.
Lemma tlist_insert_after_run s h t th l :
  sc_threads s !! t = Some th -> sc_lists s !! h = Some l -> unlinked t s ->
  tlist_insert_after h t s = Ok tt (put_list h (t :: l) s).
Proof.
  intros E1 E2 Hu. unfold tlist_insert_after.
  rewrite (bind_ok _ _ _ _ _ (get_thread_run _ _ _ E1)).
  rewrite (bind_ok _ _ _ _ _ (get_list_run _ _ _ E2)). mstep.
  apply linked_spec in Hu. by rewrite Hu.
Qed.
Lemma table_get_run s i v :
  0 <= i -> sc_table s !! Z.to_nat i = Some v -> table_get i s = Ok v s.
Proof. intros Hi E. unfold table_get. rewrite (proj2 (Z.leb_le _ _) Hi). by rewrite E. Qed.
Lemma table_set_run s i v w :
  0 <= i -> sc_table s !! Z.to_nat i = Some v ->
  table_set i w s = Ok tt (put_table (<[Z.to_nat i := w]> (sc_table s)) s).
Proof.
  intros Hi E. unfold table_set. by rewrite (bind_ok _ _ _ _ _ (table_get_run _ _ _ Hi E)).
Qed.
#[local] Hint Resolve get_thread_run get_list_run upd_thread_run tlist_remove_run
  tlist_isempty_run tlist_insert_before_run tlist_insert_after_run
  table_get_run table_set_run : run.

Lemma remove_run X s t th :
  swf X s -> sc_threads s !! t = Some th -> masks_ok th ->
  rt_schedule_remove_thread t s = Ok tt (sched_remove t th s).
Proof.
  intros Hw Ht Hm. pose proof (sw_thread _ _ Hw _ _ Ht) as (Hnz & _).
  apply Z.eqb_neq in Hnz. pose proof (ready_head _ _ _ Hw Hm) as Hh.
  unfold rt_schedule_remove_thread. rewrite Hnz. do 3 mstep.
  set (s1 := put_lists _ s).
  assert (Hh1 : sc_lists s1 !! HReady (th_current_priority th)
                = Some (rdy s1 (th_current_priority th))).
  { unfold rdy, lget, s1. cbn. by rewrite lookup_fmap, Hh. }
  mstep. unfold sched_remove. fold s1. case_bool_decide as He; cbn [when]; [|done].
  unfold bm_clear. destruct (Z.ltb_spec 32 RT_THREAD_PRIORITY_MAX) as [Hl|Hl]; [|done].
  destruct (table_row _ _ _ Hw Hm Hl) as [Hn Hrow]. do 2 mstep.
  unfold when. by case_match.
Qed.

Lemma insert_run X s t th :
  swf X s -> sc_threads s !! t = Some th -> masks_ok th -> unlinked t s ->
  rt_schedule_insert_thread t s = Ok tt (sched_insert t th s).
Proof.
  intros Hw Ht Hm Hu. pose proof (sw_thread _ _ Hw _ _ Ht) as (Hnz & _).
  apply Z.eqb_neq in Hnz. pose proof (ready_head _ _ _ Hw Hm) as Hh.
  unfold rt_schedule_insert_thread, sched_insert. rewrite Hnz. do 3 mstep.
  set (s1 := put_thread _ _ s). set (th' := set_stat _ _) in *.
  change (sc_current s1) with (sc_current s). destruct (t =? sc_current s); [done|].
  assert (Ht1 : sc_threads s1 !! t = Some th') by apply lookup_insert_eq.
  assert (Hu1 : unlinked t s1) by exact Hu. do 2 mstep.
  unfold bm_set. destruct (Z.ltb_spec 32 RT_THREAD_PRIORITY_MAX) as [Hl|Hl]; [|done].
  destruct (table_row _ _ _ Hw Hm Hl) as [Hn Hrow]. msteps. done.
Qed.

(** ** Preservation *)

Lemma ready_set_false s p : ready_set s p = false <-> rdy s p = [].
Proof.
  unfold ready_set. rewrite negb_false_iff. by rewrite bool_decide_eq_true.
Qed.

Lemma ready_set_true s p : ready_set s p = true <-> rdy s p <> [].
Proof.
  unfold ready_set. rewrite negb_true_iff. by rewrite bool_decide_eq_false.
Qed.

Lemma bm_put_ready b s p : ready_set (bm_put b s) p = ready_set s p.
Proof. done. Qed.

(** The bitmap after [t] has left its list. *)
Lemma remove_bitmap X s t th :
  swf X s -> sc_threads s !! t = Some th -> masks_ok th ->
  let s' := sched_remove t th s in
  bitmap_rep (ready_set s') (sc_group s') (sc_table s').
Proof.
  intros Hw Ht Hm. cbv zeta. pose proof (sw_bitmap _ _ Hw) as Hb.
  set (s1 := put_lists (unlink t <$> sc_lists s) s).
  assert (Hr : forall p, rdy s1 p = unlink t (rdy s p)) by (intros; apply lget_unlink).
  assert (Hne : forall p, p <> th_current_priority th -> rdy s1 p = rdy s p).
  { intros p Hp. rewrite Hr. apply unlink_notin. intros Hin.
    by destruct (sw_ready _ _ Hw _ _ _ Hin Ht). }
  unfold sched_remove. fold s1. case_bool_decide as He.
  - eapply bitmap_rep_ext; [by apply bm_clear_rep|].
    intros p Hp. rewrite (bm_put_ready _ s1).
    destruct (Z.eqb_spec p (th_current_priority th)) as [->|Hn]; cbn.
    + by apply ready_set_false.
    + unfold ready_set. by rewrite Hne.
  - eapply bitmap_rep_ext; [exact Hb|]. intros p Hp. unfold ready_set.
    destruct (Z.eq_dec p (th_current_priority th)) as [->|Hn]; [|by rewrite Hne].
    rewrite !bool_decide_false; [done| |done].
    intros E. apply He. by rewrite Hr, E.
Qed.

(** Frame: what a removal leaves alone. *)
Lemma sched_remove_threads t th s : sc_threads (sched_remove t th s) = sc_threads s.
Proof. unfold sched_remove. by case_bool_decide. Qed.
Lemma sched_remove_current t th s : sc_current (sched_remove t th s) = sc_current s.
Proof. unfold sched_remove. by case_bool_decide. Qed.
Lemma sched_remove_lists t th s : sc_lists (sched_remove t th s) = unlink t <$> sc_lists s.
Proof. unfold sched_remove. by case_bool_decide. Qed.
Lemma sched_remove_lget t th s h : lget (sched_remove t th s) h = unlink t (lget s h).
Proof. unfold lget at 1. rewrite sched_remove_lists. apply lget_unlink. Qed.

Lemma remove_swf X s t th :
  swf X s -> sc_threads s !! t = Some th -> masks_ok th ->
  swf ({[t]} ∪ X) (sched_remove t th s) /\ unlinked t (sched_remove t th s).
Proof.
  intros Hw Ht Hm. split.
  2:{ intros h. rewrite sched_remove_lget, elem_of_unlink. tauto. }
  pose proof (remove_bitmap _ _ _ _ Hw Ht Hm) as Hb. cbv zeta in Hb.
  assert (Hin : forall h x, x ∈ lget (sched_remove t th s) h <-> x ∈ lget s h /\ x <> t)
    by (intros; by rewrite sched_remove_lget, elem_of_unlink).
  destruct Hw. split; unfold rdy in *.
  - intros p. rewrite sched_remove_lists, lookup_fmap, fmap_is_Some. apply sw_heads0.
  - by rewrite sched_remove_lists, lookup_fmap, fmap_is_Some.
  - intros h. rewrite sched_remove_lget. by apply NoDup_unlink.
  - intros h h' x [??]%Hin [??]%Hin. by apply (sw_disj0 h h' x).
  - intros h x [? _]%Hin. rewrite sched_remove_threads. eauto.
  - intros h x thx [? ?]%Hin. rewrite sched_remove_threads. intros ??.
    eapply sw_stat0; [done|done|set_solver].
  - intros p x thx [? _]%Hin. rewrite sched_remove_threads. eauto.
  - intros p x [? ?]%Hin ?. rewrite sched_remove_current. eapply sw_running0; [done|set_solver].
  - intros x thx. rewrite sched_remove_threads, sched_remove_current. intros ????.
    apply Hin. split; [apply sw_queued0; [done|set_solver|done|done]|set_solver].
  - done.
  - rewrite sched_remove_threads. done.
  - rewrite sched_remove_threads, sched_remove_current. done.
Qed.

(** Threads outside [X] only: a larger [X] asks less. *)
Lemma swf_weaken X Y s : swf X s -> X ⊆ Y -> swf Y s.
Proof. intros [] HXY. split; eauto 6. Qed.

(** The position of [t] agrees with its state. *)
Definition placed (s : sched) (t : Z) : Prop :=
  forall th, sc_threads s !! t = Some th ->
    (forall h, t ∈ lget s h -> stat_of th = head_stat h) /\
    (forall p, t ∈ rdy s p -> t <> sc_current s) /\
    (stat_of th = RT_THREAD_READY -> t <> sc_current s ->
     t ∈ rdy s (th_current_priority th)).

Lemma swf_placed X s t : swf X s -> placed s t -> swf (X ∖ {[t]}) s.
Proof.
  intros [] Hp. split; try done.
  - intros h x th Hx Hth Hn. destruct (decide (x = t)) as [->|].
    + by apply (Hp th).
    + eapply sw_stat0; [done..|set_solver].
  - intros p x Hx Hn. destruct (decide (x = t)) as [->|].
    + destruct (sw_member0 _ _ Hx) as [th Hth]. by eapply (Hp th).
    + eapply sw_running0; [done|set_solver].
  - intros x th Hth Hn Hs Hc. destruct (decide (x = t)) as [->|].
    + by apply (Hp th).
    + apply sw_queued0; [done|set_solver|done..].
Qed.

Lemma placed_unlinked s t th :
  sc_threads s !! t = Some th -> unlinked t s ->
  (stat_of th = RT_THREAD_READY -> t = sc_current s) -> placed s t.
Proof.
  intros Ht Hu Hr th' Hth'. simplify_eq. split_and!.
  - intros h Hin. by apply Hu in Hin.
  - intros p Hin. by apply Hu in Hin.
  - intros Hs Hc. by apply Hr in Hs.
Qed.

Lemma swf_placed_elim X s t : swf X s -> t ∉ X -> placed s t.
Proof.
  intros Hw Hn th Ht. split_and!.
  - intros h Hin. by apply (sw_stat _ _ Hw h t).
  - intros p Hin. by apply (sw_running _ _ Hw p).
  - intros. by apply (sw_queued _ _ Hw).
Qed.

(** Changing the control block of a thread in no list. *)
Lemma put_thread_swf X s t th :
  swf X s -> unlinked t s -> thread_ok t th -> swf ({[t]} ∪ X) (put_thread t th s).
Proof.
  intros Hw Hu Hok.
  assert (Hin : forall h x, x ∈ lget s h -> x <> t) by (intros h x Hx ->; by apply Hu in Hx).
  destruct Hw. split; try done; cbn [sc_threads put_thread].
  - intros h x Hx. rewrite lookup_insert_ne; [eauto|]. intros ->. by apply Hu in Hx.
  - intros h x thx Hx. rewrite lookup_insert_ne by (intros ->; by apply Hu in Hx).
    intros. eapply sw_stat0; [done..|set_solver].
  - intros p x thx Hx. rewrite lookup_insert_ne by (intros ->; by apply Hu in Hx). eauto.
  - intros p x Hx Hn. eapply sw_running0; [done|set_solver].
  - intros x thx Hx Hn. rewrite lookup_insert_ne in Hx by set_solver.
    apply sw_queued0; [done|set_solver].
  - intros x thx Hx. destruct (decide (x = t)) as [->|]; simplify_map_eq; eauto.
  - intros Hc. destruct (decide (sc_current s = t)) as [E|].
    + change (sc_current (put_thread t th s)) with (sc_current s). rewrite E, lookup_insert_eq. eauto.
    + rewrite lookup_insert_ne by done. auto.
Qed.

(** Fields that do not matter for scheduling can change anywhere. *)
Definition same_sched (th th' : rt_thread) : Prop :=
  th_stat th' = th_stat th /\ th_current_priority th' = th_current_priority th /\
  th_number th' = th_number th /\ th_number_mask th' = th_number_mask th /\
  th_high_mask th' = th_high_mask th.

Lemma same_sched_masks th th' : same_sched th th' -> masks_ok th -> masks_ok th'.
Proof.
  intros (E1 & E2 & E3 & E4 & E5) [Hp Ha]. unfold masks_ok. rewrite E2. split; [done|].
  unfold prio_attr in *. destruct th, th'; cbn in *. subst.
  destruct (32 <? RT_THREAD_PRIORITY_MAX); injection Ha; intros; congruence.
Qed.

Lemma same_sched_ok t th th' : same_sched th th' -> thread_ok t th -> thread_ok t th'.
Proof.
  intros Hs (H1 & H2 & H3 & H4). pose proof Hs as (E1 & E2 & _).
  unfold thread_ok, stat_of in *. rewrite E1, E2. split_and!; try done; try lia.
  intros Hst Hst'. eapply same_sched_masks; eauto.
Qed.

Lemma put_thread_same X s t th th' :
  swf X s -> sc_threads s !! t = Some th -> same_sched th th' -> swf X (put_thread t th' s).
Proof.
  intros Hw Ht Hs. pose proof Hs as (E1 & E2 & _).
  assert (L : forall x thx, sc_threads (put_thread t th' s) !! x = Some thx ->
    exists thy, sc_threads s !! x = Some thy /\ same_sched thy thx).
  { intros x thx Hx. cbn in Hx. destruct (decide (x = t)) as [->|]; simplify_map_eq; [eauto|].
    eexists; split; [done|]. by split_and!. }
  destruct Hw. split; try done.
  - intros h x Hx. cbn. destruct (decide (x = t)) as [->|]; simplify_map_eq; eauto.
  - intros h x thx Hx (thy & Hy & F1 & F2 & _)%L Hn. unfold stat_of in *. rewrite F1. eauto.
  - intros p x thx Hx (thy & Hy & F)%L. destruct (sw_ready0 _ _ _ Hx Hy) as [<- Hm].
    split; [apply F|]. by eapply same_sched_masks.
  - intros x thx (thy & Hy & F1 & F2 & _)%L Hn. unfold stat_of in *. rewrite F1, F2. eauto.
  - intros x thx (thy & Hy & F)%L. eapply same_sched_ok; eauto.
  - intros Hc. cbn in *. destruct (decide (sc_current s = t)) as [->|]; simplify_map_eq; eauto.
Qed.

(** ** Linking a thread into a list *)

Section Link.
Variables (X : gset Z) (s : sched) (t : Z) (th : rt_thread) (h : lhead) (l : list Z).
Hypotheses (Hw : swf X s) (HtX : t ∈ X) (Ht : sc_threads s !! t = Some th)
  (Hu : unlinked t s) (Hh : is_Some (sc_lists s !! h)) (Hl : l ≡ₚ t :: lget s h).

Lemma link_elem h' x :
  x ∈ lget (put_list h l s) h' <-> x ∈ lget s h' \/ (x = t /\ h' = h).
Proof.
  rewrite lget_put. case_decide; subst; [rewrite Hl|]; set_solver.
Qed.

Lemma link_nodup h' : NoDup (lget (put_list h l s) h').
Proof.
  rewrite lget_put. case_decide; [|apply (sw_nodup _ _ Hw)].
  rewrite Hl. apply NoDup_cons. split; [apply Hu|apply (sw_nodup _ _ Hw)].
Qed.

Lemma link_heads h' :
  is_Some (sc_lists (put_list h l s) !! h') <-> is_Some (sc_lists s !! h').
Proof.
  cbn. destruct (decide (h' = h)) as [->|]; simplify_map_eq; [|done].
  split; [by intros _|]. by eexists.
Qed.

Lemma link_swf b :
  (forall p, h = HReady p -> th_current_priority th = p /\ masks_ok th) ->
  bitmap_rep (ready_set (put_list h l s)) b.1 b.2 ->
  swf X (bm_put b (put_list h l s)).
Proof.
  intros Hr Hb. destruct Hw. split; try done.
  - intros p. etransitivity; [apply link_heads|apply sw_heads0].
  - by apply link_heads.
  - apply link_nodup.
  - intros h1 h2 x [H1|[-> ->]]%link_elem [H2|[? ->]]%link_elem; subst; eauto;
      by apply Hu in H1 || apply Hu in H2.
  - intros h1 x [H1|[-> ->]]%link_elem; eauto.
  - intros h1 x thx [H1|[-> ->]]%link_elem ? ?; [eauto|done].
  - intros p x thx [H1|[-> Ep]]%link_elem Hx; [eauto|].
    change (sc_threads s !! t = Some thx) in Hx. simplify_eq. by apply Hr.
  - intros p x [H1|[-> ?]]%link_elem ?; [eauto|done].
  - intros x thx ????. apply link_elem. left. by apply sw_queued0.
Qed.

(** Wait lists and the defunct list have no bitmap. *)
Lemma link_wait_swf :
  (forall p, h <> HReady p) -> swf X (put_list h l s).
Proof.
  intros Hn. change (put_list h l s) with (bm_put (sc_group s, sc_table s) (put_list h l s)).
  apply link_swf; [intros p E; by apply Hn in E|].
  eapply bitmap_rep_ext; [apply (sw_bitmap _ _ Hw)|].
  intros p _. unfold ready_set, rdy. rewrite lget_put, decide_False by auto. done.
Qed.

Lemma link_placed :
  stat_of th = head_stat h -> (forall p, h <> HReady p) -> placed (put_list h l s) t.
Proof.
  intros Es Hn th' Ht'. change (sc_threads (put_list h l s)) with (sc_threads s) in Ht'.
  simplify_eq. split_and!.
  - intros h' [Hx|[_ ->]]%link_elem; [by apply Hu in Hx|done].
  - intros p [Hx|[_ E]]%link_elem; [by apply Hu in Hx|by destruct (Hn p)].
  - intros E. rewrite Es in E. by destruct h; try done; destruct (Hn p).
Qed.

End Link.

Lemma sched_insert_swf X s t th :
  swf X s -> sc_threads s !! t = Some th -> masks_ok th -> unlinked t s ->
  swf (X ∖ {[t]}) (sched_insert t th s).
Proof.
  intros Hw Ht Hm Hu. unfold sched_insert. set (th' := set_stat _ th). set (s1 := put_thread t th' s).
  assert (Hw1 : swf ({[t]} ∪ X) s1).
  { apply put_thread_swf; [done|done|]. apply thread_ok_stat; [|done].
    by apply (sw_thread _ _ Hw). }
  assert (Ht1 : sc_threads s1 !! t = Some th') by apply lookup_insert_eq.
  assert (Hm1 : masks_ok th') by by apply set_stat_masks.
  apply (swf_weaken (({[t]} ∪ X) ∖ {[t]})); [|set_solver].
  destruct (Z.eqb_spec t (sc_current s)) as [Ec|Ec]; apply swf_placed.
  - done.
  - apply (placed_unlinked _ _ th'); [done|done|by intros _].
  - change (rdy s) with (rdy s1).
    apply (link_swf _ _ t th'); [done|set_solver|done|done| | | |].
    + by apply (sw_heads _ _ Hw1), Hm1.
    + by rewrite Permutation_app_comm.
    + by intros p [= <-].
    + eapply bitmap_rep_ext; [by apply bm_set_rep, Hm; apply (sw_bitmap _ _ Hw1)|].
      intros p Hp. cbn beta.
      destruct (Z.eqb_spec p (th_current_priority th)) as [->|Hn]; cbn [orb].
      * apply ready_set_true. unfold rdy. rewrite lget_put, decide_True by done.
        by intros [_ ?]%app_nil.
      * unfold ready_set, rdy. rewrite lget_put, decide_False by congruence. done.
  - intros th2 Ht2. change (sc_threads s1 !! t = Some th2) in Ht2. simplify_eq.
    assert (Hel : forall h, t ∈ lget (put_list (HReady (th_current_priority th))
                     (rdy s1 (th_current_priority th) ++ [t]) s1) h <->
                   h = HReady (th_current_priority th)).
    { intros h. rewrite lget_put. case_decide; [set_solver|]. split; [|done].
      intros Hx. by apply Hu in Hx. }
    split_and!; [intros h ->%Hel; by apply stat_of_set|intros; exact Ec|intros; by apply Hel].
Qed.

Lemma sched_insert_frame t th s :
  sc_current (sched_insert t th s) = sc_current s /\
  sc_lock_nest (sched_insert t th s) = sc_lock_nest s /\
  sc_irq_nest (sched_insert t th s) = sc_irq_nest s /\
  sc_threads (sched_insert t th s) = <[t := set_stat RT_THREAD_READY th]> (sc_threads s).
Proof. unfold sched_insert. by case_match. Qed.

End Inv.
