(* ===== verification/SchedSpec.v ===== *)
(** * What the scheduler promises

    The reference scheduler [abs_schedule] works on the queues alone: it scans
    the priorities in order, keeps a running thread of strictly higher
    priority, and otherwise moves the running thread to the tail of its queue
    and the head of the first non-empty queue to the processor.  [rt_schedule],
    which searches the bitmap and updates it incrementally, is shown to
    implement it. *)

From S2P Require Import Prelude KService Scheduler ReadyBitmap SchedInv.

Section Spec.
Context `{CO : ConfigOk}.

(** First non-empty ready queue from priority [p] on, within [n] priorities. *)
Fixpoint first_ready (n : nat) (p : Z) (s : sched) : option (Z * Z) :=
  match n with
  | O => None
  | S n => match rdy s p with
           | t :: _ => Some (t, p)
           | [] => first_ready n (p + 1) s
           end
  end.

Definition top_ready (s : sched) : option (Z * Z) :=
  first_ready (Z.to_nat RT_THREAD_PRIORITY_MAX) 0 s.

(** Next running thread and queues. *)
Definition abs_schedule (s : sched) : Z * gmap lhead (list Z) :=
  match top_ready s, sc_threads s !! sc_current s with
  | Some (t, p), Some cur =>
      if stat_of cur =? RT_THREAD_READY then
        if th_current_priority cur <? p then (sc_current s, sc_lists s)
        else (t, unlink t <$>
                 <[HReady (th_current_priority cur) :=
                     rdy s (th_current_priority cur) ++ [sc_current s]]> (sc_lists s))
      else (t, unlink t <$> sc_lists s)
  | _, _ => (sc_current s, sc_lists s)
  end.

(** ** The search *)

Lemma first_ready_spec n p s t q rest :
  rdy s q = t :: rest -> p <= q < p + Z.of_nat n ->
  (forall r, p <= r < q -> rdy s r = []) -> first_ready n p s = Some (t, q).
Proof.
  revert p. induction n as [|n IH]; intros p Hq Hr Hl; [lia|]. simpl.
  destruct (Z.eq_dec p q) as [->|]; [by rewrite Hq|].
  rewrite Hl by lia. apply IH; [done|lia|intros; apply Hl; lia].
Qed.

Lemma first_ready_none n p s :
  (forall r, p <= r < p + Z.of_nat n -> rdy s r = []) -> first_ready n p s = None.
Proof.
  revert p. induction n as [|n IH]; intros p Hl; [done|]. simpl.
  rewrite Hl by lia. apply IH. intros. apply Hl. lia.
Qed.

Lemma rdy_range X s p : swf X s -> rdy s p <> [] -> 0 <= p < RT_THREAD_PRIORITY_MAX.
Proof.
  intros Hw Hn. apply (sw_heads _ _ Hw). unfold rdy, lget in Hn.
  destruct (sc_lists s !! HReady p); [eauto|done].
Qed.

Lemma bits_ge_max : RT_THREAD_PRIORITY_MAX <= bitmap_bits.
Proof.
  unfold bitmap_bits. pose proof cfg_prio. destruct (Z.ltb_spec 32 RT_THREAD_PRIORITY_MAX); lia.
Qed.

Lemma top_ready_none X s : swf X s -> sc_group s = 0 -> top_ready s = None.
Proof.
  intros Hw Hg. apply first_ready_none. intros r Hr. apply ready_set_false.
  pose proof cfg_prio. pose proof bits_ge_max.
  eapply bitmap_empty; [apply (sw_bitmap _ _ Hw)|done|lia].
Qed.

Lemma get_highest_run X s :
  swf X s -> sc_group s <> 0 ->
  exists t p rest, _get_highest_priority_thread s = Ok (t, p) s /\
    rdy s p = t :: rest /\ (forall q, 0 <= q < p -> rdy s q = []) /\
    top_ready s = Some (t, p).
Proof.
  intros Hw Hg. pose proof (sw_bitmap _ _ Hw) as Hb.
  destruct (bitmap_min_spec _ _ _ Hb Hg) as (H1 & H2 & H3).
  set (p := bitmap_min (sc_group s) (sc_table s)) in *.
  apply ready_set_true in H2. pose proof (rdy_range _ _ _ Hw H2) as Hr.
  destruct (rdy s p) as [|t rest] eqn:E; [done|].
  assert (Hlow : forall q, 0 <= q < p -> rdy s q = []) by (intros; by apply ready_set_false, H3).
  exists t, p, rest. split_and!; try done.
  2:{ eapply first_ready_spec; [exact E|lia|done]. }
  assert (El : sc_lists s !! HReady p = Some (t :: rest)).
  { pose proof (proj2 (sw_heads _ _ Hw p) Hr) as [l Hl]. unfold rdy, lget in E.
    rewrite Hl in E. cbn in E. by rewrite Hl, E. }
  pose proof (get_list_run _ _ _ El) as Hrun.
  unfold _get_highest_priority_thread. mstep. subst p. unfold bitmap_min in *.
  destruct (Z.ltb_spec 32 RT_THREAD_PRIORITY_MAX) as [Hl|Hl]; [|by rewrite bind_mret, (bind_ok _ _ _ _ _ Hrun)].
  destruct (bm_table _ _ _ Hb Hl) as [Hlen _].
  destruct (ffs_spec _ (bm_group _ _ _ Hb)) as [_ HH]. destruct (HH Hg) as [Hf _].
  erewrite bind_ok; [by rewrite (bind_ok _ _ _ _ _ Hrun)|].
  erewrite bind_ok; [done|]. apply table_get_run; [lia|].
  rewrite nth_lookup. destruct (lookup_lt_is_Some_2 (sc_table s) (Z.to_nat (__rt_ffs (sc_group s) - 1)))
    as [v Hv]; [lia|]. by rewrite Hv.
Qed.

(** ** The reschedule *)

Lemma swf_cprio X s v : swf X s -> swf X {| s with sc_current_priority := v |}.
Proof. intros Hw. split; apply Hw. Qed.

(** The processor is given to a queued thread. *)
Lemma swf_current X s t :
  swf X s -> is_Some (sc_threads s !! t) ->
  swf ({[t]} ∪ {[sc_current s]} ∪ X) (put_current t s).
Proof.
  intros Hw Hex. split; try apply Hw; try done.
  - intros. eapply (sw_stat _ _ Hw); [done..|set_solver].
  - intros p x Hx Hn. cbn. set_solver.
  - intros x th Hx Hn Hs Hc. apply (sw_queued _ _ Hw); [done|set_solver|done|].
    cbn in *. set_solver.
Qed.

Lemma ready_current_unlinked s cur :
  swf ∅ s -> sc_threads s !! sc_current s = Some cur -> stat_of cur = RT_THREAD_READY ->
  unlinked (sc_current s) s.
Proof.
  intros Hw Hc Hs h Hin. pose proof (sw_stat _ _ Hw _ _ _ Hin Hc ltac:(set_solver)) as E.
  rewrite Hs in E. destruct h as [p| | |]; try done.
  by apply (sw_running _ _ Hw p (sc_current s) Hin); [set_solver|].
Qed.

Lemma ready_masks X s t th :
  swf X s -> sc_threads s !! t = Some th -> stat_of th <> RT_THREAD_INIT -> stat_of th <> RT_THREAD_CLOSE -> masks_ok th.
Proof. intros Hw Ht Hs Hs'. by apply (sw_thread _ _ Hw _ _ Ht). Qed.

(** Everything [rt_schedule] leaves alone. *)
Definition sched_frame (s s' : sched) : Prop :=
  sc_threads s' = sc_threads s /\ sc_lock_nest s' = sc_lock_nest s /\
  sc_irq_nest s' = sc_irq_nest s.

Lemma sched_remove_frame t th s : sched_frame s (sched_remove t th s).
Proof. unfold sched_remove. by case_bool_decide. Qed.

Lemma sched_remove_swf_running X s t th :
  swf X s -> sc_threads s !! t = Some th -> masks_ok th ->
  (stat_of th = RT_THREAD_READY -> t = sc_current s) ->
  swf (X ∖ {[t]}) (sched_remove t th s).
Proof.
  intros Hw Ht Hm Hc. destruct (remove_swf _ _ _ _ Hw Ht Hm) as [Hw' Hu].
  apply (swf_weaken (({[t]} ∪ X) ∖ {[t]})); [|set_solver].
  apply swf_placed; [done|]. apply (placed_unlinked _ _ th); [|done|].
  - by rewrite sched_remove_threads.
  - by rewrite sched_remove_current.
Qed.

Lemma unlink_all_id t s : unlinked t s -> unlink t <$> sc_lists s = sc_lists s.
Proof.
  intros Hu. apply map_eq. intros h. rewrite lookup_fmap.
  destruct (sc_lists s !! h) as [l|] eqn:E; [|done]. cbn. f_equal. apply unlink_notin.
  specialize (Hu h). unfold lget in Hu. by rewrite E in Hu.
Qed.

(** The running thread has higher priority than every queued one. *)
Lemma schedule_keep s cur :
  swf ∅ s -> sc_threads s !! sc_current s = Some cur -> stat_of cur = RT_THREAD_READY ->
  exists s', rt_schedule_remove_thread (sc_current s) s = Ok tt s' /\
    swf ∅ s' /\ sched_frame s s' /\
    sc_current s' = sc_current s /\ sc_lists s' = sc_lists s.
Proof.
  intros Hw Hc Hr. assert (Hm : masks_ok cur) by (eapply ready_masks; [exact Hw|exact Hc|by rewrite Hr..]).
  exists (sched_remove (sc_current s) cur s). split; [by eapply remove_run|].
  split.
  { apply (swf_weaken (∅ ∖ {[sc_current s]})); [|set_solver].
    by apply sched_remove_swf_running. }
  split; [apply sched_remove_frame|]. split; [apply sched_remove_current|].
  rewrite sched_remove_lists. apply unlink_all_id. by eapply ready_current_unlinked.
Qed.

Section Switch.
Variables (s : sched) (cur th : rt_thread) (t p : Z).
Hypotheses (Hw : swf ∅ s) (Hc : sc_threads s !! sc_current s = Some cur)
  (Ht : sc_threads s !! t = Some th) (Hp : t ∈ rdy s p).

Let s2 := put_current t {| s with sc_current_priority := u8 p |}.

Lemma switch_masks : masks_ok th.
Proof. by apply (sw_ready _ _ Hw _ _ _ Hp Ht). Qed.

Lemma switch_swf : swf ({[t]} ∪ {[sc_current s]}) s2.
Proof.
  apply (swf_weaken ({[t]} ∪ {[sc_current s]} ∪ ∅)); [|set_solver].
  apply (swf_current ∅ {| s with sc_current_priority := u8 p |}); [by apply swf_cprio|by eexists].
Qed.

(** The running thread is not ready: it is left where it is. *)
Lemma switch_blocked :
  stat_of cur <> RT_THREAD_READY ->
  exists s', rt_schedule_remove_thread t s2 = Ok tt s' /\ swf ∅ s' /\ sched_frame s s' /\
    sc_current s' = t /\ sc_lists s' = unlink t <$> sc_lists s.
Proof.
  intros Hr. pose proof switch_masks as Hm. pose proof switch_swf as Hw2.
  exists (sched_remove t th s2). split; [by eapply remove_run|]. split.
  { apply (swf_weaken ((({[t]} ∪ {[sc_current s]}) ∖ {[t]}) ∖ {[sc_current s]})); [|set_solver].
    apply swf_placed; [by apply sched_remove_swf_running|].
    intros c. rewrite sched_remove_threads. intros Ec.
    change (sc_threads s2) with (sc_threads s) in Ec. simplify_eq.
    split_and!; [|intros q|done].
    - intros h. rewrite sched_remove_lget, elem_of_unlink. intros [Hin _].
      by apply (sw_stat _ _ Hw h (sc_current s) cur Hin Hc); set_solver.
    - unfold rdy. rewrite sched_remove_lget, elem_of_unlink. intros [Hin _].
      by destruct Hr; apply (sw_stat _ _ Hw (HReady q) (sc_current s) cur Hin Hc); set_solver. }
  split; [exact (sched_remove_frame t th s2)|].
  rewrite sched_remove_current, sched_remove_lists. done.
Qed.

(** The running thread is ready: it goes to the tail of its queue. *)
Lemma switch_ready :
  stat_of cur = RT_THREAD_READY ->
  exists s', (rt_schedule_insert_thread (sc_current s);; rt_schedule_remove_thread t) s2 = Ok tt s' /\
    swf ∅ s' /\ sched_frame s s' /\ sc_current s' = t /\
    sc_lists s' = unlink t <$>
      <[HReady (th_current_priority cur) :=
          rdy s (th_current_priority cur) ++ [sc_current s]]> (sc_lists s).
Proof.
  intros Hr. pose proof switch_masks as Hm. pose proof switch_swf as Hw2.
  assert (Hmc : masks_ok cur) by (eapply ready_masks; [exact Hw|exact Hc|by rewrite Hr..]).
  assert (Hu : unlinked (sc_current s) s2) by by eapply (ready_current_unlinked s).
  assert (Hne : sc_current s <> t).
  { intros E. by apply (sw_running _ _ Hw p t Hp); [set_solver|]. }
  erewrite bind_ok by by eapply insert_run.
  pose proof (sched_insert_swf _ _ _ _ Hw2 Hc Hmc Hu) as Hw3.
  set (s3 := sched_insert (sc_current s) cur s2) in *.
  destruct (sched_insert_frame (sc_current s) cur s2) as (F1 & F2 & F3 & F4). fold s3 in F1, F2, F3, F4.
  assert (F5 : sc_threads s3 = sc_threads s).
  { rewrite F4, set_stat_id; [apply insert_id, Hc|apply (sw_thread _ _ Hw _ _ Hc)|done]. }
  assert (Ht3 : sc_threads s3 !! t = Some th) by by rewrite F5.
  exists (sched_remove t th s3). split; [by eapply remove_run|]. split.
  { apply (swf_weaken ((({[t]} ∪ {[sc_current s]}) ∖ {[sc_current s]}) ∖ {[t]})); [|set_solver].
    apply sched_remove_swf_running; [done..|]. intros _. by rewrite F1. }
  destruct (sched_remove_frame t th s3) as (G1 & G2 & G3). split.
  { split_and!; [by rewrite G1|by rewrite G2, F2|by rewrite G3, F3]. }
  rewrite sched_remove_current, sched_remove_lists, F1. split; [done|]. f_equal.
  unfold s3, sched_insert. change (sc_current s2) with t. by destruct (Z.eqb_spec (sc_current s) t).
Qed.

End Switch.

(** [rt_schedule] with the scheduler unlocked and a running thread. *)
Lemma schedule_run s :
  swf ∅ s -> sc_current s <> RT_NULL -> sc_lock_nest s = 0 ->
  exists s', rt_schedule s = Ok tt s' /\ swf ∅ s' /\ sched_frame s s' /\
    (sc_current s', sc_lists s') = abs_schedule s.
Proof.
  intros Hw Hn Hl. destruct (sw_current _ _ Hw Hn) as [cur Hc].
  unfold rt_schedule. mstep. rewrite Hl. unfold abs_schedule. cbn [Z.eqb when].
  destruct (Z.eqb_spec (sc_group s) 0) as [Hg|Hg]; cbn [negb when].
  { exists s. by rewrite (top_ready_none _ _ Hw Hg). }
  destruct (get_highest_run _ _ Hw Hg) as (t & p & rest & Hrun & Hp & Hlow & ->).
  rewrite (bind_ok _ _ _ _ _ Hrun). rewrite (bind_ok _ _ _ _ _ (get_thread_run _ _ _ Hc)).
  rewrite Hc. assert (Hin : t ∈ rdy s p) by (rewrite Hp; set_solver).
  destruct (sw_member _ _ Hw _ _ Hin) as [th Ht].
  assert (Hne : t <> sc_current s) by (apply (sw_running _ _ Hw p t Hin); set_solver).
  destruct (Z.eqb_spec (stat_of cur) RT_THREAD_READY) as [Hr|Hr]; cbn [andb].
  - destruct (Z.ltb_spec (th_current_priority cur) p); cbn [negb].
    + rewrite Z.eqb_refl. destruct (schedule_keep s cur) as (s' & ? & ? & ? & E1 & E2); [done..|].
      exists s'. by rewrite E1, E2.
    + rewrite (proj2 (Z.eqb_neq _ _) Hne). cbn [negb]. do 2 rewrite bind_modify.
      destruct (switch_ready s cur th t p) as (s' & ? & ? & ? & E1 & E2); [done..|].
      exists s'. by rewrite E1, E2.
  - rewrite (proj2 (Z.eqb_neq _ _) Hne). cbn [negb]. do 2 rewrite bind_modify.
    destruct (switch_blocked s cur th t p) as (s' & ? & ? & ? & E1 & E2); [done..|].
      exists s'. by rewrite E1, E2.
Qed.

(** ** Start-up *)

(** The zero-initialised globals. *)
Definition sched_zero : sched := mk_sched ∅ ∅ 0 (replicate 32 0) 0 RT_NULL 0 0.

Lemma priority_table_init_run n s :
  exists s', priority_table_init n s = Ok tt s' /\
    s' = put_lists (sc_lists s') s /\
    forall h, sc_lists s' !! h =
      match h with
      | HReady p => if decide (0 <= p < Z.of_nat n) then Some [] else sc_lists s !! h
      | _ => sc_lists s !! h
      end.
Proof.
  revert s. induction n as [|n IH]; intros s.
  - exists s. split_and!; [done|by destruct s|]. intros [p| | |]; try done.
    rewrite decide_False by lia. done.
  - destruct (IH s) as (s1 & E & Es & Hl). exists (put_list (HReady (Z.of_nat n)) [] s1).
    cbn [priority_table_init]. rewrite (bind_ok _ _ _ _ _ E). split; [done|]. split.
    + rewrite Es. done.
    + intros h. cbn [put_list put_lists sc_lists].
      destruct (decide (h = HReady (Z.of_nat n))) as [->|Hn].
      * rewrite lookup_insert_eq, decide_True by lia. done.
      * rewrite lookup_insert_ne, Hl by done. destruct h as [p| | |]; try done.
        assert (p <> Z.of_nat n) by congruence.
        repeat case_decide; done || lia.
Qed.

Lemma scheduler_init_run :
  exists s', rt_system_scheduler_init sched_zero = Ok tt s' /\ swf ∅ s' /\
    sc_threads s' = ∅ /\ sc_current s' = RT_NULL /\ sc_lock_nest s' = 0 /\
    sc_irq_nest s' = 0 /\ (forall h, lget s' h = []) /\
    (forall o, sc_lists s' !! HSuspend o = None /\ sc_lists s' !! HSender o = None).
Proof.
  unfold rt_system_scheduler_init. rewrite bind_modify.
  destruct (priority_table_init_run (Z.to_nat RT_THREAD_PRIORITY_MAX) (put_lock 0 sched_zero))
    as (s1 & E & Es & Hl).
  rewrite (bind_ok _ _ _ _ _ E). unfold group_set. rewrite bind_modify.
  set (s2 := put_list HDefunct [] (put_group 0 s1)).
  assert (Hr : (when (32 <? RT_THREAD_PRIORITY_MAX) (modify (put_table (replicate 32 0)));;
    modify (put_list HDefunct [])) (put_group 0 s1) = Ok tt s2).
  { rewrite bind_when. destruct (32 <? RT_THREAD_PRIORITY_MAX); [|done].
    rewrite bind_modify. unfold s2. rewrite Es. done. }
  exists s2. split; [done|].
  assert (Hg : forall h, lget s2 h = []).
  { intros h. unfold s2. rewrite lget_put. case_decide; [done|]. unfold lget. cbn. rewrite Hl.
    destruct h; cbn; rewrite ?lookup_empty; try done. by case_decide. }
  assert (Ht : sc_threads s2 = ∅) by (unfold s2; by rewrite Es).
  split; [|split_and!; try done; try (by unfold s2; rewrite Es)].
  2:{ intros o. unfold s2. cbn. rewrite !lookup_insert_ne by done. by rewrite !Hl. }
  split; unfold rdy; try (intros *; rewrite Hg; set_solver).
  - intros p. unfold s2. cbn. rewrite lookup_insert_ne, Hl by done. cbn.
    pose proof cfg_prio. case_decide; rewrite ?lookup_empty; split; intros Hx; try lia; try done.
  - unfold s2. cbn. rewrite lookup_insert_eq. eauto.
  - intros h. rewrite Hg. constructor.
  - intros x th. by rewrite Ht, lookup_empty.
  - eapply bitmap_rep_ext; [apply bitmap_rep_zero; unfold s2; rewrite Es; done|].
    intros p _. apply ready_set_false, Hg.
  - intros x th. by rewrite Ht, lookup_empty.
  - unfold s2. rewrite Es. done.
Qed.

(** The first thread to run is the first of the highest-priority queue. *)
Lemma scheduler_start_run s :
  swf ∅ s -> sc_current s = RT_NULL -> sc_group s <> 0 ->
  exists s' t p, rt_system_scheduler_start s = Ok tt s' /\ swf ∅ s' /\ sched_frame s s' /\
    top_ready s = Some (t, p) /\ sc_current s' = t /\ sc_lists s' = unlink t <$> sc_lists s.
Proof.
  intros Hw Hc Hg. destruct (get_highest_run _ _ Hw Hg) as (t & p & rest & E & Hq & _ & Et).
  assert (Hin : t ∈ rdy s p) by (rewrite Hq; set_solver).
  destruct (sw_member _ _ Hw _ _ Hin) as [th Hth].
  assert (Hm : masks_ok th) by by apply (sw_ready _ _ Hw p t th).
  assert (Hw1 : swf {[t]} (put_current t s)).
  { apply (swf_weaken ((({[t]} ∪ {[sc_current s]}) ∪ ∅) ∖ {[RT_NULL]})); [|rewrite Hc; set_solver].
    apply swf_placed; [apply swf_current; [done|by eexists]|].
    intros th0 H0. by destruct (sw_thread _ _ Hw _ _ H0). }
  exists (sched_remove t th (put_current t s)), t, p. unfold rt_system_scheduler_start.
  rewrite (bind_ok _ _ _ _ _ E), bind_modify. split; [by eapply remove_run|]. split.
  { apply (swf_weaken ({[t]} ∖ {[t]})); [|set_solver]. by apply sched_remove_swf_running. }
  split; [exact (sched_remove_frame t th (put_current t s))|]. split; [done|].
  rewrite sched_remove_current, sched_remove_lists. done.
Qed.

(** ** Optimality of the choice *)

Lemma ready_is_queued s t th :
  swf ∅ s -> sc_threads s !! t = Some th -> stat_of th = RT_THREAD_READY ->
  t = sc_current s \/ t ∈ rdy s (th_current_priority th).
Proof.
  intros Hw Ht Hs. destruct (decide (t = sc_current s)); [auto|]. right.
  by apply (sw_queued _ _ Hw); [|set_solver|..].
Qed.

(** The chosen thread is a thread. *)
Lemma abs_schedule_nonnull s :
  swf ∅ s -> sc_current s <> RT_NULL -> (abs_schedule s).1 <> RT_NULL.
Proof.
  intros Hw Hc. unfold abs_schedule. destruct (top_ready s) as [[x p]|] eqn:Ex; [|done].
  assert (Hx : x <> RT_NULL); [|by repeat case_match].
  destruct (Z.eq_dec (sc_group s) 0) as [Hg|Hg]; [by rewrite (top_ready_none _ _ Hw Hg) in Ex|].
  destruct (get_highest_run _ _ Hw Hg) as (x' & p' & rest & _ & Hq & _ & Ex'). simplify_eq.
  destruct (sw_member _ _ Hw (HReady p) x) as [thx Hx]; [unfold rdy in Hq; rewrite Hq; set_solver|].
  apply (sw_thread _ _ Hw _ _ Hx).
Qed.

Lemma abs_schedule_min s cur' t th :
  swf ∅ s -> sc_current s <> RT_NULL ->
  sc_threads s !! (abs_schedule s).1 = Some cur' ->
  sc_threads s !! t = Some th -> stat_of th = RT_THREAD_READY ->
  stat_of cur' = RT_THREAD_READY /\ th_current_priority cur' <= th_current_priority th.
Proof.
  intros Hw Hn Hc' Ht Hs. unfold abs_schedule in Hc'.
  destruct (sw_current _ _ Hw Hn) as [cur Hc]. rewrite Hc in Hc'.
  destruct (decide (sc_group s = 0)) as [Hg|Hg].
  - rewrite (top_ready_none _ _ Hw Hg) in Hc'. cbn in Hc'. simplify_eq.
    pose proof bits_ge_max. pose proof (sw_thread _ _ Hw _ _ Ht) as (_ & _ & Hp & _).
    destruct (ready_is_queued _ _ _ Hw Ht Hs) as [->|Hin]; [simplify_eq; auto with lia|].
    assert (rdy s (th_current_priority th) = []) as E; [|rewrite E in Hin; set_solver].
    apply ready_set_false. eapply bitmap_empty; [apply (sw_bitmap _ _ Hw)|done|lia].
  - destruct (get_highest_run _ _ Hw Hg) as (x & p & rest & _ & Hp & Hlow & E).
    rewrite E in Hc'. assert (Hx : x ∈ rdy s p) by (rewrite Hp; set_solver).
    destruct (sw_member _ _ Hw _ _ Hx) as [thx Htx].
    destruct (sw_ready _ _ Hw _ _ _ Hx Htx) as [Hpx _].
    pose proof (sw_stat _ _ Hw _ _ _ Hx Htx ltac:(set_solver)) as Hsx.
    assert (Hq : t = sc_current s \/ p <= th_current_priority th).
    { destruct (ready_is_queued _ _ _ Hw Ht Hs) as [->|Hin]; [auto|right].
      destruct (Z.lt_ge_cases (th_current_priority th) p); [|lia].
      pose proof (sw_thread _ _ Hw _ _ Ht) as (_ & _ & Hr & _).
      rewrite Hlow in Hin by lia. set_solver. }
    destruct (Z.eqb_spec (stat_of cur) RT_THREAD_READY); [destruct (Z.ltb_spec (th_current_priority cur) p)|];
      cbn in Hc'; simplify_eq; split; try done; destruct Hq; subst; simplify_eq; lia || done.
Qed.

End Spec.
