(* ===== verification/Object.v ===== *)
(** * Kernel objects (src/object.c)

    The object header every kernel object starts with, the containers that
    list the objects of each class, and the operations of src/object.c on
    them.  The [flag] byte of a header is only used by the code of the
    object's own class, and is kept in that class's record. *)

From S2P Require Import Prelude.

(** ** Data *)

(** The address of an object: a structure of its own, or the timer built into
    the thread at [p]. *)
Inductive addr := AObj (p : Z) | ATimer (p : Z).

#[global] Instance addr_eq_dec : EqDecision addr.
Proof. solve_decision. Defined.

#[global] Instance addr_countable : Countable addr.
Proof.
  refine (inj_countable'
    (fun a => match a with AObj p => inl p | ATimer p => inr p end)
    (fun x => match x with inl p => AObj p | inr p => ATimer p end) _).
  by intros [].
Defined.

Definition is_null (a : addr) : bool := bool_decide (a = AObj RT_NULL).

(** [enum rt_object_class_type]. *)
Definition RT_Object_Class_Thread : Z := 0.
Definition RT_Object_Class_Semaphore : Z := 1.
Definition RT_Object_Class_Mutex : Z := 2.
Definition RT_Object_Class_Event : Z := 3.
Definition RT_Object_Class_MailBox : Z := 4.
Definition RT_Object_Class_MessageQueue : Z := 5.
Definition RT_Object_Class_MemHeap : Z := 6.
Definition RT_Object_Class_MemPool : Z := 7.
Definition RT_Object_Class_Device : Z := 8.
Definition RT_Object_Class_Timer : Z := 9.
Definition RT_Object_Class_Module : Z := 10.
Definition RT_Object_Class_Unknown : Z := 11.
Definition RT_Object_Class_Static : Z := 0x80.

Record rt_object := mk_object { o_name : list Z; o_type : Z }.

Record rt_object_information := mk_info { oi_type : Z; oi_list : list addr }.

Record objsys := mk_objsys {
  os_objs : gmap addr rt_object;
  os_container : list rt_object_information
}.

(** [rt_object_container] with every object class but devices and modules. *)
Definition rt_object_container : list rt_object_information :=
  (fun c => mk_info c []) <$>
    [RT_Object_Class_Thread; RT_Object_Class_Semaphore; RT_Object_Class_Mutex;
     RT_Object_Class_Event; RT_Object_Class_MailBox; RT_Object_Class_MessageQueue;
     RT_Object_Class_MemHeap; RT_Object_Class_MemPool; RT_Object_Class_Timer].

Abbreviation Os := (M objsys).

(** ** Names

    [name_copy n src] is what [rt_strncpy] leaves in the [n] bytes of a name
    field, [name_cmp n] the result of [rt_strncmp] on two names; a name is the
    list of its characters, the terminator being read after the last. *)

Fixpoint name_copy (n : nat) (src : list Z) : list Z :=
  match n with
  | O => []
  | S n => match src with
           | [] => 0 :: replicate n 0
           | c :: src => if c =? 0 then 0 :: replicate n 0 else c :: name_copy n src
           end
  end.

Fixpoint name_cmp (count : nat) (cs ct : list Z) : Z :=
  match count with
  | O => 0
  | S n =>
      let res := i8 (hd 0 cs - hd 0 ct) in
      if truthy res || (hd 0 cs =? 0) then res else name_cmp n (tl cs) (tl ct)
  end.

Section Operations.
Context `{Config}.

(** ** Operations *)

(** The index of the container of a class, [None] for RT_NULL. *)
Fixpoint get_information (type : Z) (c : list rt_object_information) : option nat :=
  match c with
  | [] => None
  | i :: c => if oi_type i =? type then Some O else S <$> get_information type c
  end.
Definition rt_object_get_information (type : Z) : Os (option nat) :=
  gets (fun s => get_information type (os_container s)).

Definition get_object (a : addr) : Os rt_object :=
  fun s => of_option BadPtr (os_objs s !! a) s.

Definition put_object (a : addr) (o : rt_object) (s : objsys) : objsys :=
  {| s with os_objs := <[a := o]> (os_objs s) |}.

Definition object_linked (a : addr) (s : objsys) : bool :=
  existsb (fun i => bool_decide (a ∈ oi_list i)) (os_container s).

(** [rt_list_insert_after(&(information->object_list), &(object->list))]. *)
Definition container_insert (i : nat) (a : addr) : Os unit :=
  s ← getS;
  if object_linked a s then fail BadList
  else modify (fun s => {| s with os_container :=
                 alter (fun inf => mk_info (oi_type inf) (a :: oi_list inf)) i (os_container s) |}).

(** [rt_list_remove(&(object->list))]. *)
Definition container_remove (a : addr) : Os unit :=
  modify (fun s => {| s with os_container :=
    (fun inf => mk_info (oi_type inf) (filter (fun x => x <> a) (oi_list inf))) <$> os_container s |}).

Definition rt_object_init (object : addr) (type : Z) (name : list Z) : Os unit :=
  information ← rt_object_get_information type;
  RT_ASSERT (bool_decide (is_Some information));;
  modify (put_object object
            (mk_object (name_copy RT_NAME_MAX name) (Z.lor type RT_Object_Class_Static)));;
  container_insert (default O information) object.

Definition object_reset (object : addr) : Os unit :=
  o ← get_object object;
  modify (put_object object (mk_object (o_name o) 0)).

Definition rt_object_detach (object : addr) : Os unit :=
  RT_ASSERT (negb (is_null object));;
  object_reset object;;
  container_remove object.

(** The part of [rt_object_allocate] after the allocation of [object]. *)
Definition object_attach (object : addr) (type : Z) (name : list Z) : Os unit :=
  information ← rt_object_get_information type;
  modify (put_object object (mk_object (name_copy RT_NAME_MAX name) type));;
  container_insert (default O information) object.

Definition rt_object_is_systemobject (object : addr) : Os bool :=
  RT_ASSERT (negb (is_null object));;
  o ← get_object object;
  mret (truthy (Z.land (o_type o) RT_Object_Class_Static)).

Definition rt_object_get_type (object : addr) : Os Z :=
  RT_ASSERT (negb (is_null object));;
  o ← get_object object;
  mret (u8 (Z.land (o_type o) (Z.lnot RT_Object_Class_Static))).

(** The walk of a container for a name. *)
Fixpoint name_search (name : list Z) (l : list addr) : Os (option addr) :=
  match l with
  | [] => mret None
  | a :: l =>
      o ← get_object a;
      if name_cmp RT_NAME_MAX (o_name o) name =? 0 then mret (Some a)
      else name_search name l
  end.

End Operations.
