(* ===== verification/ObjInv.v ===== *)
(** * Object containers

    [owf]: each container lists, without repetition, objects of its class.
    The object operations run from such states and keep them, and a lookup by
    name returns the most recently attached object of that name. *)

From S2P Require Import Prelude Object.

Section Inv.
Context `{CO : ConfigOk}.

(** The class in a header, as [rt_object_get_type] reads it. *)
Definition type_of (o : rt_object) : Z := u8 (Z.land (o_type o) (Z.lnot RT_Object_Class_Static)).
Definition is_static (o : rt_object) : bool := truthy (Z.land (o_type o) RT_Object_Class_Static).

Definition container_classes : list Z := oi_type <$> rt_object_container.

Record owf (s : objsys) : Prop := {
  ow_classes : oi_type <$> os_container s = container_classes;
  ow_nodup : forall inf, inf ∈ os_container s -> NoDup (oi_list inf);
  ow_member : forall inf a, inf ∈ os_container s -> a ∈ oi_list inf ->
    exists o, os_objs s !! a = Some o /\ type_of o = oi_type inf;
  ow_null : os_objs s !! AObj RT_NULL = None
}.

Definition o_has_type (s : objsys) (a : addr) (c : Z) : Prop :=
  exists o, os_objs s !! a = Some o /\ type_of o = c.

(** ** Containers *)

Lemma object_linked_spec a s :
  object_linked a s = false <-> forall inf, inf ∈ os_container s -> a ∉ oi_list inf.
Proof.
  unfold object_linked. split.
  - intros Hl inf Hin Ha. assert (existsb (fun i => bool_decide (a ∈ oi_list i)) (os_container s) = true);
      [|congruence].
    apply existsb_exists. exists inf. rewrite <- list_elem_of_In. by rewrite bool_decide_eq_true.
  - intros Hl. apply not_true_is_false. intros Hx. apply existsb_exists in Hx as (inf & Hin & Hb).
    apply bool_decide_eq_true in Hb. rewrite <- list_elem_of_In in Hin. by apply (Hl inf).
Qed.

Lemma classes_nodup : NoDup container_classes.
Proof. by apply (bool_decide_unpack _). Qed.

Lemma get_information_spec type c i :
  get_information type c = Some i -> exists inf, c !! i = Some inf /\ oi_type inf = type.
Proof.
  revert i. induction c as [|inf c IH]; intros i; cbn; [done|].
  destruct (Z.eqb_spec (oi_type inf) type) as [E|E].
  - intros [= <-]. by exists inf.
  - intros H. apply fmap_Some in H as (j & Hj & ->). by apply IH.
Qed.

Lemma get_information_some type c :
  type ∈ (oi_type <$> c) -> is_Some (get_information type c).
Proof.
  induction c as [|inf c IH]; cbn; [set_solver|]. intros Hin.
  destruct (Z.eqb_spec (oi_type inf) type) as [E|E]; [by eexists|].
  apply fmap_is_Some, IH. set_solver.
Qed.

(** The container of a class is the only one with it. *)
Lemma container_unique s i j inf inf' :
  owf s -> os_container s !! i = Some inf -> os_container s !! j = Some inf' ->
  oi_type inf = oi_type inf' -> i = j.
Proof.
  intros Hw Hi Hj E. pose proof classes_nodup as Hnd. rewrite <- (ow_classes _ Hw) in Hnd.
  eapply NoDup_lookup; [exact Hnd| |].
  - by rewrite list_lookup_fmap, Hi.
  - rewrite list_lookup_fmap, Hj. cbn. by rewrite E.
Qed.

(** ** Effects *)

Definition os_insert (i : nat) (a : addr) (s : objsys) : objsys :=
  {| s with os_container :=
       alter (fun inf => mk_info (oi_type inf) (a :: oi_list inf)) i (os_container s) |}.
Definition os_remove (a : addr) (s : objsys) : objsys :=
  {| s with os_container :=
    (fun inf => mk_info (oi_type inf) (filter (fun x => x <> a) (oi_list inf))) <$> os_container s |}.

(** An object that is in no container. *)
Definition detached (a : addr) (s : objsys) : Prop :=
  forall inf, inf ∈ os_container s -> a ∉ oi_list inf.

Lemma os_remove_detached a s : detached a (os_remove a s).
Proof.
  intros inf Hin Ha. cbn in Hin. apply list_elem_of_fmap in Hin as (inf0 & -> & _).
  cbn in Ha. apply list_elem_of_filter in Ha. tauto.
Qed.

(** Changing the header of a detached object. *)
Lemma owf_put_detached s a o :
  owf s -> detached a s -> a <> AObj RT_NULL -> owf (put_object a o s).
Proof.
  intros Hw Hd Hn. split; try apply Hw.
  - intros inf b Hin Hb. cbn in *. destruct (decide (b = a)) as [->|].
    + by destruct (Hd inf Hin).
    + rewrite lookup_insert_ne by done. by apply (ow_member _ Hw).
  - cbn. rewrite lookup_insert_ne by done. apply Hw.
Qed.

Lemma owf_remove s a : owf s -> owf (os_remove a s).
Proof.
  intros Hw. split.
  - cbn. rewrite <- list_fmap_compose. apply Hw.
  - intros inf Hin. cbn in Hin. apply list_elem_of_fmap in Hin as (inf0 & -> & Hin).
    cbn. apply NoDup_filter. by apply (ow_nodup _ Hw).
  - intros inf b Hin Hb. cbn in Hin. apply list_elem_of_fmap in Hin as (inf0 & -> & Hin).
    cbn in *. apply list_elem_of_filter in Hb as [_ Hb]. by apply (ow_member _ Hw inf0).
  - apply Hw.
Qed.

Lemma owf_insert s i a o inf :
  owf s -> detached a s -> os_container s !! i = Some inf ->
  os_objs s !! a = Some o -> type_of o = oi_type inf -> owf (os_insert i a s).
Proof.
  intros Hw Hd Hi Ho Ht.
  assert (Hel : forall inf', inf' ∈ os_container (os_insert i a s) ->
    inf' ∈ os_container s \/ inf' = mk_info (oi_type inf) (a :: oi_list inf)).
  { intros inf' (j & Hj)%list_elem_of_lookup. cbn in Hj.
    destruct (decide (i = j)) as [->|].
    - rewrite list_lookup_alter_eq, Hi in Hj. cbn in Hj. simplify_eq. auto.
    - rewrite list_lookup_alter_ne in Hj by done. left. apply list_elem_of_lookup. by exists j. }
  apply list_elem_of_lookup_2 in Hi as Hin. split.
  - rewrite <- (ow_classes _ Hw). cbn. apply list_eq. intros j. rewrite !list_lookup_fmap.
    destruct (decide (i = j)) as [->|].
    + rewrite list_lookup_alter_eq, Hi. done.
    + by rewrite list_lookup_alter_ne.
  - intros inf' [Hx| ->]%Hel; [by apply (ow_nodup _ Hw)|]. cbn. apply NoDup_cons.
    split; [by apply Hd|by apply (ow_nodup _ Hw)].
  - intros inf' b [Hx| ->]%Hel Hb; [by apply (ow_member _ Hw)|]. cbn in *.
    apply elem_of_cons in Hb as [->|Hb]; [by exists o|]. by apply (ow_member _ Hw inf).
  - apply Hw.
Qed.

Lemma linked_insert i a b s : a <> b -> object_linked a (os_insert i b s) = object_linked a s.
Proof.
  intros Hne. unfold object_linked. cbn. generalize (os_container s) as c. intros c. revert i.
  induction c as [|inf c IH]; intros i; [done|]. destruct i as [|i]; cbn; [|by rewrite IH]. f_equal.
  apply bool_decide_ext. set_solver.
Qed.
Lemma linked_remove a b s : a <> b -> object_linked a (os_remove b s) = object_linked a s.
Proof.
  intros Hne. unfold object_linked. cbn. induction (os_container s) as [|inf c IH]; [done|]. cbn. rewrite IH. f_equal.
  apply bool_decide_ext. rewrite list_elem_of_filter. tauto.
Qed.

Lemma detached_iff a s : detached a s <-> object_linked a s = false.
Proof. symmetry. apply object_linked_spec. Qed.

Lemma linked_new i a s inf : os_container s !! i = Some inf -> object_linked a (os_insert i a s) = true.
Proof.
  intros Hi. unfold object_linked. apply existsb_exists. exists (mk_info (oi_type inf) (a :: oi_list inf)).
  split; [|by apply bool_decide_eq_true_2, list_elem_of_here].
  cbn. apply list_elem_of_In, list_elem_of_lookup. exists i. by rewrite list_lookup_alter_eq, Hi.
Qed.

(** ** Running the operations *)

Lemma get_object_run s a o : os_objs s !! a = Some o -> get_object a s = Ok o s.
Proof. unfold get_object. by intros ->. Qed.

Lemma get_type_run s a o :
  os_objs s !! a = Some o -> a <> AObj RT_NULL -> rt_object_get_type a s = Ok (type_of o) s.
Proof.
  intros Ho Hn. unfold rt_object_get_type, is_null. rewrite bool_decide_false by done.
  rewrite bind_assert by done. by rewrite (bind_ok _ _ _ _ _ (get_object_run _ _ _ Ho)).
Qed.

Lemma is_system_run s a o :
  os_objs s !! a = Some o -> a <> AObj RT_NULL ->
  rt_object_is_systemobject a s = Ok (is_static o) s.
Proof.
  intros Ho Hn. unfold rt_object_is_systemobject, is_null. rewrite bool_decide_false by done.
  rewrite bind_assert by done. by rewrite (bind_ok _ _ _ _ _ (get_object_run _ _ _ Ho)).
Qed.

Lemma detach_run s a o :
  os_objs s !! a = Some o -> a <> AObj RT_NULL ->
  rt_object_detach a s = Ok tt (os_remove a (put_object a (mk_object (o_name o) 0) s)).
Proof.
  intros Ho Hn. unfold rt_object_detach, is_null. rewrite bool_decide_false by done.
  rewrite bind_assert by done. unfold object_reset. rewrite bind_assoc.
  by rewrite (bind_ok _ _ _ _ _ (get_object_run _ _ _ Ho)).
Qed.

(** Detaching or deleting: the header is reset and the object unlinked. *)
Lemma owf_detach s a o :
  owf s -> a <> AObj RT_NULL -> owf (os_remove a (put_object a o s)).
Proof.
  intros Hw Hn. change (os_remove a (put_object a o s)) with (put_object a o (os_remove a s)).
  apply owf_put_detached; [by apply owf_remove|apply os_remove_detached|done].
Qed.

Lemma container_insert_run s i a :
  detached a s -> container_insert i a s = Ok tt (os_insert i a s).
Proof.
  intros Hd. unfold container_insert. rewrite bind_getS.
  by rewrite (proj2 (object_linked_spec a s) Hd).
Qed.

(** Attaching with a type byte [ty] that reads as class [c]. *)
Lemma attach_run s a c ty name :
  owf s -> detached a s -> a <> AObj RT_NULL -> c ∈ container_classes ->
  type_of (mk_object name ty) = c ->
  exists i, get_information c (os_container s) = Some i /\
    let s' := os_insert i a (put_object a (mk_object name ty) s) in
    container_insert i a (put_object a (mk_object name ty) s) = Ok tt s' /\ owf s'.
Proof.
  intros Hw Hd Hn Hc Ht. rewrite <- (ow_classes _ Hw) in Hc.
  destruct (get_information_some _ _ Hc) as [i Hi]. exists i. split; [done|]. cbv zeta.
  destruct (get_information_spec _ _ _ Hi) as (inf & Hinf & Et).
  split; [by apply container_insert_run|].
  eapply owf_insert; [by apply owf_put_detached|exact Hd|exact Hinf|apply lookup_insert_eq|].
  by rewrite Ht.
Qed.

End Inv.
