(* ===== verification/Timer.v ===== *)
(** * Timers and the system tick (src/timer.c, src/clock.c)

    The hard timers: the timer records, the rows of the skip list
    [rt_timer_list] (each the list of its timers, the last row holding all of
    them), the insertion counter and the tick.  The operations that also check
    the object header are completed in Kernel. *)

From S2P Require Import Prelude Object.

(** ** Data *)

Definition RT_TIMER_FLAG_ACTIVATED : Z := 0x1.
Definition RT_TIMER_FLAG_ONE_SHOT : Z := 0x0.
Definition RT_TIMER_FLAG_PERIODIC : Z := 0x2.

Definition RT_TIMER_CTRL_SET_TIME : Z := 0x0.
Definition RT_TIMER_CTRL_GET_TIME : Z := 0x1.
Definition RT_TIMER_CTRL_SET_ONESHOT : Z := 0x2.
Definition RT_TIMER_CTRL_SET_PERIODIC : Z := 0x3.

(** Timeout functions: [rt_thread_timeout], or a function of the application. *)
Inductive tfunc := FThreadTimeout | FUser (f : Z).

(** [struct rt_timer], without the object header but with its flag byte. *)
Record rt_timer := mk_timer {
  tm_flag : Z;
  tm_func : tfunc;
  tm_parameter : Z;
  tm_init_tick : Z;
  tm_timeout_tick : Z
}.

Record tsys := mk_tsys {
  ts_timers : gmap addr rt_timer;
  ts_rows : list (list addr);
  ts_random_nr : Z;
  ts_tick : Z
}.

Abbreviation Ts := (M tsys).

(** ** Access *)

Definition get_timer (t : addr) : Ts rt_timer :=
  fun s => of_option BadPtr (ts_timers s !! t) s.
Definition put_timer (t : addr) (tm : rt_timer) (s : tsys) : tsys :=
  {| s with ts_timers := <[t := tm]> (ts_timers s) |}.
Definition upd_timer (t : addr) (f : rt_timer -> rt_timer) : Ts unit :=
  tm ← get_timer t; modify (put_timer t (f tm)).
Definition put_rows (rows : list (list addr)) (s : tsys) : tsys :=
  {| s with ts_rows := rows |}.

Definition set_flag (f : Z -> Z) (tm : rt_timer) : rt_timer :=
  {| tm with tm_flag := u8 (f (tm_flag tm)) |}.
Definition activated (tm : rt_timer) : bool :=
  truthy (Z.land (tm_flag tm) RT_TIMER_FLAG_ACTIVATED).
Definition periodic (tm : rt_timer) : bool :=
  truthy (Z.land (tm_flag tm) RT_TIMER_FLAG_PERIODIC).
Definition deactivate : rt_timer -> rt_timer :=
  set_flag (fun f => Z.land f (Z.lnot RT_TIMER_FLAG_ACTIVATED)).

Definition timer_linked (t : addr) (s : tsys) : bool :=
  existsb (fun row => bool_decide (t ∈ row)) (ts_rows s).

Section Operations.
Context `{Config}.

(** ** Operations of src/timer.c *)

Definition _rt_timer_init (timer : addr) (timeout : tfunc) (parameter time flag : Z)
    : Ts unit :=
  s ← getS;
  if timer_linked timer s then fail BadList
  else modify (put_timer timer
         (mk_timer (Z.land flag (Z.lnot RT_TIMER_FLAG_ACTIVATED)) timeout parameter time 0)).

(** The row every timer is in. *)
Definition last_row (s : tsys) : list addr :=
  default [] (ts_rows s !! (RT_TIMER_SKIP_LIST_LEVEL - 1)%nat).

Definition rt_timer_list_next_timeout : Ts Z :=
  s ← getS;
  match last_row s with
  | [] => mret RT_TICK_MAX
  | t :: _ => tm ← get_timer t; mret (tm_timeout_tick tm)
  end.

Definition _rt_timer_remove (timer : addr) : Ts unit :=
  get_timer timer;;
  modify (fun s => put_rows ((filter (fun x => x <> timer)) <$> ts_rows s) s).

(** A position in a row is the head ([None]) or a timer of the row; what
    follows it. *)
Fixpoint row_after (a : addr) (row : list addr) : option (list addr) :=
  match row with
  | [] => None
  | x :: row => if decide (x = a) then Some row else row_after a row
  end.
Definition row_from (pos : option addr) (row : list addr) : option (list addr) :=
  match pos with None => Some row | Some a => row_after a row end.

(** The inner loop of [rt_timer_start] on one row: from [pos], step over the
    timers that expire no later than [timeout]. *)
Fixpoint row_walk (timeout : Z) (pos : option addr) (suffix : list addr)
    : Ts (option addr) :=
  match suffix with
  | [] => mret pos
  | t :: rest =>
      tm ← get_timer t;
      let d := u32 (tm_timeout_tick tm - timeout) in
      if d =? 0 then row_walk timeout (Some t) rest
      else if d <? RT_TICK_MAX / 2 then mret pos
      else row_walk timeout (Some t) rest
  end.

(** The outer loop: the position found in a row is where the next row starts;
    the result is [row_head]. *)
Fixpoint rows_walk (timeout : Z) (pos : option addr) (rows : list (list addr))
    : Ts (list (option addr)) :=
  match rows with
  | [] => mret []
  | row :: rows =>
      suffix ← of_option BadPtr (row_from pos row);
      p ← row_walk timeout pos suffix;
      ps ← rows_walk timeout p rows;
      mret (p :: ps)
  end.

(** [rt_list_insert_after(row_head, &timer->row[i])]. *)
Fixpoint insert_after (a t : addr) (row : list addr) : list addr :=
  match row with
  | [] => []
  | x :: row => if decide (x = a) then x :: t :: row else x :: insert_after a t row
  end.
Definition row_insert (pos : option addr) (t : addr) (row : list addr) : list addr :=
  match pos with None => t :: row | Some a => insert_after a t row end.

(** Link [t] into the rows above the last one, from the last but one up, as
    long as the tested bits of the counter are clear; heads and rows in that
    order. *)
Fixpoint rows_promote (t : addr) (tst_nr : Z) (heads : list (option addr))
    (rows : list (list addr)) : list (list addr) :=
  match heads, rows with
  | h :: heads, row :: rows =>
      if Z.land tst_nr RT_TIMER_SKIP_LIST_MASK =? 0 then
        row_insert h t row ::
        rows_promote t (Z.shiftr tst_nr (Z.shiftr (RT_TIMER_SKIP_LIST_MASK + 1) 1)) heads rows
      else row :: rows
  | _, _ => rows
  end.

Definition rows_insert (t : addr) (tst_nr : Z) (heads : list (option addr))
    (rows : list (list addr)) : list (list addr) :=
  match rev heads, rev rows with
  | h :: heads, row :: rows => rev (row_insert h t row :: rows_promote t tst_nr heads rows)
  | _, _ => rows
  end.

Definition rt_tick_get : Ts Z := gets ts_tick.
Definition rt_tick_set (tick : Z) : Ts unit := modify (fun s => {| s with ts_tick := tick |}).

(** [rt_timer_start] after the parameter checks. *)
Definition timer_start (timer : addr) : Ts Z :=
  _rt_timer_remove timer;;
  upd_timer timer deactivate;;
  tm ← get_timer timer;
  RT_ASSERT (tm_init_tick tm <? RT_TICK_MAX / 2);;
  tick ← rt_tick_get;
  let timeout := u32 (tick + tm_init_tick tm) in
  upd_timer timer (fun tm => {| tm with tm_timeout_tick := timeout |});;
  rows ← gets ts_rows;
  row_head ← rows_walk timeout None rows;
  modify (fun s => {| s with ts_random_nr := u32 (ts_random_nr s + 1) |});;
  tst_nr ← gets ts_random_nr;
  modify (put_rows (rows_insert timer tst_nr row_head rows));;
  upd_timer timer (set_flag (fun f => Z.lor f RT_TIMER_FLAG_ACTIVATED));;
  mret RT_EOK.

(** [rt_timer_stop] after the parameter checks. *)
Definition timer_stop (timer : addr) : Ts Z :=
  tm ← get_timer timer;
  if negb (activated tm) then mret (- RT_ERROR)
  else
    _rt_timer_remove timer;;
    upd_timer timer deactivate;;
    mret RT_EOK.

(** [rt_timer_control] after the parameter checks; the value stored through
    [arg] by [RT_TIMER_CTRL_GET_TIME] is the second component. *)
Definition timer_control (timer : addr) (cmd arg : Z) : Ts (Z * option Z) :=
  tm ← get_timer timer;
  if cmd =? RT_TIMER_CTRL_GET_TIME then mret (RT_EOK, Some (tm_init_tick tm))
  else if cmd =? RT_TIMER_CTRL_SET_TIME then
    upd_timer timer (fun tm => {| tm with tm_init_tick := u32 arg |});; mret (RT_EOK, None)
  else if cmd =? RT_TIMER_CTRL_SET_ONESHOT then
    upd_timer timer (set_flag (fun f => Z.land f (Z.lnot RT_TIMER_FLAG_PERIODIC)));;
    mret (RT_EOK, None)
  else if cmd =? RT_TIMER_CTRL_SET_PERIODIC then
    upd_timer timer (set_flag (fun f => Z.lor f RT_TIMER_FLAG_PERIODIC));;
    mret (RT_EOK, None)
  else mret (RT_EOK, None).

Definition rt_timer_next_timeout_tick : Ts Z := rt_timer_list_next_timeout.

Definition rt_system_timer_init : Ts unit :=
  modify (put_rows (replicate RT_TIMER_SKIP_LIST_LEVEL [])).

(** [rt_tick_from_millisecond] (src/clock.c), the product being computed in
    [int]. *)
Definition rt_tick_from_millisecond (ms : Z) : Z :=
  if ms <? 0 then RT_WAITING_FOREVER
  else Z.quot (i32 (i32 (RT_TICK_PER_SECOND * ms) + 999)) 1000.

End Operations.
