(* ===== verification/TimerInv.v ===== *)
(** * The timer skip list

    [twf ts]: the rows of the skip list are nested (each row is a subsequence
    of the next), no timer is twice in a row, and every linked timer exists.
    [rt_timer_start] is shown to run from such a state, to keep it, and to
    place the timer in the last row exactly where its search stops; when the
    last row is ordered by expiry this is the place a linear search of that
    row finds ([ins_due]), whatever rows the search went through. *)

From S2P Require Import Prelude Object Timer.

Section Inv.
Context `{CO : ConfigOk}.

Fixpoint nested (rows : list (list addr)) : Prop :=
  match rows with
  | r1 :: ((r2 :: _) as rest) => r1 `sublist_of` r2 /\ nested rest
  | _ => True
  end.

Record twf (s : tsys) : Prop := {
  tw_len : length (ts_rows s) = RT_TIMER_SKIP_LIST_LEVEL;
  tw_nested : nested (ts_rows s);
  tw_nodup : NoDup (last_row s);
  tw_mem : forall t, t ∈ last_row s -> is_Some (ts_timers s !! t)
}.

(** The timer the search must not step over. *)
Definition stops (s : tsys) (timeout : Z) (t : addr) : Prop :=
  exists tm, ts_timers s !! t = Some tm /\
    let d := u32 (tm_timeout_tick tm - timeout) in d <> 0 /\ d < RT_TICK_MAX / 2.
Definition passes (s : tsys) (timeout : Z) (t : addr) : Prop :=
  exists tm, ts_timers s !! t = Some tm /\
    let d := u32 (tm_timeout_tick tm - timeout) in d = 0 \/ RT_TICK_MAX / 2 <= d.

(** The search has reached its end before [suf]. *)
Definition at_stop (s : tsys) (timeout : Z) (suf : list addr) : Prop :=
  match suf with [] => True | x :: _ => stops s timeout x end.

(** ** Lists *)

Lemma passes_not_stops s timeout t : passes s timeout t -> stops s timeout t -> False.
Proof. intros (tm & E & H) (tm' & E' & H'). simplify_eq. cbv zeta in *. lia. Qed.

Lemma sublist_past s timeout suf w rest :
  Forall (passes s timeout) w -> at_stop s timeout suf ->
  suf `sublist_of` w ++ rest -> suf `sublist_of` rest.
Proof.
  intros Hw Hs. destruct suf as [|x suf]; [intros; apply sublist_nil_l|].
  induction Hw as [|y w Hy Hw IH]; simpl; [done|]. intros Hsub.
  apply sublist_cons_l in Hsub as (k1 & k2 & E & Hsub).
  destruct k1 as [|z k1]; simplify_eq/=.
  - exfalso. by eapply passes_not_stops.
  - apply IH. rewrite H0. apply sublist_inserts_l. by apply sublist_skip.
Qed.

Lemma row_after_mid a l1 l2 : a ∉ l1 -> row_after a (l1 ++ a :: l2) = Some l2.
Proof.
  induction l1 as [|x l1 IH]; simpl; intros Hn.
  - by rewrite decide_True.
  - rewrite decide_False by set_solver. apply IH. set_solver.
Qed.

Lemma insert_after_mid a t l1 l2 :
  a ∉ l1 -> insert_after a t (l1 ++ a :: l2) = l1 ++ a :: t :: l2.
Proof.
  induction l1 as [|x l1 IH]; simpl; intros Hn.
  - by rewrite decide_True.
  - rewrite decide_False by set_solver. rewrite IH; set_solver.
Qed.

(** A row cut at the position [last pre]. *)
Lemma row_from_cut pre suf : NoDup (pre ++ suf) -> row_from (last pre) (pre ++ suf) = Some suf.
Proof.
  intros Hnd. destruct pre as [|x pre] using rev_ind; [done|].
  rewrite last_snoc. cbn. rewrite <- app_assoc. apply row_after_mid.
  rewrite <- app_assoc in Hnd. apply NoDup_app in Hnd as (_ & Hd & _). intros Hx.
  apply (Hd _ Hx). set_solver.
Qed.

Lemma row_insert_cut t pre suf :
  NoDup (pre ++ suf) -> row_insert (last pre) t (pre ++ suf) = pre ++ t :: suf.
Proof.
  intros Hnd. destruct pre as [|x pre] using rev_ind; [done|].
  rewrite last_snoc. cbn. rewrite <- !app_assoc. apply insert_after_mid.
  rewrite <- app_assoc in Hnd. apply NoDup_app in Hnd as (_ & Hd & _). intros Hx.
  apply (Hd _ Hx). set_solver.
Qed.

(** The position of a row is a position of the next one. *)
Lemma next_cut (pre suf row : list addr) :
  NoDup row -> (pre ++ suf) `sublist_of` row ->
  exists pre' suf', row = pre' ++ suf' /\ last pre' = last pre /\
    pre `sublist_of` pre' /\ suf `sublist_of` suf'.
Proof.
  intros Hnd Hsub. destruct pre as [|a pre] using rev_ind.
  { exists [], row. split_and!; [done..|]. done. }
  clear IHpre. apply sublist_app_l in Hsub as (k1 & k2 & -> & H1 & H2).
  assert (Ha : a ∈ k1) by (eapply sublist_subseteq; [exact H1|set_solver]).
  apply list_elem_of_split in Ha as (k1a & k1b & ->).
  exists (k1a ++ [a]), (k1b ++ k2). rewrite !last_snoc. split_and!.
  - by rewrite <- !app_assoc.
  - done.
  - change (a :: k1b) with ([a] ++ k1b) in H1. rewrite app_assoc in H1.
    apply sublist_app_r in H1 as (l1 & l2 & E & S1 & S2).
    destruct l2 as [|y l2] using rev_ind; [by rewrite app_nil_r in E; subst|].
    exfalso. rewrite app_assoc in E. apply app_inj_tail in E as [_ ->].
    apply sublist_subseteq in S2. assert (Hy : y ∈ k1b) by (apply S2; set_solver).
    rewrite <- app_assoc, <- app_comm_cons in Hnd.
    apply NoDup_app in Hnd as (_ & _ & Hnd). apply NoDup_cons in Hnd as [Hnd _]. set_solver.
  - by apply sublist_inserts_l.
Qed.

(** ** The search *)

Lemma get_timer_run s t tm : ts_timers s !! t = Some tm -> get_timer t s = Ok tm s.
Proof. unfold get_timer. by intros ->. Qed.

Definition advance (pos : option addr) (w : list addr) : option addr :=
  match last w with Some a => Some a | None => pos end.

Lemma row_walk_run s timeout pos suf :
  (forall t, t ∈ suf -> is_Some (ts_timers s !! t)) ->
  exists w rest, suf = w ++ rest /\ Forall (passes s timeout) w /\ at_stop s timeout rest /\
    row_walk timeout pos suf s = Ok (advance pos w) s.
Proof.
  revert pos. induction suf as [|x suf IH]; intros pos Hmem.
  { exists [], []. by split_and!. }
  destruct (Hmem x) as [tm Htm]; [set_solver|]. cbn [row_walk].
  rewrite (bind_ok _ _ _ _ _ (get_timer_run _ _ _ Htm)). cbv zeta.
  set (d := u32 (tm_timeout_tick tm - timeout)).
  assert (Hgo : passes s timeout x -> exists w rest, x :: suf = w ++ rest /\
    Forall (passes s timeout) w /\ at_stop s timeout rest /\
    row_walk timeout (Some x) suf s = Ok (advance pos w) s).
  { intros Hp. destruct (IH (Some x)) as (w & rest & -> & Hw & Hr & E); [set_solver|].
    exists (x :: w), rest. split_and!; [done|by constructor|done|]. rewrite E. f_equal.
    unfold advance. destruct w as [|y w] using rev_ind; [done|].
    rewrite app_comm_cons, !last_snoc. done. }
  destruct (Z.eqb_spec d 0) as [E0|E0]; [apply Hgo; exists tm; cbv zeta; auto|].
  destruct (Z.ltb_spec d (RT_TICK_MAX / 2)) as [E1|E1].
  - exists [], (x :: suf). split_and!; [done|done| |done]. by exists tm.
  - apply Hgo. exists tm. cbv zeta. auto.
Qed.

(** How a row is cut by the search, for each row. *)
Abbreviation cut := (list addr * list addr)%type.
Definition row_of (c : cut) : list addr := c.1 ++ c.2.

Fixpoint cuts_nested (cs : list cut) : Prop :=
  match cs with
  | c1 :: ((c2 :: _) as rest) =>
      (c1.1 `sublist_of` c2.1 /\ c1.2 `sublist_of` c2.2) /\ cuts_nested rest
  | _ => True
  end.

Definition pos_passed (s : tsys) (timeout : Z) (pos : option addr) : Prop :=
  match pos with Some a => passes s timeout a | None => True end.

Lemma advance_passed s timeout pos w :
  pos_passed s timeout pos -> Forall (passes s timeout) w -> pos_passed s timeout (advance pos w).
Proof.
  intros Hp Hw. unfold advance. destruct (last w) as [a|] eqn:E; [|done].
  apply last_Some in E as [w' ->]. apply Forall_app in Hw as [_ Hw].
  by rewrite Forall_singleton in Hw.
Qed.

Lemma rows_walk_run s timeout rows pre suf :
  (forall row t, row ∈ rows -> t ∈ row -> is_Some (ts_timers s !! t)) ->
  (forall row, row ∈ rows -> NoDup row) ->
  at_stop s timeout suf -> pos_passed s timeout (last pre) ->
  nested ((pre ++ suf) :: rows) ->
  exists cs, rows_walk timeout (last pre) rows s = Ok ((fun c => last c.1) <$> cs) s /\
    rows = row_of <$> cs /\ cuts_nested ((pre, suf) :: cs) /\
    Forall (fun c => at_stop s timeout c.2 /\ pos_passed s timeout (last c.1)) cs.
Proof.
  revert pre suf. induction rows as [|row rows IH]; intros pre suf Hmem Hnd Hstop Hpos Hn.
  { exists []. by split_and!. }
  destruct Hn as [Hsub Hn].
  destruct (next_cut pre suf row) as (pre1 & suf1 & -> & Hl & Hp & Hs); [by apply Hnd; set_solver|done|].
  destruct (row_walk_run s timeout (last pre) suf1) as (w & rest & -> & Hw & Hr & E).
  { intros t Ht. apply (Hmem (pre1 ++ suf1)); set_solver. }
  assert (Hadv : advance (last pre) w = last (pre1 ++ w)).
  { unfold advance. rewrite last_app, Hl. by destruct (last w). }
  rewrite app_assoc in Hn, Hnd.
  assert (Hpos1 : pos_passed s timeout (last (pre1 ++ w)))
    by (rewrite <- Hadv; by apply advance_passed).
  destruct (IH (pre1 ++ w) rest) as (cs & Ec & Er & Hc & Hf);
    [intros; eapply Hmem; [|done]; set_solver|intros; apply Hnd; set_solver|done|done|done|].
  exists ((pre1 ++ w, rest) :: cs). cbn [rows_walk].
  rewrite <- Hl at 1. rewrite row_from_cut by (rewrite app_assoc; apply Hnd; set_solver).
  unfold of_option at 1. rewrite bind_mret, (bind_ok _ _ _ _ _ E), Hadv.
  rewrite (bind_ok _ _ _ _ _ Ec). split_and!.
  - done.
  - cbn. unfold row_of at 1. cbn. by rewrite app_assoc, Er.
  - cbn. split; [|exact Hc]. split; [by apply sublist_inserts_r|].
    by eapply sublist_past.
  - by constructor.
Qed.

(** ** The insertion *)

Definition row_with (t : addr) (c : cut) : list addr := c.1 ++ t :: c.2.

Lemma rows_promote_cut t tst cs :
  Forall (fun c => NoDup (row_of c)) cs ->
  exists cs1 cs2, cs = cs1 ++ cs2 /\
    rows_promote t tst ((fun c => last c.1) <$> cs) (row_of <$> cs) =
      (row_with t <$> cs1) ++ (row_of <$> cs2).
Proof.
  intros Hf. revert tst. induction Hf as [|c cs Hc Hf IH]; intros tst; [by exists [], []|].
  cbn. case_match; [|by exists [], (c :: cs)].
  destruct (IH (Z.shiftr tst (Z.shiftr (RT_TIMER_SKIP_LIST_MASK + 1) 1)))
    as (cs1 & cs2 & -> & E).
  exists (c :: cs1), cs2. split; [done|]. cbn in *. rewrite E. f_equal.
  by apply row_insert_cut.
Qed.

Lemma rev_fmap {A B} (f : A -> B) l : rev (f <$> l) = f <$> rev l.
Proof. symmetry. apply map_rev. Qed.

(** The rows from some row on, the last one included, get the timer. *)
Lemma rows_insert_cut t tst cs :
  Forall (fun c => NoDup (row_of c)) cs -> cs <> [] ->
  exists cs1 cs2, cs = cs1 ++ cs2 /\ cs2 <> [] /\
    rows_insert t tst ((fun c => last c.1) <$> cs) (row_of <$> cs) =
      (row_of <$> cs1) ++ (row_with t <$> cs2).
Proof.
  intros Hf Hne. destruct cs as [|c cs _] using rev_ind; [done|].
  apply Forall_app in Hf as [Hf Hc]. rewrite Forall_singleton in Hc.
  unfold rows_insert. rewrite !fmap_app, !rev_app_distr. cbn [rev fmap list_fmap app].
  rewrite !rev_fmap.
  assert (row_insert (last c.1) t (row_of c) = row_with t c) as -> by by apply row_insert_cut.
  destruct (rows_promote_cut t tst (rev cs)) as (d1 & d2 & E & ->).
  { by apply Forall_rev. }
  apply (f_equal (@rev cut)) in E. rewrite rev_involutive, rev_app_distr in E.
  exists (rev d2), (rev d1 ++ [c]). split; [by rewrite E, <- app_assoc|].
  split; [by destruct (rev d1)|].
  cbn [rev]. rewrite rev_app_distr, !rev_fmap, fmap_app, app_assoc. done.
Qed.

Lemma cuts_nested_tail c cs : cuts_nested (c :: cs) -> cuts_nested cs.
Proof. destruct cs; [done|]. by intros [_ ?]. Qed.

Lemma nested_with t cs1 cs2 :
  cuts_nested (cs1 ++ cs2) -> nested ((row_of <$> cs1) ++ (row_with t <$> cs2)).
Proof.
  induction cs1 as [|c cs1 IH]; simpl.
  - induction cs2 as [|c cs2 IH]; [done|]. intros Hn. specialize (IH (cuts_nested_tail _ _ Hn)).
    destruct cs2 as [|c2 cs2]; [done|]. cbn. destruct Hn as [[H1 H2] _]. split; [|done].
    apply sublist_app; [done|]. by apply sublist_skip.
  - intros Hn. specialize (IH (cuts_nested_tail _ _ Hn)).
    destruct cs1 as [|c1 cs1]; [destruct cs2 as [|c2 cs2]; [done|]|];
      destruct Hn as [[H1 H2] _]; (split; [|exact IH]).
    + apply sublist_app; [done|]. by apply sublist_cons.
    + by apply sublist_app.
Qed.

Lemma filter_sublist (P : addr -> Prop) `{!forall x, Decision (P x)} l1 l2 :
  l1 `sublist_of` l2 -> filter P l1 `sublist_of` filter P l2.
Proof.
  induction 1 as [|x l1 l2 Hs IH|x l1 l2 Hs IH]; [done| |];
    rewrite !filter_cons; case_decide; try (by constructor); done.
Qed.

Definition without (t : addr) (row : list addr) : list addr := filter (fun x => x <> t) row.

Lemma nested_without t rows : nested rows -> nested (without t <$> rows).
Proof.
  induction rows as [|r rows IH]; [done|]. destruct rows as [|r2 rows]; [done|].
  intros [H1 H2]. split; [by apply filter_sublist|by apply IH].
Qed.

Lemma elem_of_without x t l : x ∈ without t l <-> x ∈ l /\ x <> t.
Proof. unfold without. rewrite list_elem_of_filter. tauto. Qed.

Lemma nested_sub rows last row :
  nested (rows ++ [last]) -> row ∈ rows ++ [last] -> row `sublist_of` last.
Proof.
  revert row. induction rows as [|r rows IH]; simpl; intros row Hn Hin.
  - apply list_elem_of_singleton in Hin as ->. done.
  - assert (Hn' : nested (rows ++ [last])) by (destruct rows; [done|by destruct Hn]).
    apply elem_of_cons in Hin as [->|Hin]; [|by apply IH].
    destruct rows as [|r2 rows]; simpl in *.
    + by destruct Hn.
    + destruct Hn as [Hs _]. etrans; [exact Hs|]. apply IH; [done|set_solver].
Qed.

(** The rows as upper rows and the last one. *)
Lemma twf_rows s : twf s -> exists up, ts_rows s = up ++ [last_row s].
Proof.
  intros Hw. pose proof (tw_len _ Hw) as Hl. pose proof cfg_level.
  destruct (ts_rows s) as [|r up _] eqn:E using rev_ind; [simpl in Hl; lia|].
  exists up. do 2 f_equal. unfold last_row. rewrite E.
  rewrite length_app in Hl. simpl in Hl.
  rewrite lookup_app_r by lia. replace (_ - 1 - length up)%nat with O by lia. done.
Qed.

Lemma last_row_app s up r :
  ts_rows s = up ++ [r] -> length (ts_rows s) = RT_TIMER_SKIP_LIST_LEVEL -> last_row s = r.
Proof.
  intros E Hl. unfold last_row. rewrite E in *. rewrite length_app in Hl. simpl in Hl.
  rewrite lookup_app_r by lia. by replace (_ - 1 - length up)%nat with O by lia.
Qed.

Lemma twf_row_sub s row : twf s -> row ∈ ts_rows s -> row `sublist_of` last_row s.
Proof.
  intros Hw Hin. destruct (twf_rows s Hw) as [up E]. rewrite E in Hin.
  eapply nested_sub; [|exact Hin]. rewrite <- E. apply Hw.
Qed.

Lemma twf_row_nodup s row : twf s -> row ∈ ts_rows s -> NoDup row.
Proof. intros Hw Hin. eapply sublist_NoDup; [by apply tw_nodup|by apply twf_row_sub]. Qed.

(** ** Running the operations *)

Definition ts_remove (t : addr) (s : tsys) : tsys := put_rows (without t <$> ts_rows s) s.

Lemma upd_timer_run s t f tm :
  ts_timers s !! t = Some tm -> upd_timer t f s = Ok tt (put_timer t (f tm) s).
Proof. intros E. unfold upd_timer. by rewrite (bind_ok _ _ _ _ _ (get_timer_run _ _ _ E)). Qed.

Lemma timer_remove_run s t tm :
  ts_timers s !! t = Some tm -> _rt_timer_remove t s = Ok tt (ts_remove t s).
Proof. intros E. unfold _rt_timer_remove. by rewrite (bind_ok _ _ _ _ _ (get_timer_run _ _ _ E)). Qed.

Lemma last_row_remove t s : last_row (ts_remove t s) = without t (last_row s).
Proof.
  unfold last_row, ts_remove. cbn. rewrite list_lookup_fmap.
  by destruct (ts_rows s !! _).
Qed.

Lemma twf_remove s t : twf s -> twf (ts_remove t s).
Proof.
  intros [Hl Hn Hd Hm]. split.
  - cbn. by rewrite length_fmap.
  - by apply nested_without.
  - rewrite last_row_remove. by apply NoDup_filter.
  - intros x. rewrite last_row_remove, elem_of_without. intros [? _]. by apply Hm.
Qed.

Lemma twf_put s t tm : twf s -> twf (put_timer t tm s).
Proof.
  intros [Hl Hn Hd Hm]. split; [done..|]. intros x Hx. cbn.
  destruct (decide (x = t)) as [->|]; simplify_map_eq; [by eexists|]. by apply Hm.
Qed.

(** The record of a started timer. *)
Definition timer_started (timeout : Z) (tm : rt_timer) : rt_timer :=
  let tm1 := deactivate tm in
  let tm2 := {| tm1 with tm_timeout_tick := timeout |} in
  set_flag (fun f => Z.lor f RT_TIMER_FLAG_ACTIVATED) tm2.

Lemma stops_insert s s' timeout x t tm :
  x <> t -> ts_timers s' = <[t := tm]> (ts_timers s) ->
  stops s' timeout x <-> stops s timeout x.
Proof. intros Hn E. unfold stops. rewrite E, lookup_insert_ne by done. done. Qed.

Lemma passes_insert s s' timeout x t tm :
  x <> t -> ts_timers s' = <[t := tm]> (ts_timers s) ->
  passes s' timeout x <-> passes s timeout x.
Proof. intros Hn E. unfold passes. rewrite E, lookup_insert_ne by done. done. Qed.

Lemma rows_of_cuts s up cs :
  ts_rows s = row_of <$> cs -> ts_rows s = up ++ [last_row s] ->
  exists cs0 c, cs = cs0 ++ [c] /\ row_of c = last_row s.
Proof.
  intros E1 E2. destruct cs as [|c cs0 _] using rev_ind; [rewrite E1 in E2; by destruct up|].
  exists cs0, c. split; [done|]. rewrite E1, fmap_app in E2. by apply app_inj_tail in E2 as [_ ?].
Qed.

(** The search and the insertion, on a state whose rows do not hold [t]. *)
Lemma search_insert_run s t timeout tst :
  twf s -> t ∉ last_row s -> is_Some (ts_timers s !! t) ->
  exists heads pre suf,
    rows_walk timeout None (ts_rows s) s = Ok heads s /\
    last_row s = pre ++ suf /\ at_stop s timeout suf /\ pos_passed s timeout (last pre) /\
    let s' := put_rows (rows_insert t tst heads (ts_rows s)) s in
    twf s' /\ last_row s' = pre ++ t :: suf.
Proof.
  intros Hw Ht Hex. destruct (twf_rows s Hw) as [up Eup].
  destruct (rows_walk_run s timeout (ts_rows s) [] []) as (cs & E & Er & Hc & Hf).
  - intros row x Hrow Hx. apply (tw_mem _ Hw).
    eapply sublist_subseteq; [by apply twf_row_sub|done].
  - intros row. by apply twf_row_nodup.
  - done.
  - done.
  - cbn. destruct (ts_rows s) eqn:Es; [done|]. split; [apply sublist_nil_l|].
    rewrite <- Es. apply Hw.
  - destruct (rows_of_cuts s up cs Er Eup) as (cs0 & c & -> & Ec).
    destruct (rows_insert_cut t tst (cs0 ++ [c])) as (cs1 & cs2 & Ecs & Hne & Ei); [|by destruct cs0|].
    { apply Forall_forall. intros c' Hc'. eapply twf_row_nodup; [exact Hw|].
      rewrite Er. apply list_elem_of_fmap. by exists c'. }
    apply cuts_nested_tail in Hc. rewrite Ecs in Hc.
    destruct cs2 as [|c2 cs2 _] using rev_ind; [done|].
    assert (c2 = c) as -> by (rewrite app_assoc in Ecs; by apply app_inj_tail in Ecs as [_ ->]).
    apply Forall_app in Hf as [_ Hf]. rewrite Forall_singleton in Hf.
    exists ((fun c => last c.1) <$> (cs0 ++ [c])), c.1, c.2.
    split; [done|]. split; [done|]. split; [apply Hf|]. split; [apply Hf|]. cbv zeta.
    rewrite Er, Ei. set (rows' := _ ++ _).
    assert (Hlen : length rows' = RT_TIMER_SKIP_LIST_LEVEL).
    { unfold rows'. rewrite length_app, !length_fmap, <- length_app, <- Ecs.
      by rewrite <- (tw_len _ Hw), Er, length_fmap. }
    assert (Hlast : last_row (put_rows rows' s) = c.1 ++ t :: c.2).
    { eapply last_row_app; [|exact Hlen]. cbn. unfold rows'. rewrite fmap_app, app_assoc. done. }
    split; [|exact Hlast]. split; [exact Hlen|by apply nested_with| |].
    + rewrite Hlast, <- Permutation_middle. apply NoDup_cons. fold (row_of c). rewrite Ec.
      split; [done|apply Hw].
    + intros x. rewrite Hlast. intros Hx. cbn.
      assert (x = t \/ x ∈ last_row s) as [->|Hx'] by (rewrite <- Ec; unfold row_of; set_solver); [done|].
      by apply Hw.
Qed.

Lemma at_stop_insert s s' timeout suf t tm :
  t ∉ suf -> ts_timers s' = <[t := tm]> (ts_timers s) ->
  at_stop s' timeout suf -> at_stop s timeout suf.
Proof. destruct suf; [done|]. intros Hn E. apply (stops_insert s s' timeout _ t tm); set_solver. Qed.

Lemma pos_passed_insert s s' timeout pre t tm :
  t ∉ pre -> ts_timers s' = <[t := tm]> (ts_timers s) ->
  pos_passed s' timeout (last pre) -> pos_passed s timeout (last pre).
Proof.
  intros Hn E. destruct (last pre) as [a|] eqn:El; [|done].
  apply last_Some in El as [l ->]. apply (passes_insert s s' timeout _ t tm); set_solver.
Qed.

(** [rt_timer_start]: the timer is linked where the search stopped, active,
    and due [init_tick] ticks from now. *)
Lemma timer_start_run s t tm :
  twf s -> ts_timers s !! t = Some tm -> tm_init_tick tm < RT_TICK_MAX / 2 ->
  let timeout := u32 (ts_tick s + tm_init_tick tm) in
  exists s' pre suf, timer_start t s = Ok RT_EOK s' /\ twf s' /\
    ts_timers s' = <[t := timer_started timeout tm]> (ts_timers s) /\
    ts_tick s' = ts_tick s /\
    without t (last_row s) = pre ++ suf /\ last_row s' = pre ++ t :: suf /\
    at_stop s timeout suf /\ pos_passed s timeout (last pre).
Proof.
  intros Hw Ht Hi timeout. unfold timer_start.
  rewrite (bind_ok _ _ _ _ _ (timer_remove_run _ _ _ Ht)).
  set (s1 := ts_remove t s). assert (Ht1 : ts_timers s1 !! t = Some tm) by done.
  rewrite (bind_ok _ _ _ _ _ (upd_timer_run _ _ _ _ Ht1)).
  set (s2 := put_timer t _ s1).
  assert (Ht2 : ts_timers s2 !! t = Some (deactivate tm)) by apply lookup_insert_eq.
  rewrite (bind_ok _ _ _ _ _ (get_timer_run _ _ _ Ht2)).
  rewrite bind_assert by by apply Z.ltb_lt. unfold rt_tick_get. rewrite bind_gets. cbv zeta.
  change (u32 (ts_tick s2 + tm_init_tick (deactivate tm))) with timeout.
  rewrite (bind_ok _ _ _ _ _ (upd_timer_run _ _ _ _ Ht2)).
  set (tm3 := let tm := deactivate tm in {| tm with tm_timeout_tick := timeout |}).
  set (s3 := put_timer t _ s2). rewrite bind_gets.
  assert (Hw3 : twf s3) by (apply twf_put, twf_put, twf_remove, Hw).
  assert (Hl3 : last_row s3 = without t (last_row s)) by apply last_row_remove.
  assert (Hex : is_Some (ts_timers s3 !! t)) by (eexists; apply lookup_insert_eq).
  destruct (search_insert_run s3 t timeout (u32 (ts_random_nr s3 + 1)) Hw3)
    as (heads & pre & suf & E & Hl & Hs & Hp & Hw4 & Hl4); [|done|].
  { rewrite Hl3, elem_of_without. tauto. }
  rewrite (bind_ok _ _ _ _ _ E), bind_modify, bind_gets, bind_modify.
  set (s4 := put_rows _ _). cbv zeta in Hw4, Hl4.
  assert (Ht4 : ts_timers s4 !! t = Some tm3) by apply lookup_insert_eq.
  rewrite (bind_ok _ _ _ _ _ (upd_timer_run _ _ _ _ Ht4)).
  assert (Hin : (t ∉ pre) /\ (t ∉ suf)).
  { rewrite <- not_elem_of_app, <- Hl, Hl3, elem_of_without. tauto. }
  assert (E3 : ts_timers s3 = <[t := tm3]> (ts_timers s)) by apply insert_insert_eq.
  eexists _, pre, suf. split; [done|]. split.
  { apply twf_put. destruct Hw4. by split. }
  split; [cbn; by rewrite !insert_insert_eq|]. split; [done|].
  split; [by rewrite <- Hl3|]. split; [exact Hl4|].
  split; [eapply at_stop_insert|eapply pos_passed_insert]; eauto; tauto.
Qed.

(** [rt_timer_stop]. *)
Definition ts_stop (t : addr) (s : tsys) : tsys :=
  match ts_timers s !! t with
  | Some tm => if activated tm then put_timer t (deactivate tm) (ts_remove t s) else s
  | None => s
  end.

Lemma timer_stop_run s t tm :
  ts_timers s !! t = Some tm -> exists r, timer_stop t s = Ok r (ts_stop t s).
Proof.
  intros Ht. unfold timer_stop, ts_stop. rewrite Ht.
  rewrite (bind_ok _ _ _ _ _ (get_timer_run _ _ _ Ht)).
  destruct (activated tm); cbn [negb]; [|by eexists].
  rewrite (bind_ok _ _ _ _ _ (timer_remove_run _ _ _ Ht)).
  assert (Ht1 : ts_timers (ts_remove t s) !! t = Some tm) by done.
  rewrite (bind_ok _ _ _ _ _ (upd_timer_run _ _ _ _ Ht1)). by eexists.
Qed.

Lemma twf_stop s t : twf s -> twf (ts_stop t s).
Proof.
  intros Hw. unfold ts_stop. destruct (ts_timers s !! t); [|done].
  case_match; [|done]. by apply twf_put, twf_remove.
Qed.

(** ** Expiry order *)

(** Ticks from [base] to the expiry of a timer, on the 32-bit tick circle. *)
Definition due (base : Z) (s : tsys) (t : addr) : Z :=
  from_option (fun tm => u32 (tm_timeout_tick tm - base)) 0 (ts_timers s !! t).

(** The last row is in expiry order and reaches less than half the circle
    ahead of [base]. *)
Definition ordered (base : Z) (s : tsys) : Prop :=
  (forall t, t ∈ last_row s -> due base s t < RT_TICK_MAX / 2) /\
  StronglySorted (fun a b => due base s a <= due base s b) (last_row s).

(** The reference insertion: after every timer that expires no later. *)
Fixpoint ins_due (base : Z) (s : tsys) (d : Z) (t : addr) (row : list addr) : list addr :=
  match row with
  | [] => [t]
  | x :: r => if due base s x <=? d then x :: ins_due base s d t r else t :: x :: r
  end.

Lemma u32_sub_sub a b c : u32 (u32 (a - c) - u32 (b - c)) = u32 (a - b).
Proof. unfold u32. rewrite <- Zminus_mod. f_equal. lia. Qed.

Lemma u32_neg x : - 2147483648 <= x < 0 -> u32 x = x + 4294967296.
Proof. intros Hx. unfold u32. rewrite <- (Z.mod_add x 1), Z.mod_small; lia. Qed.

Lemma stops_due base s timeout t :
  stops s timeout t -> due base s t < RT_TICK_MAX / 2 -> u32 (timeout - base) < RT_TICK_MAX / 2 ->
  u32 (timeout - base) < due base s t.
Proof.
  intros (tm & E & Hd). unfold due. rewrite E. cbv zeta in Hd. cbn [from_option].
  rewrite <- (u32_sub_sub _ _ base) in Hd. change (RT_TICK_MAX / 2) with 2147483647 in *.
  pose proof (u32_range (tm_timeout_tick tm - base)). pose proof (u32_range (timeout - base)).
  set (a := u32 (tm_timeout_tick tm - base)) in *. set (b := u32 (timeout - base)) in *.
  intros. destruct (Z.lt_ge_cases b a); [done|].
  destruct (Z.eq_dec a b) as [e|]; [rewrite e, Z.sub_diag in Hd; by destruct Hd|].
  rewrite u32_neg in Hd by lia. lia.
Qed.

Lemma passes_due base s timeout t :
  passes s timeout t -> due base s t < RT_TICK_MAX / 2 -> u32 (timeout - base) < RT_TICK_MAX / 2 ->
  due base s t <= u32 (timeout - base).
Proof.
  intros (tm & E & Hd). unfold due. rewrite E. cbv zeta in Hd. cbn [from_option].
  rewrite <- (u32_sub_sub _ _ base) in Hd. change (RT_TICK_MAX / 2) with 2147483647 in *.
  pose proof (u32_range (tm_timeout_tick tm - base)). pose proof (u32_range (timeout - base)).
  set (a := u32 (tm_timeout_tick tm - base)) in *. set (b := u32 (timeout - base)) in *.
  intros. destruct (Z.lt_ge_cases b a); [|lia].
  rewrite u32_small in Hd by lia. lia.
Qed.

Lemma due_insert base s s' t tm x :
  x <> t -> ts_timers s' = <[t := tm]> (ts_timers s) -> due base s' x = due base s x.
Proof. intros Hn E. unfold due. by rewrite E, lookup_insert_ne. Qed.

Lemma ins_due_cut base s d t pre suf :
  (forall x, x ∈ pre -> due base s x <= d) ->
  match suf with [] => True | x :: _ => d < due base s x end ->
  ins_due base s d t (pre ++ suf) = pre ++ t :: suf.
Proof.
  induction pre as [|x pre IH]; simpl; intros Hp Hs.
  - destruct suf as [|x suf]; [done|]. simpl. rewrite (proj2 (Z.leb_gt _ _) Hs). done.
  - rewrite (proj2 (Z.leb_le _ _) (Hp x ltac:(set_solver))). f_equal. apply IH; [set_solver|done].
Qed.

Lemma StronglySorted_app_inv {A} (R : A -> A -> Prop) l1 l2 :
  StronglySorted R (l1 ++ l2) ->
  StronglySorted R l1 /\ StronglySorted R l2 /\ forall x y, x ∈ l1 -> y ∈ l2 -> R x y.
Proof.
  induction l1 as [|a l1 IH]; simpl; intros Hs.
  - split_and!; [constructor|done|set_solver].
  - apply StronglySorted_inv in Hs as [Hs Hf]. destruct (IH Hs) as (H1 & H2 & H3).
    rewrite Forall_app in Hf. destruct Hf as [F1 F2]. split_and!; [by constructor|done|].
    intros x y [->|Hx]%elem_of_cons Hy; [|by apply H3]. rewrite Forall_forall in F2. by apply F2.
Qed.

Lemma StronglySorted_app_intro {A} (R : A -> A -> Prop) l1 l2 :
  StronglySorted R l1 -> StronglySorted R l2 -> (forall x y, x ∈ l1 -> y ∈ l2 -> R x y) ->
  StronglySorted R (l1 ++ l2).
Proof.
  induction l1 as [|a l1 IH]; simpl; intros H1 H2 H3; [done|].
  apply StronglySorted_inv in H1 as [Hs Hf]. constructor; [apply IH; set_solver|].
  apply Forall_app. split; [done|]. apply Forall_forall. intros y Hy. apply H3; set_solver.
Qed.

Lemma StronglySorted_filter {A} (R : A -> A -> Prop) (P : A -> Prop) `{!forall x, Decision (P x)} l :
  StronglySorted R l -> StronglySorted R (filter P l).
Proof.
  induction 1 as [|a l Hs IH Hf]; [constructor|]. rewrite filter_cons.
  case_decide; [|done]. constructor; [done|]. rewrite Forall_forall in *.
  intros x Hx. apply list_elem_of_filter in Hx as [_ Hx]. by apply Hf.
Qed.

Lemma StronglySorted_ext {A} (R R' : A -> A -> Prop) l :
  (forall x y, x ∈ l -> y ∈ l -> R x y -> R' x y) -> StronglySorted R l -> StronglySorted R' l.
Proof.
  intros He. induction 1 as [|a l Hs IH Hf]; [constructor|]. constructor.
  - apply IH. intros. apply He; set_solver.
  - rewrite Forall_forall in *. intros x Hx. apply He; [set_solver..|by apply Hf].
Qed.

(** Where the search stops is where the reference insertion puts the timer. *)
Lemma search_is_ins_due base s t timeout pre suf :
  ordered base s -> without t (last_row s) = pre ++ suf ->
  at_stop s timeout suf -> pos_passed s timeout (last pre) ->
  u32 (timeout - base) < RT_TICK_MAX / 2 ->
  let d := u32 (timeout - base) in
  (forall x, x ∈ pre -> due base s x <= d) /\ (forall x, x ∈ suf -> d <= due base s x) /\
  ins_due base s d t (pre ++ suf) = pre ++ t :: suf.
Proof.
  intros [Hwin Hs] E Hst Hpp Hd d.
  assert (Hwin' : forall x, x ∈ pre ++ suf -> due base s x < RT_TICK_MAX / 2).
  { intros x. rewrite <- E, elem_of_without. intros [? _]. by apply Hwin. }
  apply (StronglySorted_filter _ (fun x => x <> t)) in Hs. fold (without t (last_row s)) in Hs.
  rewrite E in Hs. apply StronglySorted_app_inv in Hs as (S1 & S2 & _).
  assert (H1 : forall x, x ∈ pre -> due base s x <= d).
  { destruct pre as [|a pre _] using rev_ind; [set_solver|].
    rewrite last_snoc in Hpp. apply (passes_due base) in Hpp; [|apply Hwin'; set_solver|done].
    apply StronglySorted_app_inv in S1 as (_ & _ & S1).
    intros x [Hx|Hx]%elem_of_app; [|set_solver].
    etransitivity; [apply (S1 x a); [done|set_solver]|done]. }
  assert (H2 : match suf with [] => True | x :: _ => d < due base s x end).
  { destruct suf as [|x suf]; [done|]. apply stops_due; [done|apply Hwin'; set_solver|done]. }
  split_and!; [done| |by apply ins_due_cut].
  intros y Hy. destruct suf as [|x suf]; [set_solver|].
  apply StronglySorted_inv in S2 as [_ S2]. rewrite Forall_forall in S2.
  apply elem_of_cons in Hy as [->|Hy]; [lia|]. specialize (S2 y Hy). simpl in S2. lia.
Qed.

(** ** Keeping the order *)

Lemma StronglySorted_sublist {A} (R : A -> A -> Prop) l1 l2 :
  l1 `sublist_of` l2 -> StronglySorted R l2 -> StronglySorted R l1.
Proof.
  induction 1 as [|x l1 l2 Hs IH|x l1 l2 Hs IH]; intros H; [done| |].
  - apply StronglySorted_inv in H as [H1 H2]. constructor; [by apply IH|].
    rewrite Forall_forall in *. intros y Hy. apply H2. by eapply elem_of_sublist.
  - apply StronglySorted_inv in H as [H1 H2]. by apply IH.
Qed.

Lemma ordered_sub base s s' :
  ordered base s -> last_row s' `sublist_of` last_row s ->
  (forall a, a ∈ last_row s' -> due base s' a = due base s a) -> ordered base s'.
Proof.
  intros [H1 H2] Hs Hd. split.
  - intros a Ha. rewrite Hd by done. apply H1. by eapply elem_of_sublist.
  - eapply StronglySorted_ext; [|by eapply StronglySorted_sublist].
    intros x y Hx Hy Hxy. by rewrite !Hd.
Qed.

Lemma without_sublist t l : without t l `sublist_of` l.
Proof.
  induction l as [|x l IH]; [done|]. unfold without in *. rewrite filter_cons.
  destruct (decide (x <> t)); by constructor.
Qed.

(** The row after a start is in order again, with the timer at its expiry. *)
Lemma ordered_start base s s' t tm timeout pre suf :
  ordered base s -> without t (last_row s) = pre ++ suf -> last_row s' = pre ++ t :: suf ->
  ts_timers s' = <[t := timer_started timeout tm]> (ts_timers s) ->
  at_stop s timeout suf -> pos_passed s timeout (last pre) ->
  u32 (timeout - base) < RT_TICK_MAX / 2 ->
  ordered base s' /\ due base s' t = u32 (timeout - base) /\
  last_row s' = ins_due base s (u32 (timeout - base)) t (without t (last_row s)) /\
  (forall x, x <> t -> due base s' x = due base s x).
Proof.
  intros Ho Hc Hr Et Hst Hpp Hd.
  destruct (search_is_ins_due base s t timeout pre suf Ho Hc Hst Hpp Hd) as (H1 & H2 & H3).
  assert (Hdt : due base s' t = u32 (timeout - base)).
  { unfold due. by rewrite Et, lookup_insert_eq. }
  assert (Hdx : forall x, x <> t -> due base s' x = due base s x).
  { intros x Hx. by eapply due_insert. }
  assert (Hin : forall x, x ∈ pre ++ suf -> x <> t /\ x ∈ last_row s).
  { intros x Hx. rewrite <- Hc in Hx. apply elem_of_without in Hx. tauto. }
  assert (Hs : StronglySorted (fun a b => due base s' a <= due base s' b) (pre ++ suf)).
  { eapply StronglySorted_ext; [|rewrite <- Hc; apply (StronglySorted_sublist _ _ _ (without_sublist t _)), Ho].
    intros x y [Hx _]%Hin [Hy _]%Hin. by rewrite !Hdx. }
  split; [|split; [done|split; [by rewrite Hr, Hc|done]]].
  split.
  - intros x. rewrite Hr, elem_of_app, elem_of_cons. intros Hx.
    destruct (decide (x = t)) as [->|Hne]; [by rewrite Hdt|]. rewrite Hdx by done.
    apply Ho. apply Hin. rewrite elem_of_app. destruct Hx as [?|[?|?]]; auto; done.
  - rewrite Hr. apply StronglySorted_app_inv in Hs as (S1 & S2 & S3).
    apply StronglySorted_app_intro; [done| |].
    + constructor; [done|]. apply Forall_forall. intros y Hy. rewrite Hdt, Hdx; [by apply H2|].
      apply Hin. set_solver.
    + intros x y Hx [->|Hy]%elem_of_cons; [|by apply S3].
      rewrite Hdt, Hdx; [by apply H1|]. apply Hin. set_solver.
Qed.

End Inv.
