(* ===== verification/Kernel.v ===== *)
(** * Kernel state, object allocation and timers

    The state of the whole kernel as the product of its components, the heap
    behind an interface, the operations of src/object.c that allocate and free
    memory, and the operations of src/timer.c with their parameter checks. *)

From S2P Require Import Prelude Scheduler Object Timer.

(** ** The heap interface

    [heap_malloc] and [heap_free] stand for [rt_malloc] and [rt_free] called
    in thread context; the allocator of src/mem.c is an instance. *)

Class Heap := {
  heap : Type;
  heap_malloc : Z -> M heap Z;
  heap_free : Z -> M heap unit
}.

(** What the kernel relies on: [heap_live h] are the addresses handed out and
    not freed; an allocation fails with RT_NULL or hands out a new address of
    the heap's own memory [heap_area]; live addresses and RT_NULL can be
    freed. *)
Class HeapOk (HP : Heap) := {
  heap_ok : heap -> Prop;
  heap_live : heap -> gset Z;
  heap_area : Z -> Prop;
  heap_live_area : forall h p, heap_ok h -> p ∈ heap_live h -> heap_area p /\ 0 < p;
  heap_malloc_ok : forall h n, heap_ok h -> exists p h',
    heap_malloc n h = Ok p h' /\ heap_ok h' /\
    ((p = RT_NULL /\ heap_live h' = heap_live h) \/
     (heap_area p /\ (p ∉ heap_live h) /\ 0 < p /\ heap_live h' = {[p]} ∪ heap_live h));
  heap_free_ok : forall h p, heap_ok h -> p ∈ heap_live h \/ p = RT_NULL ->
    exists h', heap_free p h = Ok tt h' /\ heap_ok h' /\ heap_live h' = heap_live h ∖ {[p]}
}.

(** ** IPC objects and memory pools (include/rtdef.h)

    The waiters of an object are the thread list [HSuspend o] of the
    scheduler, and the waiting senders of a mailbox the list [HSender o].  The
    memory of a mailbox or message queue is kept with it. *)

Record rt_semaphore := mk_sem { sem_flag : Z; sem_value : Z }.

Record rt_mutex := mk_mutex {
  mutex_flag : Z;
  mutex_value : Z;
  mutex_original_priority : Z;
  mutex_hold : Z;
  mutex_owner : Z
}.

Record rt_event := mk_event { event_flag : Z; event_set : Z }.

Record rt_mailbox := mk_mailbox {
  mb_flag : Z;
  mb_msg_pool : Z;
  mb_msgs : list Z;
  mb_size : Z;
  mb_entry : Z;
  mb_in_offset : Z;
  mb_out_offset : Z
}.

(** A message slot: its [next] field and the bytes after it. *)
Record rt_mq_message := mk_msg { msg_next : Z; msg_data : list Z }.

Record rt_messagequeue := mk_mq {
  mq_flag : Z;
  mq_msg_pool : Z;
  mq_mem : gmap Z rt_mq_message;
  mq_msg_size : Z;
  mq_max_msgs : Z;
  mq_entry : Z;
  mq_queue_head : Z;
  mq_queue_tail : Z;
  mq_queue_free : Z
}.

Record rt_mempool := mk_mp {
  mp_start_address : Z;
  mp_pool_size : Z;
  mp_block_size : Z;
  mp_block_list : Z;
  mp_block_total_count : Z;
  mp_block_free_count : Z;
  mp_suspend_thread_count : Z
}.

(** [ip_words] are the words in front of the blocks of the memory pools: the
    next free block, or the pool the block belongs to while it is
    allocated. *)
Record ipcs := mk_ipcs {
  ip_sem : gmap Z rt_semaphore;
  ip_mutex : gmap Z rt_mutex;
  ip_event : gmap Z rt_event;
  ip_mb : gmap Z rt_mailbox;
  ip_mq : gmap Z rt_messagequeue;
  ip_mp : gmap Z rt_mempool;
  ip_words : gmap Z Z
}.

Section Kernel.
Context {CF : Config} {HP : Heap}.

Record kstate := mk_kstate {
  k_sched : sched;
  k_ts : tsys;
  k_obj : objsys;
  k_ipc : ipcs;
  k_heap : heap;
  k_errno : Z   (* [__rt_errno], for code outside threads *)
}.

Abbreviation K := (M kstate).

Definition put_sched (x : sched) (k : kstate) : kstate := {| k with k_sched := x |}.
Definition put_ts (x : tsys) (k : kstate) : kstate := {| k with k_ts := x |}.
Definition put_obj (x : objsys) (k : kstate) : kstate := {| k with k_obj := x |}.
Definition put_ipc (x : ipcs) (k : kstate) : kstate := {| k with k_ipc := x |}.
Definition put_heap (x : heap) (k : kstate) : kstate := {| k with k_heap := x |}.
Definition put_errno (e : Z) (k : kstate) : kstate := {| k with k_errno := e |}.

Definition liftS {A} (m : M sched A) : K A := zoom k_sched put_sched m.
Definition liftT {A} (m : M tsys A) : K A := zoom k_ts put_ts m.
Definition liftO {A} (m : M objsys A) : K A := zoom k_obj put_obj m.
Definition liftH {A} (m : M heap A) : K A := zoom k_heap put_heap m.

(** ** Context checks (include/rtdebug.h) *)

Definition RT_DEBUG_NOT_IN_INTERRUPT : K unit :=
  nest ← liftS rt_interrupt_get_nest;
  RT_ASSERT (nest =? 0).

Definition RT_DEBUG_IN_THREAD_CONTEXT : K unit :=
  self ← liftS rt_thread_self;
  RT_ASSERT (negb (self =? RT_NULL));;
  RT_DEBUG_NOT_IN_INTERRUPT.

(** [RT_ASSERT(rt_object_get_type(o) == class)] and the system-object check. *)
Definition assert_type (o : addr) (class : Z) : K unit :=
  ty ← liftO (rt_object_get_type o);
  RT_ASSERT (ty =? class).
Definition assert_systemobject (o : addr) (b : bool) : K unit :=
  sys ← liftO (rt_object_is_systemobject o);
  RT_ASSERT (Bool.eqb sys b).

(** ** Memory

    [rt_malloc] and [rt_free] check the context themselves, after the early
    return for an empty request. *)

Definition RT_KERNEL_MALLOC (size : Z) : K Z :=
  when (negb (size =? 0)) RT_DEBUG_NOT_IN_INTERRUPT;;
  liftH (heap_malloc size).

(** Does some kernel list still link to a structure at [p]? *)
Definition in_use (p : Z) (k : kstate) : bool :=
  linked p (k_sched k) ||
  bool_decide (default [] (sc_lists (k_sched k) !! HSuspend p) <> []) ||
  bool_decide (default [] (sc_lists (k_sched k) !! HSender p) <> []) ||
  timer_linked (AObj p) (k_ts k) || timer_linked (ATimer p) (k_ts k) ||
  object_linked (AObj p) (k_obj k) || object_linked (ATimer p) (k_obj k).

(** The structures at [p] are gone. *)
Definition forget_sched (p : Z) (s : sched) : sched :=
  {| s with sc_threads := delete p (sc_threads s);
            sc_lists := delete (HSuspend p) (delete (HSender p) (sc_lists s)) |}.
Definition forget_ts (p : Z) (s : tsys) : tsys :=
  {| s with ts_timers := delete (AObj p) (delete (ATimer p) (ts_timers s)) |}.
Definition forget_obj (p : Z) (s : objsys) : objsys :=
  {| s with os_objs := delete (AObj p) (delete (ATimer p) (os_objs s)) |}.
Definition forget_ipc (p : Z) (i : ipcs) : ipcs :=
  mk_ipcs (delete p (ip_sem i)) (delete p (ip_mutex i)) (delete p (ip_event i))
          (delete p (ip_mb i)) (delete p (ip_mq i)) (delete p (ip_mp i))
          (ip_words i).
Definition forget (p : Z) (k : kstate) : kstate :=
  mk_kstate (forget_sched p (k_sched k)) (forget_ts p (k_ts k)) (forget_obj p (k_obj k))
            (forget_ipc p (k_ipc k)) (k_heap k) (k_errno k).

(** [RT_KERNEL_FREE(p)]: freeing memory a kernel list still links to leaves a
    dangling node, and is a fault. *)
Definition RT_KERNEL_FREE (p : Z) : K unit :=
  when (negb (p =? RT_NULL)) RT_DEBUG_NOT_IN_INTERRUPT;;
  k ← getS;
  if negb (p =? RT_NULL) && in_use p k then fail BadFree
  else liftH (heap_free p);;
       when (negb (p =? RT_NULL)) (modify (forget p)).

(** ** Objects (src/object.c) *)

Definition rt_object_allocate (type : Z) (name : list Z) : K Z :=
  RT_DEBUG_NOT_IN_INTERRUPT;;
  information ← liftO (rt_object_get_information type);
  RT_ASSERT (bool_decide (is_Some information));;
  object ← RT_KERNEL_MALLOC (object_size type);
  if object =? RT_NULL then mret RT_NULL
  else liftO (object_attach (AObj object) type name);; mret object.

Definition rt_object_delete (object : Z) : K unit :=
  RT_ASSERT (negb (object =? RT_NULL));;
  o ← liftO (get_object (AObj object));
  RT_ASSERT (negb (truthy (Z.land (o_type o) RT_Object_Class_Static)));;
  liftO (object_reset (AObj object));;
  liftO (container_remove (AObj object));;
  RT_KERNEL_FREE object.

(** [name] is RT_NULL when [None]. *)
Definition rt_object_find (name : option (list Z)) (type : Z) : K (option addr) :=
  match name with
  | None => mret None
  | Some name =>
      if RT_Object_Class_Unknown <? type then mret None
      else
        RT_DEBUG_NOT_IN_INTERRUPT;;
        liftS rt_enter_critical;;
        information ← liftO (rt_object_get_information type);
        RT_ASSERT (bool_decide (is_Some information));;
        c ← gets (fun k => os_container (k_obj k));
        object ← liftO (name_search name
                   (default [] (oi_list <$> c !! default O information)));
        liftS rt_exit_critical;;
        mret object
  end.

(** ** Timers (src/timer.c) *)

Definition rt_timer_init (timer : addr) (name : list Z) (timeout : tfunc)
    (parameter time flag : Z) : K unit :=
  RT_ASSERT (negb (is_null timer));;
  liftO (rt_object_init timer RT_Object_Class_Timer name);;
  liftT (_rt_timer_init timer timeout parameter time flag).

Definition rt_timer_detach (timer : addr) : K Z :=
  RT_ASSERT (negb (is_null timer));;
  assert_type timer RT_Object_Class_Timer;;
  assert_systemobject timer true;;
  liftT (_rt_timer_remove timer);;
  liftO (rt_object_detach timer);;
  mret RT_EOK.

Definition rt_timer_create (name : list Z) (timeout : tfunc) (parameter time flag : Z) : K Z :=
  timer ← rt_object_allocate RT_Object_Class_Timer name;
  if timer =? RT_NULL then mret RT_NULL
  else liftT (_rt_timer_init (AObj timer) timeout parameter time flag);; mret timer.

Definition rt_timer_delete (timer : Z) : K Z :=
  RT_ASSERT (negb (timer =? RT_NULL));;
  assert_type (AObj timer) RT_Object_Class_Timer;;
  assert_systemobject (AObj timer) false;;
  liftT (_rt_timer_remove (AObj timer));;
  rt_object_delete timer;;
  mret RT_EOK.

Definition rt_timer_start (timer : addr) : K Z :=
  RT_ASSERT (negb (is_null timer));;
  assert_type timer RT_Object_Class_Timer;;
  liftT (timer_start timer).

Definition rt_timer_stop (timer : addr) : K Z :=
  RT_ASSERT (negb (is_null timer));;
  assert_type timer RT_Object_Class_Timer;;
  liftT (timer_stop timer).

Definition rt_timer_control (timer : addr) (cmd arg : Z) : K (Z * option Z) :=
  RT_ASSERT (negb (is_null timer));;
  assert_type timer RT_Object_Class_Timer;;
  liftT (timer_control timer cmd arg).

End Kernel.

(** Kernel code: computations on the kernel state. *)
Abbreviation K := (M kstate).
