(* ===== verification/Thread.v ===== *)
(** * Threads (src/thread.c)

    Creation, start, suspension, resumption, sleep, priority change, timeout
    and termination of threads.  A function that blocks is cut at the point
    where it has called [rt_schedule]: it returns [Block p], and the thread
    continues from the resume point [p] when it is given the processor
    again. *)

From S2P Require Import Prelude Scheduler Object Timer Kernel.

(** A call that has returned [r], or has rescheduled and goes on at [p]. *)
Inductive callres (P R : Type) :=
| Return (r : R)
| Block (p : P).
Arguments Return {P R} r.
Arguments Block {P R} p.

Definition RT_THREAD_CTRL_STARTUP : Z := 0x00.
Definition RT_THREAD_CTRL_CLOSE : Z := 0x01.
Definition RT_THREAD_CTRL_CHANGE_PRIORITY : Z := 0x02.

Definition set_error (e : Z) (th : rt_thread) : rt_thread := {| th with th_error := e |}.
Definition set_priority (p : Z) (th : rt_thread) : rt_thread :=
  {| th with th_current_priority := p |}.
Definition force_stat (st : Z) (th : rt_thread) : rt_thread := {| th with th_stat := st |}.

Section Thread.
Context {CF : Config} {HP : Heap}.

Definition thread_stat (t : Z) : K Z := th ← liftS (get_thread t); mret (stat_of th).

(** ** Error numbers (src/kservice.c) *)

Definition rt_get_errno : K Z :=
  nest ← liftS rt_interrupt_get_nest;
  if negb (nest =? 0) then gets k_errno
  else
    tid ← liftS rt_thread_self;
    if tid =? RT_NULL then gets k_errno
    else th ← liftS (get_thread tid); mret (th_error th).

Definition rt_set_errno (error : Z) : K unit :=
  nest ← liftS rt_interrupt_get_nest;
  if negb (nest =? 0) then modify (put_errno error)
  else
    tid ← liftS rt_thread_self;
    if tid =? RT_NULL then modify (put_errno error)
    else liftS (upd_thread tid (set_error error)).

(** ** Initialisation *)

Definition _rt_thread_init (thread : Z) (entry parameter stack_start stack_size priority tick : Z)
    : K Z :=
  liftS (tlist_node_init thread);;
  RT_ASSERT (priority <? RT_THREAD_PRIORITY_MAX);;
  old ← gets (fun k => sc_threads (k_sched k) !! thread);
  liftS (modify (put_thread thread
    {| th_entry := entry;
       th_parameter := parameter;
       th_stack_addr := stack_start;
       th_stack_size := stack_size;
       th_init_priority := priority;
       th_current_priority := priority;
       th_number_mask := 0;
       th_number := 0;
       th_high_mask := 0;
       th_init_tick := tick;
       th_remaining_tick := tick;
       th_error := RT_EOK;
       th_stat := RT_THREAD_INIT;
       th_cleanup := RT_NULL;
       th_user_data := 0;
       th_event_set := from_option th_event_set 0 old;
       th_event_info := from_option th_event_info 0 old |}));;
  o ← liftO (get_object (AObj thread));
  rt_timer_init (ATimer thread) (o_name o) FThreadTimeout thread 0 RT_TIMER_FLAG_ONE_SHOT;;
  mret RT_EOK.

Definition rt_thread_init (thread : Z) (name : list Z)
    (entry parameter stack_start stack_size priority tick : Z) : K Z :=
  RT_ASSERT (negb (thread =? RT_NULL));;
  RT_ASSERT (negb (stack_start =? RT_NULL));;
  liftO (rt_object_init (AObj thread) RT_Object_Class_Thread name);;
  _rt_thread_init thread entry parameter stack_start stack_size priority tick.

Definition rt_thread_create (name : list Z) (entry parameter stack_size priority tick : Z) : K Z :=
  thread ← rt_object_allocate RT_Object_Class_Thread name;
  if thread =? RT_NULL then mret RT_NULL
  else
    stack_start ← RT_KERNEL_MALLOC stack_size;
    if stack_start =? RT_NULL then
      rt_object_delete thread;; mret RT_NULL
    else
      _rt_thread_init thread entry parameter stack_start stack_size priority tick;;
      mret thread.

(** ** Suspension and resumption *)

Definition rt_thread_suspend (thread : Z) : K Z :=
  RT_ASSERT (negb (thread =? RT_NULL));;
  assert_type (AObj thread) RT_Object_Class_Thread;;
  st ← thread_stat thread;
  if negb (st =? RT_THREAD_READY) then mret (- RT_ERROR)
  else
    self ← liftS rt_thread_self;
    RT_ASSERT (thread =? self);;
    liftS (upd_thread thread (set_stat RT_THREAD_SUSPEND));;
    liftS (rt_schedule_remove_thread thread);;
    rt_timer_stop (ATimer thread);;
    mret RT_EOK.

Definition rt_thread_resume (thread : Z) : K Z :=
  RT_ASSERT (negb (thread =? RT_NULL));;
  assert_type (AObj thread) RT_Object_Class_Thread;;
  st ← thread_stat thread;
  if negb (st =? RT_THREAD_SUSPEND) then mret (- RT_ERROR)
  else
    liftS (tlist_remove thread);;
    rt_timer_stop (ATimer thread);;
    liftS (rt_schedule_insert_thread thread);;
    mret RT_EOK.

Definition rt_thread_startup (thread : Z) : K Z :=
  RT_ASSERT (negb (thread =? RT_NULL));;
  st ← thread_stat thread;
  RT_ASSERT (st =? RT_THREAD_INIT);;
  assert_type (AObj thread) RT_Object_Class_Thread;;
  liftS (upd_thread thread (fun th => prio_attr (set_priority (th_init_priority th) th)));;
  liftS (upd_thread thread (force_stat RT_THREAD_SUSPEND));;
  rt_thread_resume thread;;
  self ← liftS rt_thread_self;
  when (negb (self =? RT_NULL)) (liftS rt_schedule);;
  mret RT_EOK.

Definition rt_thread_yield : K Z := liftS rt_schedule;; mret RT_EOK.

(** The thread timer is set to [time] ticks and started, as every blocking
    call with a timeout does. *)
Definition thread_timer_start (thread time : Z) : K unit :=
  rt_timer_control (ATimer thread) RT_TIMER_CTRL_SET_TIME time;;
  rt_timer_start (ATimer thread);;
  mret tt.

(** [rt_thread_sleep] up to [rt_schedule]; the resume point is the thread. *)
Definition rt_thread_sleep (tick : Z) : K (callres Z Z) :=
  thread ← liftS rt_thread_self;
  RT_ASSERT (negb (thread =? RT_NULL));;
  assert_type (AObj thread) RT_Object_Class_Thread;;
  rt_thread_suspend thread;;
  thread_timer_start thread tick;;
  liftS rt_schedule;;
  mret (Block thread).

(** The rest of [rt_thread_sleep]. *)
Definition sleep_resumed (thread : Z) : K Z :=
  th ← liftS (get_thread thread);
  when (th_error th =? - RT_ETIMEOUT) (liftS (upd_thread thread (set_error RT_EOK)));;
  mret RT_EOK.

Definition rt_thread_delay (tick : Z) : K (callres Z Z) := rt_thread_sleep tick.

Definition rt_thread_mdelay (ms : Z) : K (callres Z Z) :=
  rt_thread_sleep (u32 (rt_tick_from_millisecond ms)).

(** ** Priority change *)

Definition change_priority (thread priority : Z) : K unit :=
  st ← thread_stat thread;
  if st =? RT_THREAD_READY then
    liftS (rt_schedule_remove_thread thread);;
    liftS (upd_thread thread (fun th => prio_attr (set_priority priority th)));;
    liftS (rt_schedule_insert_thread thread)
  else
    liftS (upd_thread thread (fun th => prio_attr (set_priority priority th))).

(** ** Termination *)

Definition rt_thread_exit : K unit :=
  thread ← liftS rt_thread_self;
  liftS (rt_schedule_remove_thread thread);;
  liftS (upd_thread thread (force_stat RT_THREAD_CLOSE));;
  rt_timer_detach (ATimer thread);;
  sys ← liftO (rt_object_is_systemobject (AObj thread));
  th ← liftS (get_thread thread);
  (if sys && (th_cleanup th =? RT_NULL)
   then liftO (rt_object_detach (AObj thread))
   else liftS (tlist_insert_after HDefunct thread));;
  liftS rt_schedule.

(** Leave the ready queue or wait list, unless never started. *)
Definition thread_unschedule (thread : Z) : K unit :=
  st ← thread_stat thread;
  when (negb (st =? RT_THREAD_INIT)) (liftS (rt_schedule_remove_thread thread)).

Definition rt_thread_detach (thread : Z) : K Z :=
  RT_ASSERT (negb (thread =? RT_NULL));;
  assert_type (AObj thread) RT_Object_Class_Thread;;
  assert_systemobject (AObj thread) true;;
  thread_unschedule thread;;
  rt_timer_detach (ATimer thread);;
  liftS (upd_thread thread (force_stat RT_THREAD_CLOSE));;
  liftO (rt_object_detach (AObj thread));;
  th ← liftS (get_thread thread);
  when (negb (th_cleanup th =? RT_NULL)) (liftS (tlist_insert_after HDefunct thread));;
  mret RT_EOK.

Definition rt_thread_delete (thread : Z) : K Z :=
  RT_ASSERT (negb (thread =? RT_NULL));;
  assert_type (AObj thread) RT_Object_Class_Thread;;
  assert_systemobject (AObj thread) false;;
  thread_unschedule thread;;
  rt_timer_detach (ATimer thread);;
  liftS (upd_thread thread (force_stat RT_THREAD_CLOSE));;
  liftS (tlist_insert_after HDefunct thread);;
  mret RT_EOK.

(** [arg] is the byte the argument points to. *)
Definition rt_thread_control (thread cmd arg : Z) : K Z :=
  RT_ASSERT (negb (thread =? RT_NULL));;
  assert_type (AObj thread) RT_Object_Class_Thread;;
  if cmd =? RT_THREAD_CTRL_CHANGE_PRIORITY then change_priority thread (u8 arg);; mret RT_EOK
  else if cmd =? RT_THREAD_CTRL_STARTUP then rt_thread_startup thread
  else if cmd =? RT_THREAD_CTRL_CLOSE then rt_thread_delete thread
  else mret RT_EOK.

(** ** Timeout of the thread timer *)

Definition rt_thread_timeout (thread : Z) : K unit :=
  RT_ASSERT (negb (thread =? RT_NULL));;
  st ← thread_stat thread;
  RT_ASSERT (st =? RT_THREAD_SUSPEND);;
  assert_type (AObj thread) RT_Object_Class_Thread;;
  liftS (upd_thread thread (set_error (- RT_ETIMEOUT)));;
  liftS (tlist_remove thread);;
  liftS (rt_schedule_insert_thread thread);;
  liftS rt_schedule.

(** ** Lookup by name *)

Definition rt_thread_find (name : list Z) : K (option addr) :=
  self ← liftS rt_thread_self;
  when (negb (self =? RT_NULL)) (liftS rt_enter_critical);;
  information ← liftO (rt_object_get_information RT_Object_Class_Thread);
  RT_ASSERT (bool_decide (is_Some information));;
  c ← gets (fun k => os_container (k_obj k));
  object ← liftO (name_search name (default [] (oi_list <$> c !! default O information)));
  self' ← liftS rt_thread_self;
  when (negb (self' =? RT_NULL)) (liftS rt_exit_critical);;
  mret object.

End Thread.
