(* ===== verification/Clock.v ===== *)
(** * The clock interrupt (src/clock.c, src/timer.c)

    [rt_timer_check] and [rt_tick_increase].  The timeout functions of the
    application are a parameter; the kernel's own is [rt_thread_timeout]. *)

From S2P Require Import Prelude Scheduler Object Timer Kernel Thread.

Section Clock.
Context {CF : Config} {HP : Heap}.
Variable user_timeout : Z -> Z -> K unit.

(** [t->timeout_func(t->parameter)]. *)
Definition call_timeout (f : tfunc) (parameter : Z) : K unit :=
  match f with
  | FThreadTimeout => rt_thread_timeout parameter
  | FUser f => user_timeout f parameter
  end.

(** One expired timer of [rt_timer_check]. *)
Definition timer_expire (t : addr) : K unit :=
  tm ← liftT (get_timer t);
  liftT (_rt_timer_remove t);;
  call_timeout (tm_func tm) (tm_parameter tm);;
  tm ← liftT (get_timer t);
  liftT (upd_timer t deactivate);;
  when (periodic tm && activated tm) (rt_timer_start t;; mret tt).

Fixpoint timer_check_loop (fuel : nat) (current_tick : Z) : K unit :=
  match fuel with
  | O => fail OutOfFuel
  | S fuel =>
      row ← gets (fun k => last_row (k_ts k));
      match row with
      | [] => mret tt
      | t :: _ =>
          tm ← liftT (get_timer t);
          if u32 (current_tick - tm_timeout_tick tm) <? RT_TICK_MAX / 2 then
            timer_expire t;;
            tick ← liftT rt_tick_get;
            timer_check_loop fuel tick
          else mret tt
      end
  end.

Definition rt_timer_check (fuel : nat) : K unit :=
  current_tick ← liftT rt_tick_get;
  timer_check_loop fuel current_tick.

Definition set_remaining (n : Z) (th : rt_thread) : rt_thread :=
  {| th with th_remaining_tick := n |}.

(** The time slice of the running thread. *)
Definition time_slice (thread : Z) : K unit :=
  liftS (upd_thread thread (fun th => set_remaining (ubase (th_remaining_tick th - 1)) th));;
  th ← liftS (get_thread thread);
  when (th_remaining_tick th =? 0)
    (liftS (upd_thread thread (fun th => set_remaining (th_init_tick th) th));;
     rt_thread_yield;; mret tt).

Definition rt_tick_increase (fuel : nat) : K unit :=
  tick ← liftT rt_tick_get;
  liftT (rt_tick_set (u32 (tick + 1)));;
  thread ← liftS rt_thread_self;
  time_slice thread;;
  rt_timer_check fuel.

End Clock.
