(* ===== verification/Ipc.v ===== *)
(** * Wait lists of kernel objects (src/ipc.c)

    Suspending a thread on a wait list, in FIFO or priority order, and waking
    one or all of the waiters. *)

From S2P Require Import Prelude Scheduler Object Timer Kernel Thread.

Definition RT_IPC_FLAG_FIFO : Z := 0x00.
Definition RT_IPC_FLAG_PRIO : Z := 0x01.
Definition RT_IPC_CMD_RESET : Z := 0x01.

Section Ipc.
Context {CF : Config} {HP : Heap}.

Definition rt_ipc_object_init (o : Z) : K unit := liftS (tlist_head_init (HSuspend o)).

(** The position before the first waiter of lower priority. *)
Fixpoint prio_insert (prio t : Z) (l : list Z) : M sched (list Z) :=
  match l with
  | [] => mret [t]
  | x :: l =>
      sthread ← get_thread x;
      if prio <? th_current_priority sthread then mret (t :: x :: l)
      else l' ← prio_insert prio t l; mret (x :: l')
  end.

Definition tlist_insert_prio (h : lhead) (t : Z) : M sched unit :=
  thread ← get_thread t;
  l ← get_list h;
  l' ← prio_insert (th_current_priority thread) t l;
  s ← getS;
  if linked t s then fail BadList else modify (put_list h l').

Definition rt_ipc_list_suspend (list : lhead) (thread flag : Z) : K Z :=
  rt_thread_suspend thread;;
  (if flag =? RT_IPC_FLAG_FIFO then liftS (tlist_insert_before list thread)
   else when (flag =? RT_IPC_FLAG_PRIO) (liftS (tlist_insert_prio list thread)));;
  mret RT_EOK.

(** The first thread of a list. *)
Definition first_waiter (list : lhead) : K Z :=
  l ← liftS (get_list list);
  match l with
  | [] => fail BadPtr
  | thread :: _ => mret thread
  end.

Definition rt_ipc_list_resume (list : lhead) : K Z :=
  thread ← first_waiter list;
  rt_thread_resume thread;;
  mret RT_EOK.

Fixpoint resume_all_loop (fuel : nat) (list : lhead) : K unit :=
  match fuel with
  | O => fail OutOfFuel
  | S fuel =>
      empty ← liftS (tlist_isempty list);
      if (empty : bool) then mret tt
      else
        thread ← first_waiter list;
        liftS (upd_thread thread (set_error (- RT_ERROR)));;
        rt_thread_resume thread;;
        resume_all_loop fuel list
  end.

(** The loop runs once per waiter. *)
Definition rt_ipc_list_resume_all (list : lhead) : K Z :=
  l ← liftS (get_list list);
  resume_all_loop (S (length l)) list;;
  mret RT_EOK.

(** Start the timer of the waiting thread when [time > 0], as the blocking
    calls do after suspending it. *)
Definition wait_timer (thread time : Z) : K unit :=
  when (0 <? time) (thread_timer_start thread time).

End Ipc.
