(* ===== verification/Semaphore.v ===== *)
(** * Semaphores (src/ipc.c) *)

From S2P Require Import Prelude Scheduler Object Timer Kernel Thread Ipc.

Section Semaphore.
Context {CF : Config} {HP : Heap}.

Definition get_sem (o : Z) : K rt_semaphore :=
  fun k => of_option BadPtr (ip_sem (k_ipc k) !! o) k.
Definition put_sem (o : Z) (x : rt_semaphore) (k : kstate) : kstate :=
  put_ipc (let i := k_ipc k in {| i with ip_sem := <[o := x]> (ip_sem (k_ipc k)) |}) k.
Definition set_sem_value (o v : Z) : K unit :=
  x ← get_sem o; modify (put_sem o (mk_sem (sem_flag x) (u16 v))).

Definition rt_sem_init (sem : Z) (name : list Z) (value flag : Z) : K Z :=
  RT_ASSERT (negb (sem =? RT_NULL));;
  liftO (rt_object_init (AObj sem) RT_Object_Class_Semaphore name);;
  rt_ipc_object_init sem;;
  modify (put_sem sem (mk_sem flag (u16 value)));;
  mret RT_EOK.

Definition rt_sem_detach (sem : Z) : K Z :=
  RT_ASSERT (negb (sem =? RT_NULL));;
  assert_type (AObj sem) RT_Object_Class_Semaphore;;
  assert_systemobject (AObj sem) true;;
  rt_ipc_list_resume_all (HSuspend sem);;
  liftO (rt_object_detach (AObj sem));;
  mret RT_EOK.

Definition rt_sem_create (name : list Z) (value flag : Z) : K Z :=
  RT_DEBUG_NOT_IN_INTERRUPT;;
  sem ← rt_object_allocate RT_Object_Class_Semaphore name;
  if sem =? RT_NULL then mret sem
  else
    rt_ipc_object_init sem;;
    modify (put_sem sem (mk_sem flag (u16 value)));;
    mret sem.

Definition rt_sem_delete (sem : Z) : K Z :=
  RT_DEBUG_NOT_IN_INTERRUPT;;
  RT_ASSERT (negb (sem =? RT_NULL));;
  assert_type (AObj sem) RT_Object_Class_Semaphore;;
  assert_systemobject (AObj sem) false;;
  rt_ipc_list_resume_all (HSuspend sem);;
  rt_object_delete sem;;
  mret RT_EOK.

(** The resume point of a blocked take is the waiting thread. *)
Definition rt_sem_take (sem time : Z) : K (callres Z Z) :=
  RT_ASSERT (negb (sem =? RT_NULL));;
  assert_type (AObj sem) RT_Object_Class_Semaphore;;
  x ← get_sem sem;
  if 0 <? sem_value x then
    set_sem_value sem (sem_value x - 1);;
    mret (Return RT_EOK)
  else if time =? 0 then mret (Return (- RT_ETIMEOUT))
  else
    RT_DEBUG_IN_THREAD_CONTEXT;;
    thread ← liftS rt_thread_self;
    liftS (upd_thread thread (set_error RT_EOK));;
    rt_ipc_list_suspend (HSuspend sem) thread (sem_flag x);;
    wait_timer thread time;;
    liftS rt_schedule;;
    mret (Block thread).

(** [rt_sem_take] after [rt_schedule]. *)
Definition sem_take_resumed (thread : Z) : K Z :=
  th ← liftS (get_thread thread);
  if negb (th_error th =? RT_EOK) then mret (th_error th) else mret RT_EOK.

Definition rt_sem_trytake (sem : Z) : K (callres Z Z) := rt_sem_take sem 0.

Definition rt_sem_release (sem : Z) : K Z :=
  RT_ASSERT (negb (sem =? RT_NULL));;
  assert_type (AObj sem) RT_Object_Class_Semaphore;;
  x ← get_sem sem;
  empty ← liftS (tlist_isempty (HSuspend sem));
  if negb empty then
    rt_ipc_list_resume (HSuspend sem);;
    liftS rt_schedule;;
    mret RT_EOK
  else
    set_sem_value sem (sem_value x + 1);;
    mret RT_EOK.

Definition rt_sem_control (sem cmd arg : Z) : K Z :=
  RT_ASSERT (negb (sem =? RT_NULL));;
  assert_type (AObj sem) RT_Object_Class_Semaphore;;
  if cmd =? RT_IPC_CMD_RESET then
    rt_ipc_list_resume_all (HSuspend sem);;
    set_sem_value sem arg;;
    liftS rt_schedule;;
    mret RT_EOK
  else mret (- RT_ERROR).

End Semaphore.
