(* ===== verification/Mutex.v ===== *)
(** * Mutexes with priority inheritance (src/ipc.c) *)

From S2P Require Import Prelude Scheduler Object Timer Kernel Thread Ipc.

Section Mutex.
Context {CF : Config} {HP : Heap}.

Definition get_mutex (o : Z) : K rt_mutex :=
  fun k => of_option BadPtr (ip_mutex (k_ipc k) !! o) k.
Definition put_mutex (o : Z) (x : rt_mutex) (k : kstate) : kstate :=
  put_ipc (let i := k_ipc k in {| i with ip_mutex := <[o := x]> (ip_mutex (k_ipc k)) |}) k.
Definition upd_mutex (o : Z) (f : rt_mutex -> rt_mutex) : K unit :=
  x ← get_mutex o; modify (put_mutex o (f x)).

(** The fields of a free mutex. *)
Definition new_mutex (flag : Z) : rt_mutex := mk_mutex flag 1 0xff 0 RT_NULL.

Definition rt_mutex_init (mutex : Z) (name : list Z) (flag : Z) : K Z :=
  RT_ASSERT (negb (mutex =? RT_NULL));;
  liftO (rt_object_init (AObj mutex) RT_Object_Class_Mutex name);;
  rt_ipc_object_init mutex;;
  modify (put_mutex mutex (new_mutex flag));;
  mret RT_EOK.

Definition rt_mutex_detach (mutex : Z) : K Z :=
  RT_ASSERT (negb (mutex =? RT_NULL));;
  assert_type (AObj mutex) RT_Object_Class_Mutex;;
  assert_systemobject (AObj mutex) true;;
  rt_ipc_list_resume_all (HSuspend mutex);;
  liftO (rt_object_detach (AObj mutex));;
  mret RT_EOK.

Definition rt_mutex_create (name : list Z) (flag : Z) : K Z :=
  RT_DEBUG_NOT_IN_INTERRUPT;;
  mutex ← rt_object_allocate RT_Object_Class_Mutex name;
  if mutex =? RT_NULL then mret mutex
  else
    rt_ipc_object_init mutex;;
    modify (put_mutex mutex (new_mutex flag));;
    mret mutex.

Definition rt_mutex_delete (mutex : Z) : K Z :=
  RT_DEBUG_NOT_IN_INTERRUPT;;
  RT_ASSERT (negb (mutex =? RT_NULL));;
  assert_type (AObj mutex) RT_Object_Class_Mutex;;
  assert_systemobject (AObj mutex) false;;
  rt_ipc_list_resume_all (HSuspend mutex);;
  rt_object_delete mutex;;
  mret RT_EOK.

(** Ownership passes to [thread]. *)
Definition mutex_own (thread prio : Z) (x : rt_mutex) : rt_mutex :=
  {| x with mutex_owner := thread;
            mutex_original_priority := prio;
            mutex_hold := u8 (mutex_hold x + 1) |}.

(** A blocked take: the mutex, the thread and the waiting time. *)
Record mutex_pc := mk_mutex_pc { mp_mutex : Z; mp_thread : Z; mp_time : Z }.

(** [rt_mutex_take] from the label [__again]. *)
Definition mutex_take_again (mutex thread time : Z) : K (callres mutex_pc Z) :=
  x ← get_mutex mutex;
  th ← liftS (get_thread thread);
  if 0 <? mutex_value x then
    upd_mutex mutex (fun x => {| x with mutex_value := u16 (mutex_value x - 1) |});;
    upd_mutex mutex (mutex_own thread (th_current_priority th));;
    mret (Return RT_EOK)
  else if time =? 0 then
    liftS (upd_thread thread (set_error (- RT_ETIMEOUT)));;
    mret (Return (- RT_ETIMEOUT))
  else
    owner ← liftS (get_thread (mutex_owner x));
    when (th_current_priority th <? th_current_priority owner)
      (rt_thread_control (mutex_owner x) RT_THREAD_CTRL_CHANGE_PRIORITY
         (th_current_priority th);; mret tt);;
    rt_ipc_list_suspend (HSuspend mutex) thread (mutex_flag x);;
    wait_timer thread time;;
    liftS rt_schedule;;
    mret (Block (mk_mutex_pc mutex thread time)).

Definition rt_mutex_take (mutex time : Z) : K (callres mutex_pc Z) :=
  RT_DEBUG_IN_THREAD_CONTEXT;;
  RT_ASSERT (negb (mutex =? RT_NULL));;
  assert_type (AObj mutex) RT_Object_Class_Mutex;;
  thread ← liftS rt_thread_self;
  liftS (upd_thread thread (set_error RT_EOK));;
  x ← get_mutex mutex;
  if mutex_owner x =? thread then
    upd_mutex mutex (fun x => {| x with mutex_hold := u8 (mutex_hold x + 1) |});;
    mret (Return RT_EOK)
  else mutex_take_again mutex thread time.

(** [rt_mutex_take] after [rt_schedule]. *)
Definition mutex_take_resumed (pc : mutex_pc) : K (callres mutex_pc Z) :=
  th ← liftS (get_thread (mp_thread pc));
  if negb (th_error th =? RT_EOK) then
    if th_error th =? - RT_EINTR
    then mutex_take_again (mp_mutex pc) (mp_thread pc) (mp_time pc)
    else mret (Return (th_error th))
  else mret (Return RT_EOK).

Definition rt_mutex_release (mutex : Z) : K Z :=
  RT_ASSERT (negb (mutex =? RT_NULL));;
  assert_type (AObj mutex) RT_Object_Class_Mutex;;
  RT_DEBUG_IN_THREAD_CONTEXT;;
  thread ← liftS rt_thread_self;
  x ← get_mutex mutex;
  if negb (thread =? mutex_owner x) then
    liftS (upd_thread thread (set_error (- RT_ERROR)));;
    mret (- RT_ERROR)
  else
    upd_mutex mutex (fun x => {| x with mutex_hold := u8 (mutex_hold x - 1) |});;
    x ← get_mutex mutex;
    if mutex_hold x =? 0 then
      owner ← liftS (get_thread (mutex_owner x));
      when (negb (mutex_original_priority x =? th_current_priority owner))
        (rt_thread_control (mutex_owner x) RT_THREAD_CTRL_CHANGE_PRIORITY
           (mutex_original_priority x);; mret tt);;
      empty ← liftS (tlist_isempty (HSuspend mutex));
      if negb empty then
        next ← first_waiter (HSuspend mutex);
        th ← liftS (get_thread next);
        upd_mutex mutex (mutex_own next (th_current_priority th));;
        rt_ipc_list_resume (HSuspend mutex);;
        liftS rt_schedule;;
        mret RT_EOK
      else
        upd_mutex mutex (fun x => {| x with mutex_value := u16 (mutex_value x + 1);
                                            mutex_owner := RT_NULL;
                                            mutex_original_priority := 0xff |});;
        mret RT_EOK
    else mret RT_EOK.

Definition rt_mutex_control (mutex cmd arg : Z) : K Z :=
  RT_ASSERT (negb (mutex =? RT_NULL));;
  assert_type (AObj mutex) RT_Object_Class_Mutex;;
  mret (- RT_ERROR).

End Mutex.
