(* ===== verification/Event.v ===== *)
(** * Event sets (src/ipc.c) *)

From S2P Require Import Prelude Scheduler Object Timer Kernel Thread Ipc.

Definition RT_EVENT_FLAG_AND : Z := 0x01.
Definition RT_EVENT_FLAG_OR : Z := 0x02.
Definition RT_EVENT_FLAG_CLEAR : Z := 0x04.

(** [x & flag] as a truth value. *)
Definition has (x flag : Z) : bool := truthy (Z.land x flag).

Definition set_event_info (set info : Z) (th : rt_thread) : rt_thread :=
  {| th with th_event_set := set; th_event_info := info |}.

Section Event.
Context {CF : Config} {HP : Heap}.

Definition get_event (o : Z) : K rt_event :=
  fun k => of_option BadPtr (ip_event (k_ipc k) !! o) k.
Definition put_event (o : Z) (x : rt_event) (k : kstate) : kstate :=
  put_ipc (let i := k_ipc k in {| i with ip_event := <[o := x]> (ip_event (k_ipc k)) |}) k.
Definition set_events (o set : Z) : K unit :=
  x ← get_event o; modify (put_event o (mk_event (event_flag x) set)).

Definition rt_event_init (event : Z) (name : list Z) (flag : Z) : K Z :=
  RT_ASSERT (negb (event =? RT_NULL));;
  liftO (rt_object_init (AObj event) RT_Object_Class_Event name);;
  rt_ipc_object_init event;;
  modify (put_event event (mk_event flag 0));;
  mret RT_EOK.

Definition rt_event_detach (event : Z) : K Z :=
  RT_ASSERT (negb (event =? RT_NULL));;
  assert_type (AObj event) RT_Object_Class_Event;;
  assert_systemobject (AObj event) true;;
  rt_ipc_list_resume_all (HSuspend event);;
  liftO (rt_object_detach (AObj event));;
  mret RT_EOK.

Definition rt_event_create (name : list Z) (flag : Z) : K Z :=
  RT_DEBUG_NOT_IN_INTERRUPT;;
  event ← rt_object_allocate RT_Object_Class_Event name;
  if event =? RT_NULL then mret event
  else
    rt_ipc_object_init event;;
    modify (put_event event (mk_event flag 0));;
    mret event.

Definition rt_event_delete (event : Z) : K Z :=
  RT_ASSERT (negb (event =? RT_NULL));;
  assert_type (AObj event) RT_Object_Class_Event;;
  assert_systemobject (AObj event) false;;
  RT_DEBUG_NOT_IN_INTERRUPT;;
  rt_ipc_list_resume_all (HSuspend event);;
  rt_object_delete event;;
  mret RT_EOK.

(** Does a waiter with interest [want] and option [info] accept the set [set],
    and with which events? *)
Definition event_match (info want set : Z) : option Z :=
  if has info RT_EVENT_FLAG_AND then
    if Z.land want set =? want then Some want else None
  else if has info RT_EVENT_FLAG_OR then
    if truthy (Z.land want set) then Some (Z.land want set) else None
  else None.

(** The walk over the waiters: [n] has been moved on before the thread is
    resumed, so the loop goes over the waiters the list held at the start.
    Returns [need_schedule]. *)
Fixpoint event_wake (event : Z) (l : list Z) (need_schedule : bool) : K bool :=
  match l with
  | [] => mret need_schedule
  | thread :: l =>
      th ← liftS (get_thread thread);
      x ← get_event event;
      match event_match (th_event_info th) (th_event_set th) (event_set x) with
      | None => event_wake event l need_schedule
      | Some got =>
          liftS (upd_thread thread (set_event_info got (th_event_info th)));;
          when (has (th_event_info th) RT_EVENT_FLAG_CLEAR)
            (set_events event (Z.land (event_set x) (Z.lnot got)));;
          rt_thread_resume thread;;
          event_wake event l true
      end
  end.

Definition rt_event_send (event set : Z) : K Z :=
  RT_ASSERT (negb (event =? RT_NULL));;
  assert_type (AObj event) RT_Object_Class_Event;;
  if set =? 0 then mret (- RT_ERROR)
  else
    x ← get_event event;
    set_events event (Z.lor (event_set x) set);;
    l ← liftS (get_list (HSuspend event));
    need_schedule ← event_wake event l false;
    when need_schedule (liftS rt_schedule);;
    mret RT_EOK.

(** The result of a receive: the error code and what is stored in [recved]. *)
Definition rt_event_recv (event set option timeout : Z)
    : K (callres Z (Z * Datatypes.option Z)) :=
  RT_DEBUG_IN_THREAD_CONTEXT;;
  RT_ASSERT (negb (event =? RT_NULL));;
  assert_type (AObj event) RT_Object_Class_Event;;
  if set =? 0 then mret (Return (- RT_ERROR, None))
  else
    thread ← liftS rt_thread_self;
    liftS (upd_thread thread (set_error RT_EOK));;
    x ← get_event event;
    RT_ASSERT (has option RT_EVENT_FLAG_AND || has option RT_EVENT_FLAG_OR);;
    match event_match option set (event_set x) with
    | Some _ =>
        when (has option RT_EVENT_FLAG_CLEAR)
          (set_events event (Z.land (event_set x) (Z.lnot set)));;
        th ← liftS (get_thread thread);
        mret (Return (th_error th, Some (Z.land (event_set x) set)))
    | None =>
        if timeout =? 0 then
          liftS (upd_thread thread (set_error (- RT_ETIMEOUT)));;
          th ← liftS (get_thread thread);
          mret (Return (th_error th, None))
        else
          liftS (upd_thread thread (set_event_info set option));;
          rt_ipc_list_suspend (HSuspend event) thread (event_flag x);;
          wait_timer thread timeout;;
          liftS rt_schedule;;
          mret (Block thread)
    end.

(** [rt_event_recv] after [rt_schedule]. *)
Definition event_recv_resumed (thread : Z) : K (Z * option Z) :=
  th ← liftS (get_thread thread);
  if negb (th_error th =? RT_EOK) then mret (th_error th, None)
  else mret (th_error th, Some (th_event_set th)).

Definition rt_event_control (event cmd arg : Z) : K Z :=
  RT_ASSERT (negb (event =? RT_NULL));;
  assert_type (AObj event) RT_Object_Class_Event;;
  if cmd =? RT_IPC_CMD_RESET then
    rt_ipc_list_resume_all (HSuspend event);;
    set_events event 0;;
    liftS rt_schedule;;
    mret RT_EOK
  else mret (- RT_ERROR).

End Event.
