(* ===== verification/Mailbox.v ===== *)
(** * Mailboxes (src/ipc.c) *)

From S2P Require Import Prelude Scheduler Object Timer Kernel Thread Ipc.

Section Mailbox.
Context {CF : Config} {HP : Heap}.

Definition get_mb (o : Z) : K rt_mailbox :=
  fun k => of_option BadPtr (ip_mb (k_ipc k) !! o) k.
Definition put_mb (o : Z) (x : rt_mailbox) (k : kstate) : kstate :=
  put_ipc (let i := k_ipc k in {| i with ip_mb := <[o := x]> (ip_mb (k_ipc k)) |}) k.

(** An empty mailbox of [size] words at [pool]; the words, not yet written by
    anyone, are never read before they are. *)
Definition new_mailbox (flag pool size : Z) : rt_mailbox :=
  mk_mailbox flag pool (replicate (Z.to_nat (u16 size)) 0) (u16 size) 0 0 0.

Definition rt_mb_init (mb : Z) (name : list Z) (msgpool size flag : Z) : K Z :=
  RT_ASSERT (negb (mb =? RT_NULL));;
  liftO (rt_object_init (AObj mb) RT_Object_Class_MailBox name);;
  rt_ipc_object_init mb;;
  modify (put_mb mb (new_mailbox flag msgpool size));;
  liftS (tlist_head_init (HSender mb));;
  mret RT_EOK.

Definition rt_mb_detach (mb : Z) : K Z :=
  RT_ASSERT (negb (mb =? RT_NULL));;
  assert_type (AObj mb) RT_Object_Class_MailBox;;
  assert_systemobject (AObj mb) true;;
  rt_ipc_list_resume_all (HSuspend mb);;
  rt_ipc_list_resume_all (HSender mb);;
  liftO (rt_object_detach (AObj mb));;
  mret RT_EOK.

Definition rt_mb_create (name : list Z) (size flag : Z) : K Z :=
  RT_DEBUG_NOT_IN_INTERRUPT;;
  mb ← rt_object_allocate RT_Object_Class_MailBox name;
  if mb =? RT_NULL then mret mb
  else
    rt_ipc_object_init mb;;
    pool ← RT_KERNEL_MALLOC (u16 size * sizeof_ptr);
    if pool =? RT_NULL then rt_object_delete mb;; mret RT_NULL
    else
      modify (put_mb mb (new_mailbox flag pool size));;
      liftS (tlist_head_init (HSender mb));;
      mret mb.

Definition rt_mb_delete (mb : Z) : K Z :=
  RT_DEBUG_NOT_IN_INTERRUPT;;
  RT_ASSERT (negb (mb =? RT_NULL));;
  assert_type (AObj mb) RT_Object_Class_MailBox;;
  assert_systemobject (AObj mb) false;;
  rt_ipc_list_resume_all (HSuspend mb);;
  rt_ipc_list_resume_all (HSender mb);;
  x ← get_mb mb;
  RT_KERNEL_FREE (mb_msg_pool x);;
  rt_object_delete mb;;
  mret RT_EOK.

(** The waiting time left when a thread that started to wait [timeout] ticks
    at [start] runs again at [now]: [timeout -= now - start], not below 0. *)
Definition time_left (timeout start now : Z) : Z :=
  if 0 <? timeout then
    let t := i32 (timeout - u32 (now - start)) in if t <? 0 then 0 else t
  else timeout.

(** ** Sending *)

(** [++off; if (off >= size) off = 0;] on the 16-bit field. *)
Definition bump (off size : Z) : Z :=
  let o := u16 (off + 1) in if size <=? o then 0 else o.

Definition mb_push (value : Z) (x : rt_mailbox) : rt_mailbox :=
  {| x with mb_msgs := <[Z.to_nat (mb_in_offset x) := value]> (mb_msgs x);
            mb_in_offset := bump (mb_in_offset x) (mb_size x);
            mb_entry := u16 (mb_entry x + 1) |}.

(** The end of [rt_mb_send_wait], with a free slot. *)
Definition mb_send_finish (mb value : Z) : K Z :=
  x ← get_mb mb;
  of_option BadPtr (mb_msgs x !! Z.to_nat (mb_in_offset x));;
  modify (put_mb mb (mb_push value x));;
  empty ← liftS (tlist_isempty (HSuspend mb));
  if negb empty then
    rt_ipc_list_resume (HSuspend mb);;
    liftS rt_schedule;;
    mret RT_EOK
  else mret RT_EOK.

(** A waiting sender or receiver: mailbox, mail to send, thread, waiting time
    and the tick it started at. *)
Record mb_pc := mk_mb_pc {
  bp_mb : Z; bp_value : Z; bp_thread : Z; bp_timeout : Z; bp_start : Z
}.

(** The loop of [rt_mb_send_wait], from its test on. *)
Definition mb_send_loop (mb value thread timeout : Z) : K (callres mb_pc Z) :=
  x ← get_mb mb;
  if mb_entry x =? mb_size x then
    liftS (upd_thread thread (set_error RT_EOK));;
    if timeout =? 0 then mret (Return (- RT_EFULL))
    else
      RT_DEBUG_IN_THREAD_CONTEXT;;
      rt_ipc_list_suspend (HSender mb) thread (mb_flag x);;
      start ← liftT rt_tick_get;
      wait_timer thread timeout;;
      liftS rt_schedule;;
      mret (Block (mk_mb_pc mb value thread timeout start))
  else
    r ← mb_send_finish mb value; mret (Return r).

Definition rt_mb_send_wait (mb value timeout : Z) : K (callres mb_pc Z) :=
  RT_ASSERT (negb (mb =? RT_NULL));;
  assert_type (AObj mb) RT_Object_Class_MailBox;;
  thread ← liftS rt_thread_self;
  x ← get_mb mb;
  if (mb_entry x =? mb_size x) && (timeout =? 0) then mret (Return (- RT_EFULL))
  else mb_send_loop mb value thread timeout.

(** [rt_mb_send_wait] after [rt_schedule]. *)
Definition mb_send_resumed (pc : mb_pc) : K (callres mb_pc Z) :=
  th ← liftS (get_thread (bp_thread pc));
  if negb (th_error th =? RT_EOK) then mret (Return (th_error th))
  else
    now ← liftT rt_tick_get;
    mb_send_loop (bp_mb pc) (bp_value pc) (bp_thread pc)
      (time_left (bp_timeout pc) (bp_start pc) now).

Definition rt_mb_send (mb value : Z) : K (callres mb_pc Z) := rt_mb_send_wait mb value 0.

(** ** Receiving *)

Definition mb_pop (x : rt_mailbox) : rt_mailbox :=
  {| x with mb_out_offset := bump (mb_out_offset x) (mb_size x);
            mb_entry := u16 (mb_entry x - 1) |}.

(** The end of [rt_mb_recv], with a mail: the error code and the mail. *)
Definition mb_recv_finish (mb : Z) : K (Z * option Z) :=
  x ← get_mb mb;
  value ← of_option BadPtr (mb_msgs x !! Z.to_nat (mb_out_offset x));
  modify (put_mb mb (mb_pop x));;
  empty ← liftS (tlist_isempty (HSender mb));
  if negb empty then
    rt_ipc_list_resume (HSender mb);;
    liftS rt_schedule;;
    mret (RT_EOK, Some value)
  else mret (RT_EOK, Some value).

Definition mb_recv_loop (mb thread timeout : Z) : K (callres mb_pc (Z * option Z)) :=
  x ← get_mb mb;
  if mb_entry x =? 0 then
    liftS (upd_thread thread (set_error RT_EOK));;
    if timeout =? 0 then
      liftS (upd_thread thread (set_error (- RT_ETIMEOUT)));;
      mret (Return (- RT_ETIMEOUT, None))
    else
      RT_DEBUG_IN_THREAD_CONTEXT;;
      rt_ipc_list_suspend (HSuspend mb) thread (mb_flag x);;
      start ← liftT rt_tick_get;
      wait_timer thread timeout;;
      liftS rt_schedule;;
      mret (Block (mk_mb_pc mb 0 thread timeout start))
  else
    r ← mb_recv_finish mb; mret (Return r).

Definition rt_mb_recv (mb timeout : Z) : K (callres mb_pc (Z * option Z)) :=
  RT_ASSERT (negb (mb =? RT_NULL));;
  assert_type (AObj mb) RT_Object_Class_MailBox;;
  thread ← liftS rt_thread_self;
  x ← get_mb mb;
  if (mb_entry x =? 0) && (timeout =? 0) then mret (Return (- RT_ETIMEOUT, None))
  else mb_recv_loop mb thread timeout.

(** [rt_mb_recv] after [rt_schedule]. *)
Definition mb_recv_resumed (pc : mb_pc) : K (callres mb_pc (Z * option Z)) :=
  th ← liftS (get_thread (bp_thread pc));
  if negb (th_error th =? RT_EOK) then mret (Return (th_error th, None))
  else
    now ← liftT rt_tick_get;
    mb_recv_loop (bp_mb pc) (bp_thread pc) (time_left (bp_timeout pc) (bp_start pc) now).

Definition rt_mb_control (mb cmd arg : Z) : K Z :=
  RT_ASSERT (negb (mb =? RT_NULL));;
  assert_type (AObj mb) RT_Object_Class_MailBox;;
  if cmd =? RT_IPC_CMD_RESET then
    rt_ipc_list_resume_all (HSuspend mb);;
    rt_ipc_list_resume_all (HSender mb);;
    x ← get_mb mb;
    modify (put_mb mb {| x with mb_entry := 0; mb_in_offset := 0; mb_out_offset := 0 |});;
    liftS rt_schedule;;
    mret RT_EOK
  else mret (- RT_ERROR).

End Mailbox.
