(* ===== verification/MsgQueue.v ===== *)
(** * Message queues (src/ipc.c)

    A message queue owns a pool of message slots; each slot is in the free
    chain, in the queue chain, or in the hands of a sender that is filling it
    or a receiver that is copying it out with interrupts enabled.  The
    sections of [rt_mq_send], [rt_mq_urgent] and [rt_mq_recv] between two
    critical regions are definitions of their own. *)

From S2P Require Import Prelude Scheduler Object Timer Kernel Thread Ipc Mailbox.

Section MsgQueue.
Context {CF : Config} {HP : Heap}.

Definition get_mq (o : Z) : K rt_messagequeue :=
  fun k => of_option BadPtr (ip_mq (k_ipc k) !! o) k.
Definition put_mq (o : Z) (x : rt_messagequeue) (k : kstate) : kstate :=
  put_ipc (let i := k_ipc k in {| i with ip_mq := <[o := x]> (ip_mq (k_ipc k)) |}) k.

(** ** The pool *)

Definition msg_stride (msg_size : Z) : Z := msg_size + sizeof_ptr.

(** [for (temp = 0; temp < max_msgs; temp++)]: thread slot [temp] on top of the
    free chain. *)
Fixpoint mq_thread_slots (n : nat) (temp : Z) (x : rt_messagequeue) : rt_messagequeue :=
  match n with
  | O => x
  | S n =>
      let head := mq_msg_pool x + temp * msg_stride (mq_msg_size x) in
      mq_thread_slots n (temp + 1)
        {| x with mq_mem := <[head := mk_msg (mq_queue_free x)
                                        (replicate (Z.to_nat (mq_msg_size x)) 0)]> (mq_mem x);
                  mq_queue_free := head |}
  end.

Definition new_mq (flag pool msg_size max_msgs : Z) : rt_messagequeue :=
  mq_thread_slots (Z.to_nat max_msgs) 0
    (mk_mq flag pool ∅ msg_size max_msgs 0 RT_NULL RT_NULL RT_NULL).

Definition rt_mq_init (mq : Z) (name : list Z) (msgpool msg_size pool_size flag : Z) : K Z :=
  RT_ASSERT (negb (mq =? RT_NULL));;
  liftO (rt_object_init (AObj mq) RT_Object_Class_MessageQueue name);;
  rt_ipc_object_init mq;;
  let msg_size := u16 (RT_ALIGN msg_size RT_ALIGN_SIZE) in
  let max_msgs := u16 (pool_size / msg_stride msg_size) in
  modify (put_mq mq (new_mq flag msgpool msg_size max_msgs));;
  mret RT_EOK.

Definition rt_mq_detach (mq : Z) : K Z :=
  RT_ASSERT (negb (mq =? RT_NULL));;
  assert_type (AObj mq) RT_Object_Class_MessageQueue;;
  assert_systemobject (AObj mq) true;;
  rt_ipc_list_resume_all (HSuspend mq);;
  liftO (rt_object_detach (AObj mq));;
  mret RT_EOK.

Definition rt_mq_delete (mq : Z) : K Z :=
  RT_DEBUG_NOT_IN_INTERRUPT;;
  RT_ASSERT (negb (mq =? RT_NULL));;
  assert_type (AObj mq) RT_Object_Class_MessageQueue;;
  assert_systemobject (AObj mq) false;;
  rt_ipc_list_resume_all (HSuspend mq);;
  x ← get_mq mq;
  RT_KERNEL_FREE (mq_msg_pool x);;
  rt_object_delete mq;;
  mret RT_EOK.

Definition rt_mq_create (name : list Z) (msg_size max_msgs flag : Z) : K Z :=
  RT_DEBUG_NOT_IN_INTERRUPT;;
  mq ← rt_object_allocate RT_Object_Class_MessageQueue name;
  if mq =? RT_NULL then mret mq
  else
    rt_ipc_object_init mq;;
    let msg_size := u16 (RT_ALIGN msg_size RT_ALIGN_SIZE) in
    let max_msgs := u16 max_msgs in
    pool ← RT_KERNEL_MALLOC (msg_stride msg_size * max_msgs);
    modify (put_mq mq (mk_mq flag pool ∅ msg_size max_msgs 0 RT_NULL RT_NULL RT_NULL));;
    if pool =? RT_NULL then rt_mq_delete mq;; mret RT_NULL
    else
      modify (put_mq mq (new_mq flag pool msg_size max_msgs));;
      mret mq.

(** ** Access to message slots *)

Definition get_msg (x : rt_messagequeue) (msg : Z) : K rt_mq_message :=
  of_option BadPtr (mq_mem x !! msg).
Definition set_msg (msg : Z) (m : rt_mq_message) (x : rt_messagequeue) : rt_messagequeue :=
  {| x with mq_mem := <[msg := m]> (mq_mem x) |}.
Definition set_next (mq msg next : Z) : K unit :=
  x ← get_mq mq; m ← get_msg x msg;
  modify (put_mq mq (set_msg msg (mk_msg next (msg_data m)) x)).

(** [rt_memcpy(msg + 1, buffer, size)]. *)
Definition set_data (mq msg : Z) (buffer : list Z) : K unit :=
  x ← get_mq mq; m ← get_msg x msg;
  modify (put_mq mq (set_msg msg
    (mk_msg (msg_next m) (buffer ++ drop (length buffer) (msg_data m))) x)).

(** ** Sending: the buffer is the list of its bytes *)

(** First section: take a slot off the free chain, RT_NULL when full. *)
Definition mq_take_slot (mq : Z) : K Z :=
  x ← get_mq mq;
  let msg := mq_queue_free x in
  if msg =? RT_NULL then mret RT_NULL
  else
    m ← get_msg x msg;
    modify (put_mq mq {| x with mq_queue_free := msg_next m |});;
    mret msg.

(** Second section of [rt_mq_send], interrupts enabled. *)
Definition mq_fill_slot (mq msg : Z) (buffer : list Z) : K unit :=
  set_next mq msg RT_NULL;;
  set_data mq msg buffer.

(** Wake a receiver; the end of both sends. *)
Definition mq_wake (mq : Z) : K Z :=
  empty ← liftS (tlist_isempty (HSuspend mq));
  if negb empty then
    rt_ipc_list_resume (HSuspend mq);;
    liftS rt_schedule;;
    mret RT_EOK
  else mret RT_EOK.

(** Third section of [rt_mq_send]: link at the tail. *)
Definition mq_link_tail (mq msg : Z) : K unit :=
  x ← get_mq mq;
  when (negb (mq_queue_tail x =? RT_NULL)) (set_next mq (mq_queue_tail x) msg);;
  x ← get_mq mq;
  let x1 := {| x with mq_queue_tail := msg |} in
  let x2 := if mq_queue_head x1 =? RT_NULL then {| x1 with mq_queue_head := msg |} else x1 in
  modify (put_mq mq {| x2 with mq_entry := u16 (mq_entry x2 + 1) |}).

(** Third section of [rt_mq_urgent]: link at the head. *)
Definition mq_link_head (mq msg : Z) : K unit :=
  x ← get_mq mq;
  set_next mq msg (mq_queue_head x);;
  x ← get_mq mq;
  let x1 := {| x with mq_queue_head := msg |} in
  let x2 := if mq_queue_tail x1 =? RT_NULL then {| x1 with mq_queue_tail := msg |} else x1 in
  modify (put_mq mq {| x2 with mq_entry := u16 (mq_entry x2 + 1) |}).

(** The checks before the first section. *)
Definition mq_send_checks (mq size : Z) : K bool :=
  RT_ASSERT (negb (mq =? RT_NULL));;
  assert_type (AObj mq) RT_Object_Class_MessageQueue;;
  RT_ASSERT (negb (size =? 0));;
  x ← get_mq mq;
  mret (size <=? mq_msg_size x).

Definition rt_mq_send (mq : Z) (buffer : list Z) : K Z :=
  fits ← mq_send_checks mq (Z.of_nat (length buffer));
  if negb fits then mret (- RT_ERROR)
  else
    msg ← mq_take_slot mq;
    if msg =? RT_NULL then mret (- RT_EFULL)
    else
      mq_fill_slot mq msg buffer;;
      mq_link_tail mq msg;;
      mq_wake mq.

Definition rt_mq_urgent (mq : Z) (buffer : list Z) : K Z :=
  fits ← mq_send_checks mq (Z.of_nat (length buffer));
  if negb fits then mret (- RT_ERROR)
  else
    msg ← mq_take_slot mq;
    if msg =? RT_NULL then mret (- RT_EFULL)
    else
      set_data mq msg buffer;;
      mq_link_head mq msg;;
      mq_wake mq.

(** ** Receiving *)

(** First section: unlink the head message. *)
Definition mq_unlink_head (mq : Z) : K Z :=
  x ← get_mq mq;
  let msg := mq_queue_head x in
  m ← get_msg x msg;
  let x1 := {| x with mq_queue_head := msg_next m |} in
  let x2 := if mq_queue_tail x1 =? msg then {| x1 with mq_queue_tail := RT_NULL |} else x1 in
  modify (put_mq mq {| x2 with mq_entry := u16 (mq_entry x2 - 1) |});;
  mret msg.

(** Second section, interrupts enabled: the bytes copied to the buffer. *)
Definition mq_copy_out (mq msg size : Z) : K (list Z) :=
  x ← get_mq mq;
  m ← get_msg x msg;
  let n := if mq_msg_size x <? size then mq_msg_size x else size in
  mret (take (Z.to_nat n) (msg_data m)).

(** Third section: the slot returns to the free chain. *)
Definition mq_free_slot (mq msg : Z) : K unit :=
  x ← get_mq mq;
  set_next mq msg (mq_queue_free x);;
  x ← get_mq mq;
  modify (put_mq mq {| x with mq_queue_free := msg |}).

Record mq_pc := mk_mq_pc {
  qp_mq : Z; qp_size : Z; qp_thread : Z; qp_timeout : Z; qp_start : Z
}.

Definition mq_recv_finish (mq size : Z) : K (Z * option (list Z)) :=
  msg ← mq_unlink_head mq;
  bytes ← mq_copy_out mq msg size;
  mq_free_slot mq msg;;
  mret (RT_EOK, Some bytes).

Definition mq_recv_loop (mq size thread timeout : Z)
    : K (callres mq_pc (Z * option (list Z))) :=
  x ← get_mq mq;
  if mq_entry x =? 0 then
    RT_DEBUG_IN_THREAD_CONTEXT;;
    liftS (upd_thread thread (set_error RT_EOK));;
    if timeout =? 0 then
      liftS (upd_thread thread (set_error (- RT_ETIMEOUT)));;
      mret (Return (- RT_ETIMEOUT, None))
    else
      rt_ipc_list_suspend (HSuspend mq) thread (mq_flag x);;
      start ← liftT rt_tick_get;
      wait_timer thread timeout;;
      liftS rt_schedule;;
      mret (Block (mk_mq_pc mq size thread timeout start))
  else
    r ← mq_recv_finish mq size; mret (Return r).

Definition rt_mq_recv (mq size timeout : Z) : K (callres mq_pc (Z * option (list Z))) :=
  RT_ASSERT (negb (mq =? RT_NULL));;
  assert_type (AObj mq) RT_Object_Class_MessageQueue;;
  RT_ASSERT (negb (size =? 0));;
  thread ← liftS rt_thread_self;
  x ← get_mq mq;
  if (mq_entry x =? 0) && (timeout =? 0) then mret (Return (- RT_ETIMEOUT, None))
  else mq_recv_loop mq size thread timeout.

(** [rt_mq_recv] after [rt_schedule]. *)
Definition mq_recv_resumed (pc : mq_pc) : K (callres mq_pc (Z * option (list Z))) :=
  th ← liftS (get_thread (qp_thread pc));
  if negb (th_error th =? RT_EOK) then mret (Return (th_error th, None))
  else
    now ← liftT rt_tick_get;
    mq_recv_loop (qp_mq pc) (qp_size pc) (qp_thread pc)
      (time_left (qp_timeout pc) (qp_start pc) now).

(** ** Reset *)

(** [while (mq->msg_queue_head != RT_NULL)], once per queued message. *)
Fixpoint mq_drain (fuel : nat) (mq : Z) : K unit :=
  match fuel with
  | O => fail OutOfFuel
  | S fuel =>
      x ← get_mq mq;
      let msg := mq_queue_head x in
      if msg =? RT_NULL then mret tt
      else
        m ← get_msg x msg;
        let x1 := {| x with mq_queue_head := msg_next m |} in
        let x2 := if mq_queue_tail x1 =? msg then {| x1 with mq_queue_tail := RT_NULL |} else x1 in
        modify (put_mq mq x2);;
        mq_free_slot mq msg;;
        mq_drain fuel mq
  end.

Definition rt_mq_control (mq cmd arg : Z) : K Z :=
  RT_ASSERT (negb (mq =? RT_NULL));;
  assert_type (AObj mq) RT_Object_Class_MessageQueue;;
  if cmd =? RT_IPC_CMD_RESET then
    rt_ipc_list_resume_all (HSuspend mq);;
    x ← get_mq mq;
    mq_drain (S (size (dom (mq_mem x)))) mq;;
    x ← get_mq mq;
    modify (put_mq mq {| x with mq_entry := 0 |});;
    liftS rt_schedule;;
    mret RT_EOK
  else mret (- RT_ERROR).

End MsgQueue.
