(* ===== verification/MemPool.v ===== *)
(** * Memory pools (src/mempool.c)

    The word in front of each block is part of the kernel's memory
    [ip_words]; an access to a word that is not one of a pool is a fault.  A
    blocked allocation returns the resume point [mp_pc]. *)

From S2P Require Import Prelude Scheduler Object Timer Kernel Thread Ipc Mailbox.

Section MemPool.
Context {CF : Config} {HP : Heap}.

Definition get_mp (o : Z) : K rt_mempool :=
  fun k => of_option BadPtr (ip_mp (k_ipc k) !! o) k.
Definition put_mp (o : Z) (x : rt_mempool) (k : kstate) : kstate :=
  put_ipc (let i := k_ipc k in {| i with ip_mp := <[o := x]> (ip_mp (k_ipc k)) |}) k.
Definition put_words (w : gmap Z Z) (k : kstate) : kstate :=
  put_ipc (let i := k_ipc k in {| i with ip_words := w |}) k.

(** The word at [a] of existing pools. *)
Definition get_word (a : Z) : K Z :=
  fun k => of_option BadPtr (ip_words (k_ipc k) !! a) k.
Definition set_word (a v : Z) : K unit :=
  get_word a;; k ← getS; modify (put_words (<[a := v]> (ip_words (k_ipc k)))).

(** ** Initialisation *)

(** A store to the word at [a] of the pool of [size] bytes at [start]. *)
Definition new_word (start size a v : Z) : K unit :=
  if (start <=? a) && (a + sizeof_ptr <=? start + size) then
    k ← getS; modify (put_words (<[a := v]> (ip_words (k_ipc k))))
  else fail BadPtr.

(** The loop that links the blocks from [offset] on, [n] of them. *)
Fixpoint link_blocks (start size stride : Z) (n : nat) (offset : Z) : K unit :=
  match n with
  | O => mret tt
  | S n =>
      new_word start size (start + offset * stride) (start + (offset + 1) * stride);;
      link_blocks start size stride n (offset + 1)
  end.

(** The end of [rt_mp_init] and [rt_mp_create]: the free block list. *)
Definition mp_blocks_init (mp : Z) : K unit :=
  x ← get_mp mp;
  let start := mp_start_address x in
  let stride := ubase (mp_block_size x + sizeof_ptr) in
  let count := mp_block_total_count x in
  link_blocks start (mp_pool_size x) stride (Z.to_nat count) 0;;
  new_word start (mp_pool_size x) (start + (count - 1) * stride) RT_NULL;;
  x ← get_mp mp;
  modify (put_mp mp {| x with mp_block_list := start |}).

(** A block size whose aligned sum with the word in front is 0 makes the
    source divide by zero. *)
Definition rt_mp_init (mp : Z) (name : list Z) (start size block_size : Z) : K Z :=
  RT_ASSERT (negb (mp =? RT_NULL));;
  liftO (rt_object_init (AObj mp) RT_Object_Class_MemPool name);;
  let size := RT_ALIGN_DOWN size RT_ALIGN_SIZE in
  let block_size := ubase (RT_ALIGN block_size RT_ALIGN_SIZE) in
  let stride := ubase (block_size + sizeof_ptr) in
  if stride =? 0 then fail BadPtr
  else
    let count := size / stride in
    modify (put_mp mp (mk_mp start size block_size RT_NULL count count 0));;
    liftS (tlist_head_init (HSuspend mp));;
    mp_blocks_init mp;;
    mret RT_EOK.

Definition rt_mp_create (name : list Z) (block_count block_size : Z) : K Z :=
  RT_DEBUG_NOT_IN_INTERRUPT;;
  mp ← rt_object_allocate RT_Object_Class_MemPool name;
  if mp =? RT_NULL then mret RT_NULL
  else
    let block_size := ubase (RT_ALIGN block_size RT_ALIGN_SIZE) in
    let size := ubase (ubase (block_size + sizeof_ptr) * block_count) in
    start ← RT_KERNEL_MALLOC size;
    if start =? RT_NULL then rt_object_delete mp;; mret RT_NULL
    else
      modify (put_mp mp (mk_mp start size block_size RT_NULL block_count block_count 0));;
      liftS (tlist_head_init (HSuspend mp));;
      mp_blocks_init mp;;
      mret mp.

(** ** Detaching and deleting *)

Definition suspend_count (f : Z -> Z) (mp : Z) : K unit :=
  x ← get_mp mp;
  modify (put_mp mp {| x with mp_suspend_thread_count := ubase (f (mp_suspend_thread_count x)) |}).

Fixpoint mp_resume_all (fuel : nat) (mp : Z) : K unit :=
  match fuel with
  | O => fail OutOfFuel
  | S fuel =>
      empty ← liftS (tlist_isempty (HSuspend mp));
      if (empty : bool) then mret tt
      else
        thread ← first_waiter (HSuspend mp);
        liftS (upd_thread thread (set_error (- RT_ERROR)));;
        rt_thread_resume thread;;
        suspend_count Z.pred mp;;
        mp_resume_all fuel mp
  end.

(** The loop runs once per waiter. *)
Definition mp_wake_all (mp : Z) : K unit :=
  l ← liftS (get_list (HSuspend mp));
  mp_resume_all (S (length l)) mp.

Definition rt_mp_detach (mp : Z) : K Z :=
  RT_ASSERT (negb (mp =? RT_NULL));;
  assert_type (AObj mp) RT_Object_Class_MemPool;;
  assert_systemobject (AObj mp) true;;
  mp_wake_all mp;;
  liftO (rt_object_detach (AObj mp));;
  mret RT_EOK.

(** The words of a pool that has been freed are gone. *)
Definition drop_words (start size : Z) (k : kstate) : kstate :=
  put_words (filter (fun aw : Z * Z => ~ (start <= aw.1 < start + size)) (ip_words (k_ipc k))) k.

Definition rt_mp_delete (mp : Z) : K Z :=
  RT_DEBUG_NOT_IN_INTERRUPT;;
  RT_ASSERT (negb (mp =? RT_NULL));;
  assert_type (AObj mp) RT_Object_Class_MemPool;;
  assert_systemobject (AObj mp) false;;
  mp_wake_all mp;;
  x ← get_mp mp;
  RT_KERNEL_FREE (mp_start_address x);;
  modify (drop_words (mp_start_address x) (mp_pool_size x));;
  rt_object_delete mp;;
  mret RT_EOK.

(** ** Allocating a block *)

(** The end of [rt_mp_alloc], with a free block. *)
Definition mp_take (mp : Z) : K Z :=
  x ← get_mp mp;
  modify (put_mp mp {| x with mp_block_free_count := mp_block_free_count x - 1 |});;
  x ← get_mp mp;
  let block_ptr := mp_block_list x in
  RT_ASSERT (negb (block_ptr =? RT_NULL));;
  next ← get_word block_ptr;
  modify (put_mp mp {| x with mp_block_list := next |});;
  set_word block_ptr mp;;
  mret (block_ptr + sizeof_ptr).

(** A waiting allocation: pool, thread, waiting time and the tick it started
    at. *)
Record mp_pc := mk_mp_pc { pp_mp : Z; pp_thread : Z; pp_time : Z; pp_start : Z }.

(** The loop of [rt_mp_alloc], from its test on. *)
Definition mp_alloc_loop (mp thread time : Z) : K (callres mp_pc Z) :=
  x ← get_mp mp;
  if mp_block_free_count x =? 0 then
    if time =? 0 then
      rt_set_errno (- RT_ETIMEOUT);;
      mret (Return RT_NULL)
    else
      RT_DEBUG_NOT_IN_INTERRUPT;;
      liftS (upd_thread thread (set_error RT_EOK));;
      rt_thread_suspend thread;;
      liftS (tlist_insert_after (HSuspend mp) thread);;
      suspend_count Z.succ mp;;
      start ← liftT rt_tick_get;
      wait_timer thread time;;
      liftS rt_schedule;;
      mret (Block (mk_mp_pc mp thread time start))
  else
    b ← mp_take mp; mret (Return b).

Definition rt_mp_alloc (mp time : Z) : K (callres mp_pc Z) :=
  thread ← liftS rt_thread_self;
  mp_alloc_loop mp thread time.

(** [rt_mp_alloc] after [rt_schedule]. *)
Definition mp_alloc_resumed (pc : mp_pc) : K (callres mp_pc Z) :=
  th ← liftS (get_thread (pp_thread pc));
  if negb (th_error th =? RT_EOK) then mret (Return RT_NULL)
  else
    now ← liftT rt_tick_get;
    mp_alloc_loop (pp_mp pc) (pp_thread pc) (time_left (pp_time pc) (pp_start pc) now).

(** ** Freeing a block *)

Definition rt_mp_free (block : Z) : K unit :=
  let block_ptr := block - sizeof_ptr in
  mp ← get_word block_ptr;
  x ← get_mp mp;
  modify (put_mp mp {| x with mp_block_free_count := ubase (mp_block_free_count x + 1) |});;
  set_word block_ptr (mp_block_list x);;
  x ← get_mp mp;
  modify (put_mp mp {| x with mp_block_list := block_ptr |});;
  if 0 <? mp_suspend_thread_count x then
    thread ← first_waiter (HSuspend mp);
    liftS (upd_thread thread (set_error RT_EOK));;
    rt_thread_resume thread;;
    suspend_count Z.pred mp;;
    liftS rt_schedule
  else mret tt.

End MemPool.
