(* ===== verification/Idle.v ===== *)
(** * The idle thread (src/idle.c)

    The thread of the lowest priority runs the hook functions of the
    application and frees what terminated threads have left behind.  The
    loop of [rt_thread_idle_excute] is cut where it lets the scheduler run:
    [idle_collect] goes up to [rt_exit_critical] and returns the thread whose
    memory [idle_free] then frees.  Modules, signals and several processors
    are not configured. *)

From S2P Require Import Prelude Scheduler Object Timer Kernel Thread Ipc.

(** ** Hooks *)

Definition RT_IDEL_HOOK_LIST_SIZE : nat := 4.

(** [idle_hook_list[]] before any hook is set. *)
Definition idle_hook_list : list Z := replicate RT_IDEL_HOOK_LIST_SIZE RT_NULL.

(** The first slot that holds [old] gets [new]. *)
Fixpoint slot_replace (old new : Z) (l : list Z) : option (list Z) :=
  match l with
  | [] => None
  | h :: l => if h =? old then Some (new :: l) else (h ::.) <$> slot_replace old new l
  end.

Definition rt_thread_idle_sethook (hook : Z) (l : list Z) : Z * list Z :=
  match slot_replace RT_NULL hook l with
  | Some l' => (RT_EOK, l')
  | None => (- RT_EFULL, l)
  end.

Definition rt_thread_idle_delhook (hook : Z) (l : list Z) : Z * list Z :=
  match slot_replace hook RT_NULL l with
  | Some l' => (RT_EOK, l')
  | None => (- RT_ENOSYS, l)
  end.

Definition IDLE_THREAD_STACK_SIZE : Z := 256.

Section Idle.
Context {CF : Config} {HP : Heap}.

(** The cleanup function [f] of the terminated thread [t]: [cleanup f t]. *)
Variable cleanup : Z -> Z -> K unit.

(** ** Terminated threads *)

Definition _has_defunct_thread : K bool :=
  empty ← liftS (tlist_isempty HDefunct); mret (negb empty).

(** The loop body up to [rt_exit_critical]; [None]: the function returns. *)
Definition idle_collect : K (option Z) :=
  RT_DEBUG_NOT_IN_INTERRUPT;;
  more ← _has_defunct_thread;
  if (more : bool) then
    thread ← first_waiter HDefunct;
    liftS (tlist_remove thread);;
    liftS rt_enter_critical;;
    th ← liftS (get_thread thread);
    when (negb (th_cleanup th =? RT_NULL)) (cleanup (th_cleanup th) thread);;
    sys ← liftO (rt_object_is_systemobject (AObj thread));
    liftS rt_exit_critical;;
    mret (if (sys : bool) then None else Some thread)
  else mret None.

(** The rest of the loop body. *)
Definition idle_free (thread : Z) : K unit :=
  th ← liftS (get_thread thread);
  RT_KERNEL_FREE (th_stack_addr th);;
  rt_object_delete thread.

Fixpoint rt_thread_idle_excute (fuel : nat) : K unit :=
  match fuel with
  | O => fail OutOfFuel
  | S fuel =>
      more ← _has_defunct_thread;
      if (more : bool) then
        r ← idle_collect;
        match r with
        | None => mret tt
        | Some thread => idle_free thread;; rt_thread_idle_excute fuel
        end
      else mret tt
  end.

(** ** The idle thread itself *)

(** The hook function [f]: [hook f]. *)
Variable hook : Z -> K unit.

Fixpoint idle_hooks (l : list Z) : K unit :=
  match l with
  | [] => mret tt
  | h :: l => when (negb (h =? RT_NULL)) (hook h);; idle_hooks l
  end.

(** One turn of the endless loop of [rt_thread_idle_entry]. *)
Definition rt_thread_idle_entry (hooks : list Z) (fuel : nat) : K unit :=
  idle_hooks hooks;; rt_thread_idle_excute fuel.

(** The addresses of [idle[0]], [rt_thread_stack[0]] and the entry function. *)
Variables idle rt_thread_stack entry : Z.

(** One processor: the name that [rt_sprintf] builds is "tidle0". *)
Definition rt_thread_idle_init : K unit :=
  rt_thread_init idle [116; 105; 100; 108; 101; 48] entry RT_NULL rt_thread_stack IDLE_THREAD_STACK_SIZE
    (RT_THREAD_PRIORITY_MAX - 1) 32;;
  rt_thread_startup idle;;
  mret tt.

Definition rt_thread_idle_gethandler : Z := idle.

End Idle.
