(* ===== verification/KernelInv.v ===== *)
(** * Kernel invariant

    [kwf k] ties the components together: scheduler, timers, objects and heap
    are each well formed; a thread that has not terminated has its object
    header and its built-in timer; the built-in timer of a thread is running
    only while the thread is suspended; every IPC object has its record and
    its wait lists; the owner of a taken mutex is a thread.  Two frame lemmas
    ([kwf_sched_step], [kwf_ts_step]) reduce the preservation of [kwf] by an
    operation to what the operation does to one component. *)

From S2P Require Import Prelude Scheduler ReadyBitmap SchedInv SchedSpec Object ObjInv Timer.
From S2P Require Import TimerInv Kernel.

Section Inv.
Context `{CO : ConfigOk} {HP : Heap} {HO : HeapOk HP}.

Definition has_type (k : kstate) (a : addr) (c : Z) : Prop := o_has_type (k_obj k) a c.
Definition has_static (k : kstate) (a : addr) (b : bool) : Prop :=
  exists o, os_objs (k_obj k) !! a = Some o /\ is_static o = b.

Definition threads (k : kstate) : gmap Z rt_thread := sc_threads (k_sched k).
Definition timers (k : kstate) : gmap addr rt_timer := ts_timers (k_ts k).
Definition running (k : kstate) : list addr := last_row (k_ts k).
Definition waiters (k : kstate) (h : lhead) : list Z := lget (k_sched k) h.
Definition head_exists (k : kstate) (h : lhead) : Prop := is_Some (sc_lists (k_sched k) !! h).

(** The built-in timer of thread [t]. *)
Definition thread_timer (t : Z) (tm : rt_timer) : Prop :=
  tm_func tm = FThreadTimeout /\ tm_parameter tm = t /\ periodic tm = false /\
  0 <= tm_flag tm < 256.

Record thread_live (k : kstate) (t : Z) : Prop := {
  tl_type : has_type k (AObj t) RT_Object_Class_Thread;
  tl_timer : exists tm, timers k !! ATimer t = Some tm /\ thread_timer t tm;
  tl_ttype : has_type k (ATimer t) RT_Object_Class_Timer;
  tl_static : has_static k (ATimer t) true
}.

(** A message queue: the slots of the pool split into the free chain [fr], the
    queued messages [qu], and the slots in the hands of a sender or receiver. *)
Fixpoint chain (m : gmap Z rt_mq_message) (p : Z) (l : list Z) : Prop :=
  match l with
  | [] => p = RT_NULL
  | x :: l => p = x /\ x <> RT_NULL /\ exists d, m !! x = Some d /\ chain m (msg_next d) l
  end.

Record mq_split (x : rt_messagequeue) (fr qu : list Z) : Prop := {
  qs_free : chain (mq_mem x) (mq_queue_free x) fr;
  qs_queue : chain (mq_mem x) (mq_queue_head x) qu;
  qs_nodup : NoDup (fr ++ qu);
  qs_tail : mq_queue_tail x = default RT_NULL (last qu);
  qs_entry : mq_entry x = Z.of_nat (length qu);
  qs_count : Z.of_nat (size (dom (mq_mem x))) < 65536;
  qs_data : forall p d, mq_mem x !! p = Some d -> Z.of_nat (length (msg_data d)) = mq_msg_size x
}.

Record mb_ok (x : rt_mailbox) : Prop := {
  mo_len : Z.of_nat (length (mb_msgs x)) = mb_size x;
  mo_size : 0 <= mb_size x < 65536;
  mo_entry : 0 <= mb_entry x <= mb_size x;
  mo_out : (0 <= mb_out_offset x < mb_size x) \/ (mb_size x = 0 /\ mb_out_offset x = 0);
  mo_in : mb_in_offset x =
    if mb_size x =? 0 then 0 else (mb_out_offset x + mb_entry x) mod mb_size x
}.

Definition is_thread (k : kstate) (t : Z) : Prop :=
  is_Some (threads k !! t) /\ has_type k (AObj t) RT_Object_Class_Thread.

Record mutex_ok (k : kstate) (x : rt_mutex) : Prop := {
  mx_value : mutex_value x = 0 \/ mutex_value x = 1;
  mx_free : mutex_value x = 1 -> mutex_owner x = RT_NULL;
  mx_owner : mutex_value x = 0 -> is_thread k (mutex_owner x) /\
    0 <= mutex_original_priority x < RT_THREAD_PRIORITY_MAX
}.

(** The records and wait lists of the IPC objects; nobody waits for a
    semaphore with a positive value or for a free mutex. *)
Record ipc_ok (k : kstate) : Prop := {
  io_sem : forall o, has_type k (AObj o) RT_Object_Class_Semaphore ->
    head_exists k (HSuspend o) /\ exists x, ip_sem (k_ipc k) !! o = Some x /\
      0 <= sem_value x < 65536 /\ (0 < sem_value x -> waiters k (HSuspend o) = []);
  io_mutex : forall o, has_type k (AObj o) RT_Object_Class_Mutex ->
    head_exists k (HSuspend o) /\ exists x, ip_mutex (k_ipc k) !! o = Some x /\
      mutex_ok k x /\ (0 < mutex_value x -> waiters k (HSuspend o) = []);
  io_event : forall o, has_type k (AObj o) RT_Object_Class_Event ->
    head_exists k (HSuspend o) /\ exists x, ip_event (k_ipc k) !! o = Some x;
  io_mb : forall o, has_type k (AObj o) RT_Object_Class_MailBox ->
    head_exists k (HSuspend o) /\ head_exists k (HSender o) /\
    exists x, ip_mb (k_ipc k) !! o = Some x /\ mb_ok x;
  io_mq : forall o, has_type k (AObj o) RT_Object_Class_MessageQueue ->
    head_exists k (HSuspend o) /\ exists x, ip_mq (k_ipc k) !! o = Some x /\ exists fr qu, mq_split x fr qu
}.

Record kwf (k : kstate) : Prop := {
  kw_sched : swf ∅ (k_sched k);
  kw_ts : twf (k_ts k);
  kw_tick : 0 <= ts_tick (k_ts k) < 2 ^ 32;
  kw_obj : owf (k_obj k);
  kw_heap : heap_ok (k_heap k);
  kw_live : forall t th, threads k !! t = Some th -> stat_of th <> RT_THREAD_CLOSE -> thread_live k t;
  kw_defunct : forall t, t ∈ waiters k HDefunct -> has_type k (AObj t) RT_Object_Class_Thread;
  kw_ttimer : forall t, ATimer t ∈ running k ->
    exists th tm, threads k !! t = Some th /\ stat_of th = RT_THREAD_SUSPEND /\
      timers k !! ATimer t = Some tm /\ activated tm = true;
  kw_utimer : forall p, AObj p ∈ running k -> has_type k (AObj p) RT_Object_Class_Timer;
  kw_ipc : ipc_ok k
}.

(** ** Changing the scheduler only *)

Record sched_step (k : kstate) (s' : sched) : Prop := {
  ss_swf : swf ∅ s';
  ss_heads : forall h, head_exists k h -> is_Some (sc_lists s' !! h);
  ss_back : forall t th', sc_threads s' !! t = Some th' -> exists th, threads k !! t = Some th /\
    (stat_of th' <> RT_THREAD_CLOSE -> stat_of th <> RT_THREAD_CLOSE);
  ss_fwd : forall t, is_Some (threads k !! t) -> is_Some (sc_threads s' !! t);
  ss_timer : forall t, ATimer t ∈ running k ->
    exists th', sc_threads s' !! t = Some th' /\ stat_of th' = RT_THREAD_SUSPEND;
  ss_defunct : forall t, t ∈ lget s' HDefunct -> t ∈ waiters k HDefunct
}.

(** The wait lists only lose threads. *)
Definition waits_shrink (k : kstate) (s' : sched) : Prop :=
  forall o t, t ∈ lget s' (HSuspend o) -> t ∈ waiters k (HSuspend o).

Lemma shrink_nil (l l' : list Z) : (forall t, t ∈ l' -> t ∈ l) -> l = [] -> l' = [].
Proof. intros Hs ->. destruct l' as [|t l']; [done|]. specialize (Hs t). set_solver. Qed.

Lemma mutex_ok_frame k k' x :
  mutex_ok k x -> (forall t, is_thread k t -> is_thread k' t) -> mutex_ok k' x.
Proof. intros [? ? Hx] Hth. split; [done..|]. intros Hv. destruct (Hx Hv). auto. Qed.

Lemma ipc_ok_frame k k' :
  ipc_ok k -> k_ipc k' = k_ipc k ->
  (forall o c, has_type k' (AObj o) c -> 1 <= c <= 5 -> has_type k (AObj o) c) ->
  (forall h, head_exists k h -> head_exists k' h) ->
  (forall t, is_thread k t -> is_thread k' t) ->
  waits_shrink k (k_sched k') -> ipc_ok k'.
Proof.
  intros [] E Ht Hh Hth Hsh. split; rewrite E; intros o Ho; apply Ht in Ho; try by split.
  - destruct (io_sem0 o Ho) as (? & x & ? & ? & Hx). split; [eauto|]. exists x.
    split; [done|]. split; [done|]. intros Hv. eapply shrink_nil; [apply Hsh|by apply Hx].
  - destruct (io_mutex0 o Ho) as (? & x & ? & Hx & Hw). split; [eauto|]. exists x.
    split; [done|]. split; [by eapply mutex_ok_frame|].
    intros Hv. eapply shrink_nil; [apply Hsh|by apply Hw].
  - destruct (io_event0 o Ho) as [? ?]; eauto.
  - destruct (io_mb0 o Ho) as (? & ? & ?); eauto.
  - destruct (io_mq0 o Ho) as (? & ?); eauto.
Qed.

Lemma kwf_sched_core k s' :
  kwf k -> sched_step k s' -> ipc_ok (put_sched s' k) -> kwf (put_sched s' k).
Proof.
  intros Hk [Hs Hh Hb Hf Ht Hd] Hi. split; try apply Hk; try done.
  - intros t th' Hth' Hst. destruct (Hb t th' Hth') as (th & Hth & Hc).
    destruct (kw_live _ Hk t th Hth (Hc Hst)). by split.
  - intros t Hin. apply (kw_defunct _ Hk), Hd, Hin.
  - intros t Hin. destruct (Ht t Hin) as (th' & H1 & H2).
    destruct (kw_ttimer _ Hk t Hin) as (th & tm & _ & _ & H3 & H4). by exists th', tm.
Qed.

Lemma kwf_sched_step k s' :
  kwf k -> sched_step k s' -> waits_shrink k s' -> kwf (put_sched s' k).
Proof.
  intros Hk Hst Hsh. apply kwf_sched_core; [done|done|].
  apply (ipc_ok_frame k); [apply Hk|done|done|apply Hst| |done].
  intros t [H1 H2]. split; [by apply Hst|done].
Qed.

(** ** Changing the timers only *)

Definition same_timer (tm tm' : rt_timer) : Prop :=
  tm_func tm' = tm_func tm /\ tm_parameter tm' = tm_parameter tm /\
  periodic tm' = periodic tm /\ 0 <= tm_flag tm' < 256.

Record ts_step (k : kstate) (s' : tsys) : Prop := {
  tst_wf : twf s';
  tst_tick : ts_tick s' = ts_tick (k_ts k);
  tst_fwd : forall a tm, timers k !! a = Some tm -> 0 <= tm_flag tm < 256 ->
    exists tm', ts_timers s' !! a = Some tm' /\ same_timer tm tm';
  tst_thread : forall t, ATimer t ∈ last_row s' ->
    (exists th, threads k !! t = Some th /\ stat_of th = RT_THREAD_SUSPEND) /\
    exists tm', ts_timers s' !! ATimer t = Some tm' /\ activated tm' = true;
  tst_user : forall p, AObj p ∈ last_row s' -> has_type k (AObj p) RT_Object_Class_Timer
}.

Lemma kwf_ts_step k s' : kwf k -> ts_step k s' -> kwf (put_ts s' k).
Proof.
  intros Hk [Hw Htk Hf Ht Hu]. split; try apply Hk; try done.
  - cbn. rewrite Htk. apply Hk.
  - intros t th Hth Hst. destruct (kw_live _ Hk t th Hth Hst) as [? (tm & Htm & Hok) ? ?]. split; try done.
    destruct Hok as (E1 & E2 & E3 & E4).
    destruct (Hf _ _ Htm E4) as (tm' & Htm' & F1 & F2 & F3 & F4). exists tm'. split; [done|].
    unfold thread_timer. rewrite F1, F2, F3. done.
  - intros t Hin. destruct (Ht t Hin) as [(th & ? & ?) (tm' & ? & ?)]. by exists th, tm'.
  - apply (ipc_ok_frame k); [apply Hk|done|done|done|done|by intros o t].
Qed.

End Inv.
