(* ===== verification/ThreadInv.v ===== *)
(** * Threads: suspension, resumption and timeout keep the kernel well formed

    The effect of the thread operations on a well-formed kernel, each with the
    state it leads to and the preservation of [kwf]. *)

From S2P Require Import Prelude Scheduler ReadyBitmap SchedInv SchedSpec Object ObjInv Timer.
From S2P Require Import TimerInv Kernel Thread KernelInv.

(** ** Flag bits *)

Lemma truthy_bit x n : 0 <= n -> truthy (Z.land x (2 ^ n)) = Z.testbit x n.
Proof.
  intros Hn. unfold truthy. destruct (Z.eqb_spec (Z.land x (2 ^ n)) 0) as [E|E]; cbn.
  - apply (f_equal (fun v => Z.testbit v n)) in E.
    rewrite Z.land_spec, Z.pow2_bits_true, andb_true_r, Z.bits_0 in E by done. by rewrite E.
  - symmetry. apply not_false_is_true. intros Hb. apply E. apply Z.bits_inj'. intros i Hi.
    rewrite Z.land_spec, Z.bits_0, testbit_pow2 by done.
    destruct (Z.eqb_spec i n) as [->|]; [by rewrite Hb|apply andb_false_r].
Qed.

Lemma activated_bit tm : activated tm = Z.testbit (tm_flag tm) 0.
Proof. apply (truthy_bit _ 0). lia. Qed.
Lemma periodic_bit tm : periodic tm = Z.testbit (tm_flag tm) 1.
Proof. apply (truthy_bit _ 1). lia. Qed.

Lemma deactivate_bits tm i : 0 <= i < 8 ->
  Z.testbit (tm_flag (deactivate tm)) i = negb (i =? 0) && Z.testbit (tm_flag tm) i.
Proof.
  intros Hi. unfold deactivate, set_flag, u8. cbn [tm_flag].
  rewrite Z.mod_pow2_bits_low by lia. change RT_TIMER_FLAG_ACTIVATED with (2 ^ 0).
  apply testbit_clear; lia.
Qed.

Lemma started_bits timeout tm i : 0 <= i < 8 ->
  Z.testbit (tm_flag (timer_started timeout tm)) i = (i =? 0) || Z.testbit (tm_flag tm) i.
Proof.
  intros Hi. unfold timer_started, set_flag at 1, u8. cbn [tm_flag].
  rewrite Z.mod_pow2_bits_low by lia. change RT_TIMER_FLAG_ACTIVATED with (2 ^ 0).
  rewrite testbit_set, deactivate_bits by lia. by destruct (i =? 0).
Qed.

Lemma same_timer_deactivate tm : same_timer tm (deactivate tm).
Proof.
  split; [done|]. split; [done|]. split; [|apply u8_range].
  rewrite !periodic_bit, deactivate_bits by lia. done.
Qed.
Lemma same_timer_started timeout tm : same_timer tm (timer_started timeout tm).
Proof.
  split; [done|]. split; [done|]. split; [|apply u8_range].
  rewrite !periodic_bit, started_bits by lia. done.
Qed.
Lemma same_timer_refl tm : 0 <= tm_flag tm < 256 -> same_timer tm tm.
Proof. intros Hr. unfold same_timer. auto. Qed.
Lemma activated_started timeout tm : activated (timer_started timeout tm) = true.
Proof. by rewrite activated_bit, started_bits. Qed.

Section Inv.
Context `{CO : ConfigOk} {HP : Heap} {HO : HeapOk HP}.
Implicit Types (k : kstate).

(** ** Running component operations *)

Lemma put_sched_id k : put_sched (k_sched k) k = k.
Proof. by destruct k. Qed.
Lemma put_ts_id k : put_ts (k_ts k) k = k.
Proof. by destruct k. Qed.
Lemma put_obj_id k : put_obj (k_obj k) k = k.
Proof. by destruct k. Qed.

Lemma liftS_run {A} (m : M sched A) k a s' :
  m (k_sched k) = Ok a s' -> liftS m k = Ok a (put_sched s' k).
Proof. unfold liftS, zoom. by intros ->. Qed.
Lemma liftT_run {A} (m : M tsys A) k a s' :
  m (k_ts k) = Ok a s' -> liftT m k = Ok a (put_ts s' k).
Proof. unfold liftT, zoom. by intros ->. Qed.
Lemma liftO_run {A} (m : M objsys A) k a s' :
  m (k_obj k) = Ok a s' -> liftO m k = Ok a (put_obj s' k).
Proof. unfold liftO, zoom. by intros ->. Qed.

Lemma k_thread_run k t th : threads k !! t = Some th -> liftS (get_thread t) k = Ok th k.
Proof. intros E. erewrite liftS_run by (by apply get_thread_run). by rewrite put_sched_id. Qed.
Lemma k_timer_run k a tm : timers k !! a = Some tm -> liftT (get_timer a) k = Ok tm k.
Proof. intros E. erewrite liftT_run by (by apply get_timer_run). by rewrite put_ts_id. Qed.
Lemma k_list_run k h l : sc_lists (k_sched k) !! h = Some l -> liftS (get_list h) k = Ok l k.
Proof. intros E. erewrite liftS_run by (by apply get_list_run). by rewrite put_sched_id. Qed.
Lemma k_self_run k : liftS rt_thread_self k = Ok (sc_current (k_sched k)) k.
Proof. unfold liftS, zoom. cbn. by rewrite put_sched_id. Qed.
Lemma k_nest_run k : liftS rt_interrupt_get_nest k = Ok (sc_irq_nest (k_sched k)) k.
Proof. unfold liftS, zoom. cbn. by rewrite put_sched_id. Qed.
Lemma k_tick_run k : liftT rt_tick_get k = Ok (ts_tick (k_ts k)) k.
Proof. unfold liftT, zoom. cbn. by rewrite put_ts_id. Qed.
Lemma k_upd_thread_run k t f th :
  threads k !! t = Some th ->
  liftS (upd_thread t f) k = Ok tt (put_sched (put_thread t (f th) (k_sched k)) k).
Proof. intros E. by erewrite liftS_run by (by apply upd_thread_run). Qed.
Lemma thread_stat_run k t th :
  threads k !! t = Some th -> thread_stat t k = Ok (stat_of th) k.
Proof. intros E. unfold thread_stat. by rewrite (bind_ok _ _ _ _ _ (k_thread_run _ _ _ E)). Qed.
Lemma k_isempty_run k h :
  head_exists k h -> liftS (tlist_isempty h) k = Ok (bool_decide (waiters k h = [])) k.
Proof.
  intros [l Hl]. erewrite liftS_run by (by apply tlist_isempty_run). rewrite put_sched_id.
  unfold waiters, lget. by rewrite Hl.
Qed.

(** Only the object header matters for the type check. *)
Lemma assert_type_obj k a c :
  has_type k a c -> a <> AObj RT_NULL -> assert_type a c k = Ok tt k.
Proof.
  intros (o & Ho & Et) Hn. unfold assert_type.
  erewrite bind_ok by (eapply liftO_run, get_type_run; eauto).
  rewrite put_obj_id, Et. unfold RT_ASSERT. by rewrite Z.eqb_refl.
Qed.

Lemma has_type_nonnull k a c : kwf k -> has_type k a c -> a <> AObj RT_NULL.
Proof. intros Hk (o & Ho & _) ->. by rewrite (ow_null _ (kw_obj _ Hk)) in Ho. Qed.

Lemma assert_type_run k a c : kwf k -> has_type k a c -> assert_type a c k = Ok tt k.
Proof.
  intros Hk Ht. pose proof (has_type_nonnull _ _ _ Hk Ht) as Hn. destruct Ht as (o & Ho & Et).
  unfold assert_type. erewrite bind_ok by (eapply liftO_run, get_type_run; eauto).
  rewrite put_obj_id, Et. unfold RT_ASSERT. by rewrite Z.eqb_refl.
Qed.

Lemma nonnull_thread k t th : kwf k -> threads k !! t = Some th -> (t =? RT_NULL) = false.
Proof.
  intros Hk Ht. apply Z.eqb_neq. by apply (sw_thread _ _ (kw_sched _ Hk) _ _ Ht).
Qed.

Lemma timer_stop_k k t :
  kwf k -> thread_live k t ->
  exists r, rt_timer_stop (ATimer t) k = Ok r (put_ts (ts_stop (ATimer t) (k_ts k)) k).
Proof.
  intros Hk [_ (tm & Htm & _) Hty _]. unfold rt_timer_stop, is_null.
  rewrite bool_decide_false, bind_assert by done.
  rewrite (bind_ok _ _ _ _ _ (assert_type_run _ _ _ Hk Hty)).
  destruct (timer_stop_run _ _ _ Htm) as [r Hr]. exists r. by apply liftT_run.
Qed.

(** ** Stopping and starting the timer of a thread *)

Lemma last_row_stop a s :
  last_row (ts_stop a s) =
    match ts_timers s !! a with
    | Some tm => if activated tm then without a (last_row s) else last_row s
    | None => last_row s
    end.
Proof.
  unfold ts_stop. destruct (ts_timers s !! a) as [tm|]; [|done].
  destruct (activated tm); [|done]. apply last_row_remove.
Qed.

Lemma stop_row_sub a s x : x ∈ last_row (ts_stop a s) -> x ∈ last_row s.
Proof.
  rewrite last_row_stop. destruct (ts_timers s !! a) as [tm|]; [|done].
  destruct (activated tm); [|done]. rewrite elem_of_without. tauto.
Qed.

Lemma stop_timers a s x :
  ts_timers (ts_stop a s) !! x = ts_timers s !! x \/
  (x = a /\ exists tm, ts_timers s !! a = Some tm /\ ts_timers (ts_stop a s) !! a = Some (deactivate tm)).
Proof.
  unfold ts_stop. destruct (ts_timers s !! a) as [tm|] eqn:E; [|auto].
  destruct (activated tm); [|auto]. cbn. destruct (decide (x = a)) as [->|].
  - right. split; [done|]. exists tm. by rewrite lookup_insert_eq.
  - left. by rewrite lookup_insert_ne.
Qed.

Lemma kwf_stop k t : kwf k -> thread_live k t ->
  kwf (put_ts (ts_stop (ATimer t) (k_ts k)) k) /\
  ATimer t ∉ last_row (ts_stop (ATimer t) (k_ts k)).
Proof.
  intros Hk Hl.
  assert (Hout : ATimer t ∉ last_row (ts_stop (ATimer t) (k_ts k))).
  { rewrite last_row_stop. destruct (tl_timer _ _ Hl) as (tm & Htm & _).
    unfold timers in Htm. rewrite Htm. destruct (activated tm) eqn:Ea.
    - rewrite elem_of_without. tauto.
    - intros Hin. destruct (kw_ttimer _ Hk _ Hin) as (_ & tm' & _ & _ & E & Ea').
      unfold timers in E. congruence. }
  split; [|done]. apply kwf_ts_step; [done|]. split.
  - by apply twf_stop, Hk.
  - unfold ts_stop. destruct (ts_timers (k_ts k) !! ATimer t); [|done]. by case_match.
  - intros a tm Ha Hr. destruct (stop_timers (ATimer t) (k_ts k) a) as [E|(-> & tm' & E1 & E2)].
    + exists tm. rewrite E. split; [done|by apply same_timer_refl].
    + unfold timers in Ha. simplify_eq. exists (deactivate tm). split; [done|apply same_timer_deactivate].
  - intros x Hx. pose proof (stop_row_sub _ _ _ Hx) as Hx0.
    destruct (kw_ttimer _ Hk _ Hx0) as (th & tm & H1 & H2 & H3 & H4). split; [eauto|].
    destruct (stop_timers (ATimer t) (k_ts k) (ATimer x)) as [E|(E & _)].
    + exists tm. rewrite E. done.
    + by rewrite E in Hx.
  - intros p Hp. apply (kw_utimer _ Hk). by eapply stop_row_sub.
Qed.

(** ** Scheduler changes as kernel changes *)

(** One thread's control block and the lists change. *)
Lemma sched_step_thread k s' t th th' :
  kwf k -> swf ∅ s' -> threads k !! t = Some th ->
  sc_threads s' = <[t := th']> (threads k) ->
  (stat_of th' <> RT_THREAD_CLOSE -> stat_of th <> RT_THREAD_CLOSE) ->
  (stat_of th' = RT_THREAD_SUSPEND \/ ATimer t ∉ running k) ->
  (forall h, head_exists k h -> is_Some (sc_lists s' !! h)) ->
  (forall x, x ∈ lget s' HDefunct -> x ∈ waiters k HDefunct) ->
  sched_step k s'.
Proof.
  intros Hk Hs Ht E Hc Hr Hh Hd. split; try done.
  - intros x thx. rewrite E. destruct (decide (x = t)) as [->|]; intros Hx; simplify_map_eq; eauto.
  - intros x. rewrite E. destruct (decide (x = t)) as [->|]; intros Hx; simplify_map_eq; eauto.
  - intros x Hx. rewrite E. destruct (decide (x = t)) as [->|].
    + exists th'. rewrite lookup_insert_eq. split; [done|]. by destruct Hr.
    + destruct (kw_ttimer _ Hk _ Hx) as (thx & _ & H1 & H2 & _). exists thx.
      by rewrite lookup_insert_ne.
Qed.

(** Only the lists, the bitmap or the running thread change. *)
Lemma sched_step_lists k s' :
  kwf k -> swf ∅ s' -> sc_threads s' = threads k ->
  (forall h, head_exists k h -> is_Some (sc_lists s' !! h)) ->
  (forall x, x ∈ lget s' HDefunct -> x ∈ waiters k HDefunct) -> sched_step k s'.
Proof.
  intros Hk Hs E Hh Hd. split; try done; rewrite E; eauto.
  intros x Hx. destruct (kw_ttimer _ Hk _ Hx) as (thx & _ & H1 & H2 & _). eauto.
Qed.

(** A waiting thread leaves its wait list. *)
Lemma unlink_wait_swf X s t :
  swf X s -> (forall p, t ∉ rdy s p) ->
  let s' := put_lists (unlink t <$> sc_lists s) s in swf X s' /\ unlinked t s'.
Proof.
  intros Hw Hr s'.
  assert (Hg : forall h, lget s' h = unlink t (lget s h)) by (intros; apply lget_unlink).
  assert (Hin : forall h x, x ∈ lget s' h <-> x ∈ lget s h /\ x <> t)
    by (intros; by rewrite Hg, elem_of_unlink).
  assert (Hrd : forall p, rdy s' p = rdy s p) by (intros; unfold rdy at 1; rewrite Hg; by apply unlink_notin).
  split; [|intros h; rewrite Hin; tauto].
  split; try apply Hw.
  - intros p. cbn. rewrite lookup_fmap, fmap_is_Some. apply Hw.
  - cbn. rewrite lookup_fmap, fmap_is_Some. apply Hw.
  - intros h. rewrite Hg. apply NoDup_unlink, Hw.
  - intros h h' x [??]%Hin [??]%Hin. by apply (sw_disj _ _ Hw h h' x).
  - intros h x [??]%Hin. by apply (sw_member _ _ Hw h).
  - intros h x th [??]%Hin. by apply (sw_stat _ _ Hw h).
  - intros p x th. rewrite Hrd. by apply (sw_ready _ _ Hw p).
  - intros p x. rewrite Hrd. by apply (sw_running _ _ Hw p).
  - intros x th. rewrite Hrd. by apply (sw_queued _ _ Hw).
  - eapply bitmap_rep_ext; [apply (sw_bitmap _ _ Hw)|]. intros p _.
    unfold ready_set. by rewrite Hrd.
Qed.

Lemma not_ready_unqueued s t th :
  swf ∅ s -> sc_threads s !! t = Some th -> stat_of th <> RT_THREAD_READY ->
  forall p, t ∉ rdy s p.
Proof.
  intros Hw Ht Hs p Hin. apply Hs. by apply (sw_stat _ _ Hw _ _ _ Hin Ht); set_solver.
Qed.

Lemma heads_unlink k t h :
  head_exists k h -> is_Some ((unlink t <$> sc_lists (k_sched k)) !! h).
Proof. intros Hh. by rewrite lookup_fmap, fmap_is_Some. Qed.

Lemma heads_insert k t th h :
  kwf k -> masks_ok th -> head_exists k h -> is_Some (sc_lists (sched_insert t th (k_sched k)) !! h).
Proof.
  intros Hk Hm Hh. unfold sched_insert. case_match; [done|]. cbn.
  destruct (decide (h = HReady (th_current_priority th))) as [->|]; by simplify_map_eq.
Qed.

Lemma unlink_sub k t h x :
  x ∈ lget (put_lists (unlink t <$> sc_lists (k_sched k)) (k_sched k)) h -> x ∈ waiters k h.
Proof. unfold lget. cbn. rewrite lget_unlink, elem_of_unlink. by intros [? _]. Qed.

Lemma insert_sub s t th h x :
  (forall p, h <> HReady p) -> x ∈ lget (sched_insert t th s) h -> x ∈ lget s h.
Proof.
  intros Hh. unfold sched_insert. case_match; [done|].
  change (lget (bm_put ?b ?s') h) with (lget s' h).
  rewrite lget_put, decide_False by done. done.
Qed.

(** ** Resumption *)

Definition k_unlink (t : Z) (k : kstate) : kstate :=
  put_sched (put_lists (unlink t <$> sc_lists (k_sched k)) (k_sched k)) k.
Definition k_stop (t : Z) (k : kstate) : kstate := put_ts (ts_stop (ATimer t) (k_ts k)) k.
Definition k_ready (t : Z) (th : rt_thread) (k : kstate) : kstate :=
  put_sched (sched_insert t th (k_sched k)) k.

Lemma kwf_unlink k t th :
  kwf k -> threads k !! t = Some th -> stat_of th <> RT_THREAD_READY ->
  kwf (k_unlink t k) /\ unlinked t (k_sched (k_unlink t k)).
Proof.
  intros Hk Ht Hs. pose proof (kw_sched _ Hk) as Hw.
  destruct (unlink_wait_swf _ _ t Hw) as [Hw' Hu]; [by eapply not_ready_unqueued|].
  split; [|exact Hu]. apply kwf_sched_step; [done|apply sched_step_lists; try done|].
  - intros h. apply heads_unlink.
  - intros x. by apply unlink_sub.
  - intros o x. by apply unlink_sub.
Qed.

Lemma kwf_ready k t th :
  kwf k -> threads k !! t = Some th -> masks_ok th -> stat_of th <> RT_THREAD_CLOSE ->
  unlinked t (k_sched k) -> ATimer t ∉ running k ->
  liftS (rt_schedule_insert_thread t) k = Ok tt (k_ready t th k) /\ kwf (k_ready t th k).
Proof.
  intros Hk Ht Hm Hc Hu Hr. pose proof (kw_sched _ Hk) as Hw. split.
  { apply liftS_run. by eapply insert_run. }
  apply kwf_sched_step; [done|eapply (sched_step_thread k _ t th (set_stat RT_THREAD_READY th)); try done|].
  - apply (swf_weaken (∅ ∖ {[t]})); [|set_solver]. by apply sched_insert_swf.
  - by destruct (sched_insert_frame t th (k_sched k)) as (_ & _ & _ & ->).
  - by right.
  - intros h. by apply heads_insert.
  - intros x. by apply insert_sub.
  - intros o x. by apply insert_sub.
Qed.

Lemma live_masks k t th :
  kwf k -> threads k !! t = Some th -> stat_of th <> RT_THREAD_INIT -> stat_of th <> RT_THREAD_CLOSE -> masks_ok th.
Proof. intros Hk. apply (ready_masks ∅), Hk. Qed.

(** [rt_thread_resume] of a suspended thread: it leaves the list it waits in,
    its timer is stopped, and it joins the ready queue of its priority. *)
Definition k_resume (t : Z) (th : rt_thread) (k : kstate) : kstate :=
  k_ready t th (k_stop t (k_unlink t k)).

Lemma thread_resume_run k t th :
  kwf k -> threads k !! t = Some th -> stat_of th = RT_THREAD_SUSPEND ->
  rt_thread_resume t k = Ok RT_EOK (k_resume t th k) /\ kwf (k_resume t th k).
Proof.
  intros Hk Ht Hs. assert (Hl : thread_live k t) by (eapply kw_live; eauto; by rewrite Hs).
  unfold rt_thread_resume. rewrite (nonnull_thread _ _ _ Hk Ht), bind_assert by done.
  rewrite (bind_ok _ _ _ _ _ (assert_type_run _ _ _ Hk (tl_type _ _ Hl))).
  rewrite (bind_ok _ _ _ _ _ (thread_stat_run _ _ _ Ht)), Hs, Z.eqb_refl. cbn [negb].
  destruct (kwf_unlink k t th Hk Ht) as [Hk1 Hu1]; [by rewrite Hs|].
  erewrite bind_ok by (eapply liftS_run, tlist_remove_run, Ht). fold (k_unlink t k).
  set (k1 := k_unlink t k) in *.
  assert (Hl1 : thread_live k1 t) by (destruct Hl; by split).
  destruct (timer_stop_k _ _ Hk1 Hl1) as [r Hr]. rewrite (bind_ok _ _ _ _ _ Hr).
  destruct (kwf_stop _ _ Hk1 Hl1) as [Hk2 Hout]. fold (k_stop t k1) in Hk2 |- *.
  destruct (kwf_ready (k_stop t k1) t th) as [Hrun Hk3]; try done.
  - eapply live_masks; [exact Hk|exact Ht|by rewrite Hs..].
  - by rewrite Hs.
  - rewrite (bind_ok _ _ _ _ _ Hrun). done.
Qed.

(** ** Rescheduling *)

(** What [rt_schedule] does to the scheduler: nothing when it is locked, the
    reference choice otherwise. *)
Definition rescheduled (s s' : sched) : Prop :=
  sched_frame s s' /\
  (sc_lock_nest s <> 0 -> s' = s) /\
  (sc_lock_nest s = 0 -> (sc_current s', sc_lists s') = abs_schedule s).

Lemma abs_schedule_heads s h :
  is_Some (sc_lists s !! h) -> is_Some ((abs_schedule s).2 !! h).
Proof.
  intros Hh. unfold abs_schedule. repeat case_match; cbn; try done;
    rewrite lookup_fmap, fmap_is_Some; try done.
  destruct (decide (h = HReady (th_current_priority r))) as [->|]; by simplify_map_eq.
Qed.

Lemma abs_schedule_sub s h x :
  (forall p, h <> HReady p) -> x ∈ default [] ((abs_schedule s).2 !! h) -> x ∈ lget s h.
Proof.
  intros Hh. unfold abs_schedule. repeat case_match; cbn; try done; rewrite lookup_fmap.
  - rewrite lookup_insert_ne by done. unfold lget. destruct (sc_lists s !! h); cbn; [|done].
    rewrite elem_of_unlink. by intros [? _].
  - unfold lget. destruct (sc_lists s !! h); cbn; [|done].
    rewrite elem_of_unlink. by intros [? _].
Qed.

Lemma k_schedule_run k :
  kwf k -> sc_current (k_sched k) <> RT_NULL ->
  exists s', liftS rt_schedule k = Ok tt (put_sched s' k) /\
    kwf (put_sched s' k) /\ rescheduled (k_sched k) s'.
Proof.
  intros Hk Hc. pose proof (kw_sched _ Hk) as Hw.
  destruct (Z.eq_dec (sc_lock_nest (k_sched k)) 0) as [Hl|Hl].
  - destruct (schedule_run _ Hw Hc Hl) as (s' & E & Hw' & Hf & Ha). exists s'.
    split; [by apply liftS_run|]. split; [|by split_and!].
    apply (f_equal snd) in Ha. cbn in Ha.
    apply kwf_sched_step; [done|apply sched_step_lists; try done|].
    + apply Hf.
    + intros h. rewrite Ha. apply abs_schedule_heads.
    + intros x. unfold lget. rewrite Ha. by apply abs_schedule_sub.
    + intros o x. unfold lget. rewrite Ha. by apply abs_schedule_sub.
  - exists (k_sched k). rewrite put_sched_id. split; [|by split].
    erewrite liftS_run; [by rewrite put_sched_id|]. unfold rt_schedule. mstep.
    by rewrite (proj2 (Z.eqb_neq _ _) Hl).
Qed.

(** ** Suspension of the running thread *)

Definition k_suspend (t : Z) (th : rt_thread) (k : kstate) : kstate :=
  let th' := set_stat RT_THREAD_SUSPEND th in
  k_stop t (put_sched (sched_remove t th' (put_thread t th' (k_sched k))) k).

Lemma suspend_swf s t th :
  swf ∅ s -> sc_threads s !! t = Some th -> t = sc_current s ->
  stat_of th = RT_THREAD_READY ->
  let th' := set_stat RT_THREAD_SUSPEND th in
  let s1 := put_thread t th' s in
  rt_schedule_remove_thread t s1 = Ok tt (sched_remove t th' s1) /\
  swf ∅ (sched_remove t th' s1) /\ unlinked t (sched_remove t th' s1).
Proof.
  intros Hw Ht Hc Hs th' s1.
  assert (Hm : masks_ok th) by (eapply ready_masks; [exact Hw|exact Ht|by rewrite Hs..]).
  assert (Hu : unlinked t s) by (subst t; by eapply ready_current_unlinked).
  assert (Hw1 : swf ({[t]} ∪ ∅) s1).
  { apply put_thread_swf; [done|done|]. apply thread_ok_stat; [|done]. by apply (sw_thread _ _ Hw). }
  assert (Ht1 : sc_threads s1 !! t = Some th') by apply lookup_insert_eq.
  assert (Hm1 : masks_ok th') by by apply set_stat_masks.
  split; [by eapply remove_run|].
  destruct (remove_swf _ _ _ _ Hw1 Ht1 Hm1) as [Hw2 Hu2]. split; [|done].
  apply (swf_weaken ((({[t]} ∪ ({[t]} ∪ ∅)) ∖ {[t]}))); [|set_solver].
  apply swf_placed; [done|]. apply (placed_unlinked _ _ th'); [by rewrite sched_remove_threads|done|].
  intros E. unfold th' in E. by rewrite stat_of_set in E.
Qed.

Lemma thread_suspend_run k t th :
  kwf k -> threads k !! t = Some th -> t = sc_current (k_sched k) ->
  stat_of th = RT_THREAD_READY ->
  rt_thread_suspend t k = Ok RT_EOK (k_suspend t th k) /\ kwf (k_suspend t th k) /\
  unlinked t (k_sched (k_suspend t th k)) /\ (ATimer t ∉ running (k_suspend t th k)) /\
  threads (k_suspend t th k) = <[t := set_stat RT_THREAD_SUSPEND th]> (threads k).
Proof.
  intros Hk Ht Hc Hs. assert (Hl : thread_live k t) by (eapply kw_live; eauto; by rewrite Hs).
  unfold rt_thread_suspend. rewrite (nonnull_thread _ _ _ Hk Ht), bind_assert by done.
  rewrite (bind_ok _ _ _ _ _ (assert_type_run _ _ _ Hk (tl_type _ _ Hl))).
  rewrite (bind_ok _ _ _ _ _ (thread_stat_run _ _ _ Ht)), Hs, Z.eqb_refl. cbn [negb].
  rewrite (bind_ok _ _ _ _ _ (k_self_run k)), <- Hc, Z.eqb_refl, bind_assert by done.
  rewrite (bind_ok _ _ _ _ _ (k_upd_thread_run _ _ _ _ Ht)).
  destruct (suspend_swf _ _ _ (kw_sched _ Hk) Ht Hc Hs) as (E & Hw2 & Hu2).
  erewrite bind_ok by (eapply liftS_run; exact E).
  set (th' := set_stat RT_THREAD_SUSPEND th) in *.
  set (s2 := sched_remove t th' (put_thread t th' (k_sched k))) in *.
  change (put_sched s2 _) with (put_sched s2 k).
  assert (Hthr : sc_threads s2 = <[t := th']> (threads k)) by (unfold s2; by rewrite sched_remove_threads).
  assert (Hk2 : kwf (put_sched s2 k)).
  { apply kwf_sched_step; [done|eapply (sched_step_thread k s2 t th th'); try done|].
    - intros _. by rewrite Hs.
    - left. by apply stat_of_set.
    - intros h Hh. unfold s2. rewrite sched_remove_lists. by apply heads_unlink.
    - intros x. unfold s2. rewrite sched_remove_lget, elem_of_unlink. by intros [? _].
    - intros o x. unfold s2. rewrite sched_remove_lget, elem_of_unlink. by intros [? _]. }
  assert (Hl2 : thread_live (put_sched s2 k) t) by (destruct Hl; by split).
  destruct (timer_stop_k _ _ Hk2 Hl2) as [r Hr]. rewrite (bind_ok _ _ _ _ _ Hr).
  destruct (kwf_stop _ _ Hk2 Hl2) as [Hk3 Hout]. by split_and!.
Qed.

(** ** Starting the timer of a suspended thread *)

(** The thread times out [time] ticks from now; the other timers keep their
    order. *)
Record timer_set (k : kstate) (t time : Z) (ts' : tsys) : Prop := {
  tse_timeout : exists tm', ts_timers ts' !! ATimer t = Some tm' /\
    tm_timeout_tick tm' = u32 (ts_tick (k_ts k) + time) /\ activated tm' = true;
  tse_others : forall a, a <> ATimer t -> ts_timers ts' !! a = timers k !! a;
  tse_row : exists pre suf, without (ATimer t) (running k) = pre ++ suf /\
    last_row ts' = pre ++ ATimer t :: suf;
  tse_tick : ts_tick ts' = ts_tick (k_ts k)
}.

Lemma kwf_timer_set k t ts' th tm :
  kwf k -> threads k !! t = Some th -> stat_of th = RT_THREAD_SUSPEND ->
  timers k !! ATimer t = Some tm -> twf ts' ->
  (exists tm', ts_timers ts' !! ATimer t = Some tm' /\ same_timer tm tm') ->
  forall time, timer_set k t time ts' -> kwf (put_ts ts' k).
Proof.
  intros Hk Ht Hs Htm Hw (tm' & Htm' & Hsame) time [(tm1 & E1 & _ & Ha) Ho (pre & suf & Epre & Erow) Hti].
  rewrite Htm' in E1. injection E1 as <-.
  assert (Hrow : forall a, a ∈ last_row ts' -> a = ATimer t \/ a ∈ running k).
  { intros a. rewrite Erow. intros Hin.
    destruct (decide (a = ATimer t)); [auto|right].
    assert (Ha' : a ∈ pre ++ suf) by set_solver. rewrite <- Epre in Ha'.
    by apply elem_of_without in Ha' as [? _]. }
  apply kwf_ts_step; [done|]. split; [done|done| | |].
  - intros a tma Hta Hr. destruct (decide (a = ATimer t)) as [->|Hne].
    + rewrite Htm in Hta. injection Hta as <-. eauto.
    + exists tma. rewrite Ho by done. split; [done|by apply same_timer_refl].
  - intros x Hx. destruct (decide (x = t)) as [->|Hne]; [split; eauto|].
    destruct (Hrow _ Hx) as [?|Hx']; [congruence|].
    destruct (kw_ttimer _ Hk _ Hx') as (thx & tmx & H1 & H2 & H3 & H4). split; [eauto|].
    exists tmx. rewrite Ho by congruence. done.
  - intros p Hp. destruct (Hrow _ Hp) as [?|Hp']; [congruence|]. by apply (kw_utimer _ Hk).
Qed.

Lemma same_timer_trans a b c : same_timer a b -> same_timer b c -> same_timer a c.
Proof.
  intros (A1 & A2 & A3 & _) (B1 & B2 & B3 & B4). unfold same_timer.
  rewrite B1, B2, B3. auto.
Qed.

Lemma set_time_run s a tm time :
  ts_timers s !! a = Some tm ->
  timer_control a RT_TIMER_CTRL_SET_TIME time s =
    Ok (RT_EOK, None) (put_timer a {| tm with tm_init_tick := u32 time |} s).
Proof.
  intros Htm. unfold timer_control. rewrite (bind_ok _ _ _ _ _ (get_timer_run _ _ _ Htm)).
  change (RT_TIMER_CTRL_SET_TIME =? RT_TIMER_CTRL_GET_TIME) with false.
  change (RT_TIMER_CTRL_SET_TIME =? RT_TIMER_CTRL_SET_TIME) with true.
  cbv iota. by rewrite (bind_ok _ _ _ _ _ (upd_timer_run _ _ _ _ Htm)).
Qed.

Lemma timer_start_k k a ts' r :
  has_type k a RT_Object_Class_Timer -> a <> AObj RT_NULL ->
  timer_start a (k_ts k) = Ok r ts' -> rt_timer_start a k = Ok r (put_ts ts' k).
Proof.
  intros Ht Hn E. unfold rt_timer_start, is_null. rewrite bool_decide_false, bind_assert by done.
  rewrite (bind_ok _ _ _ _ _ (assert_type_obj _ _ _ Ht Hn)). by apply liftT_run.
Qed.

Lemma thread_timer_start_run k t th time :
  kwf k -> threads k !! t = Some th -> stat_of th = RT_THREAD_SUSPEND ->
  0 <= time < RT_TICK_MAX / 2 ->
  exists ts', thread_timer_start t time k = Ok tt (put_ts ts' k) /\
    kwf (put_ts ts' k) /\ timer_set k t time ts'.
Proof.
  intros Hk Ht Hs Htime. assert (Hl : thread_live k t) by (eapply kw_live; eauto; by rewrite Hs).
  destruct (tl_timer _ _ Hl) as (tm & Htm & Hok).
  unfold thread_timer_start, rt_timer_control, is_null. rewrite bind_assoc.
  rewrite bool_decide_false, bind_assert by done. rewrite bind_assoc.
  rewrite (bind_ok _ _ _ _ _ (assert_type_run _ _ _ Hk (tl_ttype _ _ Hl))).
  rewrite (bind_ok _ _ _ _ _ (liftT_run _ _ _ _ (set_time_run _ _ _ time Htm))).
  set (tm1 := {| tm with tm_init_tick := u32 time |}).
  set (s1 := put_timer (ATimer t) tm1 (k_ts k)).
  assert (Hu : u32 time = time) by (apply u32_small; change (RT_TICK_MAX / 2) with 2147483647 in *; lia).
  destruct (timer_start_run s1 (ATimer t) tm1) as (ts' & pre & suf & Es & Hw' & Etm & Etk & Ep & El & _).
  { by apply twf_put, Hk. }
  { apply lookup_insert_eq. }
  { cbn. lia. }
  change (last_row s1) with (running k) in Ep. change (ts_tick s1) with (ts_tick (k_ts k)) in *.
  change (ts_timers s1) with (<[ATimer t := tm1]> (timers k)) in Etm.
  rewrite insert_insert_eq in Etm. change (tm_init_tick tm1) with (u32 time) in Etm.
  rewrite (bind_ok _ _ _ _ _ (timer_start_k (put_ts s1 k) (ATimer t) ts' _ (tl_ttype _ _ Hl) ltac:(done) Es)).
  exists ts'. split; [done|].
  assert (Hset : timer_set k t time ts').
  { split; [|intros a Ha; rewrite Etm, lookup_insert_ne by done; done|eauto|done].
    eexists. rewrite Etm, lookup_insert_eq. split; [done|]. rewrite Hu.
    split; [done|apply activated_started]. }
  split; [|done]. eapply kwf_timer_set; eauto. eexists. rewrite Etm, lookup_insert_eq.
  split; [done|]. eapply same_timer_trans; [|apply same_timer_started].
  split; [done|]. split; [done|]. split; [done|apply Hok].
Qed.

End Inv.
