(* ===== verification/IpcInv.v ===== *)
(** * Wait lists: suspending and waking threads

    [rt_ipc_list_suspend] puts the running thread at the end of a FIFO list, or
    before the first waiter of lower priority of a priority list, so that a
    list in priority order stays in priority order; waking takes the first
    waiter, or all of them with the error code of a reset. *)

From S2P Require Import Prelude Scheduler ReadyBitmap SchedInv SchedSpec Object ObjInv Timer.
From S2P Require Import TimerInv Kernel Thread Ipc KernelInv ThreadInv.

Section Inv.
Context `{CO : ConfigOk} {HP : Heap} {HO : HeapOk HP}.
Implicit Types (k : kstate).

Definition is_wait (h : lhead) : Prop :=
  match h with HSuspend _ | HSender _ => True | _ => False end.

Lemma is_wait_stat h : is_wait h -> head_stat h = RT_THREAD_SUSPEND.
Proof. by destruct h. Qed.
Lemma is_wait_ready h p : is_wait h -> h <> HReady p.
Proof. by destruct h. Qed.

(** The priority of a thread. *)
Definition prio_of (s : sched) (t : Z) : Z := from_option th_current_priority 0 (sc_threads s !! t).

(** ** Priority order *)

(** [t] is put behind the waiters of its priority or higher. *)
Definition prio_cut (s : sched) (prio : Z) (l1 l2 : list Z) : Prop :=
  (forall x, x ∈ l1 -> prio_of s x <= prio) /\
  match l2 with [] => True | x :: _ => prio < prio_of s x end.

Lemma prio_insert_run s prio t l :
  (forall x, x ∈ l -> is_Some (sc_threads s !! x)) ->
  exists l1 l2, l = l1 ++ l2 /\ prio_insert prio t l s = Ok (l1 ++ t :: l2) s /\
    prio_cut s prio l1 l2.
Proof.
  induction l as [|x l IH]; intros Hm.
  { exists [], []. split_and!; [done..|]. split; [set_solver|done]. }
  destruct (Hm x) as [thx Hx]; [set_solver|]. cbn [prio_insert].
  rewrite (bind_ok _ _ _ _ _ (get_thread_run _ _ _ Hx)).
  assert (Hp : prio_of s x = th_current_priority thx) by (unfold prio_of; by rewrite Hx).
  destruct (Z.ltb_spec prio (th_current_priority thx)).
  - exists [], (x :: l). split_and!; [done..|]. split; [set_solver|lia].
  - destruct IH as (l1 & l2 & -> & E & H1 & H2); [set_solver|].
    exists (x :: l1), l2. rewrite (bind_ok _ _ _ _ _ E). split_and!; [done..|]. split; [|done].
    intros y [->|Hy]%elem_of_cons; [lia|by apply H1].
Qed.

Definition prio_sorted (s : sched) (l : list Z) : Prop :=
  StronglySorted (fun a b => prio_of s a <= prio_of s b) l.

Lemma prio_cut_sorted s t l1 l2 :
  prio_sorted s (l1 ++ l2) -> prio_cut s (prio_of s t) l1 l2 -> prio_sorted s (l1 ++ t :: l2).
Proof.
  intros Hs [H1 H2]. apply StronglySorted_app_inv in Hs as (S1 & S2 & S3).
  assert (Hge : forall y, y ∈ l2 -> prio_of s t <= prio_of s y).
  { destruct l2 as [|x l2]; [set_solver|]. apply StronglySorted_inv in S2 as [_ Hf].
    rewrite Forall_forall in Hf. intros y [->|Hy]%elem_of_cons; [lia|].
    specialize (Hf y Hy). simpl in Hf. lia. }
  apply StronglySorted_app_intro; [done| |].
  - constructor; [done|]. apply Forall_forall. exact Hge.
  - intros x y Hx [->|Hy]%elem_of_cons; [by apply H1|by apply S3].
Qed.

(** ** Suspending on a list *)

Definition k_link (h : lhead) (l : list Z) (k : kstate) : kstate :=
  put_sched (put_list h l (k_sched k)) k.

(** A thread may start to wait on [h]: the object is not available. *)
Definition may_wait (k : kstate) (h : lhead) : Prop :=
  forall o, h = HSuspend o ->
    (forall x, has_type k (AObj o) RT_Object_Class_Semaphore ->
       ip_sem (k_ipc k) !! o = Some x -> sem_value x = 0) /\
    (forall x, has_type k (AObj o) RT_Object_Class_Mutex ->
       ip_mutex (k_ipc k) !! o = Some x -> mutex_value x = 0).

Lemma ipc_ok_link k h l :
  ipc_ok k -> may_wait k h -> ipc_ok (k_link h l k).
Proof.
  intros Hi Hm.
  assert (Hh : forall h', head_exists k h' -> head_exists (k_link h l k) h').
  { intros h' Hh'. unfold head_exists. cbn. destruct (decide (h' = h)) as [->|]; by simplify_map_eq. }
  assert (Hw : forall o, HSuspend o <> h -> waiters (k_link h l k) (HSuspend o) = waiters k (HSuspend o)).
  { intros o Ho. unfold waiters. cbn. by rewrite lget_put, decide_False. }
  split; intros o Ho.
  - destruct (io_sem _ Hi o Ho) as (? & x & Hx & ? & Hv). split; [eauto|]. exists x.
    split; [done|]. split; [done|]. intros Hpos. destruct (decide (HSuspend o = h)) as [<-|]; [|rewrite Hw; auto].
    destruct (Hm o eq_refl) as [Hz _]. specialize (Hz x Ho Hx). lia.
  - destruct (io_mutex _ Hi o Ho) as (? & x & Hx & ? & Hv). split; [eauto|]. exists x.
    split; [done|]. split; [by eapply mutex_ok_frame|]. intros Hpos. destruct (decide (HSuspend o = h)) as [<-|]; [|rewrite Hw; auto].
    destruct (Hm o eq_refl) as [_ Hz]. specialize (Hz x Ho Hx). lia.
  - destruct (io_event _ Hi o Ho) as [? ?]; eauto.
  - destruct (io_mb _ Hi o Ho) as (? & ? & ?); eauto.
  - destruct (io_mq _ Hi o Ho) as (? & ?); eauto.
Qed.

Lemma kwf_link k h l t th :
  kwf k -> threads k !! t = Some th -> stat_of th = RT_THREAD_SUSPEND ->
  unlinked t (k_sched k) -> is_wait h -> head_exists k h -> may_wait k h ->
  l ≡ₚ t :: waiters k h -> kwf (k_link h l k).
Proof.
  intros Hk Ht Hs Hu Hwait Hh Hmw Hl. pose proof (kw_sched _ Hk) as Hw.
  apply kwf_sched_core; [done|apply sched_step_lists; try done|apply ipc_ok_link; [apply Hk|done]].
  - assert (Hw' : swf {[t]} (k_sched k)) by (apply (swf_weaken ∅); [done|set_solver]).
    apply (swf_weaken ({[t]} ∖ {[t]})); [|set_solver]. apply swf_placed.
    + apply (link_wait_swf _ _ t th); try done; [set_solver|intros p; by apply is_wait_ready].
    + apply (link_placed {[t]} _ t th); try done; [set_solver| |intros p; by apply is_wait_ready].
      by rewrite is_wait_stat.
  - intros h' Hh'. cbn. destruct (decide (h' = h)) as [->|]; by simplify_map_eq.
  - intros x. rewrite lget_put, decide_False; [done|]. by destruct h.
Qed.

(** Where a thread with flag [flag] is put among the waiters [l1 ++ l2]. *)
Definition wait_pos (s : sched) (flag t : Z) (l1 l2 : list Z) : Prop :=
  (flag = RT_IPC_FLAG_FIFO -> l2 = []) /\
  (flag = RT_IPC_FLAG_PRIO -> prio_cut s (prio_of s t) l1 l2).

Lemma insert_prio_run s h t th l :
  swf ∅ s -> sc_threads s !! t = Some th -> unlinked t s -> sc_lists s !! h = Some l ->
  exists l1 l2, l = l1 ++ l2 /\ prio_cut s (prio_of s t) l1 l2 /\
    tlist_insert_prio h t s = Ok tt (put_list h (l1 ++ t :: l2) s).
Proof.
  intros Hw Ht Hu Hl.
  assert (Hp : prio_of s t = th_current_priority th) by (unfold prio_of; by rewrite Ht).
  destruct (prio_insert_run s (th_current_priority th) t l) as (l1 & l2 & -> & E & Hc).
  { intros x Hx. apply (sw_member _ _ Hw h). unfold lget. by rewrite Hl. }
  exists l1, l2. rewrite Hp. split_and!; [done..|]. unfold tlist_insert_prio.
  rewrite (bind_ok _ _ _ _ _ (get_thread_run _ _ _ Ht)).
  rewrite (bind_ok _ _ _ _ _ (get_list_run _ _ _ Hl)), (bind_ok _ _ _ _ _ E), bind_getS.
  apply linked_spec in Hu. by rewrite Hu.
Qed.

(** The running thread has been suspended and may be put on the list [h]. *)
Record on_its_way (k : kstate) (h : lhead) (t : Z) (th : rt_thread) : Prop := {
  ow_run : rt_thread_suspend t k = Ok RT_EOK (k_suspend t th k);
  ow_kwf : kwf (k_suspend t th k);
  ow_unlinked : unlinked t (k_sched (k_suspend t th k));
  ow_thread : threads (k_suspend t th k) !! t = Some (set_stat RT_THREAD_SUSPEND th);
  ow_list : sc_lists (k_sched (k_suspend t th k)) !! h = Some (waiters k h);
  ow_prio : forall x, prio_of (k_sched (k_suspend t th k)) x = prio_of (k_sched k) x;
  ow_link : forall l1 l2, waiters k h = l1 ++ l2 -> kwf (k_link h (l1 ++ t :: l2) (k_suspend t th k))
}.

Lemma suspend_for_list k h t th :
  kwf k -> threads k !! t = Some th -> t = sc_current (k_sched k) ->
  stat_of th = RT_THREAD_READY -> is_wait h -> head_exists k h -> may_wait k h -> on_its_way k h t th.
Proof.
  intros Hk Ht Hc Hs Hwait Hh Hmw.
  destruct (thread_suspend_run k t th Hk Ht Hc Hs) as (E & Hk1 & Hu & _ & Eth).
  assert (Ht1 : threads (k_suspend t th k) !! t = Some (set_stat RT_THREAD_SUSPEND th)) by (rewrite Eth; apply lookup_insert_eq).
  assert (Hul : unlinked t (k_sched k)).
  { subst t. eapply ready_current_unlinked; [apply Hk|done|done]. }
  assert (Hwt : waiters (k_suspend t th k) h = waiters k h).
  { unfold waiters, k_suspend. cbn. rewrite sched_remove_lget. by apply unlink_notin. }
  assert (Hh1 : sc_lists (k_sched (k_suspend t th k)) !! h = Some (waiters k h)).
  { unfold k_suspend. cbn. rewrite sched_remove_lists. cbn. rewrite lookup_fmap.
    destruct Hh as [l Hl]. unfold waiters, lget. rewrite Hl. cbn. f_equal. apply unlink_notin.
    specialize (Hul h). unfold lget in Hul. by rewrite Hl in Hul. }
  split; try done.
  - intros x. unfold prio_of. fold (threads (k_suspend t th k)). rewrite Eth.
    destruct (decide (x = t)) as [->|]; [|by rewrite lookup_insert_ne].
    unfold threads in Ht. by rewrite lookup_insert_eq, Ht.
  - intros l1 l2 El. apply (kwf_link _ h _ t (set_stat RT_THREAD_SUSPEND th)); try done.
    + by apply stat_of_set.
    + by eexists.
    + by rewrite Hwt, El, Permutation_middle.
Qed.

Lemma list_suspend_run k h t th flag :
  kwf k -> threads k !! t = Some th -> t = sc_current (k_sched k) ->
  stat_of th = RT_THREAD_READY -> is_wait h -> head_exists k h -> may_wait k h ->
  flag = RT_IPC_FLAG_FIFO \/ flag = RT_IPC_FLAG_PRIO ->
  exists l1 l2, waiters k h = l1 ++ l2 /\ wait_pos (k_sched k) flag t l1 l2 /\
    let k' := k_link h (l1 ++ t :: l2) (k_suspend t th k) in
    rt_ipc_list_suspend h t flag k = Ok RT_EOK k' /\ kwf k'.
Proof.
  intros Hk Ht Hc Hs Hwait Hh Hmw Hf.
  destruct (suspend_for_list k h t th) as [E Hk1 Hu Ht1 Hh1 Hpr Hfin]; try done.
  unfold rt_ipc_list_suspend. rewrite (bind_ok _ _ _ _ _ E).
  destruct Hf as [-> | ->].
  - exists (waiters k h), []. rewrite app_nil_r. split; [done|]. split; [by split|]. cbv zeta.
    split; [|by apply Hfin; rewrite app_nil_r].
    erewrite bind_ok by (eapply liftS_run, tlist_insert_before_run; eauto). done.
  - destruct (insert_prio_run (k_sched (k_suspend t th k)) h t (set_stat RT_THREAD_SUSPEND th) (waiters k h))
      as (l1 & l2 & El & Hcut & Ei); [apply Hk1|done|done|done|].
    exists l1, l2. split; [done|]. split.
    { split; [done|]. intros _. unfold prio_cut in *. rewrite Hpr in Hcut.
      destruct Hcut as [C1 C2]. split; [intros x Hx; rewrite <- Hpr; auto|].
      destruct l2; [done|]. by rewrite Hpr in C2. }
    cbv zeta. split; [|by apply Hfin].
    erewrite bind_ok by (cbn; eapply liftS_run; exact Ei). done.
Qed.

(** ** The timer of a waiting thread *)

Lemma wait_timer_run k t th time :
  kwf k -> threads k !! t = Some th -> stat_of th = RT_THREAD_SUSPEND ->
  time < RT_TICK_MAX / 2 ->
  exists ts', wait_timer t time k = Ok tt (put_ts ts' k) /\ kwf (put_ts ts' k) /\
    (time <= 0 -> ts' = k_ts k) /\ (0 < time -> timer_set k t time ts').
Proof.
  intros Hk Ht Hs Hti. unfold wait_timer. destruct (Z.ltb_spec 0 time); cbn [when].
  - destruct (thread_timer_start_run k t th time) as (ts' & E & Hk' & Hset); try done; [lia|].
    exists ts'. split_and!; [done|done|lia|done].
  - exists (k_ts k). rewrite put_ts_id. split_and!; [done|done|done|lia].
Qed.

(** ** Waking *)

(** What waking threads leaves alone. *)
Record wake_frame (k k' : kstate) : Prop := {
  wf_ipc : k_ipc k' = k_ipc k;
  wf_obj : k_obj k' = k_obj k;
  wf_heap : k_heap k' = k_heap k;
  wf_current : sc_current (k_sched k') = sc_current (k_sched k);
  wf_lock : sc_lock_nest (k_sched k') = sc_lock_nest (k_sched k);
  wf_irq : sc_irq_nest (k_sched k') = sc_irq_nest (k_sched k);
  wf_tick : ts_tick (k_ts k') = ts_tick (k_ts k);
  wf_heads : forall h, head_exists k h -> head_exists k' h
}.

#[global] Instance wake_frame_po : PreOrder wake_frame.
Proof.
  split; [by split|]. intros k1 k2 k3 [] []. split; try congruence. auto.
Qed.

Lemma ts_stop_tick a s : ts_tick (ts_stop a s) = ts_tick s.
Proof. unfold ts_stop. destruct (ts_timers s !! a); [|done]. by case_match. Qed.

Lemma k_resume_frame k t th : wake_frame k (k_resume t th k).
Proof.
  unfold k_resume, k_ready. set (s1 := k_sched (k_stop t (k_unlink t k))).
  destruct (sched_insert_frame t th s1) as (F1 & F2 & F3 & _).
  split; try done; [apply ts_stop_tick|].
  intros h Hh. unfold head_exists. cbn. unfold sched_insert.
  assert (Hh1 : is_Some (sc_lists s1 !! h)) by by apply heads_unlink.
  case_match; [done|]. cbn.
  destruct (decide (h = HReady (th_current_priority th))) as [->|]; by simplify_map_eq.
Qed.

Lemma k_resume_threads k t th :
  threads (k_resume t th k) = <[t := set_stat RT_THREAD_READY th]> (threads k).
Proof.
  exact (proj2 (proj2 (proj2 (sched_insert_frame t th (k_sched (k_stop t (k_unlink t k))))))).
Qed.

Lemma k_resume_waiters k t th h :
  is_wait h -> waiters (k_resume t th k) h = unlink t (waiters k h).
Proof.
  intros Hh. unfold waiters, k_resume, k_ready. cbn. unfold sched_insert.
  case_match.
  - unfold lget at 1. cbn. by rewrite lget_unlink.
  - change (lget (bm_put ?b ?s') h) with (lget s' h). rewrite lget_put, decide_False by (by destruct h).
    unfold lget at 1. cbn. by rewrite lget_unlink.
Qed.

Lemma wait_suspended k h t :
  kwf k -> is_wait h -> t ∈ waiters k h ->
  exists th, threads k !! t = Some th /\ stat_of th = RT_THREAD_SUSPEND.
Proof.
  intros Hk Hh Hin. pose proof (kw_sched _ Hk) as Hw.
  destruct (sw_member _ _ Hw _ _ Hin) as [th Hth]. exists th. split; [done|].
  rewrite <- (is_wait_stat h Hh). by apply (sw_stat _ _ Hw h t); [..|set_solver].
Qed.

Lemma waiters_list k h t rest :
  waiters k h = t :: rest -> sc_lists (k_sched k) !! h = Some (t :: rest).
Proof. unfold waiters, lget. destruct (sc_lists (k_sched k) !! h); cbn; [by intros ->|done]. Qed.

Lemma first_waiter_run k h t rest :
  waiters k h = t :: rest -> first_waiter h k = Ok t k.
Proof.
  intros E. unfold first_waiter.
  by rewrite (bind_ok _ _ _ _ _ (k_list_run _ _ _ (waiters_list _ _ _ _ E))).
Qed.

Lemma list_resume_run k h t rest :
  kwf k -> is_wait h -> waiters k h = t :: rest ->
  exists th, threads k !! t = Some th /\ stat_of th = RT_THREAD_SUSPEND /\
    rt_ipc_list_resume h k = Ok RT_EOK (k_resume t th k) /\ kwf (k_resume t th k).
Proof.
  intros Hk Hh E. destruct (wait_suspended k h t) as (th & Ht & Hs); [done|done|rewrite E; set_solver|].
  exists th. destruct (thread_resume_run k t th Hk Ht Hs) as [Hr Hk'].
  split_and!; [done..| |done]. unfold rt_ipc_list_resume.
  rewrite (bind_ok _ _ _ _ _ (first_waiter_run _ _ _ _ E)). by rewrite (bind_ok _ _ _ _ _ Hr).
Qed.

(** Setting fields that do not matter for scheduling. *)
Definition k_put (t : Z) (th : rt_thread) (k : kstate) : kstate :=
  put_sched (put_thread t th (k_sched k)) k.

Lemma kwf_put_same k t th th' :
  kwf k -> threads k !! t = Some th -> same_sched th th' -> kwf (k_put t th' k).
Proof.
  intros Hk Ht Hs. pose proof (kw_sched _ Hk) as Hw. pose proof Hs as (E1 & _).
  apply kwf_sched_step; [done|apply (sched_step_thread k _ t th th'); try done|by intros o x].
  - by apply (put_thread_same _ _ _ th).
  - unfold stat_of. by rewrite E1.
  - destruct (decide (ATimer t ∈ running k)) as [Hin|]; [|auto]. left.
    destruct (kw_ttimer _ Hk _ Hin) as (th0 & _ & H1 & H2 & _). unfold stat_of in *.
    rewrite E1. unfold threads in *. congruence.
Qed.

Lemma set_error_same e th : same_sched th (set_error e th).
Proof. by split_and!. Qed.

Lemma k_put_frame k t th : wake_frame k (k_put t th k).
Proof. by split. Qed.

(** A thread woken by the reset or deletion of the object it waits for. *)
Definition woken_error (th : rt_thread) : rt_thread :=
  set_stat RT_THREAD_READY (set_error (- RT_ERROR) th).

Record resumed_all (h : lhead) (k k' : kstate) : Prop := {
  ra_frame : wake_frame k k';
  ra_empty : waiters k' h = [];
  ra_threads : forall t, threads k' !! t =
    if decide (t ∈ waiters k h) then woken_error <$> threads k !! t else threads k !! t;
  ra_others : forall h', is_wait h' -> h' <> h -> waiters k' h' = waiters k h'
}.

Lemma wait_disj k h h' t :
  kwf k -> t ∈ waiters k h -> t ∈ waiters k h' -> h = h'.
Proof. intros Hk. apply (sw_disj _ _ (kw_sched _ Hk)). Qed.

Lemma resume_all_loop_run h l fuel k :
  kwf k -> is_wait h -> head_exists k h -> waiters k h = l -> (length l < fuel)%nat ->
  exists k', resume_all_loop fuel h k = Ok tt k' /\ kwf k' /\ resumed_all h k k'.
Proof.
  revert fuel k. induction l as [|t l IH]; intros [|fuel] k Hk Hh Hhe El Hf; simpl in Hf; try lia;
    cbn [resume_all_loop]; rewrite (bind_ok _ _ _ _ _ (k_isempty_run _ _ Hhe)), El.
  - rewrite bool_decide_true by done. exists k. split; [done|]. split; [done|].
    split; [done|done| |done]. intros t. rewrite El. rewrite decide_False by set_solver. done.
  - rewrite bool_decide_false by done. rewrite (bind_ok _ _ _ _ _ (first_waiter_run _ _ _ _ El)).
    destruct (wait_suspended k h t) as (th & Ht & Hs); [done|done|rewrite El; set_solver|].
    rewrite (bind_ok _ _ _ _ _ (k_upd_thread_run _ _ _ _ Ht)).
    set (th1 := set_error (- RT_ERROR) th). fold (k_put t th1 k). set (k1 := k_put t th1 k).
    assert (Hk1 : kwf k1) by (eapply kwf_put_same; [done|done|apply set_error_same]).
    assert (Ht1 : threads k1 !! t = Some th1) by apply lookup_insert_eq.
    destruct (thread_resume_run k1 t th1 Hk1 Ht1 Hs) as [Hr Hk2].
    rewrite (bind_ok _ _ _ _ _ Hr). set (k2 := k_resume t th1 k1) in *.
    assert (Hfr : wake_frame k k2) by (etrans; [apply k_put_frame|apply k_resume_frame]).
    assert (Hnd : NoDup (t :: l)) by (rewrite <- El; apply (sw_nodup _ _ (kw_sched _ Hk))).
    apply NoDup_cons in Hnd as [Hnt Hnd].
    assert (Ew : waiters k2 h = l).
    { unfold k2. rewrite k_resume_waiters by done. change (waiters k1 h) with (waiters k h).
      rewrite El. unfold unlink. rewrite filter_cons_False by tauto. by apply unlink_notin. }
    destruct (IH fuel k2) as (k' & E & Hk' & [Ff Fe Ft Fo]); try done; [by apply Hfr|lia|].
    exists k'. split; [done|]. split; [done|]. split; [by etrans|done| |].
    + intros x. rewrite Ft, Ew, El. unfold k2. rewrite k_resume_threads.
      change (threads k1) with (<[t := th1]> (threads k)).
      destruct (decide (x = t)) as [->|Hne].
      * rewrite decide_False, decide_True by set_solver. by rewrite lookup_insert_eq, Ht.
      * rewrite !lookup_insert_ne by done. destruct (decide (x ∈ l)).
        -- by rewrite decide_True by set_solver.
        -- by rewrite decide_False by set_solver.
    + intros h' Hw' Hne. rewrite Fo by done. unfold k2. rewrite k_resume_waiters by done.
      change (waiters k1 h') with (waiters k h'). apply unlink_notin. intros Hin.
      apply Hne. eapply wait_disj; [exact Hk|exact Hin|]. rewrite El. set_solver.
Qed.

Lemma resume_all_run k h :
  kwf k -> is_wait h -> head_exists k h ->
  exists k', rt_ipc_list_resume_all h k = Ok RT_EOK k' /\ kwf k' /\ resumed_all h k k'.
Proof.
  intros Hk Hh Hhe. pose proof Hhe as [l Hl]. unfold rt_ipc_list_resume_all.
  rewrite (bind_ok _ _ _ _ _ (k_list_run _ _ _ Hl)).
  destruct (resume_all_loop_run h l (S (length l)) k) as (k' & E & Hk' & Hr); try done; [|lia|].
  { unfold waiters, lget. by rewrite Hl. }
  exists k'. rewrite (bind_ok _ _ _ _ _ E). done.
Qed.

End Inv.
