(* ===== verification/BlockInv.v ===== *)
(** * Blocking on a kernel object

    The common part of every blocking call: the running thread is put on the
    wait list of the object, its timer is started when the call has a timeout,
    and the processor is given away. *)

From S2P Require Import Prelude Scheduler ReadyBitmap SchedInv SchedSpec Object ObjInv Timer.
From S2P Require Import TimerInv Kernel Thread Ipc KernelInv ThreadInv IpcInv.

Section Inv.
Context `{CO : ConfigOk} {HP : Heap} {HO : HeapOk HP}.
Implicit Types (k : kstate).

Definition ipc_flag (flag : Z) : Prop := flag = RT_IPC_FLAG_FIFO \/ flag = RT_IPC_FLAG_PRIO.

Lemma nonnull_obj k o c : kwf k -> has_type k (AObj o) c -> (o =? RT_NULL) = false.
Proof.
  intros Hk Ht. apply Z.eqb_neq. intros ->. by apply (has_type_nonnull _ _ _ Hk Ht).
Qed.

Lemma kwf_ipc k i : kwf k -> ipc_ok (put_ipc i k) -> kwf (put_ipc i k).
Proof. intros Hk Hi. split; try apply Hk; try done. intros t th H1 H2. by destruct (kw_live _ Hk t th H1 H2). Qed.

(** The parameter checks of the IPC operations. *)
Lemma check_run {A} k o c (m : K A) :
  kwf k -> has_type k (AObj o) c ->
  (RT_ASSERT (negb (o =? RT_NULL));; assert_type (AObj o) c;; m) k = m k.
Proof.
  intros Hk Ho. rewrite (nonnull_obj _ _ _ Hk Ho), bind_assert by done.
  by rewrite (bind_ok _ _ _ _ _ (assert_type_run _ _ _ Hk Ho)).
Qed.

Lemma assert_system_run k o ob b :
  kwf k -> os_objs (k_obj k) !! AObj o = Some ob -> is_static ob = b ->
  assert_systemobject (AObj o) b k = Ok tt k.
Proof.
  intros Hk Ho Hb. unfold assert_systemobject.
  assert (Hn : AObj o <> AObj RT_NULL).
  { intros [= ->]. by rewrite (ow_null _ (kw_obj _ Hk)) in Ho. }
  rewrite (bind_ok _ _ _ _ _ (liftO_run _ _ _ _ (is_system_run _ _ _ Ho Hn))).
  rewrite put_obj_id, Hb. unfold RT_ASSERT. by rewrite eqb_reflx.
Qed.

(** The caller may block: a running, ready thread, outside interrupts. *)
Record can_block (k : kstate) (t : Z) (th : rt_thread) : Prop := {
  cb_thread : threads k !! t = Some th;
  cb_current : t = sc_current (k_sched k);
  cb_ready : stat_of th = RT_THREAD_READY;
  cb_irq : sc_irq_nest (k_sched k) = 0
}.

(** The state after a thread has blocked on [h]. *)
Record blocked_on (k : kstate) (h : lhead) (t : Z) (th : rt_thread) (flag time : Z) (k' : kstate)
    : Prop := {
  bl_ipc : k_ipc k' = k_ipc k;
  bl_obj : k_obj k' = k_obj k;
  bl_heap : k_heap k' = k_heap k;
  bl_threads : threads k' = <[t := set_stat RT_THREAD_SUSPEND th]> (threads k);
  bl_wait : exists l1 l2, waiters k h = l1 ++ l2 /\ waiters k' h = l1 ++ t :: l2 /\
    wait_pos (k_sched k) flag t l1 l2;
  bl_others : forall h', is_wait h' -> h' <> h -> waiters k' h' = waiters k h';
  bl_timer : 0 < time -> exists tm, timers k' !! ATimer t = Some tm /\ activated tm = true /\
    tm_timeout_tick tm = u32 (ts_tick (k_ts k) + time) /\ ATimer t ∈ running k';
  bl_forever : time <= 0 -> ATimer t ∉ running k';
  bl_irq : sc_irq_nest (k_sched k') = sc_irq_nest (k_sched k);
  bl_switch : sc_lock_nest (k_sched k) = 0 -> forall x thx, threads k !! x = Some thx -> x <> t ->
    stat_of thx = RT_THREAD_READY -> sc_current (k_sched k') <> t
}.

Lemma thread_context_run k t th :
  kwf k -> can_block k t th -> RT_DEBUG_IN_THREAD_CONTEXT k = Ok tt k.
Proof.
  intros Hk [Ht Hc Hr Hi]. unfold RT_DEBUG_IN_THREAD_CONTEXT, RT_DEBUG_NOT_IN_INTERRUPT.
  rewrite (bind_ok _ _ _ _ _ (k_self_run k)), <- Hc, (nonnull_thread _ _ _ Hk Ht).
  rewrite bind_assert by done. rewrite (bind_ok _ _ _ _ _ (k_nest_run k)), Hi. done.
Qed.

(** Waits are not touched by a reschedule when nobody of the list is ready. *)
Lemma abs_schedule_wait s h :
  swf ∅ s -> is_wait h -> default [] ((abs_schedule s).2 !! h) = lget s h.
Proof.
  intros Hw Hh. unfold abs_schedule.
  destruct (top_ready s) as [[t p]|] eqn:E; [|done].
  assert (Hn : t ∉ lget s h).
  { intros Hin. destruct (decide (sc_group s = 0)) as [Hg|Hg].
    - by rewrite (top_ready_none _ _ Hw Hg) in E.
    - destruct (get_highest_run _ _ Hw Hg) as (t' & p' & rest & _ & Hp & _ & E'). simplify_eq.
      assert (Hr : t ∈ lget s (HReady p)) by (unfold rdy in Hp; rewrite Hp; set_solver).
      pose proof (sw_disj _ _ Hw _ _ _ Hin Hr) as ->. done. }
  assert (Hu : forall (m : gmap lhead (list Z)), m !! h = sc_lists s !! h ->
    default [] ((unlink t <$> m) !! h) = lget s h).
  { intros m Em. rewrite lookup_fmap, Em. unfold lget in *. destruct (sc_lists s !! h); [|done].
    cbn. by apply unlink_notin. }
  repeat case_match; try done; apply Hu; [|done].
  rewrite lookup_insert_ne; [done|]. by destruct h.
Qed.

Lemma rescheduled_wait k s' h :
  kwf k -> rescheduled (k_sched k) s' -> is_wait h -> lget s' h = waiters k h.
Proof.
  intros Hk (_ & H1 & H2) Hh. destruct (Z.eq_dec (sc_lock_nest (k_sched k)) 0) as [Hl|Hl].
  - unfold lget. specialize (H2 Hl). apply (f_equal snd) in H2. cbn in H2. rewrite H2.
    apply abs_schedule_wait; [apply Hk|done].
  - by rewrite (H1 Hl).
Qed.

(** A suspended running thread gives the processor to a ready one. *)
Lemma rescheduled_away k s' t th x thx :
  kwf k -> rescheduled (k_sched k) s' -> sc_lock_nest (k_sched k) = 0 ->
  t = sc_current (k_sched k) -> threads k !! t = Some th -> stat_of th <> RT_THREAD_READY ->
  threads k !! x = Some thx -> stat_of thx = RT_THREAD_READY -> sc_current s' <> t.
Proof.
  intros Hk (Hf & _ & H2) Hl Hc Ht Hs Hx Hsx. specialize (H2 Hl). apply (f_equal fst) in H2. cbn in H2.
  pose proof (kw_sched _ Hk) as Hw.
  assert (Hn : sc_current (k_sched k) <> RT_NULL).
  { rewrite <- Hc. apply (sw_thread _ _ Hw _ _ Ht). }
  rewrite H2. intros E. subst t. rewrite <- E in Ht.
  destruct (abs_schedule_min _ _ _ _ Hw Hn Ht Hx Hsx) as [Hr _]. done.
Qed.

Lemma k_suspend_frame k t th :
  k_ipc (k_suspend t th k) = k_ipc k /\ k_obj (k_suspend t th k) = k_obj k /\
  k_heap (k_suspend t th k) = k_heap k /\
  sc_current (k_sched (k_suspend t th k)) = sc_current (k_sched k) /\
  sc_lock_nest (k_sched (k_suspend t th k)) = sc_lock_nest (k_sched k) /\
  sc_irq_nest (k_sched (k_suspend t th k)) = sc_irq_nest (k_sched k) /\
  ts_tick (k_ts (k_suspend t th k)) = ts_tick (k_ts k).
Proof.
  unfold k_suspend. cbn. rewrite sched_remove_current, ts_stop_tick.
  destruct (sched_remove_frame t (set_stat RT_THREAD_SUSPEND th)
    (put_thread t (set_stat RT_THREAD_SUSPEND th) (k_sched k))) as (_ & -> & ->). done.
Qed.

Lemma k_suspend_waiters k t th h :
  unlinked t (k_sched k) -> waiters (k_suspend t th k) h = waiters k h.
Proof.
  intros Hu. unfold waiters, k_suspend. cbn. rewrite sched_remove_lget. apply unlink_notin, Hu.
Qed.

(** From the wait list on: the timer is started and the processor given
    away. *)
Lemma block_tail_run k h t th flag time l1 l2 :
  kwf k -> can_block k t th -> is_wait h -> time < RT_TICK_MAX / 2 ->
  waiters k h = l1 ++ l2 -> wait_pos (k_sched k) flag t l1 l2 ->
  let k1 := k_link h (l1 ++ t :: l2) (k_suspend t th k) in
  kwf k1 ->
  exists k2 k3, wait_timer t time k1 = Ok tt k2 /\ liftS rt_schedule k2 = Ok tt k3 /\
    ts_tick (k_ts k1) = ts_tick (k_ts k) /\ kwf k3 /\ blocked_on k h t th flag time k3 /\
    waiters k3 h = l1 ++ t :: l2.
Proof.
  intros Hk [Ht Hc Hr Hi] Hh Hti El Hpos k1 Hk1.
  destruct (thread_suspend_run k t th Hk Ht Hc Hr) as (_ & _ & _ & Hout & Eth).
  destruct (k_suspend_frame k t th) as (F1 & F2 & F3 & F4 & F5 & F6 & F7).
  set (th' := set_stat RT_THREAD_SUSPEND th) in *.
  assert (Ht1 : threads k1 !! t = Some th') by (change (threads k1) with (threads (k_suspend t th k)); rewrite Eth; apply lookup_insert_eq).
  assert (Hs1 : stat_of th' = RT_THREAD_SUSPEND) by by apply stat_of_set.
  destruct (wait_timer_run k1 t th' time) as (ts' & E2 & Hk2 & T1 & T2); try done.
  set (k2 := put_ts ts' k1) in *.
  assert (Hc2 : sc_current (k_sched k2) <> RT_NULL).
  { change (sc_current (k_sched k2)) with (sc_current (k_sched (k_suspend t th k))).
    rewrite F4, <- Hc. apply (sw_thread _ _ (kw_sched _ Hk) _ _ Ht). }
  destruct (k_schedule_run k2 Hk2 Hc2) as (s' & E3 & Hk3 & Hres).
  exists k2, (put_sched s' k2).
  assert (Hwt : waiters (put_sched s' k2) h = l1 ++ t :: l2).
  { change (lget s' h = l1 ++ t :: l2). rewrite (rescheduled_wait k2) by done.
    unfold waiters, k2, k1. cbn. by rewrite lget_put, decide_True. }
  split_and!; try done.
  assert (Hul : unlinked t (k_sched k)) by (subst t; eapply ready_current_unlinked; [apply Hk|done|done]).
  pose proof Hres as ((G1 & G2 & G3) & _).
  split; try done.
  - change (sc_threads s' = <[t := th']> (threads k)). rewrite G1. exact Eth.
  - by exists l1, l2.
  - intros h' Hw' Hne. change (lget s' h' = waiters k h'). rewrite (rescheduled_wait k2) by done.
    unfold waiters at 1, k2, k1. cbn. rewrite lget_put, decide_False by done.
    by apply k_suspend_waiters.
  - intros Hpos'. destruct (T2 Hpos') as [(tm & A1 & A2 & A3) _ (pre & suf & _ & Er) _].
    exists tm. split_and!; [done|done| |].
    + rewrite A2. change (ts_tick (k_ts k1)) with (ts_tick (k_ts (k_suspend t th k))). by rewrite F7.
    + unfold running. cbn. rewrite Er. set_solver.
  - intros Hneg. unfold running. cbn. rewrite (T1 Hneg). exact Hout.
  - cbn. rewrite G3. exact F6.
  - intros Hl x thx Hx Hne Hsx. eapply (rescheduled_away k2 s' t th' x thx); try done.
    + by etransitivity; [exact F5|].
    + by etransitivity; [exact Hc|symmetry; exact F4].
    + by rewrite Hs1.
    + change (threads (k_suspend t th k) !! x = Some thx). by rewrite Eth, lookup_insert_ne.
Qed.

(** The three steps of blocking. *)
Lemma block_run k h t th flag time :
  kwf k -> can_block k t th -> is_wait h -> head_exists k h -> may_wait k h ->
  ipc_flag flag -> time < RT_TICK_MAX / 2 ->
  exists k1 k2 k3, rt_ipc_list_suspend h t flag k = Ok RT_EOK k1 /\
    wait_timer t time k1 = Ok tt k2 /\ liftS rt_schedule k2 = Ok tt k3 /\
    ts_tick (k_ts k1) = ts_tick (k_ts k) /\
    kwf k3 /\ blocked_on k h t th flag time k3.
Proof.
  intros Hk Hb Hh Hhe Hmw Hf Hti.
  destruct (list_suspend_run k h t th flag) as (l1 & l2 & El & Hpos & E1 & Hk1); try apply Hb; try done.
  destruct (block_tail_run k h t th flag time l1 l2) as (k2 & k3 & E2 & E3 & Ht & Hk3 & Hbl & _); try done.
  by exists (k_link h (l1 ++ t :: l2) (k_suspend t th k)), k2, k3.
Qed.

(** The caller with its error number reset. *)
Lemma reset_error_run k t th :
  kwf k -> can_block k t th ->
  liftS (upd_thread t (set_error RT_EOK)) k = Ok tt (k_put t (set_error RT_EOK th) k) /\
  kwf (k_put t (set_error RT_EOK th) k) /\
  can_block (k_put t (set_error RT_EOK th) k) t (set_error RT_EOK th).
Proof.
  intros Hk [Ht Hc Hr Hi]. split; [exact (k_upd_thread_run _ _ _ _ Ht)|]. split.
  - eapply kwf_put_same; [done|done|apply set_error_same].
  - split; try done. apply lookup_insert_eq.
Qed.

(** ** Sleeping *)

Record asleep (k : kstate) (t : Z) (th : rt_thread) (tick : Z) (k' : kstate) : Prop := {
  as_ipc : k_ipc k' = k_ipc k;
  as_obj : k_obj k' = k_obj k;
  as_heap : k_heap k' = k_heap k;
  as_threads : threads k' = <[t := set_stat RT_THREAD_SUSPEND th]> (threads k);
  as_wait : forall h, is_wait h -> waiters k' h = waiters k h;
  as_timer : exists tm, timers k' !! ATimer t = Some tm /\ activated tm = true /\
    tm_timeout_tick tm = u32 (ts_tick (k_ts k) + tick) /\ ATimer t ∈ running k';
  as_switch : sc_lock_nest (k_sched k) = 0 -> forall x thx, threads k !! x = Some thx -> x <> t ->
    stat_of thx = RT_THREAD_READY -> sc_current (k_sched k') <> t
}.

Lemma sleep_run k t th tick :
  kwf k -> can_block k t th -> 0 <= tick < RT_TICK_MAX / 2 ->
  exists k', rt_thread_sleep tick k = Ok (Block t) k' /\ kwf k' /\ asleep k t th tick k'.
Proof.
  intros Hk [Ht Hc Hr Hi] Hti.
  destruct (thread_suspend_run k t th Hk Ht Hc Hr) as (E1 & Hk1 & Hul & Hout & Eth).
  destruct (k_suspend_frame k t th) as (F1 & F2 & F3 & F4 & F5 & F6 & F7).
  set (k1 := k_suspend t th k) in *. set (th' := set_stat RT_THREAD_SUSPEND th) in *.
  assert (Ht1 : threads k1 !! t = Some th') by (rewrite Eth; apply lookup_insert_eq).
  assert (Hs1 : stat_of th' = RT_THREAD_SUSPEND) by by apply stat_of_set.
  destruct (thread_timer_start_run k1 t th' tick) as (ts' & E2 & Hk2 & [(tm & A1 & A2 & A3) _ (pre & suf & _ & Er) _]); try done.
  set (k2 := put_ts ts' k1) in *.
  assert (Hc2 : sc_current (k_sched k2) <> RT_NULL).
  { change (sc_current (k_sched k2)) with (sc_current (k_sched k1)).
    rewrite F4, <- Hc. apply (sw_thread _ _ (kw_sched _ Hk) _ _ Ht). }
  destruct (k_schedule_run k2 Hk2 Hc2) as (s' & E3 & Hk3 & Hres). pose proof Hres as ((G1 & _) & _).
  assert (Hu0 : unlinked t (k_sched k)) by (subst t; eapply ready_current_unlinked; [apply Hk|done|done]).
  assert (Hl : thread_live k t) by (apply (kw_live _ Hk t th Ht); by rewrite Hr).
  exists (put_sched s' k2). split; [|split; [done|]].
  - unfold rt_thread_sleep. rewrite (bind_ok _ _ _ _ _ (k_self_run k)), <- Hc, (nonnull_thread _ _ _ Hk Ht).
    rewrite bind_assert by done. rewrite (bind_ok _ _ _ _ _ (assert_type_run _ _ _ Hk (tl_type _ _ Hl))).
    rewrite (bind_ok _ _ _ _ _ E1), (bind_ok _ _ _ _ _ E2). by rewrite (bind_ok _ _ _ _ _ E3).
  - split; try done.
    + exact (eq_trans G1 Eth).
    + intros h Hh. change (lget s' h = waiters k h). rewrite (rescheduled_wait k2) by done.
      change (waiters k2 h) with (waiters k1 h). by apply k_suspend_waiters.
    + exists tm. split_and!; [done|done|by rewrite A2, F7|]. unfold running. cbn. rewrite Er. set_solver.
    + intros Hl0 x thx Hx Hne Hsx. eapply (rescheduled_away k2 s' t th' x thx); try done.
      * by etransitivity; [exact F5|].
      * by etransitivity; [exact Hc|symmetry; exact F4].
      * by rewrite Hs1.
      * change (threads k1 !! x = Some thx). by rewrite Eth, lookup_insert_ne.
Qed.

(** ** Waking the first waiter *)

Lemma unlink_cons t l : NoDup (t :: l) -> unlink t (t :: l) = l.
Proof.
  intros [Hn _]%NoDup_cons. unfold unlink. rewrite filter_cons_False by tauto. by apply unlink_notin.
Qed.

(** After the first waiter of [h] has been resumed and the scheduler run, the
    others still wait and the woken thread is ready. *)
Lemma woken_first k h t rest th s' :
  kwf k -> is_wait h -> waiters k h = t :: rest -> threads k !! t = Some th ->
  stat_of th = RT_THREAD_SUSPEND -> rescheduled (k_sched (k_resume t th k)) s' ->
  lget s' h = rest /\ sc_threads s' = <[t := set_stat RT_THREAD_READY th]> (threads k).
Proof.
  intros Hk Hh Hw Ht Hs Hr. destruct (thread_resume_run k t th Hk Ht Hs) as [_ Hk1]. split.
  - rewrite (rescheduled_wait _ _ h Hk1 Hr Hh), k_resume_waiters, Hw by done. apply unlink_cons.
    rewrite <- Hw. apply (sw_nodup _ _ (kw_sched _ Hk)).
  - pose proof Hr as ((-> & _) & _). exact (k_resume_threads k t th).
Qed.

(** The first waiter of [h], if there is one, has been resumed and the
    scheduler run. *)
Definition woke_first (h : lhead) (k k' : kstate) : Prop :=
  match waiters k h with
  | [] => k' = k
  | t :: rest => exists th s', threads k !! t = Some th /\ stat_of th = RT_THREAD_SUSPEND /\
      rescheduled (k_sched (k_resume t th k)) s' /\ k' = put_sched s' (k_resume t th k)
  end.

Lemma wake_first_run {A} k h (r : A) :
  kwf k -> is_wait h -> head_exists k h -> sc_current (k_sched k) <> RT_NULL ->
  exists k', (empty ← liftS (tlist_isempty h);
     if negb empty then rt_ipc_list_resume h;; liftS rt_schedule;; mret r else mret r) k = Ok r k' /\
    kwf k' /\ woke_first h k k'.
Proof.
  intros Hk Hh He Hc. rewrite (bind_ok _ _ _ _ _ (k_isempty_run _ _ He)). unfold woke_first.
  destruct (waiters k h) as [|t rest] eqn:Hw.
  - exists k. rewrite bool_decide_true by done. done.
  - rewrite bool_decide_false by done. cbn [negb].
    destruct (list_resume_run k h t rest Hk Hh Hw) as (th & Ht & Hs & Er & Hk1).
    destruct (k_schedule_run (k_resume t th k) Hk1) as (s' & Es & Hk2 & Hr).
    { by rewrite (wf_current _ _ (k_resume_frame k t th)). }
    exists (put_sched s' (k_resume t th k)). rewrite (bind_ok _ _ _ _ _ Er), (bind_ok _ _ _ _ _ Es).
    split; [done|]. split; [done|]. by exists th, s'.
Qed.

(** Its waiters and its effect on the other components. *)
Lemma woke_first_frame h k k' :
  kwf k -> is_wait h -> woke_first h k k' ->
  k_ipc k' = k_ipc k /\ k_obj k' = k_obj k /\ waiters k' h = tail (waiters k h) /\
  (forall t, head (waiters k h) = Some t ->
     threads k' !! t = set_stat RT_THREAD_READY <$> threads k !! t).
Proof.
  intros Hk Hh. unfold woke_first. destruct (waiters k h) as [|t rest] eqn:Hw.
  { intros ->. by rewrite Hw. }
  intros (th & s' & Ht & Hs & Hr & ->).
  destruct (woken_first k h t rest th s' Hk Hh Hw Ht Hs Hr) as [W1 W2].
  split; [done|]. split; [done|]. split; [exact W1|]. intros t' [= <-].
  unfold threads at 1. cbn. by rewrite W2, lookup_insert_eq, Ht.
Qed.

End Inv.
