(* ===== verification/ClockInv.v ===== *)
(** * Expiry of timers

    [rt_thread_timeout], one pass of [rt_timer_check] and one clock tick on a
    well-formed kernel whose running timers are in expiry order ([timely]). *)

From S2P Require Import Prelude Scheduler ReadyBitmap SchedInv SchedSpec Object ObjInv Timer.
From S2P Require Import TimerInv Kernel Thread Ipc KernelInv ThreadInv IpcInv Clock.

Section Inv.
Context `{CO : ConfigOk} {HP : Heap} {HO : HeapOk HP}.
Implicit Types (k : kstate).

(** ** The timeout of a thread *)

(** A thread whose wait has timed out: it leaves its wait list and is ready
    with the error number of a timeout. *)
Definition timed_out (th : rt_thread) : rt_thread := set_error (- RT_ETIMEOUT) th.
Definition k_timeout (t : Z) (th : rt_thread) (k : kstate) : kstate :=
  k_ready t (timed_out th) (k_unlink t (k_put t (timed_out th) k)).

Lemma k_timeout_current k t th :
  sc_current (k_sched (k_timeout t th k)) = sc_current (k_sched k).
Proof. exact (proj1 (sched_insert_frame t _ (k_sched (k_unlink t (k_put t (timed_out th) k))))). Qed.

Lemma thread_timeout_run k t th :
  kwf k -> threads k !! t = Some th -> stat_of th = RT_THREAD_SUSPEND -> ATimer t ∉ running k ->
  sc_current (k_sched k) <> RT_NULL ->
  exists s', rt_thread_timeout t k = Ok tt (put_sched s' (k_timeout t th k)) /\
    kwf (put_sched s' (k_timeout t th k)) /\ kwf (k_timeout t th k) /\
    rescheduled (k_sched (k_timeout t th k)) s'.
Proof.
  intros Hk Ht Hs Hnr Hc. set (th1 := timed_out th).
  assert (Hl : thread_live k t) by (apply (kw_live _ Hk t th Ht); by rewrite Hs).
  assert (Hk1 : kwf (k_put t th1 k)) by (eapply kwf_put_same; [done|done|apply set_error_same]).
  assert (Ht1 : threads (k_put t th1 k) !! t = Some th1) by apply lookup_insert_eq.
  destruct (kwf_unlink (k_put t th1 k) t th1 Hk1 Ht1) as [Hk2 Hu]; [by change (stat_of th <> RT_THREAD_READY); rewrite Hs|].
  destruct (kwf_ready (k_unlink t (k_put t th1 k)) t th1) as [E3 Hk3]; try done.
  { apply (live_masks _ _ _ Hk1 Ht1); [change (stat_of th <> RT_THREAD_INIT)|change (stat_of th <> RT_THREAD_CLOSE)]; by rewrite Hs. }
  { change (stat_of th <> RT_THREAD_CLOSE). by rewrite Hs. }
  assert (Hc3 : sc_current (k_sched (k_timeout t th k)) <> RT_NULL).
  { by rewrite k_timeout_current. }
  destruct (k_schedule_run (k_timeout t th k) Hk3 Hc3) as (s' & E4 & Hk4 & Hr).
  exists s'. split; [|done]. unfold rt_thread_timeout.
  rewrite (nonnull_thread _ _ _ Hk Ht), bind_assert by done.
  rewrite (bind_ok _ _ _ _ _ (thread_stat_run _ _ _ Ht)), Hs, bind_assert by done.
  rewrite (bind_ok _ _ _ _ _ (assert_type_run _ _ _ Hk (tl_type _ _ Hl))).
  rewrite (bind_ok _ _ _ _ _ (k_upd_thread_run _ _ _ _ Ht)).
  assert (E2 : liftS (tlist_remove t) (k_put t th1 k) = Ok tt (k_unlink t (k_put t th1 k))).
  { apply liftS_run. eapply tlist_remove_run. exact Ht1. }
  fold (timed_out th). fold th1. fold (k_put t th1 k).
  rewrite (bind_ok _ _ _ _ _ E2), (bind_ok _ _ _ _ _ E3). exact E4.
Qed.

(** What a timeout function may do to the timers: stop some of them. *)
Record quiet (k k' : kstate) : Prop := {
  qu_kwf : kwf k';
  qu_current : sc_current (k_sched k') <> RT_NULL;
  qu_tick : ts_tick (k_ts k') = ts_tick (k_ts k);
  qu_row : running k' `sublist_of` running k;
  qu_timer : forall a, a ∈ running k' \/ a ∉ running k -> timers k' !! a = timers k !! a;
  qu_type : forall a, has_type k a RT_Object_Class_Timer -> has_type k' a RT_Object_Class_Timer
}.

Lemma rescheduled_current k s' :
  kwf k -> rescheduled (k_sched k) s' -> sc_current (k_sched k) <> RT_NULL ->
  sc_current s' <> RT_NULL.
Proof.
  intros Hk (_ & H1 & H2) Hc.
  destruct (Z.eq_dec (sc_lock_nest (k_sched k)) 0) as [Hl|Hl]; [|by rewrite (H1 Hl)].
  specialize (H2 Hl). apply (f_equal fst) in H2. cbn in H2. rewrite H2.
  apply abs_schedule_nonnull; [apply Hk|done].
Qed.

Lemma thread_timeout_quiet k t th :
  kwf k -> threads k !! t = Some th -> stat_of th = RT_THREAD_SUSPEND -> ATimer t ∉ running k ->
  sc_current (k_sched k) <> RT_NULL ->
  exists k', rt_thread_timeout t k = Ok tt k' /\ quiet k k'.
Proof.
  intros Hk Ht Hs Hnr Hc.
  destruct (thread_timeout_run k t th Hk Ht Hs Hnr Hc) as (s' & E & Hk' & Hk1 & Hr).
  exists (put_sched s' (k_timeout t th k)). split; [done|]. split; try done.
  eapply rescheduled_current; [exact Hk1|done|].
  by rewrite k_timeout_current.
Qed.

(** ** Timers of the application *)

(** A started timer of the application. *)
Lemma user_start_kwf k p tm timeout ts' pre suf :
  kwf k -> timers k !! AObj p = Some tm -> has_type k (AObj p) RT_Object_Class_Timer -> twf ts' ->
  ts_timers ts' = <[AObj p := timer_started timeout tm]> (timers k) ->
  ts_tick ts' = ts_tick (k_ts k) -> without (AObj p) (running k) = pre ++ suf ->
  last_row ts' = pre ++ AObj p :: suf -> kwf (put_ts ts' k).
Proof.
  intros Hk Ht Hty Hw Et Etk Hcut Hrow.
  assert (Hmem : forall x, x ∈ last_row ts' -> x = AObj p \/ x ∈ running k).
  { intros x. rewrite Hrow. destruct (decide (x = AObj p)); [by left|]. intros Hx. right.
    assert (Hx' : x ∈ without (AObj p) (running k)) by (rewrite Hcut; set_solver).
    by apply elem_of_without in Hx' as [? _]. }
  apply kwf_ts_step; [done|]. split; try done.
  - intros x tmx Hx Hf. rewrite Et. destruct (decide (x = AObj p)) as [->|Hne].
    + rewrite lookup_insert_eq. eexists. split; [done|]. unfold timers in *. simplify_eq. apply same_timer_started.
    + rewrite lookup_insert_ne by done. exists tmx. split; [done|by apply same_timer_refl].
  - intros t [?|Hx]%Hmem; [done|]. destruct (kw_ttimer _ Hk _ Hx) as (th & tm0 & ? & ? & ? & ?).
    split; [by exists th|]. exists tm0. by rewrite Et, lookup_insert_ne.
  - intros q [[= ->]|Hx]%Hmem; [done|by apply (kw_utimer _ Hk)].
Qed.

Lemma user_timer_start_run k p tm :
  kwf k -> timers k !! AObj p = Some tm -> has_type k (AObj p) RT_Object_Class_Timer ->
  tm_init_tick tm < RT_TICK_MAX / 2 ->
  exists ts', rt_timer_start (AObj p) k = Ok RT_EOK (put_ts ts' k) /\ kwf (put_ts ts' k).
Proof.
  intros Hk Ht Hty Hi. destruct (timer_start_run (k_ts k) (AObj p) tm)
    as (ts' & pre & suf & E & Hw & Et & Etk & Hcut & Hrow & _); [apply Hk|done|done|].
  exists ts'. split; [by eapply timer_start_k; [|apply (has_type_nonnull _ _ _ Hk Hty)|]|].
  by eapply user_start_kwf.
Qed.

(** ** One expired timer *)

Section Check.
Variable user_timeout : Z -> Z -> K unit.
Hypothesis user_quiet : forall f par k, kwf k -> sc_current (k_sched k) <> RT_NULL ->
  exists k', user_timeout f par k = Ok tt k' /\ quiet k k'.
Variables (base d : Z).

(** The state of the loop: timers in expiry order as seen from [base], [d]
    ticks ago; the timers of the application are [FUser], and periodic ones
    have a positive period that the tick circle can hold. *)
Record check_inv (k : kstate) : Prop := {
  ck_kwf : kwf k;
  ck_current : sc_current (k_sched k) <> RT_NULL;
  ck_ordered : ordered base (k_ts k);
  ck_tick : u32 (ts_tick (k_ts k) - base) = d;
  ck_d : d < RT_TICK_MAX / 2;
  ck_timer : forall a tm, a ∈ running k -> timers k !! a = Some tm ->
    (forall p, a = AObj p -> exists f, tm_func tm = FUser f) /\
    (periodic tm = true -> 0 < tm_init_tick tm /\ tm_init_tick tm + d < RT_TICK_MAX / 2)
}.

(** The expired timers. *)
Definition expired (k : kstate) : list addr :=
  filter (fun a => due base (k_ts k) a <= d) (running k).

Lemma running_type k a : kwf k -> a ∈ running k -> has_type k a RT_Object_Class_Timer.
Proof.
  intros Hk Ha. destruct a as [p|t]; [by apply (kw_utimer _ Hk)|].
  destruct (kw_ttimer _ Hk _ Ha) as (th & tm & H1 & H2 & _).
  apply (tl_ttype _ _ (kw_live _ Hk t th H1 ltac:(by rewrite H2))).
Qed.

(** Removing a timer from the rows. *)
Definition k_unrow (a : addr) (k : kstate) : kstate := put_ts (ts_remove a (k_ts k)) k.

Lemma kwf_unrow k a : kwf k -> kwf (k_unrow a k) /\ running (k_unrow a k) = without a (running k).
Proof.
  intros Hk. assert (Er : running (k_unrow a k) = without a (running k)) by apply last_row_remove.
  split; [|done]. apply kwf_ts_step; [done|]. split; try done.
  - apply twf_remove, Hk.
  - intros x tm Hx Hf. exists tm. split; [done|by apply same_timer_refl].
  - intros t Ht. change (ATimer t ∈ running (k_unrow a k)) in Ht. rewrite Er, elem_of_without in Ht.
    destruct (kw_ttimer _ Hk t (proj1 Ht)) as (th & tm & ? & ? & ? & ?). split; [by exists th|by exists tm].
  - intros p Hp. change (AObj p ∈ running (k_unrow a k)) in Hp. rewrite Er, elem_of_without in Hp.
    by apply (kw_utimer _ Hk), Hp.
Qed.

(** A timer that is not running changes. *)
Definition k_put_timer (a : addr) (tm : rt_timer) (k : kstate) : kstate :=
  put_ts (put_timer a tm (k_ts k)) k.

Lemma kwf_put_timer k a tm tm' :
  kwf k -> timers k !! a = Some tm -> a ∉ running k -> same_timer tm tm' ->
  kwf (k_put_timer a tm' k).
Proof.
  intros Hk Ht Hr Hs. apply kwf_ts_step; [done|]. split; try done.
  - apply twf_put, Hk.
  - intros x tmx Hx Hf. cbn. destruct (decide (x = a)) as [->|Hne].
    + rewrite lookup_insert_eq. exists tm'. unfold timers in *. simplify_eq. done.
    + rewrite lookup_insert_ne by done. exists tmx. split; [done|by apply same_timer_refl].
  - intros t Hin. change (ATimer t ∈ running k) in Hin.
    destruct (kw_ttimer _ Hk t Hin) as (th & tm0 & ? & ? & ? & ?). split; [by exists th|].
    exists tm0. cbn. rewrite lookup_insert_ne; [done|]. intros ->. done.
  - intros p Hp. by apply (kw_utimer _ Hk).
Qed.

(** The timeout function of a running timer. *)
Lemma call_timeout_run k a tm :
  check_inv k -> a ∈ running k -> timers k !! a = Some tm ->
  exists k', call_timeout user_timeout (tm_func tm) (tm_parameter tm) (k_unrow a k) = Ok tt k' /\
    quiet (k_unrow a k) k'.
Proof.
  intros Hc Ha Ht. pose proof (ck_kwf _ Hc) as Hk. destruct (kwf_unrow k a Hk) as [Hk1 Er].
  destruct a as [p|t].
  - destruct (ck_timer _ Hc _ _ Ha Ht) as [Hf _]. destruct (Hf p eq_refl) as [f ->]. cbn.
    by apply user_quiet; [|apply Hc].
  - destruct (kw_ttimer _ Hk _ Ha) as (th & tm' & H1 & H2 & _).
    destruct (tl_timer _ _ (kw_live _ Hk t th H1 ltac:(by rewrite H2))) as (tm2 & H3 & E1 & E2 & _).
    assert (tm2 = tm) as -> by congruence. rewrite E1, E2. cbn.
    apply (thread_timeout_quiet _ t th); try done; [|apply Hc].
    rewrite Er, elem_of_without. tauto.
Qed.

Lemma without_notin a l : a ∉ l -> without a l = l.
Proof.
  induction l as [|x l IH]; [done|]. intros [H1 H2]%not_elem_of_cons. unfold without in *.
  rewrite filter_cons_True by congruence. by rewrite IH.
Qed.

Lemma NoDup_without_filter (P : addr -> Prop) `{!forall x, Decision (P x)} a l :
  NoDup l -> a ∈ l -> P a -> (length (filter P (without a l)) < length (filter P l))%nat.
Proof.
  intros Hn [l1 [l2 ->]]%list_elem_of_split Ha. apply NoDup_app in Hn as (N1 & N2 & N3).
  apply NoDup_cons in N3 as [N4 N5].
  assert (E : without a (l1 ++ a :: l2) = l1 ++ l2).
  { unfold without. rewrite filter_app, filter_cons_False by tauto.
    f_equal; apply without_notin; [|done]. intros Hx. apply (N2 a Hx). set_solver. }
  rewrite E, !filter_app, !length_app, (filter_cons_True P a) by done. cbn. lia.
Qed.

Lemma filter_none (P : addr -> Prop) `{!forall x, Decision (P x)} l :
  (forall x, x ∈ l -> ~ P x) -> filter P l = [].
Proof.
  induction l as [|x l IH]; intros Hn; [done|]. rewrite filter_cons_False by (apply Hn; set_solver).
  apply IH. set_solver.
Qed.

Lemma filter_sub_length (P Q : addr -> Prop) `{!forall x, Decision (P x)} `{!forall x, Decision (Q x)} l1 l2 :
  l1 `sublist_of` l2 -> (forall x, x ∈ l1 -> P x -> Q x) ->
  (length (filter P l1) <= length (filter Q l2))%nat.
Proof.
  induction 1 as [|x l1 l2 Hs IH|x l1 l2 Hs IH]; intros Hpq; [done|..]; rewrite ?filter_cons.
  - specialize (IH ltac:(set_solver)). destruct (decide (P x)) as [Hp|]; [|case_decide; cbn; lia].
    rewrite decide_True by (apply Hpq; [set_solver|done]). cbn. lia.
  - specialize (IH Hpq). case_decide; cbn; lia.
Qed.

(** After the timeout function has returned the timer is inactive, and what
    is left of the rows is still in order. *)
Lemma expire_body k a tm k2 :
  check_inv k -> a ∈ running k -> timers k !! a = Some tm -> quiet (k_unrow a k) k2 ->
  due base (k_ts k) a <= d ->
  let k3 := k_put_timer a (deactivate tm) k2 in
  timers k2 !! a = Some tm /\ check_inv k3 /\ (a ∉ running k3) /\
  has_type k3 a RT_Object_Class_Timer /\
  (length (expired k3) < length (expired k))%nat.
Proof.
  intros Hc Ha Ht Hq Hd k3. pose proof (ck_kwf _ Hc) as Hk. destruct (kwf_unrow k a Hk) as [Hk1 Er].
  destruct Hq as [Q1 Q2 Q3 Q4 Q5 Q6]. rewrite Er in Q4.
  assert (Hsub : forall x, x ∈ running k2 -> x ∈ running k /\ x <> a).
  { intros x Hx. apply elem_of_without. by eapply elem_of_sublist. }
  assert (Hna : a ∉ running k2) by (intros [_ H]%Hsub; done).
  assert (Ht2 : timers k2 !! a = Some tm).
  { rewrite Q5; [done|]. right. rewrite Er, elem_of_without. tauto. }
  assert (Hdue : forall x, x ∈ running k2 -> due base (k_ts k3) x = due base (k_ts k) x).
  { intros x Hx. unfold due. cbn. rewrite lookup_insert_ne by (intros ->; done).
    change (ts_timers (k_ts k2)) with (timers k2). by rewrite Q5 by auto. }
  assert (Hrow : running k3 `sublist_of` running k) by (etrans; [exact Q4|apply without_sublist]).
  split; [done|]. split; [|split; [done|split]].
  - split; [by eapply kwf_put_timer, same_timer_deactivate|done| | |apply Hc|].
    + eapply ordered_sub; [apply Hc|exact Hrow|done].
    + cbn. rewrite Q3. apply Hc.
    + intros x tmx Hx Hxt. cbn in Hxt. destruct (Hsub x Hx) as [Hx1 Hx2].
      rewrite lookup_insert_ne in Hxt by done. apply (ck_timer _ Hc); [done|].
      rewrite <- Hxt. symmetry. apply Q5. auto.
  - apply Q6. exact (running_type k a Hk Ha).
  - unfold expired. change (running k3) with (running k2).
    apply (Nat.le_lt_trans _ (length (filter (fun x => due base (k_ts k) x <= d) (without a (running k))))).
    + apply filter_sub_length; [done|]. intros x Hx. by rewrite Hdue.
    + apply NoDup_without_filter; [apply (tw_nodup _ (kw_ts _ Hk))|done|done].
Qed.

(** The timer of a thread is not periodic. *)
Lemma thread_timer_oneshot k t tm :
  kwf k -> ATimer t ∈ running k -> timers k !! ATimer t = Some tm -> periodic tm = false.
Proof.
  intros Hk Hr Ht. destruct (kw_ttimer _ Hk _ Hr) as (th & tm' & H1 & H2 & _).
  destruct (tl_timer _ _ (kw_live _ Hk t th H1 ltac:(by rewrite H2))) as (tm2 & H3 & _ & _ & E & _).
  congruence.
Qed.

(** A periodic timer is started again, [init_tick] ticks from now. *)
Lemma restart_run k p tm :
  check_inv k -> timers k !! AObj p = Some tm -> AObj p ∉ running k ->
  has_type k (AObj p) RT_Object_Class_Timer -> 0 <= tm_flag tm < 256 ->
  (exists f, tm_func tm = FUser f) -> 0 < tm_init_tick tm -> tm_init_tick tm + d < RT_TICK_MAX / 2 ->
  exists k', rt_timer_start (AObj p) k = Ok RT_EOK k' /\ check_inv k' /\
    (length (expired k') <= length (expired k))%nat.
Proof.
  intros Hc Ht Hnr Hty Hfl Hfu Hi1 Hi2. pose proof (ck_kwf _ Hc) as Hk.
  assert (Hd0 : 0 <= d) by (rewrite <- (ck_tick _ Hc); apply u32_range).
  destruct (timer_start_run (k_ts k) (AObj p) tm) as (ts' & pre & suf & E & Hw & Et & Etk & Hcut & Hrow & Hst & Hpp);
    [apply Hk|done|lia|].
  set (timeout := u32 (ts_tick (k_ts k) + tm_init_tick tm)) in *.
  assert (Hto : u32 (timeout - base) = tm_init_tick tm + d).
  { rewrite <- (ck_tick _ Hc). unfold timeout, u32. rewrite Zminus_mod_idemp_l.
    rewrite <- (Z.mod_small (tm_init_tick tm + _) (2 ^ 32)).
    - rewrite Zplus_mod_idemp_r. f_equal. lia.
    - fold (u32 (ts_tick (k_ts k) - base)). rewrite (ck_tick _ Hc).
      change (RT_TICK_MAX / 2) with 2147483647 in Hi2. lia. }
  destruct (ordered_start base (k_ts k) ts' (AObj p) tm timeout pre suf) as (O1 & O2 & _ & O4);
    [apply Hc|done..|lia|].
  assert (Ew : running k = pre ++ suf) by (rewrite <- Hcut; symmetry; by apply without_notin).
  assert (Hmem : forall x, x ∈ last_row ts' -> x = AObj p \/ x ∈ running k).
  { intros x. rewrite Hrow, Ew. set_solver. }
  exists (put_ts ts' k). split; [by eapply timer_start_k; [|apply (has_type_nonnull _ _ _ Hk Hty)|]|].
  split; [split|].
  - eapply user_start_kwf; done.
  - apply Hc.
  - done.
  - cbn. rewrite Etk. apply Hc.
  - apply Hc.
  - intros x tmx Hx Hxt. unfold timers in Hxt. cbn in Hxt. rewrite Et in Hxt.
    destruct (decide (x = AObj p)) as [->|Hne].
    + rewrite lookup_insert_eq in Hxt. simplify_eq. cbn. split; [by intros|]. intros _. lia.
    + rewrite lookup_insert_ne in Hxt by done. destruct (Hmem x Hx) as [|Hx']; [done|].
      by apply (ck_timer _ Hc).
  - unfold expired. change (running (put_ts ts' k)) with (last_row ts'). rewrite Hrow, Ew.
    rewrite !filter_app, filter_cons_False by (cbn; rewrite O2; lia). rewrite <- !filter_app.
    apply filter_sub_length; [done|]. intros x Hx. cbn. rewrite O4; [done|].
    intros ->. apply Hnr. by rewrite Ew.
Qed.

Lemma timer_expire_run k a :
  check_inv k -> a ∈ running k -> due base (k_ts k) a <= d ->
  exists k', timer_expire user_timeout a k = Ok tt k' /\ check_inv k' /\
    (length (expired k') < length (expired k))%nat.
Proof.
  intros Hc Ha Hd. pose proof (ck_kwf _ Hc) as Hk.
  destruct (tw_mem _ (kw_ts _ Hk) _ Ha) as [tm Ht].
  destruct (call_timeout_run k a tm Hc Ha Ht) as (k2 & E2 & Hq).
  destruct (expire_body k a tm k2 Hc Ha Ht Hq Hd) as (Ht2 & Hc3 & Hn3 & Hty & Hlen).
  set (k3 := k_put_timer a (deactivate tm) k2) in *.
  assert (Et3 : timers k3 !! a = Some (deactivate tm)) by apply lookup_insert_eq.
  destruct (ck_timer _ Hc a tm Ha Ht) as [Hfu Hper].
  unfold timer_expire. rewrite (bind_ok _ _ _ _ _ (k_timer_run _ _ _ Ht)).
  rewrite (bind_ok _ _ _ _ _ (liftT_run (_rt_timer_remove a) k _ _ (timer_remove_run _ _ _ Ht))).
  rewrite (bind_ok _ _ _ _ _ E2), (bind_ok _ _ _ _ _ (k_timer_run _ _ _ Ht2)).
  rewrite (bind_ok _ _ _ _ _ (liftT_run (upd_timer a deactivate) k2 _ _ (upd_timer_run _ _ _ _ Ht2))).
  fold (k_put_timer a (deactivate tm) k2). fold k3.
  destruct (periodic tm && activated tm) eqn:Ep; cbn [when]; [|by exists k3].
  apply andb_true_iff in Ep as [Ep _]. specialize (Hper Ep).
  destruct a as [p|t]; [|by rewrite (thread_timer_oneshot _ _ _ Hk Ha Ht) in Ep].
  destruct (restart_run k3 p (deactivate tm)) as (k4 & E4 & Hc4 & Hlen4); try done.
  { apply u8_range. }
  { by apply (Hfu p). }
  { apply Hper. }
  { apply Hper. }
  exists k4. rewrite (bind_ok _ _ _ _ _ E4). split; [done|]. split; [done|lia].
Qed.

(** ** The loop *)

Lemma expiry_test s a tm :
  u32 (ts_tick s - base) = d -> d < RT_TICK_MAX / 2 -> due base s a < RT_TICK_MAX / 2 ->
  ts_timers s !! a = Some tm ->
  u32 (ts_tick s - tm_timeout_tick tm) < RT_TICK_MAX / 2 <-> due base s a <= d.
Proof.
  intros Hd Hd2 Hdue Ht. unfold due in *. rewrite Ht in *. cbn in *.
  rewrite <- (u32_sub_sub (ts_tick s) (tm_timeout_tick tm) base), Hd.
  pose proof (u32_range (ts_tick s - base)). pose proof (u32_range (tm_timeout_tick tm - base)).
  set (x := u32 (tm_timeout_tick tm - base)) in *. change (RT_TICK_MAX / 2) with 2147483647 in *.
  destruct (Z.le_gt_cases x d).
  - rewrite u32_small; lia.
  - rewrite u32_neg; lia.
Qed.

Lemma check_loop_run fuel k :
  check_inv k -> (length (expired k) < fuel)%nat ->
  exists k', timer_check_loop user_timeout fuel (ts_tick (k_ts k)) k = Ok tt k' /\ check_inv k' /\
    expired k' = [].
Proof.
  revert k. induction fuel as [|fuel IH]; intros k Hc Hf; [lia|]. cbn [timer_check_loop].
  rewrite bind_gets. change (last_row (k_ts k)) with (running k).
  destruct (running k) as [|a row] eqn:Er.
  { exists k. split_and!; [done|done|]. unfold expired. by rewrite Er. }
  assert (Ha : a ∈ running k) by (rewrite Er; set_solver).
  destruct (tw_mem _ (kw_ts _ (ck_kwf _ Hc)) _ Ha) as [tm Ht].
  rewrite (bind_ok _ _ _ _ _ (k_timer_run _ _ _ Ht)).
  pose proof (ck_ordered _ Hc) as [Ho1 Ho2].
  pose proof (expiry_test (k_ts k) a tm (ck_tick _ Hc) (ck_d _ Hc) (Ho1 a Ha) Ht) as Htest.
  destruct (Z.ltb_spec (u32 (ts_tick (k_ts k) - tm_timeout_tick tm)) (RT_TICK_MAX / 2)).
  - destruct (timer_expire_run k a Hc Ha) as (k1 & E1 & Hc1 & Hl); [by apply Htest|].
    rewrite (bind_ok _ _ _ _ _ E1), (bind_ok _ _ _ _ _ (k_tick_run k1)).
    apply IH; [done|lia].
  - exists k. split_and!; [done|done|]. unfold expired. unfold running in *. rewrite Er in *.
    apply StronglySorted_inv in Ho2 as [_ Hfa]. rewrite Forall_forall in Hfa.
    apply filter_none. intros x Hx. cbn.
    assert (d < due base (k_ts k) a) by lia.
    apply elem_of_cons in Hx as [->|Hx]; [lia|]. specialize (Hfa x Hx). cbn in Hfa. lia.
Qed.

End Check.

(** ** A clock tick *)

(** Every running timer expires less than half the tick circle ahead, and the
    timers are in expiry order. *)
Definition timely (k : kstate) : Prop := ordered (ts_tick (k_ts k)) (k_ts k).

(** The timers of the application have functions of the application; periodic
    timers have a positive period, with [d] ticks to spare. *)
Definition app_timers (d : Z) (k : kstate) : Prop :=
  forall a tm, a ∈ running k -> timers k !! a = Some tm ->
    (forall p, a = AObj p -> exists f, tm_func tm = FUser f) /\
    (periodic tm = true -> 0 < tm_init_tick tm /\ tm_init_tick tm + d < RT_TICK_MAX / 2).

Definition set_tick (n : Z) (s : tsys) : tsys := {| s with ts_tick := n |}.

Lemma kwf_tick k n : kwf k -> 0 <= n < 2 ^ 32 -> kwf (put_ts (set_tick n (k_ts k)) k).
Proof.
  intros Hk Hn. split; try apply Hk; try done.
  - destruct (kw_ts _ Hk). by split.
  - intros t th Ht Hs. by destruct (kw_live _ Hk t th Ht Hs).
  - apply (ipc_ok_frame k); [apply Hk|done|done|done|done|by intros o t].
Qed.

Lemma due_next base s a : 0 < due base s a -> due (u32 (base + 1)) s a = due base s a - 1.
Proof.
  unfold due. destruct (ts_timers s !! a) as [tm|]; cbn; [|lia]. intros H.
  pose proof (u32_range (tm_timeout_tick tm - base)).
  transitivity (u32 (u32 (tm_timeout_tick tm - base) - 1)); [|rewrite u32_small; lia].
  unfold u32. rewrite Zminus_mod_idemp_r, Zminus_mod_idemp_l. f_equal. lia.
Qed.

Lemma ordered_next base s :
  ordered base s -> (forall a, a ∈ last_row s -> 0 < due base s a) -> ordered (u32 (base + 1)) s.
Proof.
  intros [H1 H2] Hp. split.
  - intros a Ha. rewrite due_next by auto. specialize (H1 a Ha). lia.
  - eapply StronglySorted_ext; [|exact H2]. intros x y Hx Hy Hxy. cbn in *.
    rewrite !due_next by auto. lia.
Qed.

(** The time slice of the running thread. *)
Definition slice_step (th : rt_thread) : rt_thread :=
  let n := ubase (th_remaining_tick th - 1) in
  set_remaining (if n =? 0 then th_init_tick th else n) th.

Lemma set_remaining_same n th : same_sched th (set_remaining n th).
Proof. by split_and!. Qed.

Lemma slice_run k t th :
  kwf k -> t = sc_current (k_sched k) -> threads k !! t = Some th ->
  exists s', time_slice t k = Ok tt (put_sched s' k) /\
    kwf (put_sched s' k) /\ sc_current s' <> RT_NULL /\
    sc_threads s' = <[t := slice_step th]> (threads k) /\
    (ubase (th_remaining_tick th - 1) <> 0 -> sc_current s' = t) /\
    (ubase (th_remaining_tick th - 1) = 0 ->
       rescheduled (put_thread t (slice_step th) (k_sched k)) s').
Proof.
  intros Hk Hc Ht. pose proof (sw_thread _ _ (kw_sched _ Hk) _ _ Ht) as (Hn & _). unfold time_slice.
  rewrite (bind_ok _ _ _ _ _ (k_upd_thread_run _ _ _ _ Ht)).
  erewrite bind_ok by apply k_thread_run, lookup_insert_eq. cbn [th_remaining_tick set_remaining].
  unfold slice_step. set (n := ubase (th_remaining_tick th - 1)).
  destruct (Z.eqb_spec n 0) as [E|E]; cbn [when].
  - erewrite bind_ok by apply k_upd_thread_run, lookup_insert_eq.
    set (k1 := put_sched _ (put_sched _ k)).
    assert (E1 : k1 = k_put t (set_remaining (th_init_tick th) th) k).
    { unfold k1, k_put, put_thread, put_sched. cbn. by rewrite insert_insert_eq. }
    assert (Hk1 : kwf k1) by (rewrite E1; eapply kwf_put_same; [done|done|apply set_remaining_same]).
    assert (Hc1 : sc_current (k_sched k1) <> RT_NULL) by (rewrite E1; cbn; by rewrite <- Hc).
    destruct (k_schedule_run k1 Hk1 Hc1) as (s' & Es & Hk' & Hr).
    pose proof (rescheduled_current _ _ Hk1 Hr Hc1) as Hc'.
    exists s'. unfold rt_thread_yield. rewrite bind_assoc, (bind_ok _ _ _ _ _ Es). rewrite E1 in *.
    split; [done|]. split; [done|]. split; [done|]. pose proof Hr as ((F1 & _) & _). done.
  - exists (put_thread t (set_remaining n th) (k_sched k)).
    split; [done|]. split; [eapply (kwf_put_same k t th); [done|done|apply set_remaining_same]|].
    split; [by cbn; rewrite <- Hc|]. split; [done|]. done.
Qed.

Lemma tick_increase_run user_timeout k fuel :
  (forall f par k, kwf k -> sc_current (k_sched k) <> RT_NULL ->
     exists k', user_timeout f par k = Ok tt k' /\ quiet k k') ->
  kwf k -> sc_current (k_sched k) <> RT_NULL -> timely k -> app_timers 1 k ->
  (length (running k) < fuel)%nat ->
  exists k', rt_tick_increase user_timeout fuel k = Ok tt k' /\ kwf k' /\
    ts_tick (k_ts k') = u32 (ts_tick (k_ts k) + 1) /\ timely k' /\
    forall a, a ∈ running k' -> 0 < due (ts_tick (k_ts k')) (k_ts k') a.
Proof.
  intros Huser Hk Hc Ho Happ Hf. set (tick := ts_tick (k_ts k)).
  destruct (sw_current _ _ (kw_sched _ Hk) Hc) as [th Ht].
  set (k1 := put_ts (set_tick (u32 (tick + 1)) (k_ts k)) k).
  assert (Hk1 : kwf k1) by (apply kwf_tick; [done|apply u32_range]).
  destruct (slice_run k1 (sc_current (k_sched k)) th Hk1 eq_refl Ht) as (s' & E2 & Hk2 & Hc2 & _).
  set (k2 := put_sched s' k1) in *.
  assert (Hci : check_inv tick 1 k2).
  { split; try done. cbn. rewrite <- (u32_small 1) at 2 by lia. unfold u32.
    rewrite Zminus_mod_idemp_l. f_equal. lia. }
  destruct (check_loop_run user_timeout Huser tick 1 fuel k2 Hci) as (k3 & E3 & Hc3 & Hx).
  { eapply Nat.le_lt_trans; [|exact Hf]. apply length_filter. }
  assert (Hgt : forall a, a ∈ running k3 -> 1 < due tick (k_ts k3) a).
  { intros a Ha. destruct (Z.lt_ge_cases 1 (due tick (k_ts k3) a)); [done|].
    assert (Hin : a ∈ expired tick 1 k3) by (apply list_elem_of_filter; by split).
    rewrite Hx in Hin. set_solver. }
  assert (Etk : ts_tick (k_ts k3) = u32 (tick + 1)).
  { pose proof (kw_tick _ (ck_kwf _ _ _ Hc3)) as Hr. pose proof (kw_tick _ Hk) as Hr'.
    pose proof (ck_tick _ _ _ Hc3) as Et. unfold u32 in *.
    rewrite <- (Z.mod_small (ts_tick (k_ts k3)) (2 ^ 32)) by done.
    replace (ts_tick (k_ts k3)) with (ts_tick (k_ts k3) - tick + tick) by lia.
    rewrite <- Zplus_mod_idemp_l, Et. f_equal. lia. }
  exists k3. split; [|split; [apply Hc3|split; [done|]]].
  - unfold rt_tick_increase. rewrite (bind_ok _ _ _ _ _ (k_tick_run k)). fold tick.
    erewrite bind_ok by (apply (liftT_run (rt_tick_set _)); reflexivity).
    fold (set_tick (u32 (tick + 1)) (k_ts k)). fold k1.
    rewrite (bind_ok _ _ _ _ _ (k_self_run k1)).
    change (sc_current (k_sched k1)) with (sc_current (k_sched k)). rewrite (bind_ok _ _ _ _ _ E2).
    unfold rt_timer_check. by rewrite (bind_ok _ _ _ _ _ (k_tick_run k2)).
  - unfold timely. rewrite Etk. split.
    + apply ordered_next; [apply Hc3|]. intros a Ha. specialize (Hgt a Ha). lia.
    + intros a Ha. specialize (Hgt a Ha). rewrite due_next by lia. lia.
Qed.

End Inv.
