(* ===== verification/Boot.v ===== *)
(** * Start-up and initialisation of objects

    The kernel state at start-up is well formed; initialising a thread or an
    IPC object at a fresh address and starting a thread keep it so.  The
    states the witnesses of the development use are reached this way. *)

From S2P Require Import Prelude Scheduler ReadyBitmap SchedInv SchedSpec Object ObjInv Timer.
From S2P Require Import TimerInv Kernel Thread Ipc KernelInv ThreadInv IpcInv.

(** A class with a container. *)
Ltac class_mem := apply list_elem_of_In; cbn; tauto.

Section Boot.
Context `{CO : ConfigOk} {HP : Heap} {HO : HeapOk HP}.
Implicit Types (k : kstate).

(** The zero-initialised kernel with heap [h]. *)
Definition kernel_zero (h : heap) : kstate :=
  mk_kstate sched_zero (mk_tsys ∅ [] 0 0) (mk_objsys ∅ rt_object_container)
            (mk_ipcs ∅ ∅ ∅ ∅ ∅ ∅ ∅) h 0.

(** The initialisations of [rtthread_startup] before any thread exists. *)
Definition kernel_init : K unit :=
  liftT rt_system_timer_init;;
  liftS rt_system_scheduler_init.

Lemma owf_boot : owf (mk_objsys ∅ rt_object_container).
Proof.
  split; try done.
  - intros inf Hin. assert (oi_list inf = []) as ->; [|constructor].
    unfold rt_object_container in Hin. apply list_elem_of_fmap in Hin as (c & -> & _). done.
  - intros inf a Hin Ha. exfalso. unfold rt_object_container in Hin.
    apply list_elem_of_fmap in Hin as (c & -> & _). set_solver.
Qed.

Lemma last_row_replicate s :
  ts_rows s = replicate RT_TIMER_SKIP_LIST_LEVEL [] -> last_row s = [].
Proof.
  intros E. unfold last_row. rewrite E. pose proof cfg_level. rewrite lookup_replicate_2; [done|lia].
Qed.

Lemma nested_replicate n : nested (replicate n []).
Proof. induction n as [|[|n] IH]; [done|done|]. split; [done|exact IH]. Qed.

(** The kernel starts well formed, with nothing in it. *)
Lemma boot_run h :
  heap_ok h -> exists k, kernel_init (kernel_zero h) = Ok tt k /\ kwf k /\
    threads k = ∅ /\ os_objs (k_obj k) = ∅ /\ (forall hd, waiters k hd = []) /\
    sc_current (k_sched k) = RT_NULL /\ sc_irq_nest (k_sched k) = 0 /\ timers k = ∅ /\
    (forall o, sc_lists (k_sched k) !! HSuspend o = None /\ sc_lists (k_sched k) !! HSender o = None).
Proof.
  intros Hh. destruct scheduler_init_run as (s' & E & Hw & H1 & H2 & H3 & H4 & H5 & H6).
  unfold kernel_init. unfold mbind, M_bind, liftT, liftS, zoom at 1. cbn.
  unfold zoom. cbn [k_sched put_ts kernel_zero]. rewrite E. eexists. split; [done|].
  split_and!; try done.
  split; try done.
  - split; cbn; [by rewrite length_replicate|apply nested_replicate| |];
      rewrite last_row_replicate by done; [constructor|set_solver].
  - apply owf_boot.
  - intros t th Ht. unfold threads in Ht. cbn in Ht. by rewrite H1, lookup_empty in Ht.
  - intros t. unfold waiters. cbn. rewrite H5. set_solver.
  - intros t. unfold running. rewrite last_row_replicate by done. set_solver.
  - intros t. unfold running. rewrite last_row_replicate by done. set_solver.
  - split; intros o (ob & Ho & _); cbn in Ho; by rewrite lookup_empty in Ho.
Qed.

(** ** Objects *)

Lemma static_type name c :
  c ∈ container_classes -> type_of (mk_object name (Z.lor c RT_Object_Class_Static)) = c /\
    is_static (mk_object name (Z.lor c RT_Object_Class_Static)) = true.
Proof.
  intros Hc. assert (Hl : c ∈ [0; 1; 2; 3; 4; 5; 6; 7; 9]) by exact Hc.
  rewrite !elem_of_cons, elem_of_nil in Hl.
  destruct Hl as [->|[->|[->|[->|[->|[->|[->|[->|[->|[]]]]]]]]]]; done.
Qed.

Lemma dynamic_type name c :
  c ∈ container_classes -> type_of (mk_object name c) = c /\ is_static (mk_object name c) = false.
Proof.
  intros Hc. assert (Hl : c ∈ [0; 1; 2; 3; 4; 5; 6; 7; 9]) by exact Hc.
  rewrite !elem_of_cons, elem_of_nil in Hl.
  destruct Hl as [->|[->|[->|[->|[->|[->|[->|[->|[->|[]]]]]]]]]]; done.
Qed.

(** What attaching an object [a] with header [o] does to the object system. *)
Record attached (s : objsys) (a : addr) (o : rt_object) (s' : objsys) : Prop := {
  at_wf : owf s';
  at_objs : os_objs s' = <[a := o]> (os_objs s);
  at_detached : forall b, b <> a -> detached b s -> detached b s';
  at_linked : object_linked a s' = true;
  at_others : forall b, b <> a -> object_linked b s' = object_linked b s
}.

Lemma os_insert_detached i a b s : b <> a -> detached b s -> detached b (os_insert i a s).
Proof.
  intros Hne Hd inf Hin. unfold os_insert in Hin. cbn in Hin.
  apply list_elem_of_lookup in Hin as [j Hj]. rewrite list_lookup_alter in Hj.
  destruct (decide (i = j)) as [->|].
  - destruct (os_container s !! j) as [inf0|] eqn:E; simplify_eq/=.
    apply list_elem_of_lookup_2 in E. specialize (Hd _ E). set_solver.
  - apply Hd. by eapply list_elem_of_lookup_2.
Qed.

Lemma attach_attached s a c ty name :
  owf s -> detached a s -> a <> AObj RT_NULL -> c ∈ container_classes -> type_of (mk_object name ty) = c ->
  exists i, get_information c (os_container s) = Some i /\
    let s' := os_insert i a (put_object a (mk_object name ty) s) in
    container_insert i a (put_object a (mk_object name ty) s) = Ok tt s' /\ attached s a (mk_object name ty) s'.
Proof.
  intros Hw Hd Hn Hc Ht. destruct (attach_run s a c ty name) as (i & Ei & E & Hw'); try done.
  exists i. split; [done|]. split; [done|]. split; [done|done|..].
  - intros b Hne Hb. by apply os_insert_detached.
  - apply get_information_spec in Ei as (inf & Hi & _). by apply (linked_new i a _ inf).
  - intros b Hne. by rewrite linked_insert by done.
Qed.

Lemma object_init_run s a c name :
  owf s -> detached a s -> a <> AObj RT_NULL -> c ∈ container_classes ->
  exists s', rt_object_init a c name s = Ok tt s' /\
    attached s a (mk_object (name_copy RT_NAME_MAX name) (Z.lor c RT_Object_Class_Static)) s'.
Proof.
  intros Hw Hd Hn Hc.
  destruct (attach_attached s a c (Z.lor c RT_Object_Class_Static) (name_copy RT_NAME_MAX name))
    as (i & Ei & E & Ha); try done; [by apply static_type|]. eexists. split; [|exact Ha].
  unfold rt_object_init, rt_object_get_information. rewrite bind_gets, Ei.
  rewrite bind_assert by done. rewrite bind_modify. exact E.
Qed.

Lemma object_attach_run s a c name :
  owf s -> detached a s -> a <> AObj RT_NULL -> c ∈ container_classes ->
  exists s', object_attach a c name s = Ok tt s' /\
    attached s a (mk_object (name_copy RT_NAME_MAX name) c) s'.
Proof.
  intros Hw Hd Hn Hc.
  destruct (attach_attached s a c c (name_copy RT_NAME_MAX name)) as (i & Ei & E & Ha); try done; [by apply dynamic_type|].
  eexists. split; [|exact Ha]. unfold object_attach, rt_object_get_information. rewrite bind_gets, Ei. by rewrite bind_modify.
Qed.

Lemma liftO_init k a c name :
  kwf k -> detached a (k_obj k) -> a <> AObj RT_NULL -> c ∈ container_classes ->
  exists s', liftO (rt_object_init a c name) k = Ok tt (put_obj s' k) /\
    attached (k_obj k) a (mk_object (name_copy RT_NAME_MAX name) (Z.lor c RT_Object_Class_Static)) s'.
Proof.
  intros Hk Hd Hn Hc. destruct (object_init_run (k_obj k) a c name) as (s' & E & H); try done; [apply Hk|].
  exists s'. split; [by apply liftO_run|done].
Qed.

(** An address where nothing of the kernel lives. *)
Record fresh (k : kstate) (p : Z) : Prop := {
  fr_null : p <> RT_NULL;
  fr_obj : detached (AObj p) (k_obj k);
  fr_timer : detached (ATimer p) (k_obj k);
  fr_thread : threads k !! p = None;
  fr_running : (AObj p ∉ running k) /\ ATimer p ∉ running k;
  fr_waiters : waiters k (HSuspend p) = [] /\ waiters k (HSender p) = []
}.

(** ** IPC objects *)

Lemma swf_new_head X s h :
  swf X s -> is_wait h -> lget s h = [] -> swf X (put_list h [] s).
Proof.
  intros Hw Hh He.
  assert (El : forall h', lget (put_list h [] s) h' = lget s h').
  { intros h'. rewrite lget_put. by destruct (decide (h' = h)) as [->|]. }
  split; intros *; unfold rdy; rewrite ?El; try apply Hw.
  - cbn. rewrite lookup_insert_ne; [apply Hw|]. by destruct h.
  - cbn. destruct h; try done; rewrite lookup_insert_ne by done; apply Hw.
  - eapply bitmap_rep_ext; [apply Hw|]. intros p _. unfold ready_set, rdy. by rewrite El.
Qed.

(** What [ipc_ok] asks of the object [o] of class [c]. *)
Record ipc_at (k : kstate) (o c : Z) : Prop := {
  ia_head : head_exists k (HSuspend o);
  ia_sem : c = RT_Object_Class_Semaphore -> exists x, ip_sem (k_ipc k) !! o = Some x /\
    0 <= sem_value x < 65536 /\ (0 < sem_value x -> waiters k (HSuspend o) = []);
  ia_mutex : c = RT_Object_Class_Mutex -> exists x, ip_mutex (k_ipc k) !! o = Some x /\
    mutex_ok k x /\ (0 < mutex_value x -> waiters k (HSuspend o) = []);
  ia_event : c = RT_Object_Class_Event -> exists x, ip_event (k_ipc k) !! o = Some x;
  ia_mb : c = RT_Object_Class_MailBox -> head_exists k (HSender o) /\
    exists x, ip_mb (k_ipc k) !! o = Some x /\ mb_ok x;
  ia_mq : c = RT_Object_Class_MessageQueue ->
    exists x, ip_mq (k_ipc k) !! o = Some x /\ exists fr qu, mq_split x fr qu
}.

Lemma ipc_ok_at k :
  (forall o c, has_type k (AObj o) c -> 1 <= c <= 5 -> ipc_at k o c) -> ipc_ok k.
Proof.
  intros H. split; intros o Ho; destruct (H o _ Ho) as [Hh H1 H2 H3 H4 H5]; try (by split);
    split; auto.
Qed.

Lemma ipc_at_ok k o c : ipc_ok k -> has_type k (AObj o) c -> 1 <= c <= 5 -> ipc_at k o c.
Proof.
  intros [H1 H2 H3 H4 H5] Ho Hc.
  assert (Hh : head_exists k (HSuspend o)).
  { assert (c = 1 \/ c = 2 \/ c = 3 \/ c = 4 \/ c = 5) as [->|[->|[->|[->| ->]]]] by lia;
      [apply H1|apply H2|apply H3|apply H4|apply H5]; done. }
  split; [done|..]; intros ->; [by destruct (H1 o Ho)|by destruct (H2 o Ho)|by destruct (H3 o Ho)
    |by destruct (H4 o Ho)|by destruct (H5 o Ho)].
Qed.

(** The records of the other objects are unchanged. *)
Definition ipc_agree (o : Z) (i i' : ipcs) : Prop :=
  forall x, x <> o -> ip_sem i' !! x = ip_sem i !! x /\ ip_mutex i' !! x = ip_mutex i !! x /\
    ip_event i' !! x = ip_event i !! x /\ ip_mb i' !! x = ip_mb i !! x /\
    ip_mq i' !! x = ip_mq i !! x /\ ip_mp i' !! x = ip_mp i !! x.

(** An object other than a thread is created at a fresh address. *)
Record obj_new (k : kstate) (o : Z) (ob : rt_object) (k' : kstate) : Prop := {
  in_obj : attached (k_obj k) (AObj o) ob (k_obj k');
  in_ts : k_ts k' = k_ts k \/ exists tm, k_ts k' = put_timer (AObj o) tm (k_ts k);
  in_heap : k_heap k' = k_heap k;
  in_threads : threads k' = threads k;
  in_swf : swf ∅ (k_sched k');
  in_heads : forall h, head_exists k h -> head_exists k' h;
  in_heads_back : forall h, h <> HSuspend o -> h <> HSender o -> head_exists k' h -> head_exists k h;
  in_waiters : forall h, waiters k' h = waiters k h;
  in_agree : ipc_agree o (k_ipc k) (k_ipc k')
}.

Lemma new_type k o ob k' a c :
  obj_new k o ob k' -> a <> AObj o -> has_type k' a c <-> has_type k a c.
Proof.
  intros Hn Ha. unfold has_type, o_has_type. rewrite (at_objs _ _ _ _ (in_obj _ _ _ _ Hn)).
  by rewrite lookup_insert_ne.
Qed.

Lemma new_is_thread k o ob k' t :
  obj_new k o ob k' -> fresh k o -> is_thread k t -> is_thread k' t.
Proof.
  intros Hn Hf [[th H1] H2]. split; [rewrite (in_threads _ _ _ _ Hn); by eexists|].
  apply (new_type _ _ _ _ _ _ Hn); [|done]. intros [= ->].
  by rewrite (fr_thread _ _ Hf) in H1.
Qed.

Lemma new_ts k o ob k' :
  kwf k -> obj_new k o ob k' -> twf (k_ts k') /\ ts_tick (k_ts k') = ts_tick (k_ts k) /\
    running k' = running k /\ forall t, timers k' !! ATimer t = timers k !! ATimer t.
Proof.
  intros Hk Hn. unfold running, timers. destruct (in_ts _ _ _ _ Hn) as [-> | [tm ->]].
  - split; [apply Hk|done].
  - split; [apply twf_put, Hk|]. split; [done|]. split; [done|]. intros t. cbn. by rewrite lookup_insert_ne.
Qed.

Lemma new_live k o ob k' t :
  kwf k -> obj_new k o ob k' -> t <> o -> thread_live k t -> thread_live k' t.
Proof.
  intros Hk Hn Hne [L1 L2 L3 L4]. destruct (new_ts _ _ _ _ Hk Hn) as (_ & _ & _ & Et).
  split; [by apply (new_type _ _ _ _ _ _ Hn); [congruence|]|by rewrite Et
    |by apply (new_type _ _ _ _ _ _ Hn)|].
  unfold has_static. rewrite (at_objs _ _ _ _ (in_obj _ _ _ _ Hn)). by rewrite lookup_insert_ne.
Qed.

Lemma new_ipc_ok k o ob k' :
  kwf k -> fresh k o -> obj_new k o ob k' ->
  (1 <= type_of ob <= 5 -> ipc_at k' o (type_of ob)) -> ipc_ok k'.
Proof.
  intros Hk Hf Hn Hat. pose proof Hn as [Ho Hts Hh Eth Hw Hhd _ Hwt Hag].
  apply ipc_ok_at. intros x c Hx Hc. destruct (decide (x = o)) as [->|Hne].
  - destruct Hx as (ob' & Hob & <-). rewrite (at_objs _ _ _ _ Ho), lookup_insert_eq in Hob.
    simplify_eq. by apply Hat.
  - apply (new_type _ _ _ _ _ _ Hn) in Hx; [|congruence].
    destruct (ipc_at_ok _ _ _ (kw_ipc _ Hk) Hx Hc) as [I1 I2 I3 I4 I5 I6].
    destruct (Hag x Hne) as (A1 & A2 & A3 & A4 & A5 & _).
    split; rewrite ?Hwt, ?A1, ?A2, ?A3, ?A4, ?A5; auto.
    + intros Ec. destruct (I3 Ec) as (y & ? & ? & ?). exists y. split; [done|]. split; [|done].
      eapply mutex_ok_frame; [done|]. intros t. by eapply new_is_thread.
    + intros Ec. destruct (I5 Ec). auto.
Qed.

Lemma kwf_new_obj k o ob k' :
  kwf k -> fresh k o -> obj_new k o ob k' ->
  (1 <= type_of ob <= 5 -> ipc_at k' o (type_of ob)) -> kwf k'.
Proof.
  intros Hk Hf Hn Hat. pose proof Hn as [Ho Hts Hh Eth Hw Hhd _ Hwt Hag].
  destruct (new_ts _ _ _ _ Hk Hn) as (W1 & W2 & W3 & W4).
  split; try done; rewrite ?W2, ?W3, ?Hh; try apply Hk.
  - apply Ho.
  - intros t th Ht Hs. rewrite Eth in Ht. eapply new_live; [done|done| |by apply (kw_live _ Hk t th)].
    intros ->. by rewrite (fr_thread _ _ Hf) in Ht.
  - intros t. rewrite Hwt. intros Ht. apply (new_type _ _ _ _ _ _ Hn); [|by apply (kw_defunct _ Hk)].
    intros [= ->]. destruct (sw_member _ _ (kw_sched _ Hk) _ _ Ht) as [th Hth].
    pose proof (fr_thread _ _ Hf). unfold threads in *. congruence.
  - intros t Ht. rewrite Eth, W4. by apply (kw_ttimer _ Hk).
  - intros p Hp. apply (new_type _ _ _ _ _ _ Hn); [|by apply (kw_utimer _ Hk)].
    intros [= ->]. by destruct (fr_running _ _ Hf).
  - by eapply new_ipc_ok.
Qed.

Lemma head_init_run k h :
  waiters k h = [] -> liftS (tlist_head_init h) k = Ok tt (k_link h [] k).
Proof.
  intros Hw. apply liftS_run. unfold tlist_head_init. rewrite bind_getS.
  unfold waiters, lget in Hw. destruct (sc_lists (k_sched k) !! h); cbn in Hw; by subst.
Qed.

Lemma obj_new_head k o ob k' h :
  obj_new k o ob k' -> h = HSuspend o \/ h = HSender o -> waiters k h = [] -> obj_new k o ob (k_link h [] k').
Proof.
  intros [Ho Hts Hh Eth Hw Hhd Hhb Hwt Hag] Hoh He. assert (Hh' : is_wait h) by by destruct Hoh as [-> | ->].
  split; try done.
  - apply swf_new_head; [done|done|]. by rewrite <- He, <- Hwt.
  - intros h0 H0. unfold head_exists. cbn. destruct (decide (h0 = h)) as [->|].
    + rewrite lookup_insert_eq. by eexists.
    + rewrite lookup_insert_ne by done. by apply Hhd.
  - intros h0 N1 N2. unfold head_exists. cbn. rewrite lookup_insert_ne by (destruct Hoh; congruence). by apply Hhb.
  - intros h0. rewrite <- (Hwt h0). unfold waiters. cbn. rewrite lget_put.
    destruct (decide (h0 = h)) as [->|]; [|done]. symmetry. etransitivity; [apply Hwt|done].
Qed.

(** The common part of the functions of src/ipc.c that initialise or create an
    object: [o] has been attached, and gets its wait list and record. *)
Lemma ipc_attached_run k o ob s' :
  kwf k -> fresh k o -> attached (k_obj k) (AObj o) ob s' ->
  let k1 := k_link (HSuspend o) [] (put_obj s' k) in
  rt_ipc_object_init o (put_obj s' k) = Ok tt k1 /\ head_exists k1 (HSuspend o) /\
  os_objs (k_obj k1) !! AObj o = Some ob /\
  forall i, ipc_agree o (k_ipc k) i -> obj_new k o ob (put_ipc i k1) /\ waiters (put_ipc i k1) (HSuspend o) = [].
Proof.
  intros Hk Hf Ha k1. pose proof (fr_waiters _ _ Hf) as [F6 F7]. split; [by apply head_init_run|].
  split; [unfold head_exists; cbn; rewrite lookup_insert_eq; by eexists|].
  split; [cbn; rewrite (at_objs _ _ _ _ Ha); apply lookup_insert_eq|].
  intros i Hi. assert (Hn : obj_new k o ob (put_ipc i (put_obj s' k))).
  { split; try done; [by left|apply Hk]. }
  pose proof (obj_new_head _ _ _ _ (HSuspend o) Hn (or_introl eq_refl) F6) as Hn'. split; [exact Hn'|].
  etransitivity; [apply (in_waiters _ _ _ _ Hn' (HSuspend o))|done].
Qed.

Lemma ipc_init_run k o c name :
  kwf k -> fresh k o -> c ∈ container_classes ->
  exists s' k1, liftO (rt_object_init (AObj o) c name) k = Ok tt (put_obj s' k) /\
    rt_ipc_object_init o (put_obj s' k) = Ok tt k1 /\ k_ipc k1 = k_ipc k /\
    head_exists k1 (HSuspend o) /\ has_static k1 (AObj o) true /\ has_type k1 (AObj o) c /\
    forall i, ipc_agree o (k_ipc k) i ->
      obj_new k o (mk_object (name_copy RT_NAME_MAX name) (Z.lor c RT_Object_Class_Static)) (put_ipc i k1).
Proof.
  intros Hk Hf Hc. destruct (static_type (name_copy RT_NAME_MAX name) c Hc) as [T1 T2].
  destruct (liftO_init k (AObj o) c name) as (s' & E & Ha); try done; [apply Hf|pose proof (fr_null _ _ Hf); congruence|].
  set (ob := mk_object _ _) in *. destruct (ipc_attached_run k o ob s' Hk Hf Ha) as (E2 & Hh & Ho & Hn).
  exists s', (k_link (HSuspend o) [] (put_obj s' k)). do 4 (split; [done|]).
  split; [by exists ob|]. split; [by exists ob|]. intros i Hi. by apply Hn.
Qed.

(** ** Threads *)

Lemma fresh_unlinked k t : kwf k -> fresh k t -> unlinked t (k_sched k).
Proof.
  intros Hk Hf h Hin. destruct (sw_member _ _ (kw_sched _ Hk) _ _ Hin) as [th Hth].
  pose proof (fr_thread _ _ Hf). unfold threads in *. congruence.
Qed.

Lemma timer_init_run s a f par time flag :
  twf s -> a ∉ last_row s ->
  _rt_timer_init a f par time flag s =
    Ok tt (put_timer a (mk_timer (Z.land flag (Z.lnot RT_TIMER_FLAG_ACTIVATED)) f par time 0) s).
Proof.
  intros Hw Ha. unfold _rt_timer_init. rewrite bind_getS.
  assert (timer_linked a s = false) as ->; [|done].
  unfold timer_linked. apply not_true_is_false. intros H. apply existsb_exists in H as (row & Hr & Hb).
  apply bool_decide_eq_true in Hb. apply list_elem_of_In in Hr. apply Ha.
  eapply elem_of_sublist; [done|]. by apply twf_row_sub.
Qed.

(** A thread [t] with control block [th] has been initialised. *)
Record thread_inited (k : kstate) (t : Z) (th : rt_thread) (k' : kstate) : Prop := {
  ti_sched : k_sched k' = put_thread t th (k_sched k);
  ti_obj : exists ob tob s1, attached (k_obj k) (AObj t) ob s1 /\ attached s1 (ATimer t) tob (k_obj k') /\
    type_of ob = RT_Object_Class_Thread /\ type_of tob = RT_Object_Class_Timer /\ is_static tob = true;
  ti_ts : exists tm, k_ts k' = put_timer (ATimer t) tm (k_ts k) /\ thread_timer t tm;
  ti_ipc : k_ipc k' = k_ipc k;
  ti_heap : k_heap k' = k_heap k
}.

Lemma inited_type k t th k' a c :
  thread_inited k t th k' -> a <> AObj t -> a <> ATimer t -> has_type k' a c <-> has_type k a c.
Proof.
  intros [_ (ob & tob & s1 & H1 & H2 & _) _ _ _] A1 A2. unfold has_type, o_has_type.
  rewrite (at_objs _ _ _ _ H2), lookup_insert_ne by done.
  by rewrite (at_objs _ _ _ _ H1), lookup_insert_ne.
Qed.

Lemma inited_live k t th k' : thread_inited k t th k' -> thread_live k' t.
Proof.
  intros [_ (ob & tob & s1 & H1 & H2 & T1 & T2 & T3) (tm & Ets & Htm) _ _].
  assert (Ho : os_objs (k_obj k') !! AObj t = Some ob).
  { rewrite (at_objs _ _ _ _ H2), lookup_insert_ne, (at_objs _ _ _ _ H1) by done. apply lookup_insert_eq. }
  assert (Ht : os_objs (k_obj k') !! ATimer t = Some tob).
  { rewrite (at_objs _ _ _ _ H2). apply lookup_insert_eq. }
  split; [by exists ob| |by exists tob|by exists tob].
  exists tm. split; [|done]. unfold timers. rewrite Ets. apply lookup_insert_eq.
Qed.

Lemma inited_live_other k t th k' x :
  thread_inited k t th k' -> x <> t -> thread_live k x -> thread_live k' x.
Proof.
  intros Hi Hne [L1 (tm & L2 & L2') L3 (ob & L4 & L4')].
  split; [by apply (inited_type _ _ _ _ _ _ Hi); [congruence|done|]| 
    |by apply (inited_type _ _ _ _ _ _ Hi); [done|congruence|]|].
  - exists tm. split; [|done]. destruct Hi as [_ _ (tm' & E & _) _ _]. unfold timers. rewrite E.
    cbn. by rewrite lookup_insert_ne by congruence.
  - destruct Hi as [_ (o1 & o2 & s1 & H1 & H2 & _) _ _ _]. exists ob. split; [|done].
    rewrite (at_objs _ _ _ _ H2), lookup_insert_ne by congruence.
    by rewrite (at_objs _ _ _ _ H1), lookup_insert_ne by congruence.
Qed.

Lemma kwf_inited k t th k' :
  kwf k -> fresh k t -> thread_inited k t th k' -> thread_ok t th -> stat_of th = RT_THREAD_INIT ->
  kwf k'.
Proof.
  intros Hk Hf Hi Hok Hst. pose proof (fresh_unlinked _ _ Hk Hf) as Hu.
  pose proof Hi as [Es (ob & tob & s1 & A1 & A2 & T1 & T2 & T3) (tm & Ets & Htm) Ei Eh].
  pose proof Hf as [F1 _ _ F4 [F5 F6] _].
  assert (Eth : threads k' = <[t := th]> (threads k)) by (unfold threads; by rewrite Es).
  assert (Hxne : forall x thx, threads k !! x = Some thx -> x <> t).
  { intros x thx Hx ->. congruence. }
  assert (Er : running k' = running k) by (unfold running; by rewrite Ets).
  split.
  - rewrite Es. apply (swf_weaken ({[t]} ∖ {[t]})); [|set_solver]. apply swf_placed.
    + apply (swf_weaken ({[t]} ∪ ∅)); [apply put_thread_swf; [apply Hk|done|done]|set_solver].
    + eapply placed_unlinked; [apply lookup_insert_eq|exact Hu|]. by rewrite Hst.
  - rewrite Ets. apply twf_put, Hk.
  - rewrite Ets. apply Hk.
  - apply A2.
  - rewrite Eh. apply Hk.
  - intros x thx Hx Hs. rewrite Eth in Hx. destruct (decide (x = t)) as [->|Hne].
    + by eapply inited_live.
    + rewrite lookup_insert_ne in Hx by done. eapply inited_live_other; [done|done|].
      by apply (kw_live _ Hk x thx).
  - intros x Hx. assert (Hx' : x ∈ waiters k HDefunct) by (unfold waiters in *; by rewrite Es in Hx).
    apply (inited_type _ _ _ _ _ _ Hi); [|done|by apply (kw_defunct _ Hk)].
    intros [= ->]. by apply (Hu HDefunct).
  - intros x Hx. rewrite Er in Hx. destruct (kw_ttimer _ Hk _ Hx) as (th0 & tm0 & H1 & H2 & H3 & H4).
    pose proof (Hxne _ _ H1). exists th0, tm0. rewrite Eth. unfold timers. rewrite Ets. cbn.
    rewrite !lookup_insert_ne by congruence. done.
  - intros p Hp. rewrite Er in Hp. apply (inited_type _ _ _ _ _ _ Hi); [congruence|done|by apply (kw_utimer _ Hk)].
  - apply (ipc_ok_frame k); [apply Hk|done| | | |].
    + intros o c Ho Hc. apply (inited_type _ _ _ _ _ _ Hi) in Ho; [done| |done].
      intros [= ->]. destruct Ho as (ob' & Ho & Et). rewrite (at_objs _ _ _ _ A2), lookup_insert_ne in Ho by done.
      rewrite (at_objs _ _ _ _ A1), lookup_insert_eq in Ho. simplify_eq. rewrite T1 in Hc. by destruct Hc.
    + intros h Hh. unfold head_exists. by rewrite Es.
    + intros x [[thx Hx] H2]. pose proof (Hxne _ _ Hx). split.
      * rewrite Eth, lookup_insert_ne by done. by eexists.
      * by apply (inited_type _ _ _ _ _ _ Hi); [congruence|done|].
    + intros o x. by rewrite Es.
Qed.

(** The control block [_rt_thread_init] leaves. *)
Definition thread_new (th : rt_thread) (entry parameter stack_start stack_size priority tick : Z) : Prop :=
  th_entry th = entry /\ th_parameter th = parameter /\ th_stack_addr th = stack_start /\
  th_stack_size th = stack_size /\ th_init_priority th = priority /\
  th_current_priority th = priority /\ th_init_tick th = tick /\ th_remaining_tick th = tick /\
  th_error th = RT_EOK /\ th_stat th = RT_THREAD_INIT /\ th_cleanup th = RT_NULL.

(** [_rt_thread_init] on a thread object that has been attached. *)
Lemma thread_setup_run k t ob s1 entry par ss sz prio tick :
  kwf k -> fresh k t -> attached (k_obj k) (AObj t) ob s1 -> type_of ob = RT_Object_Class_Thread ->
  0 <= prio < RT_THREAD_PRIORITY_MAX ->
  exists k' th, _rt_thread_init t entry par ss sz prio tick (put_obj s1 k) = Ok RT_EOK k' /\ kwf k' /\
    thread_inited k t th k' /\ thread_new th entry par ss sz prio tick /\
    os_objs (k_obj k') !! AObj t = Some ob /\ object_linked (AObj t) (k_obj k') = true.
Proof.
  intros Hk Hf A1 T1 Hp. pose proof (fresh_unlinked _ _ Hk Hf) as Hu. pose proof Hf as [F1 F2 F3 F4 [F5 F6] _].
  unfold _rt_thread_init.
  assert (En : liftS (tlist_node_init t) (put_obj s1 k) = Ok tt (put_obj s1 k)).
  { unfold liftS, zoom. change (k_sched (put_obj s1 k)) with (k_sched k). unfold tlist_node_init.
    apply linked_spec in Hu. rewrite bind_getS, Hu. cbn. by destruct k. }
  rewrite (bind_ok _ _ _ _ _ En). rewrite bind_assert by (apply Z.ltb_lt; lia). rewrite bind_gets.
  set (th := {| th_entry := entry |}).
  assert (Eth : liftS (modify (put_thread t th)) (put_obj s1 k) =
    Ok tt (put_sched (put_thread t th (k_sched k)) (put_obj s1 k))) by done.
  rewrite (bind_ok _ _ _ _ _ Eth). set (k2 := put_sched _ _).
  assert (Eo : liftO (get_object (AObj t)) k2 = Ok ob k2).
  { erewrite liftO_run; [|apply get_object_run; cbn; rewrite (at_objs _ _ _ _ A1); apply lookup_insert_eq].
    by rewrite put_obj_id. }
  rewrite (bind_ok _ _ _ _ _ Eo). unfold rt_timer_init. rewrite bind_assoc, bind_assert by done.
  destruct (static_type (name_copy RT_NAME_MAX (o_name ob)) RT_Object_Class_Timer) as [T3 T4]; [class_mem|].
  destruct (object_init_run s1 (ATimer t) RT_Object_Class_Timer (o_name ob)) as (s2 & E2 & A2);
    [apply A1|by apply A1|done|class_mem|].
  rewrite bind_assoc. rewrite (bind_ok _ _ _ _ _ (liftO_run (rt_object_init _ _ _) k2 _ _ E2)).
  erewrite bind_ok by (eapply liftT_run, timer_init_run; [apply Hk|done]).
  eexists _, th. split; [done|].
  assert (Hi : forall tm, thread_timer t tm ->
    thread_inited k t th (put_ts (put_timer (ATimer t) tm (k_ts k)) (put_obj s2 k2))).
  { intros tm Htm. split; try done; [|by exists tm]. eexists ob, _, s1. done. }
  split; [|split; [apply Hi|split; [|split]]]; [|by split_and!; try done; split..|done| |].
  - eapply (kwf_inited k t th); [done|done|apply Hi; by split_and!; try done; split| |done].
    split_and!; try done; cbn; lia.
  - cbn. rewrite (at_objs _ _ _ _ A2), lookup_insert_ne, (at_objs _ _ _ _ A1) by done. apply lookup_insert_eq.
  - cbn. rewrite (at_others _ _ _ _ A2) by done. apply A1.
Qed.

Lemma thread_init_run k t name entry par ss sz prio tick :
  kwf k -> fresh k t -> ss <> RT_NULL -> 0 <= prio < RT_THREAD_PRIORITY_MAX ->
  exists k' th, rt_thread_init t name entry par ss sz prio tick k = Ok RT_EOK k' /\ kwf k' /\
    thread_inited k t th k' /\ thread_new th entry par ss sz prio tick /\ has_static k' (AObj t) true.
Proof.
  intros Hk Hf Hss Hp. pose proof Hf as [F1 F2 F3 F4 [F5 F6] _].
  destruct (static_type (name_copy RT_NAME_MAX name) RT_Object_Class_Thread) as [T1 T2]; [class_mem|].
  destruct (liftO_init k (AObj t) RT_Object_Class_Thread name) as (s1 & E1 & A1); try done;
    [congruence|class_mem|].
  destruct (thread_setup_run k t _ s1 entry par ss sz prio tick Hk Hf A1 T1 Hp) as (k' & th & E & Hk' & Hi & Hn & Ho & _).
  exists k', th. split; [|split; [done|split; [done|split; [done|by eexists]]]].
  unfold rt_thread_init. destruct (Z.eqb_spec t RT_NULL) as [|_]; [done|]. destruct (Z.eqb_spec ss RT_NULL) as [|_]; [done|].
  rewrite !bind_assert by done. by rewrite (bind_ok _ _ _ _ _ E1).
Qed.

(** Changing the control block of a thread that is in no list. *)
Lemma kwf_put_unlinked k t th th' :
  kwf k -> threads k !! t = Some th -> unlinked t (k_sched k) -> thread_ok t th' ->
  (stat_of th' = RT_THREAD_READY -> t = sc_current (k_sched k)) ->
  (stat_of th' = RT_THREAD_SUSPEND \/ ATimer t ∉ running k) ->
  (stat_of th' <> RT_THREAD_CLOSE -> stat_of th <> RT_THREAD_CLOSE) -> kwf (k_put t th' k).
Proof.
  intros Hk Ht Hu Hok Hr Htm Hc.
  apply kwf_sched_step; [done|apply (sched_step_thread k _ t th th'); try done|by intros o x].
  apply (swf_weaken ({[t]} ∖ {[t]})); [|set_solver]. apply swf_placed.
  - apply (swf_weaken ({[t]} ∪ ∅)); [apply put_thread_swf; [apply Hk|done|done]|set_solver].
  - eapply placed_unlinked; [apply lookup_insert_eq|exact Hu|done].
Qed.

Lemma init_unlinked k t th :
  kwf k -> threads k !! t = Some th -> stat_of th = RT_THREAD_INIT ->
  unlinked t (k_sched k) /\ ATimer t ∉ running k.
Proof.
  intros Hk Ht Hs. split.
  - intros h Hin. pose proof (sw_stat _ _ (kw_sched _ Hk) h t th Hin Ht) as E.
    rewrite Hs in E. specialize (E ltac:(set_solver)). by destruct h.
  - intros Hin. destruct (kw_ttimer _ Hk _ Hin) as (th' & _ & H1 & H2 & _).
    unfold threads in *. simplify_eq. by rewrite Hs in H2.
Qed.

(** The control block [rt_thread_startup] hands to [rt_thread_resume]. *)
Definition thread_started (th : rt_thread) : rt_thread :=
  force_stat RT_THREAD_SUSPEND (prio_attr (set_priority (th_init_priority th) th)).

Lemma force_stat_masks st th : masks_ok th -> masks_ok (force_stat st th).
Proof.
  intros [Hp Ha]. split; [done|]. transitivity (force_stat st (prio_attr th)); [|by rewrite Ha].
  unfold prio_attr. by destruct (32 <? _).
Qed.

Lemma started_ok t th :
  t <> RT_NULL -> 0 <= th_init_priority th < RT_THREAD_PRIORITY_MAX -> thread_ok t (thread_started th).
Proof.
  intros Ht Hp. assert (Hm : masks_ok (prio_attr (set_priority (th_init_priority th) th))) by by apply prio_attr_masks.
  assert (Hc : th_current_priority (thread_started th) = th_init_priority th).
  { unfold thread_started, prio_attr. by destruct (32 <? _). }
  split; [done|]. split; [done|]. rewrite Hc. split; [done|]. intros _ _.
  by apply force_stat_masks.
Qed.

(** The scheduler is running, or no thread has been started yet. *)
Definition maybe_rescheduled (k : kstate) (s' : sched) : Prop :=
  (sc_current (k_sched k) = RT_NULL -> s' = k_sched k) /\
  (sc_current (k_sched k) <> RT_NULL -> rescheduled (k_sched k) s').

Lemma maybe_schedule_run k :
  kwf k -> exists s', (self ← liftS rt_thread_self; when (negb (self =? RT_NULL)) (liftS rt_schedule)) k =
      Ok tt (put_sched s' k) /\ kwf (put_sched s' k) /\ maybe_rescheduled k s'.
Proof.
  intros Hk. rewrite (bind_ok _ _ _ _ _ (k_self_run k)).
  destruct (Z.eqb_spec (sc_current (k_sched k)) RT_NULL) as [E|E]; cbn [negb when].
  - exists (k_sched k). rewrite put_sched_id. done.
  - destruct (k_schedule_run k Hk E) as (s' & H1 & H2 & H3). exists s'. done.
Qed.

Lemma thread_startup_run k t th :
  kwf k -> threads k !! t = Some th -> stat_of th = RT_THREAD_INIT ->
  0 <= th_init_priority th < RT_THREAD_PRIORITY_MAX ->
  let k1 := k_resume t (thread_started th) (k_put t (thread_started th) k) in
  exists s', rt_thread_startup t k = Ok RT_EOK (put_sched s' k1) /\ kwf (put_sched s' k1) /\
    kwf k1 /\ maybe_rescheduled k1 s'.
Proof.
  intros Hk Ht Hs Hp. destruct (init_unlinked k t th Hk Ht Hs) as [Hu Hnr].
  assert (Hnc : stat_of th <> RT_THREAD_CLOSE) by by rewrite Hs.
  pose proof (kw_live _ Hk t th Ht Hnc) as Hl. set (th1 := thread_started th).
  assert (Hk1 : kwf (k_put t th1 k)).
  { apply (kwf_put_unlinked k t th); try done; [|by left].
    apply started_ok; [|done]. apply (sw_thread _ _ (kw_sched _ Hk) _ _ Ht). }
  destruct (thread_resume_run (k_put t th1 k) t th1 Hk1) as [Er Hk2]; [apply lookup_insert_eq|done|].
  cbv zeta. set (k1 := k_resume t th1 (k_put t th1 k)) in *.
  destruct (maybe_schedule_run k1 Hk2) as (s' & E3 & Hk3 & Hm). exists s'.
  split; [|done]. unfold rt_thread_startup. rewrite (nonnull_thread _ _ _ Hk Ht), bind_assert by done.
  rewrite (bind_ok _ _ _ _ _ (thread_stat_run _ _ _ Ht)), Hs, bind_assert by done.
  rewrite (bind_ok _ _ _ _ _ (assert_type_run _ _ _ Hk (tl_type _ _ Hl))).
  rewrite (bind_ok _ _ _ _ _ (k_upd_thread_run _ _ _ _ Ht)).
  erewrite bind_ok by (apply k_upd_thread_run, lookup_insert_eq).
  assert (E2 : forall a b, put_sched (put_thread t b (k_sched (put_sched (put_thread t a (k_sched k)) k)))
    (put_sched (put_thread t a (k_sched k)) k) = k_put t b k).
  { intros a b. unfold k_put, put_thread, put_sched. cbn. by rewrite insert_insert_eq. }
  rewrite E2. rewrite (bind_ok _ _ _ _ _ Er). rewrite <- bind_assoc. by rewrite (bind_ok _ _ _ _ _ E3).
Qed.

Lemma k_start_run k :
  kwf k -> sc_current (k_sched k) = RT_NULL -> sc_group (k_sched k) <> 0 ->
  exists s' t p, liftS rt_system_scheduler_start k = Ok tt (put_sched s' k) /\
    kwf (put_sched s' k) /\ sched_frame (k_sched k) s' /\
    top_ready (k_sched k) = Some (t, p) /\ sc_current s' = t /\
    sc_lists s' = unlink t <$> sc_lists (k_sched k).
Proof.
  intros Hk Hc Hg. destruct (scheduler_start_run _ (kw_sched _ Hk) Hc Hg) as (s' & t & p & E & Hw & Hf & Ht & Ec & El).
  exists s', t, p. split; [by apply liftS_run|]. split_and!; try done.
  assert (Hs : forall h x, x ∈ lget s' h -> x ∈ waiters k h).
  { intros h x. unfold lget at 1. rewrite El, lget_unlink. rewrite elem_of_unlink. tauto. }
  apply kwf_sched_step; [done|apply sched_step_lists; try done; [apply Hf| |by apply Hs]|by intros o; apply Hs].
  intros h Hh. rewrite El. by apply heads_unlink.
Qed.

(** ** Timers of the application *)

Lemma user_timer_init_run k p name f par time flag :
  kwf k -> fresh k p ->
  exists k', rt_timer_init (AObj p) name (FUser f) par time flag k = Ok tt k' /\ kwf k' /\
    has_type k' (AObj p) RT_Object_Class_Timer /\ running k' = running k /\
    k_ts k' = put_timer (AObj p)
      (mk_timer (Z.land flag (Z.lnot RT_TIMER_FLAG_ACTIVATED)) (FUser f) par time 0) (k_ts k) /\
    has_static k' (AObj p) true.
Proof.
  intros Hk Hf. destruct Hf as [F1 F2 F3 F4 [F5 F6] [F7 F8]] eqn:EF. clear EF.
  destruct (static_type (name_copy RT_NAME_MAX name) RT_Object_Class_Timer) as [T1 T2]; [class_mem|].
  destruct (liftO_init k (AObj p) RT_Object_Class_Timer name) as (s1 & E1 & A1);
    [done|done|congruence|class_mem|].
  unfold rt_timer_init. rewrite bind_assert.
  2: { unfold is_null. by rewrite bool_decide_false by congruence. }
  rewrite (bind_ok _ _ _ _ _ E1). erewrite liftT_run by (apply timer_init_run; [apply Hk|done]).
  eexists. split; [done|].
  set (tm := mk_timer _ _ _ _ _). set (ob := mk_object _ _) in *.
  assert (Hn : obj_new k p ob (put_ts (put_timer (AObj p) tm (k_ts k)) (put_obj s1 k))).
  { split; try done; [by right; exists tm|apply Hk]. }
  assert (Ho : os_objs s1 !! AObj p = Some ob) by (rewrite (at_objs _ _ _ _ A1); apply lookup_insert_eq).
  split; [|split; [by exists ob|split; [done|split; [done|by exists ob]]]].
  apply (kwf_new_obj k p ob); [done|done|done|]. rewrite T1. by intros [_ ?].
Qed.

(** ** Detaching an object *)

Definition k_detach (o : Z) (ob : rt_object) (k : kstate) : kstate :=
  put_obj (os_remove (AObj o) (put_object (AObj o) (mk_object (o_name ob) 0) (k_obj k))) k.

Lemma detach_type k o ob a c : a <> AObj o -> has_type (k_detach o ob k) a c <-> has_type k a c.
Proof. intros Ha. unfold has_type, o_has_type. cbn. by rewrite lookup_insert_ne. Qed.

Lemma detached_type k o ob c : has_type (k_detach o ob k) (AObj o) c -> c = RT_Object_Class_Thread.
Proof. intros (ob' & Ho & <-). cbn in Ho. rewrite lookup_insert_eq in Ho. by simplify_eq. Qed.

Lemma type_unique k a c c' : has_type k a c -> has_type k a c' -> c = c'.
Proof. intros (o & H1 & <-) (o' & H2 & <-). congruence. Qed.

Lemma not_running k o c : kwf k -> has_type k (AObj o) c -> c <> RT_Object_Class_Timer -> AObj o ∉ running k.
Proof. intros Hk Hty Hc Hin. by pose proof (type_unique _ _ _ _ Hty (kw_utimer _ Hk o Hin)). Qed.

(** An object other than a thread is detached from its container. *)
Lemma kwf_detach k o ob c :
  kwf k -> os_objs (k_obj k) !! AObj o = Some ob -> has_type k (AObj o) c -> c <> RT_Object_Class_Thread ->
  (AObj o ∉ running k) ->
  liftO (rt_object_detach (AObj o)) k = Ok tt (k_detach o ob k) /\ kwf (k_detach o ob k).
Proof.
  intros Hk Ho Hty Hc Hr. pose proof (has_type_nonnull _ _ _ Hk Hty) as Hn.
  assert (Hneq : forall a, has_type k a RT_Object_Class_Thread -> a <> AObj o).
  { intros a Ha ->. by pose proof (type_unique _ _ _ _ Ha Hty). }
  split; [by apply liftO_run, detach_run|].
  split; try apply Hk.
  - apply owf_detach; [apply Hk|done].
  - intros t th Ht Hs. destruct (kw_live _ Hk t th Ht Hs) as [L1 L2 L3 L4].
    split; [by apply detach_type; [apply Hneq|]|done|by apply detach_type|].
    unfold has_static. cbn. by rewrite lookup_insert_ne.
  - intros t Ht. pose proof (kw_defunct _ Hk t Ht) as H. by apply detach_type; [apply Hneq|].
  - intros p Hp. pose proof (kw_utimer _ Hk p Hp) as H. apply detach_type; [|done]. by intros [= ->].
  - apply (ipc_ok_frame k); [apply Hk|done| |done| |by intros x t].
    + intros x c' Hx Hc'. destruct (decide (x = o)) as [->|]; [|by apply detach_type in Hx; [|congruence]].
      apply detached_type in Hx. subst. by destruct Hc'.
    + intros t [H1 H2]. split; [done|]. by apply detach_type; [apply Hneq|].
Qed.

End Boot.
