(* ===== verification/Demo.v ===== *)
(** * A running system

    A small system with two threads, reached from start-up with the kernel's
    own operations, on which the theorems of the development are
    instantiated; and a concrete heap for it. *)

From S2P Require Import Prelude Scheduler SchedInv SchedSpec Object ObjInv Timer TimerInv Kernel.
From S2P Require Import Thread KernelInv ThreadInv BlockInv ClockInv Boot.

(** ** A bump allocator

    The next address and the live addresses. *)

Definition bump_base : Z := 0x1000.
Definition bump_end : Z := 0x10000.

Definition bump_malloc (n : Z) : M (Z * gset Z) Z :=
  s ← getS;
  if (n <=? 0) || (bump_end <? s.1 + n) then mret RT_NULL
  else modify (fun s => (s.1 + n, {[s.1]} ∪ s.2));; mret s.1.
Definition bump_free (p : Z) : M (Z * gset Z) unit :=
  modify (fun s => (s.1, s.2 ∖ {[p]})).

Definition bump_heap : Heap := {|
  heap := Z * gset Z;
  heap_malloc := bump_malloc;
  heap_free := bump_free
|}.

Definition bump_ok (s : Z * gset Z) : Prop :=
  bump_base <= s.1 /\ forall p, p ∈ s.2 -> bump_base <= p < s.1.

#[refine] Definition bump_heap_ok : HeapOk bump_heap := {|
  heap_ok := bump_ok : @heap bump_heap -> Prop;
  heap_live := snd : @heap bump_heap -> gset Z;
  heap_area := fun p => bump_base <= p
|}.
Proof.
  - intros [n l] p [Hn Hl] Hp. cbn in *. specialize (Hl p Hp). unfold bump_base, RT_NULL in *. lia.
  - intros [n l] sz [Hn Hl]. cbn in *. unfold bump_malloc. rewrite bind_getS.
    destruct ((sz <=? 0) || _) eqn:E.
    + exists RT_NULL, (n, l). split; [done|]. split; [done|]. by left.
    + btrue. exists n, (n + sz, {[n]} ∪ l). split; [done|]. cbn in *. split.
      * split; cbn; [lia|]. intros p [->%elem_of_singleton|Hp]%elem_of_union; [lia|].
        specialize (Hl p Hp). lia.
      * right. split; [done|]. split; [intros Hp; specialize (Hl _ Hp); lia|].
        split; [unfold bump_base, RT_NULL in *; lia|done].
  - intros [n l] p [Hn Hl] _. exists (n, l ∖ {[p]}). split; [done|]. split; [|done].
    split; [done|]. cbn in *. intros q Hq. apply Hl. set_solver.
Defined.

(** ** Evaluation *)

Section Eval.
Context {CF : Config} {HP : Heap}.

(** The state after an operation. *)
Definition after {A} (m : K A) (k : kstate) : kstate :=
  match m k with Ok _ k' => k' | Fault _ => k end.

Lemma after_ok {A} (m : K A) k a k' : m k = Ok a k' -> after m k = k'.
Proof. unfold after. by intros ->. Qed.

(** [fresh] by evaluation. *)
Definition freshb (k : kstate) (p : Z) : bool :=
  negb (p =? RT_NULL) && negb (object_linked (AObj p) (k_obj k)) &&
  negb (object_linked (ATimer p) (k_obj k)) && bool_decide (threads k !! p = None) &&
  bool_decide (AObj p ∉ running k) && bool_decide (ATimer p ∉ running k) &&
  bool_decide (waiters k (HSuspend p) = []) && bool_decide (waiters k (HSender p) = []).

Lemma freshb_ok k p : freshb k p = true -> fresh k p.
Proof.
  unfold freshb. rewrite !andb_true_iff, !bool_decide_eq_true, !negb_true_iff, Z.eqb_neq.
  rewrite !object_linked_spec. intros [[[[[[[H1 H2] H3] H4] H5] H6] H7] H8]. by split.
Qed.

(** The control block of thread [t], for evaluation. *)
Definition thread_of (k : kstate) (t : Z) : rt_thread :=
  default (mk_thread 0 0 0 0 0 0 0 0 0 0 0 0 0 0 0 0 0) (threads k !! t).

End Eval.

#[local] Existing Instance default_config.
#[local] Existing Instance bump_heap.
#[local] Existing Instance bump_heap_ok.

(** ** Two threads

    Thread 100 has priority 5, thread 200 priority 10. *)

Definition heap0 : heap := (bump_base, ∅).
Definition t_high : Z := 100.
Definition t_low : Z := 200.

Definition demo_boot : kstate := after kernel_init (kernel_zero heap0).
Definition demo_high : kstate :=
  after (rt_thread_init t_high [104; 105] 1 0 5000 512 5 10) demo_boot.
Definition demo_low : kstate :=
  after (rt_thread_init t_low [108; 111] 1 0 6000 512 10 10) demo_high.
Definition demo_ready1 : kstate := after (rt_thread_startup t_high) demo_low.
Definition demo_ready2 : kstate := after (rt_thread_startup t_low) demo_ready1.
Definition demo : kstate := after (liftS rt_system_scheduler_start) demo_ready2.

Lemma demo_boot_kwf : kwf demo_boot.
Proof.
  destruct (boot_run heap0) as (k & E & Hk & _); [split; [done|set_solver]|].
  unfold demo_boot. by rewrite (after_ok _ _ _ _ E).
Qed.

Lemma demo_high_kwf : kwf demo_high.
Proof.
  destruct (thread_init_run demo_boot t_high [104; 105] 1 0 5000 512 5 10) as (k & th & E & Hk & _).
  - apply demo_boot_kwf.
  - apply freshb_ok. by vm_compute.
  - done.
  - done.
  - unfold demo_high. by rewrite (after_ok _ _ _ _ E).
Qed.

Lemma demo_low_kwf : kwf demo_low.
Proof.
  destruct (thread_init_run demo_high t_low [108; 111] 1 0 6000 512 10 10) as (k & th & E & Hk & _).
  - apply demo_high_kwf.
  - apply freshb_ok. by vm_compute.
  - done.
  - done.
  - unfold demo_low. by rewrite (after_ok _ _ _ _ E).
Qed.

Lemma demo_ready1_kwf : kwf demo_ready1.
Proof.
  destruct (thread_startup_run demo_low t_high (thread_of demo_low t_high)) as (s' & E & Hk & _).
  - apply demo_low_kwf.
  - by vm_compute.
  - by vm_compute.
  - by vm_compute.
  - unfold demo_ready1. by rewrite (after_ok _ _ _ _ E).
Qed.

Lemma demo_ready2_kwf : kwf demo_ready2.
Proof.
  destruct (thread_startup_run demo_ready1 t_low (thread_of demo_ready1 t_low)) as (s' & E & Hk & _).
  - apply demo_ready1_kwf.
  - by vm_compute.
  - by vm_compute.
  - by vm_compute.
  - unfold demo_ready2. by rewrite (after_ok _ _ _ _ E).
Qed.

(** Thread 100 runs and thread 200 is ready. *)
Lemma demo_kwf : kwf demo.
Proof.
  destruct (k_start_run demo_ready2) as (s' & t & p & E & Hk & _).
  - apply demo_ready2_kwf.
  - by vm_compute.
  - by vm_compute.
  - unfold demo. by rewrite (after_ok _ _ _ _ E).
Qed.

(** ** A third thread

    Thread 150 has the priority of thread 100 and is started by it: it runs,
    and thread 100 is ready. *)

Definition t_peer : Z := 150.
Definition demo_peer0 : kstate :=
  after (rt_thread_init t_peer [112] 1 0 7000 512 5 10) demo.
Definition demo_peer : kstate := after (rt_thread_startup t_peer) demo_peer0.

Lemma demo_peer0_kwf : kwf demo_peer0.
Proof.
  destruct (thread_init_run demo t_peer [112] 1 0 7000 512 5 10) as (k & th & E & Hk & _).
  - apply demo_kwf.
  - apply freshb_ok. by vm_compute.
  - done.
  - done.
  - unfold demo_peer0. by rewrite (after_ok _ _ _ _ E).
Qed.

Lemma demo_peer_kwf : kwf demo_peer.
Proof.
  destruct (thread_startup_run demo_peer0 t_peer (thread_of demo_peer0 t_peer)) as (s' & E & Hk & _).
  - apply demo_peer0_kwf.
  - by vm_compute.
  - by vm_compute.
  - by vm_compute.
  - unfold demo_peer. by rewrite (after_ok _ _ _ _ E).
Qed.

(** ** A periodic timer of the application

    Timer 400 has a period of three ticks; thread 100 then sleeps for two. *)

Definition tm_user : Z := 400.
Definition demo_timer0 : kstate :=
  after (rt_timer_init (AObj tm_user) [116] (FUser 7) 0 3 RT_TIMER_FLAG_PERIODIC) demo.
Definition demo_timer : kstate := after (rt_timer_start (AObj tm_user)) demo_timer0.
Definition demo_sleep : kstate := after (rt_thread_sleep 2) demo_timer.

Definition timer_of (k : kstate) (a : addr) : rt_timer :=
  default (mk_timer 0 FThreadTimeout 0 0 0) (timers k !! a).

Lemma demo_timer0_kwf : kwf demo_timer0 /\ has_type demo_timer0 (AObj tm_user) RT_Object_Class_Timer.
Proof.
  destruct (user_timer_init_run demo tm_user [116] 7 0 3 RT_TIMER_FLAG_PERIODIC) as (k & E & Hk & Hty & _).
  - apply demo_kwf.
  - apply freshb_ok. by vm_compute.
  - unfold demo_timer0. rewrite (after_ok _ _ _ _ E). split; [exact Hk|exact Hty].
Qed.

Lemma demo_timer_kwf : kwf demo_timer.
Proof.
  destruct (user_timer_start_run demo_timer0 tm_user (timer_of demo_timer0 (AObj tm_user))) as (ts' & E & Hk).
  - apply demo_timer0_kwf.
  - by vm_compute.
  - apply demo_timer0_kwf.
  - by vm_compute.
  - unfold demo_timer. by rewrite (after_ok _ _ _ _ E).
Qed.

Lemma demo_sleep_kwf : kwf demo_sleep.
Proof.
  destruct (sleep_run demo_timer t_high (thread_of demo_timer t_high) 2) as (k & E & Hk & _).
  - apply demo_timer_kwf.
  - by split; vm_compute.
  - by vm_compute.
  - unfold demo_sleep. by rewrite (after_ok _ _ _ _ E).
Qed.

(** The states are evaluated by [vm_compute] only. *)
#[global] Opaque demo_boot demo_high demo_low demo_ready1 demo_ready2 demo demo_peer0 demo_peer
  demo_timer0 demo_timer demo_sleep.
