(* ===== verification/Mem.v ===== *)
(** * The small memory allocator (src/mem.c)

    The heap is one area of memory cut into consecutive blocks.  Each block
    starts with a [struct heap_mem] that holds the offsets of the next and of
    the previous block; the last structure, [heap_end], is always in use.
    [sh_hdr] is the memory of the structures, by address, and [sh_bytes] the
    memory of the data between them.  A structure that a merge swallows is no
    longer part of the memory, so that an access to it is a fault.  The
    semaphore that protects the heap and the allocation trace are left out:
    each call is one step. *)

From S2P Require Import Prelude.

Definition HEAP_MAGIC : Z := 0x1ea0.

Record heap_mem := mk_hm { hm_magic : Z; hm_used : Z; hm_next : Z; hm_prev : Z }.

Record small_heap := mk_sh {
  sh_ptr : Z;                     (* heap_ptr *)
  sh_end : Z;                     (* heap_end *)
  sh_lfree : Z;                   (* lfree *)
  sh_size : Z;                    (* mem_size_aligned *)
  sh_used_mem : Z;                (* used_mem *)
  sh_max_mem : Z;                 (* max_mem *)
  sh_hdr : gmap Z heap_mem;
  sh_bytes : gmap Z Z
}.

Abbreviation Mh := (M small_heap).

Definition with_next (n : Z) (m : heap_mem) : heap_mem := {| m with hm_next := n |}.
Definition with_prev (n : Z) (m : heap_mem) : heap_mem := {| m with hm_prev := n |}.
Definition with_used (n : Z) (m : heap_mem) : heap_mem := {| m with hm_used := n |}.
Definition with_magic (m : heap_mem) : heap_mem := {| m with hm_magic := HEAP_MAGIC |}.

Definition get_mem (mem : Z) : Mh heap_mem := fun h => of_option BadPtr (sh_hdr h !! mem) h.
Definition put_hdr (mem : Z) (m : heap_mem) (h : small_heap) : small_heap :=
  {| h with sh_hdr := <[mem := m]> (sh_hdr h) |}.
Definition put_mem (mem : Z) (m : heap_mem) : Mh unit := modify (put_hdr mem m).
Definition upd_mem (mem : Z) (f : heap_mem -> heap_mem) : Mh unit :=
  m ← get_mem mem; put_mem mem (f m).
Definition drop_hdr (mem : Z) (h : small_heap) : small_heap :=
  {| h with sh_hdr := delete mem (sh_hdr h) |}.
Definition put_lfree (mem : Z) (h : small_heap) : small_heap := {| h with sh_lfree := mem |}.
Definition put_used (n : Z) (h : small_heap) : small_heap := {| h with sh_used_mem := n |}.
Definition put_max (n : Z) (h : small_heap) : small_heap := {| h with sh_max_mem := n |}.
Definition put_bytes (b : gmap Z Z) (h : small_heap) : small_heap := {| h with sh_bytes := b |}.

Section Mem.
Context {CF : Config}.

Definition MIN_SIZE : Z := if sizeof_ptr =? 8 then 24 else 12.
Definition sizeof_heap_mem : Z := if sizeof_ptr =? 8 then 24 else 12.
Definition MIN_SIZE_ALIGNED : Z := RT_ALIGN MIN_SIZE RT_ALIGN_SIZE.
Definition SIZEOF_STRUCT_MEM : Z := RT_ALIGN sizeof_heap_mem RT_ALIGN_SIZE.

Definition align (size : Z) : Z := ubase (RT_ALIGN size RT_ALIGN_SIZE).

(** [mem2] is created at offset [ptr2] and inserted between [mem] and
    [mem->next]; [f] are the writes to [mem]. *)
Definition cut_block (ptr ptr2 mem : Z) (f : heap_mem -> heap_mem) : Mh unit :=
  h ← getS;
  m ← get_mem mem;
  put_mem (sh_ptr h + ptr2) (mk_hm HEAP_MAGIC 0 (hm_next m) ptr);;
  upd_mem mem f;;
  when (negb (hm_next m =? sh_size h + SIZEOF_STRUCT_MEM))
    (upd_mem (sh_ptr h + hm_next m) (with_prev ptr2)).

(** ** Merging *)

Definition plug_forward (mem : Z) : Mh unit :=
  h ← getS;
  m ← get_mem mem;
  let nmem := sh_ptr h + hm_next m in
  if mem =? nmem then mret tt
  else
    n ← get_mem nmem;
    when ((hm_used n =? 0) && negb (nmem =? sh_end h))
      (when (sh_lfree h =? nmem) (modify (put_lfree mem));;
       upd_mem mem (with_next (hm_next n));;
       modify (drop_hdr nmem);;
       upd_mem (sh_ptr h + hm_next n) (with_prev (mem - sh_ptr h))).

Definition plug_backward (mem : Z) : Mh unit :=
  h ← getS;
  m ← get_mem mem;
  let pmem := sh_ptr h + hm_prev m in
  if pmem =? mem then mret tt
  else
    p ← get_mem pmem;
    when (hm_used p =? 0)
      (when (sh_lfree h =? mem) (modify (put_lfree pmem));;
       upd_mem pmem (with_next (hm_next m));;
       modify (drop_hdr mem);;
       upd_mem (sh_ptr h + hm_next m) (with_prev (pmem - sh_ptr h))).

Definition plug_holes (mem : Z) : Mh unit :=
  h ← getS;
  RT_ASSERT (sh_ptr h <=? mem);;
  RT_ASSERT (mem <? sh_end h);;
  m ← get_mem mem;
  RT_ASSERT (hm_used m =? 0);;
  plug_forward mem;;
  plug_backward mem.

(** ** Initialisation *)

(** The static variables before initialisation. *)
Definition heap_zero : small_heap := mk_sh 0 0 0 0 0 0 ∅ ∅.

Definition rt_system_heap_init (begin_addr end_addr : Z) : Mh unit :=
  let begin_align := align begin_addr in
  let end_align := ubase (RT_ALIGN_DOWN end_addr RT_ALIGN_SIZE) in
  if (2 * SIZEOF_STRUCT_MEM <? end_align) && (begin_align <=? end_align - 2 * SIZEOF_STRUCT_MEM) then
    let size := end_align - begin_align - 2 * SIZEOF_STRUCT_MEM in
    let last := size + SIZEOF_STRUCT_MEM in
    modify (fun h => {| h with sh_size := size; sh_ptr := begin_align |});;
    put_mem begin_align (mk_hm HEAP_MAGIC 0 last 0);;
    modify (fun h => {| h with sh_end := begin_align + last |});;
    put_mem (begin_align + last) (mk_hm HEAP_MAGIC 1 last last);;
    modify (put_lfree begin_align)
  else mret tt.

(** ** Allocation *)

Definition add_used (n : Z) : Mh unit :=
  used ← gets sh_used_mem;
  let used := ubase (used + n) in
  modify (put_used used);;
  max ← gets sh_max_mem;
  when (max <? used) (modify (put_max used)).

(** [while (lfree->used && lfree != heap_end)]. *)
Fixpoint lfree_advance (fuel : nat) : Mh unit :=
  match fuel with
  | O => fail OutOfFuel
  | S fuel =>
      h ← getS;
      l ← get_mem (sh_lfree h);
      if negb (hm_used l =? 0) && negb (sh_lfree h =? sh_end h) then
        modify (put_lfree (sh_ptr h + hm_next l));;
        lfree_advance fuel
      else mret tt
  end.

(** The block [mem] at offset [ptr] is taken, and split when the rest can
    hold a block of its own. *)
Definition malloc_split (size ptr mem : Z) : Mh unit :=
  h ← getS;
  m ← get_mem mem;
  if size + SIZEOF_STRUCT_MEM + MIN_SIZE_ALIGNED <=? ubase (hm_next m - (ptr + SIZEOF_STRUCT_MEM)) then
    let ptr2 := ptr + SIZEOF_STRUCT_MEM + size in
    cut_block ptr ptr2 mem (fun m => with_used 1 (with_next ptr2 m));;
    add_used (size + SIZEOF_STRUCT_MEM)
  else
    upd_mem mem (with_used 1);;
    add_used (ubase (hm_next m - (mem - sh_ptr h))).

Definition malloc_block (size ptr mem : Z) : Mh unit :=
  malloc_split size ptr mem;;
  upd_mem mem with_magic;;
  h ← getS;
  when (mem =? sh_lfree h)
    (lfree_advance (S (base.size (sh_hdr h)));;
     h ← getS; l ← get_mem (sh_lfree h);
     RT_ASSERT ((sh_lfree h =? sh_end h) || (hm_used l =? 0)));;
  RT_ASSERT (mem + SIZEOF_STRUCT_MEM + size <=? sh_end h);;
  RT_ASSERT ((mem + SIZEOF_STRUCT_MEM) mod RT_ALIGN_SIZE =? 0);;
  RT_ASSERT (Z.land mem (RT_ALIGN_SIZE - 1) =? 0).

(** [for (ptr = ...; ptr < mem_size_aligned - size; ptr = ...->next)]. *)
Fixpoint malloc_search (fuel : nat) (size ptr : Z) : Mh Z :=
  match fuel with
  | O => fail OutOfFuel
  | S fuel =>
      h ← getS;
      if negb (ptr <? ubase (sh_size h - size)) then mret RT_NULL
      else
        let mem := sh_ptr h + ptr in
        m ← get_mem mem;
        if (hm_used m =? 0) && (size <=? ubase (hm_next m - (ptr + SIZEOF_STRUCT_MEM))) then
          malloc_block size ptr mem;;
          mret (mem + SIZEOF_STRUCT_MEM)
        else malloc_search fuel size (hm_next m)
  end.

Definition rt_malloc (size : Z) : Mh Z :=
  if size =? 0 then mret RT_NULL
  else
    let size := align size in
    h ← getS;
    if sh_size h <? size then mret RT_NULL
    else
      let size := if size <? MIN_SIZE_ALIGNED then MIN_SIZE_ALIGNED else size in
      malloc_search (S (base.size (sh_hdr h))) size (sh_lfree h - sh_ptr h).

(** ** Release *)

Definition rt_free (rmem : Z) : Mh unit :=
  if rmem =? RT_NULL then mret tt
  else
    h ← getS;
    RT_ASSERT (Z.land rmem (RT_ALIGN_SIZE - 1) =? 0);;
    RT_ASSERT ((sh_ptr h <=? rmem) && (rmem <? sh_end h));;
    let mem := rmem - SIZEOF_STRUCT_MEM in
    m ← get_mem mem;
    RT_ASSERT (negb (hm_used m =? 0));;
    RT_ASSERT (hm_magic m =? HEAP_MAGIC);;
    upd_mem mem (fun m => with_magic (with_used 0 m));;
    when (mem <? sh_lfree h) (modify (put_lfree mem));;
    modify (put_used (ubase (sh_used_mem h - (hm_next m - (mem - sh_ptr h)))));;
    plug_holes mem.

(** ** Change of size; the data of the blocks *)

Definition byte_at (p : Z) (h : small_heap) : Z := default 0 (sh_bytes h !! p).

(** [rt_memcpy(dst, src, n)] and [rt_memset(p, c, n)] on the data. *)
Fixpoint copy_bytes (n : nat) (dst src : Z) (b : gmap Z Z) : gmap Z Z :=
  match n with
  | O => b
  | S n => copy_bytes n (dst + 1) (src + 1) (<[dst := default 0 (b !! src)]> b)
  end.
Fixpoint fill_bytes (n : nat) (p c : Z) (b : gmap Z Z) : gmap Z Z :=
  match n with
  | O => b
  | S n => fill_bytes n (p + 1) c (<[p := c]> b)
  end.

Definition realloc_shrink (newsize ptr mem : Z) : Mh unit :=
  h ← getS;
  m ← get_mem mem;
  let size := hm_next m - ptr - SIZEOF_STRUCT_MEM in
  modify (put_used (ubase (sh_used_mem h - (size - newsize))));;
  let ptr2 := ptr + SIZEOF_STRUCT_MEM + newsize in
  cut_block ptr ptr2 mem (with_next ptr2);;
  plug_holes (sh_ptr h + ptr2).

Definition rt_realloc (rmem newsize : Z) : Mh Z :=
  let newsize := align newsize in
  h ← getS;
  if sh_size h <? newsize then mret RT_NULL
  else if newsize =? 0 then rt_free rmem;; mret RT_NULL
  else if rmem =? RT_NULL then rt_malloc newsize
  else if (rmem <? sh_ptr h) || (sh_end h <=? rmem) then mret rmem
  else
    let mem := rmem - SIZEOF_STRUCT_MEM in
    m ← get_mem mem;
    let ptr := mem - sh_ptr h in
    let size := ubase (hm_next m - ptr - SIZEOF_STRUCT_MEM) in
    if size =? newsize then mret rmem
    else if newsize + SIZEOF_STRUCT_MEM + MIN_SIZE <? size then
      realloc_shrink newsize ptr mem;;
      mret rmem
    else
      nmem ← rt_malloc newsize;
      when (negb (nmem =? RT_NULL))
        (let n := if size <? newsize then size else newsize in
         modify (fun h => put_bytes (copy_bytes (Z.to_nat n) nmem rmem (sh_bytes h)) h);;
         rt_free rmem);;
      mret nmem.

Definition rt_calloc (count size : Z) : Mh Z :=
  let n := ubase (count * size) in
  p ← rt_malloc n;
  when (negb (p =? RT_NULL))
    (modify (fun h => put_bytes (fill_bytes (Z.to_nat n) p 0 (sh_bytes h)) h));;
  mret p.

Definition rt_memory_info : Mh (Z * Z * Z) :=
  h ← getS; mret (u32 (sh_size h), u32 (sh_used_mem h), u32 (sh_max_mem h)).

End Mem.
