(* ===== verification/MemInv.v ===== *)
(** * Invariant of the small memory allocator

    The heap as the list of its blocks.  [heap_blocks] reads the list off the
    chain of structures; [rep h bl] says that the structures in memory are
    those of the block list [bl], and [heap_inv] adds that no two neighbouring
    blocks are free. *)

From S2P Require Import Prelude Mem.

(** ** Block lists *)

Record blk := mk_blk { b_len : Z; b_used : bool }.

Definition total (bl : list blk) : Z := foldr (fun b n => b_len b + n) 0 bl.
Definition used_total (bl : list blk) : Z :=
  foldr (fun b n => (if b_used b then b_len b else 0) + n) 0 bl.

(** The blocks with their offsets. *)
Fixpoint starts (off : Z) (bl : list blk) : list (Z * blk) :=
  match bl with
  | [] => []
  | b :: bl => (off, b) :: starts (off + b_len b) bl
  end.

(** The offset of the first free block, or of the end. *)
Fixpoint low (bl : list blk) : Z :=
  match bl with
  | [] => 0
  | b :: bl => if b_used b then b_len b + low bl else 0
  end.

(** No two free blocks in a row. *)
Fixpoint no_holes (bl : list blk) : Prop :=
  match bl with
  | b :: ((c :: _) as r) => (b_used b || b_used c = true) /\ no_holes r
  | _ => True
  end.

(** Neighbouring free blocks joined. *)
Fixpoint merge (bl : list blk) : list blk :=
  match bl with
  | [] => []
  | b :: r =>
      match merge r with
      | c :: r' => if b_used b || b_used c then b :: c :: r'
                   else mk_blk (b_len b + b_len c) false :: r'
      | [] => [b]
      end
  end.

Lemma total_app l1 l2 : total (l1 ++ l2) = total l1 + total l2.
Proof. induction l1 as [|b l1 IH]; simpl; lia. Qed.

Lemma used_total_app l1 l2 : used_total (l1 ++ l2) = used_total l1 + used_total l2.
Proof. induction l1 as [|b l1 IH]; simpl; lia. Qed.

Lemma starts_app off l1 l2 : starts off (l1 ++ l2) = starts off l1 ++ starts (off + total l1) l2.
Proof.
  revert off. induction l1 as [|b l1 IH]; intros off; simpl; [by rewrite Z.add_0_r|].
  rewrite IH. by replace (off + b_len b + total l1) with (off + (b_len b + total l1)) by lia.
Qed.

Lemma low_app l1 b l2 : b_used b = false -> low (l1 ++ b :: l2) = low (l1 ++ [b]).
Proof. intros Hb. induction l1 as [|c l1 IH]; simpl; [by rewrite Hb|]. by rewrite IH. Qed.

Lemma starts_split off bl o b :
  (o, b) ∈ starts off bl -> exists l1 l2, bl = l1 ++ b :: l2 /\ o = off + total l1.
Proof.
  revert off. induction bl as [|c bl IH]; intros off; simpl; [by intros ?%elem_of_nil|].
  rewrite elem_of_cons. intros [[= -> ->]|Hin].
  - exists [], bl. simpl. split; [done|lia].
  - destruct (IH _ Hin) as (l1 & l2 & -> & ->). exists (c :: l1), l2. simpl. split; [done|lia].
Qed.

Lemma starts_mid off l1 b l2 : (off + total l1, b) ∈ starts off (l1 ++ b :: l2).
Proof. rewrite starts_app. apply elem_of_app. right. simpl. apply list_elem_of_here. Qed.

Lemma no_holes_app l1 l2 : no_holes (l1 ++ l2) -> no_holes l1 /\ no_holes l2.
Proof.
  induction l1 as [|b [|c l1] IH]; simpl; [done| |].
  - destruct l2; [done|]. tauto.
  - simpl in IH. tauto.
Qed.

Lemma no_holes_mid l1 b l2 : b_used b = true -> no_holes l1 -> no_holes l2 -> no_holes (l1 ++ b :: l2).
Proof.
  intros Hb. induction l1 as [|c [|d l1] IH]; simpl in *; intros H1 H2.
  - destruct l2; [done|]. by rewrite Hb.
  - rewrite Hb, orb_true_r. split; [done|]. by destruct l2.
  - split; [tauto|]. apply IH; tauto.
Qed.

Lemma merge_id bl : no_holes bl -> merge bl = bl.
Proof.
  induction bl as [|b [|c bl] IH]; [done|done|]. intros [Hb Hn].
  change (merge (b :: c :: bl)) with
    (match merge (c :: bl) with d :: r' => if b_used b || b_used d then b :: d :: r'
       else mk_blk (b_len b + b_len d) false :: r' | [] => [b] end).
  rewrite IH by done. by rewrite Hb.
Qed.

Lemma merge_no_holes bl : no_holes (merge bl).
Proof.
  induction bl as [|b bl IH]; [done|]. simpl. destruct (merge bl) as [|c r]; [done|].
  destruct (b_used b || b_used c) eqn:E; [by split|]. destruct r as [|d r]; [done|].
  simpl in IH. apply orb_false_iff in E as [_ E]. rewrite E in IH. simpl. tauto.
Qed.

Lemma merge_prefix l1 p X q Y :
  no_holes (l1 ++ [p]) -> merge (p :: X) = q :: Y -> b_used q = b_used p ->
  merge (l1 ++ p :: X) = l1 ++ q :: Y.
Proof.
  intros Hn Hm Hu. induction l1 as [|c l1 IH]; [done|]. cbn [app merge].
  rewrite IH by (destruct l1; [done|]; simpl in *; tauto).
  destruct l1 as [|d l1]; simpl in Hn |- *; destruct Hn as [Hn _]; [by rewrite Hu, Hn|by rewrite Hn].
Qed.

(** ** The structures of a block list *)

Definition hdr_of (b : blk) (off prev : Z) : heap_mem :=
  mk_hm HEAP_MAGIC (if b_used b then 1 else 0) (off + b_len b) prev.

Fixpoint seg (base off prev : Z) (bl : list blk) (hdr : gmap Z heap_mem) : Prop :=
  match bl with
  | [] => True
  | b :: bl => hdr !! (base + off) = Some (hdr_of b off prev) /\ seg base (off + b_len b) off bl hdr
  end.

(** The offset of the last block of [bl]. *)
Fixpoint last_off (off prev : Z) (bl : list blk) : Z :=
  match bl with
  | [] => prev
  | b :: bl => last_off (off + b_len b) off bl
  end.

Lemma seg_app base off prev l1 l2 hdr :
  seg base off prev (l1 ++ l2) hdr <->
  seg base off prev l1 hdr /\ seg base (off + total l1) (last_off off prev l1) l2 hdr.
Proof.
  revert off prev. induction l1 as [|b l1 IH]; intros off prev; simpl; [rewrite Z.add_0_r; tauto|].
  rewrite IH. replace (off + b_len b + total l1) with (off + (b_len b + total l1)) by lia. tauto.
Qed.

Lemma last_off_app off prev l1 l2 :
  last_off off prev (l1 ++ l2) = last_off (off + total l1) (last_off off prev l1) l2.
Proof.
  revert off prev. induction l1 as [|b l1 IH]; intros off prev; simpl; [by rewrite Z.add_0_r|].
  rewrite IH. by replace (off + b_len b + total l1) with (off + (b_len b + total l1)) by lia.
Qed.

Definition pos_lens (bl : list blk) : Prop := Forall (fun b => 0 < b_len b) bl.

Lemma total_pos bl : pos_lens bl -> 0 <= total bl.
Proof. induction 1; simpl; lia. Qed.

Lemma seg_frame base off prev bl hdr hdr' :
  pos_lens bl -> seg base off prev bl hdr ->
  (forall a, base + off <= a < base + off + total bl -> hdr' !! a = hdr !! a) ->
  seg base off prev bl hdr'.
Proof.
  revert off prev. induction bl as [|b bl IH]; intros off prev Hp Hs Ha; [done|]. inversion Hp; subst.
  simpl in *. pose proof (total_pos bl ltac:(done)). destruct Hs as [Hb Hs].
  split; [by rewrite Ha by lia|]. apply IH; [done|done|]. intros a Hr. apply Ha. lia.
Qed.

(** A structure of [bl] has a positive distance to the next. *)
Lemma starts_range off bl o b :
  pos_lens bl -> (o, b) ∈ starts off bl -> off <= o /\ o + b_len b <= off + total bl /\ 0 < b_len b.
Proof.
  intros Hp Hin. destruct (starts_split _ _ _ _ Hin) as (l1 & l2 & -> & ->).
  apply Forall_app in Hp as [H1 H2]. inversion H2; subst. rewrite total_app. simpl.
  pose proof (total_pos l1 H1). pose proof (total_pos l2 ltac:(done)). lia.
Qed.

(** The structure behind a part of the list: the next block, or the end. *)
Definition next_hdr (base off prev : Z) (l2 : list blk) (hdr : gmap Z heap_mem) : Prop :=
  match l2 with
  | [] => exists p, hdr !! (base + off) = Some (mk_hm HEAP_MAGIC 1 off p)
  | b :: _ => hdr !! (base + off) = Some (hdr_of b off prev)
  end.

(** The whole chain. *)
Definition hchain (base : Z) (bl : list blk) (hdr : gmap Z heap_mem) : Prop :=
  seg base 0 0 bl hdr /\ next_hdr base (total bl) 0 [] hdr.

Lemma hchain_next base l1 l2 hdr :
  hchain base (l1 ++ l2) hdr -> next_hdr base (total l1) (last_off 0 0 l1) l2 hdr.
Proof.
  intros [Hs He]. apply seg_app in Hs as [_ Hs]. destruct l2 as [|b l2]; [by rewrite app_nil_r in He|].
  apply Hs.
Qed.

(** Part of the list replaced by another of the same length. *)
Lemma hchain_replace base l1 mid mid' l2 hdr hdr' :
  pos_lens (l1 ++ mid ++ l2) -> pos_lens mid' -> mid <> [] -> total mid' = total mid ->
  hchain base (l1 ++ mid ++ l2) hdr ->
  (forall a, a < base + total l1 \/ base + total l1 + total mid < a -> hdr' !! a = hdr !! a) ->
  seg base (total l1) (last_off 0 0 l1) mid' hdr' ->
  next_hdr base (total l1 + total mid) (last_off 0 0 (l1 ++ mid')) l2 hdr' ->
  hchain base (l1 ++ mid' ++ l2) hdr'.
Proof.
  intros Hp Hp' Hne Ht [Hs He] Ha Hm Hn.
  apply Forall_app in Hp as [Hp1 Hp2]. apply Forall_app in Hp2 as [Hpm Hp2].
  pose proof (total_pos _ Hp1). pose proof (total_pos _ Hpm). pose proof (total_pos _ Hp2).
  apply seg_app in Hs as [Hs1 Hs2]. apply seg_app in Hs2 as [_ Hs2].
  assert (E1 : seg base 0 0 l1 hdr').
  { eapply seg_frame; [done|exact Hs1|]. intros a Hr. apply Ha. lia. }
  split.
  - apply seg_app. split; [exact E1|]. apply seg_app. split; [exact Hm|].
    destruct l2 as [|b l2]; [done|]. inversion Hp2; subst. simpl in Hs2, Hn |- *. rewrite Ht.
    rewrite <- last_off_app. split; [exact Hn|]. eapply seg_frame; [done|apply Hs2|].
    intros a Hr. apply Ha. lia.
  - unfold next_hdr in He |- *. rewrite !total_app in *. rewrite Ht.
    destruct l2 as [|b l2].
    + simpl. rewrite Z.add_0_r. exact Hn.
    + inversion Hp2; subst. simpl. pose proof (total_pos l2 ltac:(done)).
      destruct He as [p He]. exists p. rewrite Ha by (simpl; lia). exact He.
Qed.

(** ** Reading the blocks off the memory *)

Fixpoint walk (fuel : nat) (h : small_heap) (off : Z) : list blk :=
  match fuel with
  | O => []
  | S fuel =>
      if sh_ptr h + off =? sh_end h then []
      else match sh_hdr h !! (sh_ptr h + off) with
           | Some m => mk_blk (hm_next m - off) (negb (hm_used m =? 0)) :: walk fuel h (hm_next m)
           | None => []
           end
  end.

Definition heap_blocks (h : small_heap) : list blk := walk (S (size (sh_hdr h))) h 0.

Lemma walk_seg h fuel off prev bl :
  pos_lens bl -> seg (sh_ptr h) off prev bl (sh_hdr h) -> sh_end h = sh_ptr h + off + total bl ->
  (length bl < fuel)%nat -> walk fuel h off = bl.
Proof.
  revert off prev bl. induction fuel as [|fuel IH]; intros off prev bl Hp Hs He Hf; [lia|].
  destruct bl as [|b bl]; simpl in *; [rewrite He, Z.add_0_r, Z.eqb_refl; done|].
  inversion Hp; subst. pose proof (total_pos bl ltac:(done)).
  rewrite (proj2 (Z.eqb_neq (sh_ptr h + off) (sh_end h))) by lia. destruct Hs as [Hb Hs]. rewrite Hb.
  cbn [hdr_of hm_next hm_used]. rewrite (IH _ off bl); [|done|done|lia|lia].
  f_equal. destruct b as [len u]. cbn. f_equal; [lia|by destruct u].
Qed.

(** Distinct structures bound the number of blocks. *)
Lemma seg_count base off prev bl hdr :
  pos_lens bl -> seg base off prev bl hdr ->
  (length bl <= length (filter (fun a => (base + off <= a < base + off + total bl)%Z) (elements (dom hdr))))%nat.
Proof.
  revert off prev. induction bl as [|b bl IH]; intros off prev Hp Hs; [simpl; lia|].
  inversion Hp; subst. pose proof (total_pos bl ltac:(done)) as Ht. destruct Hs as [Hb Hs].
  specialize (IH _ _ ltac:(done) Hs). cbn [length total foldr]. fold (total bl).
  set (l := filter (fun a => base + (off + b_len b) <= a < base + (off + b_len b) + total bl)
              (elements (dom hdr))) in *.
  assert (Hnd : NoDup ((base + off) :: l)).
  { constructor; [|apply NoDup_filter, NoDup_elements]. unfold l. rewrite list_elem_of_filter. lia. }
  eapply Nat.le_trans; [|apply (submseteq_length ((base + off) :: l))]; [simpl; lia|].
  apply NoDup_submseteq; [done|]. intros a Ha. apply elem_of_cons in Ha as [->|Ha].
  - apply list_elem_of_filter. split; [lia|]. apply elem_of_elements, elem_of_dom. by eexists.
  - unfold l in Ha. apply list_elem_of_filter in Ha as [Hr Ha]. apply list_elem_of_filter. split; [lia|done].
Qed.

Lemma hchain_count base bl hdr :
  pos_lens bl -> hchain base bl hdr -> (length bl < size hdr)%nat.
Proof.
  intros Hp [Hs [p He]]. pose proof (seg_count _ _ _ _ _ Hp Hs) as Hc.
  set (l := filter (fun a => base + 0 <= a < base + 0 + total bl) (elements (dom hdr))) in *.
  assert (Hnd : NoDup ((base + total bl) :: l)).
  { constructor; [|apply NoDup_filter, NoDup_elements]. unfold l. rewrite list_elem_of_filter. lia. }
  rewrite <- (size_dom (D := gset Z)). change (size (dom hdr)) with (length (elements (dom hdr))).
  eapply Nat.lt_le_trans; [|apply (submseteq_length ((base + total bl) :: l))]; [simpl; lia|].
  apply NoDup_submseteq; [done|]. intros a Ha. apply elem_of_cons in Ha as [->|Ha].
  - apply elem_of_elements, elem_of_dom. by eexists.
  - unfold l in Ha. by apply list_elem_of_filter in Ha as [_ Ha].
Qed.

Section Inv.
Context `{CO : ConfigOk}.
Implicit Types (h : small_heap).

Definition blk_ok (b : blk) : Prop := SIZEOF_STRUCT_MEM < b_len b /\ (RT_ALIGN_SIZE | b_len b).

(** [lfree] is the end or a free block. *)
Definition lfree_ok (h : small_heap) (bl : list blk) : Prop :=
  sh_lfree h = sh_end h \/
  exists o b, (o, b) ∈ starts 0 bl /\ b_used b = false /\ sh_lfree h = sh_ptr h + o.

(** The managed area. *)
Record area_ok (h : small_heap) (bl : list blk) : Prop := {
  ar_end : sh_end h = sh_ptr h + total bl;
  ar_total : total bl = sh_size h + SIZEOF_STRUCT_MEM;
  ar_ptr : 0 < sh_ptr h;
  ar_align : (RT_ALIGN_SIZE | sh_ptr h);
  ar_min : MIN_SIZE_ALIGNED <= sh_size h;
  ar_top : sh_end h + SIZEOF_STRUCT_MEM <= 2 ^ (8 * sizeof_ptr)
}.

Record rep (h : small_heap) (bl : list blk) : Prop := {
  rp_chain : hchain (sh_ptr h) bl (sh_hdr h);
  rp_area : area_ok h bl;
  rp_lens : Forall blk_ok bl;
  rp_lfree : lfree_ok h bl;
  rp_used : sh_used_mem h = used_total bl
}.

(** The whole invariant, and that [lfree] is the lowest free block. *)
Definition heap_inv (h : small_heap) : Prop := rep h (heap_blocks h) /\ no_holes (heap_blocks h).
Definition lowest (h : small_heap) : Prop := sh_lfree h = sh_ptr h + low (heap_blocks h).

Lemma align_pos : exists k, 0 <= k /\ RT_ALIGN_SIZE = 2 ^ k /\ 0 < 2 ^ k.
Proof.
  destruct cfg_align as (k & Hk & E). exists k. split; [done|]. split; [done|]. apply Z.pow_pos_nonneg; lia.
Qed.

Lemma RT_ALIGN_spec n : n <= RT_ALIGN n RT_ALIGN_SIZE < n + RT_ALIGN_SIZE /\ (RT_ALIGN_SIZE | RT_ALIGN n RT_ALIGN_SIZE).
Proof.
  destruct align_pos as (k & Hk & E & Hp). rewrite E, align_div by done.
  pose proof (Z.div_mod (n + 2 ^ k - 1) (2 ^ k)). pose proof (Z.mod_pos_bound (n + 2 ^ k - 1) (2 ^ k)).
  split; [lia|]. apply Z.divide_factor_r.
Qed.

Lemma min_pos : 0 < MIN_SIZE_ALIGNED /\ MIN_SIZE <= MIN_SIZE_ALIGNED /\ 0 < SIZEOF_STRUCT_MEM /\
  SIZEOF_STRUCT_MEM = MIN_SIZE_ALIGNED /\ 0 < MIN_SIZE.
Proof.
  unfold MIN_SIZE_ALIGNED, SIZEOF_STRUCT_MEM, MIN_SIZE, sizeof_heap_mem.
  pose proof (RT_ALIGN_spec (if sizeof_ptr =? 8 then 24 else 12)).
  destruct (sizeof_ptr =? 8); split; try lia; repeat split; lia.
Qed.

Lemma lens_pos bl : Forall blk_ok bl -> pos_lens bl.
Proof. intros H. eapply Forall_impl; [exact H|]. intros b [Hb _]. pose proof min_pos. lia. Qed.

Lemma rep_pos h bl : rep h bl -> pos_lens bl.
Proof. intros Hr. apply lens_pos, (rp_lens _ _ Hr). Qed.

Lemma rep_blocks h bl : rep h bl -> heap_blocks h = bl.
Proof.
  intros Hr. pose proof (rep_pos _ _ Hr) as Hp. destruct (rp_chain _ _ Hr) as [Hs He].
  unfold heap_blocks. eapply walk_seg; [done|exact Hs| |].
  - rewrite Z.add_0_r. apply (ar_end _ _ (rp_area _ _ Hr)).
  - pose proof (hchain_count _ _ _ Hp (rp_chain _ _ Hr)). lia.
Qed.

Lemma rep_inv h bl : rep h bl -> no_holes bl -> heap_inv h.
Proof. intros Hr Hn. unfold heap_inv. by rewrite (rep_blocks _ _ Hr). Qed.

(** The structure of a block of the list. *)
Lemma rep_hdr h l1 b l2 :
  rep h (l1 ++ b :: l2) ->
  sh_hdr h !! (sh_ptr h + total l1) = Some (hdr_of b (total l1) (last_off 0 0 l1)).
Proof. intros Hr. exact (hchain_next _ l1 (b :: l2) _ (rp_chain _ _ Hr)). Qed.

Lemma rep_split_lens h l1 mid l2 :
  rep h (l1 ++ mid ++ l2) -> 0 <= total l1 /\ 0 <= total mid /\ 0 <= total l2 /\
  Forall blk_ok l1 /\ Forall blk_ok mid /\ Forall blk_ok l2 /\
  sh_end h = sh_ptr h + total l1 + total mid + total l2.
Proof.
  intros Hr. pose proof (rp_lens _ _ Hr) as Hl. apply Forall_app in Hl as [H1 H2]. apply Forall_app in H2 as [H2 H3].
  rewrite (ar_end _ _ (rp_area _ _ Hr)), !total_app.
  pose proof (total_pos _ (lens_pos _ H1)). pose proof (total_pos _ (lens_pos _ H2)).
  pose proof (total_pos _ (lens_pos _ H3)). repeat (split; [done|]). lia.
Qed.

(** Part of the list replaced, on the whole state. *)
Definition same_area (h h' : small_heap) : Prop :=
  sh_ptr h' = sh_ptr h /\ sh_end h' = sh_end h /\ sh_size h' = sh_size h.

Lemma rep_replace h h' l1 mid mid' l2 :
  rep h (l1 ++ mid ++ l2) -> same_area h h' -> mid <> [] -> Forall blk_ok mid' -> total mid' = total mid ->
  (forall a, a < sh_ptr h + total l1 \/ sh_ptr h + total l1 + total mid < a -> sh_hdr h' !! a = sh_hdr h !! a) ->
  seg (sh_ptr h) (total l1) (last_off 0 0 l1) mid' (sh_hdr h') ->
  next_hdr (sh_ptr h) (total l1 + total mid) (last_off 0 0 (l1 ++ mid')) l2 (sh_hdr h') ->
  lfree_ok h' (l1 ++ mid' ++ l2) -> sh_used_mem h' = sh_used_mem h - used_total mid + used_total mid' ->
  rep h' (l1 ++ mid' ++ l2).
Proof.
  intros Hr (E1 & E2 & E3) Hne Hl' Ht Ha Hs Hn Hlf Hu.
  destruct (rep_split_lens _ _ _ _ Hr) as (_ & _ & _ & HL1 & _ & HL2 & _).
  assert (Hp : pos_lens (l1 ++ mid ++ l2)) by (by eapply rep_pos).
  assert (Etot : total (l1 ++ mid' ++ l2) = total (l1 ++ mid ++ l2)) by (rewrite !total_app; lia).
  split.
  - rewrite E1. eapply hchain_replace; [exact Hp|by apply lens_pos|done|done|apply (rp_chain _ _ Hr)|done|done|done].
  - destruct (rp_area _ _ Hr). split; rewrite ?E1, ?E2, ?E3, ?Etot; done.
  - apply Forall_app. split; [done|]. apply Forall_app. by split.
  - done.
  - rewrite Hu, (rp_used _ _ Hr), !used_total_app. lia.
Qed.

(** ** Running the primitive steps *)

Lemma get_mem_run h a m : sh_hdr h !! a = Some m -> get_mem a h = Ok m h.
Proof. intros E. unfold get_mem. by rewrite E. Qed.

Lemma upd_mem_run h a m f : sh_hdr h !! a = Some m -> upd_mem a f h = Ok tt (put_hdr a (f m) h).
Proof. intros E. unfold upd_mem. by rewrite (bind_ok _ _ _ _ _ (get_mem_run _ _ _ E)). Qed.

(** The structure behind a part of the list gets a new [prev]. *)
Lemma next_hdr_run off pv pv' l2 (hdr : gmap Z heap_mem) base :
  next_hdr base off pv l2 hdr ->
  exists m, hdr !! (base + off) = Some m /\
    next_hdr base off pv' l2 (<[base + off := with_prev pv' m]> hdr).
Proof.
  destruct l2 as [|b l2]; simpl.
  - intros [p E]. eexists. split; [exact E|]. exists pv'. apply lookup_insert_eq.
  - intros E. eexists. split; [exact E|]. rewrite lookup_insert_eq. done.
Qed.

End Inv.
