(* ===== verification/MemSpec.v ===== *)
(** * The small memory allocator refines first fit on block lists

    [first_fit] and [free_at] are the allocator on block lists;
    [rt_malloc] and [rt_free] implement them.  [rt_realloc] keeps the contents
    of the block it changes. *)

From S2P Require Import Prelude Mem MemInv.

Section Spec.
Context `{CO : ConfigOk}.
Implicit Types (h : small_heap).

(** ** Merging *)

Lemma lfree_keep h h' l1 mid mid' l2 :
  lfree_ok h (l1 ++ mid ++ l2) -> total mid' = total mid -> same_area h h' -> sh_lfree h' = sh_lfree h ->
  (forall o b, (o, b) ∈ starts (total l1) mid -> b_used b = false -> sh_lfree h = sh_ptr h + o ->
     exists b', (o, b') ∈ starts (total l1) mid' /\ b_used b' = false) ->
  lfree_ok h' (l1 ++ mid' ++ l2).
Proof.
  intros [E|(o & b & Hin & Hb & E)] Ht (E1 & E2 & _) El Hm; [left; congruence|]. right.
  rewrite !starts_app, Z.add_0_l in Hin. apply elem_of_app in Hin as [Hin|Hin];
    [|apply elem_of_app in Hin as [Hin|Hin]].
  - exists o, b. split; [|split; [done|congruence]]. rewrite starts_app. apply elem_of_app. by left.
  - destruct (Hm o b Hin Hb E) as (b' & Hin' & Hb'). exists o, b'. split; [|split; [done|congruence]].
    rewrite !starts_app, Z.add_0_l. apply elem_of_app. right. apply elem_of_app. by left.
  - exists o, b. split; [|split; [done|congruence]].
    rewrite !starts_app, Z.add_0_l, Ht. apply elem_of_app. right. apply elem_of_app. by right.
Qed.

Lemma lfree_here h l1 b l2 : b_used b = false -> sh_lfree h = sh_ptr h + total l1 -> lfree_ok h (l1 ++ b :: l2).
Proof.
  intros Hb E. right. exists (total l1), b. split; [|done].
  rewrite <- (Z.add_0_l (total l1)). apply starts_mid.
Qed.

Lemma low_free l1 b l2 b' l2' :
  b_used b = false -> b_used b' = false -> low (l1 ++ b :: l2) = low (l1 ++ b' :: l2').
Proof. intros Hb Hb'. induction l1 as [|c l1 IH]; simpl; [by rewrite Hb, Hb'|]. by rewrite IH. Qed.

Lemma low_le l1 b l2 : pos_lens l1 -> b_used b = false -> low (l1 ++ b :: l2) <= total l1.
Proof.
  intros Hp Hb. induction Hp as [|c l1 Hc Hp IH]; simpl; [by rewrite Hb|].
  pose proof (total_pos _ Hp). destruct (b_used c); lia.
Qed.

(** What a step leaves alone, and that it keeps [lfree] lowest. *)
Record stepped (h h' : small_heap) (bl bl' : list blk) : Prop := {
  sp_rep : rep h' bl';
  sp_area : same_area h h';
  sp_bytes : sh_bytes h' = sh_bytes h;
  sp_low : sh_lfree h = sh_ptr h + low bl -> sh_lfree h' = sh_ptr h + low bl'
}.

Lemma stepped_refl h bl : rep h bl -> stepped h h bl bl.
Proof. intros Hr. by split. Qed.

Lemma stepped_trans h1 h2 h3 b1 b2 b3 :
  stepped h1 h2 b1 b2 -> stepped h2 h3 b2 b3 -> stepped h1 h3 b1 b3.
Proof.
  intros [R1 (A1 & A2 & A3) B1 L1] [R2 (A4 & A5 & A6) B2 L2]. split; [done|split; [congruence|split; congruence]|congruence|].
  intros E. rewrite A1 in L2. auto.
Qed.

(** Two free neighbours joined: the common part of both directions. *)
Lemma join_rep h l1 a c l2 lf h' :
  rep h (l1 ++ [mk_blk a false; mk_blk c false] ++ l2) ->
  lf = (if sh_lfree h =? sh_ptr h + total l1 + a then sh_ptr h + total l1 else sh_lfree h) ->
  same_area h h' -> sh_bytes h' = sh_bytes h -> sh_lfree h' = lf -> sh_used_mem h' = sh_used_mem h ->
  (forall e, sh_hdr h !! (sh_ptr h + (total l1 + a + c)) = Some e ->
   sh_hdr h' = <[sh_ptr h + (total l1 + a + c) := with_prev (total l1) e]>
     (delete (sh_ptr h + (total l1 + a))
        (<[sh_ptr h + total l1 := mk_hm HEAP_MAGIC 0 (total l1 + a + c) (last_off 0 0 l1)]> (sh_hdr h)))) ->
  stepped h h' (l1 ++ [mk_blk a false; mk_blk c false] ++ l2) (l1 ++ mk_blk (a + c) false :: l2).
Proof.
  intros Hr Elf Ha Hb El Hu Hh. destruct (rep_split_lens _ _ _ _ Hr) as (T1 & T2 & T3 & L1 & L2 & L3 & Een).
  inversion_clear L2 as [|? ? [La Lad] L2']. inversion_clear L2' as [|? ? [Lc Lcd] _]. cbn in La, Lad, Lc, Lcd.
  pose proof min_pos as Hmin.
  assert (Etm : total [mk_blk a false; mk_blk c false] = a + c) by (cbn; lia).
  pose proof (hchain_next (sh_ptr h) (l1 ++ [mk_blk a false; mk_blk c false]) l2 (sh_hdr h)) as Hn.
  rewrite <- app_assoc in Hn. specialize (Hn (rp_chain _ _ Hr)). rewrite total_app, Etm, (Z.add_assoc (total l1)) in Hn.
  destruct (next_hdr_run _ _ (total l1) _ _ _ Hn) as (e & He & Hn').
  specialize (Hh e He).
  split; [|done|done|].
  - apply (rep_replace h h' l1 [mk_blk a false; mk_blk c false] [mk_blk (a + c) false] l2); try done.
    + constructor; [|done]. split; cbn; [lia|by apply Z.divide_add_r].
    + rewrite Etm. cbn. lia.
    + intros y Hx. rewrite Etm in Hx. rewrite Hh.
      rewrite lookup_insert_ne, lookup_delete_ne, lookup_insert_ne by lia. done.
    + split; [|done]. rewrite Hh. rewrite lookup_insert_ne, lookup_delete_ne, lookup_insert_eq by lia.
      unfold hdr_of. cbn. by rewrite (Z.add_assoc (total l1)).
    + rewrite Etm, last_off_app. cbn [last_off]. rewrite Z.add_0_l, (Z.add_assoc (total l1)), Hh.
      destruct l2 as [|d l2]; cbn [next_hdr] in Hn' |- *.
      * destruct Hn' as [p Hn']. exists p. rewrite lookup_insert_eq in Hn' |- *. done.
      * rewrite lookup_insert_eq in Hn' |- *. done.
    + destruct Ha as (A1 & A2 & A3). destruct (Z.eqb_spec (sh_lfree h) (sh_ptr h + total l1 + a)) as [E|E].
      * apply lfree_here; [done|]. congruence.
      * eapply lfree_keep; [apply (rp_lfree _ _ Hr)|rewrite Etm; cbn; lia|done|congruence|].
        intros o b Hin Hb' Eo. cbn in Hin. rewrite !elem_of_cons in Hin. destruct Hin as [[= -> ->]|[[= -> ->]|[]%elem_of_nil]].
        -- exists (mk_blk (a + c) false). split; [apply list_elem_of_here|done].
        -- lia.
    + rewrite Hu. cbn. lia.
  - intros E. rewrite El, Elf. rewrite (low_free l1 (mk_blk (a + c) false) l2 (mk_blk a false) (mk_blk c false :: l2)) by done.
    assert (sh_lfree h <= sh_ptr h + total l1).
    { rewrite E. assert (low (l1 ++ [mk_blk a false; mk_blk c false] ++ l2) <= total l1); [|lia].
      apply (low_le l1 (mk_blk a false)); [by apply lens_pos|done]. }
    rewrite (proj2 (Z.eqb_neq _ _)) by lia. exact E.
Qed.

Definition join_next (a : Z) (l2 : list blk) : list blk :=
  match l2 with
  | c :: r => if b_used c then mk_blk a false :: l2 else mk_blk (a + b_len c) false :: r
  | [] => [mk_blk a false]
  end.

(** A test of the rest of the list decides the forward merge. *)
Lemma plug_forward_run h l1 a l2 :
  rep h (l1 ++ mk_blk a false :: l2) ->
  exists h', plug_forward (sh_ptr h + total l1) h = Ok tt h' /\
    stepped h h' (l1 ++ mk_blk a false :: l2) (l1 ++ join_next a l2) /\ sh_max_mem h' = sh_max_mem h.
Proof.
  intros Hr. destruct (rep_split_lens h l1 [mk_blk a false] l2 Hr) as (T1 & T2 & T3 & _ & L2 & L3 & Een).
  inversion_clear L2 as [|? ? [La _] _]. cbn in La, Een. pose proof min_pos.
  pose proof (rep_hdr _ _ _ _ Hr) as Hm.
  pose proof (hchain_next (sh_ptr h) (l1 ++ [mk_blk a false]) l2 (sh_hdr h)) as Hn.
  rewrite <- app_assoc in Hn. specialize (Hn (rp_chain _ _ Hr)).
  rewrite total_app in Hn. replace (total [mk_blk a false]) with a in Hn by (cbn; lia).
  unfold plug_forward. rewrite bind_getS, (bind_ok _ _ _ _ _ (get_mem_run _ _ _ Hm)). cbn [hm_next hdr_of b_len].
  rewrite (proj2 (Z.eqb_neq _ _)) by lia.
  destruct l2 as [|[c u] l2].
  - destruct Hn as [p Hn]. rewrite (bind_ok _ _ _ _ _ (get_mem_run _ _ _ Hn)). cbn.
    exists h. split; [done|]. split; [by apply stepped_refl|done].
  - cbn [next_hdr] in Hn. rewrite (bind_ok _ _ _ _ _ (get_mem_run _ _ _ Hn)).
    destruct u; cbn [hdr_of hm_used hm_next b_used b_len join_next].
    { exists h. split; [done|]. split; [by apply stepped_refl|done]. }
    inversion_clear L3 as [|? ? [Lc _] _]. cbn in Lc. pose proof (total_pos l2). cbn in T3, Een.
    assert (Hr2 : rep h (l1 ++ [mk_blk a false; mk_blk c false] ++ l2)) by exact Hr.
    destruct (rep_split_lens _ _ _ _ Hr2) as (_ & _ & T4 & _ & _ & _ & Een2).
    replace (total [mk_blk a false; mk_blk c false]) with (a + c) in Een2 by (cbn; lia).
    rewrite (proj2 (Z.eqb_neq (sh_ptr h + (total l1 + a)) (sh_end h))) by lia. cbn [negb andb Z.eqb when].
    pose proof (hchain_next (sh_ptr h) (l1 ++ [mk_blk a false; mk_blk c false]) l2 (sh_hdr h)) as Hnn.
    rewrite <- app_assoc in Hnn. specialize (Hnn (rp_chain _ _ Hr)). rewrite total_app in Hnn.
    replace (total l1 + total [mk_blk a false; mk_blk c false]) with (total l1 + a + c) in Hnn by (cbn; lia).
    destruct (next_hdr_run _ _ (total l1) _ _ _ Hnn) as (e & He & _).
    set (lf := if sh_lfree h =? sh_ptr h + (total l1 + a) then sh_ptr h + total l1 else sh_lfree h).
    assert (E0 : when (sh_lfree h =? sh_ptr h + (total l1 + a)) (modify (put_lfree (sh_ptr h + total l1))) h =
      Ok tt (put_lfree lf h)).
    { unfold lf. destruct (_ =? _); [done|]. by destruct h. }
    rewrite (bind_ok _ _ _ _ _ E0). erewrite bind_ok by (apply upd_mem_run; exact Hm).
    rewrite bind_modify. eexists. split.
    + apply upd_mem_run. cbn [sh_hdr drop_hdr put_hdr put_lfree].
      rewrite lookup_delete_ne, lookup_insert_ne by lia. exact He.
    + split; [|done]. apply (join_rep h l1 a c l2 lf); try done.
      { unfold lf. by rewrite Z.add_assoc. }
      intros e' He'. rewrite He in He'. injection He' as <-. cbn.
      by replace (sh_ptr h + total l1 - sh_ptr h) with (total l1) by lia.
Qed.

(** The block before decides the backward merge. *)
Lemma plug_backward_run h l0 p a l2 :
  rep h (l0 ++ p :: mk_blk a false :: l2) ->
  exists h', plug_backward (sh_ptr h + total (l0 ++ [p])) h = Ok tt h' /\
    stepped h h' (l0 ++ p :: mk_blk a false :: l2)
      (l0 ++ if b_used p then p :: mk_blk a false :: l2 else mk_blk (b_len p + a) false :: l2) /\
    sh_max_mem h' = sh_max_mem h.
Proof.
  intros Hr. destruct (rep_split_lens h l0 [p] (mk_blk a false :: l2) Hr) as (T1 & T2 & T3 & _ & L2 & L3 & Een).
  inversion_clear L2 as [|? ? [Lp _] _]. inversion_clear L3 as [|? ? [La _] _]. cbn in La, Een. pose proof min_pos.
  pose proof (rep_hdr _ _ _ _ Hr) as Hp.
  assert (Hr1 : rep h ((l0 ++ [p]) ++ mk_blk a false :: l2)) by (by rewrite <- app_assoc).
  pose proof (rep_hdr _ _ _ _ Hr1) as Hm. rewrite last_off_app in Hm. cbn [last_off] in Hm. rewrite Z.add_0_l in Hm.
  assert (Et : total (l0 ++ [p]) = total l0 + b_len p) by (rewrite total_app; cbn; lia). rewrite Et in *.
  unfold plug_backward. rewrite bind_getS, (bind_ok _ _ _ _ _ (get_mem_run _ _ _ Hm)). cbn [hm_prev hm_next hdr_of b_len].
  rewrite (proj2 (Z.eqb_neq _ _)) by lia. rewrite (bind_ok _ _ _ _ _ (get_mem_run _ _ _ Hp)).
  destruct p as [c u]. cbn [b_used b_len hdr_of hm_used] in *. destruct u.
  { exists h. split; [done|]. split; [by apply stepped_refl|done]. }
  cbn [Z.eqb when].
  assert (Hr2 : rep h (l0 ++ [mk_blk c false; mk_blk a false] ++ l2)) by exact Hr.
  pose proof (hchain_next (sh_ptr h) (l0 ++ [mk_blk c false; mk_blk a false]) l2 (sh_hdr h)) as Hnn.
  rewrite <- app_assoc in Hnn. specialize (Hnn (rp_chain _ _ Hr)). rewrite total_app in Hnn.
  replace (total l0 + total [mk_blk c false; mk_blk a false]) with (total l0 + c + a) in Hnn by (cbn; lia).
  destruct (next_hdr_run _ _ (total l0) _ _ _ Hnn) as (e & He & _).
  set (lf := if sh_lfree h =? sh_ptr h + (total l0 + c) then sh_ptr h + total l0 else sh_lfree h).
  assert (E0 : when (sh_lfree h =? sh_ptr h + (total l0 + c)) (modify (put_lfree (sh_ptr h + total l0))) h =
    Ok tt (put_lfree lf h)).
  { unfold lf. destruct (_ =? _); [done|]. by destruct h. }
  rewrite (bind_ok _ _ _ _ _ E0). erewrite bind_ok by (apply upd_mem_run; exact Hp).
  rewrite bind_modify. eexists. split.
  - apply upd_mem_run. cbn [sh_hdr drop_hdr put_hdr put_lfree].
    rewrite lookup_delete_ne, lookup_insert_ne by lia. exact He.
  - split; [|done]. apply (join_rep h l0 c a l2 lf); try done.
    { unfold lf. by rewrite Z.add_assoc. }
    intros e' He'. rewrite He in He'. injection He' as <-. cbn.
    by replace (sh_ptr h + total l0 - sh_ptr h) with (total l0) by lia.
Qed.

Lemma plug_backward_first h a l2 :
  rep h (mk_blk a false :: l2) -> plug_backward (sh_ptr h + total []) h = Ok tt h.
Proof.
  intros Hr. pose proof (rep_hdr h [] _ _ Hr) as Hm. unfold plug_backward.
  rewrite bind_getS, (bind_ok _ _ _ _ _ (get_mem_run _ _ _ Hm)). cbn. by rewrite Z.eqb_refl.
Qed.

Lemma join_next_merge a l2 : no_holes l2 -> merge (mk_blk a false :: l2) = join_next a l2.
Proof.
  intros Hn. cbn [merge]. rewrite merge_id by done. destruct l2 as [|[c u] l2]; [done|]. by destruct u.
Qed.

Lemma join_next_cons a l2 : exists a' l2', join_next a l2 = mk_blk a' false :: l2'.
Proof. destruct l2 as [|[c u] l2]; simpl; [by eexists _, _|]. destruct u; by eexists _, _. Qed.

Lemma plug_holes_run h l1 a l2 :
  rep h (l1 ++ mk_blk a false :: l2) -> no_holes l1 -> no_holes l2 ->
  exists h', plug_holes (sh_ptr h + total l1) h = Ok tt h' /\
    stepped h h' (l1 ++ mk_blk a false :: l2) (merge (l1 ++ mk_blk a false :: l2)) /\
    sh_max_mem h' = sh_max_mem h.
Proof.
  intros Hr Hn1 Hn2. destruct (rep_split_lens h l1 [mk_blk a false] l2 Hr) as (T1 & _ & T3 & _ & L2 & _ & Een).
  inversion_clear L2 as [|? ? [La _] _]. cbn [total foldr b_len] in La, Een. pose proof min_pos.
  destruct (plug_forward_run _ _ _ _ Hr) as (h1 & E1 & S1 & M1).
  unfold plug_holes. rewrite bind_getS, bind_assert by (apply Z.leb_le; lia).
  rewrite bind_assert by (apply Z.ltb_lt; lia).
  rewrite (bind_ok _ _ _ _ _ (get_mem_run _ _ _ (rep_hdr _ _ _ _ Hr))), bind_assert by done.
  rewrite (bind_ok _ _ _ _ _ E1). pose proof (join_next_merge a l2 Hn2) as Ej.
  destruct (join_next_cons a l2) as (a' & l2' & Ej'). rewrite Ej' in *.
  destruct (sp_area _ _ _ _ S1) as (A1 & _). rewrite <- A1.
  destruct l1 as [|p l0 _] using rev_ind.
  - exists h1. split; [by eapply plug_backward_first, (sp_rep _ _ _ _ S1)|]. split; [|done].
    cbn [app] in *. rewrite Ej. exact S1.
  - rewrite <- !app_assoc in *. cbn [app] in *.
    destruct (plug_backward_run _ _ _ _ _ (sp_rep _ _ _ _ S1)) as (h2 & E2 & S2 & M2).
    exists h2. split; [exact E2|]. split; [|congruence].
    replace (merge (l0 ++ p :: mk_blk a false :: l2)) with
      (l0 ++ if b_used p then p :: mk_blk a' false :: l2' else mk_blk (b_len p + a') false :: l2').
    { eapply stepped_trans; [exact S1|exact S2]. }
    symmetry. destruct (b_used p) eqn:Ep.
    + apply merge_prefix; [done| |done].
      change (merge (p :: mk_blk a false :: l2)) with
        (match merge (mk_blk a false :: l2) with c :: r' => if b_used p || b_used c then p :: c :: r'
           else mk_blk (b_len p + b_len c) false :: r' | [] => [p] end).
      by rewrite Ej, Ep.
    + eapply merge_prefix; [done| |by rewrite Ep].
      change (merge (p :: mk_blk a false :: l2)) with
        (match merge (mk_blk a false :: l2) with c :: r' => if b_used p || b_used c then p :: c :: r'
           else mk_blk (b_len p + b_len c) false :: r' | [] => [p] end).
      by rewrite Ej, Ep.
Qed.

(** ** Release *)

(** The block at offset [o] is marked free, and free neighbours are joined. *)
Fixpoint set_free (off o : Z) (bl : list blk) : list blk :=
  match bl with
  | [] => []
  | b :: r => (if off =? o then mk_blk (b_len b) false else b) :: set_free (off + b_len b) o r
  end.
Definition free_at (o : Z) (bl : list blk) : list blk := merge (set_free 0 o bl).

Lemma set_free_above off o bl : pos_lens bl -> o < off -> set_free off o bl = bl.
Proof.
  intros Hp. revert off. induction Hp as [|b bl Hb Hp IH]; intros off Ho; simpl; [done|].
  rewrite (proj2 (Z.eqb_neq off o)) by lia. by rewrite IH by lia.
Qed.

Lemma set_free_mid off l1 b l2 :
  pos_lens (l1 ++ b :: l2) -> set_free off (off + total l1) (l1 ++ b :: l2) = l1 ++ mk_blk (b_len b) false :: l2.
Proof.
  revert off. induction l1 as [|c l1 IH]; intros off Hp; simpl.
  - inversion Hp; subst. rewrite Z.add_0_r, Z.eqb_refl. by rewrite set_free_above by (done || lia).
  - inversion Hp as [|? ? Hc Hp']; subst. apply Forall_app in Hp' as Hp1. destruct Hp1 as [Hp1 _].
    pose proof (total_pos _ Hp1). rewrite (proj2 (Z.eqb_neq _ _)) by lia.
    rewrite Z.add_assoc. by rewrite IH.
Qed.

Lemma low_set_free l1 b l2 :
  pos_lens (l1 ++ b :: l2) -> b_used b = true ->
  low (l1 ++ mk_blk (b_len b) false :: l2) = Z.min (total l1) (low (l1 ++ b :: l2)).
Proof.
  intros Hp Hb. induction l1 as [|c l1 IH]; simpl in *.
  - rewrite Hb. inversion Hp as [|? ? Hc Hp']; subst. assert (0 <= low l2); [|lia].
    clear -Hp'. induction Hp' as [|c l Hc Hp IH]; simpl; [lia|]. destruct (b_used c); lia.
  - inversion Hp as [|? ? Hc Hp']; subst. apply Forall_app in Hp' as Hp1. destruct Hp1 as [Hp1 _].
    pose proof (total_pos _ Hp1). rewrite IH by done. destruct (b_used c); lia.
Qed.

Lemma used_total_bound bl : pos_lens bl -> 0 <= used_total bl <= total bl.
Proof. induction 1 as [|b bl Hb Hp IH]; simpl; [lia|]. destruct (b_used b); lia. Qed.

Lemma total_divide bl : Forall blk_ok bl -> (RT_ALIGN_SIZE | total bl).
Proof.
  induction 1 as [|b bl [_ Hb] Hp IH]; simpl; [apply Z.divide_0_r|]. by apply Z.divide_add_r.
Qed.

Lemma aligned_land x : (RT_ALIGN_SIZE | x) -> Z.land x (RT_ALIGN_SIZE - 1) = 0 /\ x mod RT_ALIGN_SIZE = 0.
Proof.
  destruct align_pos as (k & Hk & -> & Hp). intros Hd.
  assert (x mod 2 ^ k = 0) by (apply Z.mod_divide; [lia|done]). split; [|done].
  replace (2 ^ k - 1) with (Z.ones k) by (rewrite Z.ones_equiv; lia). by rewrite Z.land_ones.
Qed.

Lemma sizeof_divide : (RT_ALIGN_SIZE | SIZEOF_STRUCT_MEM) /\ (RT_ALIGN_SIZE | MIN_SIZE_ALIGNED).
Proof. split; apply RT_ALIGN_spec. Qed.

(** A used block marked free, before the merge. *)
Definition h_mark (l1 : list blk) (b : blk) (h : small_heap) : small_heap :=
  let mem := sh_ptr h + total l1 in
  put_used (sh_used_mem h - b_len b)
    (put_lfree (if mem <? sh_lfree h then mem else sh_lfree h)
       (put_hdr mem (hdr_of (mk_blk (b_len b) false) (total l1) (last_off 0 0 l1)) h)).

Lemma mark_rep h l1 b l2 :
  rep h (l1 ++ b :: l2) -> b_used b = true ->
  stepped h (h_mark l1 b h) (l1 ++ b :: l2) (l1 ++ mk_blk (b_len b) false :: l2).
Proof.
  intros Hr Hb. assert (Hr' : rep h (l1 ++ [b] ++ l2)) by exact Hr. pose proof (rep_pos _ _ Hr) as Hp.
  destruct (rep_split_lens h l1 [b] l2 Hr) as (T1 & _ & T3 & L1 & L2 & L3 & Een).
  inversion_clear L2 as [|? ? Lb _]. pose proof (proj1 Lb). pose proof min_pos.
  replace (total [b]) with (b_len b) in Een by (cbn; lia). unfold h_mark.
  split; [|done|done|].
  - apply (rep_replace h _ l1 [b] [mk_blk (b_len b) false] l2); try done.
    + by constructor.
    + intros a Ha. cbn in Ha. cbn. rewrite lookup_insert_ne by lia. done.
    + split; [|done]. cbn. by rewrite lookup_insert_eq.
    + pose proof (hchain_next (sh_ptr h) (l1 ++ [b]) l2 (sh_hdr h)) as Hn. rewrite <- app_assoc in Hn.
      specialize (Hn (rp_chain _ _ Hr)). rewrite total_app, last_off_app in Hn. rewrite last_off_app. cbn in Hn |- *.
      destruct l2 as [|c l2]; cbn in Hn |- *.
      * destruct Hn as [p Hn]. exists p. by rewrite lookup_insert_ne by lia.
      * by rewrite lookup_insert_ne by lia.
    + destruct (Z.ltb_spec (sh_ptr h + total l1) (sh_lfree h)); [by apply lfree_here|].
      eapply lfree_keep; [apply (rp_lfree _ _ Hr')|done|done|done|].
      intros o c Hin Hc _. cbn in Hin. apply list_elem_of_singleton in Hin as [= -> ->]. congruence.
    + cbn. rewrite Hb. lia.
  - intros El. cbn. rewrite (low_set_free l1 b l2 Hp Hb). rewrite El.
    destruct (Z.ltb_spec (sh_ptr h + total l1) (sh_ptr h + low (l1 ++ b :: l2))); lia.
Qed.

Lemma free_run h o b :
  heap_inv h -> (o, b) ∈ starts 0 (heap_blocks h) -> b_used b = true ->
  exists h', rt_free (sh_ptr h + o + SIZEOF_STRUCT_MEM) h = Ok tt h' /\ heap_inv h' /\
    stepped h h' (heap_blocks h) (free_at o (heap_blocks h)) /\ sh_max_mem h' = sh_max_mem h.
Proof.
  intros [Hr Hnh] Hin Hb. destruct (starts_split _ _ _ _ Hin) as (l1 & l2 & Ebl & ->). rewrite Ebl in *. clear Hin Ebl.
  rewrite Z.add_0_l. pose proof (rep_pos _ _ Hr) as Hp.
  destruct (rep_split_lens h l1 [b] l2 Hr) as (T1 & _ & T3 & L1 & L2 & L3 & Een).
  inversion_clear L2 as [|? ? [Lb Lbd] _]. pose proof min_pos.
  replace (total [b]) with (b_len b) in Een by (cbn; lia).
  destruct (rp_area _ _ Hr) as [_ At A0 Aa Am Atop].
  pose proof (mark_rep _ _ _ _ Hr Hb) as S1.
  apply no_holes_app in Hnh as [Hn1 Hn2]. assert (Hn2' : no_holes l2) by (destruct l2; [done|apply Hn2]).
  destruct (plug_holes_run (h_mark l1 b h) l1 (b_len b) l2 (sp_rep _ _ _ _ S1) Hn1 Hn2') as (h' & E & S2 & M2).
  pose proof (stepped_trans _ _ _ _ _ _ S1 S2) as S3. exists h'.
  unfold free_at. rewrite <- (Z.add_0_l (total l1)) at 2. rewrite (set_free_mid 0 l1 b l2 Hp).
  split; [|split; [eapply rep_inv; [apply S3|apply merge_no_holes]|split; [exact S3|done]]].
  assert (Hal : (RT_ALIGN_SIZE | sh_ptr h + total l1 + SIZEOF_STRUCT_MEM)).
  { apply Z.divide_add_r; [|apply sizeof_divide]. apply Z.divide_add_r; [done|by apply total_divide]. }
  unfold rt_free. rewrite (proj2 (Z.eqb_neq _ RT_NULL)) by (unfold RT_NULL; lia).
  rewrite bind_getS, bind_assert by (apply Z.eqb_eq, aligned_land, Hal).
  rewrite bind_assert by (apply andb_true_iff; split; [apply Z.leb_le|apply Z.ltb_lt]; lia).
  replace (sh_ptr h + total l1 + SIZEOF_STRUCT_MEM - SIZEOF_STRUCT_MEM) with (sh_ptr h + total l1) by lia.
  pose proof (rep_hdr _ _ _ _ Hr) as Hm. rewrite (bind_ok _ _ _ _ _ (get_mem_run _ _ _ Hm)).
  cbn [hdr_of hm_used hm_magic hm_next]. rewrite Hb. rewrite bind_assert, bind_assert by done.
  erewrite bind_ok by (apply upd_mem_run; exact Hm).
  set (h1 := put_hdr _ _ h).
  assert (El : when (sh_ptr h + total l1 <? sh_lfree h) (modify (put_lfree (sh_ptr h + total l1))) h1 =
    Ok tt (put_lfree (if sh_ptr h + total l1 <? sh_lfree h then sh_ptr h + total l1 else sh_lfree h) h1)).
  { by destruct (_ <? _). }
  rewrite (bind_ok _ _ _ _ _ El), bind_modify.
  rewrite ubase_small; [|rewrite (rp_used _ _ Hr), used_total_app; cbn [used_total foldr]; rewrite Hb].
  { replace (sh_used_mem h - (total l1 + b_len b - (sh_ptr h + total l1 - sh_ptr h)))
      with (sh_used_mem h - b_len b) by lia. exact E. }
  fold (used_total l2). apply Forall_app in Hp as [Hp1 Hp2]. inversion Hp2; subst.
  pose proof (used_total_bound _ Hp1). pose proof (used_total_bound l2 ltac:(done)).
  rewrite !total_app in *. cbn [total foldr] in At. fold (total l2) in At. lia.
Qed.

(** ** Allocation *)

(** A block cut in two. *)
Definition cut_pair (size : Z) (b : blk) : list blk :=
  [mk_blk (SIZEOF_STRUCT_MEM + size) true; mk_blk (b_len b - SIZEOF_STRUCT_MEM - size) false].

Lemma cut_block_run h size l1 b l2 f :
  rep h (l1 ++ b :: l2) -> 0 <= size -> size + SIZEOF_STRUCT_MEM < b_len b - SIZEOF_STRUCT_MEM ->
  f (hdr_of b (total l1) (last_off 0 0 l1)) =
    hdr_of (mk_blk (SIZEOF_STRUCT_MEM + size) true) (total l1) (last_off 0 0 l1) ->
  exists hdr',
    (forall h0, same_area h h0 -> sh_hdr h0 = sh_hdr h ->
       cut_block (total l1) (total l1 + SIZEOF_STRUCT_MEM + size) (sh_ptr h + total l1) f h0 =
         Ok tt {| h0 with sh_hdr := hdr' |}) /\
    (forall a, a < sh_ptr h + total l1 \/ sh_ptr h + total l1 + b_len b < a -> hdr' !! a = sh_hdr h !! a) /\
    seg (sh_ptr h) (total l1) (last_off 0 0 l1) (cut_pair size b) hdr' /\
    next_hdr (sh_ptr h) (total l1 + b_len b) (last_off 0 0 (l1 ++ cut_pair size b)) l2 hdr'.
Proof.
  intros Hr H0 Hsp Hf. pose proof min_pos as Hmp. pose proof (rep_hdr _ _ _ _ Hr) as Hm.
  set (S0 := SIZEOF_STRUCT_MEM) in *. set (c := hdr_of (mk_blk (S0 + size) true) (total l1) (last_off 0 0 l1)) in *.
  pose proof (hchain_next (sh_ptr h) (l1 ++ [b]) l2 (sh_hdr h)) as Hn. rewrite <- app_assoc in Hn.
  specialize (Hn (rp_chain _ _ Hr)). rewrite total_app in Hn.
  replace (total [b]) with (b_len b) in Hn by (cbn; lia).
  destruct (next_hdr_run _ _ (total l1 + S0 + size) _ _ _ Hn) as (e & He & Hn').
  set (X := <[sh_ptr h + total l1 := c]>
             (<[sh_ptr h + (total l1 + S0 + size) := mk_hm HEAP_MAGIC 0 (total l1 + b_len b) (total l1)]> (sh_hdr h))).
  exists (match l2 with [] => X | _ => <[sh_ptr h + (total l1 + b_len b) := with_prev (total l1 + S0 + size) e]> X end).
  split; [|split; [|split]].
  - intros [p0 e0 lf0 s0 u0 m0 hdr0 b0] (A1 & A2 & A3) Eh. cbn in A1, A2, A3, Eh. subst p0 e0 s0 hdr0.
    unfold cut_block. rewrite bind_getS. erewrite bind_ok by (apply get_mem_run; exact Hm). cbn [hdr_of hm_next].
    unfold put_mem at 1. rewrite bind_modify.
    erewrite bind_ok by (apply upd_mem_run; cbn [sh_hdr put_hdr sh_ptr]; rewrite lookup_insert_ne by (cbn; lia); exact Hm).
    rewrite Hf. pose proof (ar_total _ _ (rp_area _ _ Hr)) as Ht. rewrite total_app in Ht. cbn in Ht. fold (total l2) in Ht.
    unfold put_hdr. cbn [sh_hdr sh_ptr sh_size sh_end sh_lfree sh_used_mem sh_max_mem sh_bytes]. fold X. destruct l2 as [|d l2'].
    + cbn in Ht. by rewrite (proj2 (Z.eqb_eq _ _)) by lia.
    + pose proof (rep_pos _ _ Hr) as Hp. apply Forall_app in Hp as [_ Hp]. inversion Hp as [|? ? _ Hp']; subst.
      inversion Hp'; subst. pose proof (total_pos l2' ltac:(done)). cbn in Ht. fold (total l2') in Ht.
      rewrite (proj2 (Z.eqb_neq _ _)) by (unfold S0 in *; lia). cbn [negb when].
      erewrite upd_mem_run; [done|]. unfold X. cbn [sh_hdr]. rewrite !lookup_insert_ne by lia. exact He.
  - intros a Ha. unfold X. destruct l2; rewrite !lookup_insert_ne by lia; done.
  - assert (HX : forall a, a < sh_ptr h + (total l1 + b_len b) ->
      (match l2 with [] => X | _ => <[sh_ptr h + (total l1 + b_len b) := with_prev (total l1 + S0 + size) e]> X end) !! a = X !! a).
    { intros a Ha. destruct l2; [done|]. by rewrite lookup_insert_ne by lia. }
    cbn [seg cut_pair]. fold S0. split; [|split; [|done]]; rewrite HX by (cbn; lia); unfold X.
    + by rewrite lookup_insert_eq.
    + cbn [b_len]. rewrite (Z.add_assoc (total l1)), lookup_insert_ne, lookup_insert_eq by lia.
      unfold hdr_of. cbn. do 2 f_equal. lia.
  - rewrite last_off_app. cbn [last_off b_len cut_pair]. fold S0. rewrite Z.add_0_l, (Z.add_assoc (total l1)).
    destruct l2 as [|d l2']; cbn [next_hdr] in Hn' |- *.
    + destruct Hn as [p Hn]. exists p. unfold X. rewrite !lookup_insert_ne by lia. exact Hn.
    + rewrite lookup_insert_eq in Hn' |- *. exact Hn'.
Qed.

(** A free block taken for [size] bytes, split when the rest can hold a block. *)
Definition take_blk (size : Z) (b : blk) : list blk :=
  if size + SIZEOF_STRUCT_MEM + MIN_SIZE_ALIGNED <=? b_len b - SIZEOF_STRUCT_MEM
  then cut_pair size b else [mk_blk (b_len b) true].

(** The first block of sufficient size that starts below [limit]. *)
Fixpoint first_fit (size limit off : Z) (bl : list blk) : option (Z * list blk) :=
  match bl with
  | [] => None
  | b :: r =>
      if negb (off <? limit) then None
      else if negb (b_used b) && (size <=? b_len b - SIZEOF_STRUCT_MEM) then Some (off, take_blk size b ++ r)
      else prod_map id (cons b) <$> first_fit size limit (off + b_len b) r
  end.

Lemma take_blk_total size b : total (take_blk size b) = b_len b.
Proof. unfold take_blk. destruct (_ <=? _); cbn; lia. Qed.

Lemma take_blk_cons size b : exists c r, take_blk size b = c :: r /\ b_used c = true.
Proof. unfold take_blk. destruct (_ <=? _); by eexists _, _. Qed.

Lemma low_spec off bl :
  pos_lens bl -> 0 <= low bl <= total bl /\
  (low bl = total bl \/ exists b, (off + low bl, b) ∈ starts off bl /\ b_used b = false).
Proof.
  intros Hp. revert off. induction Hp as [|b bl Hb Hp IH]; intros off; simpl; [split; [lia|by left]|].
  destruct (IH (off + b_len b)) as [Hr Hc]. destruct (b_used b) eqn:E.
  - split; [lia|]. destruct Hc as [->|(c & Hin & Hc)]; [by left|]. right. exists c. split; [|done].
    apply elem_of_cons. right. by rewrite Z.add_assoc.
  - pose proof (total_pos _ Hp). split; [lia|]. right. exists b. split; [|done].
    rewrite Z.add_0_r. apply list_elem_of_here.
Qed.

Lemma low_here l1 b l2 X :
  pos_lens l1 -> b_used b = false -> low (l1 ++ b :: l2) = total l1 -> low (l1 ++ X) = total l1 + low X.
Proof.
  intros Hp Hb. induction Hp as [|c l1 Hc Hp IH]; simpl; [done|]. pose proof (total_pos _ Hp).
  destruct (b_used c); [|lia]. intros E. rewrite IH; lia.
Qed.

Lemma low_before l1 b l2 X :
  pos_lens l1 -> b_used b = false -> low (l1 ++ b :: l2) < total l1 -> low (l1 ++ X) = low (l1 ++ b :: l2).
Proof.
  intros Hp Hb. induction Hp as [|c l1 Hc Hp IH]; simpl; [rewrite Hb; lia|]. pose proof (total_pos _ Hp).
  destruct (b_used c); [|done]. intros E. rewrite IH; lia.
Qed.

Lemma lfree_advance_run h l1 l2 fuel :
  pos_lens (l1 ++ l2) -> hchain (sh_ptr h) (l1 ++ l2) (sh_hdr h) ->
  sh_end h = sh_ptr h + total (l1 ++ l2) -> sh_lfree h = sh_ptr h + total l1 -> (length l2 < fuel)%nat ->
  lfree_advance fuel h = Ok tt (put_lfree (sh_ptr h + total l1 + low l2) h).
Proof.
  revert h l1 fuel. induction l2 as [|b l2 IH]; intros h l1 [|fuel] Hp Hc He Hl Hf; cbn [length] in Hf; try lia;
    cbn [lfree_advance]; rewrite bind_getS.
  - rewrite app_nil_r in He. pose proof (hchain_next _ _ _ _ Hc) as [p Hn].
    rewrite <- Hl in Hn. rewrite (bind_ok _ _ _ _ _ (get_mem_run _ _ _ Hn)). cbn.
    rewrite (proj2 (Z.eqb_eq (sh_lfree h) (sh_end h))) by lia. cbn.
    rewrite Z.add_0_r, <- Hl. by destruct h.
  - pose proof (hchain_next _ _ _ _ Hc) as Hn. cbn [next_hdr] in Hn. rewrite <- Hl in Hn.
    rewrite (bind_ok _ _ _ _ _ (get_mem_run _ _ _ Hn)). cbn [hdr_of hm_used hm_next low].
    apply Forall_app in Hp as Hp2. destruct Hp2 as [Hp1 Hp2]. inversion Hp2; subst.
    pose proof (total_pos l2 ltac:(done)). rewrite total_app in He. cbn in He. fold (total l2) in He.
    rewrite (proj2 (Z.eqb_neq (sh_lfree h) (sh_end h))) by lia. destruct (b_used b) eqn:Eb; cbn [Z.eqb negb andb].
    + rewrite bind_modify. rewrite (IH _ (l1 ++ [b]) fuel); cbn [put_lfree sh_ptr sh_hdr sh_end sh_lfree];
        try rewrite <- app_assoc; try done; [|rewrite !total_app; cbn; lia|rewrite total_app; cbn; lia|lia].
      unfold put_lfree. cbn. do 2 f_equal. rewrite total_app. cbn. lia.
    + rewrite Z.add_0_r, <- Hl. by destruct h.
Qed.

Lemma add_used_run n h :
  exists m, add_used n h = Ok tt (put_max m (put_used (ubase (sh_used_mem h + n)) h)).
Proof.
  unfold add_used. rewrite bind_gets, bind_modify, bind_gets. cbn [sh_max_mem put_used].
  destruct (sh_max_mem h <? ubase (sh_used_mem h + n)); [by eexists|]. exists (sh_max_mem h). by destruct h.
Qed.

(** The state after the block has been taken, before [lfree] is moved. *)
Record taken (h h2 : small_heap) (size : Z) (l1 : list blk) (b : blk) (l2 : list blk) : Prop := {
  tk_area : same_area h h2;
  tk_bytes : sh_bytes h2 = sh_bytes h;
  tk_lfree : sh_lfree h2 = sh_lfree h;
  tk_used : sh_used_mem h2 = sh_used_mem h + used_total (take_blk size b);
  tk_frame : forall a, a < sh_ptr h + total l1 \/ sh_ptr h + total l1 + b_len b < a ->
    sh_hdr h2 !! a = sh_hdr h !! a;
  tk_seg : seg (sh_ptr h) (total l1) (last_off 0 0 l1) (take_blk size b) (sh_hdr h2);
  tk_next : next_hdr (sh_ptr h) (total l1 + b_len b) (last_off 0 0 (l1 ++ take_blk size b)) l2 (sh_hdr h2)
}.

Section Take.
Variables (h : small_heap) (size : Z) (l1 : list blk) (b : blk) (l2 : list blk).
Hypotheses (Hr : rep h (l1 ++ b :: l2)) (Hb : b_used b = false) (Hmin : MIN_SIZE_ALIGNED <= size)
  (Hal : (RT_ALIGN_SIZE | size)) (Hfit : size <= b_len b - SIZEOF_STRUCT_MEM).

Lemma take_facts :
  0 <= total l1 /\ 0 <= total l2 /\ SIZEOF_STRUCT_MEM < b_len b /\ (RT_ALIGN_SIZE | b_len b) /\
  sh_end h = sh_ptr h + total l1 + b_len b + total l2 /\ total l1 + b_len b + total l2 = sh_size h + SIZEOF_STRUCT_MEM /\
  0 < sh_ptr h /\ sh_end h + SIZEOF_STRUCT_MEM <= 2 ^ (8 * sizeof_ptr) /\
  0 <= sh_used_mem h <= total l1 + total l2.
Proof.
  destruct (rep_split_lens h l1 [b] l2 Hr) as (T1 & _ & T3 & L1 & L2 & L3 & Een).
  inversion_clear L2 as [|? ? [Lb Lbd] _]. destruct (rp_area _ _ Hr) as [_ At A0 Aa Am Atop].
  rewrite (rp_used _ _ Hr), used_total_app. cbn [used_total foldr]. rewrite Hb. fold (used_total l2).
  pose proof (used_total_bound _ (lens_pos _ L1)). pose proof (used_total_bound _ (lens_pos _ L3)).
  rewrite total_app in At. cbn in At, Een. fold (total l2) in At, Een. repeat (split; [done || lia|]). lia.
Qed.

Lemma next_ubase : ubase (total l1 + b_len b - (total l1 + SIZEOF_STRUCT_MEM)) = b_len b - SIZEOF_STRUCT_MEM.
Proof. pose proof take_facts. pose proof min_pos. rewrite ubase_small; lia. Qed.

Lemma malloc_split_near :
  b_len b - SIZEOF_STRUCT_MEM < size + SIZEOF_STRUCT_MEM + MIN_SIZE_ALIGNED ->
  exists h2, malloc_split size (total l1) (sh_ptr h + total l1) h = Ok tt h2 /\ taken h h2 size l1 b l2.
Proof.
  intros Hsp. pose proof take_facts as Hf. pose proof min_pos as Hmp. pose proof (rep_hdr _ _ _ _ Hr) as Hm.
  assert (Et : take_blk size b = [mk_blk (b_len b) true]).
  { unfold take_blk. by rewrite (proj2 (Z.leb_gt _ _)) by lia. }
  unfold malloc_split. rewrite bind_getS, (bind_ok _ _ _ _ _ (get_mem_run _ _ _ Hm)). cbn [hdr_of hm_next].
  rewrite next_ubase, (proj2 (Z.leb_gt _ _)) by lia. erewrite bind_ok by (apply upd_mem_run; exact Hm).
  match goal with |- context [add_used ?n ?h2] => destruct (add_used_run n h2) as (mx & E) end.
  exists (put_max mx (put_used (sh_used_mem h + b_len b)
    (put_hdr (sh_ptr h + total l1) (hdr_of (mk_blk (b_len b) true) (total l1) (last_off 0 0 l1)) h))).
  split.
  { rewrite E. cbn [sh_used_mem put_hdr]. do 3 f_equal. rewrite !ubase_small; [lia|lia|]. rewrite ubase_small; lia. }
  split; try done; try rewrite Et.
  - cbn. lia.
  - intros a Ha. cbn. rewrite lookup_insert_ne by lia. done.
  - split; [|done]. cbn. by rewrite lookup_insert_eq.
  - pose proof (hchain_next (sh_ptr h) (l1 ++ [b]) l2 (sh_hdr h)) as Hn. rewrite <- app_assoc in Hn.
    specialize (Hn (rp_chain _ _ Hr)). rewrite total_app, last_off_app in Hn. rewrite last_off_app. cbn in Hn |- *.
    rewrite Z.add_0_r in Hn. destruct l2 as [|c l2']; cbn in Hn |- *.
    + destruct Hn as [p Hn]. exists p. by rewrite lookup_insert_ne by lia.
    + by rewrite lookup_insert_ne by lia.
Qed.

Lemma malloc_split_cut :
  size + SIZEOF_STRUCT_MEM + MIN_SIZE_ALIGNED <= b_len b - SIZEOF_STRUCT_MEM ->
  exists h2, malloc_split size (total l1) (sh_ptr h + total l1) h = Ok tt h2 /\ taken h h2 size l1 b l2.
Proof.
  intros Hsp. pose proof take_facts as Hf. pose proof min_pos as Hmp. pose proof (rep_hdr _ _ _ _ Hr) as Hm.
  assert (Et : take_blk size b = cut_pair size b).
  { unfold take_blk. by rewrite (proj2 (Z.leb_le _ _)) by lia. }
  destruct (cut_block_run h size l1 b l2 (fun m => with_used 1 (with_next (total l1 + SIZEOF_STRUCT_MEM + size) m)))
    as (hdr' & Hcut & Hfr & Hsg & Hnx); [done|lia|lia| |].
  { unfold hdr_of, with_used, with_next. cbn. f_equal. lia. }
  unfold malloc_split. rewrite bind_getS, (bind_ok _ _ _ _ _ (get_mem_run _ _ _ Hm)). cbn [hdr_of hm_next].
  rewrite next_ubase, (proj2 (Z.leb_le _ _)) by lia. rewrite (bind_ok _ _ _ _ _ (Hcut h ltac:(by split) eq_refl)).
  match goal with |- context [add_used ?n ?h2] => destruct (add_used_run n h2) as (mx & E) end.
  eexists. split; [exact E|]. split; try done; try rewrite Et; try done.
  cbn. rewrite ubase_small; lia.
Qed.

Lemma take_blk_ok : Forall blk_ok (take_blk size b).
Proof.
  pose proof take_facts as Hf. pose proof min_pos. pose proof sizeof_divide as [D1 D2]. unfold take_blk.
  destruct (Z.leb_spec (size + SIZEOF_STRUCT_MEM + MIN_SIZE_ALIGNED) (b_len b - SIZEOF_STRUCT_MEM)).
  - constructor; [split; cbn [b_len]; [lia|by apply Z.divide_add_r]|]. constructor; [|done].
    split; cbn [b_len]; [lia|]. apply Z.divide_sub_r; [apply Z.divide_sub_r; [apply Hf|done]|done].
  - constructor; [|done]. split; cbn [b_len]; [lia|apply Hf].
Qed.

Definition new_lfree : Z :=
  if sh_ptr h + total l1 =? sh_lfree h then sh_ptr h + total l1 + low (take_blk size b ++ l2) else sh_lfree h.

Lemma taken_rep h2 :
  taken h h2 size l1 b l2 ->
  stepped h (put_lfree new_lfree h2) (l1 ++ b :: l2) (l1 ++ take_blk size b ++ l2).
Proof.
  intros [(A1 & A2 & A3) Hby Hlf Hu Hfr Hsg Hnx]. pose proof take_facts as Hf. pose proof min_pos.
  pose proof (take_blk_total size b) as Et. pose proof (rep_pos _ _ Hr) as Hp.
  apply Forall_app in Hp as Hp1. destruct Hp1 as [Hp1 Hp2]. inversion Hp2 as [|? ? Hpb Hp3]; subst.
  assert (Hpt : pos_lens (take_blk size b ++ l2)).
  { apply Forall_app. split; [apply lens_pos, take_blk_ok|done]. }
  pose proof (low_le l1 b l2 Hp1 Hb) as Hle. unfold new_lfree.
  split; [|done|done|].
  - apply (rep_replace h _ l1 [b] (take_blk size b) l2); try done.
    + apply take_blk_ok.
    + rewrite Et. cbn. lia.
    + intros a Ha. cbn in Ha |- *. apply Hfr. lia.
    + replace (total [b]) with (b_len b) by (cbn; lia). exact Hnx.
    + destruct (Z.eqb_spec (sh_ptr h + total l1) (sh_lfree h)) as [E|E].
      * destruct (low_spec (total l1) _ Hpt) as [_ [El|(c & Hin & Hc)]].
        -- left. cbn. rewrite El, total_app, Et. lia.
        -- right. exists (total l1 + low (take_blk size b ++ l2)), c. split; [|split; [done|cbn; lia]].
           rewrite starts_app. apply elem_of_app. right. by rewrite Z.add_0_l.
      * eapply (lfree_keep h _ l1 [b]); [apply (rp_lfree _ _ Hr)|rewrite Et; cbn; lia|done|done|].
        intros o c Hin Hc Eo. cbn in Hin. apply list_elem_of_singleton in Hin as [= -> ->]. congruence.
    + cbn. rewrite Hu, Hb. lia.
  - intros El. cbn [sh_lfree put_lfree]. rewrite El.
    destruct (Z.eqb_spec (sh_ptr h + total l1) (sh_ptr h + low (l1 ++ b :: l2))) as [E|E].
    + rewrite (low_here l1 b l2 (take_blk size b ++ l2) Hp1 Hb) by lia. lia.
    + rewrite (low_before l1 b l2 (take_blk size b ++ l2) Hp1 Hb) by lia. done.
Qed.

Lemma malloc_block_run :
  exists h', malloc_block size (total l1) (sh_ptr h + total l1) h = Ok tt h' /\
    stepped h h' (l1 ++ b :: l2) (l1 ++ take_blk size b ++ l2).
Proof.
  assert (Hs : exists h2, malloc_split size (total l1) (sh_ptr h + total l1) h = Ok tt h2 /\ taken h h2 size l1 b l2).
  { destruct (Z.leb_spec (size + SIZEOF_STRUCT_MEM + MIN_SIZE_ALIGNED) (b_len b - SIZEOF_STRUCT_MEM));
      [by apply malloc_split_cut|by apply malloc_split_near]. }
  destruct Hs as (h2 & E2 & Ht). pose proof (taken_rep h2 Ht) as Hst. exists (put_lfree new_lfree h2). split; [|done].
  pose proof take_facts as Hf. pose proof min_pos. destruct Ht as [(A1 & A2 & A3) Hby Hlf Hu Hfr Hsg Hnx].
  destruct (take_blk_cons size b) as (c & r & Ec & Hc).
  assert (Hmag : upd_mem (sh_ptr h + total l1) with_magic h2 = Ok tt h2).
  { rewrite Ec in Hsg. destruct Hsg as [Hm2 _]. erewrite upd_mem_run by exact Hm2.
    unfold put_hdr. rewrite insert_id by exact Hm2. by destruct h2. }
  unfold malloc_block. rewrite (bind_ok _ _ _ _ _ E2), (bind_ok _ _ _ _ _ Hmag), bind_getS.
  pose proof (sp_rep _ _ _ _ Hst) as Hr'.
  assert (Hadv : when (sh_ptr h + total l1 =? sh_lfree h2)
      (lfree_advance (S (base.size (sh_hdr h2)));; h ← getS; l ← get_mem (sh_lfree h);
       RT_ASSERT ((sh_lfree h =? sh_end h) || (hm_used l =? 0))) h2 = Ok tt (put_lfree new_lfree h2)).
  { unfold new_lfree. rewrite Hlf. destruct (Z.eqb_spec (sh_ptr h + total l1) (sh_lfree h)) as [E|E];
      [|cbn [when]; rewrite <- Hlf; by destruct h2].
    cbn [when]. pose proof (rp_chain _ _ Hr') as Hch. cbn [put_lfree sh_ptr sh_hdr] in Hch.
    pose proof (hchain_count _ _ _ (rep_pos _ _ Hr') Hch) as Hcnt. rewrite length_app in Hcnt.
    erewrite bind_ok.
    2: { apply (lfree_advance_run h2 l1 (take_blk size b ++ l2)); [by eapply rep_pos|done| |congruence|lia].
         pose proof (ar_end _ _ (rp_area _ _ Hr')) as Hend. exact Hend. }
    rewrite bind_getS, A1. cbn [sh_lfree put_lfree sh_end].
    pose proof (rp_lfree _ _ Hr') as Hlo. unfold new_lfree in Hlo.
    rewrite (proj2 (Z.eqb_eq (sh_ptr h + total l1) (sh_lfree h)) E) in Hlo.
    unfold lfree_ok in Hlo. cbn [put_lfree sh_lfree sh_end sh_ptr] in Hlo.
    destruct Hlo as [Hlo|(o & d & Hin & Hd & Hlo)].
    - destruct (proj2 Hch) as [p Hen]. rewrite Hlo at 1. rewrite (ar_end _ _ (rp_area _ _ Hr')) at 1.
      rewrite (bind_ok _ _ _ _ _ (get_mem_run (put_lfree _ h2) _ _ Hen)). by rewrite (proj2 (Z.eqb_eq _ _) Hlo).
    - destruct (starts_split _ _ _ _ Hin) as (m1 & m2 & Em & ->). rewrite Z.add_0_l, A1 in Hlo.
      rewrite Em in Hr'. pose proof (rep_hdr _ _ _ _ Hr') as Hd2. cbn [put_lfree sh_ptr sh_hdr] in Hd2. rewrite A1 in Hd2.
      rewrite Hlo at 1. rewrite (bind_ok _ _ _ _ _ (get_mem_run (put_lfree _ h2) _ _ Hd2)). cbn. rewrite Hd. by rewrite orb_true_r. }
  rewrite (bind_ok _ _ _ _ _ Hadv). rewrite bind_assert by (apply Z.leb_le; lia).
  assert (HalM : (RT_ALIGN_SIZE | sh_ptr h + total l1)).
  { apply Z.divide_add_r; [apply (ar_align _ _ (rp_area _ _ Hr))|]. apply total_divide.
    apply (rep_split_lens h l1 [b] l2 Hr). }
  rewrite bind_assert by (apply Z.eqb_eq, aligned_land, Z.divide_add_r; [done|apply sizeof_divide]).
  unfold RT_ASSERT. rewrite (proj2 (Z.eqb_eq _ 0)); [done|by apply aligned_land].
Qed.

End Take.

(** The search, from the part [lb] of the list on. *)
Lemma malloc_search_run size lb : forall h la fuel,
  rep h (la ++ lb) -> MIN_SIZE_ALIGNED <= size -> (RT_ALIGN_SIZE | size) -> size <= sh_size h ->
  (length lb < fuel)%nat ->
  match first_fit size (sh_size h - size) (total la) lb with
  | None => malloc_search fuel size (total la) h = Ok RT_NULL h
  | Some (o, lb') => exists h', malloc_search fuel size (total la) h = Ok (sh_ptr h + o + SIZEOF_STRUCT_MEM) h' /\
      stepped h h' (la ++ lb) (la ++ lb')
  end.
Proof.
  induction lb as [|b lb IH]; intros h la [|fuel] Hr Hmin Hal Hle Hf; cbn [length] in Hf; try lia;
    cbn [malloc_search first_fit]; rewrite bind_getS.
  - pose proof (ar_total _ _ (rp_area _ _ Hr)) as Ht. rewrite app_nil_r in Ht. pose proof min_pos.
    pose proof (ar_top _ _ (rp_area _ _ Hr)). pose proof (ar_end _ _ (rp_area _ _ Hr)). pose proof (ar_ptr _ _ (rp_area _ _ Hr)).
    rewrite app_nil_r in *. rewrite ubase_small by lia. by rewrite (proj2 (Z.ltb_ge _ _)) by lia.
  - pose proof min_pos. destruct (rep_split_lens h la [b] lb Hr) as (T1 & _ & T3 & _ & L2 & _ & Een).
    inversion_clear L2 as [|? ? [Lb _] _]. cbn in Een. fold (total lb) in Een.
    pose proof (ar_total _ _ (rp_area _ _ Hr)) as Ht. rewrite total_app in Ht. cbn in Ht. fold (total lb) in Ht.
    pose proof (ar_top _ _ (rp_area _ _ Hr)). pose proof (ar_ptr _ _ (rp_area _ _ Hr)).
    rewrite ubase_small by lia. destruct (Z.ltb_spec (total la) (sh_size h - size)); [|done]. cbn [negb].
    pose proof (rep_hdr _ _ _ _ Hr) as Hm. rewrite (bind_ok _ _ _ _ _ (get_mem_run _ _ _ Hm)). cbn [hdr_of hm_used hm_next].
    rewrite (ubase_small (_ - _)) by lia.
    replace (total la + b_len b - (total la + SIZEOF_STRUCT_MEM)) with (b_len b - SIZEOF_STRUCT_MEM) by lia.
    destruct (b_used b) eqn:Eb; cbn [negb andb Z.eqb]; [|destruct (Z.leb_spec size (b_len b - SIZEOF_STRUCT_MEM)) as [Hfit|]].
    2: { destruct (malloc_block_run h size la b lb Hr Eb Hmin Hal Hfit) as (h' & E & Hst). exists h'.
         rewrite (bind_ok _ _ _ _ _ E). done. }
    all: assert (Hr' : rep h ((la ++ [b]) ++ lb)) by (by rewrite <- app_assoc);
      specialize (IH h (la ++ [b]) fuel Hr' Hmin Hal Hle ltac:(lia)); rewrite total_app in IH;
      replace (total la + total [b]) with (total la + b_len b) in IH by (cbn; lia);
      destruct (first_fit size (sh_size h - size) (total la + b_len b) lb) as [[o lb']|]; cbn; [|done];
      rewrite <- !app_assoc in IH; exact IH.
Qed.

Lemma first_fit_split size limit off bl o bl' :
  first_fit size limit off bl = Some (o, bl') ->
  exists l1 b l2, bl = l1 ++ b :: l2 /\ bl' = l1 ++ take_blk size b ++ l2 /\ o = off + total l1 /\ o < limit /\
    b_used b = false /\ size <= b_len b - SIZEOF_STRUCT_MEM.
Proof.
  revert off bl'. induction bl as [|b bl IH]; intros off bl'; cbn [first_fit]; [done|].
  destruct (Z.ltb_spec off limit); [|done]. cbn [negb].
  destruct (negb (b_used b) && (size <=? b_len b - SIZEOF_STRUCT_MEM)) eqn:E.
  - intros [= <- <-]. apply andb_true_iff in E as [E1 E2]. exists [], b, bl. cbn.
    rewrite Z.add_0_r. apply negb_true_iff in E1. apply Z.leb_le in E2. done.
  - destruct (first_fit size limit (off + b_len b) bl) as [[o' r]|] eqn:Ef; [|done]. cbn. intros [= <- <-].
    destruct (IH _ _ Ef) as (l1 & c & l2 & -> & -> & -> & H1 & H2 & H3). exists (b :: l1), c, l2. cbn. fold (total l1).
    split; [done|]. split; [done|]. split; [lia|done].
Qed.

(** Used blocks at the front are skipped. *)
Lemma first_fit_skip size limit off la lb :
  pos_lens la -> Forall (fun b => b_used b = true) la ->
  first_fit size limit off (la ++ lb) = prod_map id (app la) <$> first_fit size limit (off + total la) lb.
Proof.
  intros Hp Hu. revert off. induction la as [|b la IH]; intros off; cbn [app total foldr].
  - rewrite Z.add_0_r. by destruct (first_fit size limit off lb) as [[? ?]|].
  - inversion Hp; inversion Hu; subst. cbn [first_fit]. pose proof (total_pos la ltac:(done)).
    rewrite H5. cbn [negb andb]. destruct (Z.ltb_spec off limit); cbn [negb].
    + rewrite IH by done. fold (total la). rewrite Z.add_assoc.
      by destruct (first_fit size limit (off + b_len b + total la) lb) as [[? ?]|].
    + fold (total la). destruct lb as [|c lb]; [done|]. cbn [first_fit].
      by rewrite (proj2 (Z.ltb_ge (off + (b_len b + total la)) limit)) by lia.
Qed.

Lemma low_used bl l1 l2 :
  pos_lens bl -> bl = l1 ++ l2 -> low bl = total l1 -> (forall b, head l2 = Some b -> b_used b = false) ->
  Forall (fun b => b_used b = true) l1.
Proof.
  intros Hp ->. induction l1 as [|b l1 IH]; intros El Hh; [done|]. inversion Hp as [|? ? Hb Hp']; subst.
  cbn in El. fold (total l1) in El. apply Forall_app in Hp' as Hp1. destruct Hp1 as [Hp1 _].
  pose proof (total_pos _ Hp1). destruct (b_used b) eqn:Eb; [|lia]. constructor; [done|]. apply IH; [done|lia|done].
Qed.

Lemma no_holes_take size l1 b l2 :
  no_holes (l1 ++ b :: l2) -> b_used b = false -> no_holes (l1 ++ take_blk size b ++ l2).
Proof.
  intros Hn Hb. apply no_holes_app in Hn as [H1 H2].
  assert (H3 : no_holes l2) by (destruct l2; [done|apply H2]).
  unfold take_blk. destruct (_ <=? _); cbn [app]; apply no_holes_mid; try done.
  destruct l2 as [|c l2]; [done|]. split; [|done]. destruct H2 as [H2 _]. by rewrite Hb in H2.
Qed.

(** The size that is searched for. *)
Definition request (n : Z) : Z := if align n <? MIN_SIZE_ALIGNED then MIN_SIZE_ALIGNED else align n.

Lemma align_divide n : (RT_ALIGN_SIZE | align n).
Proof.
  destruct align_pos as (k & Hk & E & Hp). unfold align. destruct (RT_ALIGN_spec n) as [_ Hd].
  destruct (Z.le_gt_cases k (8 * sizeof_ptr)) as [Hle|Hgt].
  - unfold ubase. rewrite Z.mod_eq by (apply Z.pow_nonzero; [done|]; destruct cfg_ptr; lia).
    apply Z.divide_sub_r; [done|]. apply Z.divide_mul_l. rewrite E.
    exists (2 ^ (8 * sizeof_ptr - k)). rewrite <- Z.pow_add_r by lia. f_equal. lia.
  - assert (Hz : (2 ^ (8 * sizeof_ptr) | RT_ALIGN n RT_ALIGN_SIZE)).
    { eapply Z.divide_trans; [|exact Hd]. rewrite E. exists (2 ^ (k - 8 * sizeof_ptr)).
      rewrite <- Z.pow_add_r by (destruct cfg_ptr; lia). f_equal. lia. }
    apply Z.mod_divide in Hz; [|apply Z.pow_nonzero; [done|]; destruct cfg_ptr; lia].
    unfold ubase. rewrite Hz. apply Z.divide_0_r.
Qed.

Lemma request_ok n :
  MIN_SIZE_ALIGNED <= request n /\ (RT_ALIGN_SIZE | request n) /\ align n <= request n.
Proof.
  unfold request. destruct (Z.ltb_spec (align n) MIN_SIZE_ALIGNED).
  - split; [lia|]. split; [apply sizeof_divide|lia].
  - split; [lia|]. split; [apply align_divide|lia].
Qed.

(** What [rt_malloc] does from [lfree] on. *)
Lemma malloc_run h n :
  heap_inv h -> n <> 0 ->
  exists la lb, heap_blocks h = la ++ lb /\ sh_lfree h = sh_ptr h + total la /\
    (forall b, head lb = Some b -> b_used b = false) /\
    match (if sh_size h <? align n then None else first_fit (request n) (sh_size h - request n) (total la) lb) with
    | None => rt_malloc n h = Ok RT_NULL h
    | Some (o, lb') => exists h', rt_malloc n h = Ok (sh_ptr h + o + SIZEOF_STRUCT_MEM) h' /\ heap_inv h' /\
        stepped h h' (heap_blocks h) (la ++ lb')
    end.
Proof.
  intros [Hr Hnh] Hn. pose proof (rp_area _ _ Hr) as Har.
  assert (Hsp : exists la lb, heap_blocks h = la ++ lb /\ sh_lfree h = sh_ptr h + total la /\
    (forall b, head lb = Some b -> b_used b = false)).
  { destruct (rp_lfree _ _ Hr) as [E|(o & b & Hin & Hb & E)].
    - exists (heap_blocks h), []. rewrite app_nil_r. split; [done|]. split; [|done]. rewrite E. apply Har.
    - destruct (starts_split _ _ _ _ Hin) as (l1 & l2 & El & ->). exists l1, (b :: l2). split; [done|].
      split; [lia|]. intros c [= <-]. done. }
  destruct Hsp as (la & lb & El & Elf & Hh). exists la, lb. split; [done|]. split; [done|]. split; [done|].
  unfold rt_malloc. rewrite (proj2 (Z.eqb_neq n 0) Hn), bind_getS. destruct (Z.ltb_spec (sh_size h) (align n)); [done|].
  fold (request n). destruct (request_ok n) as (R1 & R2 & _).
  assert (Hle : request n <= sh_size h).
  { unfold request. destruct (_ <? _); [apply Har|lia]. }
  rewrite El in Hr, Hnh. replace (sh_lfree h - sh_ptr h) with (total la) by lia.
  pose proof (malloc_search_run (request n) lb h la (S (base.size (sh_hdr h))) Hr R1 R2 Hle) as Hms.
  pose proof (hchain_count _ _ _ (rep_pos _ _ Hr) (rp_chain _ _ Hr)) as Hc. rewrite length_app in Hc.
  specialize (Hms ltac:(lia)).
  destruct (first_fit (request n) (sh_size h - request n) (total la) lb) as [[o lb']|] eqn:Ef; [|done].
  destruct Hms as (h' & E & Hst). exists h'. split; [done|]. rewrite El. split; [|done].
  eapply rep_inv; [apply Hst|]. destruct (first_fit_split _ _ _ _ _ _ Ef) as (l1 & b & l2 & -> & -> & _ & _ & Hb & _).
  rewrite app_assoc in Hnh |- *. by apply no_holes_take.
Qed.

End Spec.
