(* ===== verification/MemThm.v ===== *)
(** * What the small memory allocator promises

    The allocator is an instance of the heap interface of the kernel, starts
    well-formed, hands out aligned and disjoint blocks, and keeps the contents
    of a block it changes. *)

From S2P Require Import Prelude Scheduler Object Timer Kernel Mem MemInv MemSpec.

Section Lemmas.
Context `{CO : ConfigOk}.
Implicit Types (h : small_heap).

(** ** Initialisation *)

(** The first state of the heap between two addresses. *)
Definition heap_start (b e : Z) : small_heap :=
  match rt_system_heap_init b e heap_zero with Ok _ h => h | Fault _ => heap_zero end.

Lemma heap_init_run b e :
  0 < b -> e < 2 ^ (8 * sizeof_ptr) ->
  RT_ALIGN b RT_ALIGN_SIZE + 2 * SIZEOF_STRUCT_MEM + MIN_SIZE_ALIGNED <= RT_ALIGN_DOWN e RT_ALIGN_SIZE ->
  let bl := [mk_blk (RT_ALIGN_DOWN e RT_ALIGN_SIZE - RT_ALIGN b RT_ALIGN_SIZE - SIZEOF_STRUCT_MEM) false] in
  rt_system_heap_init b e heap_zero = Ok tt (heap_start b e) /\ rep (heap_start b e) bl /\
  sh_ptr (heap_start b e) = RT_ALIGN b RT_ALIGN_SIZE /\ sh_end (heap_start b e) <= e /\
  sh_lfree (heap_start b e) = sh_ptr (heap_start b e).
Proof.
  intros Hb He Hroom bl. pose proof min_pos. destruct (RT_ALIGN_spec b) as [Hb1 Hb2].
  assert (Hed : RT_ALIGN_DOWN e RT_ALIGN_SIZE <= e /\ (RT_ALIGN_SIZE | RT_ALIGN_DOWN e RT_ALIGN_SIZE)).
  { destruct align_pos as (k & Hk & -> & Hp). rewrite align_down_div by done. split; [|apply Z.divide_factor_r].
    pose proof (Z.div_mod e (2 ^ k)). pose proof (Z.mod_pos_bound e (2 ^ k)). lia. }
  set (b' := RT_ALIGN b RT_ALIGN_SIZE) in *. set (e' := RT_ALIGN_DOWN e RT_ALIGN_SIZE) in *.
  set (S0 := SIZEOF_STRUCT_MEM) in *.
  assert (Er : rt_system_heap_init b e heap_zero = Ok tt (mk_sh b' (b' + (e' - b' - 2 * S0 + S0)) b' (e' - b' - 2 * S0) 0 0
     (<[b' + (e' - b' - 2 * S0 + S0) := mk_hm HEAP_MAGIC 1 (e' - b' - 2 * S0 + S0) (e' - b' - 2 * S0 + S0)]>
       (<[b' := mk_hm HEAP_MAGIC 0 (e' - b' - 2 * S0 + S0) 0]> ∅)) ∅)).
  { unfold rt_system_heap_init, align. fold b' e' S0. rewrite !ubase_small by lia.
    rewrite (proj2 (Z.ltb_lt _ _)), (proj2 (Z.leb_le _ _)) by lia. done. }
  unfold heap_start. rewrite Er. split; [done|]. set (h := mk_sh _ _ _ _ _ _ _ _).
  split; [|split; [done|split; [unfold h; cbn [sh_end]; lia|done]]].
  assert (Et : total bl = e' - b' - S0) by (unfold bl; cbn; lia).
  split.
  - split.
    + split; [|done]. unfold h. cbn [sh_ptr sh_hdr]. rewrite Z.add_0_r, lookup_insert_ne, lookup_insert_eq by lia.
      unfold hdr_of. cbn. do 2 f_equal. lia.
    + exists (e' - b' - 2 * S0 + S0). unfold h. cbn [sh_ptr sh_hdr]. rewrite Et.
      replace (e' - b' - 2 * S0 + S0) with (e' - b' - S0) by lia. apply lookup_insert_eq.
  - split; unfold h; cbn [sh_end sh_ptr sh_size]; rewrite ?Et; fold S0; try lia. done.
  - constructor; [|done]. split; cbn [b_len]; fold S0; [lia|].
    apply Z.divide_sub_r; [apply Z.divide_sub_r; [apply Hed|done]|apply sizeof_divide].
  - right. exists 0, (mk_blk (e' - b' - S0) false). split; [apply list_elem_of_here|]. split; [done|]. cbn. lia.
  - done.
Qed.

(** ** Live blocks *)

(** The data addresses of the used blocks, with the room each has. *)
Definition live_blocks (h : small_heap) : list (Z * Z) :=
  (fun ob : Z * blk => (sh_ptr h + ob.1 + SIZEOF_STRUCT_MEM, b_len ob.2 - SIZEOF_STRUCT_MEM)) <$>
    filter (fun ob : Z * blk => b_used ob.2 = true) (starts 0 (heap_blocks h)).

Lemma live_elem h p n :
  (p, n) ∈ live_blocks h <->
  exists o b, (o, b) ∈ starts 0 (heap_blocks h) /\ b_used b = true /\
    p = sh_ptr h + o + SIZEOF_STRUCT_MEM /\ n = b_len b - SIZEOF_STRUCT_MEM.
Proof.
  unfold live_blocks. rewrite list_elem_of_fmap. split.
  - intros ([o b] & [= -> ->] & Hin). apply list_elem_of_filter in Hin as [Hu Hin]. exists o, b. done.
  - intros (o & b & Hin & Hu & -> & ->). exists (o, b). split; [done|]. by apply list_elem_of_filter.
Qed.

(** Replacing one block in the list of starts. *)
Lemma starts_replace off l1 b mid l2 o c :
  total mid = b_len b -> (o, c) ∈ starts off (l1 ++ mid ++ l2) <->
  ((o, c) ∈ starts (off + total l1) mid \/ ((o, c) ∈ starts off l1 \/ (o, c) ∈ starts (off + total l1 + b_len b) l2)).
Proof. intros Et. rewrite !starts_app, !elem_of_app, Et. tauto. Qed.

(** Blocks of the list do not overlap. *)
Lemma starts_disjoint off bl o1 b1 o2 b2 :
  pos_lens bl -> (o1, b1) ∈ starts off bl -> (o2, b2) ∈ starts off bl ->
  (o1 = o2 /\ b1 = b2) \/ o1 + b_len b1 <= o2 \/ o2 + b_len b2 <= o1.
Proof.
  intros Hp H1 H2. destruct (starts_split _ _ _ _ H1) as (l1 & l2 & -> & ->).
  apply Forall_app in Hp as Hp'. destruct Hp' as [Hp1 Hp2]. inversion Hp2 as [|? ? Hb Hp3]; subst.
  rewrite starts_app in H2. apply elem_of_app in H2 as [H2|H2]; [|cbn in H2; apply elem_of_cons in H2 as [[= -> ->]|H2]].
  - apply starts_range in H2; [|done]. lia.
  - by left.
  - apply starts_range in H2; [|done]. lia.
Qed.

(** What [rt_malloc] returns, without the search. *)
Lemma malloc_cases h n :
  heap_inv h -> n <> 0 ->
  rt_malloc n h = Ok RT_NULL h \/
  exists l1 b l2 h', heap_blocks h = l1 ++ b :: l2 /\ b_used b = false /\
    request n <= b_len b - SIZEOF_STRUCT_MEM /\
    rt_malloc n h = Ok (sh_ptr h + total l1 + SIZEOF_STRUCT_MEM) h' /\ heap_inv h' /\
    stepped h h' (heap_blocks h) (l1 ++ take_blk (request n) b ++ l2).
Proof.
  intros Hi Hn. destruct (malloc_run h n Hi Hn) as (la & lb & Eb & _ & _ & Hm).
  destruct (if sh_size h <? align n then None else _) as [[o lb']|] eqn:Ef; [|by left]. right.
  destruct (sh_size h <? align n); [done|].
  destruct (first_fit_split _ _ _ _ _ _ Ef) as (l1 & b & l2 & -> & -> & -> & _ & Hb & Hfit).
  destruct Hm as (h' & E & Hi' & Hst). exists (la ++ l1), b, l2, h'. rewrite <- !app_assoc.
  split; [done|]. split; [done|]. split; [done|]. split; [by rewrite total_app|]. split; [done|].
  by rewrite !app_assoc in Hst |- *.
Qed.

Lemma malloc_zero h : rt_malloc 0 h = Ok RT_NULL h.
Proof. done. Qed.

(** The live blocks after an allocation: the new one and the old ones. *)
Lemma live_take h h' l1 b l2 size :
  heap_blocks h = l1 ++ b :: l2 -> b_used b = false -> MIN_SIZE_ALIGNED <= size ->
  stepped h h' (heap_blocks h) (l1 ++ take_blk size b ++ l2) ->
  exists len, size <= b_len b - SIZEOF_STRUCT_MEM -> size <= len /\ len <= b_len b - SIZEOF_STRUCT_MEM /\
  forall p n, (p, n) ∈ live_blocks h' <->
    (p, n) = (sh_ptr h + total l1 + SIZEOF_STRUCT_MEM, len) \/ (p, n) ∈ live_blocks h.
Proof.
  intros Eb Hb Hmin [Hr (A1 & _) _ _]. pose proof min_pos.
  exists (b_len (default b (head (take_blk size b))) - SIZEOF_STRUCT_MEM). intros Hfit. split; [|split].
  - unfold take_blk, cut_pair. destruct (_ <=? _); cbn; lia.
  - unfold take_blk, cut_pair.
    destruct (Z.leb_spec (size + SIZEOF_STRUCT_MEM + MIN_SIZE_ALIGNED) (b_len b - SIZEOF_STRUCT_MEM)); cbn; lia.
  - intros p n. rewrite !live_elem, (rep_blocks _ _ Hr), Eb, A1.
    change (l1 ++ b :: l2) with (l1 ++ [b] ++ l2).
    setoid_rewrite (starts_replace 0 l1 b (take_blk size b) l2); [|apply take_blk_total].
    setoid_rewrite (starts_replace 0 l1 b [b] l2); [|cbn; lia].
    assert (Hhd : forall o c, (o, c) ∈ starts (0 + total l1) (take_blk size b) /\ b_used c = true <->
      o = total l1 /\ c = default b (head (take_blk size b))).
    { intros o c. unfold take_blk, cut_pair. destruct (_ <=? _); cbn; rewrite !elem_of_cons, elem_of_nil.
      - split; [|by intros [-> ->]; split; [left|]]. intros [[[= -> ->]|[[= -> ->]|[]]] Hu]; done.
      - split; [|by intros [-> ->]; split; [left|]]. intros [[[= -> ->]|[]] Hu]; done. }
    split.
    + intros (o & c & [Hin|Hin] & Hu & -> & ->).
      * destruct (proj1 (Hhd o c) (conj Hin Hu)) as [-> ->]. by left.
      * right. exists o, c. tauto.
    + intros [[= -> ->]|(o & c & [Hin|Hin] & Hu & -> & ->)].
      * exists (total l1), (default b (head (take_blk size b))).
        destruct (proj2 (Hhd (total l1) _) (conj eq_refl eq_refl)) as [H1 H2]. tauto.
      * cbn in Hin. apply list_elem_of_singleton in Hin as [= -> ->]. congruence.
      * exists o, c. tauto.
Qed.

(** The live blocks after a release: all but the one released. *)
Lemma merge_starts_used off bl o b :
  b_used b = true -> (o, b) ∈ starts off (merge bl) <-> (o, b) ∈ starts off bl.
Proof.
  intros Hu. revert off. induction bl as [|c bl IH]; intros off; [done|]. cbn [merge starts].
  specialize (IH (off + b_len c)). rewrite elem_of_cons, <- IH. destruct (merge bl) as [|d r]; cbn [starts].
  - by rewrite elem_of_cons.
  - destruct (b_used c || b_used d) eqn:E; cbn [starts]; rewrite !elem_of_cons; [done|].
    apply orb_false_iff in E as [Ec Ed]. cbn [b_len].
    replace (off + (b_len c + b_len d)) with (off + b_len c + b_len d) by lia.
    split; [intros [[= -> ->]|?]; [done|tauto]|]. intros [[= -> ->]|[[= -> ->]|?]]; [congruence|congruence|tauto].
Qed.

Lemma set_free_starts off bl x o b :
  pos_lens bl -> b_used b = true ->
  (o, b) ∈ starts off (set_free off x bl) <-> (o, b) ∈ starts off bl /\ o <> x.
Proof.
  intros Hp Hu. revert off. induction Hp as [|c bl Hc Hp IH]; intros off; cbn [set_free starts]; [set_solver|].
  rewrite !elem_of_cons. destruct (Z.eqb_spec off x) as [->|Hne]; cbn [b_len]; rewrite IH.
  - split; [intros [[= -> ->]|[? ?]]; [done|tauto]|]. intros [[[= -> ->]|?] ?]; [done|tauto].
  - split; [intros [[= -> ->]|[? ?]]; tauto|]. intros [[[= -> ->]|?] ?]; tauto.
Qed.

Lemma live_free h h' o :
  heap_inv h -> stepped h h' (heap_blocks h) (free_at o (heap_blocks h)) ->
  forall p n, (p, n) ∈ live_blocks h' <->
    (p, n) ∈ live_blocks h /\ p <> sh_ptr h + o + SIZEOF_STRUCT_MEM.
Proof.
  intros [Hr0 _] [Hr (A1 & _) _ _] p n. rewrite !live_elem, (rep_blocks _ _ Hr), A1. unfold free_at. split.
  - intros (o' & b & Hin & Hu & -> & ->). rewrite merge_starts_used, set_free_starts in Hin by (done || by eapply rep_pos).
    split; [exists o', b; tauto|]. lia.
  - intros [(o' & b & Hin & Hu & -> & ->) Hne]. exists o', b.
    rewrite merge_starts_used, set_free_starts by (done || by eapply rep_pos).
    split; [|done]. split; [done|]. lia.
Qed.

(** ** Whole calls *)

Lemma inv_put_bytes bs h : heap_inv h -> heap_inv (put_bytes bs h) /\ heap_blocks (put_bytes bs h) = heap_blocks h.
Proof.
  intros [Hr Hn]. assert (Hr' : rep (put_bytes bs h) (heap_blocks h)).
  { destruct Hr as [H1 [] H3 H4 H5]. split; try done. }
  split; [by eapply rep_inv|by apply rep_blocks].
Qed.

Lemma live_put_bytes bs h : heap_inv h -> live_blocks (put_bytes bs h) = live_blocks h.
Proof. intros Hi. unfold live_blocks. by rewrite (proj2 (inv_put_bytes bs h Hi)). Qed.

(** What an allocation hands out. *)
Lemma malloc_area (h h' : small_heap) (n p : Z) (Hi : heap_inv h) (Hn : 0 < n <= 2 ^ (8 * sizeof_ptr) - RT_ALIGN_SIZE)
    (E : rt_malloc n h = Ok p h') (Hp : p <> RT_NULL) :
  heap_inv h' /\ (RT_ALIGN_SIZE | p) /\
  exists len, n <= len /\ sh_ptr h < p /\ p + len <= sh_end h /\
    (forall q m, (q, m) ∈ live_blocks h -> q + m <= p \/ p + len <= q) /\
    (forall q m, (q, m) ∈ live_blocks h' <-> (q, m) = (p, len) \/ (q, m) ∈ live_blocks h).
Proof.
  destruct (malloc_cases h n Hi ltac:(lia)) as [E'|(l1 & c & l2 & h1 & Eb & Hc & Hfit & E' & Hi' & Hst)];
    rewrite E in E'; injection E' as -> ->; [done|]. split; [done|].
  destruct (request_ok n) as (R1 & _ & R3). destruct (live_take h h1 l1 c l2 (request n) Eb Hc R1 Hst) as (len & Hlive).
  destruct (Hlive Hfit) as (Hlen1 & Hlen2 & Hlv). pose proof min_pos.
  destruct Hi as (Hr & _). rewrite Eb in Hr. pose proof (rp_area _ _ Hr) as [Aend _ A0 Aal _ _].
  destruct (rep_split_lens h l1 [c] l2 Hr) as (T1 & _ & T3 & L1 & _ & _ & Een). cbn in Een. fold (total l2) in Een.
  split.
  { apply Z.divide_add_r; [|apply sizeof_divide]. apply Z.divide_add_r; [done|by apply total_divide]. }
  assert (n <= align n).
  { unfold align. destruct (RT_ALIGN_spec n). rewrite ubase_small; lia. }
  exists len. split; [lia|]. split; [lia|]. split; [lia|]. split; [|exact Hlv].
  intros q m Hin. apply live_elem in Hin as (o & d & Hin & Hd & -> & ->). rewrite Eb in Hin.
  destruct (starts_disjoint 0 _ _ _ _ _ (rep_pos _ _ Hr) Hin (starts_mid 0 l1 c l2)) as [[_ ->]|Hdj]; [congruence|lia].
Qed.

(** Freeing an allocated block, whatever has been written to memory. *)
Lemma free_restores bs (h h1 : small_heap) (n p : Z) (Hi : heap_inv h) (Hn : n <> 0)
    (E : rt_malloc n h = Ok p h1) (Hp : p <> RT_NULL) :
  exists h2, rt_free p (put_bytes bs h1) = Ok tt h2 /\ heap_inv h2 /\ heap_blocks h2 = heap_blocks h.
Proof.
  destruct (malloc_cases h n Hi Hn) as [E'|(l1 & c & l2 & h' & Eb & Hc & Hfit & E' & Hi' & [Hr (A1 & _) _ _])];
    rewrite E in E'; injection E' as -> ->; [done|].
  destruct (take_blk_cons (request n) c) as (d & r & Ed & Hd).
  destruct (inv_put_bytes bs h' Hi') as [Hi'' Eb'].
  assert (Hin : (total l1, d) ∈ starts 0 (heap_blocks (put_bytes bs h'))).
  { rewrite Eb', (rep_blocks _ _ Hr), Ed. exact (starts_mid 0 l1 d (r ++ l2)). }
  destruct (free_run (put_bytes bs h') (total l1) d Hi'' Hin Hd) as (h2 & E2 & Hi2 & [Hr2 _ _ _] & _). change (sh_ptr (put_bytes bs h')) with (sh_ptr h') in E2. rewrite A1 in E2.
  exists h2. split; [done|]. split; [done|]. rewrite (rep_blocks _ _ Hr2), Eb', (rep_blocks _ _ Hr), Eb.
  destruct Hi as [Hr0 Hnh]. rewrite Eb in Hnh. unfold free_at. rewrite Ed. cbn [app].
  rewrite <- (Z.add_0_l (total l1)) at 1. rewrite set_free_mid.
  2: { pose proof (rep_pos _ _ Hr) as Hp'. rewrite Ed in Hp'. exact Hp'. }
  rewrite <- (merge_id _ Hnh). revert Ed. unfold take_blk, cut_pair. destruct (_ <=? _); intros [= <- <-]; cbn [b_len app].
  - assert (Em : merge (mk_blk (SIZEOF_STRUCT_MEM + request n) false :: mk_blk (b_len c - SIZEOF_STRUCT_MEM - request n) false :: l2)
      = c :: l2).
    { apply no_holes_app in Hnh as [_ Hnh]. assert (Hn2 : no_holes l2) by (destruct l2; [done|apply Hnh]).
      assert (Ec : mk_blk (b_len c) false = c) by (destruct c; cbn in *; congruence).
      cbn [merge]. rewrite (merge_id _ Hn2). destruct l2 as [|x l2]; cbn.
      - transitivity [mk_blk (b_len c) false]; [do 2 f_equal; lia|by rewrite Ec].
      - destruct Hnh as [Hx _]. rewrite Hc in Hx. cbn in Hx. rewrite Hx. cbn.
        transitivity (mk_blk (b_len c) false :: x :: l2); [do 2 f_equal; lia|by rewrite Ec]. }
    rewrite (merge_id _ Hnh). eapply merge_prefix; [|exact Em|done].
    change (l1 ++ c :: l2) with (l1 ++ [c] ++ l2) in Hnh. rewrite app_assoc in Hnh. apply no_holes_app in Hnh as [Hnh _].
    clear -Hnh Hc. induction l1 as [|y l1 IH]; [done|]. destruct l1 as [|z l1]; cbn in *; [by rewrite Hc in Hnh|]. tauto.
  - do 3 f_equal. destruct c; cbn in *. congruence.
Qed.

End Lemmas.

(** ** The interface of the kernel *)

Section Instance.
Context `{CO : ConfigOk}.

(** [rt_malloc] takes an [rt_size_t]. *)
Definition small_mem_heap : Heap := {|
  heap := small_heap;
  heap_malloc := fun n => rt_malloc (ubase n);
  heap_free := rt_free
|}.

Definition live_set (h : small_heap) : gset Z := list_to_set ((live_blocks h).*1).

Lemma live_set_elem h p : p ∈ live_set h <-> exists n, (p, n) ∈ live_blocks h.
Proof.
  unfold live_set. rewrite elem_of_list_to_set, list_elem_of_fmap. split.
  - intros ([q n] & -> & Hin). by exists n.
  - intros [n Hin]. by exists (p, n).
Qed.

Variables (b e : Z).

Definition small_mem_inv (h : small_heap) : Prop :=
  heap_inv h /\ lowest h /\ b <= sh_ptr h /\ sh_end h <= e.

Lemma stepped_inv h h' bl' :
  small_mem_inv h -> heap_inv h' -> stepped h h' (heap_blocks h) bl' -> small_mem_inv h'.
Proof.
  intros (Hi & Hl & H1 & H2) Hi' [Hr (A1 & A2 & A3) _ Hlow]. split; [done|]. split; [|lia].
  unfold lowest. rewrite (rep_blocks _ _ Hr), A1. by apply Hlow.
Qed.

Lemma small_malloc_ok h n :
  small_mem_inv h -> exists p h', rt_malloc (ubase n) h = Ok p h' /\ small_mem_inv h' /\
    ((p = RT_NULL /\ live_set h' = live_set h) \/
     (b <= p < e /\ (p ∉ live_set h) /\ 0 < p /\ live_set h' = {[p]} ∪ live_set h)).
Proof.
  intros Hi. destruct (decide (ubase n = 0)) as [->|Hn]; [exists RT_NULL, h; eauto|].
  destruct (malloc_cases h (ubase n) (proj1 Hi) Hn) as [E|(l1 & c & l2 & h' & Eb & Hc & Hfit & E & Hi' & Hst)];
    [exists RT_NULL, h; eauto|].
  eexists _, h'. split; [exact E|]. split; [by eapply stepped_inv|]. right.
  destruct (request_ok (ubase n)) as (R1 & _ & _).
  destruct (live_take h h' l1 c l2 (request (ubase n)) Eb Hc R1 Hst) as (len & Hlive).
  destruct (Hlive Hfit) as (Hlen1 & Hlen2 & Hlv). pose proof min_pos.
  destruct Hi as ((Hr & _) & _ & Hb & He). rewrite Eb in Hr. pose proof (ar_ptr _ _ (rp_area _ _ Hr)).
  destruct (rep_split_lens h l1 [c] l2 Hr) as (T1 & _ & T3 & _ & _ & _ & Een). cbn in Een. fold (total l2) in Een.
  split; [lia|]. split; [|split; [lia|]].
  - rewrite live_set_elem. intros [m Hin]. apply live_elem in Hin as (o & d & Hin & Hd & Eo & _).
    rewrite Eb in Hin. pose proof (starts_mid 0 l1 c l2) as Hm.
    destruct (starts_disjoint 0 _ _ _ _ _ (rep_pos _ _ Hr) Hin Hm) as [[_ ->]|Hd']; [congruence|].
    apply starts_range in Hin; [|by eapply rep_pos]. lia.
  - apply set_eq. intros p. rewrite elem_of_union, elem_of_singleton, !live_set_elem. split.
    + intros [m Hin]. apply Hlv in Hin as [[= -> ->]|Hin]; [by left|]. right. by exists m.
    + intros [->|[m Hin]]; [exists len|exists m]; apply Hlv; [by left|by right].
Qed.

Lemma small_free_ok h p :
  small_mem_inv h -> p ∈ live_set h \/ p = RT_NULL ->
  exists h', rt_free p h = Ok tt h' /\ small_mem_inv h' /\ live_set h' = live_set h ∖ {[p]}.
Proof.
  intros Hi [Hin| ->].
  - apply live_set_elem in Hin as [n Hin]. apply live_elem in Hin as (o & c & Hin & Hc & -> & _).
    destruct (free_run h o c (proj1 Hi) Hin Hc) as (h' & E & Hi' & Hst & _). exists h'. split; [done|].
    split; [by eapply stepped_inv|]. apply set_eq. intros p.
    rewrite elem_of_difference, elem_of_singleton, !live_set_elem.
    setoid_rewrite (live_free h h' o (proj1 Hi) Hst). naive_solver.
  - exists h. split; [done|]. split; [done|]. apply set_eq. intros p.
    rewrite elem_of_difference, elem_of_singleton. split; [|tauto]. intros Hp. split; [done|]. intros ->.
    apply live_set_elem in Hp as [n Hp]. apply live_elem in Hp as (o & c & Hp & _ & Eo & _).
    destruct Hi as ((Hr & _) & _). pose proof (ar_ptr _ _ (rp_area _ _ Hr)). pose proof min_pos.
    apply starts_range in Hp; [|by eapply rep_pos]. unfold RT_NULL in Eo. lia.
Qed.

Lemma small_live_area h p :
  small_mem_inv h -> p ∈ live_set h -> b <= p < e /\ 0 < p.
Proof.
  intros ((Hr & _) & _ & H1 & H2) Hin. apply live_set_elem in Hin as [n Hin].
  apply live_elem in Hin as (o & c & Hin & _ & -> & _). pose proof (ar_ptr _ _ (rp_area _ _ Hr)). pose proof min_pos.
  pose proof (ar_end _ _ (rp_area _ _ Hr)). destruct (starts_split _ _ _ _ Hin) as (l1 & l2 & El & ->).
  pose proof (rp_lens _ _ Hr) as Hl. rewrite El in Hl. apply Forall_app in Hl as [Hl1 Hl2]. inversion Hl2 as [|? ? [Lc _] Hl3]; subst.
  pose proof (total_pos _ (lens_pos _ Hl1)). pose proof (total_pos _ (lens_pos _ Hl3)).
  rewrite El, total_app in H3. cbn in H3. fold (total l2) in H3. lia.
Qed.

#[export] Instance small_mem_ok : HeapOk small_mem_heap :=
  Build_HeapOk small_mem_heap small_mem_inv live_set (fun p => b <= p < e)
    small_live_area small_malloc_ok small_free_ok.

End Instance.

(** ** Theorems *)

Section Thm.
Context `{CO : ConfigOk}.

(** C7: [rt_malloc] implements first fit.  On a well-formed heap whose [lfree]
    is the lowest free block it takes the first block of the block list that is
    free, large enough for the aligned request and starts below the search
    limit, splits off the rest when that can hold a block of its own, and keeps
    both properties; when there is no such block it returns [RT_NULL] and
    changes nothing.  Its loops end within one step per block. *)
Theorem malloc_first_fit (h : small_heap) (n : Z) (Hi : heap_inv h) (Hl : lowest h) (Hn : n <> 0) :
  match (if sh_size h <? align n then None
         else first_fit (request n) (sh_size h - request n) 0 (heap_blocks h)) with
  | None => rt_malloc n h = Ok RT_NULL h
  | Some (o, bl') => exists h', rt_malloc n h = Ok (sh_ptr h + o + SIZEOF_STRUCT_MEM) h' /\
      heap_inv h' /\ lowest h' /\ heap_blocks h' = bl'
  end.
Proof.
  destruct (malloc_run h n Hi Hn) as (la & lb & Eb & Elf & Hh & Hm).
  destruct (sh_size h <? align n); [done|]. destruct Hi as [Hr _].
  assert (Hp : pos_lens (la ++ lb)) by (rewrite <- Eb; by eapply rep_pos).
  assert (Hu : Forall (fun b => b_used b = true) la).
  { eapply (low_used (la ++ lb)); [done|done| |done]. unfold lowest in Hl. rewrite Eb in Hl. lia. }
  apply Forall_app in Hp as [Hp1 _]. rewrite Eb, (first_fit_skip _ _ _ la lb Hp1 Hu), Z.add_0_l.
  destruct (first_fit (request n) (sh_size h - request n) (total la) lb) as [[o lb']|]; [|done]. cbn [fmap option_fmap option_map prod_map fst snd id].
  destruct Hm as (h' & E & Hi' & [Hr' (A1 & _) _ Hlow]). exists h'. split; [done|]. split; [done|].
  unfold lowest. rewrite (rep_blocks _ _ Hr'), A1. split; [|done]. apply Hlow. exact Hl.
Qed.

(** C8: what an allocation hands out is safe to use.  For every request whose
    size does not wrap when it is aligned, a block that [rt_malloc] returns is
    aligned, lies inside the heap, has room for the request and overlaps no
    block in use; every block in use stays as it is. *)
Theorem malloc_safe (h h' : small_heap) (n p : Z) (Hi : heap_inv h) (Hn : 0 < n <= 2 ^ (8 * sizeof_ptr) - RT_ALIGN_SIZE)
    (E : rt_malloc n h = Ok p h') (Hp : p <> RT_NULL) :
  heap_inv h' /\ (RT_ALIGN_SIZE | p) /\
  exists len, n <= len /\ sh_ptr h < p /\ p + len <= sh_end h /\
    (forall q m, (q, m) ∈ live_blocks h -> q + m <= p \/ p + len <= q) /\
    (forall q m, (q, m) ∈ live_blocks h' <-> (q, m) = (p, len) \/ (q, m) ∈ live_blocks h).
Proof. by apply malloc_area. Qed.

(** C35: [rt_free] of a block in use marks it free and joins it with the free
    blocks beside it, so that no two neighbours are free; the other blocks in
    use stay as they are and [lfree] stays the lowest free block.  Freeing a
    block that is already free fails an assertion. *)
Theorem free_merges (h : small_heap) (o : Z) (b : blk) (Hi : heap_inv h) (Hin : (o, b) ∈ starts 0 (heap_blocks h)) :
  let p := sh_ptr h + o + SIZEOF_STRUCT_MEM in
  if b_used b then
    exists h', rt_free p h = Ok tt h' /\ heap_inv h' /\ (lowest h -> lowest h') /\
      heap_blocks h' = free_at o (heap_blocks h) /\
      (forall q m, (q, m) ∈ live_blocks h' <-> (q, m) ∈ live_blocks h /\ q <> p)
  else rt_free p h = Fault AssertFail.
Proof.
  cbv zeta. destruct (b_used b) eqn:Hb.
  - destruct (free_run h o b Hi Hin Hb) as (h' & E & Hi' & Hst & _). exists h'. split; [done|]. split; [done|].
    pose proof (live_free h h' o Hi Hst) as Hlv. destruct Hst as [Hr (A1 & _) _ Hlow].
    unfold lowest. rewrite (rep_blocks _ _ Hr), A1. split; [exact Hlow|]. split; [done|exact Hlv].
  - destruct Hi as [Hr _]. destruct (starts_split _ _ _ _ Hin) as (l1 & l2 & Ebl & ->). rewrite Ebl in Hr. rewrite Z.add_0_l.
    destruct (rep_split_lens h l1 [b] l2 Hr) as (T1 & _ & T3 & L1 & L2 & L3 & Een).
    inversion_clear L2 as [|? ? [Lb Lbd] _]. pose proof min_pos. cbn in Een. fold (total l2) in Een.
    destruct (rp_area _ _ Hr) as [_ At A0 Aa Am Atop].
    assert (Hal : (RT_ALIGN_SIZE | sh_ptr h + total l1 + SIZEOF_STRUCT_MEM)).
    { apply Z.divide_add_r; [|apply sizeof_divide]. apply Z.divide_add_r; [done|by apply total_divide]. }
    unfold rt_free. rewrite (proj2 (Z.eqb_neq _ RT_NULL)) by (unfold RT_NULL; lia).
    rewrite bind_getS, bind_assert by (apply Z.eqb_eq, aligned_land, Hal).
    rewrite bind_assert by (apply andb_true_iff; split; [apply Z.leb_le|apply Z.ltb_lt]; lia).
    replace (sh_ptr h + total l1 + SIZEOF_STRUCT_MEM - SIZEOF_STRUCT_MEM) with (sh_ptr h + total l1) by lia.
    rewrite (bind_ok _ _ _ _ _ (get_mem_run _ _ _ (rep_hdr _ _ _ _ Hr))). cbn [hdr_of hm_used]. by rewrite Hb.
Qed.

(** an allocation that is freed at once leaves the blocks of the heap as
    they were. *)
Theorem malloc_free_roundtrip (h h1 : small_heap) (n p : Z) (Hi : heap_inv h) (Hn : n <> 0)
    (E : rt_malloc n h = Ok p h1) (Hp : p <> RT_NULL) :
  exists h2, rt_free p h1 = Ok tt h2 /\ heap_inv h2 /\ heap_blocks h2 = heap_blocks h.
Proof.
  destruct (free_restores (sh_bytes h1) h h1 n p Hi Hn E Hp) as (h2 & E2 & H2). exists h2. by destruct h1.
Qed.

End Thm.
