(* ===== verification/MemRealloc.v ===== *)
(** * Changing the size of a heap block

    [rt_realloc] splits a block that shrinks and moves one that grows; in both
    cases the contents survive.  The file ends with instances of the theorems
    on the allocator and with the behaviours at its limits. *)

From S2P Require Import Prelude Mem MemInv MemSpec MemThm.

Section Lemmas.
Context `{CO : ConfigOk}.
Implicit Types (h : small_heap).

(** ** Copying bytes *)

Lemma copy_bytes_spec n dst src b x :
  dst + Z.of_nat n <= src \/ src + Z.of_nat n <= dst ->
  default 0 (copy_bytes n dst src b !! x) =
    if (dst <=? x) && (x <? dst + Z.of_nat n) then default 0 (b !! (src + (x - dst))) else default 0 (b !! x).
Proof.
  revert dst src b. induction n as [|n IH]; intros dst src b Hd; cbn [copy_bytes].
  - destruct (Z.leb_spec dst x), (Z.ltb_spec x (dst + Z.of_nat 0)); cbn; try done. lia.
  - rewrite IH by lia. destruct (decide (x = dst)) as [->|Hne].
    + rewrite (proj2 (Z.leb_gt (dst + 1) dst)) by lia. cbn [andb]. rewrite lookup_insert_eq.
      rewrite Z.leb_refl, (proj2 (Z.ltb_lt _ _)) by lia. cbn. by rewrite Z.sub_diag, Z.add_0_r.
    + rewrite (lookup_insert_ne b dst x) by lia.
      destruct (Z.leb_spec (dst + 1) x), (Z.leb_spec dst x), (Z.ltb_spec x (dst + 1 + Z.of_nat n)),
        (Z.ltb_spec x (dst + Z.of_nat (S n))); cbn; try lia; try done.
      replace (src + 1 + (x - (dst + 1))) with (src + (x - dst)) by lia. by rewrite lookup_insert_ne by lia.
Qed.

(** ** Shrinking *)

Lemma shrink_run h l1 b l2 n :
  heap_inv h -> heap_blocks h = l1 ++ b :: l2 -> b_used b = true -> 0 < n -> (RT_ALIGN_SIZE | n) ->
  n + SIZEOF_STRUCT_MEM + MIN_SIZE < b_len b - SIZEOF_STRUCT_MEM ->
  exists h', realloc_shrink n (total l1) (sh_ptr h + total l1) h = Ok tt h' /\ heap_inv h' /\
    same_area h h' /\ sh_bytes h' = sh_bytes h /\ heap_blocks h' = merge (l1 ++ cut_pair n b ++ l2).
Proof.
  intros [Hr Hnh] Eb Hb Hn Hal Hsp. rewrite Eb in Hr, Hnh. pose proof min_pos. pose proof (rep_hdr _ _ _ _ Hr) as Hm.
  destruct (rep_split_lens h l1 [b] l2 Hr) as (T1 & _ & T3 & L1 & L2 & L3 & Een). cbn in Een. fold (total l2) in Een.
  inversion_clear L2 as [|? ? [Lb Lbd] _].
  destruct (cut_block_run h n l1 b l2 (with_next (total l1 + SIZEOF_STRUCT_MEM + n))) as (hdr' & Hcut & Hfr & Hsg & Hnx);
    [done|lia|lia| |].
  { unfold hdr_of, with_next. cbn. rewrite Hb. f_equal. lia. }
  set (h0 := put_used (sh_used_mem h - (b_len b - SIZEOF_STRUCT_MEM - n)) h).
  set (h1 := {| h0 with sh_hdr := hdr' |}).
  assert (Hr1 : rep h1 (l1 ++ cut_pair n b ++ l2)).
  { apply (rep_replace h h1 l1 [b]); try done.
    - constructor; [|constructor; [|done]]; split; cbn [b_len]; try lia.
      + apply Z.divide_add_r; [apply sizeof_divide|done].
      + apply Z.divide_sub_r; [apply Z.divide_sub_r; [done|apply sizeof_divide]|done].
    - cbn. lia.
    - intros a Ha. cbn in Ha |- *. apply Hfr. lia.
    - replace (total [b]) with (b_len b) by (cbn; lia). exact Hnx.
    - apply (lfree_keep h h1 l1 [b]); [apply (rp_lfree _ _ Hr)|cbn; lia|done|done|].
      intros o c Hin Hc _. cbn in Hin. apply list_elem_of_singleton in Hin as [= -> ->]. congruence.
    - cbn. rewrite Hb. lia. }
  apply no_holes_app in Hnh as [Hn1 Hn2]. assert (Hn2' : no_holes l2) by (destruct l2; [done|apply Hn2]).
  set (u := mk_blk (SIZEOF_STRUCT_MEM + n) true) in *.
  assert (Hr1' : rep h1 ((l1 ++ [u]) ++ mk_blk (b_len b - SIZEOF_STRUCT_MEM - n) false :: l2)).
  { rewrite <- app_assoc. exact Hr1. }
  destruct (plug_holes_run h1 (l1 ++ [u]) _ l2 Hr1') as (h' & E & [Hr' Ha' Hb' _] & _); [by apply no_holes_mid|done|].
  rewrite <- app_assoc in Hr'. exists h'. split; [|split; [eapply rep_inv; [exact Hr'|apply merge_no_holes]|]].
  - unfold realloc_shrink. rewrite bind_getS, (bind_ok _ _ _ _ _ (get_mem_run _ _ _ Hm)). cbn [hdr_of hm_next].
    rewrite bind_modify.
    replace (ubase _) with (sh_used_mem h - (b_len b - SIZEOF_STRUCT_MEM - n)).
    2: { rewrite (rp_used _ _ Hr), used_total_app. cbn [used_total foldr]. rewrite Hb. fold (used_total l2).
         pose proof (used_total_bound _ (lens_pos _ L1)). pose proof (used_total_bound _ (lens_pos _ L3)).
         pose proof (ar_top _ _ (rp_area _ _ Hr)). pose proof (ar_ptr _ _ (rp_area _ _ Hr)).
         rewrite ubase_small; lia. }
    fold h0. rewrite (bind_ok _ _ _ _ _ (Hcut h0 ltac:(by split) eq_refl)). fold h1.
    rewrite total_app in E. replace (total l1 + total [u]) with (total l1 + SIZEOF_STRUCT_MEM + n) in E by (cbn; lia).
    exact E.
  - destruct Ha' as (A1 & A2 & A3). split; [by split|]. split; [done|]. by rewrite (rep_blocks _ _ Hr').
Qed.

Lemma live_shrink h h' l1 b l2 n q m :
  heap_blocks h = l1 ++ b :: l2 -> b_used b = true -> heap_blocks h' = merge (l1 ++ cut_pair n b ++ l2) ->
  sh_ptr h' = sh_ptr h ->
  (q, m) ∈ live_blocks h' <->
    (q, m) = (sh_ptr h + total l1 + SIZEOF_STRUCT_MEM, n) \/
    exists o c, (o, c) ∈ starts 0 l1 ++ starts (total l1 + b_len b) l2 /\ b_used c = true /\
      q = sh_ptr h + o + SIZEOF_STRUCT_MEM /\ m = b_len c - SIZEOF_STRUCT_MEM.
Proof.
  intros Eb Hb Eb' A1. rewrite live_elem, Eb', A1.
  assert (Hin : forall o c, b_used c = true -> (o, c) ∈ starts 0 (merge (l1 ++ cut_pair n b ++ l2)) <->
    (o, c) = (total l1, mk_blk (SIZEOF_STRUCT_MEM + n) true) \/ (o, c) ∈ starts 0 l1 ++ starts (total l1 + b_len b) l2).
  { intros o c Hc. rewrite merge_starts_used by done. rewrite (starts_replace 0 l1 b (cut_pair n b) l2) by (cbn; lia).
    rewrite elem_of_app, Z.add_0_l. cbn [cut_pair starts]. rewrite !elem_of_cons, elem_of_nil.
    split; [intros [[?|[[= -> ->]|[]]]|?]; [by left|done|by right]|tauto]. }
  split.
  - intros (o & c & H & Hc & -> & ->). apply (Hin o c Hc) in H as [[= -> ->]|H]; [left; cbn; f_equal; lia|].
    right. exists o, c. done.
  - intros [[= -> ->]|(o & c & H & Hc & -> & ->)].
    + exists (total l1), (mk_blk (SIZEOF_STRUCT_MEM + n) true). rewrite Hin by done. split; [by left|]. split; [done|].
      split; [done|]. cbn. lia.
    + exists o, c. rewrite Hin by done. split; [by right|done].
Qed.

(** ** Growing *)

Lemma align_id n : (RT_ALIGN_SIZE | n) -> 0 <= n < 2 ^ (8 * sizeof_ptr) -> align n = n.
Proof.
  intros Hd Hr. unfold align. destruct (RT_ALIGN_spec n) as [H1 H2].
  assert (E : RT_ALIGN n RT_ALIGN_SIZE = n); [|rewrite E; by apply ubase_small].
  destruct align_pos as (k & Hk & E & Hp). rewrite E in *. destruct Hd as [x ->]. destruct H2 as [y Hy].
  rewrite Hy in H1 |- *. assert (x = y) by nia. by subst.
Qed.

(** The parts of [rt_realloc] that a moved block goes through. *)
Lemma grow_run h p len N :
  heap_inv h -> (p, len) ∈ live_blocks h -> 0 < N -> (RT_ALIGN_SIZE | N) -> N <= sh_size h ->
  let move := (nmem ← rt_malloc N;
    when (negb (nmem =? RT_NULL))
      (let n := if len <? N then len else N in
       modify (fun h => put_bytes (copy_bytes (Z.to_nat n) nmem p (sh_bytes h)) h);; rt_free p);;
    mret nmem) in
  move h = Ok RT_NULL h \/
  exists q len' h', move h = Ok q h' /\ heap_inv h' /\ N <= len' /\
    (forall r m, (r, m) ∈ live_blocks h' <-> (r, m) = (q, len') \/ ((r, m) ∈ live_blocks h /\ r <> p)) /\
    (forall i, 0 <= i < Z.min N len -> byte_at (q + i) h' = byte_at (p + i) h) /\
    (forall r m i, (r, m) ∈ live_blocks h -> 0 <= i < m -> byte_at (r + i) h' = byte_at (r + i) h).
Proof.
  intros Hi Hlv HN HNd HNs move. pose proof min_pos.
  destruct (malloc_cases h N Hi ltac:(lia)) as [E|(l1 & c & l2 & h1 & Eb & Hc & Hfit & E & Hi1 & Hst)].
  { left. unfold move. by rewrite (bind_ok _ _ _ _ _ E). }
  right. pose proof Hi as [Hr _]. pose proof (rp_area _ _ Hr) as [Aend Atot A0 Aal Amin Atop].
  assert (Ea : align N = N) by (apply align_id; [done|lia]).
  destruct (request_ok N) as (R1 & _ & R3). rewrite Ea in R3.
  destruct (live_take h h1 l1 c l2 (request N) Eb Hc R1 Hst) as (len' & Hl).
  destruct (Hl Hfit) as (Hlen1 & Hlen2 & Hlv1). set (q := sh_ptr h + total l1 + SIZEOF_STRUCT_MEM) in *.
  assert (Hdj : forall r m, (r, m) ∈ live_blocks h -> r + m <= q \/ q + len' <= r).
  { intros r m Hin. apply live_elem in Hin as (o & d & Hin & Hd & -> & ->). rewrite Eb in Hin, Hr.
    destruct (starts_disjoint 0 _ _ _ _ _ (rep_pos _ _ Hr) Hin (starts_mid 0 l1 c l2)) as [[_ ->]|Hdj]; [congruence|].
    unfold q. lia. }
  assert (Hq0 : q <> RT_NULL /\ 0 < q).
  { rewrite Eb in Hr. pose proof (rp_lens _ _ Hr) as HL. apply Forall_app in HL as [HL _].
    pose proof (total_pos _ (lens_pos _ HL)). unfold q, RT_NULL. lia. }
  assert (Hlen0 : 0 < len).
  { apply live_elem in Hlv as (o & d & Hin & _ & _ & ->). destruct (starts_split _ _ _ _ Hin) as (m1 & m2 & Em & _).
    pose proof (rp_lens _ _ Hr) as HL. rewrite Em in HL. apply Forall_app in HL as [_ HL]. inversion HL as [|? ? [Ld _] _]; subst. lia. }
  set (cnt := if len <? N then len else N). assert (Ecnt : cnt = Z.min N len /\ 0 <= cnt).
  { unfold cnt. destruct (Z.ltb_spec len N); lia. }
  set (h2 := put_bytes (copy_bytes (Z.to_nat cnt) q p (sh_bytes h1)) h1).
  destruct (inv_put_bytes (copy_bytes (Z.to_nat cnt) q p (sh_bytes h1)) h1 Hi1) as [Hi2 Eb2]. fold h2 in Hi2, Eb2.
  assert (Hlv2 : (p, len) ∈ live_blocks h2).
  { unfold h2. rewrite (live_put_bytes _ _ Hi1). apply Hlv1. by right. }
  apply live_elem in Hlv2 as Hp2. destruct Hp2 as (o & b & Hin2 & Hb2 & Ep & _).
  destruct (free_run h2 o b Hi2 Hin2 Hb2) as (h3 & E3 & Hi3 & Hst3 & _). rewrite <- Ep in E3.
  pose proof (live_free h2 h3 o Hi2 Hst3) as Hlv3. rewrite <- Ep in Hlv3.
  assert (Hby : forall x, byte_at x h3 = if (q <=? x) && (x <? q + cnt) then byte_at (p + (x - q)) h else byte_at x h).
  { intros x. unfold byte_at. rewrite (sp_bytes _ _ _ _ Hst3). unfold h2. cbn [sh_bytes put_bytes].
    rewrite copy_bytes_spec by (rewrite Z2Nat.id by lia; specialize (Hdj p len Hlv); lia).
    rewrite Z2Nat.id by lia. by rewrite (sp_bytes _ _ _ _ Hst). }
  exists q, len', h3. split; [|split; [done|split; [lia|split; [|split]]]].
  - unfold move. rewrite (bind_ok _ _ _ _ _ E), (proj2 (Z.eqb_neq q RT_NULL)) by tauto. cbn [negb when].
    fold cnt. rewrite bind_assoc, bind_modify. fold h2. by rewrite (bind_ok _ _ _ _ _ E3).
  - intros r m. rewrite Hlv3. unfold h2. rewrite (live_put_bytes _ _ Hi1), Hlv1.
    assert (q <> p) by (specialize (Hdj p len Hlv); lia).
    split; [intros [[?|?] ?]; [by left|by right]|]. intros [[= -> ->]|[? ?]]; [split; [by left|done]|tauto].
  - intros i Hi'. rewrite Hby. rewrite (proj2 (Z.leb_le q (q + i))), (proj2 (Z.ltb_lt _ _)) by lia. cbn. f_equal. lia.
  - intros r m i Hin Hi'. rewrite Hby. specialize (Hdj r m Hin).
    destruct (Z.leb_spec q (r + i)), (Z.ltb_spec (r + i) (q + cnt)); cbn; try done. lia.
Qed.

End Lemmas.

(** ** Theorem *)

Section Thm.
Context `{CO : ConfigOk}.

(** C15: [rt_realloc] of a block in use either fails with [RT_NULL] and leaves
    the heap as it is, or returns a block in use with room for the new size
    whose contents are those of the old block, up to the smaller of the two
    sizes; every other block in use is still in use with the same contents. *)
Theorem realloc_keeps (h : small_heap) (p len n : Z) (Hi : heap_inv h) (Hlv : (p, len) ∈ live_blocks h)
    (Hn : 0 < n <= 2 ^ (8 * sizeof_ptr) - RT_ALIGN_SIZE) :
  rt_realloc p n h = Ok RT_NULL h \/
  exists q len' h', rt_realloc p n h = Ok q h' /\ heap_inv h' /\ (q, len') ∈ live_blocks h' /\ n <= len' /\
    (forall i, 0 <= i < Z.min n len -> byte_at (q + i) h' = byte_at (p + i) h) /\
    (forall r m, (r, m) ∈ live_blocks h -> r <> p ->
       (r, m) ∈ live_blocks h' /\ forall i, 0 <= i < m -> byte_at (r + i) h' = byte_at (r + i) h).
Proof.
  assert (HN : n <= align n < 2 ^ (8 * sizeof_ptr)).
  { unfold align. destruct (RT_ALIGN_spec n). rewrite ubase_small; lia. }
  pose proof (align_divide n) as HNd. pose proof min_pos. pose proof Hi as [Hr _].
  pose proof (rp_area _ _ Hr) as [Aend Atot A0 Aal Amin Atop].
  apply live_elem in Hlv as Hp. destruct Hp as (o & b & Hin & Hb & Ep & El).
  destruct (starts_split _ _ _ _ Hin) as (l1 & l2 & Eb & ->). rewrite Z.add_0_l in *.
  pose proof Hr as Hr'. rewrite Eb in Hr'. pose proof (rep_hdr _ _ _ _ Hr') as Hm.
  destruct (rep_split_lens h l1 [b] l2 Hr') as (T1 & _ & T3 & _ & L2 & _ & Een). cbn in Een. fold (total l2) in Een.
  inversion_clear L2 as [|? ? [Lb _] _].
  unfold rt_realloc. rewrite bind_getS. destruct (Z.ltb_spec (sh_size h) (align n)); [by left|].
  rewrite (proj2 (Z.eqb_neq (align n) 0)), (proj2 (Z.eqb_neq p RT_NULL)) by (unfold RT_NULL; lia).
  rewrite (proj2 (Z.ltb_ge p (sh_ptr h))), (proj2 (Z.leb_gt (sh_end h) p)) by lia. cbn [orb].
  replace (p - SIZEOF_STRUCT_MEM) with (sh_ptr h + total l1) by lia.
  rewrite (bind_ok _ _ _ _ _ (get_mem_run _ _ _ Hm)). cbn [hdr_of hm_next].
  replace (sh_ptr h + total l1 - sh_ptr h) with (total l1) by lia.
  replace (total l1 + b_len b - total l1 - SIZEOF_STRUCT_MEM) with len by lia. rewrite (ubase_small len) by lia.
  destruct (Z.eqb_spec len (align n)) as [E|E]; [|destruct (Z.ltb_spec (align n + SIZEOF_STRUCT_MEM + MIN_SIZE) len)].
  - right. exists p, len, h. split; [done|]. split; [done|]. split; [done|]. split; [lia|]. by split.
  - right. destruct (shrink_run h l1 b l2 (align n) Hi Eb Hb) as (h' & E' & Hi' & (A1 & _) & By & Eb'); [lia|done|lia|].
    exists p, (align n), h'. rewrite (bind_ok _ _ _ _ _ E'). split; [done|]. split; [done|].
    pose proof (fun q m => live_shrink h h' l1 b l2 (align n) q m Eb Hb Eb' A1) as Hls.
    split; [apply Hls; left; by rewrite Ep|]. split; [lia|]. unfold byte_at. rewrite By. split; [done|].
    intros r m Hrm Hne. split; [|done]. apply Hls. right. apply live_elem in Hrm as (o' & c & Hin' & Hc & -> & ->).
    exists o', c. split; [|done]. rewrite Eb in Hin'. change (l1 ++ b :: l2) with (l1 ++ [b] ++ l2) in Hin'.
    destruct (proj1 (starts_replace 0 l1 b [b] l2 o' c ltac:(cbn; lia)) Hin') as [Hin2|Hin2]; [|by apply elem_of_app].
    cbn in Hin2. apply list_elem_of_singleton in Hin2 as [= -> ->]. lia.
  - destruct (grow_run h p len (align n) Hi Hlv) as [E'|(q & len' & h' & E' & Hi' & Hle & Hl' & Hb1 & Hb2)]; [lia|done|done|by left|].
    right. exists q, len', h'. split; [exact E'|]. split; [done|]. split; [apply Hl'; by left|]. split; [lia|].
    split; [intros i Hi2; apply Hb1; lia|]. intros r m Hrm Hne. split; [apply Hl'; by right|]. intros i. by apply Hb2.
Qed.

Lemma align_wraps n :
  2 ^ (8 * sizeof_ptr) - RT_ALIGN_SIZE < n < 2 ^ (8 * sizeof_ptr) -> align n = 0.
Proof.
  intros Hn. unfold align, ubase. destruct (RT_ALIGN_spec n) as [H1 H2].
  destruct align_pos as (k & Hk & E & Hp). rewrite E in *.
  assert (Hw : 0 < 2 ^ (8 * sizeof_ptr)) by (apply Z.pow_pos_nonneg; [lia|destruct cfg_ptr; lia]).
  apply Z.mod_divide; [lia|]. destruct (Z.le_gt_cases k (8 * sizeof_ptr)) as [Hle|Hgt].
  - assert (Ew : 2 ^ (8 * sizeof_ptr) = 2 ^ (8 * sizeof_ptr - k) * 2 ^ k) by (rewrite <- Z.pow_add_r by lia; f_equal; lia).
    destruct H2 as [y Hy]. rewrite Hy in *. rewrite Ew in *.
    assert (y = 2 ^ (8 * sizeof_ptr - k)) by nia. subst y. apply Z.divide_refl.
  - eapply Z.divide_trans; [|exact H2]. exists (2 ^ (k - 8 * sizeof_ptr)).
    rewrite <- Z.pow_add_r by (destruct cfg_ptr; lia). f_equal. lia.
Qed.

(** the alignment of the request wraps: a request within the alignment of
    the largest [rt_size_t] is served like one of the smallest size, so the
    caller gets a block far smaller than what it asked for. *)
Theorem malloc_request_wraps (h : small_heap) (n : Z) (Hi : heap_inv h)
    (Hn : 2 ^ (8 * sizeof_ptr) - RT_ALIGN_SIZE < n < 2 ^ (8 * sizeof_ptr)) (Hn0 : n <> 0) :
  rt_malloc n h = rt_malloc MIN_SIZE_ALIGNED h.
Proof.
  destruct Hi as [Hr _]. destruct (rp_area _ _ Hr) as [Ae At A0 _ Am Atop]. pose proof min_pos.
  assert (E2 : align MIN_SIZE_ALIGNED = MIN_SIZE_ALIGNED).
  { apply align_id; [apply sizeof_divide|]. lia. }
  unfold rt_malloc. rewrite (proj2 (Z.eqb_neq _ _) Hn0), (proj2 (Z.eqb_neq MIN_SIZE_ALIGNED 0)) by lia.
  rewrite !bind_getS, (align_wraps n Hn), E2.
  rewrite (proj2 (Z.ltb_ge (sh_size h) 0)), (proj2 (Z.ltb_ge (sh_size h) MIN_SIZE_ALIGNED)) by lia.
  by rewrite (proj2 (Z.ltb_lt 0 MIN_SIZE_ALIGNED)), Z.ltb_irrefl by lia.
Qed.

End Thm.

(** ** Instances

    A heap of 200 bytes at 1000 with 32-bit words: 176 bytes of data. *)

#[local] Existing Instance default_config.
#[local] Existing Instance default_config_ok.

Definition result {A} (m : outcome small_heap A) (h : small_heap) : small_heap :=
  match m with Ok _ h' => h' | Fault _ => h end.

Definition mem0 : small_heap := heap_start 1000 1200.
Definition mem1 : small_heap := result (rt_malloc 20 mem0) mem0.
Definition mem2 : small_heap := result (rt_malloc 40 mem1) mem1.

Lemma mem0_inv : heap_inv mem0 /\ lowest mem0.
Proof.
  destruct (heap_init_run 1000 1200) as (_ & Hr & _ & _ & Hl); [done|done|by vm_compute|].
  split; [by eapply rep_inv|]. unfold lowest, mem0. by rewrite (rep_blocks _ _ Hr), Hl.
Qed.

Lemma inv_step h n : heap_inv h -> n <> 0 -> heap_inv (result (rt_malloc n h) h).
Proof.
  intros Hi Hn. destruct (malloc_cases h n Hi Hn) as [->|(l1 & b & l2 & h' & _ & _ & _ & -> & Hi' & _)]; done.
Qed.

Lemma mem1_inv : heap_inv mem1.
Proof. apply inv_step; [apply mem0_inv|done]. Qed.

Lemma mem2_inv : heap_inv mem2.
Proof. apply inv_step; [apply mem1_inv|done]. Qed.

Lemma malloc_first_fit_witness :
  exists h', rt_malloc 20 mem0 = Ok 1012 h' /\ heap_blocks h' = [mk_blk 32 true; mk_blk 156 false].
Proof.
  pose proof (malloc_first_fit mem0 20 (proj1 mem0_inv) (proj2 mem0_inv) ltac:(discriminate)) as H.
  destruct H as (h' & E & _ & _ & Eb). exists h'. split; [exact E|exact Eb].
Defined.

Lemma malloc_safe_witness :
  heap_inv mem1 /\ exists len, 20 <= len /\ 1012 + len <= 1188.
Proof.
  destruct (malloc_safe mem0 mem1 20 1012) as (Hi & _ & len & H1 & _ & H2 & _).
  - apply mem0_inv.
  - split; [reflexivity|by vm_compute].
  - by vm_compute.
  - discriminate.
  - split; [exact Hi|]. exists len. split; [exact H1|exact H2].
Defined.

Lemma free_merges_witness :
  exists h', rt_free 1012 mem1 = Ok tt h' /\ heap_blocks h' = [mk_blk 188 false].
Proof.
  pose proof (free_merges mem1 0 (mk_blk 32 true) mem1_inv) as H. cbn [b_used] in H.
  destruct H as (h' & E & _ & _ & Eb & _).
  - assert (E : starts 0 (heap_blocks mem1) = [(0, mk_blk 32 true); (32, mk_blk 156 false)]) by by vm_compute.
    rewrite E. apply list_elem_of_here.
  - exists h'. split; [exact E|]. rewrite Eb. by vm_compute.
Defined.

Lemma malloc_free_roundtrip_witness :
  exists h2, rt_free 1044 (result (rt_malloc 8 mem1) mem1) = Ok tt h2 /\ heap_blocks h2 = heap_blocks mem1.
Proof.
  destruct (malloc_free_roundtrip mem1 (result (rt_malloc 8 mem1) mem1) 8 1044) as (h2 & E & _ & Eb).
  - apply mem1_inv.
  - discriminate.
  - by vm_compute.
  - discriminate.
  - exists h2. split; [exact E|exact Eb].
Defined.

Lemma realloc_keeps_witness :
  exists q len' h', rt_realloc 1012 100 mem1 = Ok q h' /\ heap_inv h' /\ (q, len') ∈ live_blocks h' /\ 100 <= len'.
Proof.
  destruct (realloc_keeps mem1 1012 20 100) as [E|(q & len' & h' & E & Hi & Hq & Hle & _)].
  - apply mem1_inv.
  - assert (E : live_blocks mem1 = [(1012, 20)]) by by vm_compute. rewrite E. apply list_elem_of_here.
  - split; [reflexivity|by vm_compute].
  - exfalso. revert E. vm_compute. discriminate.
  - exists q, len', h'. split; [exact E|]. split; [exact Hi|]. split; [exact Hq|exact Hle].
Defined.

Lemma malloc_request_wraps_witness :
  exists h', rt_malloc 0xffffffff mem0 = Ok 1012 h' /\ heap_blocks h' = [mk_blk 24 true; mk_blk 164 false].
Proof.
  exists (result (rt_malloc 12 mem0) mem0). rewrite (malloc_request_wraps mem0 0xffffffff (proj1 mem0_inv)).
  - split; by vm_compute.
  - split; by vm_compute.
  - discriminate.
Defined.

(** ** Behaviour at the limits *)

(** The search stops below [mem_size_aligned - size]: the one free block of a
    new heap is refused to the request that fits it exactly. *)
Lemma malloc_exact_end :
  heap_blocks mem0 = [mk_blk (176 + SIZEOF_STRUCT_MEM) false] /\ rt_malloc 176 mem0 = Ok RT_NULL mem0.
Proof. split; by vm_compute. Qed.

(** Shrinking a block in front of [lfree] leaves [lfree] above the new hole,
    so a request that fits the hole is refused. *)
Definition mem3 : small_heap := result (rt_malloc 60 mem0) mem0.
Definition mem4 : small_heap := result (rt_malloc 20 mem3) mem3.
Definition mem5 : small_heap := result (rt_realloc 1012 8 mem4) mem4.
Definition mem6 : small_heap := result (rt_malloc 40 mem5) mem5.

Lemma realloc_lfree :
  heap_blocks mem5 = [mk_blk 20 true; mk_blk 52 false; mk_blk 32 true; mk_blk 84 false] /\
  heap_blocks mem6 = [mk_blk 20 true; mk_blk 52 false; mk_blk 32 true; mk_blk 52 true; mk_blk 32 false] /\
  sh_lfree mem6 = sh_ptr mem6 + 156 /\ low (heap_blocks mem6) = 20 /\
  rt_malloc 40 mem6 = Ok RT_NULL mem6.
Proof. split; [by vm_compute|]. split; [by vm_compute|]. split; [by vm_compute|]. split; by vm_compute. Qed.

(** The product of [rt_calloc] wraps as well. *)
Lemma calloc_wraps :
  exists h', rt_calloc 0x40000001 4 mem0 = Ok 1012 h' /\ live_blocks h' = [(1012, 12)].
Proof. eexists. split; by vm_compute. Qed.

(** A heap smaller than the smallest block: the limit of the search wraps and
    its loop does not end. *)
Definition tiny : small_heap := heap_start 1000 1032.

Lemma tiny_end fuel : malloc_search fuel 12 20 tiny = Fault OutOfFuel.
Proof. induction fuel as [|fuel IH]; [done|]. cbn [malloc_search]. exact IH. Qed.

Lemma malloc_tiny fuel : malloc_search fuel 12 0 tiny = Fault OutOfFuel.
Proof. destruct fuel as [|fuel]; [done|]. cbn [malloc_search]. exact (tiny_end fuel). Qed.
