(* ===== verification/KHeap.v ===== *)
(** * Aligned blocks and copies of strings (src/kservice.c)

    [rt_malloc_align], [rt_free_align] and [rt_strdup] on the heap of Mem.v. *)

From S2P Require Import Prelude KString Mem MemInv MemSpec MemThm MemRealloc.

Section KHeap.
Context {CF : Config}.

(** A pointer in the memory of the heap. *)
Fixpoint write_word (n : nat) (p v : Z) (b : gmap Z Z) : gmap Z Z :=
  match n with
  | O => b
  | S n => write_word n (p + 1) (v / 256) (<[p := v mod 256]> b)
  end.
Fixpoint read_word (n : nat) (p : Z) (b : gmap Z Z) : Z :=
  match n with
  | O => 0
  | S n => default 0 (b !! p) + 256 * read_word n (p + 1) b
  end.

Definition rt_malloc_align (size align : Z) : Mh Z :=
  let align := ubase (RT_ALIGN align sizeof_ptr) in
  let align_size := ubase (ubase (RT_ALIGN size sizeof_ptr) + align) in
  ptr ← rt_malloc align_size;
  if negb (ptr =? RT_NULL) then
    let align_ptr := if Z.land ptr (align - 1) =? 0 then ubase (ptr + align) else ubase (RT_ALIGN ptr align) in
    modify (fun h => put_bytes (write_word (Z.to_nat sizeof_ptr) (align_ptr - sizeof_ptr) ptr (sh_bytes h)) h);;
    mret align_ptr
  else mret ptr.

Definition rt_free_align (ptr : Z) : Mh unit :=
  h ← getS; rt_free (read_word (Z.to_nat sizeof_ptr) (ptr - sizeof_ptr) (sh_bytes h)).

Definition rt_strdup (s : Z) : Mh Z :=
  n ← zoom sh_bytes put_bytes (rt_strlen s);
  let len := ubase (n + 1) in
  tmp ← rt_malloc len;
  if tmp =? RT_NULL then mret RT_NULL
  else
    modify (fun h => put_bytes (copy_bytes (Z.to_nat len) tmp s (sh_bytes h)) h);;
    mret tmp.

End KHeap.

(** ** Words in memory *)

Lemma write_word_below n : forall p v b i, i < p -> write_word n p v b !! i = b !! i.
Proof.
  induction n as [|n IH]; intros p v b i Hi; cbn [write_word]; [done|]. rewrite IH by lia. by rewrite lookup_insert_ne by lia.
Qed.

Lemma read_write_word n : forall p v b bs, (forall i, p <= i < p + Z.of_nat n -> bs !! i = write_word n p v b !! i) ->
  read_word n p bs = v mod 256 ^ Z.of_nat n.
Proof.
  induction n as [|n IH]; intros p v b bs H; cbn [read_word write_word] in *; [by rewrite Z.mod_1_r|].
  rewrite (H p), write_word_below, lookup_insert_eq by lia. cbn [default]. rewrite (IH (p + 1) (v / 256) (<[p := v mod 256]> b)).
  - rewrite Nat2Z.inj_succ, Z.pow_succ_r by lia. by rewrite Z.rem_mul_r by lia.
  - intros i Hi. apply H. lia.
Qed.

Section Laws.
Context `{CO : ConfigOk}.

(** ** Alignment *)

Lemma ptr_pow : exists j, 0 <= j /\ sizeof_ptr = 2 ^ j.
Proof. destruct cfg_ptr as [-> | ->]; [by exists 2|by exists 3]. Qed.

Lemma align_up n j : 0 <= j -> n <= RT_ALIGN n (2 ^ j) < n + 2 ^ j /\ (2 ^ j | RT_ALIGN n (2 ^ j)).
Proof.
  intros Hj. pose proof (Z.pow_pos_nonneg 2 j). rewrite align_div by done. pose proof (Z.div_mod (n + 2 ^ j - 1) (2 ^ j)).
  pose proof (Z.mod_pos_bound (n + 2 ^ j - 1) (2 ^ j)). split; [lia|]. apply Z.divide_factor_r.
Qed.

Lemma pow_divide a b : 0 <= a <= b -> (2 ^ a | 2 ^ b).
Proof. intros H. exists (2 ^ (b - a)). rewrite <- Z.pow_add_r by lia. f_equal. lia. Qed.

(** The alignment in use: the one asked for, at least that of a pointer. *)
Lemma align_pow k : 0 <= k -> exists K, 0 <= K /\ RT_ALIGN (2 ^ k) sizeof_ptr = 2 ^ K /\ (2 ^ k | 2 ^ K) /\ (sizeof_ptr | 2 ^ K) /\ 2 ^ K <= 2 ^ k + sizeof_ptr.
Proof.
  intros Hk. destruct ptr_pow as (j & Hj & ->). pose proof (Z.pow_pos_nonneg 2 j). pose proof (Z.pow_pos_nonneg 2 k).
  destruct (align_up (2 ^ k) j Hj) as [Hr [x Hx]]. destruct (Z.le_gt_cases j k).
  - exists k. split; [done|]. split; [|split; [done|split; [by apply pow_divide|lia]]].
    destruct (pow_divide j k) as [y Hy]; [lia|]. rewrite Hx, Hy in *. assert (x = y) by nia. by subst.
  - exists j. split; [done|]. assert (2 ^ k < 2 ^ j) by (apply Z.pow_lt_mono_r; lia).
    split; [|split; [apply pow_divide; lia|split; [done|lia]]]. rewrite Hx in *. assert (x = 1) by nia. subst. lia.
Qed.

(** The aligned address behind a block address, with room for a pointer. *)
Lemma aligned_ptr p K : 0 <= K -> (sizeof_ptr | 2 ^ K) -> (sizeof_ptr | p) ->
  let q := if Z.land p (2 ^ K - 1) =? 0 then p + 2 ^ K else RT_ALIGN p (2 ^ K) in
  (2 ^ K | q) /\ p + sizeof_ptr <= q <= p + 2 ^ K.
Proof.
  intros HK HdK Hdp. pose proof (Z.pow_pos_nonneg 2 K). assert (0 < sizeof_ptr) by (destruct cfg_ptr; lia).
  replace (2 ^ K - 1) with (Z.ones K) by (rewrite Z.ones_equiv; lia). rewrite Z.land_ones by done. cbn zeta.
  assert (Hle : sizeof_ptr <= 2 ^ K) by (apply Z.divide_pos_le; [lia|done]).
  destruct (Z.eqb_spec (p mod 2 ^ K) 0) as [E|E].
  - split; [|lia]. apply Z.divide_add_r; [by apply Z.mod_divide; [lia|]|done].
  - destruct (align_up p K HK) as [Hr Hd]. split; [done|]. split; [|lia].
    assert (Hne : RT_ALIGN p (2 ^ K) <> p) by (intros Eq; apply E, Z.mod_divide; [lia|]; by rewrite <- Eq).
    assert (Hs : (sizeof_ptr | RT_ALIGN p (2 ^ K) - p)) by (apply Z.divide_sub_r; [by apply Z.divide_trans with (2 ^ K)|done]).
    apply Z.divide_pos_le in Hs; lia.
Qed.

Lemma malloc_result h n : heap_inv h -> n <> 0 -> rt_malloc n h = Ok RT_NULL h \/ exists p h', 0 < p /\ rt_malloc n h = Ok p h'.
Proof.
  intros Hi Hn. destruct (malloc_cases h n Hi Hn) as [E|(l1 & b & l2 & h' & Eb & _ & _ & E & _)]; [by left|]. right.
  eexists _, h'. split; [|exact E]. destruct Hi as [Hr _]. rewrite Eb in Hr. pose proof (rp_area _ _ Hr) as [_ _ A0 _ _ _]. pose proof min_pos.
  destruct (rep_split_lens h l1 [b] l2 Hr) as (T1 & _). lia.
Qed.

(** ** Theorems *)

(** C28: [rt_malloc_align] hands out aligned blocks, and [rt_free_align] takes
    them back.  For an alignment that is a power of two, on a heap whose blocks
    are aligned to pointers, the call returns [RT_NULL] and changes nothing, or an
    address that has the alignment and lies in a block of [rt_malloc], which
    overlaps no other block, with the requested size behind it and a word in
    front of it.  Whatever the caller writes elsewhere, as long as it leaves that
    word alone, [rt_free_align] then restores the blocks of the heap. *)
Theorem malloc_align_correct (h : small_heap) (size k : Z) (Hi : heap_inv h) (Hk : 0 <= k) (Hs : 0 <= size)
    (Hal : (sizeof_ptr | RT_ALIGN_SIZE)) (Hfit : size + 2 ^ k + 2 * sizeof_ptr + RT_ALIGN_SIZE <= 2 ^ (8 * sizeof_ptr)) :
  rt_malloc_align size (2 ^ k) h = Ok RT_NULL h \/
  exists q h', rt_malloc_align size (2 ^ k) h = Ok q h' /\ heap_inv h' /\ (2 ^ k | q) /\
    (exists p len, p + sizeof_ptr <= q /\ q + size <= p + len /\
       (forall r m, (r, m) ∈ live_blocks h -> r + m <= p \/ p + len <= r) /\
       (forall r m, (r, m) ∈ live_blocks h' <-> (r, m) = (p, len) \/ (r, m) ∈ live_blocks h)) /\
    (forall bs, (forall i, q - sizeof_ptr <= i < q -> bs !! i = sh_bytes h' !! i) ->
       exists h2, rt_free_align q (put_bytes bs h') = Ok tt h2 /\ heap_inv h2 /\ heap_blocks h2 = heap_blocks h).
Proof.
  assert (Hp0 : 0 < sizeof_ptr /\ 0 < RT_ALIGN_SIZE) by (destruct align_pos as (? & ? & -> & ?); destruct cfg_ptr; lia).
  destruct (align_pow k Hk) as (K & HK & EK & Hkd & Hpd & HKle). pose proof (Z.pow_pos_nonneg 2 K). pose proof (Z.pow_pos_nonneg 2 k).
  unfold rt_malloc_align. rewrite EK. rewrite (ubase_small (2 ^ K)) by lia.
  assert (Hsz : size <= RT_ALIGN size sizeof_ptr < size + sizeof_ptr) by (destruct ptr_pow as (j & Hj & ->); by apply align_up).
  rewrite (ubase_small (RT_ALIGN size sizeof_ptr)) by lia. set (n := RT_ALIGN size sizeof_ptr + 2 ^ K). rewrite (ubase_small n) by lia. cbn zeta.
  destruct (malloc_result h n Hi ltac:(lia)) as [E|(p & h1 & Hp & E)]; rewrite (bind_ok _ _ _ _ _ E); [by left|]. right.
  destruct (malloc_area h h1 n p Hi ltac:(lia) E ltac:(unfold RT_NULL; lia)) as (Hi1 & Hpd1 & len & Hlen & Hlo & Hhi & Hdj & Hlv).
  destruct (Z.eqb_spec p RT_NULL); [unfold RT_NULL in *; lia|]. cbn [negb].
  destruct (aligned_ptr p K HK Hpd ltac:(by apply Z.divide_trans with RT_ALIGN_SIZE)) as [Hq1 Hq2].
  set (q := if Z.land p (2 ^ K - 1) =? 0 then p + 2 ^ K else RT_ALIGN p (2 ^ K)) in *.
  pose proof (ar_top _ _ (rp_area _ _ (proj1 Hi))) as Htop. pose proof min_pos.
  assert (Eq : (if Z.land p (2 ^ K - 1) =? 0 then ubase (p + 2 ^ K) else ubase (RT_ALIGN p (2 ^ K))) = q).
  { subst q. destruct (Z.land p (2 ^ K - 1) =? 0); apply ubase_small; lia. }
  rewrite Eq, bind_modify. set (bs1 := write_word (Z.to_nat sizeof_ptr) (q - sizeof_ptr) p (sh_bytes h1)).
  destruct (inv_put_bytes bs1 h1 Hi1) as [Hi2 _]. exists q, (put_bytes bs1 h1). split; [done|]. split; [done|].
  split; [by apply Z.divide_trans with (2 ^ K)|]. split.
  - exists p, len. split; [lia|]. split; [lia|]. split; [done|]. intros r m. by rewrite (live_put_bytes _ _ Hi1).
  - intros bs Hbs. unfold rt_free_align. rewrite bind_getS. cbn [sh_bytes put_bytes].
    assert (Ew : read_word (Z.to_nat sizeof_ptr) (q - sizeof_ptr) bs = p).
    { rewrite (read_write_word _ _ p (sh_bytes h1)); [|intros i Hir; apply Hbs; lia]. rewrite Z.mod_small; [done|].
      split; [lia|]. replace (256 ^ Z.of_nat (Z.to_nat sizeof_ptr)) with (2 ^ (8 * sizeof_ptr)) by (destruct cfg_ptr as [-> | ->]; done). lia. }
    rewrite Ew. apply (free_restores bs h h1 n p Hi ltac:(lia) E). unfold RT_NULL. lia.
Qed.

(** [rt_strdup] of a string that lies in a block in use or outside the heap
    returns a block of its own with a copy, or [RT_NULL]. *)
Theorem strdup_copies (h : small_heap) (s : Z) (t : list Z) (Hi : heap_inv h) (Ht : cstring s t (sh_bytes h))
    (Hfit : Z.of_nat (length t) + 1 <= 2 ^ (8 * sizeof_ptr) - RT_ALIGN_SIZE)
    (Hsrc : (exists r m, (r, m) ∈ live_blocks h /\ r <= s /\ s + Z.of_nat (length t) + 1 <= r + m) \/
            s + Z.of_nat (length t) + 1 <= sh_ptr h \/ sh_end h <= s) :
  rt_strdup s h = Ok RT_NULL h \/
  exists q len h', rt_strdup s h = Ok q h' /\ heap_inv h' /\ Z.of_nat (length t) < len /\
    (forall r m, (r, m) ∈ live_blocks h' <-> (r, m) = (q, len) \/ (r, m) ∈ live_blocks h) /\
    (forall i x, (t ++ [0]) !! i = Some x -> byte_at (q + Z.of_nat i) h' = x).
Proof.
  assert (Hp0 : 0 < RT_ALIGN_SIZE) by (by destruct align_pos as (? & ? & -> & ?)). set (n := Z.of_nat (length t) + 1) in *.
  assert (Ez : zoom sh_bytes put_bytes (rt_strlen s) h = Ok (Z.of_nat (length t)) h).
  { unfold zoom. rewrite (rt_strlen_run _ _ _ Ht). by destruct h. }
  unfold rt_strdup. rewrite (bind_ok _ _ _ _ _ Ez). fold n. rewrite ubase_small by lia. cbn zeta.
  destruct (malloc_result h n Hi ltac:(lia)) as [E|(q & h1 & Hp & E)]; rewrite (bind_ok _ _ _ _ _ E); [by left|]. right.
  destruct (malloc_area h h1 n q Hi ltac:(lia) E ltac:(unfold RT_NULL; lia)) as (Hi1 & _ & len & Hlen & Hlo & Hhi & Hdj & Hlv).
  destruct (Z.eqb_spec q RT_NULL); [unfold RT_NULL in *; lia|]. rewrite bind_modify.
  set (bs := copy_bytes (Z.to_nat n) q s (sh_bytes h1)). destruct (inv_put_bytes bs h1 Hi1) as [Hi2 _].
  exists q, len, (put_bytes bs h1). split; [done|]. split; [done|]. split; [lia|]. split; [intros r m; by rewrite (live_put_bytes _ _ Hi1)|].
  assert (Hb : sh_bytes h1 = sh_bytes h).
  { destruct (malloc_cases h n Hi ltac:(lia)) as [E'|(? & ? & ? & h' & _ & _ & _ & E' & _ & Hst)]; rewrite E in E'; injection E' as Eq Eh; [by rewrite Eh|].
    rewrite Eh. by rewrite (sp_bytes _ _ _ _ Hst). }
  intros i x Hx. pose proof (lookup_lt_Some _ _ _ Hx) as Hil. rewrite length_app in Hil. cbn in Hil.
  unfold byte_at. cbn [sh_bytes put_bytes]. subst bs. rewrite copy_bytes_spec, Hb.
  - rewrite (proj2 (Z.leb_le _ _)), (proj2 (Z.ltb_lt _ _)) by lia. cbn [andb]. replace (s + (q + Z.of_nat i - q)) with (s + Z.of_nat i) by lia.
    by rewrite (proj1 Ht i x Hx).
  - rewrite Z2Nat.id by lia. destruct Hsrc as [(r & m & Hin & H1 & H2)|H]; [specialize (Hdj r m Hin)|]; lia.
Qed.

End Laws.

(** ** Examples *)

#[local] Existing Instances default_config default_config_ok.

(** A block of 20 bytes, aligned to 16. *)
Lemma malloc_align_correct_witness : exists q h', rt_malloc_align 20 (2 ^ 4) mem0 = Ok q h' /\ (2 ^ 4 | q) /\
  exists h2, rt_free_align q h' = Ok tt h2 /\ heap_blocks h2 = heap_blocks mem0.
Proof.
  destruct (malloc_align_correct mem0 20 4) as [E|(q & h' & E & _ & Hd & _ & Hf)].
  - apply mem0_inv.
  - lia.
  - lia.
  - by exists 1.
  - cbn. lia.
  - exfalso. revert E. vm_compute. discriminate.
  - exists q, h'. split; [exact E|]. split; [exact Hd|]. destruct (Hf (sh_bytes h')) as (h2 & E2 & _ & Eb); [reflexivity|].
    exists h2. split; [|exact Eb]. rewrite <- E2. by destruct h'.
Defined.

(** On a 64-bit machine whose blocks are aligned to four bytes the word in front
    of the aligned block is not inside the block: it overlaps the header. *)
Example malloc_align_header :
  let cf := {| RT_THREAD_PRIORITY_MAX := 32; RT_NAME_MAX := 8; RT_TICK_PER_SECOND := 100; RT_ALIGN_SIZE := 4;
    RT_TIMER_SKIP_LIST_LEVEL := 1; RT_TIMER_SKIP_LIST_MASK := 3; sizeof_ptr := 8; object_size := fun _ => 128 |} in
  let h := heap_start (C := cf) 1004 1400 in
  match rt_malloc (CF := cf) 32 h, rt_malloc_align (CF := cf) 20 8 h with
  | Ok p _, Ok q h' => p = 1028 /\ q = 1032 /\ is_Some (sh_bytes h' !! (p - 4))
  | _, _ => False
  end.
Proof. vm_compute. eauto. Qed.
