(* ===== verification/SchedThm.v ===== *)
(** * The scheduler: theorems

    The properties of src/scheduler.c, instantiated on the system of Demo. *)

From S2P Require Import Prelude Scheduler ReadyBitmap SchedInv SchedSpec Kernel KernelInv BlockInv.
From S2P Require Import Demo.

Section Thm.
Context `{CO : ConfigOk}.

(** C2: [rt_schedule], which searches the two-level ready bitmap with
    [__rt_ffs] and updates it incrementally, never faults on a well-formed
    scheduler with a running thread, keeps it well formed, and leads to the
    running thread and the queues that the reference scheduler [abs_schedule]
    computes by scanning the ready queues in priority order. *)
Theorem schedule_refines (s : sched) (Hw : swf ∅ s) (Hc : sc_current s <> RT_NULL)
    (Hl : sc_lock_nest s = 0) :
  exists s', rt_schedule s = Ok tt s' /\ swf ∅ s' /\ sched_frame s s' /\
    (sc_current s', sc_lists s') = abs_schedule s.
Proof. exact (schedule_run s Hw Hc Hl). Qed.

(** C4: after [rt_schedule], when some thread is ready, the running thread is
    ready and no ready thread has a higher priority (a lower priority
    number). *)
Theorem schedule_highest (s : sched) (t : Z) (th : rt_thread) (Hw : swf ∅ s)
    (Hc : sc_current s <> RT_NULL) (Hl : sc_lock_nest s = 0)
    (Ht : sc_threads s !! t = Some th) (Hr : stat_of th = RT_THREAD_READY) :
  exists s' cur, rt_schedule s = Ok tt s' /\ sc_threads s' !! sc_current s' = Some cur /\
    stat_of cur = RT_THREAD_READY /\ th_current_priority cur <= th_current_priority th.
Proof.
  destruct (schedule_run s Hw Hc Hl) as (s' & E & Hw' & (F1 & _) & Ha).
  apply (f_equal fst) in Ha. cbn in Ha.
  assert (Hn : sc_current s' <> RT_NULL) by (rewrite Ha; by apply abs_schedule_nonnull).
  destruct (sw_current _ _ Hw' Hn) as [cur Ecur]. exists s', cur.
  rewrite F1, Ha in Ecur. destruct (abs_schedule_min s cur t th Hw Hc Ecur Ht Hr).
  rewrite F1, Ha. done.
Qed.

(** among threads of the same priority the processor goes round: when the
    running thread is ready, the head [t] of the queue of its priority [p]
    runs next and the running thread joins the tail of that queue. *)
Theorem schedule_round_robin (s : sched) (cur : rt_thread) (t : Z) (rest : list Z) (Hw : swf ∅ s)
    (Hc : sc_threads s !! sc_current s = Some cur) (Hl : sc_lock_nest s = 0)
    (Hr : stat_of cur = RT_THREAD_READY) (Hq : rdy s (th_current_priority cur) = t :: rest)
    (Hp : forall q, 0 <= q < th_current_priority cur -> rdy s q = []) :
  exists s', rt_schedule s = Ok tt s' /\ sc_current s' = t /\
    rdy s' (th_current_priority cur) = rest ++ [sc_current s].
Proof.
  pose proof (sw_thread _ _ Hw _ _ Hc) as (Hn & _ & Hpr & _).
  destruct (schedule_run s Hw Hn Hl) as (s' & E & Hw' & _ & Ha). exists s'. split; [done|].
  unfold abs_schedule in Ha. rewrite Hc, Hr, Z.eqb_refl in Ha.
  assert (Et : top_ready s = Some (t, th_current_priority cur)).
  { apply (first_ready_spec _ _ _ _ _ rest); [done|lia|]. intros q Hq'. apply Hp. lia. }
  rewrite Et, Z.ltb_irrefl in Ha. injection Ha as Ec El. split; [done|].
  assert (Hne : t <> sc_current s).
  { apply (sw_running _ _ Hw (th_current_priority cur)); [rewrite Hq; set_solver|set_solver]. }
  unfold rdy at 1, lget. rewrite El, lookup_fmap, lookup_insert_eq. cbn. rewrite Hq. cbn [app].
  apply unlink_cons. pose proof (sw_nodup _ _ Hw (HReady (th_current_priority cur))) as Hnd.
  unfold rdy in Hq. rewrite Hq in Hnd. apply (NoDup_app (t :: rest)). split; [done|].
  split; [|apply NoDup_singleton]. intros x Hx ->%list_elem_of_singleton.
  apply (ready_current_unlinked s cur Hw Hc Hr (HReady (th_current_priority cur))). by rewrite Hq.
Qed.

(** ** Locking the scheduler *)

Fixpoint times {S} (n : nat) (m : M S unit) : M S unit :=
  match n with O => mret tt | Datatypes.S n => m;; times n m end.

Lemma i16_small x : - 32768 <= x < 32768 -> i16 x = x.
Proof. intros. unfold i16. rewrite Z.mod_small; lia. Qed.

Lemma put_lock_lock a b s : put_lock a (put_lock b s) = put_lock a s.
Proof. done. Qed.

Lemma enter_times n s :
  0 <= sc_lock_nest s -> sc_lock_nest s + Z.of_nat n < 32768 ->
  times n rt_enter_critical s = Ok tt (put_lock (sc_lock_nest s + Z.of_nat n) s).
Proof.
  revert s. induction n as [|n IH]; intros s H0 Hn.
  - cbn. rewrite Z.add_0_r. by destruct s.
  - cbn [times]. erewrite bind_ok by reflexivity. rewrite i16_small by lia.
    rewrite IH by (cbn; lia). cbn [sc_lock_nest put_lock]. rewrite put_lock_lock. do 2 f_equal. lia.
Qed.

Lemma exit_times n s :
  Z.of_nat n < 32767 -> sc_lock_nest s = Z.of_nat n + 1 ->
  times n rt_exit_critical s = Ok tt (put_lock 1 s).
Proof.
  revert s. induction n as [|n IH]; intros s Hn H0.
  - cbn in *. destruct s; cbn in *. by subst.
  - cbn [times].
    assert (E : rt_exit_critical s = Ok tt (put_lock (sc_lock_nest s - 1) s)).
    { unfold rt_exit_critical. rewrite bind_modify, bind_gets, i16_small by lia.
      cbn [sc_lock_nest put_lock]. by destruct (Z.leb_spec (sc_lock_nest s - 1) 0); [lia|]. }
    rewrite (bind_ok _ _ _ _ _ E). rewrite IH by (cbn; lia). by rewrite put_lock_lock.
Qed.

(** critical sections nest: after [n] calls of [rt_enter_critical]
    (up to the 32767 the counter can hold) [rt_schedule] changes nothing, and
    [n] calls of [rt_exit_critical] unlock the scheduler and do exactly what
    one [rt_schedule] would have done before the section. *)
Theorem critical_nesting (s : sched) (n : nat) (Hl : sc_lock_nest s = 0)
    (Hn : (0 < n)%nat /\ Z.of_nat n < 32768) :
  let locked := put_lock (Z.of_nat n) s in
  times n rt_enter_critical s = Ok tt locked /\
  rt_schedule locked = Ok tt locked /\
  times n rt_exit_critical locked = rt_schedule s.
Proof.
  cbv zeta. destruct n as [|n]; [lia|]. split_and!.
  - rewrite enter_times by lia. by rewrite Hl.
  - unfold rt_schedule. rewrite bind_getS. cbn [sc_lock_nest put_lock].
    by destruct (Z.eqb_spec (Z.of_nat (S n)) 0); [lia|].
  - replace (S n) with (n + 1)%nat at 1 by lia.
    assert (Et : forall (m : M sched unit) s, times (n + 1) m s = (times n m;; m) s).
    { intros m. clear. induction n as [|n IH]; intros s; cbn [times Nat.add].
      - rewrite bind_mret. unfold mbind, M_bind. by destruct (m s) as [[]|].
      - rewrite bind_assoc. unfold mbind at 1 2, M_bind at 1 2.
        destruct (m s) as [[] s1|]; [apply IH|done]. }
    rewrite Et. erewrite bind_ok by (apply exit_times; cbn [sc_lock_nest put_lock]; lia).
    unfold rt_exit_critical. rewrite bind_modify, bind_gets. cbn [sc_lock_nest put_lock i16].
    change (i16 (1 - 1) <=? 0) with true. cbn [when]. rewrite bind_modify, !put_lock_lock.
    destruct s; cbn in *. by subst.
Qed.

End Thm.

(** ** Instances *)

#[local] Existing Instance default_config.
#[local] Existing Instance bump_heap.
#[local] Existing Instance bump_heap_ok.

Lemma schedule_refines_witness :
  exists s', rt_schedule (k_sched demo) = Ok tt s' /\ swf ∅ s' /\ sched_frame (k_sched demo) s' /\
    (sc_current s', sc_lists s') = abs_schedule (k_sched demo).
Proof.
  apply (schedule_refines (k_sched demo)); [apply (kw_sched _ demo_kwf)|by vm_compute..].
Defined.

Lemma schedule_highest_witness :
  exists s' cur, rt_schedule (k_sched demo) = Ok tt s' /\ sc_threads s' !! sc_current s' = Some cur /\
    stat_of cur = RT_THREAD_READY /\ th_current_priority cur <= 10.
Proof.
  apply (schedule_highest (k_sched demo) t_low (thread_of demo t_low));
    [apply (kw_sched _ demo_kwf)|by vm_compute..].
Defined.

Lemma critical_nesting_witness :
  times 3 rt_exit_critical (put_lock 3 (k_sched demo)) = rt_schedule (k_sched demo).
Proof. apply (critical_nesting (k_sched demo) 3); [by vm_compute|lia]. Defined.

Lemma schedule_round_robin_witness :
  exists s', rt_schedule (k_sched demo_peer) = Ok tt s' /\ sc_current s' = t_high /\
    rdy s' 5 = [t_peer].
Proof.
  apply (schedule_round_robin (k_sched demo_peer) (thread_of demo_peer t_peer) t_high []);
    [apply (kw_sched _ demo_peer_kwf)|by vm_compute..|].
  intros q Hq. change (th_current_priority (thread_of demo_peer t_peer)) with 5 in Hq.
  assert (q = 0 \/ q = 1 \/ q = 2 \/ q = 3 \/ q = 4) as [->|[->|[->|[->| ->]]]] by lia; by vm_compute.
Defined.
