(* ===== verification/TimerThm.v ===== *)
(** * Timers: theorems

    The properties of src/timer.c and src/clock.c, instantiated on the system
    of Demo with a timer of the application. *)

From S2P Require Import Prelude Scheduler SchedInv SchedSpec Object ObjInv Timer TimerInv Kernel.
From S2P Require Import Thread Clock KernelInv ThreadInv IpcInv ClockInv Boot Demo.

Section Thm.
Context `{CO : ConfigOk} {HP : Heap} {HO : HeapOk HP}.

Lemma timeout_due tick init :
  0 <= init < RT_TICK_MAX / 2 -> u32 (u32 (tick + init) - tick) = init.
Proof.
  intros H. change (RT_TICK_MAX / 2) with 2147483647 in H. unfold u32.
  rewrite Zminus_mod_idemp_l. replace (tick + init - tick) with init by lia.
  apply Z.mod_small. lia.
Qed.

(** C31: on a kernel whose running timers are in expiry order,
    [rt_timer_start] puts the timer exactly where a linear search of the
    ordered list would put it, behind every timer that expires no later,
    although it searches the rows of the skip list; the timer is active and
    due [init_tick] ticks from now, the order and the nesting of the rows are
    kept, no other timer changes, and the kernel stays well formed when the
    timer is one of the application. *)
Theorem timer_start_sorted (k : kstate) (a : addr) (tm : rt_timer) (Hk : kwf k)
    (Hty : has_type k a RT_Object_Class_Timer) (Ht : timers k !! a = Some tm) (Ho : timely k)
    (Hi : 0 <= tm_init_tick tm < RT_TICK_MAX / 2) :
  let tick := ts_tick (k_ts k) in
  exists ts', rt_timer_start a k = Ok RT_EOK (put_ts ts' k) /\ twf ts' /\ ordered tick ts' /\
    ts_tick ts' = tick /\
    last_row ts' = ins_due tick (k_ts k) (tm_init_tick tm) a (without a (running k)) /\
    ts_timers ts' = <[a := timer_started (u32 (tick + tm_init_tick tm)) tm]> (timers k) /\
    forall p, a = AObj p -> kwf (put_ts ts' k).
Proof.
  intros tick. destruct (timer_start_run (k_ts k) a tm)
    as (ts' & pre & suf & E & Hw & Et & Etk & Hcut & Hrow & Hst & Hpp); [apply Hk|done|lia|].
  exists ts'. split; [by eapply timer_start_k; [|apply (has_type_nonnull _ _ _ Hk Hty)|]|].
  pose proof (timeout_due tick (tm_init_tick tm) Hi) as Hd.
  destruct (ordered_start tick (k_ts k) ts' a tm (u32 (tick + tm_init_tick tm)) pre suf)
    as (O1 & O2 & O3 & _); [done..|by rewrite Hd; apply Hi|].
  rewrite Hd in O3. split_and!; try done. intros p ->. by eapply user_start_kwf.
Qed.

(** [rt_timer_stop] of a running timer takes it out of every row and
    clears its active flag, leaving the other timers and their order alone;
    stopping a timer that is not active is an error and changes nothing. *)
Theorem timer_stop_effect (k : kstate) (a : addr) (tm : rt_timer) (Hk : kwf k)
    (Hty : has_type k a RT_Object_Class_Timer) (Ht : timers k !! a = Some tm) :
  (activated tm = true -> exists ts', rt_timer_stop a k = Ok RT_EOK (put_ts ts' k) /\ twf ts' /\
     ts_rows ts' = without a <$> ts_rows (k_ts k) /\
     ts_timers ts' = <[a := deactivate tm]> (timers k)) /\
  (activated tm = false -> rt_timer_stop a k = Ok (- RT_ERROR) k).
Proof.
  pose proof (has_type_nonnull _ _ _ Hk Hty) as Hn.
  assert (E : rt_timer_stop a k = liftT (timer_stop a) k).
  { unfold rt_timer_stop. rewrite bind_assert by (unfold is_null; by rewrite bool_decide_false).
    by rewrite (bind_ok _ _ _ _ _ (assert_type_run _ _ _ Hk Hty)). }
  rewrite E. unfold timer_stop. split; intros Ha.
  - eexists. split; [|split; [|split]].
    + apply liftT_run. rewrite (bind_ok _ _ _ _ _ (get_timer_run _ _ _ Ht)), Ha. cbn [negb].
      rewrite (bind_ok _ _ _ _ _ (timer_remove_run _ _ _ Ht)).
      erewrite bind_ok by (apply upd_timer_run; exact Ht). done.
    + apply twf_put, twf_remove, Hk.
    + done.
    + done.
  - erewrite liftT_run; [by rewrite put_ts_id|].
    by rewrite (bind_ok _ _ _ _ _ (get_timer_run _ _ _ Ht)), Ha.
Qed.



(** round robin: the tick that exhausts the time slice of the running
    thread gives it a new slice of [init_tick] ticks and reschedules; any
    other tick only takes one from the slice and the thread keeps running. *)
Theorem time_slice_yield (k : kstate) (t : Z) (th : rt_thread) (Hk : kwf k)
    (Hc : t = sc_current (k_sched k)) (Ht : threads k !! t = Some th) :
  exists s', time_slice t k = Ok tt (put_sched s' k) /\ kwf (put_sched s' k) /\
    sc_threads s' = <[t := slice_step th]> (threads k) /\
    (ubase (th_remaining_tick th - 1) <> 0 -> sc_current s' = t) /\
    (ubase (th_remaining_tick th - 1) = 0 ->
       rescheduled (put_thread t (slice_step th) (k_sched k)) s').
Proof.
  destruct (slice_run k t th Hk Hc Ht) as (s' & E & Hk' & _ & H1 & H2 & H3).
  exists s'. split_and!; done.
Qed.

(** [rt_thread_timeout] of a suspended thread takes it off the list it
    waits in, sets its error number to [-RT_ETIMEOUT], makes it ready and
    reschedules, so that it runs at once when it has the highest priority. *)
Theorem thread_timeout_wakes (k : kstate) (t : Z) (th : rt_thread) (Hk : kwf k)
    (Ht : threads k !! t = Some th) (Hs : stat_of th = RT_THREAD_SUSPEND)
    (Hr : ATimer t ∉ running k) (Hc : sc_current (k_sched k) <> RT_NULL) :
  exists s', rt_thread_timeout t k = Ok tt (put_sched s' (k_timeout t th k)) /\
    kwf (put_sched s' (k_timeout t th k)) /\ rescheduled (k_sched (k_timeout t th k)) s' /\
    sc_threads s' !! t = Some (set_stat RT_THREAD_READY (set_error (- RT_ETIMEOUT) th)) /\
    forall h, is_wait h -> t ∉ lget s' h.
Proof.
  destruct (thread_timeout_run k t th Hk Ht Hs Hr Hc) as (s' & E & Hk' & Hk1 & Hres).
  exists s'. split; [done|]. split; [done|]. split; [done|].
  assert (Et : sc_threads s' !! t = Some (set_stat RT_THREAD_READY (set_error (- RT_ETIMEOUT) th))).
  { pose proof Hres as ((-> & _) & _). unfold k_timeout, k_ready. cbn [k_sched put_sched].
    rewrite (proj2 (proj2 (proj2 (sched_insert_frame t _ _)))). apply lookup_insert_eq. }
  split; [done|]. intros h Hh Hin.
  pose proof (sw_stat _ _ (kw_sched _ Hk') h t _ Hin Et ltac:(set_solver)) as Hst.
  rewrite stat_of_set in Hst by done. by rewrite is_wait_stat in Hst.
Qed.

End Thm.

(** ** Instances *)

#[local] Existing Instance default_config.
#[local] Existing Instance bump_heap.
#[local] Existing Instance bump_heap_ok.

(** A timeout function that does nothing. *)
Definition user_nop (f par : Z) : K unit := mret tt.

Lemma user_nop_quiet f par (k : kstate) :
  kwf k -> sc_current (k_sched k) <> RT_NULL -> exists k', user_nop f par k = Ok tt k' /\ quiet k k'.
Proof. intros Hk Hc. exists k. split; [done|]. by split. Qed.

Lemma demo_sleep_row : last_row (k_ts demo_sleep) = [ATimer t_high; AObj tm_user].
Proof. by vm_compute. Qed.

Lemma demo_sleep_timely : timely demo_sleep.
Proof.
  unfold timely, ordered. rewrite demo_sleep_row. split.
  - intros t Ht. repeat (apply elem_of_cons in Ht as [->|Ht]; [by vm_compute|]).
    by apply elem_of_nil in Ht.
  - apply SSorted_cons; [apply SSorted_cons; [apply SSorted_nil|apply Forall_nil; exact I]|].
    apply Forall_cons. split; [by vm_compute|apply Forall_nil; exact I].
Qed.

Lemma demo_sleep_timers a :
  a ∈ last_row (k_ts demo_sleep) -> timers demo_sleep !! a = Some (timer_of demo_sleep a) /\
    (forall p, a = AObj p -> tm_func (timer_of demo_sleep a) = FUser 7) /\
    (periodic (timer_of demo_sleep a) = true -> tm_init_tick (timer_of demo_sleep a) = 3).
Proof.
  rewrite demo_sleep_row. intros [->|[->|[]%elem_of_nil]%elem_of_cons]%elem_of_cons.
  - split; [by vm_compute|]. split; [by intros p|by vm_compute].
  - split; [by vm_compute|]. split; [intros p _; by vm_compute|by vm_compute].
Qed.

Lemma demo_sleep_app : app_timers 1 demo_sleep.
Proof.
  intros a tm Ha Ht. destruct (demo_sleep_timers a Ha) as (E & H1 & H2).
  rewrite E in Ht. apply (inj Some) in Ht. subst tm. clear E. split.
  - intros p Hp. exists 7. exact (H1 p Hp).
  - intros Hp. rewrite (H2 Hp). change (RT_TICK_MAX / 2) with 2147483647. lia.
Qed.

Lemma timer_start_sorted_witness :
  exists ts', rt_timer_start (AObj tm_user) demo_sleep = Ok RT_EOK (put_ts ts' demo_sleep) /\
    twf ts' /\ last_row ts' = [ATimer t_high; AObj tm_user].
Proof.
  destruct (timer_start_sorted demo_sleep (AObj tm_user) (timer_of demo_sleep (AObj tm_user)))
    as (ts' & E & Hw & _ & _ & Hr & _).
  - apply demo_sleep_kwf.
  - eexists. split; by vm_compute.
  - by vm_compute.
  - apply demo_sleep_timely.
  - by vm_compute.
  - exists ts'. split; [exact E|]. split; [exact Hw|]. rewrite Hr. by vm_compute.
Defined.

Lemma timer_stop_effect_witness :
  exists ts', rt_timer_stop (AObj tm_user) demo_sleep = Ok RT_EOK (put_ts ts' demo_sleep) /\
    ts_rows ts' = [[ATimer t_high]].
Proof.
  destruct (timer_stop_effect demo_sleep (AObj tm_user) (timer_of demo_sleep (AObj tm_user)))
    as [Hs _].
  - apply demo_sleep_kwf.
  - eexists. split; by vm_compute.
  - by vm_compute.
  - destruct Hs as (ts' & E & _ & Hr & _); [by vm_compute|].
    exists ts'. split; [exact E|]. rewrite Hr. by vm_compute.
Defined.



Lemma time_slice_yield_witness :
  exists s', time_slice t_low demo_sleep = Ok tt (put_sched s' demo_sleep) /\
    sc_current s' = t_low.
Proof.
  destruct (time_slice_yield demo_sleep t_low (thread_of demo_sleep t_low)) as (s' & E & _ & _ & Hc & _).
  - apply demo_sleep_kwf.
  - by vm_compute.
  - by vm_compute.
  - exists s'. split; [exact E|]. apply Hc. by vm_compute.
Defined.

(** The sleeping thread, its timer having been taken off the list. *)
Definition demo_woken : kstate := k_stop t_high demo_sleep.

Lemma demo_woken_kwf : kwf demo_woken.
Proof.
  apply (kwf_stop demo_sleep t_high demo_sleep_kwf).
  apply (kw_live _ demo_sleep_kwf t_high (thread_of demo_sleep t_high)); by vm_compute.
Qed.

Lemma thread_timeout_wakes_witness :
  exists s', rt_thread_timeout t_high demo_woken =
      Ok tt (put_sched s' (k_timeout t_high (thread_of demo_woken t_high) demo_woken)) /\
    forall h, is_wait h -> t_high ∉ lget s' h.
Proof.
  destruct (thread_timeout_wakes demo_woken t_high (thread_of demo_woken t_high)) as (s' & E & _ & _ & _ & Hn).
  - apply demo_woken_kwf.
  - by vm_compute.
  - by vm_compute.
  - apply (kwf_stop demo_sleep t_high demo_sleep_kwf).
    apply (kw_live _ demo_sleep_kwf t_high (thread_of demo_sleep t_high)); by vm_compute.
  - by vm_compute.
  - exists s'. split; [exact E|exact Hn].
Defined.
