(* ===== verification/SemSpec.v ===== *)
(** * What semaphores promise

    A semaphore is specified by its value and the list of its waiters
    ([sem_view]); taking, releasing and resetting are given on this view.  The
    operations of src/ipc.c are shown to run without fault on a well-formed
    kernel, to keep it well formed, and to implement the view. *)

From S2P Require Import Prelude Scheduler ReadyBitmap SchedInv SchedSpec Object ObjInv Timer TimerInv Kernel.
From S2P Require Import Thread Ipc Semaphore KernelInv ThreadInv IpcInv BlockInv ClockInv Boot Demo.

Section Spec.
Context `{CO : ConfigOk} {HP : Heap} {HO : HeapOk HP}.
Implicit Types (k : kstate).

Definition is_sem (k : kstate) (o : Z) : Prop := has_type k (AObj o) RT_Object_Class_Semaphore.

(** Value and waiters. *)
Definition sem_view (k : kstate) (o : Z) : option (Z * list Z) :=
  (fun x => (sem_value x, waiters k (HSuspend o))) <$> ip_sem (k_ipc k) !! o.

(** ** Running the record operations *)

Lemma get_sem_run k o x : ip_sem (k_ipc k) !! o = Some x -> get_sem o k = Ok x k.
Proof. intros E. unfold get_sem. by rewrite E. Qed.

Lemma set_sem_value_run k o x v :
  ip_sem (k_ipc k) !! o = Some x ->
  set_sem_value o v k = Ok tt (put_sem o (mk_sem (sem_flag x) (u16 v)) k).
Proof. intros E. unfold set_sem_value. by rewrite (bind_ok _ _ _ _ _ (get_sem_run _ _ _ E)). Qed.

Lemma kwf_put_sem k o x :
  kwf k -> 0 <= sem_value x < 65536 -> (0 < sem_value x -> waiters k (HSuspend o) = []) ->
  kwf (put_sem o x k).
Proof.
  intros Hk Hv Hw. apply kwf_ipc; [done|]. destruct (kw_ipc _ Hk) as [H1 H2 H3 H4 H5].
  split; try done.
  - intros o' Ho'. destruct (H1 o' Ho') as (Hh & x' & E & H). split; [done|]. cbn.
    destruct (decide (o' = o)) as [->|Hne].
    + exists x. rewrite lookup_insert_eq. done.
    + exists x'. by rewrite lookup_insert_ne.
  - intros o' Ho'. destruct (H2 o' Ho') as (? & x' & ? & ? & ?). split; [done|]. exists x'.
    split; [done|]. split; [by eapply mutex_ok_frame|done].
Qed.

(** A wait on the semaphore is allowed when its value is zero. *)
Lemma sem_may_wait k o x :
  is_sem k o -> ip_sem (k_ipc k) !! o = Some x -> sem_value x = 0 -> may_wait k (HSuspend o).
Proof.
  intros Ho E Hv o' [= <-]. split.
  - intros x' _ E'. congruence.
  - intros x' (ob & H1 & H2) _. destruct Ho as (ob' & H1' & H2'). exfalso.
    assert (ob = ob') as -> by congruence. rewrite H2 in H2'. discriminate.
Qed.

(** ** Take *)

Lemma sem_take_available k o x time :
  kwf k -> is_sem k o -> ip_sem (k_ipc k) !! o = Some x -> 0 < sem_value x ->
  let k' := put_sem o (mk_sem (sem_flag x) (sem_value x - 1)) k in
  rt_sem_take o time k = Ok (Return RT_EOK) k' /\ kwf k'.
Proof.
  intros Hk Ho E Hv. destruct (io_sem _ (kw_ipc _ Hk) o Ho) as (_ & x' & E' & Hr & Hw). simplify_eq.
  cbv zeta. split; [|apply kwf_put_sem; cbn; [done|lia|auto]].
  unfold rt_sem_take. rewrite check_run by done. rewrite (bind_ok _ _ _ _ _ (get_sem_run _ _ _ E)).
  destruct (Z.ltb_spec 0 (sem_value x)); [|lia].
  rewrite (bind_ok _ _ _ _ _ (set_sem_value_run _ _ _ _ E)), u16_small by lia. done.
Qed.

Lemma sem_take_try k o x :
  kwf k -> is_sem k o -> ip_sem (k_ipc k) !! o = Some x -> sem_value x = 0 ->
  rt_sem_take o 0 k = Ok (Return (- RT_ETIMEOUT)) k.
Proof.
  intros Hk Ho E Hv. unfold rt_sem_take. rewrite check_run by done.
  rewrite (bind_ok _ _ _ _ _ (get_sem_run _ _ _ E)), Hv. done.
Qed.

Lemma sem_take_block k o x t th time :
  kwf k -> is_sem k o -> ip_sem (k_ipc k) !! o = Some x -> sem_value x = 0 ->
  ipc_flag (sem_flag x) -> can_block k t th -> time <> 0 -> time < RT_TICK_MAX / 2 ->
  exists k', rt_sem_take o time k = Ok (Block t) k' /\ kwf k' /\
    blocked_on (k_put t (set_error RT_EOK th) k) (HSuspend o) t (set_error RT_EOK th)
      (sem_flag x) time k'.
Proof.
  intros Hk Ho E Hv Hf Hb Ht0 Ht.
  destruct (reset_error_run k t th Hk Hb) as (E0 & Hk0 & Hb0).
  set (k0 := k_put t (set_error RT_EOK th) k) in *.
  destruct (io_sem _ (kw_ipc _ Hk) o Ho) as (Hh & _).
  destruct (block_run k0 (HSuspend o) t (set_error RT_EOK th) (sem_flag x) time)
    as (k1 & k2 & k3 & E1 & E2 & E3 & _ & Hk3 & Hbl); try done; [by eapply sem_may_wait|].
  exists k3. split; [|done]. unfold rt_sem_take. rewrite check_run by done.
  rewrite (bind_ok _ _ _ _ _ (get_sem_run _ _ _ E)), Hv. cbn [Z.ltb Z.compare].
  apply Z.eqb_neq in Ht0. rewrite Ht0.
  rewrite (bind_ok _ _ _ _ _ (thread_context_run _ _ _ Hk Hb)).
  rewrite (bind_ok _ _ _ _ _ (k_self_run k)), <- (cb_current _ _ _ Hb).
  rewrite (bind_ok _ _ _ _ _ E0), (bind_ok _ _ _ _ _ E1), (bind_ok _ _ _ _ _ E2).
  by rewrite (bind_ok _ _ _ _ _ E3).
Qed.

(** ** Release *)

Lemma sem_release_free k o x :
  kwf k -> is_sem k o -> ip_sem (k_ipc k) !! o = Some x -> waiters k (HSuspend o) = [] ->
  let k' := put_sem o (mk_sem (sem_flag x) (u16 (sem_value x + 1))) k in
  rt_sem_release o k = Ok RT_EOK k' /\ kwf k'.
Proof.
  intros Hk Ho E Hw. destruct (io_sem _ (kw_ipc _ Hk) o Ho) as (Hh & _).
  cbv zeta. split; [|apply kwf_put_sem; [done|apply u16_range|done]].
  unfold rt_sem_release. rewrite check_run by done. rewrite (bind_ok _ _ _ _ _ (get_sem_run _ _ _ E)).
  rewrite (bind_ok _ _ _ _ _ (k_isempty_run _ _ Hh)), Hw. rewrite bool_decide_true by done. cbn [negb].
  by rewrite (bind_ok _ _ _ _ _ (set_sem_value_run _ _ _ _ E)).
Qed.

Lemma sem_release_wake k o t rest :
  kwf k -> is_sem k o -> waiters k (HSuspend o) = t :: rest -> sc_current (k_sched k) <> RT_NULL ->
  exists th s', threads k !! t = Some th /\ stat_of th = RT_THREAD_SUSPEND /\
    rescheduled (k_sched (k_resume t th k)) s' /\
    rt_sem_release o k = Ok RT_EOK (put_sched s' (k_resume t th k)) /\
    kwf (put_sched s' (k_resume t th k)).
Proof.
  intros Hk Ho Hw Hc. destruct (io_sem _ (kw_ipc _ Hk) o Ho) as (Hh & x & E & _).
  destruct (list_resume_run k (HSuspend o) t rest Hk I Hw) as (th & Ht & Hs & Er & Hk1).
  destruct (k_schedule_run (k_resume t th k) Hk1) as (s' & Es & Hk2 & Hr).
  { by rewrite (wf_current _ _ (k_resume_frame k t th)). }
  exists th, s'. split; [done|]. split; [done|]. split; [done|]. split; [|done].
  unfold rt_sem_release. rewrite check_run by done. rewrite (bind_ok _ _ _ _ _ (get_sem_run _ _ _ E)).
  rewrite (bind_ok _ _ _ _ _ (k_isempty_run _ _ Hh)), Hw. rewrite bool_decide_false by done. cbn [negb].
  rewrite (bind_ok _ _ _ _ _ Er). by rewrite (bind_ok _ _ _ _ _ Es).
Qed.

(** ** Initialisation, reset and detach *)

Lemma sem_init_run k o name value flag :
  kwf k -> fresh k o ->
  exists k', rt_sem_init o name value flag k = Ok RT_EOK k' /\ kwf k' /\ is_sem k' o /\
    ip_sem (k_ipc k') !! o = Some (mk_sem flag (u16 value)) /\ waiters k' (HSuspend o) = [] /\ has_static k' (AObj o) true.
Proof.
  intros Hk Hf. destruct (static_type (name_copy RT_NAME_MAX name) RT_Object_Class_Semaphore) as [T1 _]; [class_mem|].
  destruct (ipc_init_run k o RT_Object_Class_Semaphore name) as (s' & k1 & E1 & E2 & Ei & Hh & Hst & Hty & Hnew);
    [done|done|class_mem|].
  assert (Hn := Hnew (let i := k_ipc k1 in {| i with ip_sem := <[o := mk_sem flag (u16 value)]> (ip_sem i) |})).
  specialize (Hn ltac:(rewrite Ei; intros x Hx; cbn; by rewrite lookup_insert_ne)).
  assert (Hw : waiters k1 (HSuspend o) = []).
  { etransitivity; [apply (in_waiters _ _ _ _ Hn (HSuspend o))|apply (fr_waiters _ _ Hf)]. }
  exists (put_sem o (mk_sem flag (u16 value)) k1). split; [|split; [|split; [done|]]].
  - unfold rt_sem_init. rewrite (proj2 (Z.eqb_neq o RT_NULL) (fr_null _ _ Hf)), bind_assert by done.
    rewrite (bind_ok _ _ _ _ _ E1), (bind_ok _ _ _ _ _ E2). done.
  - apply (kwf_new_obj k o _ _ Hk Hf Hn). intros _. rewrite T1. split; try done.
    intros _. exists (mk_sem flag (u16 value)). split; [apply lookup_insert_eq|]. split; [apply u16_range|done].
  - split; [apply lookup_insert_eq|by split].
Qed.

Lemma sem_reset_run k o x value :
  kwf k -> is_sem k o -> ip_sem (k_ipc k) !! o = Some x -> sc_current (k_sched k) <> RT_NULL ->
  exists k1 s', resumed_all (HSuspend o) k k1 /\
    let k2 := put_sem o (mk_sem (sem_flag x) (u16 value)) k1 in
    rt_sem_control o RT_IPC_CMD_RESET value k = Ok RT_EOK (put_sched s' k2) /\
    kwf (put_sched s' k2) /\ rescheduled (k_sched k2) s'.
Proof.
  intros Hk Ho E Hc. destruct (io_sem _ (kw_ipc _ Hk) o Ho) as (Hh & _).
  destruct (resume_all_run k (HSuspend o) Hk I Hh) as (k1 & E1 & Hk1 & Hra).
  pose proof Hra as [[F1 F2 F3 F4 F5 F6 F7 F8] Hw _ _].
  assert (Ex : ip_sem (k_ipc k1) !! o = Some x) by by rewrite F1.
  assert (Hk2 : kwf (put_sem o (mk_sem (sem_flag x) (u16 value)) k1)).
  { apply kwf_put_sem; [done|apply u16_range|done]. }
  destruct (k_schedule_run _ Hk2) as (s' & E3 & Hk3 & Hr); [by cbn; rewrite F4|].
  exists k1, s'. split; [done|]. cbv zeta. split; [|done].
  unfold rt_sem_control. rewrite check_run by done.
  change (RT_IPC_CMD_RESET =? RT_IPC_CMD_RESET) with true. cbv iota.
  rewrite (bind_ok _ _ _ _ _ E1), (bind_ok _ _ _ _ _ (set_sem_value_run _ _ _ _ Ex)).
  by rewrite (bind_ok _ _ _ _ _ E3).
Qed.

Lemma sem_detach_run k o ob :
  kwf k -> is_sem k o -> os_objs (k_obj k) !! AObj o = Some ob -> is_static ob = true ->
  exists k1, resumed_all (HSuspend o) k k1 /\
    rt_sem_detach o k = Ok RT_EOK (k_detach o ob k1) /\ kwf (k_detach o ob k1).
Proof.
  intros Hk Ho Eo Hst. destruct (io_sem _ (kw_ipc _ Hk) o Ho) as (Hh & _).
  destruct (resume_all_run k (HSuspend o) Hk I Hh) as (k1 & E1 & Hk1 & Hra).
  pose proof (wf_obj _ _ (ra_frame _ _ _ Hra)) as F2.
  destruct (kwf_detach k1 o ob RT_Object_Class_Semaphore) as [E2 Hk2]; [done|by rewrite F2| |done| |].
  { unfold has_type. by rewrite F2. }
  { eapply not_running; [done|unfold has_type; by rewrite F2|done]. }
  exists k1. split; [done|]. split; [|done]. unfold rt_sem_detach. rewrite check_run by done.
  rewrite (bind_ok _ _ _ _ _ (assert_system_run k o ob true Hk Eo Hst)).
  rewrite (bind_ok _ _ _ _ _ E1). by rewrite (bind_ok _ _ _ _ _ E2).
Qed.

End Spec.

(** ** Theorems *)

Section Thm.
Context `{CO : ConfigOk} {HP : Heap} {HO : HeapOk HP}.

(** C37: [rt_sem_take] on every branch: with a positive value it takes one
    unit and returns at once; with value zero and no waiting time it returns
    [-RT_ETIMEOUT] and changes nothing; otherwise the caller is suspended on
    the semaphore's list, at the end or in priority order according to the
    flag, with its timer armed when the wait is bounded, and another ready
    thread gets the processor.  The kernel stays well formed. *)
Theorem sem_take_correct (k : kstate) (o t time : Z) (x : rt_semaphore) (th : rt_thread) (Hk : kwf k)
    (Ho : is_sem k o) (Hx : ip_sem (k_ipc k) !! o = Some x) (Hf : ipc_flag (sem_flag x))
    (Hb : can_block k t th) (Ht : time < RT_TICK_MAX / 2) :
  (0 < sem_value x ->
     let k' := put_sem o (mk_sem (sem_flag x) (sem_value x - 1)) k in
     rt_sem_take o time k = Ok (Return RT_EOK) k' /\ kwf k') /\
  (sem_value x = 0 -> time = 0 -> rt_sem_take o time k = Ok (Return (- RT_ETIMEOUT)) k) /\
  (sem_value x = 0 -> time <> 0 ->
     exists k', rt_sem_take o time k = Ok (Block t) k' /\ kwf k' /\
       blocked_on (k_put t (set_error RT_EOK th) k) (HSuspend o) t (set_error RT_EOK th)
         (sem_flag x) time k').
Proof.
  split; [|split].
  - intros Hv. by apply sem_take_available.
  - intros Hv ->. by eapply sem_take_try.
  - intros Hv Hn. by eapply sem_take_block.
Qed.

(** [rt_sem_release] with nobody waiting adds one to the 16-bit value;
    with waiters it leaves the value alone and hands the unit to the first of
    them, which becomes ready while the others keep waiting, and the scheduler
    is run.  The kernel stays well formed. *)
Theorem sem_release_correct (k : kstate) (o v : Z) (ws : list Z) (Hk : kwf k) (Ho : is_sem k o)
    (Hv : sem_view k o = Some (v, ws)) (Hc : sc_current (k_sched k) <> RT_NULL) :
  exists k', rt_sem_release o k = Ok RT_EOK k' /\ kwf k' /\
    match ws with
    | [] => sem_view k' o = Some (u16 (v + 1), []) /\ k_sched k' = k_sched k
    | t :: rest => sem_view k' o = Some (v, rest) /\
        exists th, threads k !! t = Some th /\ threads k' !! t = Some (set_stat RT_THREAD_READY th) /\
          rescheduled (k_sched (k_resume t th k)) (k_sched k')
    end.
Proof.
  unfold sem_view in *. destruct (ip_sem (k_ipc k) !! o) as [x|] eqn:Hx; [|done].
  injection Hv as Hv Hw. destruct ws as [|t rest].
  - destruct (sem_release_free k o x Hk Ho Hx Hw) as [E Hk']. eexists. split; [done|]. split; [done|].
    split; [|done]. cbn. rewrite lookup_insert_eq. cbn. rewrite Hv. f_equal. by f_equal.
  - destruct (sem_release_wake k o t rest Hk Ho Hw Hc) as (th & s' & Ht & Hs & Hr & E & Hk').
    destruct (woken_first k (HSuspend o) t rest th s' Hk I Hw Ht Hs Hr) as [W1 W2].
    exists (put_sched s' (k_resume t th k)). split; [done|]. split; [done|]. split.
    + cbn. rewrite Hx. cbn. rewrite Hv. by do 2 f_equal.
    + exists th. split; [done|]. split; [|done]. unfold threads. cbn. rewrite W2. apply lookup_insert_eq.
Qed.

(** [rt_sem_control] with [RT_IPC_CMD_RESET] wakes every waiter with error
    number [-RT_ERROR], sets the value to the low 16 bits of the argument and
    reschedules; no thread of another wait list is touched.  Any other command
    is refused with [-RT_ERROR]. *)
Theorem sem_control_correct (k : kstate) (o cmd arg : Z) (x : rt_semaphore) (Hk : kwf k)
    (Ho : is_sem k o) (Hx : ip_sem (k_ipc k) !! o = Some x) (Hc : sc_current (k_sched k) <> RT_NULL) :
  (cmd <> RT_IPC_CMD_RESET -> rt_sem_control o cmd arg k = Ok (- RT_ERROR) k) /\
  exists k1 s', resumed_all (HSuspend o) k k1 /\
    let k2 := put_sem o (mk_sem (sem_flag x) (u16 arg)) k1 in
    rt_sem_control o RT_IPC_CMD_RESET arg k = Ok RT_EOK (put_sched s' k2) /\
    kwf (put_sched s' k2) /\ rescheduled (k_sched k2) s'.
Proof.
  split; [|by apply sem_reset_run].
  intros Hn. unfold rt_sem_control. rewrite check_run by done. by rewrite (proj2 (Z.eqb_neq _ _) Hn).
Qed.

(** what a blocked [rt_sem_take] returns is decided by how the thread was
    woken: [RT_EOK] by a release, [-RT_ETIMEOUT] by its timer, [-RT_ERROR] by
    a reset or the removal of the semaphore. *)
Theorem sem_wait_outcome (k : kstate) (o t : Z) (th : rt_thread) (Hk : kwf k)
    (Hw : t ∈ waiters k (HSuspend o)) (Ht : threads k !! t = Some th) (He : th_error th = RT_EOK) :
  sem_take_resumed t (k_resume t th k) = Ok RT_EOK (k_resume t th k) /\
  sem_take_resumed t (k_timeout t th k) = Ok (- RT_ETIMEOUT) (k_timeout t th k) /\
  forall k', resumed_all (HSuspend o) k k' -> sem_take_resumed t k' = Ok (- RT_ERROR) k'.
Proof.
  split; [|split].
  - unfold sem_take_resumed. erewrite bind_ok.
    2: { apply k_thread_run. rewrite k_resume_threads. apply lookup_insert_eq. }
    cbn. by rewrite He.
  - unfold sem_take_resumed. erewrite bind_ok; [|apply k_thread_run].
    2: { unfold threads, k_timeout, k_ready. cbn [k_sched put_sched].
      rewrite (proj2 (proj2 (proj2 (sched_insert_frame t _ _)))). apply lookup_insert_eq. }
    done.
  - intros k' Hr. unfold sem_take_resumed. erewrite bind_ok; [|apply k_thread_run].
    2: { rewrite (ra_threads _ _ _ Hr), decide_True, Ht by done. done. }
    done.
Qed.

(** C40: a release can lose units: at the largest value of the 16-bit counter
    [rt_sem_release] returns [RT_EOK] and the value is zero again. *)
Theorem sem_release_overflow (k : kstate) (o : Z) (x : rt_semaphore) (Hk : kwf k) (Ho : is_sem k o)
    (Hx : ip_sem (k_ipc k) !! o = Some x) (Hv : sem_value x = 65535) :
  rt_sem_release o k = Ok RT_EOK (put_sem o (mk_sem (sem_flag x) 0) k).
Proof.
  destruct (io_sem _ (kw_ipc _ Hk) o Ho) as (_ & x' & E' & _ & Hw). simplify_eq.
  destruct (sem_release_free k o x Hk Ho Hx) as [E _]; [apply Hw; lia|]. by rewrite E, Hv.
Qed.

End Thm.

(** ** Instances

    Semaphore 300 has value two, semaphore 310 value zero and semaphore 320
    the largest value; thread 100 then waits for semaphore 310. *)

#[local] Existing Instance default_config.
#[local] Existing Instance bump_heap.
#[local] Existing Instance bump_heap_ok.

Definition demo_sem1 : kstate := after (rt_sem_init 300 [97] 2 RT_IPC_FLAG_PRIO) demo.
Definition demo_sem2 : kstate := after (rt_sem_init 310 [98] 0 RT_IPC_FLAG_PRIO) demo_sem1.
Definition demo_sem : kstate := after (rt_sem_init 320 [99] 65535 RT_IPC_FLAG_FIFO) demo_sem2.
Definition demo_sem_wait : kstate := after (rt_sem_take 310 10) demo_sem.

Definition sem_of (k : kstate) (o : Z) : rt_semaphore := default (mk_sem 0 0) (ip_sem (k_ipc k) !! o).

Lemma demo_sem1_kwf : kwf demo_sem1.
Proof.
  destruct (sem_init_run demo 300 [97] 2 RT_IPC_FLAG_PRIO) as (k & E & Hk & _).
  - apply demo_kwf.
  - apply freshb_ok. by vm_compute.
  - unfold demo_sem1. rewrite (after_ok _ _ _ _ E). exact Hk.
Qed.

Lemma demo_sem2_kwf : kwf demo_sem2.
Proof.
  destruct (sem_init_run demo_sem1 310 [98] 0 RT_IPC_FLAG_PRIO) as (k & E & Hk & _).
  - apply demo_sem1_kwf.
  - apply freshb_ok. by vm_compute.
  - unfold demo_sem2. rewrite (after_ok _ _ _ _ E). exact Hk.
Qed.

Lemma demo_sem_kwf : kwf demo_sem.
Proof.
  destruct (sem_init_run demo_sem2 320 [99] 65535 RT_IPC_FLAG_FIFO) as (k & E & Hk & _).
  - apply demo_sem2_kwf.
  - apply freshb_ok. by vm_compute.
  - unfold demo_sem. rewrite (after_ok _ _ _ _ E). exact Hk.
Qed.

Lemma demo_sem_wait_kwf : kwf demo_sem_wait.
Proof.
  destruct (sem_take_block demo_sem 310 (sem_of demo_sem 310) t_high (thread_of demo_sem t_high) 10)
    as (k & E & Hk & _).
  - apply demo_sem_kwf.
  - eexists. split; by vm_compute.
  - by vm_compute.
  - by vm_compute.
  - right. by vm_compute.
  - split; by vm_compute.
  - done.
  - by vm_compute.
  - unfold demo_sem_wait. rewrite (after_ok _ _ _ _ E). exact Hk.
Qed.

#[global] Opaque demo_sem1 demo_sem2 demo_sem demo_sem_wait.

Lemma sem_take_correct_witness :
  rt_sem_take 300 0 demo_sem = Ok (Return RT_EOK) (put_sem 300 (mk_sem RT_IPC_FLAG_PRIO 1) demo_sem) /\
  exists k', rt_sem_take 310 10 demo_sem = Ok (Block t_high) k' /\ kwf k'.
Proof.
  split.
  - destruct (sem_take_correct demo_sem 300 t_high 0 (mk_sem RT_IPC_FLAG_PRIO 2) (thread_of demo_sem t_high))
      as (H & _).
    + apply demo_sem_kwf.
    + eexists. split; by vm_compute.
    + by vm_compute.
    + by right.
    + split; by vm_compute.
    + by vm_compute.
    + exact (proj1 (H eq_refl)).
  - destruct (sem_take_correct demo_sem 310 t_high 10 (mk_sem RT_IPC_FLAG_PRIO 0) (thread_of demo_sem t_high))
      as (_ & _ & H).
    + apply demo_sem_kwf.
    + eexists. split; by vm_compute.
    + by vm_compute.
    + by right.
    + split; by vm_compute.
    + by vm_compute.
    + destruct H as (k' & E & Hk & _); [reflexivity|discriminate|]. exists k'. split; [exact E|exact Hk].
Defined.

Lemma sem_release_correct_witness :
  exists k', rt_sem_release 310 demo_sem_wait = Ok RT_EOK k' /\ kwf k' /\ sem_view k' 310 = Some (0, []).
Proof.
  destruct (sem_release_correct demo_sem_wait 310 0 [t_high]) as (k' & E & Hk & Hv & _).
  - apply demo_sem_wait_kwf.
  - eexists. split; by vm_compute.
  - by vm_compute.
  - by vm_compute.
  - exists k'. split; [exact E|]. split; [exact Hk|exact Hv].
Defined.

Lemma sem_control_correct_witness :
  exists k1, resumed_all (HSuspend 310) demo_sem_wait k1.
Proof.
  destruct (sem_control_correct demo_sem_wait 310 RT_IPC_CMD_RESET 5 (sem_of demo_sem_wait 310))
    as (_ & k1 & s' & Hr & _).
  - apply demo_sem_wait_kwf.
  - eexists. split; by vm_compute.
  - by vm_compute.
  - by vm_compute.
  - exists k1. exact Hr.
Defined.

Lemma sem_wait_outcome_witness :
  sem_take_resumed t_high (k_resume t_high (thread_of demo_sem_wait t_high) demo_sem_wait) =
    Ok RT_EOK (k_resume t_high (thread_of demo_sem_wait t_high) demo_sem_wait).
Proof.
  refine (proj1 (sem_wait_outcome demo_sem_wait 310 t_high (thread_of demo_sem_wait t_high) _ _ _ _)).
  - apply demo_sem_wait_kwf.
  - assert (E : waiters demo_sem_wait (HSuspend 310) = [t_high]) by by vm_compute.
    rewrite E. by apply list_elem_of_here.
  - by vm_compute.
  - by vm_compute.
Defined.

Lemma sem_release_overflow_witness :
  rt_sem_release 320 demo_sem = Ok RT_EOK (put_sem 320 (mk_sem RT_IPC_FLAG_FIFO 0) demo_sem).
Proof.
  apply (sem_release_overflow demo_sem 320 (mk_sem RT_IPC_FLAG_FIFO 65535)).
  - apply demo_sem_kwf.
  - eexists. split; by vm_compute.
  - by vm_compute.
  - by vm_compute.
Defined.

(** * Wait lists: theorems *)

Section Thm.
Context `{CO : ConfigOk} {HP : Heap} {HO : HeapOk HP}.

Lemma k_suspend_prio k t th x :
  threads k !! t = Some th -> threads (k_suspend t th k) = <[t := set_stat RT_THREAD_SUSPEND th]> (threads k) ->
  prio_of (k_sched (k_suspend t th k)) x = prio_of (k_sched k) x.
Proof.
  intros Ht Eth. unfold prio_of. fold (threads (k_suspend t th k)). rewrite Eth.
  destruct (decide (x = t)) as [->|]; [|by rewrite lookup_insert_ne].
  unfold threads in Ht. by rewrite lookup_insert_eq, Ht.
Qed.

(** [rt_ipc_list_suspend] suspends the running thread and queues it: at
    the end of a FIFO list; in a priority list behind every waiter of its own
    or a higher priority and before the first of a lower one, so that a list
    in priority order stays in priority order and equal priorities wait in
    order of arrival. *)
Theorem list_suspend_order (k : kstate) (h : lhead) (t flag : Z) (th : rt_thread) (Hk : kwf k)
    (Hb : can_block k t th) (Hh : is_wait h) (He : head_exists k h) (Hm : may_wait k h)
    (Hf : ipc_flag flag) :
  exists k', rt_ipc_list_suspend h t flag k = Ok RT_EOK k' /\ kwf k' /\
    threads k' !! t = Some (set_stat RT_THREAD_SUSPEND th) /\
    (flag = RT_IPC_FLAG_FIFO -> waiters k' h = waiters k h ++ [t]) /\
    (flag = RT_IPC_FLAG_PRIO -> prio_sorted (k_sched k) (waiters k h) ->
       prio_sorted (k_sched k') (waiters k' h) /\
       exists l1 l2, waiters k h = l1 ++ l2 /\ waiters k' h = l1 ++ t :: l2 /\
         (forall x, x ∈ l1 -> prio_of (k_sched k) x <= prio_of (k_sched k) t) /\
         (forall x, x ∈ l2 -> prio_of (k_sched k) t < prio_of (k_sched k) x)).
Proof.
  destruct Hb as [Ht Hc Hr Hi].
  destruct (list_suspend_run k h t th flag) as (l1 & l2 & El & [Hp1 Hp2] & E & Hk'); try done.
  destruct (thread_suspend_run k t th Hk Ht Hc Hr) as (_ & _ & _ & _ & Eth).
  assert (Ew : waiters (k_link h (l1 ++ t :: l2) (k_suspend t th k)) h = l1 ++ t :: l2).
  { unfold waiters. cbn. by rewrite lget_put, decide_True. }
  eexists. split; [exact E|]. split; [done|]. rewrite Ew. split; [|split].
  - change (threads (k_suspend t th k) !! t = Some (set_stat RT_THREAD_SUSPEND th)).
    rewrite Eth. apply lookup_insert_eq.
  - intros Hfl. rewrite (Hp1 Hfl) in *. by rewrite El, app_nil_r.
  - intros Hfl Hs. specialize (Hp2 Hfl). rewrite El in Hs. split.
    + unfold prio_sorted. eapply StronglySorted_ext; [|exact (prio_cut_sorted _ _ _ _ Hs Hp2)].
      intros x y _ _. change (k_sched (k_link h (l1 ++ t :: l2) (k_suspend t th k)))
        with (put_list h (l1 ++ t :: l2) (k_sched (k_suspend t th k))).
      change (prio_of (put_list ?a ?b ?s) ?x) with (prio_of s x).
      by rewrite !(k_suspend_prio k t th).
    + exists l1, l2. split; [done|]. split; [done|]. destruct Hp2 as [C1 C2]. split; [done|].
      intros x Hx. destruct l2 as [|y l2]; [set_solver|].
      apply StronglySorted_app_inv in Hs as (_ & S2 & _). apply StronglySorted_inv in S2 as [_ Hfa].
      rewrite Forall_forall in Hfa. apply elem_of_cons in Hx as [->|Hx]; [done|].
      specialize (Hfa x Hx). cbn in Hfa. lia.
Qed.

(** [rt_ipc_list_resume_all] returns after one round per waiter, with the
    list empty, every waiter ready with error number [-RT_ERROR] and its timer
    stopped, and no other thread or wait list changed. *)
Theorem list_resume_all_empties (k : kstate) (h : lhead) (Hk : kwf k) (Hh : is_wait h)
    (He : head_exists k h) :
  exists k', rt_ipc_list_resume_all h k = Ok RT_EOK k' /\ kwf k' /\ resumed_all h k k' /\
    forall t, t ∈ waiters k h -> ATimer t ∉ running k'.
Proof.
  destruct (resume_all_run k h Hk Hh He) as (k' & E & Hk' & Hr). exists k'. split_and!; [done..|].
  intros t Ht Hin. destruct (kw_ttimer _ Hk' _ Hin) as (th' & _ & H1 & H2 & _).
  destruct (wait_suspended k h t Hk Hh Ht) as (th & H3 & _).
  rewrite (ra_threads _ _ _ Hr), decide_True, H3 in H1 by done. cbn in H1. simplify_eq.
  unfold woken_error in H2. by rewrite stat_of_set in H2.
Qed.

End Thm.

(** ** Instances *)

#[local] Existing Instance default_config.
#[local] Existing Instance bump_heap.
#[local] Existing Instance bump_heap_ok.

Lemma list_suspend_order_witness :
  exists k', rt_ipc_list_suspend (HSuspend 310) t_low RT_IPC_FLAG_PRIO demo_sem_wait = Ok RT_EOK k' /\
    kwf k' /\ waiters k' (HSuspend 310) = [t_high; t_low].
Proof.
  destruct (list_suspend_order demo_sem_wait (HSuspend 310) t_low RT_IPC_FLAG_PRIO
    (thread_of demo_sem_wait t_low)) as (k' & E & Hk & _).
  - apply demo_sem_wait_kwf.
  - split; by vm_compute.
  - exact I.
  - eexists. by vm_compute.
  - apply (sem_may_wait _ _ (mk_sem RT_IPC_FLAG_PRIO 0)); [eexists; split|..]; by vm_compute.
  - by right.
  - exists k'. split; [exact E|]. split; [exact Hk|].
    assert (Ek : k' = after (rt_ipc_list_suspend (HSuspend 310) t_low RT_IPC_FLAG_PRIO) demo_sem_wait)
      by (symmetry; exact (after_ok _ _ _ _ E)).
    clear E Hk. subst k'. vm_compute. reflexivity.
Defined.

Lemma list_resume_all_empties_witness :
  exists k', rt_ipc_list_resume_all (HSuspend 310) demo_sem_wait = Ok RT_EOK k' /\ kwf k'.
Proof.
  destruct (list_resume_all_empties demo_sem_wait (HSuspend 310)) as (k' & E & Hk & _).
  - apply demo_sem_wait_kwf.
  - exact I.
  - eexists. by vm_compute.
  - exists k'. split; [exact E|exact Hk].
Defined.
