(* ===== verification/PrioInv.v ===== *)
(** * Changing the priority of a thread

    [rt_thread_control] with [RT_THREAD_CTRL_CHANGE_PRIORITY], the operation
    behind priority inheritance: a ready thread is moved to the queue of its
    new priority, any other thread only gets its new attributes. *)

From S2P Require Import Prelude Scheduler ReadyBitmap SchedInv SchedSpec Object ObjInv Timer.
From S2P Require Import TimerInv Kernel Thread Ipc KernelInv ThreadInv IpcInv BlockInv Boot.

Section Inv.
Context `{CO : ConfigOk} {HP : Heap} {HO : HeapOk HP}.
Implicit Types (k : kstate).

(** The control block with priority [p]. *)
Definition with_prio (p : Z) (th : rt_thread) : rt_thread := prio_attr (set_priority p th).

Lemma with_prio_fields p th :
  th_stat (with_prio p th) = th_stat th /\ th_current_priority (with_prio p th) = p /\
  th_error (with_prio p th) = th_error th /\ th_event_set (with_prio p th) = th_event_set th /\
  th_event_info (with_prio p th) = th_event_info th /\ th_init_priority (with_prio p th) = th_init_priority th.
Proof. unfold with_prio, prio_attr. by destruct (32 <? _). Qed.

Lemma with_prio_stat p th : stat_of (with_prio p th) = stat_of th.
Proof. unfold stat_of. by destruct (with_prio_fields p th) as (-> & _). Qed.

Lemma with_prio_masks p th : 0 <= p < RT_THREAD_PRIORITY_MAX -> masks_ok (with_prio p th).
Proof. intros Hp. by apply prio_attr_masks. Qed.

Lemma with_prio_ok t p th :
  0 <= p < RT_THREAD_PRIORITY_MAX -> thread_ok t th -> thread_ok t (with_prio p th).
Proof.
  intros Hp (H1 & H2 & _). destruct (with_prio_fields p th) as (E1 & E2 & _).
  split; [done|]. rewrite E1, E2. split; [done|]. split; [done|]. intros _ _. by apply with_prio_masks.
Qed.

(** A thread in no ready queue. *)
Lemma put_thread_prio s t th th' :
  swf ∅ s -> sc_threads s !! t = Some th -> (forall p, t ∉ rdy s p) ->
  th_stat th' = th_stat th -> thread_ok t th' -> swf ∅ (put_thread t th' s).
Proof.
  intros Hw Ht Hn Es Hok.
  assert (L : forall x thx, sc_threads (put_thread t th' s) !! x = Some thx ->
    exists thy, sc_threads s !! x = Some thy /\ th_stat thx = th_stat thy /\ (x <> t -> thx = thy)).
  { intros x thx Hx. cbn in Hx. destruct (decide (x = t)) as [->|]; simplify_map_eq; [|eauto].
    exists th. split_and!; [done|done|done]. }
  destruct Hw as [H1 H2 H3 H4 H5 H6 H7 H8 H9 H10 H11 H12]. split; try done.
  - intros h x Hx. cbn. destruct (decide (x = t)) as [->|]; simplify_map_eq; eauto.
  - intros h x thx Hx (thy & Hy & F1 & _)%L Hnx. unfold stat_of in *. rewrite F1. eauto.
  - intros p x thx Hx (thy & Hy & _ & F)%L. rewrite F; [eauto|]. intros ->. by apply (Hn p).
  - intros x thx Hx Hnx Hst Hc. destruct (L _ _ Hx) as (thy & Hy & F1 & F2). unfold stat_of in *.
    rewrite F1 in Hst. destruct (decide (x = t)) as [->|Hne]; [|rewrite F2 by done; eauto].
    exfalso. simplify_eq. by apply (Hn (th_current_priority th)), (H9 t th).
  - intros x thx Hx. cbn in Hx. destruct (decide (x = t)) as [->|]; simplify_map_eq; eauto.
  - intros Hc. cbn in *. destruct (decide (sc_current s = t)) as [->|]; simplify_map_eq; eauto.
Qed.

(** The change on the scheduler. *)
Record reprio (s : sched) (t p : Z) (th : rt_thread) (s' : sched) : Prop := {
  rp_threads : sc_threads s' = <[t := with_prio p th]> (sc_threads s);
  rp_current : sc_current s' = sc_current s;
  rp_lock : sc_lock_nest s' = sc_lock_nest s;
  rp_irq : sc_irq_nest s' = sc_irq_nest s;
  rp_wait : forall h, (forall q, h <> HReady q) -> lget s' h = lget s h;
  rp_heads : forall h, is_Some (sc_lists s !! h) -> is_Some (sc_lists s' !! h)
}.

Lemma reprio_ready s t p th :
  swf ∅ s -> sc_threads s !! t = Some th -> stat_of th = RT_THREAD_READY ->
  0 <= p < RT_THREAD_PRIORITY_MAX ->
  exists s', (rt_schedule_remove_thread t;;
     upd_thread t (fun th => prio_attr (set_priority p th));; rt_schedule_insert_thread t) s = Ok tt s' /\
    swf ∅ s' /\ reprio s t p th s'.
Proof.
  intros Hw Ht Hs Hp. assert (Hm : masks_ok th) by (eapply ready_masks; [done|done|by rewrite Hs..]).
  pose proof (sw_thread _ _ Hw _ _ Ht) as Hok.
  destruct (remove_swf ∅ s t th Hw Ht Hm) as [Hw1 Hu1]. set (s1 := sched_remove t th s) in *.
  assert (Ht1 : sc_threads s1 !! t = Some th) by (unfold s1; by rewrite sched_remove_threads).
  rewrite (bind_ok _ _ _ _ _ (remove_run _ _ _ _ Hw Ht Hm)). fold s1.
  rewrite (bind_ok _ _ _ _ _ (upd_thread_run _ _ _ _ Ht1)). fold (with_prio p th).
  set (s2 := put_thread t (with_prio p th) s1).
  assert (Hw2 : swf ({[t]} ∪ ({[t]} ∪ ∅)) s2) by (apply put_thread_swf; [done|done|by apply with_prio_ok]).
  assert (Ht2 : sc_threads s2 !! t = Some (with_prio p th)) by apply lookup_insert_eq.
  assert (Hu2 : unlinked t s2) by exact Hu1.
  pose proof (with_prio_masks p th Hp) as Hm2.
  exists (sched_insert t (with_prio p th) s2). split; [by eapply insert_run|]. split.
  { apply (swf_weaken (({[t]} ∪ ({[t]} ∪ ∅)) ∖ {[t]})); [by apply sched_insert_swf|set_solver]. }
  destruct (sched_insert_frame t (with_prio p th) s2) as (F1 & F2 & F3 & F4).
  destruct (sched_remove_frame t th s) as (G1 & G2 & G3).
  split; [|rewrite F1; apply sched_remove_current|rewrite F2; exact G2|rewrite F3; exact G3|..].
  - rewrite F4, set_stat_id; [|apply (with_prio_ok t p th Hp Hok)|by rewrite with_prio_stat].
    cbn. rewrite insert_insert_eq. unfold s1. by rewrite sched_remove_threads.
  - intros h Hh. assert (El : lget s2 h = lget s h).
    { change (lget s1 h = lget s h). unfold s1. rewrite sched_remove_lget. apply unlink_notin. intros Hin.
      pose proof (sw_stat _ _ Hw h t th Hin Ht ltac:(set_solver)) as E. rewrite Hs in E.
      by destruct h as [q| | |]; [destruct (Hh q)|..]. }
    rewrite <- El. unfold sched_insert. case_match; [done|].
    change (lget (bm_put ?b ?x) h) with (lget x h). rewrite lget_put, decide_False; [done|apply Hh].
  - intros h Hh. assert (Hh2 : is_Some (sc_lists s2 !! h)).
    { change (is_Some (sc_lists s1 !! h)). unfold s1. rewrite sched_remove_lists, lookup_fmap.
      destruct Hh as [l ->]. by eexists. }
    unfold sched_insert. case_match; [done|]. cbn.
    destruct (decide (h = HReady (th_current_priority (with_prio p th)))) as [->|]; by simplify_map_eq.
Qed.

(** ** On the kernel *)

Lemma kwf_reprio k t p th s' :
  kwf k -> threads k !! t = Some th -> swf ∅ s' -> reprio (k_sched k) t p th s' -> kwf (put_sched s' k).
Proof.
  intros Hk Ht Hw [R1 R2 R3 R4 R5 R6]. apply kwf_sched_step; [done| |].
  - apply (sched_step_thread k s' t th (with_prio p th)); try done.
    + by rewrite with_prio_stat.
    + rewrite with_prio_stat. destruct (decide (ATimer t ∈ running k)) as [Hin|]; [left|by right].
      destruct (kw_ttimer _ Hk _ Hin) as (th0 & _ & H1 & H2 & _). unfold threads in *. congruence.
    + intros x. by rewrite R5.
  - intros o x. by rewrite R5.
Qed.

Lemma change_priority_run k t p th :
  kwf k -> threads k !! t = Some th -> 0 <= p < RT_THREAD_PRIORITY_MAX ->
  exists s', change_priority t p k = Ok tt (put_sched s' k) /\ kwf (put_sched s' k) /\
    reprio (k_sched k) t p th s'.
Proof.
  intros Hk Ht Hp. pose proof (kw_sched _ Hk) as Hw. unfold change_priority.
  rewrite (bind_ok _ _ _ _ _ (thread_stat_run _ _ _ Ht)).
  destruct (Z.eqb_spec (stat_of th) RT_THREAD_READY) as [Hs|Hs].
  - destruct (reprio_ready _ t p th Hw Ht Hs Hp) as (s' & E & Hw' & Hr). exists s'.
    split; [|split; [by eapply kwf_reprio|done]].
    rewrite <- (liftS_run _ k tt s' E). unfold liftS, zoom, mbind, M_bind.
    destruct (rt_schedule_remove_thread t (k_sched k)) as [? s1|]; [|done]. cbn.
    by destruct (upd_thread t _ s1).
  - set (th' := with_prio p th). exists (put_thread t th' (k_sched k)).
    assert (Hr : reprio (k_sched k) t p th (put_thread t th' (k_sched k))) by by split.
    split; [exact (k_upd_thread_run k t _ th Ht)|]. split; [|done].
    eapply kwf_reprio; [done|done| |done].
    apply (put_thread_prio _ t th); [done|done|by eapply not_ready_unqueued| |].
    + apply with_prio_fields.
    + apply with_prio_ok; [done|apply (sw_thread _ _ Hw _ _ Ht)].
Qed.

(** Through [rt_thread_control]. *)
Lemma control_priority_run k t p th :
  kwf k -> is_thread k t -> threads k !! t = Some th -> 0 <= p < RT_THREAD_PRIORITY_MAX ->
  exists s', rt_thread_control t RT_THREAD_CTRL_CHANGE_PRIORITY p k = Ok RT_EOK (put_sched s' k) /\
    kwf (put_sched s' k) /\ reprio (k_sched k) t p th s'.
Proof.
  intros Hk [_ Hty] Ht Hp. destruct (change_priority_run k t p th Hk Ht Hp) as (s' & E & Hk' & Hr).
  exists s'. split; [|done]. unfold rt_thread_control. rewrite check_run by done.
  change (RT_THREAD_CTRL_CHANGE_PRIORITY =? RT_THREAD_CTRL_CHANGE_PRIORITY) with true. cbv iota.
  pose proof cfg_prio. rewrite u8_small by lia. by rewrite (bind_ok _ _ _ _ _ E).
Qed.

End Inv.
