(* ===== verification/MutexSpec.v ===== *)
(** * What mutexes promise

    Taking and releasing a mutex on every branch: recursive ownership,
    priority inheritance when a thread has to wait for an owner of lower
    priority, restoration of the owner's priority at the last release, and
    hand-over to the first waiter. *)

From S2P Require Import Prelude Scheduler ReadyBitmap SchedInv SchedSpec Object ObjInv Timer.
From S2P Require Import TimerInv Kernel Thread Ipc Mutex KernelInv ThreadInv IpcInv BlockInv Boot.
From S2P Require Import Demo PrioInv.

Section Spec.
Context `{CO : ConfigOk} {HP : Heap} {HO : HeapOk HP}.
Implicit Types (k : kstate).

Definition is_mutex (k : kstate) (o : Z) : Prop := has_type k (AObj o) RT_Object_Class_Mutex.

Lemma get_mutex_run k o x : ip_mutex (k_ipc k) !! o = Some x -> get_mutex o k = Ok x k.
Proof. intros E. unfold get_mutex. by rewrite E. Qed.

Lemma upd_mutex_run k o f x :
  ip_mutex (k_ipc k) !! o = Some x -> upd_mutex o f k = Ok tt (put_mutex o (f x) k).
Proof. intros E. unfold upd_mutex. by rewrite (bind_ok _ _ _ _ _ (get_mutex_run _ _ _ E)). Qed.

Lemma put_mutex_mutex k o x y : put_mutex o x (put_mutex o y k) = put_mutex o x k.
Proof. unfold put_mutex. cbn. by rewrite insert_insert_eq. Qed.

Lemma kwf_put_mutex k o x :
  kwf k -> mutex_ok k x -> (0 < mutex_value x -> waiters k (HSuspend o) = []) -> kwf (put_mutex o x k).
Proof.
  intros Hk Hx Hw. apply kwf_ipc; [done|]. destruct (kw_ipc _ Hk) as [H1 H2 H3 H4 H5].
  split; try done.
  intros o' Ho'. destruct (H2 o' Ho') as (Hh & x' & E & Hx' & Hw'). split; [done|]. cbn.
  destruct (decide (o' = o)) as [->|Hne].
  - exists x. rewrite lookup_insert_eq. split; [done|]. split; [by eapply mutex_ok_frame|done].
  - exists x'. rewrite lookup_insert_ne by done. split; [done|]. split; [by eapply mutex_ok_frame|done].
Qed.

Lemma mutex_may_wait k o x :
  is_mutex k o -> ip_mutex (k_ipc k) !! o = Some x -> mutex_value x = 0 -> may_wait k (HSuspend o).
Proof.
  intros Ho E Hv o' [= <-]. split.
  - intros x' Hs _. pose proof (type_unique _ _ _ _ Hs Ho). discriminate.
  - intros x' _ E'. congruence.
Qed.

Lemma current_is_thread k t th : kwf k -> can_block k t th -> is_thread k t.
Proof.
  intros Hk [Ht _ Hr _]. split; [by eexists|]. apply (kw_live _ Hk t th Ht). by rewrite Hr.
Qed.

(** ** Take *)

(** The caller has its error number reset first. *)
Definition k_reset (t : Z) (th : rt_thread) (k : kstate) : kstate := k_put t (set_error RT_EOK th) k.

Section Take.
Variables (k : kstate) (o t : Z) (x : rt_mutex) (th : rt_thread).
Hypotheses (Hk : kwf k) (Ho : is_mutex k o) (Hx : ip_mutex (k_ipc k) !! o = Some x)
  (Hb : can_block k t th).

Let k0 := k_reset t th k.
Let th0 := set_error RT_EOK th.

Lemma mutex_inv : mutex_ok k x /\ (0 < mutex_value x -> waiters k (HSuspend o) = []) /\
  head_exists k (HSuspend o).
Proof.
  destruct (io_mutex _ (kw_ipc _ Hk) o Ho) as (Hh & x' & E & H1 & H2). simplify_eq. done.
Qed.

Lemma take_prefix (m : K (callres mutex_pc Z)) time :
  (if mutex_owner x =? t then
     upd_mutex o (fun x => {| x with mutex_hold := u8 (mutex_hold x + 1) |});;
     mret (Return RT_EOK)
   else mutex_take_again o t time) k0 = m k0 -> rt_mutex_take o time k = m k0.
Proof.
  intros Em. unfold rt_mutex_take. rewrite (bind_ok _ _ _ _ _ (thread_context_run _ _ _ Hk Hb)).
  rewrite check_run by done. rewrite (bind_ok _ _ _ _ _ (k_self_run k)), <- (cb_current _ _ _ Hb).
  destruct (reset_error_run k t th Hk Hb) as (E0 & _). rewrite (bind_ok _ _ _ _ _ E0).
  by erewrite (bind_ok (get_mutex o)) by (apply get_mutex_run; exact Hx).
Qed.

Lemma k0_kwf : kwf k0 /\ can_block k0 t th0.
Proof. by destruct (reset_error_run k t th Hk Hb) as (_ & H1 & H2). Qed.

Lemma mutex_ok_reset y : mutex_ok k y -> mutex_ok k0 y.
Proof.
  intros Hy. eapply mutex_ok_frame; [done|]. intros z [[thz Hz] H2]. split; [|done].
  unfold k0, k_reset, k_put, threads. cbn. destruct (decide (z = t)) as [->|]; simplify_map_eq; eauto.
Qed.

Lemma mutex_take_recursive time :
  mutex_owner x = t ->
  let k' := put_mutex o {| x with mutex_hold := u8 (mutex_hold x + 1) |} k0 in
  rt_mutex_take o time k = Ok (Return RT_EOK) k' /\ kwf k'.
Proof.
  intros Hown k'. destruct mutex_inv as (Hok & Hw & Hh). split.
  - rewrite (take_prefix (fun _ => Ok (Return RT_EOK) k')); [done|]. rewrite Hown, Z.eqb_refl.
    by erewrite bind_ok by (apply upd_mutex_run; exact Hx).
  - apply kwf_put_mutex; [apply k0_kwf| |done]. apply mutex_ok_reset. destruct Hok. by split.
Qed.

Lemma mutex_take_free time :
  0 < mutex_value x ->
  let k' := put_mutex o (mk_mutex (mutex_flag x) 0 (th_current_priority th) (u8 (mutex_hold x + 1)) t) k0 in
  rt_mutex_take o time k = Ok (Return RT_EOK) k' /\ kwf k'.
Proof.
  intros Hv k'. destruct mutex_inv as (Hok & Hw & Hh).
  assert (Ev : mutex_value x = 1) by (destruct (mx_value _ _ Hok); lia).
  assert (Hn : (mutex_owner x =? t) = false).
  { rewrite (mx_free _ _ Hok Ev). rewrite Z.eqb_sym. by eapply nonnull_thread; [done|apply Hb]. }
  destruct k0_kwf as [Hk0 Hb0]. split.
  - rewrite (take_prefix (fun _ => Ok (Return RT_EOK) k')); [done|]. rewrite Hn. unfold mutex_take_again.
    erewrite (bind_ok (get_mutex o)) by (apply get_mutex_run; exact Hx).
    rewrite (bind_ok _ _ _ _ _ (k_thread_run _ _ _ (cb_thread _ _ _ Hb0))), Ev. cbn [Z.ltb Z.compare].
    erewrite bind_ok by (apply upd_mutex_run; exact Hx).
    erewrite bind_ok by (apply upd_mutex_run; apply lookup_insert_eq).
    rewrite put_mutex_mutex. unfold k', mutex_own. cbn. by rewrite Ev.
  - apply kwf_put_mutex; [done| |cbn; lia]. split; cbn; [by left|lia|]. intros _. split.
    + by eapply current_is_thread.
    + by destruct (sw_thread _ _ (kw_sched _ Hk) _ _ (cb_thread _ _ _ Hb)) as (_ & _ & Hp & _).
Qed.

Lemma mutex_take_try :
  mutex_value x = 0 -> mutex_owner x <> t ->
  rt_mutex_take o 0 k = Ok (Return (- RT_ETIMEOUT)) (k_put t (set_error (- RT_ETIMEOUT) th) k) /\
  kwf (k_put t (set_error (- RT_ETIMEOUT) th) k).
Proof.
  intros Hv Hn. destruct k0_kwf as [Hk0 Hb0]. split.
  - rewrite (take_prefix (fun _ => Ok (Return (- RT_ETIMEOUT)) (k_put t (set_error (- RT_ETIMEOUT) th) k))); [done|].
    rewrite (proj2 (Z.eqb_neq _ _) Hn). unfold mutex_take_again.
    erewrite (bind_ok (get_mutex o)) by (apply get_mutex_run; exact Hx).
    rewrite (bind_ok _ _ _ _ _ (k_thread_run _ _ _ (cb_thread _ _ _ Hb0))), Hv. cbn [Z.ltb Z.compare Z.eqb].
    rewrite (bind_ok _ _ _ _ _ (k_upd_thread_run _ _ _ _ (cb_thread _ _ _ Hb0))).
    unfold k0, k_reset, k_put, put_thread, put_sched. cbn. by rewrite insert_insert_eq.
  - eapply kwf_put_same; [done|apply Hb|apply set_error_same].
Qed.

(** A thread of higher priority than the owner lends it its priority. *)
Record inherited (k1 : kstate) (ow : Z) (oth : rt_thread) (k2 : kstate) : Prop := {
  ih_threads : threads k2 = if th_current_priority th <? th_current_priority oth
    then <[ow := with_prio (th_current_priority th) oth]> (threads k1) else threads k1;
  ih_wait : forall h, is_wait h -> waiters k2 h = waiters k1 h;
  ih_ipc : k_ipc k2 = k_ipc k1;
  ih_obj : k_obj k2 = k_obj k1;
  ih_ts : k_ts k2 = k_ts k1;
  ih_current : sc_current (k_sched k2) = sc_current (k_sched k1);
  ih_irq : sc_irq_nest (k_sched k2) = sc_irq_nest (k_sched k1);
  ih_heads : forall h, head_exists k1 h -> head_exists k2 h
}.

Lemma inherit_run ow oth :
  is_thread k0 ow -> threads k0 !! ow = Some oth ->
  exists k2, when (th_current_priority th0 <? th_current_priority oth)
      (rt_thread_control ow RT_THREAD_CTRL_CHANGE_PRIORITY (th_current_priority th0);; mret tt) k0 = Ok tt k2 /\
    kwf k2 /\ inherited k0 ow oth k2.
Proof.
  intros Hth Hoth. destruct k0_kwf as [Hk0 Hb0]. change (th_current_priority th0) with (th_current_priority th).
  destruct (th_current_priority th <? th_current_priority oth) eqn:E; cbn [when].
  - pose proof (sw_thread _ _ (kw_sched _ Hk) _ _ (cb_thread _ _ _ Hb)) as (_ & _ & Hp & _).
    destruct (control_priority_run k0 ow (th_current_priority th) oth Hk0 Hth Hoth Hp) as (s' & Ec & Hk' & Hr).
    exists (put_sched s' k0). rewrite (bind_ok _ _ _ _ _ Ec). split; [done|]. split; [done|].
    destruct Hr as [R1 R2 R3 R4 R5 R6]. split; try done; [by rewrite E|].
    intros h Hh. apply R5. intros q ->. by destruct Hh.
  - exists k0. split; [done|]. split; [done|]. split; try done. by rewrite E.
Qed.

Lemma mutex_take_block time oth :
  mutex_value x = 0 -> mutex_owner x <> t -> ipc_flag (mutex_flag x) -> time <> 0 ->
  time < RT_TICK_MAX / 2 -> threads k !! mutex_owner x = Some oth ->
  exists k1 k', rt_mutex_take o time k = Ok (Block (mk_mutex_pc o t time)) k' /\ kwf k' /\
    inherited k0 (mutex_owner x) oth k1 /\ kwf k1 /\
    blocked_on k1 (HSuspend o) t th0 (mutex_flag x) time k'.
Proof.
  intros Hv Hn Hf Ht0 Ht Hoth. destruct k0_kwf as [Hk0 Hb0]. destruct mutex_inv as (Hok & _ & Hh).
  destruct (mx_owner _ _ (mutex_ok_reset _ Hok) Hv) as [Hth _].
  assert (Hoth0 : threads k0 !! mutex_owner x = Some oth).
  { unfold k0, k_reset, k_put, threads. cbn. by rewrite lookup_insert_ne. }
  destruct (inherit_run (mutex_owner x) oth Hth Hoth0) as (k1 & E1 & Hk1 & Hi).
  pose proof Hi as [I1 I2 I3 I4 I5 I6 I7 I8].
  assert (Hb1 : can_block k1 t th0).
  { destruct Hb0 as [B1 B2 B3 B4]. split; [|by rewrite I6|done|by rewrite I7].
    rewrite I1. case_match; [by rewrite lookup_insert_ne|done]. }
  destruct (block_run k1 (HSuspend o) t th0 (mutex_flag x) time)
    as (k2 & k3 & k4 & F1 & F2 & F3 & _ & Hk4 & Hbl); try done; [by apply I8| |].
  { apply (mutex_may_wait k1 o x); [unfold is_mutex, has_type; by rewrite I4|by rewrite I3|done]. }
  exists k1, k4. split; [|split_and!; done].
  rewrite (take_prefix (fun _ => Ok (Block (mk_mutex_pc o t time)) k4)); [done|].
  rewrite (proj2 (Z.eqb_neq _ _) Hn). unfold mutex_take_again.
  erewrite (bind_ok (get_mutex o)) by (apply get_mutex_run; exact Hx).
  rewrite (bind_ok _ _ _ _ _ (k_thread_run _ _ _ (cb_thread _ _ _ Hb0))), Hv. cbn [Z.ltb Z.compare].
  rewrite (proj2 (Z.eqb_neq _ _) Ht0), (bind_ok _ _ _ _ _ (k_thread_run _ _ _ Hoth0)).
  rewrite (bind_ok _ _ _ _ _ E1), (bind_ok _ _ _ _ _ F1), (bind_ok _ _ _ _ _ F2).
  by rewrite (bind_ok _ _ _ _ _ F3).
Qed.

End Take.

(** ** Release *)

Section Release.
Variables (k : kstate) (o t : Z) (x : rt_mutex) (th : rt_thread).
Hypotheses (Hk : kwf k) (Ho : is_mutex k o) (Hx : ip_mutex (k_ipc k) !! o = Some x)
  (Hb : can_block k t th).

Lemma release_prefix :
  rt_mutex_release o k =
  (if negb (t =? mutex_owner x) then
    liftS (upd_thread t (set_error (- RT_ERROR)));;
    mret (- RT_ERROR)
  else
    upd_mutex o (fun x => {| x with mutex_hold := u8 (mutex_hold x - 1) |});;
    x ← get_mutex o;
    if mutex_hold x =? 0 then
      owner ← liftS (get_thread (mutex_owner x));
      when (negb (mutex_original_priority x =? th_current_priority owner))
        (rt_thread_control (mutex_owner x) RT_THREAD_CTRL_CHANGE_PRIORITY
           (mutex_original_priority x);; mret tt);;
      empty ← liftS (tlist_isempty (HSuspend o));
      if negb empty then
        next ← first_waiter (HSuspend o);
        th ← liftS (get_thread next);
        upd_mutex o (mutex_own next (th_current_priority th));;
        rt_ipc_list_resume (HSuspend o);;
        liftS rt_schedule;;
        mret RT_EOK
      else
        upd_mutex o (fun x => {| x with mutex_value := u16 (mutex_value x + 1);
                                        mutex_owner := RT_NULL;
                                        mutex_original_priority := 0xff |});;
        mret RT_EOK
    else mret RT_EOK) k.
Proof.
  unfold rt_mutex_release. rewrite check_run by done.
  rewrite (bind_ok _ _ _ _ _ (thread_context_run _ _ _ Hk Hb)).
  rewrite (bind_ok _ _ _ _ _ (k_self_run k)), <- (cb_current _ _ _ Hb).
  by rewrite (bind_ok _ _ _ _ _ (get_mutex_run _ _ _ Hx)).
Qed.

Lemma mutex_release_other :
  mutex_owner x <> t ->
  rt_mutex_release o k = Ok (- RT_ERROR) (k_put t (set_error (- RT_ERROR) th) k) /\
  kwf (k_put t (set_error (- RT_ERROR) th) k).
Proof.
  intros Hn. split; [|eapply kwf_put_same; [done|apply Hb|apply set_error_same]].
  rewrite release_prefix. rewrite (proj2 (Z.eqb_neq t _) (not_eq_sym Hn)). cbn [negb].
  by rewrite (bind_ok _ _ _ _ _ (k_upd_thread_run _ _ _ _ (cb_thread _ _ _ Hb))).
Qed.

Hypothesis Hown : mutex_owner x = t.

Let x1 := {| x with mutex_hold := u8 (mutex_hold x - 1) |}.
Let k1 := put_mutex o x1 k.

Lemma release_value : mutex_value x = 0 /\ 0 <= mutex_original_priority x < RT_THREAD_PRIORITY_MAX.
Proof.
  destruct (mutex_inv k o x Hk Ho Hx) as (Hok & _ & _).
  assert (Hv : mutex_value x = 0).
  { destruct (mx_value _ _ Hok) as [|E]; [done|]. exfalso. pose proof (mx_free _ _ Hok E) as E2.
    rewrite Hown in E2. pose proof (nonnull_thread _ _ _ Hk (cb_thread _ _ _ Hb)) as E3.
    by rewrite E2 in E3. }
  split; [done|apply (mx_owner _ _ Hok Hv)].
Qed.

Lemma k1_kwf : kwf k1.
Proof.
  destruct (mutex_inv k o x Hk Ho Hx) as (Hok & Hw & _). apply kwf_put_mutex; [done| |done].
  destruct Hok. by split.
Qed.

Lemma mutex_release_nested :
  u8 (mutex_hold x - 1) <> 0 -> rt_mutex_release o k = Ok RT_EOK k1 /\ kwf k1.
Proof.
  intros Hh. split; [|apply k1_kwf]. rewrite release_prefix.
  rewrite Hown, Z.eqb_refl. cbn [negb]. rewrite (bind_ok _ _ _ _ _ (upd_mutex_run _ _ _ _ Hx)).
  erewrite bind_ok by (apply get_mutex_run, lookup_insert_eq). cbn [mutex_hold].
  by rewrite (proj2 (Z.eqb_neq _ _) Hh).
Qed.

(** The priority the owner had when it took the mutex is restored. *)
Record restored (k2 : kstate) : Prop := {
  rs_kwf : kwf k2;
  rs_threads : threads k2 = if mutex_original_priority x =? th_current_priority th
    then threads k else <[t := with_prio (mutex_original_priority x) th]> (threads k);
  rs_wait : forall h, is_wait h -> waiters k2 h = waiters k h;
  rs_heads : forall h, head_exists k h -> head_exists k2 h;
  rs_ipc : k_ipc k2 = k_ipc k1;
  rs_obj : k_obj k2 = k_obj k;
  rs_ts : k_ts k2 = k_ts k;
  rs_current : sc_current (k_sched k2) = sc_current (k_sched k)
}.

Lemma restore_run :
  exists k2, when (negb (mutex_original_priority x =? th_current_priority th))
      (rt_thread_control t RT_THREAD_CTRL_CHANGE_PRIORITY (mutex_original_priority x);; mret tt) k1 = Ok tt k2 /\
    restored k2.
Proof.
  pose proof k1_kwf as Hk1. destruct release_value as [Hv Hp].
  destruct (mutex_original_priority x =? th_current_priority th) eqn:E; cbn [negb when].
  - exists k1. split; [done|]. split; try done. by rewrite E.
  - destruct (control_priority_run k1 t (mutex_original_priority x) th Hk1) as (s' & Ec & Hk' & Hr);
      [exact (current_is_thread _ _ _ Hk Hb)|apply Hb|done|].
    exists (put_sched s' k1). rewrite (bind_ok _ _ _ _ _ Ec). split; [done|].
    destruct Hr as [R1 R2 R3 R4 R5 R6]. split; try done; [by rewrite E|].
    intros h Hh. apply R5. intros q ->. by destruct Hh.
Qed.

(** The last release. *)
Lemma release_last_prefix k2 (Hh : u8 (mutex_hold x - 1) = 0) :
  when (negb (mutex_original_priority x =? th_current_priority th))
      (rt_thread_control t RT_THREAD_CTRL_CHANGE_PRIORITY (mutex_original_priority x);; mret tt) k1 = Ok tt k2 ->
  restored k2 ->
  rt_mutex_release o k =
   (if negb (bool_decide (waiters k (HSuspend o) = [])) then
        next ← first_waiter (HSuspend o);
        th ← liftS (get_thread next);
        upd_mutex o (mutex_own next (th_current_priority th));;
        rt_ipc_list_resume (HSuspend o);;
        liftS rt_schedule;;
        mret RT_EOK
      else
        upd_mutex o (fun x => {| x with mutex_value := u16 (mutex_value x + 1);
                                        mutex_owner := RT_NULL;
                                        mutex_original_priority := 0xff |});;
        mret RT_EOK) k2.
Proof.
  intros E2 Hr. rewrite release_prefix. rewrite Hown, Z.eqb_refl. cbn [negb].
  rewrite (bind_ok _ _ _ _ _ (upd_mutex_run _ _ _ _ Hx)).
  erewrite (bind_ok (get_mutex o)) by (apply get_mutex_run, lookup_insert_eq).
  cbn [mutex_hold mutex_owner mutex_original_priority]. rewrite (proj2 (Z.eqb_eq _ _) Hh), Hown.
  erewrite (bind_ok (liftS (get_thread t))) by (apply k_thread_run; apply (cb_thread _ _ _ Hb)).
  assert (Ek : put_mutex o (mk_mutex (mutex_flag x) (mutex_value x) (mutex_original_priority x)
    (u8 (mutex_hold x - 1)) t) k = k1) by (unfold k1, x1; by rewrite Hown).
  rewrite Ek, (bind_ok _ _ _ _ _ E2).
  destruct (mutex_inv k o x Hk Ho Hx) as (_ & _ & Hhe).
  rewrite (bind_ok _ _ _ _ _ (k_isempty_run k2 _ (rs_heads _ Hr _ Hhe))).
  by rewrite (rs_wait _ Hr (HSuspend o) I).
Qed.

Lemma mutex_release_free :
  u8 (mutex_hold x - 1) = 0 -> waiters k (HSuspend o) = [] ->
  exists k2, restored k2 /\
    let k' := put_mutex o (mk_mutex (mutex_flag x) 1 0xff 0 RT_NULL) k2 in
    rt_mutex_release o k = Ok RT_EOK k' /\ kwf k'.
Proof.
  intros Hh Hw. destruct restore_run as (k2 & E2 & Hr). exists k2. split; [done|]. cbv zeta.
  assert (Ex : ip_mutex (k_ipc k2) !! o = Some x1) by (rewrite (rs_ipc _ Hr); apply lookup_insert_eq).
  destruct release_value as [Hv _]. split.
  - rewrite (release_last_prefix k2 Hh E2 Hr), Hw, bool_decide_true by done. cbn [negb].
    rewrite (bind_ok _ _ _ _ _ (upd_mutex_run _ _ _ _ Ex)). unfold x1. cbn. by rewrite Hv, Hh.
  - apply kwf_put_mutex; [apply Hr| |].
    + split; cbn; [by right|done|done].
    + intros _. by rewrite (rs_wait _ Hr (HSuspend o) I).
Qed.

(** The mutex passes to the first waiter. *)
Definition handed (next : Z) (nth : rt_thread) : rt_mutex :=
  mk_mutex (mutex_flag x) 0 (th_current_priority nth) 1 next.

Lemma mutex_release_hand next rest :
  u8 (mutex_hold x - 1) = 0 -> waiters k (HSuspend o) = next :: rest ->
  exists k2 nth s', restored k2 /\ threads k2 !! next = Some nth /\ stat_of nth = RT_THREAD_SUSPEND /\
    let k3 := put_mutex o (handed next nth) k2 in
    rescheduled (k_sched (k_resume next nth k3)) s' /\
    rt_mutex_release o k = Ok RT_EOK (put_sched s' (k_resume next nth k3)) /\
    kwf (put_sched s' (k_resume next nth k3)) /\ kwf k3.
Proof.
  intros Hh Hw. destruct restore_run as (k2 & E2 & Hr). pose proof (rs_kwf _ Hr) as Hk2.
  assert (Ex : ip_mutex (k_ipc k2) !! o = Some x1) by (rewrite (rs_ipc _ Hr); apply lookup_insert_eq).
  assert (Hw2 : waiters k2 (HSuspend o) = next :: rest) by by rewrite (rs_wait _ Hr (HSuspend o) I).
  destruct release_value as [Hv _].
  destruct (wait_suspended k2 (HSuspend o) next Hk2 I) as (nth & Hn & Hs); [rewrite Hw2; set_solver|].
  assert (E3 : mutex_own next (th_current_priority nth) x1 = handed next nth).
  { unfold mutex_own, handed, x1. cbn. by rewrite Hh, Hv. }
  set (k3 := put_mutex o (handed next nth) k2).
  assert (Hk3 : kwf k3).
  { apply kwf_put_mutex; [done| |cbn; lia]. split; cbn; [by left|lia|]. intros _. split.
    - split; [by eexists|]. apply (kw_live _ Hk2 next nth Hn). by rewrite Hs.
    - by destruct (sw_thread _ _ (kw_sched _ Hk2) _ _ Hn) as (_ & _ & Hp & _). }
  destruct (list_resume_run k3 (HSuspend o) next rest Hk3 I Hw2) as (nth' & Hn' & _ & Er & Hk4).
  assert (nth' = nth) as -> by (unfold threads in *; cbn in Hn'; congruence).
  destruct (k_schedule_run (k_resume next nth k3) Hk4) as (s' & Es & Hk5 & Hres).
  { rewrite (wf_current _ _ (k_resume_frame k3 next nth)). cbn. rewrite (rs_current _ Hr), <- (cb_current _ _ _ Hb).
    apply (sw_thread _ _ (kw_sched _ Hk) _ _ (cb_thread _ _ _ Hb)). }
  exists k2, nth, s'. split; [done|]. split; [done|]. split; [done|]. split; [done|]. split; [|done].
  rewrite (release_last_prefix k2 Hh E2 Hr), Hw, bool_decide_false by done. cbn [negb].
  rewrite (bind_ok _ _ _ _ _ (first_waiter_run _ _ _ _ Hw2)), (bind_ok _ _ _ _ _ (k_thread_run _ _ _ Hn)).
  rewrite (bind_ok _ _ _ _ _ (upd_mutex_run _ _ _ _ Ex)), E3. fold k3.
  rewrite (bind_ok _ _ _ _ _ Er). by rewrite (bind_ok _ _ _ _ _ Es).
Qed.

End Release.

(** ** Initialisation *)

Lemma mutex_init_run k o name flag :
  kwf k -> fresh k o ->
  exists k', rt_mutex_init o name flag k = Ok RT_EOK k' /\ kwf k' /\ is_mutex k' o /\
    ip_mutex (k_ipc k') !! o = Some (new_mutex flag) /\ waiters k' (HSuspend o) = [] /\ has_static k' (AObj o) true.
Proof.
  intros Hk Hf. destruct (static_type (name_copy RT_NAME_MAX name) RT_Object_Class_Mutex) as [T1 _]; [class_mem|].
  destruct (ipc_init_run k o RT_Object_Class_Mutex name) as (s' & k1 & E1 & E2 & Ei & Hh & Hst & Hty & Hnew);
    [done|done|class_mem|].
  assert (Hn := Hnew (let i := k_ipc k1 in {| i with ip_mutex := <[o := new_mutex flag]> (ip_mutex i) |})).
  specialize (Hn ltac:(rewrite Ei; intros x Hx; cbn; by rewrite lookup_insert_ne)).
  assert (Hw : waiters k1 (HSuspend o) = []).
  { etransitivity; [apply (in_waiters _ _ _ _ Hn (HSuspend o))|apply (fr_waiters _ _ Hf)]. }
  exists (put_mutex o (new_mutex flag) k1). split; [|split; [|split; [done|]]].
  - unfold rt_mutex_init. rewrite (proj2 (Z.eqb_neq o RT_NULL) (fr_null _ _ Hf)), bind_assert by done.
    rewrite (bind_ok _ _ _ _ _ E1), (bind_ok _ _ _ _ _ E2). done.
  - apply (kwf_new_obj k o _ _ Hk Hf Hn). intros _. rewrite T1. split; try done.
    intros _. exists (new_mutex flag). split; [apply lookup_insert_eq|]. split; [|done].
    split; [by right|done|done].
  - split; [apply lookup_insert_eq|by split].
Qed.

End Spec.

(** ** Theorems *)

Section Thm.
Context `{CO : ConfigOk} {HP : Heap} {HO : HeapOk HP}.

Lemma prio_put (s s' : sched) t th th' y :
  sc_threads s' = <[t := th']> (sc_threads s) -> sc_threads s !! t = Some th ->
  th_current_priority th' = th_current_priority th -> prio_of s' y = prio_of s y.
Proof.
  intros E Ht Ep. unfold prio_of. rewrite E. destruct (decide (y = t)) as [->|].
  - by rewrite lookup_insert_eq, Ht.
  - by rewrite lookup_insert_ne.
Qed.

(** C5: [rt_mutex_take] on every branch.  The owner takes its mutex again by
    counting one more hold.  A free mutex is taken at once: the caller becomes
    the owner and its priority is recorded.  A mutex of another owner is
    refused with [-RT_ETIMEOUT] when there is no waiting time; otherwise the
    caller lends the owner its priority if that is higher, and waits in the
    list of the mutex.  The kernel stays well formed. *)
Theorem mutex_take_correct (k : kstate) (o t time : Z) (x : rt_mutex) (th : rt_thread) (Hk : kwf k)
    (Ho : is_mutex k o) (Hx : ip_mutex (k_ipc k) !! o = Some x) (Hf : ipc_flag (mutex_flag x))
    (Hb : can_block k t th) (Ht : time < RT_TICK_MAX / 2) :
  let k0 := k_reset t th k in
  (mutex_owner x = t ->
     let k' := put_mutex o {| x with mutex_hold := u8 (mutex_hold x + 1) |} k0 in
     rt_mutex_take o time k = Ok (Return RT_EOK) k' /\ kwf k') /\
  (0 < mutex_value x ->
     let k' := put_mutex o (mk_mutex (mutex_flag x) 0 (th_current_priority th) (u8 (mutex_hold x + 1)) t) k0 in
     rt_mutex_take o time k = Ok (Return RT_EOK) k' /\ kwf k') /\
  (mutex_value x = 0 -> mutex_owner x <> t -> time = 0 ->
     let k' := k_put t (set_error (- RT_ETIMEOUT) th) k in
     rt_mutex_take o time k = Ok (Return (- RT_ETIMEOUT)) k' /\ kwf k') /\
  (mutex_value x = 0 -> mutex_owner x <> t -> time <> 0 ->
     exists oth k1 k', threads k !! mutex_owner x = Some oth /\
       rt_mutex_take o time k = Ok (Block (mk_mutex_pc o t time)) k' /\ kwf k' /\
       inherited th k0 (mutex_owner x) oth k1 /\
       blocked_on k1 (HSuspend o) t (set_error RT_EOK th) (mutex_flag x) time k').
Proof.
  intros k0. split; [|split; [|split]].
  - intros Hown. by eapply mutex_take_recursive.
  - intros Hv. by eapply mutex_take_free.
  - intros Hv Hn ->. by eapply mutex_take_try.
  - intros Hv Hn Ht0. destruct (mutex_inv k o x Hk Ho Hx) as (Hok & _ & _).
    destruct (mx_owner _ _ Hok Hv) as [[[oth Hoth] _] _].
    destruct (mutex_take_block k o t x th Hk Ho Hx Hb time oth) as (k1 & k' & E & Hk' & Hi & _ & Hbl); try done.
    by exists oth, k1, k'.
Qed.

(** C29: priority inheritance: when [rt_mutex_take] blocks, the owner of the
    mutex ends up with the higher of its own and the caller's priority, so it
    is never outranked by a thread that waits for it, and the priority of no
    other thread changes. *)
Theorem mutex_take_inherits (k : kstate) (o t time : Z) (x : rt_mutex) (th : rt_thread) (Hk : kwf k)
    (Ho : is_mutex k o) (Hx : ip_mutex (k_ipc k) !! o = Some x) (Hf : ipc_flag (mutex_flag x))
    (Hb : can_block k t th) (Ht : time < RT_TICK_MAX / 2) (Ht0 : time <> 0)
    (Hv : mutex_value x = 0) (Hn : mutex_owner x <> t) :
  exists k', rt_mutex_take o time k = Ok (Block (mk_mutex_pc o t time)) k' /\
    prio_of (k_sched k') (mutex_owner x) =
      Z.min (prio_of (k_sched k) (mutex_owner x)) (prio_of (k_sched k) t) /\
    forall y, y <> mutex_owner x -> prio_of (k_sched k') y = prio_of (k_sched k) y.
Proof.
  destruct (mutex_inv k o x Hk Ho Hx) as (Hok & _ & _).
  destruct (mx_owner _ _ Hok Hv) as [[[oth Hoth] _] _]. pose proof (cb_thread _ _ _ Hb) as Hth.
  destruct (mutex_take_block k o t x th Hk Ho Hx Hb time oth) as (k1 & k' & E & Hk' & Hi & _ & Hbl); try done.
  exists k'. split; [done|]. pose proof (ih_threads _ _ _ _ _ Hi) as It.
  set (k0 := k_reset t th k) in *.
  assert (P0 : forall y, prio_of (k_sched k0) y = prio_of (k_sched k) y).
  { intros y. by apply (prio_put _ _ t th (set_error RT_EOK th)). }
  assert (Ht1 : threads k1 !! t = Some (set_error RT_EOK th)).
  { rewrite It. case_match; [rewrite lookup_insert_ne by done|]; apply lookup_insert_eq. }
  assert (P1 : forall y, prio_of (k_sched k') y = prio_of (k_sched k1) y).
  { intros y. by apply (prio_put _ _ t (set_error RT_EOK th) (set_stat RT_THREAD_SUSPEND (set_error RT_EOK th)));
      [apply Hbl|..]. }
  assert (Ho0 : threads k0 !! mutex_owner x = Some oth).
  { unfold k0, k_reset, k_put, threads. cbn. by rewrite lookup_insert_ne. }
  split; [|intros y Hy]; rewrite P1, <- !P0; unfold prio_of; fold (threads k1) (threads k0); rewrite It.
  - assert (Et0 : threads k0 !! t = Some (set_error RT_EOK th)) by apply lookup_insert_eq.
    destruct (Z.ltb_spec (th_current_priority th) (th_current_priority oth)); rewrite Et0, ?Ho0.
    + rewrite lookup_insert_eq. cbn. destruct (with_prio_fields (th_current_priority th) oth) as (_ & -> & _). lia.
    + cbn. lia.
  - case_match; [by rewrite lookup_insert_ne|done].
Qed.

(** C30: [rt_mutex_release] on every branch.  A thread that is not the owner
    gets [-RT_ERROR] and the mutex is not touched.  The owner gives back one
    hold; with the last one its priority becomes again the one it had when it
    took the mutex, and the mutex passes to the first waiter, which becomes
    the owner with one hold, its own priority recorded, and ready; or, when
    nobody waits, the mutex is free. *)
Theorem mutex_release_correct (k : kstate) (o t : Z) (x : rt_mutex) (th : rt_thread) (Hk : kwf k)
    (Ho : is_mutex k o) (Hx : ip_mutex (k_ipc k) !! o = Some x) (Hb : can_block k t th) :
  (mutex_owner x <> t ->
     let k' := k_put t (set_error (- RT_ERROR) th) k in
     rt_mutex_release o k = Ok (- RT_ERROR) k' /\ kwf k') /\
  (mutex_owner x = t -> u8 (mutex_hold x - 1) <> 0 ->
     let k' := put_mutex o {| x with mutex_hold := u8 (mutex_hold x - 1) |} k in
     rt_mutex_release o k = Ok RT_EOK k' /\ kwf k') /\
  (mutex_owner x = t -> mutex_hold x = 1 -> waiters k (HSuspend o) = [] ->
     exists k2, restored k o t x th k2 /\
       let k' := put_mutex o (mk_mutex (mutex_flag x) 1 0xff 0 RT_NULL) k2 in
       rt_mutex_release o k = Ok RT_EOK k' /\ kwf k') /\
  (forall next rest, mutex_owner x = t -> mutex_hold x = 1 -> waiters k (HSuspend o) = next :: rest ->
     exists k2 nth k', restored k o t x th k2 /\ threads k2 !! next = Some nth /\
       rt_mutex_release o k = Ok RT_EOK k' /\ kwf k' /\
       ip_mutex (k_ipc k') !! o = Some (mk_mutex (mutex_flag x) 0 (th_current_priority nth) 1 next) /\
       threads k' = <[next := set_stat RT_THREAD_READY nth]> (threads k2) /\
       waiters k' (HSuspend o) = rest).
Proof.
  assert (H1 : forall h, h = 1 -> u8 (h - 1) = 0) by (by intros h ->).
  split; [|split; [|split]].
  - intros Hn. by eapply mutex_release_other.
  - intros Hown Hh. by eapply mutex_release_nested.
  - intros Hown Hh Hw. apply mutex_release_free; auto.
  - intros next rest Hown Hh Hw.
    destruct (mutex_release_hand k o t x th Hk Ho Hx Hb Hown next rest (H1 _ Hh) Hw)
      as (k2 & nth & s' & Hr & Hn & Hs & Hres & E & Hk' & Hk3).
    set (k3 := put_mutex o (handed x next nth) k2) in *.
    assert (Hw3 : waiters k3 (HSuspend o) = next :: rest).
    { rewrite <- Hw. exact (rs_wait _ _ _ _ _ _ Hr (HSuspend o) I). }
    destruct (woken_first k3 (HSuspend o) next rest nth s' Hk3 I Hw3 Hn Hs Hres) as [W1 W2].
    eexists k2, nth, _. split; [done|]. split; [done|]. split; [exact E|]. split; [done|].
    split; [apply lookup_insert_eq|]. split; [exact W2|exact W1].
Qed.

(** the 8-bit hold counter wraps: the owner of a mutex with hold 255 takes
    it twice more with [RT_EOK], after which a single release frees the mutex
    (nobody waiting) although 256 more are due. *)
Theorem mutex_hold_wraps (k : kstate) (o t : Z) (x : rt_mutex) (th : rt_thread) (Hk : kwf k)
    (Ho : is_mutex k o) (Hx : ip_mutex (k_ipc k) !! o = Some x) (Hb : can_block k t th)
    (Hown : mutex_owner x = t) (Hh : mutex_hold x = 255) (Hw : waiters k (HSuspend o) = []) :
  exists k1 k2 k3, rt_mutex_take o RT_WAITING_FOREVER k = Ok (Return RT_EOK) k1 /\
    rt_mutex_take o RT_WAITING_FOREVER k1 = Ok (Return RT_EOK) k2 /\
    rt_mutex_release o k2 = Ok RT_EOK k3 /\
    ip_mutex (k_ipc k3) !! o = Some (mk_mutex (mutex_flag x) 1 0xff 0 RT_NULL).
Proof.
  destruct (mutex_take_recursive k o t x th Hk Ho Hx Hb RT_WAITING_FOREVER Hown) as [E1 Hk1].
  set (x1 := {| x with mutex_hold := u8 (mutex_hold x + 1) |}) in *.
  set (k1 := put_mutex o x1 (k_reset t th k)) in *.
  assert (Hb1 : can_block k1 t (set_error RT_EOK th)).
  { destruct (reset_error_run k t th Hk Hb) as (_ & _ & [B1 B2 B3 B4]). by split. }
  assert (Hx1 : ip_mutex (k_ipc k1) !! o = Some x1) by apply lookup_insert_eq.
  destruct (mutex_take_recursive k1 o t x1 _ Hk1 Ho Hx1 Hb1 RT_WAITING_FOREVER Hown) as [E2 Hk2].
  set (x2 := {| x1 with mutex_hold := u8 (mutex_hold x1 + 1) |}) in *.
  set (k2 := put_mutex o x2 (k_reset t _ k1)) in *.
  assert (Hb2 : can_block k2 t (set_error RT_EOK (set_error RT_EOK th))).
  { destruct (reset_error_run k1 t _ Hk1 Hb1) as (_ & _ & [B1 B2 B3 B4]). by split. }
  assert (Hx2 : ip_mutex (k_ipc k2) !! o = Some x2) by apply lookup_insert_eq.
  destruct (mutex_release_free k2 o t x2 _ Hk2 Ho Hx2 Hb2 Hown) as (k3 & _ & E3 & _).
  - cbn. by rewrite Hh.
  - exact Hw.
  - eexists k1, k2, _. split; [done|]. split; [done|]. split; [exact E3|]. apply lookup_insert_eq.
Qed.

End Thm.

(** ** Instances

    Thread 100 sleeps, thread 200 takes mutex 500, thread 100 wakes and then
    waits for the mutex. *)

#[local] Existing Instance default_config.
#[local] Existing Instance bump_heap.
#[local] Existing Instance bump_heap_ok.

Definition demo_mtx0 : kstate := after (rt_mutex_init 500 [109] RT_IPC_FLAG_PRIO) demo.
Definition demo_mtx1 : kstate := after (rt_thread_sleep 2) demo_mtx0.
Definition demo_mtx2 : kstate := after (rt_mutex_take 500 RT_WAITING_FOREVER) demo_mtx1.
Definition demo_mtx3 : kstate := after (rt_thread_resume t_high) demo_mtx2.
Definition demo_mtx4 : kstate := after (liftS rt_schedule) demo_mtx3.
Definition demo_mtx5 : kstate := after (rt_mutex_take 500 RT_WAITING_FOREVER) demo_mtx4.

Definition mtx_free : rt_mutex := new_mutex RT_IPC_FLAG_PRIO.
Definition mtx_low : rt_mutex := mk_mutex RT_IPC_FLAG_PRIO 0 10 1 t_low.

Lemma demo_mtx0_kwf : kwf demo_mtx0.
Proof.
  destruct (mutex_init_run demo 500 [109] RT_IPC_FLAG_PRIO) as (k & E & Hk & _).
  - apply demo_kwf.
  - apply freshb_ok. by vm_compute.
  - unfold demo_mtx0. rewrite (after_ok _ _ _ _ E). exact Hk.
Qed.

Lemma demo_mtx1_kwf : kwf demo_mtx1.
Proof.
  destruct (sleep_run demo_mtx0 t_high (thread_of demo_mtx0 t_high) 2) as (k & E & Hk & _).
  - apply demo_mtx0_kwf.
  - split; by vm_compute.
  - by vm_compute.
  - unfold demo_mtx1. rewrite (after_ok _ _ _ _ E). exact Hk.
Qed.

Lemma demo_mtx2_kwf : kwf demo_mtx2.
Proof.
  destruct (mutex_take_free demo_mtx1 500 t_low mtx_free (thread_of demo_mtx1 t_low)) with (time := RT_WAITING_FOREVER)
    as [E Hk].
  - apply demo_mtx1_kwf.
  - eexists. split; by vm_compute.
  - by vm_compute.
  - split; by vm_compute.
  - reflexivity.
  - unfold demo_mtx2. rewrite (after_ok _ _ _ _ E). exact Hk.
Qed.

Lemma demo_mtx3_kwf : kwf demo_mtx3.
Proof.
  destruct (thread_resume_run demo_mtx2 t_high (thread_of demo_mtx2 t_high)) as [E Hk].
  - apply demo_mtx2_kwf.
  - by vm_compute.
  - by vm_compute.
  - unfold demo_mtx3. rewrite (after_ok _ _ _ _ E). exact Hk.
Qed.

Lemma demo_mtx4_kwf : kwf demo_mtx4.
Proof.
  destruct (k_schedule_run demo_mtx3) as (s' & E & Hk & _).
  - apply demo_mtx3_kwf.
  - by vm_compute.
  - unfold demo_mtx4. rewrite (after_ok _ _ _ _ E). exact Hk.
Qed.

Lemma demo_mtx5_kwf : kwf demo_mtx5.
Proof.
  destruct (mutex_take_block demo_mtx4 500 t_high mtx_low (thread_of demo_mtx4 t_high))
    with (time := RT_WAITING_FOREVER) (oth := thread_of demo_mtx4 t_low) as (k1 & k & E & Hk & _).
  - apply demo_mtx4_kwf.
  - eexists. split; by vm_compute.
  - by vm_compute.
  - split; by vm_compute.
  - reflexivity.
  - discriminate.
  - by right.
  - discriminate.
  - by vm_compute.
  - by vm_compute.
  - unfold demo_mtx5. rewrite (after_ok _ _ _ _ E). exact Hk.
Qed.

#[global] Opaque demo_mtx0 demo_mtx1 demo_mtx2 demo_mtx3 demo_mtx4 demo_mtx5.

Lemma mutex_take_correct_witness :
  rt_mutex_take 500 RT_WAITING_FOREVER demo_mtx1 =
    Ok (Return RT_EOK) (put_mutex 500 (mk_mutex RT_IPC_FLAG_PRIO 0 (th_current_priority (thread_of demo_mtx1 t_low)) 1 t_low)
      (k_reset t_low (thread_of demo_mtx1 t_low) demo_mtx1)).
Proof.
  destruct (mutex_take_correct demo_mtx1 500 t_low RT_WAITING_FOREVER mtx_free (thread_of demo_mtx1 t_low))
    as (_ & H & _).
  - apply demo_mtx1_kwf.
  - eexists. split; by vm_compute.
  - by vm_compute.
  - by right.
  - split; by vm_compute.
  - by vm_compute.
  - exact (proj1 (H eq_refl)).
Defined.

Lemma mutex_take_inherits_witness :
  exists k', rt_mutex_take 500 RT_WAITING_FOREVER demo_mtx4 =
      Ok (Block (mk_mutex_pc 500 t_high RT_WAITING_FOREVER)) k' /\
    prio_of (k_sched k') t_low = 5.
Proof.
  destruct (mutex_take_inherits demo_mtx4 500 t_high RT_WAITING_FOREVER mtx_low (thread_of demo_mtx4 t_high))
    as (k' & E & Hp & _).
  - apply demo_mtx4_kwf.
  - eexists. split; by vm_compute.
  - by vm_compute.
  - by right.
  - split; by vm_compute.
  - by vm_compute.
  - discriminate.
  - reflexivity.
  - discriminate.
  - exists k'. split; [exact E|]. etransitivity; [exact Hp|]. by vm_compute.
Defined.

Lemma mutex_release_correct_witness :
  exists k', rt_mutex_release 500 demo_mtx5 = Ok RT_EOK k' /\ kwf k' /\ waiters k' (HSuspend 500) = [].
Proof.
  destruct (mutex_release_correct demo_mtx5 500 t_low mtx_low (thread_of demo_mtx5 t_low)) as (_ & _ & _ & H).
  - apply demo_mtx5_kwf.
  - eexists. split; by vm_compute.
  - by vm_compute.
  - split; by vm_compute.
  - destruct (H t_high []) as (k2 & nth & k' & _ & _ & E & Hk & _ & _ & Hw);
      [reflexivity|reflexivity|by vm_compute|].
    exists k'. split; [exact E|]. split; [exact Hk|exact Hw].
Defined.

(** The owner has taken the mutex 255 times. *)
Definition mtx_full : rt_mutex := mk_mutex RT_IPC_FLAG_PRIO 0 10 255 t_low.
Definition demo_mtx_full : kstate := put_mutex 500 mtx_full demo_mtx2.

Lemma demo_mtx_full_kwf : kwf demo_mtx_full.
Proof.
  apply kwf_put_mutex; [apply demo_mtx2_kwf| |cbn; lia].
  split; cbn; [by left|lia|]. intros _. split; [|done].
  apply (current_is_thread demo_mtx2 t_low (thread_of demo_mtx2 t_low) demo_mtx2_kwf). split; by vm_compute.
Qed.

Lemma mutex_hold_wraps_witness :
  exists k1 k2 k3, rt_mutex_take 500 RT_WAITING_FOREVER demo_mtx_full = Ok (Return RT_EOK) k1 /\
    rt_mutex_take 500 RT_WAITING_FOREVER k1 = Ok (Return RT_EOK) k2 /\
    rt_mutex_release 500 k2 = Ok RT_EOK k3 /\
    ip_mutex (k_ipc k3) !! 500 = Some (mk_mutex RT_IPC_FLAG_PRIO 1 0xff 0 RT_NULL).
Proof.
  apply (mutex_hold_wraps demo_mtx_full 500 t_low mtx_full (thread_of demo_mtx2 t_low)).
  - apply demo_mtx_full_kwf.
  - eexists. split; by vm_compute.
  - by vm_compute.
  - split; by vm_compute.
  - reflexivity.
  - reflexivity.
  - by vm_compute.
Defined.
