(* ===== verification/EventSpec.v ===== *)
(** * What event sets promise

    A send is specified by [wake_plan], which goes over the waiters in order
    and says which of them get which events and what is left of the set.  The
    walk of [rt_event_send] over the wait list, which resumes threads and
    clears events as it goes, is shown to carry out the plan; no waiter that
    could have been served is left behind. *)

From S2P Require Import Prelude Scheduler ReadyBitmap SchedInv SchedSpec Object ObjInv Timer.
From S2P Require Import TimerInv Kernel Thread Ipc Event KernelInv ThreadInv IpcInv BlockInv Boot.
From S2P Require Import Demo.

Section Spec.
Context `{CO : ConfigOk} {HP : Heap} {HO : HeapOk HP}.
Implicit Types (k : kstate).

Definition is_event (k : kstate) (o : Z) : Prop := has_type k (AObj o) RT_Object_Class_Event.

(** The threads woken, with the events each gets, and the remaining set. *)
Fixpoint wake_plan (m : gmap Z rt_thread) (l : list Z) (set : Z) : gmap Z Z * Z :=
  match l with
  | [] => (∅, set)
  | t :: l =>
      match m !! t with
      | None => wake_plan m l set
      | Some th =>
          match event_match (th_event_info th) (th_event_set th) set with
          | None => wake_plan m l set
          | Some got =>
              let r := wake_plan m l
                (if has (th_event_info th) RT_EVENT_FLAG_CLEAR then Z.land set (Z.lnot got) else set) in
              (<[t := got]> r.1, r.2)
          end
      end
  end.

(** A thread that has been given events. *)
Definition given (got : Z) (th : rt_thread) : rt_thread :=
  set_stat RT_THREAD_READY (set_event_info got (th_event_info th) th).

Lemma wake_plan_ext m m' l set :
  (forall t, t ∈ l -> m' !! t = m !! t) -> wake_plan m' l set = wake_plan m l set.
Proof.
  revert set. induction l as [|t l IH]; intros set H; [done|]. cbn [wake_plan].
  rewrite (H t) by set_solver. assert (IH' : forall s, wake_plan m' l s = wake_plan m l s).
  { intros s. apply IH. intros x Hx. apply H. set_solver. }
  destruct (m !! t) as [th|]; [|apply IH']. destruct (event_match _ _ _); [|apply IH']. by rewrite IH'.
Qed.

Lemma wake_plan_notin m l set t : t ∉ l -> (wake_plan m l set).1 !! t = None.
Proof.
  revert set. induction l as [|x l IH]; intros set Hn; [done|]. cbn [wake_plan].
  apply not_elem_of_cons in Hn as [H1 H2]. destruct (m !! x) as [th|]; [|by apply IH].
  destruct (event_match _ _ _); [|by apply IH]. cbn. rewrite lookup_insert_ne by done. by apply IH.
Qed.

(** ** Running the record operations *)

Lemma get_event_run k o x : ip_event (k_ipc k) !! o = Some x -> get_event o k = Ok x k.
Proof. intros E. unfold get_event. by rewrite E. Qed.

Lemma set_events_run k o x set :
  ip_event (k_ipc k) !! o = Some x -> set_events o set k = Ok tt (put_event o (mk_event (event_flag x) set) k).
Proof. intros E. unfold set_events. by rewrite (bind_ok _ _ _ _ _ (get_event_run _ _ _ E)). Qed.

Lemma kwf_put_event k o x : kwf k -> kwf (put_event o x k).
Proof.
  intros Hk. apply kwf_ipc; [done|]. destruct (kw_ipc _ Hk) as [H1 H2 H3 H4 H5]. split; try done.
  - intros o' Ho'. destruct (H2 o' Ho') as (? & x' & ? & ? & ?). split; [done|]. exists x'.
    split; [done|]. split; [by eapply mutex_ok_frame|done].
  - intros o' Ho'. destruct (H3 o' Ho') as (Hh & x' & E). split; [done|]. cbn.
    destruct (decide (o' = o)) as [->|Hne]; [exists x; apply lookup_insert_eq|exists x'; by rewrite lookup_insert_ne].
Qed.

Lemma event_may_wait k o : is_event k o -> may_wait k (HSuspend o).
Proof.
  intros Ho o' [= <-]. split; intros x Hs _; pose proof (type_unique _ _ _ _ Hs Ho); discriminate.
Qed.

(** ** The walk *)

(** The state after the threads of [w] have been given their events. *)
Record event_woken (o : Z) (k : kstate) (w : gmap Z Z) (set : Z) (k' : kstate) : Prop := {
  ew_threads : forall t, threads k' !! t =
    match w !! t with Some got => given got <$> threads k !! t | None => threads k !! t end;
  ew_waiters : waiters k' (HSuspend o) = filter (fun t => w !! t = None) (waiters k (HSuspend o));
  ew_others : forall h, is_wait h -> h <> HSuspend o -> waiters k' h = waiters k h;
  ew_event : forall x, ip_event (k_ipc k) !! o = Some x ->
    ip_event (k_ipc k') !! o = Some (mk_event (event_flag x) set);
  ew_obj : k_obj k' = k_obj k;
  ew_current : sc_current (k_sched k') = sc_current (k_sched k);
  ew_lock : sc_lock_nest (k_sched k') = sc_lock_nest (k_sched k);
  ew_irq : sc_irq_nest (k_sched k') = sc_irq_nest (k_sched k)
}.

(** One thread is given its events. *)
Definition k_give (o t got : Z) (th : rt_thread) (x : rt_event) (k : kstate) : kstate :=
  let th1 := set_event_info got (th_event_info th) th in
  let k1 := k_put t th1 k in
  let k2 := if has (th_event_info th) RT_EVENT_FLAG_CLEAR
            then put_event o (mk_event (event_flag x) (Z.land (event_set x) (Z.lnot got))) k1 else k1 in
  k_resume t th1 k2.

Lemma give_run k o t got th x :
  kwf k -> threads k !! t = Some th -> stat_of th = RT_THREAD_SUSPEND ->
  ip_event (k_ipc k) !! o = Some x ->
  (liftS (upd_thread t (set_event_info got (th_event_info th)));;
   when (has (th_event_info th) RT_EVENT_FLAG_CLEAR)
     (set_events o (Z.land (event_set x) (Z.lnot got)));;
   rt_thread_resume t) k = Ok RT_EOK (k_give o t got th x k) /\ kwf (k_give o t got th x k).
Proof.
  intros Hk Ht Hs Hx. set (th1 := set_event_info got (th_event_info th) th).
  assert (Hk1 : kwf (k_put t th1 k)) by (eapply kwf_put_same; [done|done|by split_and!]).
  rewrite (bind_ok _ _ _ _ _ (k_upd_thread_run _ _ _ _ Ht)). fold th1. fold (k_put t th1 k).
  unfold k_give. fold th1. destruct (has (th_event_info th) RT_EVENT_FLAG_CLEAR); cbn [when].
  - erewrite bind_ok by (apply set_events_run; exact Hx).
    apply thread_resume_run; [by apply kwf_put_event|apply lookup_insert_eq|done].
  - rewrite bind_mret. apply thread_resume_run; [done|apply lookup_insert_eq|done].
Qed.

Lemma give_threads k o t got th x :
  threads (k_give o t got th x k) = <[t := given got th]> (threads k).
Proof.
  unfold k_give. rewrite k_resume_threads. unfold given. case_match; unfold k_put, threads; cbn; by rewrite insert_insert_eq.
Qed.

Lemma give_waiters k o t got th x h :
  is_wait h -> waiters (k_give o t got th x k) h = unlink t (waiters k h).
Proof. intros Hh. unfold k_give. rewrite k_resume_waiters by done. by case_match. Qed.

Lemma give_event k o t got th x :
  ip_event (k_ipc k) !! o = Some x ->
  ip_event (k_ipc (k_give o t got th x k)) !! o = Some (mk_event (event_flag x)
    (if has (th_event_info th) RT_EVENT_FLAG_CLEAR then Z.land (event_set x) (Z.lnot got) else event_set x)).
Proof.
  intros Hx. unfold k_give. rewrite (wf_ipc _ _ (k_resume_frame _ _ _)).
  case_match; [apply lookup_insert_eq|]. cbn. rewrite Hx. by destruct x.
Qed.

Lemma event_woken_step o k t got th x w set k' :
  kwf k -> threads k !! t = Some th -> ip_event (k_ipc k) !! o = Some x -> t ∈ waiters k (HSuspend o) ->
  w !! t = None ->
  event_woken o (k_give o t got th x k) w set k' -> event_woken o k (<[t := got]> w) set k'.
Proof.
  intros Hk Ht Hx Hin Hw [E1 E2 E3 E4 E5 E6 E7 E8].
  pose proof (k_resume_frame (if has (th_event_info th) RT_EVENT_FLAG_CLEAR
     then put_event o (mk_event (event_flag x) (Z.land (event_set x) (Z.lnot got)))
            (k_put t (set_event_info got (th_event_info th) th) k)
     else k_put t (set_event_info got (th_event_info th) th) k) t (set_event_info got (th_event_info th) th))
    as [_ F2 _ F4 F5 F6 _ _].
  split.
  - intros y. rewrite E1, give_threads. destruct (decide (y = t)) as [->|Hne].
    + by rewrite Hw, !lookup_insert_eq, Ht.
    + by rewrite !lookup_insert_ne.
  - rewrite E2, give_waiters by done. unfold unlink. rewrite list_filter_filter.
    apply list_filter_iff. intros y. destruct (decide (y = t)) as [->|Hne].
    + rewrite lookup_insert_eq. split; [tauto|done].
    + rewrite lookup_insert_ne by done. tauto.
  - intros h Hh Hne. rewrite E3, give_waiters by done. apply unlink_notin. intros Hy. apply Hne.
    by eapply wait_disj.
  - intros x' Hx'. simplify_eq. by rewrite (E4 _ (give_event _ _ _ _ _ _ Hx)).
  - rewrite E5. unfold k_give. rewrite F2. by case_match.
  - rewrite E6. unfold k_give. rewrite F4. by case_match.
  - rewrite E7. unfold k_give. rewrite F5. by case_match.
  - rewrite E8. unfold k_give. rewrite F6. by case_match.
Qed.

Lemma event_woken_nil o k x :
  ip_event (k_ipc k) !! o = Some x -> event_woken o k ∅ (event_set x) k.
Proof.
  intros Hx. split; try done.
  - symmetry. induction (waiters k (HSuspend o)) as [|y l IH]; [done|].
    rewrite filter_cons_True by done. by rewrite IH.
  - intros x' Hx'. simplify_eq. rewrite Hx. by destruct x.
Qed.

Lemma event_wake_run o l k x ns :
  kwf k -> ip_event (k_ipc k) !! o = Some x -> NoDup l ->
  (forall t, t ∈ l -> t ∈ waiters k (HSuspend o)) ->
  let plan := wake_plan (threads k) l (event_set x) in
  exists k', event_wake o l ns k = Ok (ns || negb (bool_decide (plan.1 = ∅))) k' /\ kwf k' /\
    event_woken o k plan.1 plan.2 k'.
Proof.
  revert k x ns. induction l as [|t l IH]; intros k x ns Hk Hx Hnd Hin plan.
  { exists k. cbn. rewrite orb_false_r. split_and!; [done|done|by apply event_woken_nil]. }
  apply NoDup_cons in Hnd as [Hnt Hnd].
  destruct (wait_suspended k (HSuspend o) t Hk I) as (th & Ht & Hs); [apply Hin; set_solver|].
  cbn [event_wake]. rewrite (bind_ok _ _ _ _ _ (k_thread_run _ _ _ Ht)).
  rewrite (bind_ok _ _ _ _ _ (get_event_run _ _ _ Hx)). unfold plan. cbn [wake_plan]. rewrite Ht.
  destruct (event_match (th_event_info th) (th_event_set th) (event_set x)) as [got|] eqn:Em;
    [|apply IH; try done; set_solver].
  destruct (give_run k o t got th x Hk Ht Hs Hx) as [E1 Hk1]. set (k1 := k_give o t got th x k) in *.
  set (set1 := if has (th_event_info th) RT_EVENT_FLAG_CLEAR then Z.land (event_set x) (Z.lnot got) else event_set x).
  assert (Hin1 : forall y, y ∈ l -> y ∈ waiters k1 (HSuspend o)).
  { intros y Hy. unfold k1. rewrite give_waiters by done. apply elem_of_unlink. split; [apply Hin; set_solver|].
    by intros ->. }
  destruct (IH k1 (mk_event (event_flag x) set1) true Hk1 (give_event _ _ _ _ _ _ Hx) Hnd Hin1)
    as (k' & E' & Hk' & Hw). cbn [event_set] in *.
  assert (Ep : wake_plan (threads k1) l set1 = wake_plan (threads k) l set1).
  { apply wake_plan_ext. intros y Hy. unfold k1. rewrite give_threads, lookup_insert_ne; [done|].
    by intros <-. }
  rewrite Ep in *. exists k'. cbn. split; [|split; [done|]].
  - rewrite bool_decide_false by apply insert_non_empty. cbn. rewrite orb_true_r.
    transitivity (event_wake o l true k1); [clear -E1|exact E'].
    revert E1. unfold mbind, M_bind. destruct (liftS _ k) as [[] ka|]; [|done].
    destruct (when _ _ ka) as [[] kb|]; [|done]. destruct (rt_thread_resume t kb) as [r kc|]; [|done].
    by intros [= -> ->].
  - eapply event_woken_step; [done|done|exact Hx|apply Hin; set_solver|by apply wake_plan_notin|exact Hw].
Qed.

(** ** Nobody who could be served is left waiting *)

Definition subset (a b : Z) : Prop := Z.land a b = a.

Lemma event_match_mono info want s s' :
  subset s' s -> event_match info want s = None -> event_match info want s' = None.
Proof.
  unfold subset, event_match. intros Hs. destruct (has info RT_EVENT_FLAG_AND).
  - destruct (Z.eqb_spec (Z.land want s) want) as [|Hn]; [done|]. intros _.
    destruct (Z.eqb_spec (Z.land want s') want) as [E|]; [|done]. exfalso. apply Hn.
    by rewrite <- E, <- Z.land_assoc, Hs.
  - destruct (has info RT_EVENT_FLAG_OR); [|done]. unfold truthy.
    destruct (Z.eqb_spec (Z.land want s) 0) as [E|]; [|done]. intros _.
    assert (Z.land want s' = 0) as ->; [|done].
    by rewrite <- Hs, (Z.land_comm s'), Z.land_assoc, E, Z.land_0_l.
Qed.

Lemma subset_refl a : subset a a.
Proof. apply Z.land_diag. Qed.
Lemma subset_trans a b c : subset a b -> subset b c -> subset a c.
Proof. unfold subset. intros H1 H2. by rewrite <- H1, <- Z.land_assoc, H2. Qed.
Lemma subset_clear a b : subset (Z.land a b) a.
Proof. unfold subset. by rewrite <- Z.land_assoc, (Z.land_comm b), Z.land_assoc, Z.land_diag. Qed.

Lemma wake_plan_subset m l set : subset (wake_plan m l set).2 set.
Proof.
  revert set. induction l as [|t l IH]; intros set; [apply subset_refl|]. cbn [wake_plan].
  destruct (m !! t) as [th|]; [|apply IH]. destruct (event_match _ _ _) as [got|]; [|apply IH]. cbn.
  eapply subset_trans; [apply IH|]. case_match; [apply subset_clear|apply subset_refl].
Qed.

Lemma wake_plan_unserved m l set t th :
  NoDup l -> t ∈ l -> m !! t = Some th -> (wake_plan m l set).1 !! t = None ->
  event_match (th_event_info th) (th_event_set th) (wake_plan m l set).2 = None.
Proof.
  revert set. induction l as [|y l IH]; intros set Hnd Hin Ht Hn; [set_solver|].
  apply NoDup_cons in Hnd as [Hy Hnd]. cbn [wake_plan] in *. destruct (decide (t = y)) as [<-|Hne].
  - rewrite Ht in *. destruct (event_match (th_event_info th) (th_event_set th) set) as [got|] eqn:E.
    + cbn in Hn. by rewrite lookup_insert_eq in Hn.
    + eapply event_match_mono; [apply wake_plan_subset|done].
  - assert (Hin' : t ∈ l) by set_solver.
    destruct (m !! y) as [thy|]; [|by apply IH]. destruct (event_match _ _ set) as [got|]; [|by apply IH].
    cbn in *. rewrite lookup_insert_ne in Hn by done. by apply IH.
Qed.

(** ** Send *)

Lemma event_send_run k o x set :
  kwf k -> is_event k o -> ip_event (k_ipc k) !! o = Some x -> set <> 0 ->
  sc_current (k_sched k) <> RT_NULL ->
  let plan := wake_plan (threads k) (waiters k (HSuspend o)) (Z.lor (event_set x) set) in
  exists k1 s', event_woken o k plan.1 plan.2 k1 /\ kwf k1 /\
    rt_event_send o set k = Ok RT_EOK (put_sched s' k1) /\ kwf (put_sched s' k1) /\
    (plan.1 = ∅ -> s' = k_sched k1) /\ (plan.1 <> ∅ -> rescheduled (k_sched k1) s').
Proof.
  intros Hk Ho Hx Hs Hc plan. destruct (io_event _ (kw_ipc _ Hk) o Ho) as (Hh & _).
  set (x0 := mk_event (event_flag x) (Z.lor (event_set x) set)).
  set (k0 := put_event o x0 k). assert (Hk0 : kwf k0) by by apply kwf_put_event.
  assert (Hx0 : ip_event (k_ipc k0) !! o = Some x0) by apply lookup_insert_eq.
  destruct (event_wake_run o (waiters k (HSuspend o)) k0 x0 false Hk0 Hx0) as (k1 & E1 & Hk1 & Hw).
  { apply (sw_nodup _ _ (kw_sched _ Hk)). }
  { done. }
  change (wake_plan (threads k0) (waiters k (HSuspend o)) (event_set x0)) with plan in *.
  assert (Hw' : event_woken o k plan.1 plan.2 k1).
  { destruct Hw as [W1 W2 W3 W4 W5 W6 W7 W8]. split; try done. intros x' Hx'. simplify_eq. by rewrite (W4 _ Hx0). }
  assert (Hl : sc_lists (k_sched k0) !! HSuspend o = Some (waiters k (HSuspend o))).
  { destruct Hh as [l Hl]. unfold waiters, lget. cbn. by rewrite Hl. }
  assert (Hpre : rt_event_send o set k = (when (negb (bool_decide (plan.1 = ∅))) (liftS rt_schedule);; mret RT_EOK) k1).
  { unfold rt_event_send. rewrite check_run by done. rewrite (proj2 (Z.eqb_neq _ _) Hs).
    rewrite (bind_ok _ _ _ _ _ (get_event_run _ _ _ Hx)), (bind_ok _ _ _ _ _ (set_events_run _ _ _ _ Hx)).
    fold x0 k0. rewrite (bind_ok _ _ _ _ _ (k_list_run _ _ _ Hl)). by rewrite (bind_ok _ _ _ _ _ E1). }
  destruct (decide (plan.1 = ∅)) as [Hp|Hp].
  - exists k1, (k_sched k1). rewrite Hpre, bool_decide_true, put_sched_id by done. split_and!; done.
  - destruct (k_schedule_run k1 Hk1) as (s' & Es & Hk' & Hr); [by rewrite (ew_current _ _ _ _ _ Hw')|].
    exists k1, s'. rewrite Hpre, bool_decide_false by done. cbn [negb when].
    rewrite (bind_ok _ _ _ _ _ Es). split_and!; done.
Qed.

(** ** Receive *)

Section Recv.
Variables (k : kstate) (o t : Z) (x : rt_event) (th : rt_thread) (set opt : Z).
Hypotheses (Hk : kwf k) (Ho : is_event k o) (Hx : ip_event (k_ipc k) !! o = Some x)
  (Hb : can_block k t th) (Hset : set <> 0)
  (Hopt : has opt RT_EVENT_FLAG_AND = true \/ has opt RT_EVENT_FLAG_OR = true).

Let th0 := set_error RT_EOK th.
Let k0 := k_put t th0 k.

Lemma recv_prefix timeout :
  rt_event_recv o set opt timeout k =
    match event_match opt set (event_set x) with
    | Some _ =>
        when (has opt RT_EVENT_FLAG_CLEAR) (set_events o (Z.land (event_set x) (Z.lnot set)));;
        th ← liftS (get_thread t);
        mret (Return (th_error th, Some (Z.land (event_set x) set)))
    | None =>
        if timeout =? 0 then
          liftS (upd_thread t (set_error (- RT_ETIMEOUT)));;
          th ← liftS (get_thread t);
          mret (Return (th_error th, None))
        else
          liftS (upd_thread t (set_event_info set opt));;
          rt_ipc_list_suspend (HSuspend o) t (event_flag x);;
          wait_timer t timeout;;
          liftS rt_schedule;;
          mret (Block t)
    end k0.
Proof.
  unfold rt_event_recv. rewrite (bind_ok _ _ _ _ _ (thread_context_run _ _ _ Hk Hb)).
  rewrite check_run by done. rewrite (proj2 (Z.eqb_neq _ _) Hset).
  rewrite (bind_ok _ _ _ _ _ (k_self_run k)), <- (cb_current _ _ _ Hb).
  destruct (reset_error_run k t th Hk Hb) as (E0 & _). rewrite (bind_ok _ _ _ _ _ E0).
  erewrite (bind_ok (get_event o)) by (apply get_event_run; exact Hx).
  rewrite bind_assert; [done|]. by destruct Hopt as [-> | ->]; rewrite ?orb_true_r.
Qed.

Lemma event_recv_got timeout got :
  event_match opt set (event_set x) = Some got ->
  let k' := if has opt RT_EVENT_FLAG_CLEAR
            then put_event o (mk_event (event_flag x) (Z.land (event_set x) (Z.lnot set))) k0 else k0 in
  rt_event_recv o set opt timeout k = Ok (Return (RT_EOK, Some (Z.land (event_set x) set))) k' /\ kwf k'.
Proof.
  intros Em k'. destruct (reset_error_run k t th Hk Hb) as (_ & Hk0 & Hb0). fold th0 k0 in Hk0, Hb0. split.
  - rewrite recv_prefix, Em. unfold k'. destruct (has opt RT_EVENT_FLAG_CLEAR); cbn [when].
    + erewrite bind_ok by (apply set_events_run; exact Hx).
      by erewrite bind_ok by (apply k_thread_run; apply (cb_thread _ _ _ Hb0)).
    + rewrite bind_mret. by rewrite (bind_ok _ _ _ _ _ (k_thread_run _ _ _ (cb_thread _ _ _ Hb0))).
  - unfold k'. case_match; [by apply kwf_put_event|done].
Qed.

Lemma event_recv_try :
  event_match opt set (event_set x) = None ->
  let k' := k_put t (set_error (- RT_ETIMEOUT) th) k in
  rt_event_recv o set opt 0 k = Ok (Return (- RT_ETIMEOUT, None)) k' /\ kwf k'.
Proof.
  intros Em k'. split; [|eapply kwf_put_same; [done|apply Hb|apply set_error_same]].
  rewrite recv_prefix, Em. cbn [Z.eqb].
  erewrite bind_ok by (apply k_upd_thread_run, lookup_insert_eq).
  assert (Ek : put_sched (put_thread t (set_error (- RT_ETIMEOUT) th0) (k_sched k0)) k0 = k').
  { unfold k', k0, k_put, put_thread, put_sched. cbn. by rewrite insert_insert_eq. }
  rewrite Ek. by erewrite bind_ok by (apply k_thread_run, lookup_insert_eq).
Qed.

(** The caller waits with its interest recorded. *)
Lemma event_recv_block timeout :
  event_match opt set (event_set x) = None -> ipc_flag (event_flag x) -> timeout <> 0 ->
  timeout < RT_TICK_MAX / 2 ->
  let th1 := set_event_info set opt th0 in
  exists k', rt_event_recv o set opt timeout k = Ok (Block t) k' /\ kwf k' /\
    blocked_on (k_put t th1 k) (HSuspend o) t th1 (event_flag x) timeout k'.
Proof.
  intros Em Hf Ht0 Ht th1. destruct (io_event _ (kw_ipc _ Hk) o Ho) as (Hh & _).
  assert (Hk1 : kwf (k_put t th1 k)) by (eapply kwf_put_same; [done|apply Hb|by split_and!]).
  assert (Hb1 : can_block (k_put t th1 k) t th1).
  { destruct Hb as [B1 B2 B3 B4]. split; try done. apply lookup_insert_eq. }
  destruct (block_run (k_put t th1 k) (HSuspend o) t th1 (event_flag x) timeout)
    as (k2 & k3 & k4 & F1 & F2 & F3 & _ & Hk4 & Hbl); try done; [by apply event_may_wait|].
  exists k4. split; [|done]. rewrite recv_prefix, Em, (proj2 (Z.eqb_neq _ _) Ht0).
  erewrite bind_ok by (apply k_upd_thread_run, lookup_insert_eq). fold th1.
  assert (Ek : put_sched (put_thread t th1 (k_sched k0)) k0 = k_put t th1 k).
  { unfold k0, k_put, put_thread, put_sched. cbn. by rewrite insert_insert_eq. }
  rewrite Ek, (bind_ok _ _ _ _ _ F1), (bind_ok _ _ _ _ _ F2). by rewrite (bind_ok _ _ _ _ _ F3).
Qed.

End Recv.

(** ** Initialisation *)

Lemma event_init_run k o name flag :
  kwf k -> fresh k o ->
  exists k', rt_event_init o name flag k = Ok RT_EOK k' /\ kwf k' /\ is_event k' o /\
    ip_event (k_ipc k') !! o = Some (mk_event flag 0) /\ waiters k' (HSuspend o) = [] /\ has_static k' (AObj o) true.
Proof.
  intros Hk Hf. destruct (static_type (name_copy RT_NAME_MAX name) RT_Object_Class_Event) as [T1 _]; [class_mem|].
  destruct (ipc_init_run k o RT_Object_Class_Event name) as (s' & k1 & E1 & E2 & Ei & Hh & Hst & Hty & Hnew);
    [done|done|class_mem|].
  assert (Hn := Hnew (let i := k_ipc k1 in {| i with ip_event := <[o := mk_event flag 0]> (ip_event i) |})).
  specialize (Hn ltac:(rewrite Ei; intros x Hx; cbn; by rewrite lookup_insert_ne)).
  assert (Hw : waiters k1 (HSuspend o) = []).
  { etransitivity; [apply (in_waiters _ _ _ _ Hn (HSuspend o))|apply (fr_waiters _ _ Hf)]. }
  exists (put_event o (mk_event flag 0) k1). split; [|split; [|split; [done|]]].
  - unfold rt_event_init. rewrite (proj2 (Z.eqb_neq o RT_NULL) (fr_null _ _ Hf)), bind_assert by done.
    rewrite (bind_ok _ _ _ _ _ E1), (bind_ok _ _ _ _ _ E2). done.
  - apply (kwf_new_obj k o _ _ Hk Hf Hn). intros _. rewrite T1. split; try done.
    intros _. exists (mk_event flag 0). apply lookup_insert_eq.
  - split; [apply lookup_insert_eq|by split].
Qed.

End Spec.

(** ** Theorems *)

Section Thm.
Context `{CO : ConfigOk} {HP : Heap} {HO : HeapOk HP}.

(** [rt_event_send] adds the events to the set and carries out the wake
    plan of the waiters: going over them in order, each one whose AND or OR
    interest the set satisfies is given its events, is taken off the wait list
    and becomes ready, its events being cleared from the set when it asked for
    that before the next waiter is considered; the others keep waiting.  The
    scheduler runs when somebody was woken.  An empty set is refused. *)
Theorem event_send_correct (k : kstate) (o set : Z) (x : rt_event) (Hk : kwf k) (Ho : is_event k o)
    (Hx : ip_event (k_ipc k) !! o = Some x) (Hc : sc_current (k_sched k) <> RT_NULL) :
  rt_event_send o 0 k = Ok (- RT_ERROR) k /\
  (set <> 0 ->
   let plan := wake_plan (threads k) (waiters k (HSuspend o)) (Z.lor (event_set x) set) in
   exists k1 s', event_woken o k plan.1 plan.2 k1 /\
     rt_event_send o set k = Ok RT_EOK (put_sched s' k1) /\ kwf (put_sched s' k1) /\
     (plan.1 = ∅ -> s' = k_sched k1) /\ (plan.1 <> ∅ -> rescheduled (k_sched k1) s')).
Proof.
  split; [unfold rt_event_send; by rewrite check_run|]. intros Hs plan.
  destruct (event_send_run k o x set Hk Ho Hx Hs Hc) as (k1 & s' & Hw & _ & E & Hk' & H1 & H2).
  exists k1, s'. split_and!; done.
Qed.


(** [rt_event_recv] on every branch: a satisfied interest returns at once
    with the events asked for that are in the set, clearing what was asked for
    when the option says so; an unsatisfied one returns [-RT_ETIMEOUT] without
    waiting time, and otherwise suspends the caller with its interest recorded
    in its control block, where [rt_event_send] reads it. *)
Theorem event_recv_correct (k : kstate) (o t set opt timeout : Z) (x : rt_event) (th : rt_thread)
    (Hk : kwf k) (Ho : is_event k o) (Hx : ip_event (k_ipc k) !! o = Some x)
    (Hf : ipc_flag (event_flag x)) (Hb : can_block k t th) (Hset : set <> 0)
    (Hopt : has opt RT_EVENT_FLAG_AND = true \/ has opt RT_EVENT_FLAG_OR = true)
    (Ht : timeout < RT_TICK_MAX / 2) :
  let k0 := k_put t (set_error RT_EOK th) k in
  (forall got, event_match opt set (event_set x) = Some got ->
     let k' := if has opt RT_EVENT_FLAG_CLEAR
               then put_event o (mk_event (event_flag x) (Z.land (event_set x) (Z.lnot set))) k0 else k0 in
     rt_event_recv o set opt timeout k = Ok (Return (RT_EOK, Some (Z.land (event_set x) set))) k' /\ kwf k') /\
  (event_match opt set (event_set x) = None -> timeout = 0 ->
     let k' := k_put t (set_error (- RT_ETIMEOUT) th) k in
     rt_event_recv o set opt timeout k = Ok (Return (- RT_ETIMEOUT, None)) k' /\ kwf k') /\
  (event_match opt set (event_set x) = None -> timeout <> 0 ->
     let th1 := set_event_info set opt (set_error RT_EOK th) in
     exists k', rt_event_recv o set opt timeout k = Ok (Block t) k' /\ kwf k' /\
       blocked_on (k_put t th1 k) (HSuspend o) t th1 (event_flag x) timeout k').
Proof.
  intros k0. split; [|split].
  - intros got Em. by eapply event_recv_got.
  - intros Em ->. by eapply event_recv_try.
  - intros Em Ht0. by eapply event_recv_block.
Qed.

End Thm.

(** ** Instances

    Thread 100 waits for the events 1 or 2 of event set 600. *)

#[local] Existing Instance default_config.
#[local] Existing Instance bump_heap.
#[local] Existing Instance bump_heap_ok.

Definition ev_opt : Z := RT_EVENT_FLAG_OR + RT_EVENT_FLAG_CLEAR.
Definition demo_ev0 : kstate := after (rt_event_init 600 [101] RT_IPC_FLAG_FIFO) demo.
Definition demo_ev : kstate := after (rt_event_recv 600 3 ev_opt RT_WAITING_FOREVER) demo_ev0.

Lemma demo_ev0_kwf : kwf demo_ev0.
Proof.
  destruct (event_init_run demo 600 [101] RT_IPC_FLAG_FIFO) as (k & E & Hk & _).
  - apply demo_kwf.
  - apply freshb_ok. by vm_compute.
  - unfold demo_ev0. rewrite (after_ok _ _ _ _ E). exact Hk.
Qed.

Lemma demo_ev_kwf : kwf demo_ev.
Proof.
  destruct (event_recv_block demo_ev0 600 t_high (mk_event RT_IPC_FLAG_FIFO 0) (thread_of demo_ev0 t_high) 3 ev_opt)
    with (timeout := RT_WAITING_FOREVER) as (k & E & Hk & _).
  - apply demo_ev0_kwf.
  - eexists. split; by vm_compute.
  - by vm_compute.
  - split; by vm_compute.
  - discriminate.
  - by right.
  - reflexivity.
  - by left.
  - discriminate.
  - by vm_compute.
  - unfold demo_ev. rewrite (after_ok _ _ _ _ E). exact Hk.
Qed.

#[global] Opaque demo_ev0 demo_ev.

Lemma event_send_correct_witness :
  exists k1 s', rt_event_send 600 9 demo_ev = Ok RT_EOK (put_sched s' k1) /\ kwf (put_sched s' k1) /\
    threads k1 !! t_high = Some (given 1 (thread_of demo_ev t_high)).
Proof.
  destruct (event_send_correct demo_ev 600 9 (mk_event RT_IPC_FLAG_FIFO 0)) as [_ H].
  - apply demo_ev_kwf.
  - eexists. split; by vm_compute.
  - by vm_compute.
  - by vm_compute.
  - destruct H as (k1 & s' & Hw & E & Hk & _); [discriminate|]. exists k1, s'. split; [exact E|].
    split; [exact Hk|]. rewrite (ew_threads _ _ _ _ _ Hw). by vm_compute.
Defined.


Lemma event_recv_correct_witness :
  exists k', rt_event_recv 600 3 ev_opt 5 demo_ev0 = Ok (Block t_high) k' /\ kwf k'.
Proof.
  destruct (event_recv_correct demo_ev0 600 t_high 3 ev_opt 5 (mk_event RT_IPC_FLAG_FIFO 0)
    (thread_of demo_ev0 t_high)) as (_ & _ & H).
  - apply demo_ev0_kwf.
  - eexists. split; by vm_compute.
  - by vm_compute.
  - by left.
  - split; by vm_compute.
  - discriminate.
  - by right.
  - by vm_compute.
  - destruct H as (k' & E & Hk & _); [reflexivity|discriminate|]. exists k'. split; [exact E|exact Hk].
Defined.
