(* ===== verification/MailboxSpec.v ===== *)
(** * What mailboxes promise

    A mailbox is a bounded FIFO queue of words: [mb_mail] is the list of mails
    the ring buffer of the mailbox holds, oldest first.  Sending and receiving
    are shown to append to and take from this list, with waiting senders and
    receivers woken in turn. *)

From S2P Require Import Prelude Scheduler ReadyBitmap SchedInv SchedSpec Object ObjInv Timer.
From S2P Require Import TimerInv Kernel Thread Ipc Mailbox KernelInv ThreadInv IpcInv BlockInv Boot.
From S2P Require Import Demo.

(** ** The ring *)

Definition ring_at (x : rt_mailbox) (i : nat) : Z :=
  default 0 (mb_msgs x !! Z.to_nat ((mb_out_offset x + Z.of_nat i) mod mb_size x)).

(** The mails, oldest first. *)
Definition mb_mail (x : rt_mailbox) : list Z := ring_at x <$> seq 0 (Z.to_nat (mb_entry x)).

Lemma bump_mod off size : 0 <= off < size -> size < 65536 -> bump off size = (off + 1) mod size.
Proof.
  intros H1 H2. unfold bump. rewrite u16_small by lia. destruct (Z.leb_spec size (off + 1)).
  - replace (off + 1) with size by lia. by rewrite Z.mod_same by lia.
  - by rewrite Z.mod_small by lia.
Qed.

Lemma mb_mail_length x : mb_ok x -> Z.of_nat (length (mb_mail x)) = mb_entry x.
Proof. intros [_ _ H _ _]. unfold mb_mail. rewrite length_fmap, length_seq. lia. Qed.

Section Ring.
Variable x : rt_mailbox.
Hypothesis Hok : mb_ok x.

Lemma ring_size : mb_entry x < mb_size x \/ 0 < mb_entry x ->
  0 < mb_size x < 65536 /\ 0 <= mb_out_offset x < mb_size x /\
  mb_in_offset x = (mb_out_offset x + mb_entry x) mod mb_size x /\
  0 <= mb_in_offset x < mb_size x.
Proof.
  destruct Hok as [H1 H2 H3 H4 H5]. intros H. assert (Hs : 0 < mb_size x) by lia.
  destruct (Z.eqb_spec (mb_size x) 0); [lia|]. rewrite H5.
  pose proof (Z.mod_pos_bound (mb_out_offset x + mb_entry x) (mb_size x)). lia.
Qed.

Lemma push_ok v : mb_entry x < mb_size x -> mb_ok (mb_push v x).
Proof.
  intros Hlt. destruct ring_size as (Hs & Ho & Hi & Hir); [lia|]. destruct Hok as [H1 H2 H3 H4 H5].
  split; cbn; [by rewrite length_insert|done|rewrite u16_small; lia|by left|].
  rewrite bump_mod, Hi, u16_small by lia. destruct (Z.eqb_spec (mb_size x) 0); [lia|].
  rewrite Zplus_mod_idemp_l. f_equal. lia.
Qed.

Lemma ring_distinct i : (Z.of_nat i < mb_entry x) -> mb_entry x < mb_size x ->
  (mb_out_offset x + Z.of_nat i) mod mb_size x <> mb_in_offset x.
Proof.
  intros Hi Hlt. destruct ring_size as (Hs & Ho & -> & _); [lia|]. intros E.
  assert (Hd : (mb_entry x - Z.of_nat i) mod mb_size x = 0).
  { replace (mb_entry x - Z.of_nat i) with ((mb_out_offset x + mb_entry x) - (mb_out_offset x + Z.of_nat i)) by lia.
    rewrite Zminus_mod, <- E, Z.sub_diag. apply Z.mod_0_l. lia. }
  rewrite Z.mod_small in Hd by lia. lia.
Qed.

Lemma push_mail v : mb_entry x < mb_size x -> mb_mail (mb_push v x) = mb_mail x ++ [v].
Proof.
  intros Hlt. destruct ring_size as (Hs & Ho & Hi & Hir); [lia|]. destruct Hok as [H1 H2 H3 H4 H5].
  unfold mb_mail. cbn [mb_entry mb_push]. rewrite u16_small by lia.
  replace (Z.to_nat (mb_entry x + 1)) with (Z.to_nat (mb_entry x) + 1)%nat by lia.
  rewrite seq_app, fmap_app. cbn [seq fmap list_fmap]. f_equal.
  - apply list_fmap_ext. intros j i Hj. apply lookup_seq in Hj as [-> Hj].
    unfold ring_at. cbn [mb_out_offset mb_size mb_msgs mb_push].
    f_equal. apply list_lookup_insert_ne.
    pose proof (ring_distinct (0 + j) ltac:(lia) Hlt).
    pose proof (Z.mod_pos_bound (mb_out_offset x + Z.of_nat (0 + j)) (mb_size x)). lia.
  - f_equal. unfold ring_at. cbn [mb_out_offset mb_size mb_msgs mb_push].
    replace (mb_out_offset x + Z.of_nat (0 + Z.to_nat (mb_entry x))) with (mb_out_offset x + mb_entry x) by lia.
    rewrite <- Hi, list_lookup_insert_eq; [done|lia].
Qed.

Lemma pop_ok : 0 < mb_entry x -> mb_ok (mb_pop x).
Proof.
  intros Hlt. destruct ring_size as (Hs & Ho & Hi & Hir); [lia|]. destruct Hok as [H1 H2 H3 H4 H5].
  pose proof (Z.mod_pos_bound (mb_out_offset x + 1) (mb_size x)).
  split; cbn; [done|done|rewrite u16_small; lia|rewrite bump_mod; lia|].
  rewrite bump_mod, u16_small by lia. destruct (Z.eqb_spec (mb_size x) 0); [lia|].
  rewrite Hi, Zplus_mod_idemp_l. f_equal. lia.
Qed.

Lemma pop_mail : 0 < mb_entry x ->
  exists v, mb_msgs x !! Z.to_nat (mb_out_offset x) = Some v /\ mb_mail x = v :: mb_mail (mb_pop x).
Proof.
  intros Hlt. destruct ring_size as (Hs & Ho & Hi & Hir); [lia|]. destruct Hok as [H1 H2 H3 H4 H5].
  destruct (lookup_lt_is_Some_2 (mb_msgs x) (Z.to_nat (mb_out_offset x))) as [v Hv]; [lia|].
  exists v. split; [done|]. unfold mb_mail. cbn [mb_entry mb_pop]. rewrite u16_small by lia.
  replace (Z.to_nat (mb_entry x)) with (S (Z.to_nat (mb_entry x - 1))) by lia.
  cbn [seq fmap list_fmap]. f_equal.
  - unfold ring_at. rewrite Z.add_0_r, Z.mod_small by lia. by rewrite Hv.
  - rewrite <- seq_shift, <- list_fmap_compose. apply list_fmap_ext. intros j i _. unfold ring_at, compose.
    cbn [mb_out_offset mb_size mb_msgs mb_pop]. rewrite bump_mod by lia. rewrite Zplus_mod_idemp_l.
    do 3 f_equal. f_equal. lia.
Qed.

End Ring.

Lemma new_mailbox_ok flag pool size : mb_ok (new_mailbox flag pool size) /\ mb_mail (new_mailbox flag pool size) = [].
Proof.
  pose proof (u16_range size). split; [|done]. split; cbn; [|lia|lia|lia|].
  - rewrite length_replicate. lia.
  - by destruct (Z.eqb_spec (u16 size) 0); rewrite ?Zmod_0_l.
Qed.

Section Spec.
Context `{CO : ConfigOk} {HP : Heap} {HO : HeapOk HP}.
Implicit Types (k : kstate).

Definition is_mb (k : kstate) (o : Z) : Prop := has_type k (AObj o) RT_Object_Class_MailBox.

Lemma get_mb_run k o x : ip_mb (k_ipc k) !! o = Some x -> get_mb o k = Ok x k.
Proof. intros E. unfold get_mb. by rewrite E. Qed.

Lemma kwf_put_mb k o x : kwf k -> mb_ok x -> kwf (put_mb o x k).
Proof.
  intros Hk Hx. apply kwf_ipc; [done|]. destruct (kw_ipc _ Hk) as [H1 H2 H3 H4 H5]. split; try done.
  - intros o' Ho'. destruct (H2 o' Ho') as (? & x' & ? & ? & ?). split; [done|]. exists x'.
    split; [done|]. split; [by eapply mutex_ok_frame|done].
  - intros o' Ho'. destruct (H4 o' Ho') as (Hh & Hh2 & x' & E & Hx'). split; [done|]. split; [done|]. cbn.
    destruct (decide (o' = o)) as [->|Hne]; [exists x; by rewrite lookup_insert_eq
      |exists x'; by rewrite lookup_insert_ne].
Qed.

Lemma mb_may_wait k o : is_mb k o -> may_wait k (HSuspend o).
Proof.
  intros Ho o' [= <-]. split; intros x Hs _; pose proof (type_unique _ _ _ _ Hs Ho); discriminate.
Qed.

(** ** Send *)

Section Send.
Variables (k : kstate) (o : Z) (x : rt_mailbox).
Hypotheses (Hk : kwf k) (Ho : is_mb k o) (Hx : ip_mb (k_ipc k) !! o = Some x).

Lemma mb_inv : mb_ok x /\ head_exists k (HSuspend o) /\ head_exists k (HSender o).
Proof. destruct (io_mb _ (kw_ipc _ Hk) o Ho) as (H1 & H2 & x' & E & H3). simplify_eq. done. Qed.

Lemma mb_send_full_try v :
  mb_entry x = mb_size x -> rt_mb_send_wait o v 0 k = Ok (Return (- RT_EFULL)) k.
Proof.
  intros Hf. unfold rt_mb_send_wait. rewrite check_run by done. rewrite (bind_ok _ _ _ _ _ (k_self_run k)).
  by rewrite (bind_ok _ _ _ _ _ (get_mb_run _ _ _ Hx)), Hf, Z.eqb_refl.
Qed.

Lemma mb_send_finish_run v :
  mb_entry x < mb_size x -> sc_current (k_sched k) <> RT_NULL ->
  exists k', mb_send_finish o v k = Ok RT_EOK k' /\ kwf k' /\
    woke_first (HSuspend o) (put_mb o (mb_push v x) k) k'.
Proof.
  intros Hlt Hc. destruct mb_inv as (Hok & Hh & _). destruct (ring_size x Hok) as (_ & _ & _ & Hi); [by left|].
  pose proof (mo_len _ Hok) as Hlen.
  destruct (lookup_lt_is_Some_2 (mb_msgs x) (Z.to_nat (mb_in_offset x))) as [w Hw]; [lia|].
  destruct (wake_first_run (put_mb o (mb_push v x) k) (HSuspend o) RT_EOK) as (k' & E & Hk' & Hwk); try done.
  { apply kwf_put_mb; [done|by apply push_ok]. }
  exists k'. split; [|done]. unfold mb_send_finish. rewrite (bind_ok _ _ _ _ _ (get_mb_run _ _ _ Hx)).
  rewrite Hw. cbn [of_option]. rewrite bind_mret, bind_modify. exact E.
Qed.

Lemma mb_send_space v timeout :
  mb_entry x < mb_size x -> sc_current (k_sched k) <> RT_NULL ->
  exists k', rt_mb_send_wait o v timeout k = Ok (Return RT_EOK) k' /\ kwf k' /\
    woke_first (HSuspend o) (put_mb o (mb_push v x) k) k'.
Proof.
  intros Hlt Hc. destruct (mb_send_finish_run v Hlt Hc) as (k' & E & Hk' & Hw). exists k'. split; [|done].
  assert (Hne : (mb_entry x =? mb_size x) = false) by (apply Z.eqb_neq; lia).
  unfold rt_mb_send_wait. rewrite check_run by done. rewrite (bind_ok _ _ _ _ _ (k_self_run k)).
  rewrite (bind_ok _ _ _ _ _ (get_mb_run _ _ _ Hx)), Hne. cbn [andb]. unfold mb_send_loop.
  rewrite (bind_ok _ _ _ _ _ (get_mb_run _ _ _ Hx)), Hne. by rewrite (bind_ok _ _ _ _ _ E).
Qed.

Lemma mb_send_block v timeout t th :
  mb_entry x = mb_size x -> timeout <> 0 -> timeout < RT_TICK_MAX / 2 -> ipc_flag (mb_flag x) ->
  can_block k t th ->
  exists k', rt_mb_send_wait o v timeout k =
      Ok (Block (mk_mb_pc o v t timeout (ts_tick (k_ts k)))) k' /\ kwf k' /\
    blocked_on (k_put t (set_error RT_EOK th) k) (HSender o) t (set_error RT_EOK th) (mb_flag x) timeout k'.
Proof.
  intros Hf Ht0 Ht Hfl Hb. destruct mb_inv as (_ & _ & Hh).
  destruct (reset_error_run k t th Hk Hb) as (E0 & Hk0 & Hb0).
  set (k0 := k_put t (set_error RT_EOK th) k) in *.
  destruct (block_run k0 (HSender o) t (set_error RT_EOK th) (mb_flag x) timeout)
    as (k1 & k2 & k3 & E1 & E2 & E3 & Etk & Hk3 & Hbl); try done.
  exists k3. split; [|done]. unfold rt_mb_send_wait. rewrite check_run by done.
  rewrite (bind_ok _ _ _ _ _ (k_self_run k)), <- (cb_current _ _ _ Hb).
  rewrite (bind_ok _ _ _ _ _ (get_mb_run _ _ _ Hx)), Hf, Z.eqb_refl, (proj2 (Z.eqb_neq _ _) Ht0). cbn [andb].
  unfold mb_send_loop. rewrite (bind_ok _ _ _ _ _ (get_mb_run _ _ _ Hx)), Hf, Z.eqb_refl.
  rewrite (bind_ok _ _ _ _ _ E0), (proj2 (Z.eqb_neq _ _) Ht0).
  rewrite (bind_ok _ _ _ _ _ (thread_context_run _ _ _ Hk0 Hb0)), (bind_ok _ _ _ _ _ E1).
  rewrite (bind_ok _ _ _ _ _ (k_tick_run k1)), Etk, (bind_ok _ _ _ _ _ E2).
  by rewrite (bind_ok _ _ _ _ _ E3).
Qed.

(** ** Receive *)

Lemma mb_recv_empty_try :
  mb_entry x = 0 -> rt_mb_recv o 0 k = Ok (Return (- RT_ETIMEOUT, None)) k.
Proof.
  intros He. unfold rt_mb_recv. rewrite check_run by done. rewrite (bind_ok _ _ _ _ _ (k_self_run k)).
  by rewrite (bind_ok _ _ _ _ _ (get_mb_run _ _ _ Hx)), He.
Qed.

Lemma mb_recv_mail timeout :
  0 < mb_entry x -> sc_current (k_sched k) <> RT_NULL ->
  exists v k', rt_mb_recv o timeout k = Ok (Return (RT_EOK, Some v)) k' /\ kwf k' /\
    mb_mail x = v :: mb_mail (mb_pop x) /\ woke_first (HSender o) (put_mb o (mb_pop x) k) k'.
Proof.
  intros Hlt Hc. destruct mb_inv as (Hok & _ & Hh). destruct (pop_mail x Hok Hlt) as (v & Hv & Hm).
  destruct (wake_first_run (put_mb o (mb_pop x) k) (HSender o) (RT_EOK, Some v)) as (k' & E & Hk' & Hwk); try done.
  { apply kwf_put_mb; [done|by apply pop_ok]. }
  exists v, k'. split; [|done]. assert (Hne : (mb_entry x =? 0) = false) by (apply Z.eqb_neq; lia).
  unfold rt_mb_recv. rewrite check_run by done. rewrite (bind_ok _ _ _ _ _ (k_self_run k)).
  rewrite (bind_ok _ _ _ _ _ (get_mb_run _ _ _ Hx)), Hne. cbn [andb]. unfold mb_recv_loop.
  rewrite (bind_ok _ _ _ _ _ (get_mb_run _ _ _ Hx)), Hne. unfold mb_recv_finish.
  rewrite bind_assoc, (bind_ok _ _ _ _ _ (get_mb_run _ _ _ Hx)), Hv. cbn [of_option].
  rewrite bind_assoc, bind_mret, bind_assoc, bind_modify. by rewrite (bind_ok _ _ _ _ _ E).
Qed.

Lemma mb_recv_block timeout t th :
  mb_entry x = 0 -> timeout <> 0 -> timeout < RT_TICK_MAX / 2 -> ipc_flag (mb_flag x) ->
  can_block k t th ->
  exists k', rt_mb_recv o timeout k =
      Ok (Block (mk_mb_pc o 0 t timeout (ts_tick (k_ts k)))) k' /\ kwf k' /\
    blocked_on (k_put t (set_error RT_EOK th) k) (HSuspend o) t (set_error RT_EOK th) (mb_flag x) timeout k'.
Proof.
  intros He Ht0 Ht Hfl Hb. destruct mb_inv as (_ & Hh & _).
  destruct (reset_error_run k t th Hk Hb) as (E0 & Hk0 & Hb0).
  set (k0 := k_put t (set_error RT_EOK th) k) in *.
  destruct (block_run k0 (HSuspend o) t (set_error RT_EOK th) (mb_flag x) timeout)
    as (k1 & k2 & k3 & E1 & E2 & E3 & Etk & Hk3 & Hbl); try done; [by apply mb_may_wait|].
  exists k3. split; [|done]. unfold rt_mb_recv. rewrite check_run by done.
  rewrite (bind_ok _ _ _ _ _ (k_self_run k)), <- (cb_current _ _ _ Hb).
  rewrite (bind_ok _ _ _ _ _ (get_mb_run _ _ _ Hx)), He, (proj2 (Z.eqb_neq _ _) Ht0). cbn [andb Z.eqb].
  unfold mb_recv_loop. rewrite (bind_ok _ _ _ _ _ (get_mb_run _ _ _ Hx)), He. cbn [Z.eqb].
  rewrite (bind_ok _ _ _ _ _ E0), (proj2 (Z.eqb_neq _ _) Ht0).
  rewrite (bind_ok _ _ _ _ _ (thread_context_run _ _ _ Hk0 Hb0)), (bind_ok _ _ _ _ _ E1).
  rewrite (bind_ok _ _ _ _ _ (k_tick_run k1)), Etk, (bind_ok _ _ _ _ _ E2).
  by rewrite (bind_ok _ _ _ _ _ E3).
Qed.

End Send.

(** ** Initialisation *)

Lemma mb_init_run k o name pool size flag :
  kwf k -> fresh k o ->
  exists k', rt_mb_init o name pool size flag k = Ok RT_EOK k' /\ kwf k' /\ is_mb k' o /\
    ip_mb (k_ipc k') !! o = Some (new_mailbox flag pool size) /\ has_static k' (AObj o) true.
Proof.
  intros Hk Hf. destruct (static_type (name_copy RT_NAME_MAX name) RT_Object_Class_MailBox) as [T1 _]; [class_mem|].
  destruct (ipc_init_run k o RT_Object_Class_MailBox name) as (s' & k1 & E1 & E2 & Ei & Hh & Hst & Hty & Hnew);
    [done|done|class_mem|].
  set (x := new_mailbox flag pool size).
  assert (Hn := Hnew (let i := k_ipc k1 in {| i with ip_mb := <[o := x]> (ip_mb i) |})).
  specialize (Hn ltac:(rewrite Ei; intros y Hy; cbn; by rewrite lookup_insert_ne)).
  assert (Hw : waiters (put_mb o x k1) (HSender o) = []).
  { etransitivity; [apply (in_waiters _ _ _ _ Hn (HSender o))|apply (fr_waiters _ _ Hf)]. }
  pose proof (obj_new_head _ _ _ _ (HSender o) Hn (or_intror eq_refl) (proj2 (fr_waiters _ _ Hf))) as Hn2.
  exists (k_link (HSender o) [] (put_mb o x k1)). split; [|split; [|split; [done|split; [apply lookup_insert_eq|done]]]].
  - unfold rt_mb_init. rewrite (proj2 (Z.eqb_neq o RT_NULL) (fr_null _ _ Hf)), bind_assert by done.
    rewrite (bind_ok _ _ _ _ _ E1), (bind_ok _ _ _ _ _ E2), bind_modify.
    by rewrite (bind_ok _ _ _ _ _ (head_init_run _ _ Hw)).
  - apply (kwf_new_obj k o _ _ Hk Hf Hn2). intros _. rewrite T1. split; try done.
    + unfold head_exists. cbn. by rewrite lookup_insert_ne.
    + intros _. split; [unfold head_exists; cbn; rewrite lookup_insert_eq; by eexists|].
      exists x. split; [apply lookup_insert_eq|apply new_mailbox_ok].
Qed.

End Spec.

(** ** Theorems *)

Section Thm.
Context `{CO : ConfigOk} {HP : Heap} {HO : HeapOk HP}.

(** C12: sending refines a bounded FIFO queue.  With a free slot the mail is
    appended behind the mails of the ring, and the first waiting receiver is
    woken; a full mailbox refuses the mail with [-RT_EFULL] when there is no
    waiting time and otherwise queues the sender.  The mailbox never holds
    more mails than its size. *)
Theorem mb_send_correct (k : kstate) (o v timeout t : Z) (x : rt_mailbox) (th : rt_thread) (Hk : kwf k)
    (Ho : is_mb k o) (Hx : ip_mb (k_ipc k) !! o = Some x) (Hf : ipc_flag (mb_flag x))
    (Hb : can_block k t th) (Ht : timeout < RT_TICK_MAX / 2) :
  Z.of_nat (length (mb_mail x)) <= mb_size x /\
  (Z.of_nat (length (mb_mail x)) < mb_size x ->
     exists k' x', rt_mb_send_wait o v timeout k = Ok (Return RT_EOK) k' /\ kwf k' /\
       ip_mb (k_ipc k') !! o = Some x' /\ mb_mail x' = mb_mail x ++ [v] /\ mb_size x' = mb_size x /\
       waiters k' (HSuspend o) = tail (waiters k (HSuspend o))) /\
  (Z.of_nat (length (mb_mail x)) = mb_size x -> timeout = 0 ->
     rt_mb_send_wait o v timeout k = Ok (Return (- RT_EFULL)) k) /\
  (Z.of_nat (length (mb_mail x)) = mb_size x -> timeout <> 0 ->
     exists k', rt_mb_send_wait o v timeout k =
         Ok (Block (mk_mb_pc o v t timeout (ts_tick (k_ts k)))) k' /\ kwf k' /\
       blocked_on (k_put t (set_error RT_EOK th) k) (HSender o) t (set_error RT_EOK th) (mb_flag x) timeout k').
Proof.
  destruct (mb_inv k o x Hk Ho Hx) as (Hok & _ & _). rewrite (mb_mail_length x Hok).
  assert (Hc : sc_current (k_sched k) <> RT_NULL).
  { rewrite <- (cb_current _ _ _ Hb). apply (sw_thread _ _ (kw_sched _ Hk) _ _ (cb_thread _ _ _ Hb)). }
  split; [apply (mo_entry _ Hok)|]. split; [|split].
  - intros Hlt. destruct (mb_send_space k o x Hk Ho Hx v timeout Hlt Hc) as (k' & E & Hk' & Hw).
    destruct (woke_first_frame (HSuspend o) (put_mb o (mb_push v x) k) k') as (F1 & _ & F3 & _);
      [apply kwf_put_mb; [done|by apply push_ok]|done|done|].
    exists k', (mb_push v x). split; [done|]. split; [done|]. rewrite F1.
    split; [apply lookup_insert_eq|]. split; [by apply push_mail|]. split; [done|exact F3].
  - intros Hfull ->. by eapply mb_send_full_try.
  - intros Hfull Ht0. by apply mb_send_block.
Qed.

(** C13: receiving refines the queue: the oldest mail is returned and taken
    out, the others keep their order, and the first waiting sender is woken;
    an empty mailbox returns [-RT_ETIMEOUT] when there is no waiting time and
    otherwise queues the receiver. *)
Theorem mb_recv_correct (k : kstate) (o timeout t : Z) (x : rt_mailbox) (th : rt_thread) (Hk : kwf k)
    (Ho : is_mb k o) (Hx : ip_mb (k_ipc k) !! o = Some x) (Hf : ipc_flag (mb_flag x))
    (Hb : can_block k t th) (Ht : timeout < RT_TICK_MAX / 2) :
  (forall v rest, mb_mail x = v :: rest ->
     exists k' x', rt_mb_recv o timeout k = Ok (Return (RT_EOK, Some v)) k' /\ kwf k' /\
       ip_mb (k_ipc k') !! o = Some x' /\ mb_mail x' = rest /\ mb_size x' = mb_size x /\
       waiters k' (HSender o) = tail (waiters k (HSender o))) /\
  (mb_mail x = [] -> timeout = 0 -> rt_mb_recv o timeout k = Ok (Return (- RT_ETIMEOUT, None)) k) /\
  (mb_mail x = [] -> timeout <> 0 ->
     exists k', rt_mb_recv o timeout k =
         Ok (Block (mk_mb_pc o 0 t timeout (ts_tick (k_ts k)))) k' /\ kwf k' /\
       blocked_on (k_put t (set_error RT_EOK th) k) (HSuspend o) t (set_error RT_EOK th) (mb_flag x) timeout k').
Proof.
  destruct (mb_inv k o x Hk Ho Hx) as (Hok & _ & _). pose proof (mb_mail_length x Hok) as Hl.
  assert (Hc : sc_current (k_sched k) <> RT_NULL).
  { rewrite <- (cb_current _ _ _ Hb). apply (sw_thread _ _ (kw_sched _ Hk) _ _ (cb_thread _ _ _ Hb)). }
  split; [|split].
  - intros v rest Hm. rewrite Hm in Hl. cbn in Hl.
    destruct (mb_recv_mail k o x Hk Ho Hx timeout) as (v' & k' & E & Hk' & Hm' & Hw); [lia|done|].
    rewrite Hm in Hm'. simplify_eq.
    destruct (woke_first_frame (HSender o) (put_mb o (mb_pop x) k) k') as (F1 & _ & F3 & _);
      [apply kwf_put_mb; [done|apply pop_ok; [done|lia]]|done|done|].
    exists k', (mb_pop x). split; [done|]. split; [done|]. rewrite F1.
    split; [apply lookup_insert_eq|]. split; [done|]. split; [done|exact F3].
  - intros Hm ->. rewrite Hm in Hl. by eapply mb_recv_empty_try.
  - intros Hm Ht0. rewrite Hm in Hl. by apply mb_recv_block.
Qed.

(** [rt_mb_control] with [RT_IPC_CMD_RESET] wakes every waiting receiver
    and every waiting sender with [-RT_ERROR] and empties the mailbox. *)
Theorem mb_control_reset (k : kstate) (o arg : Z) (x : rt_mailbox) (Hk : kwf k) (Ho : is_mb k o)
    (Hx : ip_mb (k_ipc k) !! o = Some x) (Hc : sc_current (k_sched k) <> RT_NULL) :
  exists k1 k2 k' x', resumed_all (HSuspend o) k k1 /\ resumed_all (HSender o) k1 k2 /\
    rt_mb_control o RT_IPC_CMD_RESET arg k = Ok RT_EOK k' /\ kwf k' /\
    ip_mb (k_ipc k') !! o = Some x' /\ mb_mail x' = [] /\ mb_size x' = mb_size x /\
    waiters k' (HSuspend o) = [] /\ waiters k' (HSender o) = [].
Proof.
  destruct (mb_inv k o x Hk Ho Hx) as (Hok & Hh & Hs).
  destruct (resume_all_run k (HSuspend o) Hk I Hh) as (k1 & E1 & Hk1 & R1).
  destruct (resume_all_run k1 (HSender o) Hk1 I (wf_heads _ _ (ra_frame _ _ _ R1) _ Hs)) as (k2 & E2 & Hk2 & R2).
  assert (Hx2 : ip_mb (k_ipc k2) !! o = Some x).
  { by rewrite (wf_ipc _ _ (ra_frame _ _ _ R2)), (wf_ipc _ _ (ra_frame _ _ _ R1)). }
  set (x' := {| x with mb_entry := 0; mb_in_offset := 0; mb_out_offset := 0 |}).
  assert (Hok' : mb_ok x').
  { destruct Hok as [H1 H2 H3 H4 H5]. split; cbn; [done|done|lia|lia|].
    by destruct (Z.eqb_spec (mb_size x) 0); rewrite ?Zmod_0_l. }
  assert (Hk3 : kwf (put_mb o x' k2)) by by apply kwf_put_mb.
  destruct (k_schedule_run (put_mb o x' k2) Hk3) as (s' & E3 & Hk4 & Hr).
  { cbn. by rewrite (wf_current _ _ (ra_frame _ _ _ R2)), (wf_current _ _ (ra_frame _ _ _ R1)). }
  exists k1, k2, (put_sched s' (put_mb o x' k2)), x'. split; [done|]. split; [done|]. split.
  - unfold rt_mb_control. rewrite check_run by done.
    change (RT_IPC_CMD_RESET =? RT_IPC_CMD_RESET) with true. cbv iota.
    rewrite (bind_ok _ _ _ _ _ E1), (bind_ok _ _ _ _ _ E2), (bind_ok _ _ _ _ _ (get_mb_run _ _ _ Hx2)), bind_modify.
    by rewrite (bind_ok _ _ _ _ _ E3).
  - split; [done|]. split; [apply lookup_insert_eq|]. split; [done|]. split; [done|]. split.
    + change (lget s' (HSuspend o) = []). rewrite (rescheduled_wait _ _ (HSuspend o) Hk3 Hr I).
      etransitivity; [apply (ra_others _ _ _ R2); done|apply R1].
    + change (lget s' (HSender o) = []). rewrite (rescheduled_wait _ _ (HSender o) Hk3 Hr I). apply R2.
Qed.

End Thm.

(** ** Instances

    Mailbox 700 has room for two mails; thread 100 waits for a mail. *)

#[local] Existing Instance default_config.
#[local] Existing Instance bump_heap.
#[local] Existing Instance bump_heap_ok.

Definition demo_mb0 : kstate := after (rt_mb_init 700 [109; 98] 9000 2 RT_IPC_FLAG_FIFO) demo.
Definition demo_mb1 : kstate := after (rt_mb_send_wait 700 42 0) demo_mb0.
Definition demo_mb : kstate := after (rt_mb_recv 700 RT_WAITING_FOREVER) demo_mb0.

Definition mb_empty : rt_mailbox := new_mailbox RT_IPC_FLAG_FIFO 9000 2.

Lemma demo_mb0_kwf : kwf demo_mb0.
Proof.
  destruct (mb_init_run demo 700 [109; 98] 9000 2 RT_IPC_FLAG_FIFO) as (k & E & Hk & _).
  - apply demo_kwf.
  - apply freshb_ok. by vm_compute.
  - unfold demo_mb0. rewrite (after_ok _ _ _ _ E). exact Hk.
Qed.

Lemma demo_mb1_kwf : kwf demo_mb1.
Proof.
  destruct (mb_send_space demo_mb0 700 mb_empty) with (v := 42) (timeout := 0) as (k & E & Hk & _).
  - apply demo_mb0_kwf.
  - eexists. split; by vm_compute.
  - by vm_compute.
  - reflexivity.
  - by vm_compute.
  - unfold demo_mb1. rewrite (after_ok _ _ _ _ E). exact Hk.
Qed.

Lemma demo_mb_kwf : kwf demo_mb.
Proof.
  destruct (mb_recv_block demo_mb0 700 mb_empty) with (timeout := RT_WAITING_FOREVER) (t := t_high)
    (th := thread_of demo_mb0 t_high) as (k & E & Hk & _).
  - apply demo_mb0_kwf.
  - eexists. split; by vm_compute.
  - by vm_compute.
  - reflexivity.
  - discriminate.
  - by vm_compute.
  - by left.
  - split; by vm_compute.
  - unfold demo_mb. rewrite (after_ok _ _ _ _ E). exact Hk.
Qed.

#[global] Opaque demo_mb0 demo_mb1 demo_mb.

Lemma mb_send_correct_witness :
  exists k' x', rt_mb_send_wait 700 42 0 demo_mb = Ok (Return RT_EOK) k' /\ kwf k' /\
    ip_mb (k_ipc k') !! 700 = Some x' /\ mb_mail x' = [42].
Proof.
  destruct (mb_send_correct demo_mb 700 42 0 t_low mb_empty (thread_of demo_mb t_low)) as (_ & H & _).
  - apply demo_mb_kwf.
  - eexists. split; by vm_compute.
  - by vm_compute.
  - by left.
  - split; by vm_compute.
  - by vm_compute.
  - destruct H as (k' & x' & E & Hk & Hx & Hm & _); [reflexivity|]. exists k', x'.
    split; [exact E|]. split; [exact Hk|]. split; [exact Hx|exact Hm].
Defined.

Lemma mb_recv_correct_witness :
  exists k' x', rt_mb_recv 700 0 demo_mb1 = Ok (Return (RT_EOK, Some 42)) k' /\ kwf k' /\
    ip_mb (k_ipc k') !! 700 = Some x' /\ mb_mail x' = [].
Proof.
  destruct (mb_recv_correct demo_mb1 700 0 t_high (mb_push 42 mb_empty) (thread_of demo_mb1 t_high)) as (H & _).
  - apply demo_mb1_kwf.
  - eexists. split; by vm_compute.
  - by vm_compute.
  - by left.
  - split; by vm_compute.
  - by vm_compute.
  - destruct (H 42 []) as (k' & x' & E & Hk & Hx & Hm & _); [reflexivity|]. exists k', x'.
    split; [exact E|]. split; [exact Hk|]. split; [exact Hx|exact Hm].
Defined.

Lemma mb_control_reset_witness :
  exists k', rt_mb_control 700 RT_IPC_CMD_RESET 0 demo_mb = Ok RT_EOK k' /\ kwf k' /\
    waiters k' (HSuspend 700) = [].
Proof.
  destruct (mb_control_reset demo_mb 700 0 mb_empty) as (k1 & k2 & k' & x' & _ & _ & E & Hk & _ & _ & _ & Hw & _).
  - apply demo_mb_kwf.
  - eexists. split; by vm_compute.
  - by vm_compute.
  - by vm_compute.
  - exists k'. split; [exact E|]. split; [exact Hk|exact Hw].
Defined.
