(* ===== verification/MqInv.v ===== *)
(** * The pool of a message queue

    The slots of a message queue form a free chain, a queue chain, and the
    slots in the hands of senders and receivers ([mq_split] and [mq_held]).
    Each section of the operations of src/ipc.c, as a function on the queue
    record, moves one slot and keeps the chains intact. *)

From S2P Require Import Prelude Scheduler ReadyBitmap SchedInv SchedSpec Object ObjInv Timer.
From S2P Require Import TimerInv Kernel Thread Ipc Mailbox MsgQueue KernelInv ThreadInv IpcInv.
From S2P Require Import BlockInv.

(** ** Chains *)

Lemma chain_insert m p l s d : s ∉ l -> chain m p l -> chain (<[s := d]> m) p l.
Proof.
  revert p. induction l as [|x l IH]; intros p Hn; [done|]. apply not_elem_of_cons in Hn as [H1 H2].
  intros (-> & Hx & d' & E & Hc). split; [done|]. split; [done|]. exists d'.
  rewrite lookup_insert_ne by done. split; [done|by apply IH].
Qed.

Lemma chain_elem m p l s : chain m p l -> s ∈ l -> s <> RT_NULL /\ is_Some (m !! s).
Proof.
  revert p. induction l as [|x l IH]; intros p Hc Hin; [set_solver|].
  destruct Hc as (-> & Hx & d & E & Hc). apply elem_of_cons in Hin as [->|Hin]; [eauto|by eapply IH].
Qed.

(** The last slot of a chain is linked to [s]. *)
Lemma chain_snoc m p l z s dz ds :
  last l = Some z -> NoDup l -> chain m p l -> m !! z = Some dz -> m !! s = Some ds ->
  msg_next ds = RT_NULL -> s ∉ l -> s <> RT_NULL ->
  chain (<[z := mk_msg s (msg_data dz)]> m) p (l ++ [s]).
Proof.
  revert p. induction l as [|x l IH]; intros p Hl Hnd Hc Hz Hs Hn Hsl Hs0; [done|].
  apply NoDup_cons in Hnd as [Hx Hnd]. apply not_elem_of_cons in Hsl as [Hsx Hsl].
  destruct Hc as (-> & Hx0 & d & E & Hc). cbn [app]. split; [done|]. split; [done|].
  destruct l as [|y l].
  - cbn in Hl. simplify_eq. eexists. rewrite lookup_insert_eq. split; [done|].
    cbn. split; [done|]. split; [done|]. exists ds. by rewrite lookup_insert_ne.
  - exists d. rewrite lookup_insert_ne.
    2: { intros ->. apply Hx. rewrite last_cons_cons in Hl. by apply last_Some_elem_of. }
    split; [done|]. apply IH; try done.
Qed.

(** Slots of the pool held by nobody's chain. *)
Definition mq_held (x : rt_messagequeue) (fr qu : list Z) (s : Z) : Prop :=
  (s ∉ fr) /\ (s ∉ qu) /\ s <> RT_NULL /\ is_Some (mq_mem x !! s).

Lemma split_subset x fr qu : mq_split x fr qu -> forall s, s ∈ fr ++ qu -> s <> RT_NULL /\ is_Some (mq_mem x !! s).
Proof.
  intros [H1 H2 _ _ _ _ _] s [Hs|Hs]%elem_of_app; [exact (chain_elem _ _ _ _ H1 Hs)|exact (chain_elem _ _ _ _ H2 Hs)].
Qed.

Lemma split_count x fr qu s :
  mq_split x fr qu -> mq_held x fr qu s -> Z.of_nat (length qu) + 1 < 65536.
Proof.
  intros Hs (H1 & H2 & _ & H3). pose proof (split_subset _ _ _ Hs) as Hsub.
  assert (Hle : (length (s :: fr ++ qu) <= size (dom (mq_mem x)))%nat).
  { rewrite <- (size_list_to_set (C := gset Z) (s :: fr ++ qu)).
    - apply subseteq_size. intros y. rewrite elem_of_list_to_set, elem_of_cons. intros [->|Hy].
      + by apply elem_of_dom.
      + apply elem_of_dom. by apply Hsub.
    - apply NoDup_cons. split; [rewrite elem_of_app; tauto|apply Hs]. }
  pose proof (qs_count _ _ _ Hs). cbn in Hle. rewrite length_app in Hle. lia.
Qed.

(** ** The sections on the record *)

Definition x_take (s : Z) (d : rt_mq_message) (x : rt_messagequeue) : rt_messagequeue :=
  {| x with mq_queue_free := msg_next d |}.

Lemma take_split x s fr qu :
  mq_split x (s :: fr) qu ->
  exists d, mq_mem x !! s = Some d /\ mq_queue_free x = s /\
    mq_split (x_take s d x) fr qu /\ mq_held (x_take s d x) fr qu s.
Proof.
  intros [(E & H0 & d & Hd & Hc) Hq Hnd Ht He Hcnt Hdat]. exists d. split; [done|]. split; [done|].
  cbn in Hnd. apply NoDup_cons in Hnd as [Hn Hnd]. split; [by split|].
  rewrite elem_of_app in Hn. split; [tauto|]. split; [tauto|]. split; [done|by eexists].
Qed.

(** Writing a held slot. *)
Lemma write_split x fr qu s d' :
  mq_split x fr qu -> mq_held x fr qu s -> Z.of_nat (length (msg_data d')) = mq_msg_size x ->
  mq_split (set_msg s d' x) fr qu /\ mq_held (set_msg s d' x) fr qu s.
Proof.
  intros [Hf Hq Hnd Ht He Hcnt Hdat] (H1 & H2 & H3 & H4) Hl. split.
  - split; cbn; try done; try by apply chain_insert.
    + rewrite dom_insert_lookup_L by done. done.
    + intros p d Hp. destruct (decide (p = s)) as [->|]; [rewrite lookup_insert_eq in Hp; by simplify_eq|].
      rewrite lookup_insert_ne in Hp by done. by eapply Hdat.
  - split; [done|]. split; [done|]. split; [done|]. cbn. rewrite lookup_insert_eq. by eexists.
Qed.

(** Linking at the tail: the queue record with [s] behind [mq_queue_tail]. *)
Definition x_tail (s : Z) (x : rt_messagequeue) : rt_messagequeue :=
  let x1 := match mq_mem x !! mq_queue_tail x with
            | Some d => if mq_queue_tail x =? RT_NULL then x
                        else set_msg (mq_queue_tail x) (mk_msg s (msg_data d)) x
            | None => x
            end in
  {| x1 with mq_queue_tail := s;
             mq_queue_head := if mq_queue_head x =? RT_NULL then s else mq_queue_head x;
             mq_entry := u16 (mq_entry x + 1) |}.

Lemma queue_head_null x fr qu : mq_split x fr qu -> (mq_queue_head x =? RT_NULL) = bool_decide (qu = []).
Proof.
  intros [_ Hq _ _ _ _ _]. destruct qu as [|q qu]; cbn in Hq; [by rewrite Hq, bool_decide_true|].
  destruct Hq as (-> & Hn & _). rewrite bool_decide_false by done. by apply Z.eqb_neq.
Qed.

Lemma queue_tail_last x fr qu z :
  mq_split x fr qu -> last qu = Some z -> mq_queue_tail x = z /\ z <> RT_NULL /\ is_Some (mq_mem x !! z).
Proof.
  intros Hs Hl. rewrite (qs_tail _ _ _ Hs), Hl. split; [done|]. cbn.
  eapply split_subset; [done|]. apply elem_of_app. right. by apply last_Some_elem_of.
Qed.

Lemma tail_split x fr qu s d :
  mq_split x fr qu -> mq_held x fr qu s -> mq_mem x !! s = Some d -> msg_next d = RT_NULL ->
  mq_split (x_tail s x) fr (qu ++ [s]) /\ mq_mem (x_tail s x) !! s = Some d.
Proof.
  intros Hs Hh Hd Hn. pose proof (split_count _ _ _ _ Hs Hh) as Hcnt. pose proof Hh as (H1 & H2 & H3 & _).
  pose proof Hs as [Hf Hq Hnd Ht He Hc Hdat]. unfold x_tail. rewrite (queue_head_null _ _ _ Hs).
  assert (Hnd' : NoDup (fr ++ qu ++ [s])).
  { rewrite app_assoc. apply NoDup_app. split; [done|]. split; [|apply NoDup_singleton].
    intros y Hy ->%list_elem_of_singleton. apply elem_of_app in Hy. tauto. }
  assert (He' : u16 (mq_entry x + 1) = Z.of_nat (length (qu ++ [s]))).
  { rewrite length_app, He. cbn. rewrite u16_small by lia. lia. }
  destruct (last qu) as [z|] eqn:El.
  - destruct (queue_tail_last _ _ _ _ Hs El) as (Et & Hz0 & [dz Hz]). rewrite Et, Hz.
    rewrite (proj2 (Z.eqb_neq _ _) Hz0). rewrite bool_decide_false by (by intros ->).
    assert (Hzin : z ∈ qu) by by apply last_Some_elem_of.
    assert (Hzs : z <> s) by (by intros ->). apply NoDup_app in Hnd as (Hnf & Hdis & Hnq).
    split; [|by cbn; rewrite lookup_insert_ne].
    split; cbn; try done; [..|by rewrite last_snoc| |].
    + apply chain_insert; [|done]. intros Hin. by apply (Hdis z Hin).
    + by eapply chain_snoc.
    + rewrite dom_insert_lookup_L; [done|by eexists].
    + intros p d' Hp. destruct (decide (p = z)) as [->|]; [rewrite lookup_insert_eq in Hp|rewrite lookup_insert_ne in Hp by done].
      * simplify_eq. cbn. by eapply Hdat.
      * by eapply Hdat.
  - apply last_None in El as ->. cbn in Ht. rewrite Ht. cbn in Hq.
    assert (E1 : (match mq_mem x !! RT_NULL with Some d0 => if RT_NULL =? RT_NULL then x
        else set_msg RT_NULL (mk_msg s (msg_data d0)) x | None => x end) = x) by (by case_match).
    rewrite E1, bool_decide_true by done. split; [|done]. split; cbn; try done.
    split; [done|]. split; [done|]. by exists d.
Qed.

(** Linking at the head. *)
Definition x_head (s : Z) (d : rt_mq_message) (x : rt_messagequeue) : rt_messagequeue :=
  let x1 := set_msg s (mk_msg (mq_queue_head x) (msg_data d)) x in
  {| x1 with mq_queue_head := s;
             mq_queue_tail := if mq_queue_tail x =? RT_NULL then s else mq_queue_tail x;
             mq_entry := u16 (mq_entry x + 1) |}.

Lemma head_split x fr qu s d :
  mq_split x fr qu -> mq_held x fr qu s -> mq_mem x !! s = Some d ->
  mq_split (x_head s d x) fr (s :: qu).
Proof.
  intros Hs Hh Hd. pose proof (split_count _ _ _ _ Hs Hh) as Hcnt. pose proof Hh as (H1 & H2 & H3 & H4).
  pose proof Hs as [Hf Hq Hnd Ht He Hc Hdat]. split; cbn.
  - by apply chain_insert.
  - split; [done|]. split; [done|]. eexists. rewrite lookup_insert_eq. split; [done|]. cbn. by apply chain_insert.
  - apply NoDup_app in Hnd as (N1 & N2 & N3). apply NoDup_app. split; [done|]. split.
    + intros y Hy [->|Hy']%elem_of_cons; [done|]. by apply (N2 y).
    + by apply NoDup_cons.
  - destruct (last qu) as [z|] eqn:El.
    + destruct (queue_tail_last _ _ _ _ Hs El) as (-> & Hz0 & _). rewrite (proj2 (Z.eqb_neq _ _) Hz0).
      destruct qu; [done|]. by rewrite last_cons_cons, El.
    + apply last_None in El as ->. cbn in Ht. by rewrite Ht.
  - rewrite He, u16_small by lia. lia.
  - by rewrite dom_insert_lookup_L.
  - intros p d' Hp. destruct (decide (p = s)) as [->|]; [rewrite lookup_insert_eq in Hp|rewrite lookup_insert_ne in Hp by done].
    + simplify_eq. cbn. by eapply Hdat.
    + by eapply Hdat.
Qed.

(** Taking the head message off the queue; [dec] is whether the entry count
    is decreased (it is not while a reset drains the queue). *)
Definition x_unlink (s : Z) (d : rt_mq_message) (e : Z) (x : rt_messagequeue) : rt_messagequeue :=
  {| x with mq_queue_head := msg_next d;
            mq_queue_tail := if mq_queue_tail x =? s then RT_NULL else mq_queue_tail x;
            mq_entry := e |}.

Lemma unlink_split x fr qu s :
  mq_split x fr (s :: qu) ->
  exists d, mq_mem x !! s = Some d /\ mq_queue_head x = s /\
    mq_split (x_unlink s d (Z.of_nat (length qu)) x) fr qu /\
    mq_held (x_unlink s d (Z.of_nat (length qu)) x) fr qu s.
Proof.
  intros [Hf (E & H0 & d & Hd & Hq) Hnd Ht He Hc Hdat]. exists d. split; [done|]. split; [done|].
  apply NoDup_app in Hnd as (N1 & N2 & N3). apply NoDup_cons in N3 as [N3 N4].
  assert (Hsf : s ∉ fr) by (intros Hin; apply (N2 s Hin); set_solver). split.
  - split; cbn; try done.
    + apply NoDup_app. split; [done|]. split; [|done]. intros y Hy Hy'. apply (N2 y Hy). set_solver.
    + rewrite Ht. destruct qu as [|q qu]; [by rewrite Z.eqb_refl|]. rewrite last_cons_cons.
      destruct (last (q :: qu)) as [z|] eqn:El; [|by apply last_None in El]. cbn.
      destruct (Z.eqb_spec z s) as [->|]; [|done]. exfalso. apply N3. by apply last_Some_elem_of.
  - split; [done|]. split; [done|]. split; [done|by eexists].
Qed.

(** Returning a held slot to the free chain. *)
Definition x_free (s : Z) (d : rt_mq_message) (x : rt_messagequeue) : rt_messagequeue :=
  let x1 := set_msg s (mk_msg (mq_queue_free x) (msg_data d)) x in {| x1 with mq_queue_free := s |}.

Lemma free_split x fr qu s d :
  mq_split x fr qu -> mq_held x fr qu s -> mq_mem x !! s = Some d ->
  mq_split (x_free s d x) (s :: fr) qu.
Proof.
  intros Hs Hh Hd. pose proof Hh as (H1 & H2 & H3 & H4). pose proof Hs as [Hf Hq Hnd Ht He Hc Hdat]. split; cbn; try done.
  - split; [done|]. split; [done|]. eexists. rewrite lookup_insert_eq. split; [done|]. cbn. by apply chain_insert.
  - by apply chain_insert.
  - apply NoDup_cons. rewrite elem_of_app. tauto.
  - by rewrite dom_insert_lookup_L.
  - intros p d' Hp. destruct (decide (p = s)) as [->|]; [rewrite lookup_insert_eq in Hp|rewrite lookup_insert_ne in Hp by done].
    + simplify_eq. cbn. by eapply Hdat.
    + by eapply Hdat.
Qed.
