(* ===== verification/MqSpec.v ===== *)
(** * What message queues promise

    A message queue is a bounded FIFO queue of byte strings with an urgent
    entrance.  The sections of sending and receiving are run on the kernel
    state; every operation keeps the chains of the pool intact, and messages
    arrive in order with the bytes that were sent. *)

From S2P Require Import Prelude Scheduler ReadyBitmap SchedInv SchedSpec Object ObjInv Timer.
From S2P Require Import TimerInv Kernel Thread Ipc Mailbox MsgQueue KernelInv ThreadInv IpcInv.
From S2P Require Import BlockInv MqInv Boot Demo.

(** The bytes of the queued slots. *)
Definition slot_data (x : rt_messagequeue) (s : Z) : list Z :=
  from_option msg_data [] (mq_mem x !! s).
Definition mq_msgs (x : rt_messagequeue) (qu : list Z) : list (list Z) := slot_data x <$> qu.

(** A slot of [size] bytes with [buffer] copied over its front. *)
Definition filled (buffer old : list Z) : list Z := buffer ++ drop (length buffer) old.

Section Spec.
Context `{CO : ConfigOk} {HP : Heap} {HO : HeapOk HP}.
Implicit Types (k : kstate).

Definition is_mq (k : kstate) (o : Z) : Prop := has_type k (AObj o) RT_Object_Class_MessageQueue.

Lemma get_mq_run k o x : ip_mq (k_ipc k) !! o = Some x -> get_mq o k = Ok x k.
Proof. intros E. unfold get_mq. by rewrite E. Qed.

Lemma put_mq_mq k o x y : put_mq o x (put_mq o y k) = put_mq o x k.
Proof. unfold put_mq. cbn. by rewrite insert_insert_eq. Qed.

Lemma put_mq_get k o x : ip_mq (k_ipc (put_mq o x k)) !! o = Some x.
Proof. apply lookup_insert_eq. Qed.

Lemma kwf_put_mq k o x fr qu : kwf k -> mq_split x fr qu -> kwf (put_mq o x k).
Proof.
  intros Hk Hx. apply kwf_ipc; [done|]. destruct (kw_ipc _ Hk) as [H1 H2 H3 H4 H5]. split; try done.
  - intros o' Ho'. destruct (H2 o' Ho') as (? & x' & ? & ? & ?). split; [done|]. exists x'.
    split; [done|]. split; [by eapply mutex_ok_frame|done].
  - intros o' Ho'. destruct (H5 o' Ho') as (Hh & x' & E & Hx'). split; [done|]. cbn.
    destruct (decide (o' = o)) as [->|Hne]; [exists x; rewrite lookup_insert_eq; eauto
      |exists x'; by rewrite lookup_insert_ne].
Qed.

Lemma get_msg_run k x s d : mq_mem x !! s = Some d -> get_msg x s k = Ok d k.
Proof. intros E. unfold get_msg. by rewrite E. Qed.

Lemma set_next_run k o x s d n :
  ip_mq (k_ipc k) !! o = Some x -> mq_mem x !! s = Some d ->
  set_next o s n k = Ok tt (put_mq o (set_msg s (mk_msg n (msg_data d)) x) k).
Proof.
  intros Hx Hd. unfold set_next. rewrite (bind_ok _ _ _ _ _ (get_mq_run _ _ _ Hx)).
  by rewrite (bind_ok _ _ _ _ _ (get_msg_run _ _ _ _ Hd)).
Qed.

Lemma set_data_run k o x s d buffer :
  ip_mq (k_ipc k) !! o = Some x -> mq_mem x !! s = Some d ->
  set_data o s buffer k = Ok tt (put_mq o (set_msg s (mk_msg (msg_next d) (filled buffer (msg_data d))) x) k).
Proof.
  intros Hx Hd. unfold set_data. rewrite (bind_ok _ _ _ _ _ (get_mq_run _ _ _ Hx)).
  by rewrite (bind_ok _ _ _ _ _ (get_msg_run _ _ _ _ Hd)).
Qed.

(** ** The sections *)

Lemma take_slot_run k o x s fr qu :
  ip_mq (k_ipc k) !! o = Some x -> mq_split x (s :: fr) qu ->
  exists d, mq_mem x !! s = Some d /\ mq_take_slot o k = Ok s (put_mq o (x_take s d x) k).
Proof.
  intros Hx Hs. destruct (take_split _ _ _ _ Hs) as (d & Hd & Ef & _ & (_ & _ & H0 & _)).
  exists d. split; [done|]. unfold mq_take_slot. rewrite (bind_ok _ _ _ _ _ (get_mq_run _ _ _ Hx)), Ef.
  rewrite (proj2 (Z.eqb_neq _ _) H0). by rewrite (bind_ok _ _ _ _ _ (get_msg_run _ _ _ _ Hd)).
Qed.

Lemma take_slot_full k o x qu :
  ip_mq (k_ipc k) !! o = Some x -> mq_split x [] qu -> mq_take_slot o k = Ok RT_NULL k.
Proof.
  intros Hx Hs. unfold mq_take_slot. rewrite (bind_ok _ _ _ _ _ (get_mq_run _ _ _ Hx)).
  by rewrite (qs_free _ _ _ Hs).
Qed.

Lemma fill_slot_run k o x s d buffer :
  ip_mq (k_ipc k) !! o = Some x -> mq_mem x !! s = Some d ->
  mq_fill_slot o s buffer k =
    Ok tt (put_mq o (set_msg s (mk_msg RT_NULL (filled buffer (msg_data d))) x) k).
Proof.
  intros Hx Hd. unfold mq_fill_slot. rewrite (bind_ok _ _ _ _ _ (set_next_run _ _ _ _ _ _ Hx Hd)).
  erewrite set_data_run; [|apply put_mq_get|apply lookup_insert_eq].
  rewrite put_mq_mq. unfold set_msg. cbn. by rewrite insert_insert_eq.
Qed.

Lemma link_tail_run k o x s fr qu :
  ip_mq (k_ipc k) !! o = Some x -> mq_split x fr qu ->
  mq_link_tail o s k = Ok tt (put_mq o (x_tail s x) k).
Proof.
  intros Hx Hs. unfold mq_link_tail. rewrite (bind_ok _ _ _ _ _ (get_mq_run _ _ _ Hx)).
  unfold x_tail. destruct (Z.eqb_spec (mq_queue_tail x) RT_NULL) as [E|E]; cbn [negb when].
  - rewrite bind_mret, (bind_ok _ _ _ _ _ (get_mq_run _ _ _ Hx)).
    assert (E1 : (match mq_mem x !! mq_queue_tail x with Some _ => x | None => x end) = x) by by case_match.
    rewrite E1. cbn. by destruct (mq_queue_head x =? RT_NULL).
  - destruct (last qu) as [z|] eqn:El.
    2: { exfalso. apply E. by rewrite (qs_tail _ _ _ Hs), El. }
    destruct (queue_tail_last _ _ _ _ Hs El) as (Et & _ & [dz Hz]). rewrite Et, Hz.
    rewrite (bind_ok _ _ _ _ _ (set_next_run _ _ _ _ _ _ Hx Hz)).
    erewrite bind_ok by (apply get_mq_run, put_mq_get).
    unfold modify. rewrite put_mq_mq. cbn. by destruct (mq_queue_head x =? RT_NULL).
Qed.

Lemma link_head_run k o x s d :
  ip_mq (k_ipc k) !! o = Some x -> mq_mem x !! s = Some d ->
  mq_link_head o s k = Ok tt (put_mq o (x_head s d x) k).
Proof.
  intros Hx Hd. unfold mq_link_head. rewrite (bind_ok _ _ _ _ _ (get_mq_run _ _ _ Hx)).
  rewrite (bind_ok _ _ _ _ _ (set_next_run _ _ _ _ _ _ Hx Hd)).
  erewrite bind_ok by (apply get_mq_run, put_mq_get).
  unfold modify. rewrite put_mq_mq. unfold x_head. cbn. by destruct (mq_queue_tail x =? RT_NULL).
Qed.

Lemma unlink_head_run k o x s fr qu :
  ip_mq (k_ipc k) !! o = Some x -> mq_split x fr (s :: qu) ->
  exists d, mq_mem x !! s = Some d /\
    mq_unlink_head o k = Ok s (put_mq o (x_unlink s d (Z.of_nat (length qu)) x) k).
Proof.
  intros Hx Hs. destruct (unlink_split _ _ _ _ Hs) as (d & Hd & Eh & _ & _). exists d. split; [done|].
  pose proof (qs_entry _ _ _ Hs) as He. cbn in He.
  assert (Hle : Z.of_nat (length (s :: qu)) < 65536).
  { assert (Hn : NoDup (s :: qu)) by (pose proof (qs_nodup _ _ _ Hs) as Hn; apply NoDup_app in Hn; tauto).
    eapply Z.le_lt_trans; [|apply (qs_count _ _ _ Hs)]. apply inj_le.
    rewrite <- (size_list_to_set (C := gset Z) (s :: qu)) by done. apply subseteq_size.
    intros y. rewrite elem_of_list_to_set. intros Hy. apply elem_of_dom.
    apply (split_subset _ _ _ Hs y). apply elem_of_app. by right. }
  unfold mq_unlink_head. rewrite (bind_ok _ _ _ _ _ (get_mq_run _ _ _ Hx)), Eh.
  rewrite (bind_ok _ _ _ _ _ (get_msg_run _ _ _ _ Hd)), bind_modify. unfold x_unlink. cbn [length] in Hle.
  cbn [mq_queue_tail]. destruct (mq_queue_tail x =? s); cbn; rewrite u16_small by lia;
    replace (mq_entry x - 1) with (Z.of_nat (length qu)) by lia; reflexivity.
Qed.

Lemma copy_out_run k o x s d n :
  ip_mq (k_ipc k) !! o = Some x -> mq_mem x !! s = Some d ->
  mq_copy_out o s n k = Ok (take (Z.to_nat (Z.min n (mq_msg_size x))) (msg_data d)) k.
Proof.
  intros Hx Hd. unfold mq_copy_out. rewrite (bind_ok _ _ _ _ _ (get_mq_run _ _ _ Hx)).
  rewrite (bind_ok _ _ _ _ _ (get_msg_run _ _ _ _ Hd)).
  destruct (Z.ltb_spec (mq_msg_size x) n); [rewrite Z.min_r by lia|rewrite Z.min_l by lia]; done.
Qed.

Lemma free_slot_run k o x s d :
  ip_mq (k_ipc k) !! o = Some x -> mq_mem x !! s = Some d ->
  mq_free_slot o s k = Ok tt (put_mq o (x_free s d x) k).
Proof.
  intros Hx Hd. unfold mq_free_slot. rewrite (bind_ok _ _ _ _ _ (get_mq_run _ _ _ Hx)).
  rewrite (bind_ok _ _ _ _ _ (set_next_run _ _ _ _ _ _ Hx Hd)).
  erewrite bind_ok by (apply get_mq_run, put_mq_get).
  unfold modify. by rewrite put_mq_mq.
Qed.

(** ** The bytes of the slots *)

Lemma slot_data_set x s d y :
  slot_data (set_msg s d x) y = if decide (y = s) then msg_data d else slot_data x y.
Proof.
  unfold slot_data, set_msg. cbn. case_decide as E; [subst; by rewrite lookup_insert_eq|].
  by rewrite lookup_insert_ne.
Qed.

Lemma slot_data_link x s d n y :
  mq_mem x !! s = Some d -> slot_data (set_msg s (mk_msg n (msg_data d)) x) y = slot_data x y.
Proof. intros E. rewrite slot_data_set. case_decide; [subst|done]. unfold slot_data. by rewrite E. Qed.

Lemma slot_data_tail x s y : slot_data (x_tail s x) y = slot_data x y.
Proof.
  unfold x_tail. destruct (mq_mem x !! mq_queue_tail x) as [d|] eqn:E; [|done].
  destruct (mq_queue_tail x =? RT_NULL); [done|]. by apply (slot_data_link _ _ _ s y) in E.
Qed.

Lemma mq_msgs_ext x x' qu :
  (forall y, y ∈ qu -> slot_data x' y = slot_data x y) -> mq_msgs x' qu = mq_msgs x qu.
Proof. intros H. apply list_fmap_ext. intros i y Hi. apply H. by eapply list_elem_of_lookup_2. Qed.

Lemma filled_length buffer old :
  (length buffer <= length old)%nat -> length (filled buffer old) = length old.
Proof. intros H. unfold filled. rewrite length_app, length_drop. lia. Qed.

(** ** Sending on the record *)

(** The queue after the free slot [s] has been taken and written. *)
Definition x_written (s : Z) (n : Z -> Z) (buffer : list Z) (x : rt_messagequeue) : rt_messagequeue :=
  match mq_mem x !! s with
  | Some d => set_msg s (mk_msg (n (msg_next d)) (filled buffer (msg_data d))) (x_take s d x)
  | None => x
  end.

Lemma written_split x s fr qu (n : Z -> Z) (buffer : list Z) :
  mq_split x (s :: fr) qu -> Z.of_nat (length buffer) <= mq_msg_size x ->
  exists d, mq_mem x !! s = Some d /\
    mq_split (x_written s n buffer x) fr qu /\ mq_held (x_written s n buffer x) fr qu s /\
    mq_mem (x_written s n buffer x) !! s = Some (mk_msg (n (msg_next d)) (filled buffer (msg_data d))) /\
    (forall y, slot_data (x_written s n buffer x) y =
       if decide (y = s) then filled buffer (msg_data d) else slot_data x y).
Proof.
  intros Hs Hle. destruct (take_split _ _ _ _ Hs) as (d & Hd & _ & Hs1 & Hh). exists d. split; [done|].
  unfold x_written. rewrite Hd. pose proof (qs_data _ _ _ Hs _ _ Hd) as Hl.
  destruct (write_split _ _ _ _ (mk_msg (n (msg_next d)) (filled buffer (msg_data d))) Hs1 Hh) as [H1 H2].
  { cbn. rewrite filled_length by lia. done. }
  split; [exact H1|]. split; [exact H2|]. split; [apply lookup_insert_eq|].
  intros y. rewrite slot_data_set. done.
Qed.

Definition x_sent (s : Z) (buffer : list Z) (x : rt_messagequeue) : rt_messagequeue :=
  x_tail s (x_written s (fun _ => RT_NULL) buffer x).

Lemma sent_split x s fr qu buffer :
  mq_split x (s :: fr) qu -> Z.of_nat (length buffer) <= mq_msg_size x ->
  mq_split (x_sent s buffer x) fr (qu ++ [s]) /\
  mq_msgs (x_sent s buffer x) (qu ++ [s]) = mq_msgs x qu ++ [filled buffer (slot_data x s)].
Proof.
  intros Hs Hle.
  destruct (written_split _ _ _ _ (fun _ => RT_NULL) _ Hs Hle) as (d & Hd & H1 & H2 & H3 & H4).
  destruct (tail_split _ _ _ _ _ H1 H2 H3 eq_refl) as [H5 _]. split; [exact H5|].
  unfold mq_msgs. rewrite fmap_app. unfold x_sent. f_equal.
  - apply mq_msgs_ext. intros y Hy. rewrite slot_data_tail, H4. rewrite decide_False; [done|].
    intros ->. by apply (proj1 (proj2 H2)).
  - cbn. rewrite slot_data_tail, H4, decide_True by done. unfold slot_data. by rewrite Hd.
Qed.

Lemma sent_size x s buffer : mq_msg_size (x_sent s buffer x) = mq_msg_size x.
Proof.
  assert (E : forall y, mq_msg_size (x_tail s y) = mq_msg_size y).
  { intros y. unfold x_tail. cbn. destruct (mq_mem y !! _); [|done]. by destruct (_ =? _). }
  unfold x_sent. rewrite E. unfold x_written. by destruct (mq_mem x !! s).
Qed.

Definition x_urged (s : Z) (buffer : list Z) (x : rt_messagequeue) : rt_messagequeue :=
  match mq_mem (x_written s id buffer x) !! s with
  | Some d => x_head s d (x_written s id buffer x)
  | None => x
  end.

Lemma urged_split x s fr qu buffer :
  mq_split x (s :: fr) qu -> Z.of_nat (length buffer) <= mq_msg_size x ->
  mq_split (x_urged s buffer x) fr (s :: qu) /\
  mq_msgs (x_urged s buffer x) (s :: qu) = filled buffer (slot_data x s) :: mq_msgs x qu.
Proof.
  intros Hs Hle. destruct (written_split _ _ _ _ id _ Hs Hle) as (d & Hd & H1 & H2 & H3 & H4).
  unfold x_urged. rewrite H3. pose proof (head_split _ _ _ _ _ H1 H2 H3) as H5. split; [exact H5|].
  assert (E : forall y, slot_data (x_head s (mk_msg (id (msg_next d)) (filled buffer (msg_data d)))
     (x_written s id buffer x)) y = slot_data (x_written s id buffer x) y).
  { intros y. exact (slot_data_link _ _ _ (mq_queue_head (x_written s id buffer x)) y H3). }
  unfold mq_msgs. cbn [fmap list_fmap]. f_equal.
  - rewrite E, H4, decide_True by done. unfold slot_data. by rewrite Hd.
  - apply mq_msgs_ext. intros y Hy. rewrite E, H4, decide_False; [done|].
    intros ->. by apply (proj1 (proj2 H2)).
Qed.

Definition x_received (s : Z) (n : Z) (x : rt_messagequeue) : rt_messagequeue :=
  match mq_mem x !! s with
  | Some d => x_free s d (x_unlink s d n x)
  | None => x
  end.

Lemma received_split x s fr qu :
  mq_split x fr (s :: qu) ->
  mq_split (x_received s (Z.of_nat (length qu)) x) (s :: fr) qu /\
  forall l, mq_msgs (x_received s (Z.of_nat (length qu)) x) l = mq_msgs x l.
Proof.
  intros Hs. destruct (unlink_split _ _ _ _ Hs) as (d & Hd & _ & H1 & H2). unfold x_received. rewrite Hd.
  split; [by apply free_split|]. intros l. apply mq_msgs_ext. intros y _.
  exact (slot_data_link (x_unlink s d (Z.of_nat (length qu)) x) s d _ y Hd).
Qed.

(** ** The operations *)

Lemma mq_may_wait k o : is_mq k o -> may_wait k (HSuspend o).
Proof.
  intros Ho o' [= <-]. split; intros x Hs _; pose proof (type_unique _ _ _ _ Hs Ho); discriminate.
Qed.

Section Ops.
Variables (k : kstate) (o : Z) (x : rt_messagequeue) (fr qu : list Z).
Hypotheses (Hk : kwf k) (Ho : is_mq k o) (Hx : ip_mq (k_ipc k) !! o = Some x) (Hs : mq_split x fr qu).

Lemma mq_head : head_exists k (HSuspend o).
Proof. by destruct (io_mq _ (kw_ipc _ Hk) o Ho) as (H & _). Qed.

Lemma send_checks_run n :
  n <> 0 -> mq_send_checks o n k = Ok (n <=? mq_msg_size x) k.
Proof.
  intros Hn. unfold mq_send_checks. rewrite check_run by done.
  rewrite bind_assert by (by rewrite (proj2 (Z.eqb_neq _ _) Hn)).
  by rewrite (bind_ok _ _ _ _ _ (get_mq_run _ _ _ Hx)).
Qed.

Lemma send_checks_bind {B} (buffer : list Z) (f : bool -> K B) :
  buffer <> [] ->
  (b ← mq_send_checks o (Z.of_nat (length buffer)); f b) k = f (Z.of_nat (length buffer) <=? mq_msg_size x) k.
Proof.
  intros Hb. erewrite bind_ok; [done|]. apply send_checks_run. destruct buffer; [done|]. cbn. lia.
Qed.

Lemma mq_send_long buffer :
  buffer <> [] -> mq_msg_size x < Z.of_nat (length buffer) ->
  rt_mq_send o buffer k = Ok (- RT_ERROR) k /\ rt_mq_urgent o buffer k = Ok (- RT_ERROR) k.
Proof.
  intros Hb Hl. unfold rt_mq_send, rt_mq_urgent. rewrite !send_checks_bind by done.
  by rewrite (proj2 (Z.leb_gt _ _) Hl).
Qed.

Lemma mq_send_full buffer :
  buffer <> [] -> Z.of_nat (length buffer) <= mq_msg_size x -> fr = [] ->
  rt_mq_send o buffer k = Ok (- RT_EFULL) k /\ rt_mq_urgent o buffer k = Ok (- RT_EFULL) k.
Proof.
  intros Hb Hl ->. unfold rt_mq_send, rt_mq_urgent. rewrite !send_checks_bind by done.
  rewrite (proj2 (Z.leb_le _ _) Hl). cbn [negb].
  by rewrite !(bind_ok _ _ _ _ _ (take_slot_full _ _ _ _ Hx Hs)).
Qed.

Lemma mq_send_run buffer s fr' :
  buffer <> [] -> Z.of_nat (length buffer) <= mq_msg_size x -> fr = s :: fr' ->
  sc_current (k_sched k) <> RT_NULL ->
  exists k', rt_mq_send o buffer k = Ok RT_EOK k' /\ kwf k' /\
    woke_first (HSuspend o) (put_mq o (x_sent s buffer x) k) k'.
Proof.
  intros Hb Hl -> Hc. destruct (sent_split _ _ _ _ _ Hs Hl) as [Hs' _].
  destruct (wake_first_run (put_mq o (x_sent s buffer x) k) (HSuspend o) RT_EOK) as (k' & E & Hk' & Hw); try done.
  { by eapply kwf_put_mq. } { exact mq_head. }
  exists k'. split; [|done]. unfold rt_mq_send. rewrite send_checks_bind by done.
  rewrite (proj2 (Z.leb_le _ _) Hl). cbn [negb].
  destruct (take_slot_run _ _ _ _ _ _ Hx Hs) as (d & Hd & E1). rewrite (bind_ok _ _ _ _ _ E1).
  rewrite (proj2 (Z.eqb_neq s RT_NULL)) by (apply (split_subset _ _ _ Hs s); apply elem_of_app; left; apply list_elem_of_here).
  erewrite bind_ok by (apply fill_slot_run; [apply put_mq_get|exact Hd]). rewrite put_mq_mq.
  destruct (written_split _ _ _ _ (fun _ => RT_NULL) _ Hs Hl) as (d' & Hd' & H1 & _).
  unfold x_sent in E. unfold x_written in E, H1. rewrite Hd in E, H1.
  erewrite bind_ok by (eapply link_tail_run; [apply put_mq_get|exact H1]). rewrite put_mq_mq. exact E.
Qed.

Lemma mq_urgent_run buffer s fr' :
  buffer <> [] -> Z.of_nat (length buffer) <= mq_msg_size x -> fr = s :: fr' ->
  sc_current (k_sched k) <> RT_NULL ->
  exists k', rt_mq_urgent o buffer k = Ok RT_EOK k' /\ kwf k' /\
    woke_first (HSuspend o) (put_mq o (x_urged s buffer x) k) k'.
Proof.
  intros Hb Hl -> Hc. destruct (urged_split _ _ _ _ _ Hs Hl) as [Hs' _].
  destruct (wake_first_run (put_mq o (x_urged s buffer x) k) (HSuspend o) RT_EOK) as (k' & E & Hk' & Hw); try done.
  { by eapply kwf_put_mq. } { exact mq_head. }
  exists k'. split; [|done]. unfold rt_mq_urgent. rewrite send_checks_bind by done.
  rewrite (proj2 (Z.leb_le _ _) Hl). cbn [negb].
  destruct (take_slot_run _ _ _ _ _ _ Hx Hs) as (d & Hd & E1). rewrite (bind_ok _ _ _ _ _ E1).
  rewrite (proj2 (Z.eqb_neq s RT_NULL)) by (apply (split_subset _ _ _ Hs s); apply elem_of_app; left; apply list_elem_of_here).
  erewrite bind_ok by (apply set_data_run; [apply put_mq_get|exact Hd]). rewrite put_mq_mq.
  destruct (written_split _ _ _ _ id _ Hs Hl) as (d' & Hd' & _ & _ & H3 & _).
  unfold x_urged in E. rewrite H3 in E. unfold x_written in E, H3. rewrite Hd in E, H3. simplify_eq.
  erewrite bind_ok by (eapply link_head_run; [apply put_mq_get|exact H3]). rewrite put_mq_mq. exact E.
Qed.

Lemma recv_finish_run n s qu' :
  qu = s :: qu' ->
  mq_recv_finish o n k = Ok (RT_EOK, Some (take (Z.to_nat (Z.min n (mq_msg_size x))) (slot_data x s)))
    (put_mq o (x_received s (Z.of_nat (length qu')) x) k).
Proof.
  intros ->. destruct (unlink_head_run _ _ _ _ _ _ Hx Hs) as (d & Hd & E1). unfold mq_recv_finish.
  rewrite (bind_ok _ _ _ _ _ E1). unfold slot_data, x_received. rewrite Hd.
  erewrite bind_ok by (eapply copy_out_run; [apply put_mq_get|exact Hd]).
  erewrite bind_ok by (eapply free_slot_run; [apply put_mq_get|exact Hd]). by rewrite put_mq_mq.
Qed.

Lemma entry_nil : (mq_entry x =? 0) = bool_decide (qu = []).
Proof. rewrite (qs_entry _ _ _ Hs). by destruct qu. Qed.

Lemma recv_checks_run {B} n (f : Z -> rt_messagequeue -> K B) :
  n <> 0 ->
  (RT_ASSERT (negb (o =? RT_NULL));; assert_type (AObj o) RT_Object_Class_MessageQueue;;
   RT_ASSERT (negb (n =? 0));; thread ← liftS rt_thread_self; y ← get_mq o; f thread y) k =
  f (sc_current (k_sched k)) x k.
Proof.
  intros Hn. rewrite check_run by done. rewrite bind_assert by (by rewrite (proj2 (Z.eqb_neq _ _) Hn)).
  by rewrite (bind_ok _ _ _ _ _ (k_self_run k)), (bind_ok _ _ _ _ _ (get_mq_run _ _ _ Hx)).
Qed.

Lemma mq_recv_run n timeout s qu' :
  n <> 0 -> qu = s :: qu' ->
  let k' := put_mq o (x_received s (Z.of_nat (length qu')) x) k in
  rt_mq_recv o n timeout k =
    Ok (Return (RT_EOK, Some (take (Z.to_nat (Z.min n (mq_msg_size x))) (slot_data x s)))) k' /\ kwf k'.
Proof.
  intros Hn Hq k'. pose proof entry_nil as He. rewrite Hq, bool_decide_false in He by done. split.
  - unfold rt_mq_recv. rewrite recv_checks_run by done. rewrite He. cbn [andb].
    unfold mq_recv_loop. rewrite (bind_ok _ _ _ _ _ (get_mq_run _ _ _ Hx)), He.
    by rewrite (bind_ok _ _ _ _ _ (recv_finish_run n s qu' Hq)).
  - eapply kwf_put_mq; [done|]. apply received_split. by rewrite <- Hq.
Qed.

Lemma mq_recv_empty_try n : n <> 0 -> qu = [] -> rt_mq_recv o n 0 k = Ok (Return (- RT_ETIMEOUT, None)) k.
Proof.
  intros Hn Hq. unfold rt_mq_recv. rewrite recv_checks_run by done. rewrite entry_nil, Hq.
  by rewrite bool_decide_true.
Qed.

Lemma mq_wait_run n timeout t th :
  qu = [] -> timeout <> 0 -> timeout < RT_TICK_MAX / 2 -> ipc_flag (mq_flag x) -> can_block k t th ->
  exists k', mq_recv_loop o n t timeout k = Ok (Block (mk_mq_pc o n t timeout (ts_tick (k_ts k)))) k' /\ kwf k' /\
    blocked_on (k_put t (set_error RT_EOK th) k) (HSuspend o) t (set_error RT_EOK th) (mq_flag x) timeout k'.
Proof.
  intros Hq Ht0 Ht Hfl Hb. pose proof mq_head as Hh.
  destruct (reset_error_run k t th Hk Hb) as (E0 & Hk0 & Hb0).
  set (k0 := k_put t (set_error RT_EOK th) k) in *.
  destruct (block_run k0 (HSuspend o) t (set_error RT_EOK th) (mq_flag x) timeout)
    as (k1 & k2 & k3 & E1 & E2 & E3 & Etk & Hk3 & Hbl); try done; [by apply mq_may_wait|].
  exists k3. split; [|done]. unfold mq_recv_loop. rewrite (bind_ok _ _ _ _ _ (get_mq_run _ _ _ Hx)).
  rewrite entry_nil, Hq, bool_decide_true by done.
  rewrite (bind_ok _ _ _ _ _ (thread_context_run _ _ _ Hk Hb)).
  rewrite (bind_ok _ _ _ _ _ E0), (proj2 (Z.eqb_neq _ _) Ht0), (bind_ok _ _ _ _ _ E1).
  rewrite (bind_ok _ _ _ _ _ (k_tick_run k1)), Etk, (bind_ok _ _ _ _ _ E2).
  by rewrite (bind_ok _ _ _ _ _ E3).
Qed.

Lemma mq_recv_block n timeout t th :
  n <> 0 -> qu = [] -> timeout <> 0 -> timeout < RT_TICK_MAX / 2 -> ipc_flag (mq_flag x) ->
  can_block k t th ->
  exists k', rt_mq_recv o n timeout k =
      Ok (Block (mk_mq_pc o n t timeout (ts_tick (k_ts k)))) k' /\ kwf k' /\
    blocked_on (k_put t (set_error RT_EOK th) k) (HSuspend o) t (set_error RT_EOK th) (mq_flag x) timeout k'.
Proof.
  intros Hn Hq Ht0 Ht Hfl Hb. destruct (mq_wait_run n timeout t th) as (k' & E & H); [done..|].
  exists k'. split; [|done]. unfold rt_mq_recv. rewrite recv_checks_run by done.
  by rewrite <- (cb_current _ _ _ Hb), (proj2 (Z.eqb_neq _ _) Ht0), andb_false_r.
Qed.

End Ops.

(** ** Reset *)

Definition x_count (n : Z) (x : rt_messagequeue) : rt_messagequeue := {| x with mq_entry := n |}.

Lemma put_mq_id k o x : ip_mq (k_ipc k) !! o = Some x -> put_mq o x k = k.
Proof.
  intros E. unfold put_mq. rewrite insert_id by done. by destruct k as [? ? ? [] ?].
Qed.

Lemma drain_run o qu fuel k x fr :
  ip_mq (k_ipc k) !! o = Some x -> mq_split (x_count (Z.of_nat (length qu)) x) fr qu ->
  (length qu < fuel)%nat ->
  exists x', mq_drain fuel o k = Ok tt (put_mq o x' k) /\
    mq_split (x_count 0 x') (reverse qu ++ fr) [] /\ mq_msg_size x' = mq_msg_size x /\ mq_flag x' = mq_flag x.
Proof.
  revert fuel k x fr. induction qu as [|s qu IH]; intros [|fuel] k x fr Hx Hs Hf; cbn [length] in *; try lia;
    cbn [mq_drain]; rewrite (bind_ok _ _ _ _ _ (get_mq_run _ _ _ Hx)).
  - exists x. pose proof (qs_queue _ _ _ Hs) as Hq. cbn in Hq. rewrite Hq. cbn [Z.eqb].
    by rewrite (put_mq_id _ _ _ Hx).
  - destruct (unlink_split _ _ _ _ Hs) as (d & Hd & Eh & H1 & H2). cbn in Hd, Eh. rewrite Eh.
    rewrite (proj2 (Z.eqb_neq s RT_NULL)) by apply H2.
    rewrite (bind_ok _ _ _ _ _ (get_msg_run _ _ _ _ Hd)), bind_modify.
    match goal with |- context [put_mq o ?y k] => set (x2 := y) end.
    assert (E2 : forall n, x_count n x2 = x_unlink s d n (x_count (Z.of_nat (S (length qu))) x)).
    { intros n. unfold x2. cbn. unfold x_unlink, x_count. cbn. by destruct (mq_queue_tail x =? s). }
    assert (Hm2 : mq_mem x2 = mq_mem x /\ mq_msg_size x2 = mq_msg_size x /\ mq_flag x2 = mq_flag x).
    { unfold x2. cbn. by destruct (mq_queue_tail x =? s). }
    destruct Hm2 as (M1 & M2 & M3). assert (Hd2 : mq_mem x2 !! s = Some d) by by rewrite M1.
    erewrite bind_ok by (eapply free_slot_run; [apply put_mq_get|exact Hd2]). rewrite put_mq_mq.
    rewrite <- E2 in H1, H2.
    destruct (IH fuel (put_mq o (x_free s d x2) k) (x_free s d x2) (s :: fr)) as (x' & E & H3 & H4 & H5);
      [apply put_mq_get|exact (free_split _ _ _ _ _ H1 H2 Hd2)|lia|].
    exists x'. rewrite E, put_mq_mq. rewrite reverse_cons, <- app_assoc. split; [done|]. split; [exact H3|].
    rewrite H4, H5. by cbn.
Qed.

Lemma split_length x fr qu : mq_split x fr qu -> (length qu <= size (dom (mq_mem x)))%nat.
Proof.
  intros Hs. assert (Hn : NoDup qu) by (pose proof (qs_nodup _ _ _ Hs) as Hn; apply NoDup_app in Hn; tauto).
  rewrite <- (size_list_to_set (C := gset Z) qu) by done. apply subseteq_size.
  intros y. rewrite elem_of_list_to_set. intros Hy. apply elem_of_dom.
  apply (split_subset _ _ _ Hs y). apply elem_of_app. by right.
Qed.

(** ** Initialisation *)

Lemma new_slot_split x fr s :
  mq_split x fr [] -> 0 <= mq_msg_size x -> s <> RT_NULL -> mq_mem x !! s = None ->
  Z.of_nat (size (dom (mq_mem x))) + 1 < 65536 ->
  mq_split {| x with mq_mem := <[s := mk_msg (mq_queue_free x)
                                  (replicate (Z.to_nat (mq_msg_size x)) 0)]> (mq_mem x);
                     mq_queue_free := s |} (s :: fr) [].
Proof.
  intros Hs Hsz H0 Hn Hc.
  assert (Hfr : s ∉ fr).
  { intros Hi. destruct (split_subset _ _ _ Hs s) as [_ [? ?]]; [apply elem_of_app; by left|]. congruence. }
  destruct Hs as [H1 H2 H3 H4 H5 H6 H7]. split; cbn.
  - split; [done|]. split; [done|]. eexists. split; [apply lookup_insert_eq|]. by apply chain_insert.
  - exact H2.
  - rewrite app_nil_r in *. by constructor.
  - exact H4.
  - exact H5.
  - rewrite dom_insert_L, size_union, size_singleton by (apply not_elem_of_dom in Hn; set_solver). lia.
  - intros p d. destruct (decide (p = s)) as [->|Hne]; [|rewrite lookup_insert_ne by done; apply H7].
    rewrite lookup_insert_eq. intros [= <-]. cbn. rewrite length_replicate. lia.
Qed.

Lemma thread_slots_split n temp x fr :
  mq_split x fr [] -> 0 <= mq_msg_size x -> 0 < mq_msg_pool x -> 0 <= temp ->
  (forall p, is_Some (mq_mem x !! p) -> p < mq_msg_pool x + temp * msg_stride (mq_msg_size x)) ->
  Z.of_nat (size (dom (mq_mem x))) + Z.of_nat n < 65536 ->
  let x' := mq_thread_slots n temp x in
  exists fr', mq_split x' fr' [] /\ (length fr' = length fr + n)%nat /\
    mq_msg_size x' = mq_msg_size x /\ mq_flag x' = mq_flag x.
Proof.
  revert temp x fr. induction n as [|n IH]; intros temp x fr Hs Hsz Hp Ht Hb Hc; cbn [mq_thread_slots].
  - exists fr. split; [done|]. split; [lia|done].
  - set (p := mq_msg_pool x + temp * msg_stride (mq_msg_size x)).
    assert (Hst : msg_stride (mq_msg_size x) > 0) by (destruct cfg_ptr; unfold msg_stride; lia).
    assert (Hpn : mq_mem x !! p = None).
    { destruct (mq_mem x !! p) eqn:E; [|done]. assert (p < p) by (apply Hb; by rewrite E). lia. }
    assert (Hp0 : 0 < p) by (unfold p; nia).
    destruct (IH (temp + 1) {| x with mq_mem := <[p := mk_msg (mq_queue_free x)
        (replicate (Z.to_nat (mq_msg_size x)) 0)]> (mq_mem x); mq_queue_free := p |} (p :: fr))
      as (fr' & H1 & H2 & H3 & H4); try done.
    + apply new_slot_split; try done; [unfold RT_NULL; lia|lia].
    + lia.
    + cbn [mq_mem mq_msg_pool mq_msg_size]. intros q [d Hq]. destruct (decide (q = p)) as [->|Hne]; [unfold p; nia|].
      rewrite lookup_insert_ne in Hq by done. assert (q < p) by (apply Hb; by eexists). unfold p in *. nia.
    + cbn [mq_mem]. rewrite dom_insert_L, size_union, size_singleton
        by (apply not_elem_of_dom in Hpn; set_solver). lia.
    + exists fr'. cbn [length] in H2. split; [exact H1|]. split; [lia|done].
Qed.

Lemma new_mq_split flag pool msg_size max_msgs :
  0 <= msg_size -> 0 < pool -> 0 <= max_msgs < 65536 ->
  exists fr, mq_split (new_mq flag pool msg_size max_msgs) fr [] /\ Z.of_nat (length fr) = max_msgs /\
    mq_msg_size (new_mq flag pool msg_size max_msgs) = msg_size /\
    mq_flag (new_mq flag pool msg_size max_msgs) = flag.
Proof.
  intros Hsz Hp Hm.
  destruct (thread_slots_split (Z.to_nat max_msgs) 0 (mk_mq flag pool ∅ msg_size max_msgs 0 RT_NULL RT_NULL RT_NULL) [])
    as (fr & H1 & H2 & H3 & H4); try done.
  - split; cbn; try done; try constructor.
  - cbn. intros p [? E]. by rewrite lookup_empty in E.
  - cbn [mq_mem]. rewrite dom_empty_L, size_empty. lia.
  - exists fr. split; [exact H1|]. cbn in H2. split; [lia|done].
Qed.

Lemma mq_init_run k o name pool msg_size pool_size flag :
  kwf k -> fresh k o -> 0 < pool ->
  let sz := u16 (RT_ALIGN msg_size RT_ALIGN_SIZE) in
  let n := u16 (pool_size / msg_stride sz) in
  exists k' fr, rt_mq_init o name pool msg_size pool_size flag k = Ok RT_EOK k' /\ kwf k' /\ is_mq k' o /\
    ip_mq (k_ipc k') !! o = Some (new_mq flag pool sz n) /\
    mq_split (new_mq flag pool sz n) fr [] /\ Z.of_nat (length fr) = n /\ has_static k' (AObj o) true.
Proof.
  intros Hk Hf Hp sz n.
  destruct (static_type (name_copy RT_NAME_MAX name) RT_Object_Class_MessageQueue) as [T1 _]; [class_mem|].
  destruct (ipc_init_run k o RT_Object_Class_MessageQueue name) as (s' & k1 & E1 & E2 & Ei & Hh & Hst & Hty & Hnew);
    [done|done|class_mem|].
  destruct (new_mq_split flag pool sz n) as (fr & Hs & Hl & _);
    [apply u16_range|done|apply u16_range|].
  set (x := new_mq flag pool sz n) in *.
  assert (Hn := Hnew (let i := k_ipc k1 in {| i with ip_mq := <[o := x]> (ip_mq i) |})).
  specialize (Hn ltac:(rewrite Ei; intros y Hy; cbn; by rewrite lookup_insert_ne)).
  exists (put_mq o x k1), fr. split; [|split; [|split; [done|split; [apply lookup_insert_eq|done]]]].
  - unfold rt_mq_init. rewrite (proj2 (Z.eqb_neq o RT_NULL) (fr_null _ _ Hf)), bind_assert by done.
    by rewrite (bind_ok _ _ _ _ _ E1), (bind_ok _ _ _ _ _ E2), bind_modify.
  - apply (kwf_new_obj k o _ _ Hk Hf Hn). intros _. rewrite T1. split; try done.
    intros _. exists x. split; [apply lookup_insert_eq|eauto].
Qed.

End Spec.

(** ** Theorems *)

Section Thm.
Context `{CO : ConfigOk} {HP : Heap} {HO : HeapOk HP}.


(** an urgent message is refused in the same cases and otherwise goes in
    front of the queued messages, so that it is the next one received. *)
Theorem mq_urgent_correct (k : kstate) (o : Z) (x : rt_messagequeue) (fr qu buffer : list Z) (Hk : kwf k)
    (Ho : is_mq k o) (Hx : ip_mq (k_ipc k) !! o = Some x) (Hs : mq_split x fr qu) (Hb : buffer <> [])
    (Hc : sc_current (k_sched k) <> RT_NULL) :
  (mq_msg_size x < Z.of_nat (length buffer) -> rt_mq_urgent o buffer k = Ok (- RT_ERROR) k) /\
  (Z.of_nat (length buffer) <= mq_msg_size x -> fr = [] -> rt_mq_urgent o buffer k = Ok (- RT_EFULL) k) /\
  (Z.of_nat (length buffer) <= mq_msg_size x -> forall s fr', fr = s :: fr' ->
     exists k' x', rt_mq_urgent o buffer k = Ok RT_EOK k' /\ kwf k' /\ ip_mq (k_ipc k') !! o = Some x' /\
       mq_split x' fr' (s :: qu) /\
       mq_msgs x' (s :: qu) = filled buffer (slot_data x s) :: mq_msgs x qu /\
       waiters k' (HSuspend o) = tail (waiters k (HSuspend o))).
Proof.
  split; [intros Hl; by eapply mq_send_long|]. split; [intros Hl Hf; by eapply mq_send_full|].
  intros Hl s fr' ->. destruct (mq_urgent_run k o x _ qu Hk Ho Hx Hs buffer s fr' Hb Hl eq_refl Hc) as (k' & E & Hk' & Hw).
  destruct (urged_split _ _ _ _ _ Hs Hl) as [H1 H2].
  destruct (woke_first_frame (HSuspend o) (put_mq o (x_urged s buffer x) k) k') as (F1 & _ & F3 & _);
    [by eapply kwf_put_mq|done|done|].
  exists k', (x_urged s buffer x). split; [done|]. split; [done|]. rewrite F1. split; [apply put_mq_get|].
  split; [done|]. split; [done|exact F3].
Qed.

(** C33: receiving takes the first queued message, returns at most the
    requested number of its bytes and gives its slot back to the free chain;
    the other messages stay as they are.  An empty queue returns
    [-RT_ETIMEOUT] when there is no waiting time and otherwise queues the
    receiver. *)
Theorem mq_recv_correct (k : kstate) (o n timeout t : Z) (x : rt_messagequeue) (th : rt_thread)
    (fr qu : list Z) (Hk : kwf k) (Ho : is_mq k o) (Hx : ip_mq (k_ipc k) !! o = Some x)
    (Hs : mq_split x fr qu) (Hn : n <> 0) (Hf : ipc_flag (mq_flag x)) (Hb : can_block k t th)
    (Ht : timeout < RT_TICK_MAX / 2) :
  (forall s qu', qu = s :: qu' ->
     exists k' x', rt_mq_recv o n timeout k =
         Ok (Return (RT_EOK, Some (take (Z.to_nat (Z.min n (mq_msg_size x))) (slot_data x s)))) k' /\ kwf k' /\
       ip_mq (k_ipc k') !! o = Some x' /\ mq_split x' (s :: fr) qu' /\ mq_msgs x' qu' = mq_msgs x qu') /\
  (qu = [] -> timeout = 0 -> rt_mq_recv o n timeout k = Ok (Return (- RT_ETIMEOUT, None)) k) /\
  (qu = [] -> timeout <> 0 ->
     exists k', rt_mq_recv o n timeout k =
         Ok (Block (mk_mq_pc o n t timeout (ts_tick (k_ts k)))) k' /\ kwf k' /\
       blocked_on (k_put t (set_error RT_EOK th) k) (HSuspend o) t (set_error RT_EOK th) (mq_flag x) timeout k').
Proof.
  split; [|split].
  - intros s qu' ->. destruct (mq_recv_run k o x fr _ Hk Ho Hx Hs n timeout s qu' Hn eq_refl) as [E Hk'].
    destruct (received_split _ _ _ _ Hs) as [H1 H2].
    eexists _, _. split; [exact E|]. split; [exact Hk'|]. split; [apply put_mq_get|]. split; [done|apply H2].
  - intros -> ->. by eapply mq_recv_empty_try.
  - intros -> Ht0. by eapply mq_recv_block.
Qed.

(** C34: a message sent to an empty queue that nobody waits on is received
    with exactly the bytes that were sent, and the queue is empty again with
    the same free slots. *)
Theorem mq_roundtrip (k : kstate) (o s timeout : Z) (x : rt_messagequeue) (fr buffer : list Z) (Hk : kwf k)
    (Ho : is_mq k o) (Hx : ip_mq (k_ipc k) !! o = Some x) (Hs : mq_split x (s :: fr) []) (Hb : buffer <> [])
    (Hl : Z.of_nat (length buffer) <= mq_msg_size x) (Hc : sc_current (k_sched k) <> RT_NULL)
    (Hw : waiters k (HSuspend o) = []) :
  exists k1 k2 x2, rt_mq_send o buffer k = Ok RT_EOK k1 /\
    rt_mq_recv o (Z.of_nat (length buffer)) timeout k1 = Ok (Return (RT_EOK, Some buffer)) k2 /\ kwf k2 /\
    ip_mq (k_ipc k2) !! o = Some x2 /\ mq_split x2 (s :: fr) [].
Proof.
  destruct (mq_send_run k o x _ [] Hk Ho Hx Hs buffer s fr Hb Hl eq_refl Hc) as (k1 & E1 & Hk1 & Hw1).
  destruct (sent_split _ _ _ _ _ Hs Hl) as [H1 H2]. unfold woke_first in Hw1.
  change (waiters (put_mq o (x_sent s buffer x) k) (HSuspend o)) with (waiters k (HSuspend o)) in Hw1.
  rewrite Hw in Hw1. subst k1. exists (put_mq o (x_sent s buffer x) k).
  destruct (mq_recv_run (put_mq o (x_sent s buffer x) k) o (x_sent s buffer x) fr [s]) with
    (n := Z.of_nat (length buffer)) (timeout := timeout) (s := s) (qu' := @nil Z) as [E2 Hk2]; try done.
  { apply put_mq_get. } { destruct buffer; [done|]. cbn. lia. }
  destruct (received_split _ _ _ _ H1) as [H3 _]. eexists _, _. split; [exact E1|].
  split; [|split; [exact Hk2|split; [apply put_mq_get|exact H3]]].
  rewrite E2. do 4 f_equal. injection H2 as ->. unfold filled.
  assert (Em : mq_msg_size (x_sent s buffer x) = mq_msg_size x) by apply sent_size.
  rewrite Em, Z.min_l, Nat2Z.id by done. by rewrite take_app_length.
Qed.

Lemma mq_reset_run (k : kstate) (o arg : Z) (x : rt_messagequeue) (fr qu : list Z) (Hk : kwf k)
    (Ho : is_mq k o) (Hx : ip_mq (k_ipc k) !! o = Some x) (Hs : mq_split x fr qu)
    (Hc : sc_current (k_sched k) <> RT_NULL) :
  exists k1 k' x', resumed_all (HSuspend o) k k1 /\
    rt_mq_control o RT_IPC_CMD_RESET arg k = Ok RT_EOK k' /\ kwf k' /\
    ip_mq (k_ipc k') !! o = Some x' /\ mq_split x' (reverse qu ++ fr) [] /\
    mq_msg_size x' = mq_msg_size x /\ waiters k' (HSuspend o) = [].
Proof.
  destruct (resume_all_run k (HSuspend o) Hk I (mq_head k o Hk Ho)) as (k1 & E1 & Hk1 & R1).
  assert (Hx1 : ip_mq (k_ipc k1) !! o = Some x) by by rewrite (wf_ipc _ _ (ra_frame _ _ _ R1)).
  assert (Hs1 : mq_split (x_count (Z.of_nat (length qu)) x) fr qu).
  { rewrite <- (qs_entry _ _ _ Hs). by destruct x. }
  destruct (drain_run o qu (S (size (dom (mq_mem x)))) k1 x fr Hx1 Hs1) as (x' & E2 & H1 & H2 & _).
  { pose proof (split_length _ _ _ Hs). lia. }
  assert (Hk2 : kwf (put_mq o (x_count 0 x') k1)) by by eapply kwf_put_mq.
  destruct (k_schedule_run (put_mq o (x_count 0 x') k1) Hk2) as (s' & E3 & Hk3 & Hr).
  { cbn. by rewrite (wf_current _ _ (ra_frame _ _ _ R1)). }
  exists k1, (put_sched s' (put_mq o (x_count 0 x') k1)), (x_count 0 x'). split; [done|]. split.
  - unfold rt_mq_control. rewrite check_run by done.
    change (RT_IPC_CMD_RESET =? RT_IPC_CMD_RESET) with true. cbv iota.
    rewrite (bind_ok _ _ _ _ _ E1), (bind_ok _ _ _ _ _ (get_mq_run _ _ _ Hx1)), (bind_ok _ _ _ _ _ E2).
    erewrite bind_ok by (apply get_mq_run, put_mq_get). rewrite bind_modify, put_mq_mq.
    by rewrite (bind_ok _ _ _ _ _ E3).
  - split; [done|]. split; [apply put_mq_get|]. split; [done|]. split; [done|].
    change (lget s' (HSuspend o) = []). rewrite (rescheduled_wait _ _ (HSuspend o) Hk2 Hr I). apply R1.
Qed.

(** [rt_mq_control] with [RT_IPC_CMD_RESET] wakes every waiting receiver
    with [-RT_ERROR] and moves every queued slot back to the free chain; its
    loop ends after one round per queued message. *)
Theorem mq_control_reset (k : kstate) (o arg : Z) (x : rt_messagequeue) (fr qu : list Z) (Hk : kwf k)
    (Ho : is_mq k o) (Hx : ip_mq (k_ipc k) !! o = Some x) (Hs : mq_split x fr qu)
    (Hc : sc_current (k_sched k) <> RT_NULL) :
  exists k1 k' x', resumed_all (HSuspend o) k k1 /\
    rt_mq_control o RT_IPC_CMD_RESET arg k = Ok RT_EOK k' /\ kwf k' /\
    ip_mq (k_ipc k') !! o = Some x' /\ mq_split x' (reverse qu ++ fr) [] /\
    mq_msg_size x' = mq_msg_size x /\ waiters k' (HSuspend o) = [].
Proof. by apply mq_reset_run. Qed.

End Thm.

(** ** Instances

    Message queue 800 has two slots of four bytes at 9000 and 9008. *)

#[local] Existing Instance default_config.
#[local] Existing Instance bump_heap.
#[local] Existing Instance bump_heap_ok.

Definition demo_mq0 : kstate := after (rt_mq_init 800 [109; 113] 9000 4 16 RT_IPC_FLAG_FIFO) demo.
Definition demo_mq1 : kstate := after (rt_mq_send 800 [1; 2; 3]) demo_mq0.

Definition mq_new : rt_messagequeue := new_mq RT_IPC_FLAG_FIFO 9000 4 2.

Lemma mq_new_split : mq_split mq_new [9008; 9000] [].
Proof.
  split.
  - split; [reflexivity|]. split; [discriminate|]. eexists. split; [reflexivity|].
    split; [reflexivity|]. split; [discriminate|]. eexists. split; reflexivity.
  - reflexivity.
  - apply NoDup_cons. split; [|apply NoDup_singleton]. rewrite list_elem_of_singleton. discriminate.
  - reflexivity.
  - reflexivity.
  - vm_compute. reflexivity.
  - intros p d Hp.
    assert (H : map_Forall (fun _ d => Z.of_nat (length (msg_data d)) = 4) (mq_mem mq_new))
      by (apply (bool_decide_unpack _); vm_compute; exact I).
    exact (H p d Hp).
Qed.

Lemma demo_mq0_kwf : kwf demo_mq0.
Proof.
  destruct (mq_init_run demo 800 [109; 113] 9000 4 16 RT_IPC_FLAG_FIFO) as (k & fr & E & Hk & _).
  - apply demo_kwf.
  - apply freshb_ok. by vm_compute.
  - reflexivity.
  - unfold demo_mq0. rewrite (after_ok _ _ _ _ E). exact Hk.
Qed.

Lemma demo_mq1_kwf : kwf demo_mq1.
Proof.
  destruct (mq_send_run demo_mq0 800 mq_new [9008; 9000] []) with (buffer := [1; 2; 3]) (s := 9008) (fr' := [9000])
    as (k & E & Hk & _).
  - apply demo_mq0_kwf.
  - eexists. split; by vm_compute.
  - by vm_compute.
  - exact mq_new_split.
  - discriminate.
  - by vm_compute.
  - reflexivity.
  - by vm_compute.
  - unfold demo_mq1. rewrite (after_ok _ _ _ _ E). exact Hk.
Qed.

Lemma mq_sent_split : mq_split (x_sent 9008 [1; 2; 3] mq_new) [9000] [9008].
Proof. apply (sent_split mq_new 9008 [9000] []); [exact mq_new_split|by vm_compute]. Qed.

#[global] Opaque demo_mq0 demo_mq1.


Lemma mq_urgent_correct_witness :
  exists k' x', rt_mq_urgent 800 [7; 8; 9; 10] demo_mq1 = Ok RT_EOK k' /\ kwf k' /\
    ip_mq (k_ipc k') !! 800 = Some x' /\ mq_msgs x' [9000; 9008] = [[7; 8; 9; 10]; [1; 2; 3; 0]].
Proof.
  destruct (mq_urgent_correct demo_mq1 800 (x_sent 9008 [1; 2; 3] mq_new) [9000] [9008] [7; 8; 9; 10])
    as (_ & _ & H).
  - apply demo_mq1_kwf.
  - eexists. split; by vm_compute.
  - by vm_compute.
  - exact mq_sent_split.
  - discriminate.
  - by vm_compute.
  - destruct (H ltac:(by vm_compute) 9000 [] eq_refl) as (k' & x' & E & Hk & Hx & _ & Hm & _).
    exists k', x'. split; [exact E|]. split; [exact Hk|]. split; [exact Hx|]. refine (eq_trans Hm _).
    vm_compute. reflexivity.
Defined.

Lemma mq_recv_correct_witness :
  exists k' x', rt_mq_recv 800 2 0 demo_mq1 = Ok (Return (RT_EOK, Some [1; 2])) k' /\ kwf k' /\
    ip_mq (k_ipc k') !! 800 = Some x' /\ mq_split x' [9008; 9000] [].
Proof.
  destruct (mq_recv_correct demo_mq1 800 2 0 t_high (x_sent 9008 [1; 2; 3] mq_new) (thread_of demo_mq1 t_high)
    [9000] [9008]) as (H & _).
  - apply demo_mq1_kwf.
  - eexists. split; by vm_compute.
  - by vm_compute.
  - exact mq_sent_split.
  - discriminate.
  - left. by vm_compute.
  - split; by vm_compute.
  - by vm_compute.
  - destruct (H 9008 [] eq_refl) as (k' & x' & E & Hk & Hx & Hs & _). exists k', x'.
    split; [refine (eq_trans E _); vm_compute; reflexivity|]. split; [exact Hk|]. split; [exact Hx|exact Hs].
Defined.

Lemma mq_roundtrip_witness :
  exists k1 k2, rt_mq_send 800 [5; 6] demo_mq0 = Ok RT_EOK k1 /\
    rt_mq_recv 800 2 0 k1 = Ok (Return (RT_EOK, Some [5; 6])) k2 /\ kwf k2.
Proof.
  destruct (mq_roundtrip demo_mq0 800 9008 0 mq_new [9000] [5; 6]) as (k1 & k2 & x2 & E1 & E2 & Hk & _).
  - apply demo_mq0_kwf.
  - eexists. split; by vm_compute.
  - by vm_compute.
  - exact mq_new_split.
  - discriminate.
  - by vm_compute.
  - by vm_compute.
  - by vm_compute.
  - exists k1, k2. split; [exact E1|]. split; [exact E2|exact Hk].
Defined.

Lemma mq_control_reset_witness :
  exists k' x', rt_mq_control 800 RT_IPC_CMD_RESET 0 demo_mq1 = Ok RT_EOK k' /\ kwf k' /\
    ip_mq (k_ipc k') !! 800 = Some x' /\ mq_split x' [9008; 9000] [].
Proof.
  destruct (mq_control_reset demo_mq1 800 0 (x_sent 9008 [1; 2; 3] mq_new) [9000] [9008])
    as (k1 & k' & x' & _ & E & Hk & Hx & Hs & _).
  - apply demo_mq1_kwf.
  - eexists. split; by vm_compute.
  - by vm_compute.
  - exact mq_sent_split.
  - by vm_compute.
  - exists k', x'. split; [exact E|]. split; [exact Hk|]. split; [exact Hx|exact Hs].
Defined.
