(* ===== verification/MpSpec.v ===== *)
(** * Memory pools: the blocks of a pool

    [mp_rep w mp x fr al] says that the words [w] in front of the blocks of
    the pool [x] form the free list [fr], and that the blocks [al] are
    allocated: they carry the address [mp] of their pool. *)

From S2P Require Import Prelude Scheduler ReadyBitmap SchedInv SchedSpec Object ObjInv Timer.
From S2P Require Import TimerInv Kernel Thread Ipc Mailbox MemPool KernelInv ThreadInv IpcInv.
From S2P Require Import Clock BlockInv ClockInv Boot Demo.

(** The free list starting at [p]. *)
Fixpoint wchain (w : gmap Z Z) (p : Z) (l : list Z) : Prop :=
  match l with
  | [] => p = RT_NULL
  | b :: l => p = b /\ b <> RT_NULL /\ exists n, w !! b = Some n /\ wchain w n l
  end.

Lemma wchain_insert w p l b v : b ∉ l -> wchain w p l -> wchain (<[b := v]> w) p l.
Proof.
  revert p. induction l as [|x l IH]; intros p Hn; [done|]. intros (-> & Hx & n & Hw & Hc).
  split; [done|]. split; [done|]. exists n. rewrite lookup_insert_ne by set_solver. split; [done|].
  apply IH; [set_solver|done].
Qed.

Section Rep.
Context `{CO : ConfigOk}.

Definition mp_stride (x : rt_mempool) : Z := mp_block_size x + sizeof_ptr.

(** The [n] blocks from address [p] on, each with the word in front. *)
Definition block_list (stride p : Z) (n : nat) : list Z := (fun i => p + Z.of_nat i * stride) <$> seq 0 n.

(** The addresses of the words in front of the blocks. *)
Definition pool_blocks (x : rt_mempool) : list Z :=
  block_list (mp_stride x) (mp_start_address x) (Z.to_nat (mp_block_total_count x)).

Record mp_rep (w : gmap Z Z) (mp : Z) (x : rt_mempool) (fr al : list Z) : Prop := {
  mr_chain : wchain w (mp_block_list x) fr;
  mr_alloc : forall b, b ∈ al -> w !! b = Some mp;
  mr_blocks : fr ++ al ≡ₚ pool_blocks x;
  mr_free : mp_block_free_count x = Z.of_nat (length fr);
  mr_start : 0 < mp_start_address x;
  mr_size : 0 <= mp_block_size x /\ 0 <= mp_block_total_count x < 2 ^ (8 * sizeof_ptr) /\
    mp_block_total_count x * mp_stride x <= mp_pool_size x
}.

Lemma stride_pos x : 0 <= mp_block_size x -> 4 <= mp_stride x.
Proof. unfold mp_stride. pose proof cfg_ptr. lia. Qed.

Lemma block_list_in stride p n b : b ∈ block_list stride p n ->
  exists i, 0 <= i < Z.of_nat n /\ b = p + i * stride.
Proof.
  unfold block_list. rewrite list_elem_of_fmap. intros (i & -> & Hi). apply elem_of_seq in Hi.
  exists (Z.of_nat i). lia.
Qed.

Lemma block_list_nodup stride p n : 0 < stride -> NoDup (block_list stride p n).
Proof. intros Hs. apply NoDup_fmap; [|apply NoDup_seq]. intros i j E. nia. Qed.

Lemma block_list_S stride p n : block_list stride p (S n) = p :: block_list stride (p + stride) n.
Proof.
  unfold block_list. cbn [seq fmap list_fmap]. f_equal; [lia|].
  rewrite <- seq_shift, <- list_fmap_compose. apply list_fmap_ext. intros _ i _. cbn. lia.
Qed.

Section At.
Context (w : gmap Z Z) (mp : Z) (x : rt_mempool) (fr al : list Z).
Hypothesis HR : mp_rep w mp x fr al.

Lemma rep_nodup : NoDup (fr ++ al).
Proof.
  destruct (mr_size _ _ _ _ _ HR) as [Hs _]. rewrite (mr_blocks _ _ _ _ _ HR).
  apply block_list_nodup. pose proof (stride_pos x Hs). lia.
Qed.

(** The memory of a block lies in the pool, and that of two blocks is
    disjoint. *)
Lemma rep_inside b : b ∈ fr ++ al ->
  mp_start_address x <= b /\ b + mp_stride x <= mp_start_address x + mp_pool_size x.
Proof.
  destruct (mr_size _ _ _ _ _ HR) as (Hs & Hc & Hf). rewrite (mr_blocks _ _ _ _ _ HR).
  intros (i & Hi & ->)%block_list_in. pose proof (stride_pos x Hs).
  assert ((i + 1) * mp_stride x <= mp_block_total_count x * mp_stride x) by (apply Z.mul_le_mono_nonneg_r; lia).
  split; nia.
Qed.

Lemma rep_nonnull b : b ∈ fr ++ al -> b <> RT_NULL.
Proof.
  intros Hb. pose proof (rep_inside b Hb). pose proof (mr_start _ _ _ _ _ HR). unfold RT_NULL. lia.
Qed.

Lemma rep_apart a b : a ∈ fr ++ al -> b ∈ fr ++ al -> a <> b ->
  a + mp_stride x <= b \/ b + mp_stride x <= a.
Proof.
  destruct (mr_size _ _ _ _ _ HR) as (Hs & _). rewrite (mr_blocks _ _ _ _ _ HR).
  intros (i & Hi & ->)%block_list_in (j & Hj & ->)%block_list_in Hne. pose proof (stride_pos x Hs).
  assert (i < j \/ j < i) by (destruct (Z.lt_trichotomy i j) as [|[->|]]; [by left|done|by right]). nia.
Qed.

Lemma rep_count : Z.of_nat (length fr) + Z.of_nat (length al) = mp_block_total_count x.
Proof.
  destruct (mr_size _ _ _ _ _ HR) as (_ & Hc & _). pose proof (Permutation_length (mr_blocks _ _ _ _ _ HR)) as E.
  unfold pool_blocks, block_list in E. rewrite length_app, length_fmap, length_seq in E. lia.
Qed.

(** Taking the first free block and putting an allocated one back. *)
Lemma rep_take b fr' n : fr = b :: fr' -> w !! b = Some n ->
  mp_rep (<[b := mp]> w) mp {| x with mp_block_free_count := mp_block_free_count x - 1; mp_block_list := n |}
    fr' (b :: al).
Proof.
  pose proof rep_nodup as Hnd. intros -> Hb. destruct HR as [H1 H2 H3 H4 H0 H5].
  destruct H1 as (_ & _ & n' & Hb' & Hc). assert (n' = n) as -> by congruence. split; cbn.
  - apply wchain_insert; [|done]. cbn in Hnd. apply NoDup_cons in Hnd as [Hni _]. set_solver.
  - intros c [->|Hc']%elem_of_cons; [by rewrite lookup_insert_eq|]. rewrite lookup_insert_ne; [by apply H2|].
    intros ->. cbn in Hnd. apply NoDup_cons in Hnd as [Hni _]. set_solver.
  - rewrite <- H3. cbn. by rewrite <- Permutation_middle.
  - rewrite H4. cbn. lia.
  - exact H0.
  - exact H5.
Qed.

Lemma rep_give b al1 al2 c : al = al1 ++ b :: al2 -> c = mp_block_free_count x + 1 ->
  mp_rep (<[b := mp_block_list x]> w) mp {| x with mp_block_free_count := c; mp_block_list := b |}
    (b :: fr) (al1 ++ al2).
Proof.
  pose proof rep_nodup as Hnd. pose proof (rep_nonnull b) as Hnz. intros -> ->. specialize (Hnz ltac:(set_solver)). destruct HR as [H1 H2 H3 H4 H0 H5].
  rewrite <- Permutation_middle in Hnd. apply NoDup_app in Hnd as (_ & Hd & Hn). apply NoDup_cons in Hn as [Hn _].
  split; cbn.
  - split; [done|]. split; [done|]. exists (mp_block_list x). split; [apply lookup_insert_eq|].
    apply wchain_insert; [|done]. intros Hi. apply (Hd b Hi). set_solver.
  - intros c Hc. rewrite lookup_insert_ne; [apply H2; set_solver|]. intros ->. by apply Hn.
  - rewrite <- H3. by rewrite <- (Permutation_middle al1), <- Permutation_middle.
  - rewrite H4. lia.
  - exact H0.
  - exact H5.
Qed.

End At.
End Rep.

Section Spec.
Context `{CO : ConfigOk} {HP : Heap} {HO : HeapOk HP}.
Implicit Types (k : kstate) (x : rt_mempool).

Definition pools (k : kstate) : gmap Z rt_mempool := ip_mp (k_ipc k).
Definition words (k : kstate) : gmap Z Z := ip_words (k_ipc k).
Definition pools_at (m : gmap Z rt_mempool) (w : gmap Z Z) (k : kstate) : kstate :=
  put_ipc (let i := k_ipc k in {| i with ip_mp := m; ip_words := w |}) k.

Definition is_mp (k : kstate) (mp : Z) : Prop :=
  has_type k (AObj mp) RT_Object_Class_MemPool /\ head_exists k (HSuspend mp).

Lemma kwf_pools k m w : kwf k -> kwf (pools_at m w k).
Proof.
  intros Hk. apply kwf_ipc; [done|]. destruct (kw_ipc _ Hk) as [H1 H2 H3 H4 H5]. split; try done.
  intros o' Ho'. destruct (H2 o' Ho') as (? & x' & ? & ? & ?). split; [done|]. exists x'.
  split; [done|]. split; [by eapply mutex_ok_frame|done].
Qed.

Lemma mp_may_wait k mp : is_mp k mp -> may_wait k (HSuspend mp).
Proof.
  intros [Ho _] o' [= <-]. split; intros x Hs _; pose proof (type_unique _ _ _ _ Hs Ho); discriminate.
Qed.

Lemma get_mp_run k mp x : pools k !! mp = Some x -> get_mp mp k = Ok x k.
Proof. unfold get_mp, pools. by intros ->. Qed.
Lemma get_word_run k a v : words k !! a = Some v -> get_word a k = Ok v k.
Proof. unfold get_word, words. by intros ->. Qed.
Lemma set_word_run k a u v : words k !! a = Some u ->
  set_word a v k = Ok tt (pools_at (pools k) (<[a := v]> (words k)) k).
Proof. intros H. unfold set_word. by rewrite (bind_ok _ _ _ _ _ (get_word_run _ _ _ H)). Qed.

(** ** Initialisation *)

Lemma new_word_run k start size a v : start <= a -> a + sizeof_ptr <= start + size ->
  new_word start size a v k = Ok tt (pools_at (pools k) (<[a := v]> (words k)) k).
Proof.
  intros H1 H2. unfold new_word. by rewrite (proj2 (Z.leb_le start a) H1), (proj2 (Z.leb_le (a + _) _) H2).
Qed.

Lemma link_blocks_run start size stride : sizeof_ptr <= stride ->
  forall n off k, 0 <= off -> (off + Z.of_nat n) * stride <= size ->
  exists w, link_blocks start size stride n off k = Ok tt (pools_at (pools k) w k) /\
    (forall i, off <= i < off + Z.of_nat n -> w !! (start + i * stride) = Some (start + (i + 1) * stride)) /\
    (forall a, a < start + off * stride -> w !! a = words k !! a).
Proof.
  intros Hs. pose proof cfg_ptr as Hp. induction n as [|n IH]; intros off k Ho Hf; cbn [link_blocks].
  { exists (words k). split; [|by split; [lia|]]. by destruct k as [? ? ? [] ? ?]. }
  rewrite (bind_ok _ _ _ _ _ (new_word_run k start size (start + off * stride) _ ltac:(nia) ltac:(nia))).
  set (k1 := pools_at _ _ k). destruct (IH (off + 1) k1) as (w & E & H1 & H2); [lia|lia|].
  exists w. split; [exact E|]. split.
  - intros i Hi. destruct (decide (i = off)) as [->|]; [|apply H1; lia].
    rewrite H2 by nia. unfold k1, words at 1. cbn. by rewrite lookup_insert_eq.
  - intros a Ha. rewrite H2 by nia. unfold k1, words at 1. cbn. rewrite lookup_insert_ne by lia. done.
Qed.

Lemma wchain_blocks w stride n : 0 < stride -> forall p, 0 < p ->
  (forall i, 0 <= i < Z.of_nat n -> w !! (p + i * stride) = Some (p + (i + 1) * stride)) ->
  w !! (p + Z.of_nat n * stride) = Some RT_NULL ->
  wchain w p (block_list stride p (S n)).
Proof.
  intros Hs. induction n as [|n IH]; intros p Hp H1 H2; rewrite block_list_S; cbn [wchain].
  - split; [done|]. split; [unfold RT_NULL; lia|]. exists RT_NULL. split; [|done].
    by replace p with (p + Z.of_nat 0 * stride) by lia.
  - split; [done|]. split; [unfold RT_NULL; lia|]. exists (p + stride). split.
    + specialize (H1 0 ltac:(lia)). replace (p + 0 * stride) with p in H1 by lia. rewrite H1. f_equal. lia.
    + apply IH; [lia| |].
      * intros i Hi. specialize (H1 (i + 1) ltac:(lia)). replace (p + stride + i * stride) with (p + (i + 1) * stride) by lia.
        rewrite H1. f_equal. lia.
      * rewrite <- H2. f_equal. rewrite Nat2Z.inj_succ. lia.
Qed.

(** The pool [rt_mp_init] and [rt_mp_create] set up. *)
Definition new_mp (start size block_size count : Z) : rt_mempool :=
  mk_mp start size block_size start count count 0.

Lemma blocks_init_run k mp start size bs count :
  pools k !! mp = Some (mk_mp start size bs RT_NULL count count 0) ->
  0 < start -> 0 <= bs -> bs + sizeof_ptr < 2 ^ (8 * sizeof_ptr) ->
  1 <= count < 2 ^ (8 * sizeof_ptr) -> count * (bs + sizeof_ptr) <= size ->
  exists w, mp_blocks_init mp k = Ok tt (pools_at (<[mp := new_mp start size bs count]> (pools k)) w k) /\
    let x := new_mp start size bs count in mp_rep w mp x (pool_blocks x) [].
Proof.
  intros Hx Hst Hb Hov Hc Hf. pose proof cfg_ptr as Hp. set (stride := bs + sizeof_ptr) in *.
  unfold mp_blocks_init. rewrite (bind_ok _ _ _ _ _ (get_mp_run _ _ _ Hx)).
  cbn [mp_start_address mp_block_size mp_block_total_count mp_pool_size].
  fold stride. rewrite (ubase_small stride) by lia.
  destruct (link_blocks_run start size stride) with (n := Z.to_nat count) (off := 0) (k := k) as (w & E & H1 & _);
    [lia|lia|lia|].
  rewrite (bind_ok _ _ _ _ _ E).
  rewrite (bind_ok _ _ _ _ _ (new_word_run _ start size (start + (count - 1) * stride) _ ltac:(nia) ltac:(nia))).
  erewrite bind_ok by (apply get_mp_run; exact Hx). eexists. split; [done|].
  split; cbn; [|set_solver|by rewrite app_nil_r| |done|by split; [|split; [lia|]]].
  - change (pool_blocks _) with (block_list stride start (Z.to_nat count)).
    replace (Z.to_nat count) with (S (Z.to_nat (count - 1))) by lia.
    apply wchain_blocks; [lia|done| |].
    + intros i Hi. unfold words. cbn. rewrite lookup_insert_ne by nia. apply H1. lia.
    + unfold words. cbn. replace (Z.of_nat (Z.to_nat (count - 1))) with (count - 1) by lia. apply lookup_insert_eq.
  - unfold pool_blocks, block_list. cbn. rewrite length_fmap, length_seq. lia.
Qed.

(** The arguments of [rt_mp_init]: at least one block fits, and the sizes do
    not wrap around. *)
Record mp_args (start size block_size : Z) : Prop := {
  ma_start : 0 < start;
  ma_size : 0 <= size < 2 ^ (8 * sizeof_ptr);
  ma_block : 0 <= block_size /\ RT_ALIGN block_size RT_ALIGN_SIZE + sizeof_ptr < 2 ^ (8 * sizeof_ptr);
  ma_fits : RT_ALIGN block_size RT_ALIGN_SIZE + sizeof_ptr <= RT_ALIGN_DOWN size RT_ALIGN_SIZE
}.

Definition init_mp (start size block_size : Z) : rt_mempool :=
  let size := RT_ALIGN_DOWN size RT_ALIGN_SIZE in
  let bs := RT_ALIGN block_size RT_ALIGN_SIZE in
  new_mp start size bs (size / (bs + sizeof_ptr)).

Lemma align_nonneg n : 0 <= n -> 0 <= RT_ALIGN n RT_ALIGN_SIZE.
Proof.
  intros Hn. destruct cfg_align as (e & He & ->). rewrite align_div by done.
  pose proof (Z.pow_pos_nonneg 2 e). assert (0 <= (n + 2 ^ e - 1) / 2 ^ e) by (apply Z.div_pos; lia). nia.
Qed.

Lemma align_down_le n : 0 <= n -> 0 <= RT_ALIGN_DOWN n RT_ALIGN_SIZE <= n.
Proof.
  intros Hn. destruct cfg_align as (e & He & ->). rewrite align_down_div by done.
  pose proof (Z.pow_pos_nonneg 2 e). pose proof (Z.mul_div_le n (2 ^ e)).
  assert (0 <= n / 2 ^ e) by (apply Z.div_pos; lia). nia.
Qed.

Lemma mp_init_run k mp name start size bs :
  kwf k -> fresh k mp -> mp_args start size bs ->
  exists k', rt_mp_init mp name start size bs k = Ok RT_EOK k' /\ kwf k' /\ is_mp k' mp /\
    pools k' !! mp = Some (init_mp start size bs) /\
    mp_rep (words k') mp (init_mp start size bs) (pool_blocks (init_mp start size bs)) [] /\
    waiters k' (HSuspend mp) = [] /\ threads k' = threads k /\
    sc_current (k_sched k') = sc_current (k_sched k) /\ sc_irq_nest (k_sched k') = sc_irq_nest (k_sched k) /\ has_static k' (AObj mp) true.
Proof.
  intros Hk Hf [A1 A2 [A3 A4] A5]. pose proof cfg_ptr as Hp. pose proof (align_nonneg bs A3) as A6.
  pose proof (align_down_le size (proj1 A2)) as A7.
  destruct (ipc_init_run k mp RT_Object_Class_MemPool name) as (s' & k1 & E1 & E2 & Ei & Hh & Hst & Hty & Hnew);
    [done|done|class_mem|].
  assert (Hw0 : waiters (put_obj s' k) (HSuspend mp) = []) by apply (fr_waiters _ _ Hf).
  assert (k1 = k_link (HSuspend mp) [] (put_obj s' k)) as ->.
  { unfold rt_ipc_object_init in E2. rewrite (head_init_run _ _ Hw0) in E2. by injection E2. }
  set (al := RT_ALIGN bs RT_ALIGN_SIZE) in *. set (sz := RT_ALIGN_DOWN size RT_ALIGN_SIZE) in *.
  set (count := sz / (al + sizeof_ptr)).
  assert (Hcount : 1 <= count /\ count * (al + sizeof_ptr) <= sz).
  { unfold count. split; [apply Z.div_le_lower_bound; lia|rewrite Z.mul_comm; apply Z.mul_div_le; lia]. }
  set (x0 := mk_mp start sz al RT_NULL count count 0).
  destruct (blocks_init_run (put_mp mp x0 (k_link (HSuspend mp) [] (put_obj s' k))) mp start sz al count)
    as (w & E3 & HR); [apply lookup_insert_eq|done|done|done|nia|tauto|].
  assert (Hn := Hnew (let i := k_ipc (put_obj s' k) in
    {| i with ip_mp := <[mp := new_mp start sz al count]> (<[mp := x0]> (ip_mp i)); ip_words := w |})).
  specialize (Hn ltac:(intros y Hy; cbn; by rewrite !lookup_insert_ne by done)).
  eexists. split; [|split; [|split; [|split; [|split; [|split]]]]].
  - unfold rt_mp_init. rewrite (proj2 (Z.eqb_neq mp RT_NULL) (fr_null _ _ Hf)), bind_assert by done.
    rewrite (bind_ok _ _ _ _ _ E1). fold al sz. rewrite (ubase_small al), (ubase_small (al + _)) by lia.
    rewrite (proj2 (Z.eqb_neq (al + sizeof_ptr) 0)) by lia. fold count x0. rewrite bind_modify.
    erewrite bind_ok by (apply head_init_run; exact Hw0). rewrite (bind_ok _ _ _ _ _ E3). done.
  - apply (kwf_new_obj k mp _ _ Hk Hf Hn). destruct (static_type (name_copy RT_NAME_MAX name) RT_Object_Class_MemPool) as [-> _]; [class_mem|].
    unfold RT_Object_Class_MemPool. lia.
  - exact (conj Hty Hh).
  - apply lookup_insert_eq.
  - exact HR.
  - unfold waiters. cbn. by rewrite lget_put, decide_True.
  - by split.
Qed.

(** ** Allocation with a free block *)

(** The pool after its first free block has been taken. *)
Lemma mp_take_run k mp x b fr al :
  pools k !! mp = Some x -> mp_rep (words k) mp x (b :: fr) al ->
  exists x', let w := <[b := mp]> (words k) in
    mp_take mp k = Ok (b + sizeof_ptr) (pools_at (<[mp := x']> (pools k)) w k) /\
    mp_rep w mp x' fr (b :: al) /\ mp_suspend_thread_count x' = mp_suspend_thread_count x /\
    mp_stride x' = mp_stride x /\ pool_blocks x' = pool_blocks x.
Proof.
  intros Hx HR. destruct (mr_chain _ _ _ _ _ HR) as (Hb & Hnz & n & Hn & _).
  eexists. split; [|split; [by apply (rep_take _ _ _ _ _ HR b fr n)|done]].
  unfold mp_take. rewrite (bind_ok _ _ _ _ _ (get_mp_run _ _ _ Hx)), bind_modify.
  erewrite bind_ok by (apply get_mp_run; apply lookup_insert_eq). cbn [mp_block_list]. rewrite Hb.
  rewrite bind_assert by (by apply negb_true_iff, Z.eqb_neq).
  erewrite bind_ok by (apply get_word_run; exact Hn). rewrite bind_modify.
  erewrite bind_ok by (eapply set_word_run; exact Hn).
  unfold mret, M_ret, pools_at, pools, words, put_mp, put_ipc. cbn. by rewrite insert_insert_eq.
Qed.

Lemma mp_alloc_free k mp x b fr al time :
  pools k !! mp = Some x -> mp_rep (words k) mp x (b :: fr) al ->
  exists x', let w := <[b := mp]> (words k) in
    rt_mp_alloc mp time k = Ok (Return (b + sizeof_ptr)) (pools_at (<[mp := x']> (pools k)) w k) /\
    mp_rep w mp x' fr (b :: al) /\ mp_suspend_thread_count x' = mp_suspend_thread_count x /\
    mp_stride x' = mp_stride x /\ pool_blocks x' = pool_blocks x.
Proof.
  intros Hx HR. destruct (mp_take_run k mp x b fr al Hx HR) as (x' & E & H). exists x'. split; [|exact H].
  unfold rt_mp_alloc, mp_alloc_loop. rewrite (bind_ok _ _ _ _ _ (k_self_run k)).
  rewrite (bind_ok _ _ _ _ _ (get_mp_run _ _ _ Hx)), (mr_free _ _ _ _ _ HR).
  rewrite (proj2 (Z.eqb_neq _ _)) by (cbn; lia). by rewrite (bind_ok _ _ _ _ _ E).
Qed.

(** ** An exhausted pool *)

Lemma mp_empty_loop {A} k mp x al (m1 m2 : K A) :
  pools k !! mp = Some x -> mp_rep (words k) mp x [] al ->
  (x ← get_mp mp; if mp_block_free_count x =? 0 then m1 else m2) k = m1 k.
Proof.
  intros Hx HR. rewrite (bind_ok _ _ _ _ _ (get_mp_run _ _ _ Hx)), (mr_free _ _ _ _ _ HR). done.
Qed.

Lemma mp_alloc_try k mp x al t th :
  can_block k t th -> kwf k -> pools k !! mp = Some x -> mp_rep (words k) mp x [] al ->
  rt_mp_alloc mp 0 k = Ok (Return RT_NULL) (k_put t (set_error (- RT_ETIMEOUT) th) k) /\
  kwf (k_put t (set_error (- RT_ETIMEOUT) th) k).
Proof.
  intros [Ht Hc Hr Hi] Hk Hx HR. split.
  - unfold rt_mp_alloc, mp_alloc_loop. rewrite (bind_ok _ _ _ _ _ (k_self_run k)).
    rewrite (mp_empty_loop k mp x al) by done. cbn [Z.eqb].
    unfold rt_set_errno. rewrite bind_assoc, (bind_ok _ _ _ _ _ (k_nest_run k)), Hi. cbn [Z.eqb negb].
    rewrite bind_assoc, (bind_ok _ _ _ _ _ (k_self_run k)), <- Hc, (nonnull_thread _ _ _ Hk Ht).
    by rewrite (bind_ok _ _ _ _ _ (k_upd_thread_run _ _ _ _ Ht)).
  - eapply kwf_put_same; [done|done|apply set_error_same].
Qed.

(** Waiters of a pool are neither in FIFO nor in priority order: a new one
    goes first. *)
Definition mp_order : Z := 2.

Definition count_waiter (d : Z) (x : rt_mempool) : rt_mempool :=
  {| x with mp_suspend_thread_count := ubase (mp_suspend_thread_count x + d) |}.

Lemma rep_count_waiter w mp x fr al d : mp_rep w mp x fr al -> mp_rep w mp (count_waiter d x) fr al.
Proof. intros [H1 H2 H3 H4 H5 H6]. by split. Qed.

Lemma mp_alloc_block k mp x al t th time :
  kwf k -> is_mp k mp -> can_block k t th -> pools k !! mp = Some x -> mp_rep (words k) mp x [] al ->
  time <> 0 -> time < RT_TICK_MAX / 2 ->
  let th' := set_error RT_EOK th in
  let k0 := put_mp mp (count_waiter 1 x) (k_put t th' k) in
  exists k', rt_mp_alloc mp time k = Ok (Block (mk_mp_pc mp t time (ts_tick (k_ts k)))) k' /\ kwf k' /\
    blocked_on k0 (HSuspend mp) t th' mp_order time k' /\
    waiters k' (HSuspend mp) = t :: waiters k (HSuspend mp).
Proof.
  intros Hk [Hty Hh] Hb Hx HR Hnz Hti th' k0. pose proof (cb_current _ _ _ Hb) as Hc.
  destruct (reset_error_run k t th Hk Hb) as (E0 & Hk0 & Hb0). fold th' in E0, Hk0, Hb0.
  assert (Hkp : kwf k0) by by apply kwf_pools.
  assert (Hbp : can_block k0 t th') by (split; apply Hb0).
  assert (Hmp : forall k1, k_obj k1 = k_obj k -> head_exists k1 (HSuspend mp) -> may_wait k1 (HSuspend mp)).
  { intros k1 Eo Hh1. apply mp_may_wait. split; [|done]. unfold has_type. by rewrite Eo. }
  destruct (suspend_for_list (k_put t th' k) (HSuspend mp) t th') as [R1 _ R3 R4 R5 _ _]; try apply Hb0; auto; [done|].
  destruct (suspend_for_list k0 (HSuspend mp) t th') as [_ _ _ _ _ _ R7]; try apply Hbp; auto; [done|].
  destruct (block_tail_run k0 (HSuspend mp) t th' mp_order time [] (waiters k (HSuspend mp)))
    as (k2 & k3 & E2 & E3 & Etk & Hk3 & Hbl & Hw); try done; [by apply R7|].
  exists k3. split; [|done]. unfold rt_mp_alloc, mp_alloc_loop. rewrite (bind_ok _ _ _ _ _ (k_self_run k)), <- Hc.
  rewrite (mp_empty_loop k mp x al) by done. rewrite (proj2 (Z.eqb_neq _ _) Hnz).
  unfold RT_DEBUG_NOT_IN_INTERRUPT. rewrite bind_assoc, (bind_ok _ _ _ _ _ (k_nest_run k)), (cb_irq _ _ _ Hb).
  rewrite bind_assert by done. rewrite (bind_ok _ _ _ _ _ E0), (bind_ok _ _ _ _ _ R1).
  erewrite bind_ok by (eapply liftS_run, tlist_insert_after_run; eauto).
  unfold suspend_count. rewrite bind_assoc. erewrite bind_ok by (apply get_mp_run; exact Hx). rewrite bind_modify.
  erewrite bind_ok by reflexivity. rewrite (bind_ok _ _ _ _ _ E2), (bind_ok _ _ _ _ _ E3).
  unfold mret, M_ret. do 3 f_equal. exact Etk.
Qed.

(** ** Freeing a block *)

(** The pool with block [b] back on its free list. *)
Definition give_block (b : Z) (x : rt_mempool) : rt_mempool :=
  {| x with mp_block_free_count := mp_block_free_count x + 1; mp_block_list := b |}.

Lemma mp_free_head k mp x b fr al1 al2 :
  pools k !! mp = Some x -> mp_rep (words k) mp x fr (al1 ++ b :: al2) ->
  let k1 := pools_at (<[mp := give_block b x]> (pools k)) (<[b := mp_block_list x]> (words k)) k in
  mp_rep (words k1) mp (give_block b x) (b :: fr) (al1 ++ al2) /\
  rt_mp_free (b + sizeof_ptr) k =
    (if 0 <? mp_suspend_thread_count x then
       thread ← first_waiter (HSuspend mp);
       liftS (upd_thread thread (set_error RT_EOK));;
       rt_thread_resume thread;;
       suspend_count Z.pred mp;;
       liftS rt_schedule
     else mret tt) k1.
Proof.
  intros Hx HR k1. pose proof (rep_count _ _ _ _ _ HR) as Hcnt. rewrite length_app in Hcnt. cbn in Hcnt.
  destruct (mr_size _ _ _ _ _ HR) as (_ & Htot & _).
  split; [by apply (rep_give _ _ _ _ _ HR)|].
  assert (Hb : words k !! b = Some mp) by (apply (mr_alloc _ _ _ _ _ HR); set_solver).
  unfold rt_mp_free. replace (b + sizeof_ptr - sizeof_ptr) with b by lia.
  rewrite (bind_ok _ _ _ _ _ (get_word_run _ _ _ Hb)), (bind_ok _ _ _ _ _ (get_mp_run _ _ _ Hx)), bind_modify.
  rewrite (ubase_small (mp_block_free_count x + 1)) by (rewrite (mr_free _ _ _ _ _ HR); lia).
  erewrite bind_ok by (eapply set_word_run; exact Hb).
  erewrite bind_ok by (apply get_mp_run; apply lookup_insert_eq). rewrite bind_modify.
  cbn [mp_suspend_thread_count]. f_equal. unfold k1, pools_at, pools, words, put_mp, put_ipc, give_block.
  cbn. by rewrite insert_insert_eq.
Qed.

(** The counter of waiting threads is right. *)
Definition waiters_counted (k : kstate) (mp : Z) (x : rt_mempool) : Prop :=
  mp_suspend_thread_count x = Z.of_nat (length (waiters k (HSuspend mp))) /\
  mp_suspend_thread_count x < 2 ^ (8 * sizeof_ptr).

Lemma mp_free_wake k mp x t rest th :
  kwf k -> pools k !! mp = Some x -> waiters k (HSuspend mp) = t :: rest -> threads k !! t = Some th ->
  sc_current (k_sched k) <> RT_NULL ->
  exists k', (thread ← first_waiter (HSuspend mp);
       liftS (upd_thread thread (set_error RT_EOK));;
       rt_thread_resume thread;;
       suspend_count Z.pred mp;;
       liftS rt_schedule) k = Ok tt k' /\ kwf k' /\
    pools k' = <[mp := count_waiter (-1) x]> (pools k) /\ words k' = words k /\
    waiters k' (HSuspend mp) = rest /\
    threads k' !! t = Some (set_stat RT_THREAD_READY (set_error RT_EOK th)).
Proof.
  intros Hk Hx Hw Ht Hc. set (th' := set_error RT_EOK th). set (k1 := k_put t th' k).
  assert (Hk1 : kwf k1) by (eapply kwf_put_same; [done|done|apply set_error_same]).
  assert (Hw1 : waiters k1 (HSuspend mp) = t :: rest) by exact Hw.
  destruct (list_resume_run k1 (HSuspend mp) t rest Hk1 I Hw1) as (th1 & Ht1 & Hs1 & Er & Hk2).
  assert (th1 = th') as -> by (unfold threads, k1 in Ht1; cbn in Ht1; rewrite lookup_insert_eq in Ht1; by injection Ht1).
  unfold rt_ipc_list_resume in Er. rewrite (bind_ok _ _ _ _ _ (first_waiter_run _ _ _ _ Hw1)) in Er.
  set (k2 := k_resume t th' k1) in *. set (k3 := put_mp mp (count_waiter (-1) x) k2).
  assert (Hk3 : kwf k3) by by apply kwf_pools.
  pose proof (k_resume_frame k1 t th') as Hf. fold k2 in Hf.
  destruct (k_schedule_run k3 Hk3) as (s' & Es & Hk4 & Hr); [exact (eq_ind_r (fun c => c <> RT_NULL) Hc (wf_current _ _ Hf))|].
  destruct (woken_first k1 (HSuspend mp) t rest th' s' Hk1 I Hw1 Ht1 Hs1 Hr) as [W1 W2].
  exists (put_sched s' k3). split; [|split; [done|split; [|split; [|split]]]].
  - rewrite (bind_ok _ _ _ _ _ (first_waiter_run _ _ _ _ Hw)), (bind_ok _ _ _ _ _ (k_upd_thread_run _ _ _ _ Ht)).
    fold th' k1. destruct (rt_thread_resume t k1) as [r k2'|f] eqn:E2;
      [|by rewrite (bind_fault _ _ _ _ E2) in Er].
    rewrite (bind_ok _ _ _ _ _ E2) in Er. injection Er as ->. rewrite (bind_ok _ _ _ _ _ E2).
    unfold suspend_count. rewrite bind_assoc. erewrite bind_ok by (apply get_mp_run; exact Hx). rewrite bind_modify.
    exact Es.
  - done.
  - done.
  - exact W1.
  - change (sc_threads s' !! t = Some (set_stat RT_THREAD_READY th')). rewrite W2. apply lookup_insert_eq.
Qed.

End Spec.

(** ** Taking all blocks *)

Section Exhaust.
Context `{CO : ConfigOk} {HP : Heap} {HO : HeapOk HP}.

(** [n] allocations that do not wait. *)
Fixpoint alloc_n (n : nat) (mp : Z) : K (list Z) :=
  match n with
  | O => mret []
  | S n =>
      r ← rt_mp_alloc mp 0;
      match r with
      | Return b => bs ← alloc_n n mp; mret (b :: bs)
      | Block _ => mret []
      end
  end.

Definition block_of (b : Z) : Z := b + sizeof_ptr.

Lemma alloc_n_run mp fr1 fr2 : forall k x al,
  pools k !! mp = Some x -> mp_rep (words k) mp x (fr1 ++ fr2) al ->
  exists m w x', alloc_n (length fr1) mp k = Ok (block_of <$> fr1) (pools_at m w k) /\
    m !! mp = Some x' /\ mp_rep w mp x' fr2 (rev fr1 ++ al).
Proof.
  induction fr1 as [|b fr1 IH]; intros k x al Hx HR.
  { exists (pools k), (words k), x. split; [|done]. by destruct k as [? ? ? [] ? ?]. }
  destruct (mp_alloc_free k mp x b (fr1 ++ fr2) al 0 Hx HR) as (x1 & E & HR1 & _).
  set (k1 := pools_at _ _ k) in E. destruct (IH k1 x1 (b :: al)) as (m & w & x' & E2 & Hm & HR2).
  { apply lookup_insert_eq. }
  { exact HR1. }
  exists m, w, x'. cbn [alloc_n length rev]. rewrite (bind_ok _ _ _ _ _ E), (bind_ok _ _ _ _ _ E2).
  split; [done|]. split; [done|]. by rewrite <- app_assoc.
Qed.

End Exhaust.

Section Thm.
Context `{CO : ConfigOk} {HP : Heap} {HO : HeapOk HP}.

(** C19: a pool holds as many blocks as fit.  After [rt_mp_init] that many
    allocations succeed; the blocks they return are distinct, lie in the
    memory of the pool and do not overlap, their own memory and the word in
    front of it included; and the next allocation that does not wait fails
    with [-RT_ETIMEOUT]. *)
Theorem mp_exhaust (k : kstate) (mp : Z) (name : list Z) (start size bs t : Z) (th : rt_thread) (Hk : kwf k)
    (Hf : fresh k mp) (Ha : mp_args start size bs) (Hb : can_block k t th) :
  let asz := RT_ALIGN_DOWN size RT_ALIGN_SIZE in
  let stride := RT_ALIGN bs RT_ALIGN_SIZE + sizeof_ptr in
  exists blocks k',
    (rt_mp_init mp name start size bs;; alloc_n (Z.to_nat (asz / stride)) mp) k = Ok blocks k' /\ kwf k' /\
    Z.of_nat (length blocks) = asz / stride /\ NoDup blocks /\
    (forall a, a ∈ blocks -> start <= a - sizeof_ptr /\ a - sizeof_ptr + stride <= start + size) /\
    (forall a b, a ∈ blocks -> b ∈ blocks -> a <> b -> a + stride <= b \/ b + stride <= a) /\
    rt_mp_alloc mp 0 k' = Ok (Return RT_NULL) (k_put t (set_error (- RT_ETIMEOUT) th) k').
Proof.
  intros asz stride. destruct (mp_init_run k mp name start size bs Hk Hf Ha)
    as (k1 & E1 & Hk1 & Hm1 & Hx1 & HR1 & _ & T1 & T2 & T3 & _).
  set (x := init_mp start size bs) in *. pose proof (rep_count _ _ _ _ _ HR1) as Hcnt. cbn in Hcnt. rewrite Z.add_0_r in Hcnt.
  pose proof HR1 as HR0. rewrite <- (app_nil_r (pool_blocks x)) in HR1.
  destruct (alloc_n_run mp (pool_blocks x) [] k1 x [] Hx1 HR1) as (m & w & x' & E2 & Hm & HR2).
  pose proof (align_down_le size (proj1 (ma_size _ _ _ Ha))) as Hle.
  exists (block_of <$> pool_blocks x), (pools_at m w k1). fold asz stride in Hcnt.
  split; [|split; [by apply kwf_pools|split; [by rewrite length_fmap|split; [|split; [|split]]]]].
  - rewrite (bind_ok _ _ _ _ _ E1). replace (Z.to_nat (asz / stride)) with (length (pool_blocks x)) by lia. exact E2.
  - apply NoDup_fmap; [intros a b; unfold block_of; lia|]. pose proof (rep_nodup _ _ _ _ _ HR0) as Hn.
    by rewrite app_nil_r in Hn.
  - intros a (b & -> & Hin)%list_elem_of_fmap. unfold block_of.
    destruct (rep_inside _ _ _ _ _ HR0 b) as [I1 I2]; [set_solver|]. fold asz in Hle.
    change (mp_stride x) with stride in I2. change (mp_start_address x) with start in I1, I2.
    change (mp_pool_size x) with asz in I2. lia.
  - intros a b (a' & -> & Hia)%list_elem_of_fmap (b' & -> & Hib)%list_elem_of_fmap Hne. unfold block_of in *.
    destruct (rep_apart _ _ _ _ _ HR0 a' b') as [H|H]; [set_solver|set_solver|congruence| |];
      change (mp_stride x) with stride in H; lia.
  - apply (mp_alloc_try _ mp x' (rev (pool_blocks x) ++ [])); [|by apply kwf_pools|done|exact HR2].
    destruct Hb as [B1 B2 B3 B4].
    split; [exact (eq_trans (f_equal (lookup t) T1) B1)|exact (eq_trans B2 (eq_sym T2))|done|exact (eq_trans T3 B4)].
Qed.

(** C36: [rt_mp_alloc].  The first free block is taken out of the pool, whose
    other blocks stay as they are; on an exhausted pool the caller gets
    RT_NULL at once when it does not want to wait, and otherwise is put in
    front of the waiting threads. *)
Theorem mp_alloc_correct (k : kstate) (mp time t : Z) (x : rt_mempool) (fr al : list Z) (th : rt_thread)
    (Hk : kwf k) (Hm : is_mp k mp) (Hx : pools k !! mp = Some x) (HR : mp_rep (words k) mp x fr al)
    (Hb : can_block k t th) (Ht : time < RT_TICK_MAX / 2) :
  match fr with
  | b :: fr' => exists k' x', rt_mp_alloc mp time k = Ok (Return (b + sizeof_ptr)) k' /\ kwf k' /\
      k_sched k' = k_sched k /\ pools k' !! mp = Some x' /\ mp_rep (words k') mp x' fr' (b :: al) /\
      (forall o, o <> mp -> pools k' !! o = pools k !! o) /\ (forall a, a <> b -> words k' !! a = words k !! a)
  | [] =>
      (time = 0 -> rt_mp_alloc mp time k = Ok (Return RT_NULL) (k_put t (set_error (- RT_ETIMEOUT) th) k)) /\
      (time <> 0 -> exists k', rt_mp_alloc mp time k = Ok (Block (mk_mp_pc mp t time (ts_tick (k_ts k)))) k' /\
         kwf k' /\ pools k' !! mp = Some (count_waiter 1 x) /\
         threads k' !! t = Some (set_stat RT_THREAD_SUSPEND (set_error RT_EOK th)) /\
         waiters k' (HSuspend mp) = t :: waiters k (HSuspend mp))
  end.
Proof.
  destruct fr as [|b fr]; [split|].
  - intros ->. by apply (mp_alloc_try k mp x al).
  - intros Hnz. destruct (mp_alloc_block k mp x al t th time) as (k' & E & Hk' & Hbl & Hw); [done..|].
    exists k'. split; [done|]. split; [done|]. split; [|split; [|done]].
    + unfold pools. rewrite (bl_ipc _ _ _ _ _ _ _ Hbl). apply lookup_insert_eq.
    + rewrite (bl_threads _ _ _ _ _ _ _ Hbl). apply lookup_insert_eq.
  - destruct (mp_alloc_free k mp x b fr al time Hx HR) as (x' & E & HR' & _).
    eexists. exists x'. split; [exact E|]. split; [by apply kwf_pools|]. split; [done|].
    split; [apply lookup_insert_eq|]. split; [exact HR'|].
    split; intros c Hc; [by apply lookup_insert_ne|by apply lookup_insert_ne].
Qed.

(** [rt_mp_free] puts an allocated block back on the free list of the
    pool it came from, wakes the thread that started to wait last with
    [RT_EOK], and keeps the count of the waiting threads right. *)
Theorem mp_free_correct (k : kstate) (mp b : Z) (x : rt_mempool) (fr al1 al2 : list Z)
    (Hk : kwf k) (Hx : pools k !! mp = Some x) (HR : mp_rep (words k) mp x fr (al1 ++ b :: al2))
    (Hw : waiters_counted k mp x) (Hc : sc_current (k_sched k) <> RT_NULL) :
  exists k' x', rt_mp_free (b + sizeof_ptr) k = Ok tt k' /\ kwf k' /\ pools k' !! mp = Some x' /\
    mp_rep (words k') mp x' (b :: fr) (al1 ++ al2) /\ waiters_counted k' mp x' /\
    waiters k' (HSuspend mp) = tail (waiters k (HSuspend mp)) /\
    forall t th, head (waiters k (HSuspend mp)) = Some t -> threads k !! t = Some th ->
      threads k' !! t = Some (set_stat RT_THREAD_READY (set_error RT_EOK th)).
Proof.
  destruct (mp_free_head k mp x b fr al1 al2 Hx HR) as [HR1 E]. cbv zeta in HR1, E.
  set (k1 := pools_at _ _ k) in *. destruct Hw as [Hw Hlt].
  assert (Hk1 : kwf k1) by by apply kwf_pools.
  rewrite E. destruct (waiters k (HSuspend mp)) as [|t rest] eqn:El; cbn in Hw.
  - rewrite Hw. exists k1, (give_block b x). split; [done|]. split; [done|]. split; [apply lookup_insert_eq|].
    split; [done|]. split; [|split; [exact El|done]]. unfold waiters_counted. cbn.
    change (waiters k1 (HSuspend mp)) with (waiters k (HSuspend mp)). rewrite El, Hw. cbn. pose proof cfg_ptr as [-> | ->]; lia.
  - destruct (Z.ltb_spec 0 (mp_suspend_thread_count x)); [|lia].
    assert (Ht : exists th, threads k !! t = Some th).
    { destruct (wait_suspended k (HSuspend mp) t Hk I) as (th & Ht & _); [rewrite El; set_solver|eauto]. }
    destruct Ht as [th Ht].
    destruct (mp_free_wake k1 mp (give_block b x) t rest th) as (k' & E' & Hk' & P1 & P2 & P3 & P4);
      [done|apply lookup_insert_eq|exact El|exact Ht|exact Hc|].
    exists k', (count_waiter (-1) (give_block b x)). split; [done|]. split; [done|].
    split; [rewrite P1; apply lookup_insert_eq|]. split; [rewrite P2; by apply rep_count_waiter|].
    split; [|split; [done|]].
    + unfold waiters_counted. rewrite P3. cbn. rewrite ubase_small by (cbn in Hw; lia). lia.
    + intros t' th' [= <-] Ht'. rewrite Ht in Ht'. by injection Ht' as <-.
Qed.

(** when a waiting thread has left the wait list without the pool
    counting it out, as it does when its waiting time is over, the next free
    of a block takes the list head itself for a thread. *)
Theorem mp_free_stale (k : kstate) (mp b : Z) (x : rt_mempool) (fr al1 al2 : list Z)
    (Hx : pools k !! mp = Some x) (HR : mp_rep (words k) mp x fr (al1 ++ b :: al2))
    (Hw : waiters k (HSuspend mp) = []) (Hs : 0 < mp_suspend_thread_count x) :
  rt_mp_free (b + sizeof_ptr) k = Fault BadPtr.
Proof.
  destruct (mp_free_head k mp x b fr al1 al2 Hx HR) as [_ ->].
  rewrite (proj2 (Z.ltb_lt _ _) Hs). apply bind_fault. unfold first_waiter. cbv zeta. set (k1 := pools_at _ _ k).
  assert (E : liftS (get_list (HSuspend mp)) k1 = Fault BadPtr \/ liftS (get_list (HSuspend mp)) k1 = Ok [] k1).
  { unfold liftS, zoom, get_list. change (k_sched k1) with (k_sched k). unfold waiters, lget in Hw.
    destruct (sc_lists (k_sched k) !! HSuspend mp) as [l|] eqn:El; cbn in Hw |- *; [right; by subst l|by left]. }
  destruct E as [E|E]; [by rewrite (bind_fault _ _ _ _ E)|by rewrite (bind_ok _ _ _ _ _ E)].
Qed.

End Thm.

(** ** Instances

    Pool 900 has one block of 8 bytes at 9000.  Thread 100 has taken it and
    waits two ticks for another one. *)

#[local] Existing Instance default_config.
#[local] Existing Instance bump_heap.
#[local] Existing Instance bump_heap_ok.

Definition demo_mp0 : kstate := after (rt_mp_init 900 [109; 112] 9000 12 8) demo.
Definition demo_mp1 : kstate := after (rt_mp_alloc 900 0) demo_mp0.
Definition demo_mp2 : kstate := after (rt_mp_alloc 900 2) demo_mp1.
Definition demo_mp3 : kstate := after (rt_tick_increase (fun _ _ => mret tt) 3;; rt_tick_increase (fun _ _ => mret tt) 3) demo_mp2.

Definition mp_full : rt_mempool := init_mp 9000 12 8.

Lemma demo_args : mp_args 9000 12 8.
Proof. split; vm_compute; (split; discriminate || reflexivity) || reflexivity || discriminate. Qed.

Lemma demo_mp0_ok : kwf demo_mp0 /\ is_mp demo_mp0 900 /\ pools demo_mp0 !! 900 = Some mp_full /\
  mp_rep (words demo_mp0) 900 mp_full [9000] [].
Proof.
  destruct (mp_init_run demo 900 [109; 112] 9000 12 8) as (k & E & Hk & Hm & Hx & HR & _).
  - apply demo_kwf.
  - apply freshb_ok. by vm_compute.
  - apply demo_args.
  - unfold demo_mp0. rewrite (after_ok _ _ _ _ E). exact (conj Hk (conj Hm (conj Hx HR))).
Qed.

Lemma demo_mp1_ok : kwf demo_mp1 /\ is_mp demo_mp1 900 /\
  exists x, pools demo_mp1 !! 900 = Some x /\ mp_rep (words demo_mp1) 900 x [] [9000] /\
    mp_suspend_thread_count x = 0.
Proof.
  destruct demo_mp0_ok as (Hk & Hm & Hx & HR).
  destruct (mp_alloc_free demo_mp0 900 mp_full 9000 [] [] 0 Hx HR) as (x' & E & HR' & Hs & _).
  unfold demo_mp1. rewrite (after_ok _ _ _ _ E). split; [by apply kwf_pools|]. split; [exact Hm|].
  exists x'. split; [apply lookup_insert_eq|]. split; [exact HR'|exact Hs].
Qed.

Definition demo_th : rt_thread := thread_of demo_mp1 t_high.

Lemma demo_mp1_block : can_block demo_mp1 t_high demo_th.
Proof. split; by vm_compute. Qed.

Lemma demo_mp2_ok : kwf demo_mp2 /\
  exists x, pools demo_mp2 !! 900 = Some x /\ mp_rep (words demo_mp2) 900 x [] [9000] /\
    mp_suspend_thread_count x = 1 /\ waiters demo_mp2 (HSuspend 900) = [t_high].
Proof.
  destruct demo_mp1_ok as (Hk & Hm & x & Hx & HR & Hs).
  destruct (mp_alloc_block demo_mp1 900 x [9000] t_high demo_th 2) as (k & E & Hk' & Hbl & Hw);
    [exact Hk|exact Hm|exact demo_mp1_block|exact Hx|exact HR|discriminate|by vm_compute|].
  unfold demo_mp2. rewrite (after_ok _ _ _ _ E). split; [exact Hk'|]. exists (count_waiter 1 x).
  unfold pools, words. rewrite (bl_ipc _ _ _ _ _ _ _ Hbl). split; [apply lookup_insert_eq|].
  split; [apply rep_count_waiter, HR|]. split; [cbn; by rewrite Hs|]. rewrite Hw. by vm_compute.
Qed.

Lemma demo_mp3_ok : exists x, pools demo_mp3 !! 900 = Some x /\ mp_rep (words demo_mp3) 900 x [] [9000] /\
  mp_suspend_thread_count x = 1 /\ waiters demo_mp3 (HSuspend 900) = [].
Proof.
  eexists. split; [by vm_compute|]. split; [|by vm_compute].
  split; cbn.
  - by vm_compute.
  - intros b ->%list_elem_of_singleton. by vm_compute.
  - by vm_compute.
  - by vm_compute.
  - lia.
  - vm_compute. repeat split; discriminate.
Qed.

#[global] Opaque demo_mp0 demo_mp1 demo_mp2 demo_mp3.

Lemma mp_exhaust_witness :
  exists blocks k', (rt_mp_init 900 [109; 112] 9000 12 8;; alloc_n 1 900) demo = Ok blocks k' /\ kwf k' /\
    NoDup blocks.
Proof.
  destruct (mp_exhaust demo 900 [109; 112] 9000 12 8 t_high (thread_of demo t_high))
    as (bl & k' & E & Hk & _ & Hn & _).
  - apply demo_kwf.
  - apply freshb_ok. by vm_compute.
  - apply demo_args.
  - split; by vm_compute.
  - exists bl, k'. split; [exact E|]. split; [exact Hk|exact Hn].
Defined.

Lemma mp_alloc_correct_witness :
  (exists k', rt_mp_alloc 900 0 demo_mp0 = Ok (Return 9004) k' /\ kwf k') /\
  rt_mp_alloc 900 0 demo_mp1 = Ok (Return RT_NULL) (k_put t_high (set_error (- RT_ETIMEOUT) demo_th) demo_mp1).
Proof.
  split.
  - destruct demo_mp0_ok as (Hk & Hm & Hx & HR).
    destruct (mp_alloc_correct demo_mp0 900 0 t_high mp_full [9000] [] (thread_of demo_mp0 t_high) Hk Hm Hx HR)
      as (k' & x' & E & Hk' & _).
    + split; by vm_compute.
    + by vm_compute.
    + exists k'. split; [exact E|exact Hk'].
  - destruct demo_mp1_ok as (Hk & Hm & x & Hx & HR & Hs).
    destruct (mp_alloc_correct demo_mp1 900 0 t_high x [] [9000] demo_th Hk Hm Hx HR) as [H _].
    + exact demo_mp1_block.
    + by vm_compute.
    + apply H. reflexivity.
Defined.

Lemma mp_free_correct_witness :
  exists k', rt_mp_free (9000 + sizeof_ptr) demo_mp2 = Ok tt k' /\ kwf k' /\ waiters k' (HSuspend 900) = [].
Proof.
  destruct demo_mp2_ok as (Hk & x & Hx & HR & Hs & Hw).
  destruct (mp_free_correct demo_mp2 900 9000 x [] [] [] Hk Hx HR) as (k' & x' & E & Hk' & _ & _ & _ & Hw' & _).
  - split; [exact (eq_trans Hs (eq_sym (f_equal (fun l => Z.of_nat (length l)) Hw)))|rewrite Hs; reflexivity].
  - by vm_compute.
  - exists k'. rewrite Hw in Hw'. split; [exact E|]. split; [exact Hk'|exact Hw'].
Defined.

Lemma mp_free_stale_witness : rt_mp_free (9000 + sizeof_ptr) demo_mp3 = Fault BadPtr.
Proof.
  destruct demo_mp3_ok as (x & Hx & HR & Hs & Hw).
  apply (mp_free_stale demo_mp3 900 9000 x [] [] [] Hx HR Hw). rewrite Hs. reflexivity.
Defined.
