(* ===== verification/RingBuffer.v ===== *)
(** * Ring buffers (components/drivers/src/ringbuffer.c)

    The state is the structure together with its pool.  The bit fields are
    kept at their width: one bit for a mirror flag and 15 bits for an index.
    The data handed in is the list of its bytes, and reading past its end, or
    writing past the end of the pool, is a fault. *)

From S2P Require Import Prelude Scheduler Object Timer Kernel.

Record rt_ringbuffer := mk_rb {
  rb_read_mirror : Z;
  rb_read_index : Z;
  rb_write_mirror : Z;
  rb_write_index : Z;
  rb_buffer_size : Z;
  rb_buffer : list Z
}.

Abbreviation Rb := (M rt_ringbuffer).

Inductive rt_ringbuffer_state := RT_RINGBUFFER_EMPTY | RT_RINGBUFFER_FULL | RT_RINGBUFFER_HALFFULL.

#[global] Instance rb_state_dec : EqDecision rt_ringbuffer_state.
Proof. solve_decision. Defined.

(** The bit fields. *)
Definition idx15 (x : Z) : Z := x mod 2 ^ 15.
Definition flip (m : Z) : Z := Z.lnot m mod 2.

Definition set_read (m i : Z) (rb : rt_ringbuffer) : rt_ringbuffer :=
  {| rb with rb_read_mirror := m; rb_read_index := idx15 i |}.
Definition set_write (m i : Z) (rb : rt_ringbuffer) : rt_ringbuffer :=
  {| rb with rb_write_mirror := m; rb_write_index := idx15 i |}.
Definition set_buffer (l : list Z) (rb : rt_ringbuffer) : rt_ringbuffer := {| rb with rb_buffer := l |}.

(** [rt_memcpy] to and from the pool. *)
Definition splice (off : nat) (d l : list Z) : list Z := take off l ++ d ++ drop (off + length d) l.
Definition copy_in (off : Z) (d : list Z) : Rb unit :=
  rb ← getS;
  if (0 <=? off) && (off + Z.of_nat (length d) <=? Z.of_nat (length (rb_buffer rb)))
  then modify (set_buffer (splice (Z.to_nat off) d (rb_buffer rb)))
  else fail BadPtr.
Definition slice (from n : Z) (l : list Z) : Rb (list Z) :=
  if (0 <=? from) && (0 <=? n) && (from + n <=? Z.of_nat (length l))
  then mret (take (Z.to_nat n) (drop (Z.to_nat from) l))
  else fail BadPtr.

Definition rt_ringbuffer_status (rb : rt_ringbuffer) : rt_ringbuffer_state :=
  if rb_read_index rb =? rb_write_index rb then
    if rb_read_mirror rb =? rb_write_mirror rb then RT_RINGBUFFER_EMPTY else RT_RINGBUFFER_FULL
  else RT_RINGBUFFER_HALFFULL.

Definition rt_ringbuffer_data_len (rb : rt_ringbuffer) : Z :=
  match rt_ringbuffer_status rb with
  | RT_RINGBUFFER_EMPTY => 0
  | RT_RINGBUFFER_FULL => rb_buffer_size rb
  | RT_RINGBUFFER_HALFFULL =>
      if rb_read_index rb <? rb_write_index rb then rb_write_index rb - rb_read_index rb
      else rb_buffer_size rb - (rb_read_index rb - rb_write_index rb)
  end.

Definition rt_ringbuffer_space_len (rb : rt_ringbuffer) : Z :=
  rb_buffer_size rb - rt_ringbuffer_data_len rb.

Definition rt_ringbuffer_init (pool : list Z) (size : Z) : Rb unit :=
  RT_ASSERT (0 <? size);;
  modify (fun _ => mk_rb 0 0 0 0 size pool).

Definition rt_ringbuffer_reset : Rb unit :=
  modify (fun rb => set_write 0 0 (set_read 0 0 rb)).

(** ** Blocks of data *)

(** Copy [length] bytes in at the write index; past the end of the pool the
    copy goes on at its start, on the other side of the mirror.  The result
    says which of the two happened. *)
Definition put_copy (ptr : list Z) (length : Z) : Rb bool :=
  rb ← getS;
  let first := rb_buffer_size rb - rb_write_index rb in
  if length <? first then
    d ← slice 0 length ptr;
    copy_in (rb_write_index rb) d;;
    modify (set_write (rb_write_mirror rb) (rb_write_index rb + length));;
    mret false
  else
    d1 ← slice 0 first ptr;
    copy_in (rb_write_index rb) d1;;
    d2 ← slice first (length - first) ptr;
    copy_in 0 d2;;
    modify (set_write (flip (rb_write_mirror rb)) (length - first));;
    mret true.

Definition rt_ringbuffer_put (ptr : list Z) (length : Z) : Rb Z :=
  rb ← getS;
  let size := u16 (rt_ringbuffer_space_len rb) in
  if size =? 0 then mret 0
  else
    let length := if size <? length then size else length in
    put_copy ptr length;;
    mret length.

Definition rt_ringbuffer_put_force (ptr : list Z) (length : Z) : Rb Z :=
  rb ← getS;
  let space_length := u16 (rt_ringbuffer_space_len rb) in
  let length := if space_length <? length then u16 (rb_buffer_size rb) else length in
  wrapped ← put_copy ptr length;
  when (space_length <? length)
    (modify (fun rb => set_read (if wrapped : bool then flip (rb_read_mirror rb) else rb_read_mirror rb)
                                (rb_write_index rb) rb));;
  mret length.

(** The same for reading. *)
Definition get_copy (length : Z) : Rb (list Z) :=
  rb ← getS;
  let first := rb_buffer_size rb - rb_read_index rb in
  if length <? first then
    d ← slice (rb_read_index rb) length (rb_buffer rb);
    modify (set_read (rb_read_mirror rb) (rb_read_index rb + length));;
    mret d
  else
    d1 ← slice (rb_read_index rb) first (rb_buffer rb);
    d2 ← slice 0 (length - first) (rb_buffer rb);
    modify (set_read (flip (rb_read_mirror rb)) (length - first));;
    mret (d1 ++ d2).

Definition rt_ringbuffer_get (length : Z) : Rb (list Z) :=
  rb ← getS;
  let size := rt_ringbuffer_data_len rb in
  if size =? 0 then mret []
  else
    let length := if size <? length then u16 size else length in
    get_copy length.

(** ** Single characters *)

Definition step_write : Rb bool :=
  rb ← getS;
  if rb_write_index rb =? rb_buffer_size rb - 1 then
    modify (set_write (flip (rb_write_mirror rb)) 0);; mret true
  else
    modify (set_write (rb_write_mirror rb) (rb_write_index rb + 1));; mret false.

Definition rt_ringbuffer_putchar (ch : Z) : Rb Z :=
  rb ← getS;
  if rt_ringbuffer_space_len rb =? 0 then mret 0
  else
    copy_in (rb_write_index rb) [ch];;
    step_write;;
    mret 1.

Definition rt_ringbuffer_putchar_force (ch : Z) : Rb Z :=
  rb ← getS;
  let old_state := rt_ringbuffer_status rb in
  copy_in (rb_write_index rb) [ch];;
  flipped ← step_write;
  when (bool_decide (old_state = RT_RINGBUFFER_FULL))
    (modify (fun rb => set_read (if flipped : bool then flip (rb_read_mirror rb) else rb_read_mirror rb)
                                (rb_write_index rb) rb));;
  mret 1.

Definition rt_ringbuffer_getchar : Rb (option Z) :=
  rb ← getS;
  if rt_ringbuffer_data_len rb =? 0 then mret None
  else
    ch ← of_option BadPtr (rb_buffer rb !! Z.to_nat (rb_read_index rb));
    (if rb_read_index rb =? rb_buffer_size rb - 1
     then modify (set_read (flip (rb_read_mirror rb)) 0)
     else modify (set_read (rb_read_mirror rb) (rb_read_index rb + 1)));;
    mret (Some ch).

(** ** Dynamic ring buffers: the structure and its pool come from the heap *)

Section Dynamic.
Context {HP : Heap}.

Definition on_heap {A} (m : M heap A) : M (heap * rt_ringbuffer) A :=
  zoom fst (fun h s => (h, s.2)) m.
Definition on_ring {A} (m : Rb A) : M (heap * rt_ringbuffer) A :=
  zoom snd (fun rb s => (s.1, rb)) m.

(** [sizeof_rb] is [sizeof(struct rt_ringbuffer)] and [garbage] what the
    block of the pool holds; the result is the address of the structure and
    of its pool. *)
Definition rt_ringbuffer_create (sizeof_rb : Z) (garbage : list Z) (size : Z) :
    M (heap * rt_ringbuffer) (Z * Z) :=
  RT_ASSERT (0 <? size);;
  rb ← on_heap (heap_malloc sizeof_rb);
  if rb =? RT_NULL then mret (rb, RT_NULL)
  else
    pool ← on_heap (heap_malloc size);
    if pool =? RT_NULL then
      let rb := RT_NULL in
      on_heap (heap_free rb);;
      mret (rb, RT_NULL)
    else
      on_ring (rt_ringbuffer_init garbage (i16 size));;
      mret (rb, pool).

Definition rt_ringbuffer_destroy (rb pool : Z) : M (heap * rt_ringbuffer) unit :=
  if rb =? RT_NULL then mret tt
  else
    on_heap (heap_free pool);;
    on_heap (heap_free rb).

End Dynamic.
