(* ===== verification/RingSpec.v ===== *)
(** * Ring buffers implement a bounded queue of bytes

    [ring_view size q rb] says that the structure [rb] is well formed and
    holds the bytes [q], oldest first: either all on one side of the mirror,
    or wrapped around the end of the pool.  Every operation but
    [rt_ringbuffer_put_force] follows the bounded queue [bq_step]. *)

From S2P Require Import Prelude Scheduler Object Timer Kernel RingBuffer.

Abbreviation zlen l := (Z.of_nat (length l)).

Inductive ring_view (size : Z) : list Z -> rt_ringbuffer -> Prop :=
| view_straight m a q b : m = 0 \/ m = 1 -> b <> [] ->
    size = zlen a + zlen q + zlen b -> size < 2 ^ 15 ->
    ring_view size q (mk_rb m (zlen a) m (zlen a + zlen q) size (a ++ q ++ b))
| view_wrapped m q1 q2 b : m = 0 \/ m = 1 -> q1 <> [] ->
    size = zlen q2 + zlen b + zlen q1 -> size < 2 ^ 15 ->
    ring_view size (q1 ++ q2)
      (mk_rb m (zlen q2 + zlen b) (flip m) (zlen q2) size (q2 ++ b ++ q1)).

(** The bytes held, read off the fields. *)
Definition rb_data (rb : rt_ringbuffer) : list Z :=
  let r := Z.to_nat (rb_read_index rb) in
  let w := Z.to_nat (rb_write_index rb) in
  if rb_read_mirror rb =? rb_write_mirror rb then take (w - r) (drop r (rb_buffer rb))
  else drop r (rb_buffer rb) ++ take w (rb_buffer rb).

Lemma flip_flip m : m = 0 \/ m = 1 -> flip (flip m) = m.
Proof. by intros [-> | ->]. Qed.
Lemma flip_ne m : (m =? flip m) = false.
Proof.
  unfold flip. apply Z.eqb_neq. intros E. assert (Hm : m mod 2 = m).
  { rewrite E. by rewrite Zmod_mod. }
  assert (Hl : Z.lnot m mod 2 = (- m - 1) mod 2) by (f_equal; unfold Z.lnot; lia).
  rewrite Hl in E. Z.to_euclidean_division_equations. lia.
Qed.
Lemma flip_bit m : m = 0 \/ m = 1 -> flip m = 0 \/ flip m = 1.
Proof. intros [-> | ->]; vm_compute; auto. Qed.
Lemma idx15_small x : 0 <= x < 2 ^ 15 -> idx15 x = x.
Proof. apply Z.mod_small. Qed.
Lemma not_nil_len (l : list Z) : l <> [] -> 0 < zlen l.
Proof. destruct l; cbn; [done|lia]. Qed.

Ltac view_facts := repeat match goal with
  | H : ?l <> [] |- _ => lazymatch goal with
      | _ : 0 < zlen l |- _ => fail
      | _ => pose proof (not_nil_len l H) end end.

Lemma view_data size q rb : ring_view size q rb -> rb_data rb = q.
Proof.
  destruct 1 as [m a q b Hm Hb Hs Hlt|m q1 q2 b Hm Hq Hs Hlt]; unfold rb_data; cbn [rb_read_mirror rb_write_mirror
    rb_read_index rb_write_index rb_buffer].
  - rewrite Z.eqb_refl, Nat2Z.id, drop_app_length.
    replace (Z.to_nat (zlen a + zlen q) - length a)%nat with (length q) by lia. apply take_app_length.
  - rewrite flip_ne, Nat2Z.id, take_app_length, app_assoc.
    replace (Z.to_nat (zlen q2 + zlen b)) with (length (q2 ++ b)) by (rewrite length_app; lia).
    by rewrite drop_app_length.
Qed.

Lemma view_len size q rb : ring_view size q rb -> rt_ringbuffer_data_len rb = zlen q.
Proof.
  destruct 1 as [m a q b Hm Hb Hs Hlt|m q1 q2 b Hm Hq Hs Hlt];
    unfold rt_ringbuffer_data_len, rt_ringbuffer_status; cbn; view_facts.
  - rewrite Z.eqb_refl. destruct (Z.eqb_spec (zlen a) (zlen a + zlen q)); [lia|].
    destruct (Z.ltb_spec (zlen a) (zlen a + zlen q)); lia.
  - rewrite flip_ne, length_app. destruct (Z.eqb_spec (zlen q2 + zlen b) (zlen q2)); [lia|].
    destruct (Z.ltb_spec (zlen q2 + zlen b) (zlen q2)); lia.
Qed.

Lemma view_size size q rb : ring_view size q rb ->
  rb_buffer_size rb = size /\ 0 < size < 2 ^ 15 /\ 0 <= zlen q <= size /\
  rt_ringbuffer_space_len rb = size - zlen q.
Proof.
  intros H. unfold rt_ringbuffer_space_len. rewrite (view_len _ _ _ H).
  destruct H; view_facts; cbn; rewrite ?length_app; lia.
Qed.

(** ** The operations on a view *)

Lemma data_slice_run from n l (rb : rt_ringbuffer) : 0 <= from -> 0 <= n -> from + n <= zlen l ->
  slice from n l rb = Ok (take (Z.to_nat n) (drop (Z.to_nat from) l)) rb.
Proof.
  intros. unfold slice.
  destruct (Z.leb_spec 0 from), (Z.leb_spec 0 n), (Z.leb_spec (from + n) (zlen l)); done || lia.
Qed.

Lemma slice_short from n l (rb : rt_ringbuffer) : zlen l < from + n -> slice from n l rb = Fault BadPtr.
Proof. intros. unfold slice. rewrite (proj2 (Z.leb_gt (from + n) _)) by lia. by rewrite andb_false_r. Qed.

(** A copy over a segment of the pool of the same length. *)
Lemma copy_in_run rb a d o b : rb_buffer rb = a ++ o ++ b -> length o = length d ->
  copy_in (zlen a) d rb = Ok tt (set_buffer (a ++ d ++ b) rb).
Proof.
  intros E Hl. unfold copy_in. rewrite bind_getS, E, !length_app.
  destruct (Z.leb_spec 0 (zlen a)); [|lia].
  destruct (Z.leb_spec (zlen a + zlen d) (Z.of_nat (length a + (length o + length b)))); [|lia].
  cbn [andb]. unfold modify, splice.
  by rewrite Nat2Z.id, take_app_length, <- Hl, <- length_app, (app_assoc a o b), drop_app_length.
Qed.

Lemma split_at (l : list Z) n : (n <= length l)%nat ->
  l = take n l ++ drop n l /\ length (take n l) = n.
Proof. intros. rewrite take_drop, length_take. split; [done|lia]. Qed.

Lemma straight_eq size q rb m a b i : m = 0 \/ m = 1 -> b <> [] ->
  size = zlen a + zlen q + zlen b -> size < 2 ^ 15 -> i = zlen a + zlen q ->
  rb = mk_rb m (zlen a) m (idx15 i) size (a ++ q ++ b) -> ring_view size q rb.
Proof. intros. subst i rb. rewrite idx15_small by lia. by constructor. Qed.

Lemma wrapped_eq size rb m q1 q2 b i : m = 0 \/ m = 1 -> q1 <> [] ->
  size = zlen q2 + zlen b + zlen q1 -> size < 2 ^ 15 -> i = zlen q2 ->
  rb = mk_rb m (zlen q2 + zlen b) (flip m) (idx15 i) size (q2 ++ b ++ q1) ->
  ring_view size (q1 ++ q2) rb.
Proof. intros. subst i rb. rewrite idx15_small by lia. by constructor. Qed.

(** Running out of the straight side of the mirror. *)
Lemma put_wraps size m a q b ptr k : m = 0 \/ m = 1 -> b <> [] ->
  size = zlen a + zlen q + zlen b -> size < 2 ^ 15 ->
  zlen b <= k <= zlen a + zlen b -> k <= zlen ptr ->
  exists rb', put_copy ptr k (mk_rb m (zlen a) m (zlen a + zlen q) size (a ++ q ++ b)) = Ok true rb' /\
    ring_view size (q ++ take (Z.to_nat k) ptr) rb'.
Proof.
  intros Hm Hb Hs Hlt Hk Hp. view_facts. unfold put_copy. rewrite bind_getS. cbn [rb_buffer_size rb_write_index rb_write_mirror].
  replace (size - (zlen a + zlen q)) with (zlen b) by lia.
  destruct (Z.ltb_spec k (zlen b)); [lia|].
  rewrite (bind_ok _ _ _ _ _ (data_slice_run 0 (zlen b) ptr _ ltac:(lia) ltac:(lia) ltac:(lia))), Nat2Z.id, drop_0.
  replace (zlen a + zlen q) with (zlen (a ++ q)) by (rewrite length_app; lia).
  erewrite bind_ok; cycle 1.
  { apply (copy_in_run _ (a ++ q) _ b []); cbn [rb_buffer]; [by rewrite app_nil_r, app_assoc|].
    rewrite length_take. lia. }
  rewrite (bind_ok _ _ _ _ _ (data_slice_run (zlen b) (k - zlen b) ptr _ ltac:(lia) ltac:(lia) ltac:(lia))), Nat2Z.id, app_nil_r.
  set (d1 := take (length b) ptr). set (d2 := take (Z.to_nat (k - zlen b)) (drop (length b) ptr)).
  assert (Hd1 : length d1 = length b) by (unfold d1; rewrite length_take; lia).
  assert (Hd2 : zlen d2 = k - zlen b) by (unfold d2; rewrite length_take, length_drop; lia).
  assert (Hd : take (Z.to_nat k) ptr = d1 ++ d2).
  { unfold d1, d2. rewrite take_take_drop. f_equal. lia. }
  rewrite Hd, (app_assoc q d1 d2). clearbody d1 d2.
  destruct (split_at a (length d2)) as [Ea El]; [lia|].
  erewrite bind_ok; cycle 1.
  { apply (copy_in_run _ [] _ (take (length d2) a) (drop (length d2) a ++ q ++ d1)); [|done].
    cbn [set_buffer rb_buffer app]. by rewrite (app_assoc (take _ a)), <- Ea, app_assoc. }
  rewrite bind_modify. eexists. split; [done|].
  eapply (wrapped_eq _ _ m (q ++ d1) d2 (drop (length d2) a)); [done| | |done| |].
  - intros E. apply (f_equal length) in E. rewrite length_app in E. cbn in E. lia.
  - rewrite length_app, length_drop. lia.
  - exact (eq_sym Hd2).
  - unfold set_write, set_buffer. cbn. f_equal. rewrite length_drop. lia.
Qed.

(** Within one side of the mirror: [b] is the space at the write index. *)
Lemma put_inside size m1 r m2 p b1 b2 c ptr k : length b1 = Z.to_nat k -> 0 <= k <= zlen ptr ->
  k < size - zlen p ->
  put_copy ptr k (mk_rb m1 r m2 (zlen p) size (p ++ (b1 ++ b2) ++ c)) =
  Ok false (mk_rb m1 r m2 (idx15 (zlen p + k)) size (p ++ take (Z.to_nat k) ptr ++ b2 ++ c)).
Proof.
  intros Hb Hk Hlt. unfold put_copy. rewrite bind_getS. cbn [rb_buffer_size rb_write_index rb_write_mirror].
  destruct (Z.ltb_spec k (size - zlen p)); [|lia].
  rewrite (bind_ok _ _ _ _ _ (data_slice_run 0 k ptr _ ltac:(lia) ltac:(lia) ltac:(lia))), drop_0.
  erewrite bind_ok; cycle 1.
  { apply (copy_in_run _ p _ b1 (b2 ++ c)); cbn [rb_buffer]; [by rewrite <- app_assoc|].
    rewrite length_take. lia. }
  done.
Qed.

Lemma put_copy_run size q rb ptr k : ring_view size q rb ->
  0 <= k <= size - zlen q -> k <= zlen ptr ->
  exists wr rb', put_copy ptr k rb = Ok wr rb' /\ ring_view size (q ++ take (Z.to_nat k) ptr) rb'.
Proof.
  intros Hv Hk Hp. assert (Hd : length (take (Z.to_nat k) ptr) = Z.to_nat k) by (rewrite length_take; lia).
  destruct Hv as [m a q b Hm Hb Hs Hlt|m q1 q2 b Hm Hq Hs Hlt]; view_facts.
  - destruct (decide (zlen b <= k)).
    { destruct (put_wraps size m a q b ptr k) as (rb' & E & Hv); [done..|lia|done|]. by exists true, rb'. }
    destruct (split_at b (Z.to_nat k)) as [Eb El]; [lia|].
    set (b1 := take _ b) in *. set (b2 := drop _ b) in *. clearbody b1 b2. subst b. rewrite length_app in *.
    exists false. eexists. split.
    + rewrite app_assoc. replace (zlen a + zlen q) with (zlen (a ++ q)) by (rewrite length_app; lia).
      rewrite <- (app_nil_r (b1 ++ b2)). apply put_inside; rewrite ?length_app; [done|lia|lia].
    + eapply (straight_eq _ _ _ m a b2 (zlen (a ++ q) + k)); [done| | |done| |]; rewrite ?length_app, ?Hd; [|lia|lia|].
      * intros ->. cbn in *. lia.
      * by rewrite app_nil_r, <- !app_assoc.
  - rewrite length_app in Hk. destruct (split_at b (Z.to_nat k)) as [Eb El]; [lia|].
    set (b1 := take _ b) in *. set (b2 := drop _ b) in *. clearbody b1 b2. subst b. rewrite length_app in *.
    exists false. eexists. split; [apply put_inside; lia|]. rewrite <- app_assoc.
    eapply (wrapped_eq _ _ m q1 (q2 ++ take (Z.to_nat k) ptr) b2 (zlen q2 + k)); [done|done| |done| |];
      rewrite ?length_app, ?Hd; [lia|lia|].
    rewrite <- app_assoc. f_equal. lia.
Qed.

(** ** Reading *)

Lemma view_read_straight size q rb m a b i : m = 0 \/ m = 1 -> b <> [] ->
  size = zlen a + zlen q + zlen b -> size < 2 ^ 15 -> i = zlen a ->
  rb = mk_rb m (idx15 i) m (zlen a + zlen q) size (a ++ q ++ b) -> ring_view size q rb.
Proof. intros. subst i rb. rewrite idx15_small by lia. by constructor. Qed.

Lemma view_read_wrapped size rb m q1 q2 b i : m = 0 \/ m = 1 -> q1 <> [] ->
  size = zlen q2 + zlen b + zlen q1 -> size < 2 ^ 15 -> i = zlen q2 + zlen b ->
  rb = mk_rb m (idx15 i) (flip m) (zlen q2) size (q2 ++ b ++ q1) ->
  ring_view size (q1 ++ q2) rb.
Proof. intros. subst i rb. rewrite idx15_small by lia. by constructor. Qed.

(** Reading [q] off the pool [p ++ q ++ c] inside one side of the mirror. *)
Lemma get_inside size m1 m2 w p q c k : zlen q = k -> k < size - zlen p ->
  get_copy k (mk_rb m1 (zlen p) m2 w size (p ++ q ++ c)) =
  Ok q (mk_rb m1 (idx15 (zlen p + k)) m2 w size (p ++ q ++ c)).
Proof.
  intros Hq Hk. unfold get_copy. rewrite bind_getS. cbn [rb_buffer_size rb_read_index rb_read_mirror rb_buffer].
  destruct (Z.ltb_spec k (size - zlen p)); [|lia].
  erewrite bind_ok; [|apply data_slice_run; rewrite ?length_app; lia].
  rewrite Nat2Z.id, drop_app_length. replace (Z.to_nat k) with (length q) by lia.
  by rewrite take_app_length.
Qed.

Lemma get_wraps size m1 m2 w q1 q2 c k : zlen q1 + zlen q2 = k -> size = zlen q2 + zlen c + zlen q1 ->
  get_copy k (mk_rb m1 (zlen (q2 ++ c)) m2 w size (q2 ++ c ++ q1)) =
  Ok (q1 ++ q2) (mk_rb (flip m1) (idx15 (zlen q2)) m2 w size (q2 ++ c ++ q1)).
Proof.
  intros Hk Hs. unfold get_copy. rewrite bind_getS. cbn [rb_buffer_size rb_read_index rb_read_mirror rb_buffer].
  replace (size - zlen (q2 ++ c)) with (zlen q1) by (rewrite length_app; lia).
  destruct (Z.ltb_spec k (zlen q1)); [lia|].
  erewrite bind_ok; [|apply data_slice_run; rewrite ?length_app; lia].
  erewrite bind_ok; [|apply data_slice_run; rewrite ?length_app; lia].
  replace (k - zlen q1) with (zlen q2) by lia.
  rewrite bind_modify, !Nat2Z.id, drop_0, take_app_length, (app_assoc q2 c q1), drop_app_length, firstn_all. done.
Qed.

Lemma get_copy_run size q rb k : ring_view size q rb -> 0 <= k <= zlen q ->
  exists rb', get_copy k rb = Ok (take (Z.to_nat k) q) rb' /\ ring_view size (drop (Z.to_nat k) q) rb'.
Proof.
  intros Hv Hk. destruct Hv as [m a q b Hm Hb Hs Hlt|m q1 q2 b Hm Hq Hs Hlt]; view_facts.
  - destruct (split_at q (Z.to_nat k)) as [Eq El]; [lia|].
    set (d := take _ q) in *. set (q' := drop _ q) in *. clearbody d q'. subst q. rewrite length_app in Hs, Hk.
    eexists. split; [rewrite <- app_assoc; apply get_inside; lia|].
    eapply (view_read_straight _ _ _ m (a ++ d) b (zlen a + k)); [done|done| |done| |]; rewrite ?length_app; [lia|lia|].
    rewrite <- !app_assoc. f_equal. lia.
  - rewrite length_app in Hk. destruct (decide (k < zlen q1)) as [Hlt1|Hge].
    + destruct (split_at q1 (Z.to_nat k)) as [Eq El]; [lia|].
      rewrite take_app_le, drop_app_le by lia.
      set (d := take _ q1) in *. set (q' := drop _ q1) in *. clearbody d q'. subst q1. rewrite length_app in *.
      eexists. split.
      * replace (zlen q2 + zlen b) with (zlen (q2 ++ b)) by (rewrite length_app; lia).
        rewrite (app_assoc q2 b). apply get_inside; rewrite ?length_app; lia.
      * eapply (view_read_wrapped _ _ m q' q2 (b ++ d) (zlen (q2 ++ b) + k)); [done| | |done| |]; rewrite ?length_app; [|lia|lia|].
        -- intros ->. cbn in *. lia.
        -- rewrite <- !app_assoc. done.
    + destruct (split_at q2 (Z.to_nat (k - zlen q1))) as [Eq El]; [lia|].
      rewrite take_app_ge, drop_app_ge by lia.
      replace (Z.to_nat k - length q1)%nat with (Z.to_nat (k - zlen q1)) by lia.
      set (d := take _ q2) in *. set (q' := drop _ q2) in *. clearbody d q'. subst q2. rewrite length_app in *.
      eexists. split.
      * replace (Z.of_nat (length d + length q') + zlen b) with (zlen (d ++ q' ++ b)) by (rewrite !length_app; lia).
        rewrite <- (app_assoc d q'), (app_assoc q' b). apply get_wraps; rewrite ?length_app; lia.
      * eapply (view_read_straight _ _ _ (flip m) d (b ++ q1) (zlen d)); [by apply flip_bit| | |done|done|].
        -- intros E. apply app_nil in E as [-> ->]. done.
        -- rewrite !length_app. lia.
        -- rewrite <- !app_assoc. f_equal. lia.
Qed.

(** ** The bounded queue *)

Inductive ring_op :=
| OpPut (ptr : list Z) (length : Z)
| OpGet (length : Z)
| OpPutchar (ch : Z)
| OpPutcharForce (ch : Z)
| OpGetchar
| OpReset
| OpDataLen.

Inductive ring_res := ResNum (n : Z) | ResBytes (l : list Z) | ResChar (c : option Z) | ResUnit.

(** The data handed in has the length announced, a 16-bit number. *)
Definition op_ok (o : ring_op) : Prop :=
  match o with
  | OpPut ptr n => 0 <= n < 2 ^ 16 /\ n <= zlen ptr
  | OpGet n => 0 <= n < 2 ^ 16
  | _ => True
  end.

Definition run_op (o : ring_op) : Rb ring_res :=
  match o with
  | OpPut ptr n => r ← rt_ringbuffer_put ptr n; mret (ResNum r)
  | OpGet n => d ← rt_ringbuffer_get n; mret (ResBytes d)
  | OpPutchar c => r ← rt_ringbuffer_putchar c; mret (ResNum r)
  | OpPutcharForce c => r ← rt_ringbuffer_putchar_force c; mret (ResNum r)
  | OpGetchar => c ← rt_ringbuffer_getchar; mret (ResChar c)
  | OpReset => rt_ringbuffer_reset;; mret ResUnit
  | OpDataLen => n ← gets rt_ringbuffer_data_len; mret (ResNum n)
  end.

Fixpoint run_ops (os : list ring_op) : Rb (list ring_res) :=
  match os with
  | [] => mret []
  | o :: os => r ← run_op o; rs ← run_ops os; mret (r :: rs)
  end.

(** The same operations on a queue of at most [size] bytes. *)
Definition bq_step (size : Z) (o : ring_op) (q : list Z) : ring_res * list Z :=
  match o with
  | OpPut ptr n => let k := n `min` (size - zlen q) in (ResNum k, q ++ take (Z.to_nat k) ptr)
  | OpGet n => (ResBytes (take (Z.to_nat n) q), drop (Z.to_nat n) q)
  | OpPutchar c => if zlen q <? size then (ResNum 1, q ++ [c]) else (ResNum 0, q)
  | OpPutcharForce c => (ResNum 1, (if zlen q <? size then q else drop 1 q) ++ [c])
  | OpGetchar => (ResChar (head q), drop 1 q)
  | OpReset => (ResUnit, [])
  | OpDataLen => (ResNum (zlen q), q)
  end.

Fixpoint bq_run (size : Z) (os : list ring_op) (q : list Z) : list ring_res * list Z :=
  match os with
  | [] => ([], q)
  | o :: os =>
      let '(r, q) := bq_step size o q in
      let '(rs, q) := bq_run size os q in
      (r :: rs, q)
  end.

Lemma put_run size q rb ptr n : ring_view size q rb -> 0 <= n < 2 ^ 16 -> n <= zlen ptr ->
  exists rb', rt_ringbuffer_put ptr n rb = Ok (n `min` (size - zlen q)) rb' /\
    ring_view size (q ++ take (Z.to_nat (n `min` (size - zlen q))) ptr) rb'.
Proof.
  intros Hv Hn Hp. pose proof (view_size _ _ _ Hv) as (E1 & E2 & E3 & E4).
  unfold rt_ringbuffer_put. rewrite bind_getS, E4, u16_small by lia.
  destruct (Z.eqb_spec (size - zlen q) 0) as [E0|E0].
  { exists rb. replace (n `min` (size - zlen q)) with 0 by lia. cbn [Z.to_nat]. by rewrite take_0, app_nil_r. }
  replace (if size - zlen q <? n then size - zlen q else n) with (n `min` (size - zlen q))
    by (destruct (Z.ltb_spec (size - zlen q) n); lia).
  destruct (put_copy_run _ _ _ ptr (n `min` (size - zlen q)) Hv) as (wr & rb' & E & Hv'); [lia|lia|].
  exists rb'. by rewrite (bind_ok _ _ _ _ _ E).
Qed.

Lemma get_run size q rb n : ring_view size q rb -> 0 <= n < 2 ^ 16 ->
  exists rb', rt_ringbuffer_get n rb = Ok (take (Z.to_nat n) q) rb' /\ ring_view size (drop (Z.to_nat n) q) rb'.
Proof.
  intros Hv Hn. pose proof (view_size _ _ _ Hv) as (E1 & E2 & E3 & E4).
  unfold rt_ringbuffer_get. rewrite bind_getS, (view_len _ _ _ Hv), u16_small by lia.
  destruct (Z.eqb_spec (zlen q) 0) as [E0|E0].
  { destruct q; [|done]. exists rb. by rewrite take_nil, drop_nil. }
  destruct (Z.ltb_spec (zlen q) n).
  - destruct (get_copy_run _ _ _ (zlen q) Hv) as (rb' & E & Hv'); [lia|]. exists rb'. rewrite E.
    rewrite Nat2Z.id, firstn_all, drop_all in *. by rewrite take_ge, drop_ge by lia.
  - destruct (get_copy_run _ _ _ n Hv) as (rb' & E & Hv'); [lia|]. by exists rb'.
Qed.

Lemma drop_lookup (l : list Z) i : (i < length l)%nat ->
  exists x, l !! i = Some x /\ drop i l = x :: drop (S i) l.
Proof.
  intros Hi. destruct (lookup_lt_is_Some_2 l i Hi) as [x Hx]. exists x. split; [done|]. by apply drop_S.
Qed.

(** ** Single characters: the copies of one byte *)

Lemma view_index size q rb : ring_view size q rb ->
  rb_buffer_size rb = size /\ 0 <= rb_write_index rb < size /\ 0 <= rb_read_index rb < size /\
  zlen (rb_buffer rb) = size.
Proof. destruct 1; view_facts; cbn; rewrite ?length_app; lia. Qed.

Lemma copy_in_frame rb off d rb' : copy_in off d rb = Ok tt rb' -> rb' = set_buffer (rb_buffer rb') rb.
Proof. unfold copy_in. rewrite bind_getS. bcase; [|done]. by injection 1 as <-. Qed.

Lemma copy_in_nil rb : copy_in 0 [] rb = Ok tt rb.
Proof.
  unfold copy_in. rewrite bind_getS. destruct (Z.leb_spec (0 + zlen (@nil Z)) (zlen (rb_buffer rb))); [|cbn in *; lia].
  cbn [Z.leb andb]. unfold modify. f_equal. by destruct rb.
Qed.

Lemma char_copy size q rb c : ring_view size q rb ->
  put_copy [c] 1 rb = (copy_in (rb_write_index rb) [c];; step_write) rb.
Proof.
  intros Hv. pose proof (view_index _ _ _ Hv) as (E1 & E2 & _). unfold put_copy, step_write.
  rewrite bind_getS, E1. destruct (Z.ltb_spec 1 (size - rb_write_index rb)).
  - rewrite (bind_ok _ _ _ _ _ (data_slice_run 0 1 [c] rb ltac:(lia) ltac:(lia) ltac:(cbn; lia))). cbn [Z.to_nat drop take].
    destruct (copy_in (rb_write_index rb) [c] rb) as [[] rb'|f] eqn:E; [|by rewrite !(bind_fault _ _ _ _ E)].
    rewrite !(bind_ok _ _ _ _ _ E), bind_modify, bind_getS, (copy_in_frame _ _ _ _ E).
    cbn [set_buffer rb_write_index rb_buffer_size rb_write_mirror]. rewrite E1, (proj2 (Z.eqb_neq _ _)) by lia. done.
  - replace (size - rb_write_index rb) with 1 by lia.
    rewrite (bind_ok _ _ _ _ _ (data_slice_run 0 1 [c] rb ltac:(lia) ltac:(lia) ltac:(cbn; lia))). cbn [Z.to_nat drop take].
    destruct (copy_in (rb_write_index rb) [c] rb) as [[] rb'|f] eqn:E; [|by rewrite !(bind_fault _ _ _ _ E)].
    rewrite !(bind_ok _ _ _ _ _ E), bind_getS, (copy_in_frame _ _ _ _ E).
    cbn [set_buffer rb_write_index rb_buffer_size rb_write_mirror]. rewrite E1, (proj2 (Z.eqb_eq _ _)) by lia.
    rewrite (bind_ok _ _ _ _ _ (data_slice_run 1 (1 - 1) [c] _ ltac:(lia) ltac:(lia) ltac:(cbn; lia))).
    cbn [Z.sub Z.to_nat take Z.add Z.opp Z.pos_sub]. by rewrite (bind_ok _ _ _ _ _ (copy_in_nil _)).
Qed.

Lemma push_run size q rb c : ring_view size q rb -> zlen q < size ->
  exists wr rb', (copy_in (rb_write_index rb) [c];; step_write) rb = Ok wr rb' /\ ring_view size (q ++ [c]) rb'.
Proof. intros Hv Hq. rewrite <- (char_copy _ _ _ _ Hv). apply (put_copy_run _ _ _ [c] 1 Hv); cbn; lia. Qed.

Lemma putchar_run size q rb c : ring_view size q rb ->
  exists rb', rt_ringbuffer_putchar c rb = Ok (if zlen q <? size then 1 else 0) rb' /\
    ring_view size (if zlen q <? size then q ++ [c] else q) rb'.
Proof.
  intros Hv. pose proof (view_size _ _ _ Hv) as (E1 & E2 & E3 & E4).
  unfold rt_ringbuffer_putchar. rewrite bind_getS, E4.
  destruct (Z.eqb_spec (size - zlen q) 0), (Z.ltb_spec (zlen q) size); try lia; [by exists rb|].
  destruct (push_run _ _ _ c Hv) as (wr & rb' & E & Hv'); [done|]. exists rb'. split; [|done].
  rewrite <- bind_assoc. by rewrite (bind_ok _ _ _ _ _ E).
Qed.

Lemma view_full size q rb : ring_view size q rb ->
  bool_decide (rt_ringbuffer_status rb = RT_RINGBUFFER_FULL) = negb (zlen q <? size).
Proof.
  destruct 1 as [m a q b Hm Hb Hs Hlt|m q1 q2 b Hm Hq Hs Hlt]; view_facts; unfold rt_ringbuffer_status; cbn.
  - rewrite Z.eqb_refl. destruct (Z.eqb_spec (zlen a) (zlen a + zlen q)), (Z.ltb_spec (zlen q) size); done || lia.
  - rewrite flip_ne, length_app. destruct (Z.eqb_spec (zlen q2 + zlen b) (zlen q2)),
      (Z.ltb_spec (Z.of_nat (length q1 + length q2)) size); done || lia.
Qed.

Lemma view_same size q q' rb : q = q' -> ring_view size q rb -> ring_view size q' rb.
Proof. by intros ->. Qed.

Lemma force_full size q rb c : ring_view size q rb -> zlen q = size ->
  exists rb', rt_ringbuffer_putchar_force c rb = Ok 1 rb' /\ ring_view size (drop 1 q ++ [c]) rb'.
Proof.
  intros Hv Hq. unfold rt_ringbuffer_putchar_force. rewrite bind_getS, (view_full _ _ _ Hv), Hq, Z.ltb_irrefl.
  destruct Hv as [m a q b Hm Hb Hs Hlt|m q1 q2 b Hm Hq1 Hs Hlt]; view_facts; [lia|].
  rewrite length_app in Hq. destruct b as [|]; [|cbn in *; lia]. destruct q1 as [|x q1]; [done|].
  cbn [rb_write_index length app drop] in *.
  rewrite (bind_ok _ _ _ _ _ (copy_in_run (mk_rb m _ _ _ size _) q2 [c] [x] q1 eq_refl eq_refl)).
  unfold step_write. rewrite bind_assoc, bind_getS. cbn [set_buffer rb_write_index rb_buffer_size rb_write_mirror].
  destruct (Z.eqb_spec (zlen q2) (size - 1)).
  - destruct q1; [|cbn in *; lia]. rewrite bind_assoc, bind_modify, bind_mret. cbn [negb when].
    rewrite bind_modify, flip_flip by done. eexists. split; [done|].
    apply (view_same _ ((q2 ++ [c]) ++ [])); [by rewrite app_nil_r|].
    eapply (view_read_wrapped _ _ (flip m) (q2 ++ [c]) [] [] 0); [by apply flip_bit| | |done|done|].
    + by destruct q2.
    + rewrite length_app. cbn. lia.
    + by rewrite flip_flip by done.
  - rewrite bind_assoc, bind_modify, bind_mret. cbn [negb when]. rewrite bind_modify. eexists. split; [done|].
    apply (view_same _ (q1 ++ q2 ++ [c])); [by rewrite app_assoc|].
    eapply (view_read_wrapped _ _ m q1 (q2 ++ [c]) [] (zlen q2 + 1)); [done| | |done| |]; rewrite ?length_app; cbn.
    + intros ->. cbn in *. lia.
    + lia.
    + lia.
    + rewrite !(idx15_small (zlen q2 + 1)), <- app_assoc by lia. unfold set_read, set_write. cbn.
      rewrite !idx15_small by lia. f_equal. lia.
Qed.

Lemma putchar_force_run size q rb c : ring_view size q rb ->
  exists rb', rt_ringbuffer_putchar_force c rb = Ok 1 rb' /\
    ring_view size ((if zlen q <? size then q else drop 1 q) ++ [c]) rb'.
Proof.
  intros Hv. pose proof (view_size _ _ _ Hv) as (_ & _ & E3 & _).
  destruct (Z.ltb_spec (zlen q) size); [|apply (force_full _ _ _ _ Hv); lia].
  destruct (push_run _ _ _ c Hv) as (wr & rb' & E & Hv'); [done|]. exists rb'. split; [|done].
  unfold rt_ringbuffer_putchar_force. rewrite bind_getS, (view_full _ _ _ Hv), (proj2 (Z.ltb_lt _ _)) by lia.
  rewrite <- bind_assoc. by rewrite (bind_ok _ _ _ _ _ E).
Qed.

Lemma getchar_run size q rb : ring_view size q rb ->
  exists rb', rt_ringbuffer_getchar rb = Ok (head q) rb' /\ ring_view size (drop 1 q) rb'.
Proof.
  intros Hv. unfold rt_ringbuffer_getchar. rewrite bind_getS, (view_len _ _ _ Hv).
  destruct q as [|c q]; [by exists rb|]. destruct (Z.eqb_spec (zlen (c :: q)) 0); [cbn in *; lia|].
  destruct (get_copy_run _ _ _ 1 Hv) as (rb' & E & Hv'); [cbn; lia|]. exists rb'. split; [|done].
  pose proof (view_index _ _ _ Hv) as (E1 & _ & E2 & E3). unfold get_copy in E. rewrite bind_getS, E1 in E.
  destruct (drop_lookup (rb_buffer rb) (Z.to_nat (rb_read_index rb))) as (x & Hx & Hd); [lia|].
  rewrite Hx. cbn [of_option]. rewrite bind_mret, E1.
  destruct (Z.ltb_spec 1 (size - rb_read_index rb)).
  - rewrite (bind_ok _ _ _ _ _ (data_slice_run (rb_read_index rb) 1 (rb_buffer rb) rb ltac:(lia) ltac:(lia) ltac:(lia))), Hd in E.
    rewrite (proj2 (Z.eqb_neq (rb_read_index rb) _)) by lia. cbn in E |- *. rewrite bind_modify in *. by injection E as -> <-.
  - rewrite (proj2 (Z.eqb_eq (rb_read_index rb) _)) by lia.
    rewrite (bind_ok _ _ _ _ _ (data_slice_run (rb_read_index rb) (size - rb_read_index rb) (rb_buffer rb) rb ltac:(lia) ltac:(lia) ltac:(lia))) in E.
    rewrite (bind_ok _ _ _ _ _ (data_slice_run 0 (1 - (size - rb_read_index rb)) (rb_buffer rb) rb ltac:(lia) ltac:(lia) ltac:(lia))) in E.
    replace (size - rb_read_index rb) with 1 in E by lia. rewrite Hd in E. cbn in E |- *.
    rewrite bind_modify in *. by injection E as -> <-.
Qed.

Lemma init_view pool size rb : 0 < size < 2 ^ 15 -> zlen pool = size ->
  exists rb', rt_ringbuffer_init pool size rb = Ok tt rb' /\ ring_view size [] rb'.
Proof.
  intros Hs Hp. unfold rt_ringbuffer_init. rewrite bind_assert by (apply Z.ltb_lt; lia).
  eexists. split; [done|]. apply (view_straight size 0 [] [] pool); [by left| |cbn; lia|lia].
  intros ->. cbn in Hp. lia.
Qed.

Lemma reset_view size q rb : ring_view size q rb ->
  ring_view size [] (set_write 0 0 (set_read 0 0 rb)).
Proof.
  intros Hv. pose proof (view_index _ _ _ Hv) as (E1 & E2 & _ & E3). destruct rb as [rm r wm w sz l]. cbn in *. subst sz.
  pose proof (view_size _ _ _ Hv) as (_ & E4 & _). apply (view_straight size 0 [] [] l); [by left| |cbn; lia|lia].
  intros ->. cbn in E3. lia.
Qed.

Lemma step_refines size o q rb : ring_view size q rb -> op_ok o ->
  exists rb', run_op o rb = Ok (bq_step size o q).1 rb' /\ ring_view size (bq_step size o q).2 rb'.
Proof.
  intros Hv Ho. destruct o as [ptr n|n|c|c| | |]; cbn in Ho |- *.
  - destruct (put_run _ _ _ ptr n Hv) as (rb' & E & Hv'); [lia..|]. exists rb'. by rewrite (bind_ok _ _ _ _ _ E).
  - destruct (get_run _ _ _ n Hv) as (rb' & E & Hv'); [lia|]. exists rb'. by rewrite (bind_ok _ _ _ _ _ E).
  - destruct (putchar_run _ _ _ c Hv) as (rb' & E & Hv'). exists rb'. rewrite (bind_ok _ _ _ _ _ E). by bcase.
  - destruct (putchar_force_run _ _ _ c Hv) as (rb' & E & Hv'). exists rb'. by rewrite (bind_ok _ _ _ _ _ E).
  - destruct (getchar_run _ _ _ Hv) as (rb' & E & Hv'). exists rb'. by rewrite (bind_ok _ _ _ _ _ E).
  - eexists. split; [done|]. by apply (reset_view size q).
  - exists rb. by rewrite bind_gets, (view_len _ _ _ Hv).
Qed.

Lemma ops_refine size os : forall q rb, ring_view size q rb -> Forall op_ok os ->
  exists rb', run_ops os rb = Ok (bq_run size os q).1 rb' /\ ring_view size (bq_run size os q).2 rb'.
Proof.
  induction os as [|o os IH]; intros q rb Hv Ho; [by exists rb|]. inversion Ho as [|? ? H1 H2]; subst.
  destruct (step_refines _ _ _ _ Hv H1) as (rb1 & E1 & Hv1). destruct (IH _ _ Hv1 H2) as (rb2 & E2 & Hv2).
  exists rb2. cbn. rewrite (bind_ok _ _ _ _ _ E1), (bind_ok _ _ _ _ _ E2).
  destruct (bq_step size o q) as [r q1]. cbn in *. by destruct (bq_run size os q1).
Qed.


(** Four bytes wrapping around the end of a pool of three. *)
Definition demo_ring_ops : list ring_op :=
  [OpPut [10; 11] 2; OpGetchar; OpPut [12; 13; 14] 3; OpPutchar 15; OpPutcharForce 16; OpDataLen; OpGet 9].


(** ** Forced block writes *)

(** A copy of the whole pool's size goes once around, back to the same
    index. *)
Lemma put_around size q rb ptr : ring_view size q rb -> size <= zlen ptr ->
  let w := rb_write_index rb in
  let d1 := take (Z.to_nat (size - w)) ptr in
  let d2 := take (Z.to_nat w) (drop (Z.to_nat (size - w)) ptr) in
  put_copy ptr size rb =
    Ok true (mk_rb (rb_read_mirror rb) (rb_read_index rb) (flip (rb_write_mirror rb)) w size (d2 ++ d1)).
Proof.
  intros Hv Hp w d1 d2. pose proof (view_index _ _ _ Hv) as (E1 & E2 & _ & E3). fold w in E2.
  pose proof (view_size _ _ _ Hv) as (_ & E4 & _).
  unfold put_copy. rewrite bind_getS, E1. fold w. destruct (Z.ltb_spec size (size - w)); [lia|].
  rewrite (bind_ok _ _ _ _ _ (data_slice_run 0 (size - w) ptr rb ltac:(lia) ltac:(lia) ltac:(lia))). cbn [Z.to_nat].
  rewrite drop_0. fold d1.
  assert (Hd1 : length d1 = Z.to_nat (size - w)) by (unfold d1; rewrite length_take; lia).
  assert (Hd2 : length d2 = Z.to_nat w) by (unfold d2; rewrite length_take, length_drop; lia).
  destruct (split_at (rb_buffer rb) (Z.to_nat w)) as [El Ht]; [lia|].
  assert (Ho : length (drop (Z.to_nat w) (rb_buffer rb)) = length d1) by (rewrite length_drop; lia).
  erewrite bind_ok; cycle 1.
  { replace w with (zlen (take (Z.to_nat w) (rb_buffer rb))) at 1 by lia.
    apply (copy_in_run _ _ _ (drop (Z.to_nat w) (rb_buffer rb)) []); [by rewrite app_nil_r|done]. }
  rewrite (bind_ok _ _ _ _ _ (data_slice_run (size - w) (size - (size - w)) ptr _ ltac:(lia) ltac:(lia) ltac:(lia))).
  replace (size - (size - w)) with w by lia. fold d2.
  erewrite bind_ok; [|apply (copy_in_run _ [] _ (take (Z.to_nat w) (rb_buffer rb)) d1);
    [cbn [set_buffer rb_buffer app]; by rewrite app_nil_r|lia]].
  rewrite bind_modify. unfold set_write, set_buffer. cbn. rewrite idx15_small by lia. by rewrite E1.
Qed.

Lemma put_short size q rb ptr : ring_view size q rb -> zlen ptr < size -> put_copy ptr size rb = Fault BadPtr.
Proof.
  intros Hv Hp. pose proof (view_index _ _ _ Hv) as (E1 & E2 & _ & E3).
  unfold put_copy. rewrite bind_getS, E1. destruct (Z.ltb_spec size (size - rb_write_index rb)); [lia|].
  destruct (decide (zlen ptr < size - rb_write_index rb)).
  { apply bind_fault. apply slice_short. lia. }
  rewrite (bind_ok _ _ _ _ _ (data_slice_run 0 (size - rb_write_index rb) ptr rb ltac:(lia) ltac:(lia) ltac:(lia))).
  cbn [Z.to_nat]. rewrite drop_0. set (d1 := take _ ptr).
  destruct (copy_in (rb_write_index rb) d1 rb) as [[] rb1|f] eqn:E.
  - rewrite (bind_ok _ _ _ _ _ E). apply bind_fault. apply slice_short. lia.
  - rewrite (bind_fault _ _ _ _ E). unfold copy_in in E. rewrite bind_getS in E. revert E. by bcase; [|injection 1 as <-].
Qed.

Lemma view_mirror size q rb : ring_view size q rb ->
  (rb_read_mirror rb = 0 \/ rb_read_mirror rb = 1) /\ (rb_write_mirror rb = 0 \/ rb_write_mirror rb = 1).
Proof. destruct 1; cbn; auto using flip_bit. Qed.

Lemma put_force_fits size q rb ptr n : ring_view size q rb -> 0 <= n <= size - zlen q -> n <= zlen ptr ->
  exists rb', rt_ringbuffer_put_force ptr n rb = Ok n rb' /\ ring_view size (q ++ take (Z.to_nat n) ptr) rb'.
Proof.
  intros Hv Hn Hp. pose proof (view_size _ _ _ Hv) as (E1 & E2 & E3 & E4).
  unfold rt_ringbuffer_put_force. rewrite bind_getS, E4, u16_small by lia.
  destruct (put_copy_run _ _ _ ptr n Hv) as (wr & rb' & E & Hv'); [lia..|]. exists rb'. split; [|done].
  destruct (Z.ltb_spec (size - zlen q) n); [lia|].
  by rewrite (bind_ok _ _ _ _ _ E), (proj2 (Z.ltb_ge (size - zlen q) n)) by lia.
Qed.

Lemma around_data m1 m2 w size ptr : 0 <= w <= size /\ size <= zlen ptr -> (m1 =? m2) = false ->
  rb_data (mk_rb m1 w m2 w size
    (take (Z.to_nat w) (drop (Z.to_nat (size - w)) ptr) ++ take (Z.to_nat (size - w)) ptr)) =
  take (Z.to_nat size) ptr.
Proof.
  intros Hw Hm. unfold rb_data. cbn. rewrite Hm.
  set (d2 := take (Z.to_nat w) _). assert (Hd : length d2 = Z.to_nat w) by (unfold d2; rewrite length_take, length_drop; lia).
  rewrite <- Hd, drop_app_length, take_app_length. unfold d2. rewrite take_take_drop. f_equal. lia.
Qed.

Lemma view_empty size rb : ring_view size [] rb ->
  rb_read_index rb = rb_write_index rb /\ rb_read_mirror rb = rb_write_mirror rb.
Proof.
  intros Hv. inversion Hv as [m a q b Hm Hb Hs Hlt|m q1 q2 b Hm Hq Hs Hlt]; subst; cbn; [lia|].
  by apply app_nil in H as [-> ->].
Qed.

(** a forced block write of more bytes than there is space for does not
    do what it documents.  It always copies the whole pool's size, so it
    reads past the end of the caller's data when that is shorter; and when
    there was data and both indices were on the same side of the mirror, the
    buffer is empty afterwards instead of full.  Only the other cases leave
    the first bytes of the new data. *)
Theorem put_force_overflow size q rb ptr n :
  ring_view size q rb -> size - zlen q < n < 2 ^ 16 ->
  (zlen ptr < size -> rt_ringbuffer_put_force ptr n rb = Fault BadPtr) /\
  (size <= zlen ptr -> exists rb', rt_ringbuffer_put_force ptr n rb = Ok size rb' /\
     rb_data rb' = if bool_decide (q <> []) && (rb_read_mirror rb =? rb_write_mirror rb) then []
                   else take (Z.to_nat size) ptr).
Proof.
  intros Hv Hn. pose proof (view_size _ _ _ Hv) as (E1 & E2 & E3 & E4).
  unfold rt_ringbuffer_put_force. rewrite bind_getS, E1, E4, !u16_small by lia.
  destruct (Z.ltb_spec (size - zlen q) n); [|lia]. split.
  { intros Hp. apply bind_fault. by apply (put_short _ _ _ _ Hv). }
  intros Hp. rewrite (bind_ok _ _ _ _ _ (put_around _ _ _ ptr Hv Hp)).
  pose proof (view_index _ _ _ Hv) as (_ & Hw & _).
  destruct (Z.ltb_spec (size - zlen q) size) as [Hq|Hq]; eexists; split; [done| |done|].
  - rewrite bool_decide_eq_true_2 by (intros ->; cbn in Hq; lia). unfold set_read. cbn. rewrite idx15_small by lia.
    destruct (view_mirror _ _ _ Hv) as [Hr Hm]. destruct (Z.eqb_spec (rb_read_mirror rb) (rb_write_mirror rb)) as [->|Hne].
    + unfold rb_data. cbn. by rewrite Z.eqb_refl, Nat.sub_diag, take_0.
    + apply around_data; [lia|]. destruct Hr as [Hr|Hr], Hm as [Hm|Hm]; rewrite Hr, Hm in *; done.
  - rewrite bool_decide_eq_false_2 by (destruct q; [by intros []|cbn in *; lia]). cbn [andb].
    destruct q; [|cbn in *; lia]. rewrite (proj1 (view_empty _ _ Hv)), (proj2 (view_empty _ _ Hv)).
    apply around_data; [lia|apply flip_ne].
Qed.

(** A block that overflows a half-full buffer of four bytes empties it. *)
Lemma put_force_overflow_witness :
  rt_ringbuffer_put_force [1; 2; 3] 3 (mk_rb 0 0 0 2 4 [8; 9; 0; 0]) = Fault BadPtr /\
  exists rb', rt_ringbuffer_put_force [1; 2; 3; 4] 4 (mk_rb 0 0 0 2 4 [8; 9; 0; 0]) = Ok 4 rb' /\ rb_data rb' = [].
Proof.
  assert (Hv : ring_view 4 [8; 9] (mk_rb 0 0 0 2 4 [8; 9; 0; 0])).
  { by apply (view_straight 4 0 [] [8; 9] [0; 0]); [left|..]. }
  split.
  - apply (put_force_overflow 4 [8; 9] _ [1; 2; 3] 3 Hv); cbn; lia.
  - destruct (put_force_overflow 4 [8; 9] _ [1; 2; 3; 4] 4 Hv) as [_ H]; [cbn; lia|].
    apply H. cbn. lia.
Defined.

(** ** Allocation *)

Section Create.
Context `{HO : HeapOk}.

(** When the pool cannot be allocated the structure already allocated is not
    given back: RT_NULL is returned and one block more is live. *)
Theorem create_leaks sizeof_rb garbage size h rb p h1 h2 :
  0 < size -> heap_ok h -> heap_malloc sizeof_rb h = Ok p h1 -> p <> RT_NULL ->
  heap_malloc size h1 = Ok RT_NULL h2 ->
  exists h', rt_ringbuffer_create sizeof_rb garbage size (h, rb) = Ok (RT_NULL, RT_NULL) (h', rb) /\
    heap_live h' = {[p]} ∪ heap_live h /\ p ∉ heap_live h.
Proof.
  intros Hs Hh Hm Hp Hn.
  destruct (heap_malloc_ok h sizeof_rb Hh) as (p' & h1' & E1 & Hh1 & HL); rewrite Hm in E1; injection E1 as <- <-.
  destruct HL as [[-> _]|(_ & Hf & _ & L1)]; [done|].
  destruct (heap_malloc_ok h1 size Hh1) as (p' & h2' & E2 & Hh2 & HL); rewrite Hn in E2; injection E2 as <- <-.
  destruct HL as [[_ L2]|(_ & _ & Hx & _)]; [|done].
  destruct (heap_free_ok h2 RT_NULL Hh2) as (h3 & E3 & Hh3 & L3); [by right|].
  exists h3. unfold rt_ringbuffer_create. rewrite bind_assert by (apply Z.ltb_lt; lia).
  unfold on_heap. erewrite bind_ok by (unfold zoom; cbn [fst]; by rewrite Hm).
  rewrite (proj2 (Z.eqb_neq _ _) Hp). erewrite bind_ok by (unfold zoom; cbn [fst]; by rewrite Hn).
  cbn [Z.eqb RT_NULL]. erewrite bind_ok by (unfold zoom; cbn [fst]; by rewrite E3).
  split; [done|]. split; [|done]. rewrite L3, L2, L1.
  pose proof (fun H => Z.lt_irrefl 0 (proj2 (heap_live_area h RT_NULL Hh H))). set_solver.
Qed.

End Create.
