(* ===== verification/Keeps.v ===== *)
(** * Invariants through kernel code

    [keeps I m]: whenever [m] returns, it has kept [I].  The rules follow the
    structure of the code, so that a property is carried through a whole
    kernel call from the few operations that touch what it is about.
    [timers_fit] is what the clock interrupt asks of the timers, and
    [timers_run] adds that the running ones are in expiry order; [same_shape]
    and [same_timers] say which threads, list heads and timers there are. *)

From S2P Require Import Prelude Scheduler ReadyBitmap Object ObjInv Timer TimerInv Kernel Thread Ipc.
From S2P Require Import Semaphore Mutex Event Mailbox MsgQueue MemPool Clock KernelInv ThreadInv SchedInv.

Definition keeps {S A} (I : S -> Prop) (m : M S A) : Prop :=
  forall s a s', I s -> m s = Ok a s' -> I s'.

Create HintDb keeps.

Section Rules.
Context {S : Type} (I : S -> Prop).

Lemma keeps_ret {A} (a : A) : keeps I (mret a).
Proof. intros s b s' H [= <- <-]. done. Qed.
Lemma keeps_bind {A B} (m : M S A) (f : A -> M S B) :
  keeps I m -> (forall a, keeps I (f a)) -> keeps I (m ≫= f).
Proof.
  intros Hm Hf s b s' H E. unfold mbind, M_bind in E. destruct (m s) as [a s1|] eqn:E1; [|done].
  apply (Hf a s1 b s'); [by apply (Hm s a s1)|done].
Qed.
Lemma keeps_fail {A} e : keeps I (fail e : M S A).
Proof. by intros s a s' _ E. Qed.
Lemma keeps_read {A} (m : M S A) : (forall s a s', m s = Ok a s' -> s' = s) -> keeps I m.
Proof. intros Hm s a s' H E. by rewrite (Hm _ _ _ E). Qed.
Lemma keeps_gets {A} (f : S -> A) : keeps I (gets f).
Proof. apply keeps_read. by intros s a s' [= _ <-]. Qed.
Lemma keeps_getS : keeps I getS.
Proof. apply keeps_read. by intros s a s' [= _ <-]. Qed.
Lemma keeps_option {A} e (o : option A) : keeps I (of_option e o).
Proof. destruct o; [apply keeps_ret|apply keeps_fail]. Qed.
Lemma keeps_lookup {A} e (o : S -> option A) : keeps I (fun s => of_option e (o s) s).
Proof. apply keeps_read. intros s a s'. by destruct (o s); [intros [= _ <-]|]. Qed.
Lemma keeps_assert b : keeps I (RT_ASSERT b).
Proof. destruct b; [apply keeps_ret|apply keeps_fail]. Qed.
Lemma keeps_modify f : (forall s, I s -> I (f s)) -> keeps I (modify f).
Proof. intros Hf s a s' H [= _ <-]. by apply Hf. Qed.
Lemma keeps_when b (m : M S unit) : keeps I m -> keeps I (when b m).
Proof. destruct b; [done|intros _; apply keeps_ret]. Qed.
Lemma keeps_zoom {T A} (get : S -> T) (put : T -> S -> S) (J : T -> Prop) (m : M T A) :
  (forall s, I s -> J (get s)) -> (forall s t, I s -> J t -> I (put t s)) -> keeps J m ->
  keeps I (zoom get put m).
Proof.
  intros H1 H2 Hm s a s' H E. unfold zoom in E. destruct (m (get s)) as [b t|] eqn:E1; [|done].
  injection E as <- <-. apply H2; [done|]. apply (Hm _ _ _ (H1 _ H) E1).
Qed.
Lemma keeps_any {T A} (get : S -> T) (put : T -> S -> S) (m : M T A) :
  (forall s t, I s -> I (put t s)) -> keeps I (zoom get put m).
Proof. intros H. apply (keeps_zoom _ _ (fun _ => True)); [done|by intros; apply H|by intros ? ? ? ? ?]. Qed.
End Rules.

#[export] Hint Resolve keeps_ret keeps_fail keeps_gets keeps_getS keeps_option keeps_lookup keeps_assert : keeps.

(** One step along the structure of the code. *)
Ltac keep1 :=
  match goal with
  | |- forall _, keeps _ _ => intros ?
  | |- keeps _ (_ ≫= _) => apply keeps_bind
  | |- keeps _ (when _ _) => apply keeps_when
  | |- keeps _ (if ?b then _ else _) => destruct b
  | |- keeps _ (match ?x with _ => _ end) => destruct x
  | |- keeps _ (let '(_, _) := ?x in _) => destruct x
  | |- keeps _ (modify _) => apply keeps_modify; done
  | |- keeps _ _ => solve [eauto with keeps]
  end.
Ltac keep := repeat (cbv zeta; keep1).

(** ** The timers *)

Section Timers.
Context `{CO : ConfigOk}.

(** Timers of the application have functions of the application and, when
    periodic, a period that fits the tick circle. *)
Definition timer_fits (a : addr) (tm : rt_timer) : Prop :=
  0 <= tm_init_tick tm /\
  forall p, a = AObj p -> (exists f, tm_func tm = FUser f) /\
    (periodic tm = true -> 0 < tm_init_tick tm /\ tm_init_tick tm + 1 < RT_TICK_MAX / 2).
Definition timers_fit (s : tsys) : Prop := forall a tm, ts_timers s !! a = Some tm -> timer_fits a tm.
Definition timers_run (s : tsys) : Prop := twf s /\ ordered (ts_tick s) s /\ timers_fit s.

Lemma periodic_deactivate tm : periodic (deactivate tm) = periodic tm.
Proof. rewrite !periodic_bit, deactivate_bits by lia. done. Qed.
Lemma periodic_activate tm : periodic (set_flag (fun f => Z.lor f RT_TIMER_FLAG_ACTIVATED) tm) = periodic tm.
Proof.
  rewrite !periodic_bit. unfold set_flag, u8. cbn [tm_flag]. rewrite Z.mod_pow2_bits_low by lia.
  change RT_TIMER_FLAG_ACTIVATED with (2 ^ 0). by rewrite testbit_set by lia.
Qed.
Lemma fits_deactivate a tm : timer_fits a tm -> timer_fits a (deactivate tm).
Proof. intros [H1 H2]. split; [done|]. intros p Hp. rewrite periodic_deactivate. by apply (H2 p). Qed.
Lemma fits_activate a tm :
  timer_fits a tm -> timer_fits a (set_flag (fun f => Z.lor f RT_TIMER_FLAG_ACTIVATED) tm).
Proof. intros [H1 H2]. split; [done|]. intros p Hp. rewrite periodic_activate. by apply (H2 p). Qed.

Lemma fit_put s a tm : timers_fit s -> timer_fits a tm -> timers_fit (put_timer a tm s).
Proof.
  intros Hs Ha b tm' Hb. cbn in Hb. destruct (decide (b = a)) as [->|].
  - rewrite lookup_insert_eq in Hb. by injection Hb as <-.
  - rewrite lookup_insert_ne in Hb by done. by apply Hs.
Qed.

Lemma get_timer_read a s tm s' : get_timer a s = Ok tm s' -> s' = s /\ ts_timers s !! a = Some tm.
Proof. unfold get_timer, of_option. destruct (ts_timers s !! a); by intros [= <- <-]. Qed.

Lemma keeps_get_timer (J : tsys -> Prop) a : keeps J (get_timer a).
Proof. apply keeps_read. intros s tm s' E. by apply get_timer_read in E as [-> _]. Qed.

Lemma fit_upd a f : (forall tm, timer_fits a tm -> timer_fits a (f tm)) -> keeps timers_fit (upd_timer a f).
Proof.
  intros Hf s r s' H E. unfold upd_timer in E. unfold mbind, M_bind in E.
  destruct (get_timer a s) as [tm s1|] eqn:E1; [|done]. apply get_timer_read in E1 as [-> Ht].
  injection E as _ <-. apply fit_put; [done|]. by apply Hf, H.
Qed.

#[local] Hint Resolve keeps_get_timer : keeps.

Lemma fit_row_walk timeout suf : forall pos, keeps timers_fit (row_walk timeout pos suf).
Proof. induction suf as [|t suf IH]; intros pos; cbn [row_walk]; keep. Qed.
#[local] Hint Resolve fit_row_walk : keeps.
Lemma fit_rows_walk timeout rows : forall pos, keeps timers_fit (rows_walk timeout pos rows).
Proof. induction rows as [|t rows IH]; intros pos; cbn [rows_walk]; keep. Qed.
#[local] Hint Resolve fit_rows_walk : keeps.

Lemma fit_remove a : keeps timers_fit (_rt_timer_remove a).
Proof. unfold _rt_timer_remove. keep. Qed.
Lemma fit_start a : keeps timers_fit (timer_start a).
Proof.
  unfold timer_start. apply keeps_bind; [apply fit_remove|intros _].
  apply keeps_bind; [apply fit_upd, fits_deactivate|intros _]. keep.
  - apply fit_upd. intros tm [H1 H2]. by split.
  - keep. apply fit_upd, fits_activate.
Qed.

(** *** In expiry order *)

Lemma run_sub s s' : timers_run s -> twf s' -> ts_tick s' = ts_tick s -> timers_fit s' ->
  last_row s' `sublist_of` last_row s ->
  (forall a, a ∈ last_row s' -> due (ts_tick s) s' a = due (ts_tick s) s a) -> timers_run s'.
Proof.
  intros (H1 & H2 & H3) Hw Ht Hf Hr Hd. split; [done|]. split; [|done]. rewrite Ht. by apply (ordered_sub _ s).
Qed.

Lemma run_put s a tm tm' : timers_run s -> ts_timers s !! a = Some tm -> timer_fits a tm' ->
  (a ∈ last_row s -> tm_timeout_tick tm' = tm_timeout_tick tm) -> timers_run (put_timer a tm' s).
Proof.
  intros Hs Ha Hf Ht. pose proof Hs as (H1 & H2 & H3).
  apply (run_sub s); [done|by apply twf_put|done|by apply fit_put|done|].
  intros b Hb. unfold due. cbn. destruct (decide (b = a)) as [->|]; [|by rewrite lookup_insert_ne].
  rewrite lookup_insert_eq, Ha. cbn. by rewrite Ht.
Qed.

Lemma run_stop a : keeps timers_run (timer_stop a).
Proof.
  intros s r s' Hs E. pose proof Hs as (H1 & H2 & H3).
  destruct (ts_timers s !! a) as [tm|] eqn:Ha; cycle 1.
  { unfold timer_stop, get_timer, mbind, M_bind in E. by rewrite Ha in E. }
  destruct (timer_stop_run s a tm Ha) as [r' E']. rewrite E' in E. injection E as _ <-.
  unfold ts_stop. rewrite Ha. destruct (activated tm); [|done].
  apply (run_put _ _ tm); [|done|by apply fits_deactivate, H3|done].
  apply (run_sub s); [done|by apply twf_remove|done|done| |done].
  rewrite last_row_remove. apply without_sublist.
Qed.

Lemma run_remove a : keeps timers_run (_rt_timer_remove a).
Proof.
  intros s r s' Hs E. destruct (ts_timers s !! a) as [tm|] eqn:Ha; cycle 1.
  { unfold _rt_timer_remove, get_timer, mbind, M_bind in E. by rewrite Ha in E. }
  rewrite (timer_remove_run s a tm Ha) in E. injection E as _ <-. pose proof Hs as (H1 & H2 & H3).
  apply (run_sub s); [done|by apply twf_remove|done|done| |done].
  rewrite last_row_remove. apply without_sublist.
Qed.

Lemma run_start a : keeps timers_run (timer_start a).
Proof.
  intros s r s' Hs E. pose proof Hs as (H1 & H2 & H3). pose proof (fit_start a s r s' H3 E) as Hf.
  destruct (ts_timers s !! a) as [tm|] eqn:Ha; cycle 1.
  { unfold timer_start, _rt_timer_remove in E. rewrite bind_assoc in E.
    unfold get_timer, mbind, M_bind in E. by rewrite Ha in E. }
  destruct (decide (tm_init_tick tm < RT_TICK_MAX / 2)) as [Hi|Hi]; cycle 1.
  { exfalso. unfold timer_start in E. rewrite (bind_ok _ _ _ _ _ (timer_remove_run s a tm Ha)) in E.
    rewrite (bind_ok _ _ _ _ _ (upd_timer_run (ts_remove a s) a deactivate tm Ha)) in E.
    erewrite bind_ok in E by (apply get_timer_run; apply lookup_insert_eq). cbn [tm_init_tick deactivate set_flag] in E.
    rewrite (proj2 (Z.ltb_ge _ _)) in E by lia. discriminate. }
  destruct (timer_start_run s a tm H1 Ha Hi) as (s1 & pre & suf & E1 & W1 & T1 & Tk & R1 & R2 & A1 & A2).
  rewrite E1 in E. injection E as _ <-. destruct (H3 _ _ Ha) as [Hi0 _].
  split; [done|]. split; [|done]. rewrite Tk.
  eapply (ordered_start (ts_tick s) s s1 a tm); try done.
  assert (Hd : u32 (u32 (ts_tick s + tm_init_tick tm) - ts_tick s) = tm_init_tick tm).
  { unfold u32. rewrite Zminus_mod_idemp_l. replace (ts_tick s + tm_init_tick tm - ts_tick s) with (tm_init_tick tm) by lia.
    apply Z.mod_small. unfold RT_TICK_MAX in Hi. change (0xffffffff / 2) with 2147483647 in Hi. lia. }
  by rewrite Hd.
Qed.

Lemma run_set_time t time : keeps timers_run (timer_control (ATimer t) RT_TIMER_CTRL_SET_TIME time).
Proof.
  intros s r s' Hs E. destruct (ts_timers s !! ATimer t) as [tm|] eqn:Ha; cycle 1.
  { unfold timer_control, get_timer, mbind, M_bind in E. by rewrite Ha in E. }
  rewrite (set_time_run s (ATimer t) tm time Ha) in E. injection E as _ <-.
  apply (run_put _ _ tm); [done|done| |done]. split; [cbn; apply u32_range|done].
Qed.

Lemma timer_linked_spec s a : twf s -> timer_linked a s = false -> a ∉ last_row s.
Proof.
  intros Hw Hl Hin. destruct (twf_rows s Hw) as [up Hu].
  assert (Ht : timer_linked a s = true); [|congruence]. unfold timer_linked. apply existsb_exists.
  exists (last_row s). split; [|by apply bool_decide_eq_true_2]. rewrite Hu. apply in_or_app. right. by left.
Qed.

Lemma run_init a f par time flag :
  timer_fits a (mk_timer (Z.land flag (Z.lnot RT_TIMER_FLAG_ACTIVATED)) f par time 0) ->
  keeps timers_run (_rt_timer_init a f par time flag).
Proof.
  intros Hf s r s' Hs E. pose proof Hs as (H1 & H2 & H3). unfold _rt_timer_init in E. rewrite bind_getS in E.
  destruct (timer_linked a s) eqn:El; [done|]. injection E as _ <-. apply (timer_linked_spec s a H1) in El.
  apply (run_sub s); [done|by apply twf_put|done|by apply fit_put|done|].
  intros b Hb. unfold due. cbn. rewrite lookup_insert_ne; [done|]. intros ->. by apply El.
Qed.

End Timers.

(** ** The parts of the state most code leaves alone

    [same_shape]: the threads and list heads exist as before, the threads have
    their stacks, and no thread has become defunct; [same_timers]: the timers
    exist as before. *)

Record same_shape (s0 s : sched) : Prop := {
  sh_stack : forall t, th_stack_addr <$> sc_threads s !! t = th_stack_addr <$> sc_threads s0 !! t;
  sh_heads : forall h, is_Some (sc_lists s !! h) <-> is_Some (sc_lists s0 !! h);
  sh_defunct : forall t, t ∈ lget s HDefunct -> t ∈ lget s0 HDefunct
}.
Definition same_timers (s0 s : tsys) : Prop :=
  forall a, is_Some (ts_timers s !! a) <-> is_Some (ts_timers s0 !! a).

Lemma same_shape_refl s : same_shape s s.
Proof. by split. Qed.

Section Shape.
Context `{CO : ConfigOk}.
Variable s0 : sched.
Abbreviation shape := (keeps (same_shape s0)).

Lemma shape_get_thread t : shape (get_thread t).
Proof. apply keeps_lookup. Qed.
Lemma shape_get_list h : shape (get_list h).
Proof. apply keeps_lookup. Qed.
Lemma shape_isempty h : shape (tlist_isempty h).
Proof. unfold tlist_isempty. keep. Qed.
Lemma shape_node t : shape (tlist_node_init t).
Proof. unfold tlist_node_init. keep. Qed.
Lemma shape_table_get i : shape (table_get i).
Proof. apply keeps_read. intros s v s'. unfold table_get. destruct (0 <=? i); [|done]. destruct (sc_table s !! _); by intros [= _ <-]. Qed.
#[local] Hint Resolve shape_get_thread shape_get_list shape_isempty shape_table_get : keeps.

(** Updates of threads and lists that exist. *)
Lemma shape_put_thread s t th th' : same_shape s0 s -> sc_threads s !! t = Some th ->
  th_stack_addr th' = th_stack_addr th -> same_shape s0 (put_thread t th' s).
Proof.
  intros [H1 H2 H3] Ht Hs. split; [|done|done]. intros x. rewrite <- H1. cbn. destruct (decide (x = t)) as [->|].
  - by rewrite lookup_insert_eq, Ht; cbn; rewrite Hs.
  - by rewrite lookup_insert_ne.
Qed.
Lemma shape_upd t f : (forall th, th_stack_addr (f th) = th_stack_addr th) -> shape (upd_thread t f).
Proof.
  intros Hf s [] s' H E. unfold upd_thread, get_thread, mbind, M_bind, of_option in E.
  destruct (sc_threads s !! t) as [th|] eqn:Ht; [|done]. injection E as <-. by eapply shape_put_thread.
Qed.
Lemma shape_put_list s h l l' : same_shape s0 s -> sc_lists s !! h = Some l -> h <> HDefunct ->
  same_shape s0 (put_list h l' s).
Proof.
  intros [H1 H2 H3] Hh Hne. split; [done| |].
  - intros h'. rewrite <- H2. cbn. destruct (decide (h' = h)) as [->|]; [by rewrite lookup_insert_eq, Hh|].
    by rewrite lookup_insert_ne.
  - intros t. unfold lget. cbn. rewrite lookup_insert_ne by done. apply H3.
Qed.
(** A list that has been read may be replaced. *)
Lemma shape_relink {A} h (f : list Z -> M sched A) :
  (forall l s b s', same_shape s0 s -> sc_lists s !! h = Some l -> f l s = Ok b s' -> same_shape s0 s') ->
  shape (get_list h ≫= f).
Proof.
  intros Hf s b s' H E. unfold get_list, mbind, M_bind, of_option in E.
  destruct (sc_lists s !! h) as [l|] eqn:Hh; [|done]. by apply (Hf l s b s').
Qed.
Lemma shape_before h t : h <> HDefunct -> shape (tlist_insert_before h t).
Proof.
  intros Hne. unfold tlist_insert_before. apply keeps_bind; [keep|intros _]. apply shape_relink.
  intros l s b s' H Hh. unfold mbind, M_bind, getS. cbn. destruct (linked t s); [done|]. intros [= _ <-].
  by eapply shape_put_list.
Qed.
Lemma shape_after h t : h <> HDefunct -> shape (tlist_insert_after h t).
Proof.
  intros Hne. unfold tlist_insert_after. apply keeps_bind; [keep|intros _]. apply shape_relink.
  intros l s b s' H Hh. unfold mbind, M_bind, getS. cbn. destruct (linked t s); [done|]. intros [= _ <-].
  by eapply shape_put_list.
Qed.
Lemma prio_insert_read p t l : forall s l' s', prio_insert p t l s = Ok l' s' -> s' = s.
Proof.
  induction l as [|x l IH]; intros s l' s'; cbn [prio_insert]; [by intros [= _ <-]|].
  unfold mbind, M_bind, get_thread, of_option. destruct (sc_threads s !! x) as [th|]; [|done]. cbn.
  destruct (p <? _); [by intros [= _ <-]|]. destruct (prio_insert p t l s) as [l1 s1|] eqn:E; [|done].
  apply IH in E as ->. by intros [= _ <-].
Qed.
Lemma shape_prio h t : h <> HDefunct -> shape (tlist_insert_prio h t).
Proof.
  intros Hne. unfold tlist_insert_prio. apply keeps_bind; [keep|intros th]. apply shape_relink.
  intros l s b s' H Hh. unfold mbind, M_bind. destruct (prio_insert _ t l s) as [l' s1|] eqn:E; [|done].
  apply prio_insert_read in E as ->. cbn. destruct (linked t s); [done|]. intros [= _ <-]. by eapply shape_put_list.
Qed.
Lemma shape_remove t : shape (tlist_remove t).
Proof.
  unfold tlist_remove. keep. apply keeps_modify. intros s [H1 H2 H3]. split; [done| |].
  - intros h. rewrite <- H2. cbn. rewrite lookup_fmap. destruct (sc_lists s !! h); cbn; [|done]. by split; intros _; eexists.
  - intros x. unfold lget. cbn. rewrite lget_unlink, elem_of_unlink. intros [Hx _]. by apply H3.
Qed.
(** Everything but threads and lists. *)
Lemma shape_modify f : (forall s, sc_threads (f s) = sc_threads s /\ sc_lists (f s) = sc_lists s) -> shape (modify f).
Proof.
  intros Hf. apply keeps_modify. intros s [H1 H2 H3]. destruct (Hf s) as [E1 E2].
  split; unfold lget in *; by rewrite ?E1, ?E2.
Qed.
Lemma shape_group f : shape (group_set f).
Proof. unfold group_set. by apply shape_modify. Qed.
Lemma shape_table_set i v : shape (table_set i v).
Proof. unfold table_set. keep. by apply shape_modify. Qed.
#[local] Hint Resolve shape_before shape_after shape_prio shape_remove shape_group shape_table_set : keeps.
#[local] Hint Extern 1 (_ <> HDefunct) => discriminate : keeps.

Lemma shape_insert t : shape (rt_schedule_insert_thread t).
Proof. unfold rt_schedule_insert_thread. keep. by apply shape_upd. Qed.
Lemma shape_unqueue t : shape (rt_schedule_remove_thread t).
Proof. unfold rt_schedule_remove_thread. keep. Qed.
Lemma shape_highest : shape _get_highest_priority_thread.
Proof. unfold _get_highest_priority_thread. keep. Qed.
#[local] Hint Resolve shape_insert shape_unqueue shape_highest : keeps.
Lemma shape_schedule : shape rt_schedule.
Proof. unfold rt_schedule. keep; by apply shape_modify. Qed.
#[local] Hint Resolve shape_schedule : keeps.
Lemma shape_start : shape rt_system_scheduler_start.
Proof. unfold rt_system_scheduler_start. keep; by apply shape_modify. Qed.
Lemma shape_enter : shape rt_enter_critical.
Proof. unfold rt_enter_critical. by apply shape_modify. Qed.
Lemma shape_exit : shape rt_exit_critical.
Proof. unfold rt_exit_critical. keep; by apply shape_modify. Qed.
Lemma shape_self : shape rt_thread_self.
Proof. apply keeps_gets. Qed.
Lemma shape_nest : shape rt_interrupt_get_nest.
Proof. apply keeps_gets. Qed.
End Shape.

#[export] Hint Extern 1 (_ <> HDefunct) => first [assumption | discriminate] : keeps.
#[export] Hint Resolve shape_get_thread shape_get_list shape_isempty shape_node shape_before shape_after shape_prio
  shape_remove shape_insert shape_unqueue shape_schedule shape_start shape_enter shape_exit shape_self shape_nest : keeps.

Section SameTimers.
Context `{CO : ConfigOk}.
Variable s0 : tsys.
Abbreviation sameT := (keeps (same_timers s0)).

Lemma same_upd a f : sameT (upd_timer a f).
Proof.
  intros s [] s' H E. unfold upd_timer, mbind, M_bind in E. destruct (get_timer a s) as [tm s1|] eqn:E1; [|done].
  apply get_timer_read in E1 as [-> Ht]. injection E as <-. intros b. rewrite <- (H b). cbn.
  destruct (decide (b = a)) as [->|]; [by rewrite lookup_insert_eq, Ht|by rewrite lookup_insert_ne].
Qed.
Lemma same_get a : sameT (get_timer a).
Proof. apply keeps_get_timer. Qed.
#[local] Hint Resolve same_upd same_get : keeps.
Lemma same_row_walk timeout suf : forall pos, sameT (row_walk timeout pos suf).
Proof. induction suf as [|t suf IH]; intros pos; cbn [row_walk]; keep. Qed.
#[local] Hint Resolve same_row_walk : keeps.
Lemma same_rows_walk timeout rows : forall pos, sameT (rows_walk timeout pos rows).
Proof. induction rows as [|t rows IH]; intros pos; cbn [rows_walk]; keep. Qed.
#[local] Hint Resolve same_rows_walk : keeps.
Lemma same_remove a : sameT (_rt_timer_remove a).
Proof. unfold _rt_timer_remove. keep. Qed.
#[local] Hint Resolve same_remove : keeps.
Lemma same_start a : sameT (timer_start a).
Proof. unfold timer_start, rt_tick_get. keep. Qed.
Lemma same_stop a : sameT (timer_stop a).
Proof. unfold timer_stop. keep. Qed.
Lemma same_control a cmd arg : sameT (timer_control a cmd arg).
Proof. unfold timer_control. keep. Qed.
End SameTimers.
