(* ===== verification/Stable.v ===== *)
(** * Which invariants every call keeps

    [Stable I]: [I] is kept by the elementary steps of the kernel that create
    or destroy nothing.  [StableAt I o]: also by those that create or destroy
    the object at [o].  Every kernel call keeps such an invariant; the proofs
    follow the code and are done once, for all invariants. *)

From S2P Require Import Prelude Scheduler ReadyBitmap Object ObjInv Timer TimerInv Kernel Thread Ipc.
From S2P Require Import Semaphore Mutex Event Mailbox MsgQueue MemPool Clock KernelInv ThreadInv Keeps.

Section Class.
Context {CF : Config} {HP : Heap}.

(** [known_mb o b]: [I] says that the pool of mailbox [o] is at [b]. *)
Class Stable (I : kstate -> Prop) := {
  known_mb : Z -> Z -> Prop;
  known_mq : Z -> Z -> Prop;
  known_mp : Z -> Z -> Prop;
  sb_sched : forall k s, I k -> same_shape (k_sched k) s -> I (put_sched s k);
  sb_ipc : forall k i, I k -> ip_mb i = ip_mb (k_ipc k) -> ip_mq i = ip_mq (k_ipc k) ->
    ip_mp i = ip_mp (k_ipc k) -> I (put_ipc i k);
  sb_errno : forall k e, I k -> I (put_errno e k);
  sb_get_mb : forall k o x, I k -> ip_mb (k_ipc k) !! o = Some x -> known_mb o (mb_msg_pool x);
  sb_put_mb : forall k o x, I k -> known_mb o (mb_msg_pool x) -> I (put_mb o x k);
  sb_get_mq : forall k o x, I k -> ip_mq (k_ipc k) !! o = Some x -> known_mq o (mq_msg_pool x);
  sb_put_mq : forall k o x, I k -> known_mq o (mq_msg_pool x) -> I (put_mq o x k);
  sb_get_mp : forall k o x, I k -> ip_mp (k_ipc k) !! o = Some x -> known_mp o (mp_start_address x);
  sb_put_mp : forall k o x, I k -> known_mp o (mp_start_address x) -> I (put_mp o x k);
  sb_stop : forall a, keeps I (liftT (timer_stop a));
  sb_start : forall a, keeps I (liftT (timer_start a));
  sb_set_time : forall t time, keeps I (liftT (timer_control (ATimer t) RT_TIMER_CTRL_SET_TIME time))
}.

Class StableAt (I : kstate -> Prop) (o : Z) := {
  sa_stable :: Stable I;
  sa_mb : forall b, known_mb o b;
  sa_mq : forall b, known_mq o b;
  sa_mp : forall b, known_mp o b;
  sa_init : forall c name, keeps I (liftO (rt_object_init (AObj o) c name));
  sa_timer_init : forall c name, keeps I (liftO (rt_object_init (ATimer o) c name));
  sa_reset : forall a, a = AObj o \/ a = ATimer o -> keeps I (liftO (object_reset a));
  sa_unlink : forall a, a = AObj o \/ a = ATimer o -> keeps I (liftO (container_remove a));
  sa_suspend : keeps I (liftS (tlist_head_init (HSuspend o)));
  sa_sender : keeps I (liftS (tlist_head_init (HSender o)));
  sa_defunct : keeps I (liftS (tlist_insert_after HDefunct o));
  sa_thread : forall th, keeps I (liftS (modify (put_thread o th)));
  sa_set_timer : forall f par flag, keeps I (liftT (_rt_timer_init (ATimer o) f par 0 flag));
  sa_remove : forall a, a = AObj o \/ a = ATimer o -> keeps I (liftT (_rt_timer_remove a))
}.
End Class.

Section Rules.
Context {CF : Config} {HP : Heap} {I : kstate -> Prop} {SI : Stable I}.

Lemma keeps_shape {A} (m : M sched A) : (forall s0, keeps (same_shape s0) m) -> keeps I (liftS m).
Proof.
  intros Hm k a k' H E. unfold liftS, zoom in E. destruct (m (k_sched k)) as [b s|] eqn:Em; [|done].
  injection E as <- <-. apply sb_sched; [done|]. eapply (Hm (k_sched k)); [apply same_shape_refl|exact Em].
Qed.
Lemma keeps_reads_obj {A} (m : M objsys A) : (forall s0, keeps (eq s0) m) -> keeps I (liftO m).
Proof.
  intros Hm k a k' H E. unfold liftO, zoom in E. destruct (m (k_obj k)) as [b s|] eqn:Em; [|done].
  injection E as <- <-. rewrite <- (Hm _ _ _ _ eq_refl Em). by destruct k.
Qed.
Lemma keeps_reads_ts {A} (m : M tsys A) : (forall s0, keeps (eq s0) m) -> keeps I (liftT m).
Proof.
  intros Hm k a k' H E. unfold liftT, zoom in E. destruct (m (k_ts k)) as [b s|] eqn:Em; [|done].
  injection E as <- <-. rewrite <- (Hm _ _ _ _ eq_refl Em). by destruct k.
Qed.

Lemma keeps_obj_seq {A B} (m : M objsys A) (f : A -> M objsys B) :
  keeps I (liftO m ≫= fun a => liftO (f a)) -> keeps I (liftO (m ≫= f)).
Proof.
  intros Hm k b k' H E. apply (Hm k b k' H). rewrite <- E. unfold liftO, zoom, mbind, M_bind.
  destruct (m (k_obj k)) as [a s|]; [|done]. cbn. by destruct (f a s).
Qed.

Lemma keeps_lookup_bind {X B} (e : fault) (f : kstate -> option X) (g : X -> K B) (Q : X -> Prop) :
  (forall k x, I k -> f k = Some x -> Q x) -> (forall x, Q x -> keeps I (g x)) ->
  keeps I ((fun k => of_option e (f k) k) ≫= g).
Proof.
  intros HQ Hg k b k' H E. unfold mbind, M_bind, of_option in E. destruct (f k) as [x|] eqn:Ef; [|done].
  by apply (Hg x (HQ k x H Ef) k b k').
Qed.
Lemma keeps_get_mb {B} o (g : rt_mailbox -> K B) :
  (forall x, known_mb o (mb_msg_pool x) -> keeps I (g x)) -> keeps I (get_mb o ≫= g).
Proof. apply keeps_lookup_bind. intros k x. apply sb_get_mb. Qed.
Lemma keeps_get_mq {B} o (g : rt_messagequeue -> K B) :
  (forall x, known_mq o (mq_msg_pool x) -> keeps I (g x)) -> keeps I (get_mq o ≫= g).
Proof. apply keeps_lookup_bind. intros k x. apply sb_get_mq. Qed.
Lemma keeps_get_mp {B} o (g : rt_mempool -> K B) :
  (forall x, known_mp o (mp_start_address x) -> keeps I (g x)) -> keeps I (get_mp o ≫= g).
Proof. apply keeps_lookup_bind. intros k x. apply sb_get_mp. Qed.

Lemma keeps_put_mb o b x : known_mb o b -> mb_msg_pool x = b -> keeps I (modify (put_mb o x)).
Proof. intros Hb <-. apply keeps_modify. intros k H. by apply sb_put_mb. Qed.
Lemma keeps_put_mq o b x : known_mq o b -> mq_msg_pool x = b -> keeps I (modify (put_mq o x)).
Proof. intros Hb <-. apply keeps_modify. intros k H. by apply sb_put_mq. Qed.
Lemma keeps_put_mp o b x : known_mp o b -> mp_start_address x = b -> keeps I (modify (put_mp o x)).
Proof. intros Hb <-. apply keeps_modify. intros k H. by apply sb_put_mp. Qed.
Lemma keeps_put_ipc f : (forall k, exists i, f k = put_ipc i k /\ ip_mb i = ip_mb (k_ipc k) /\
    ip_mq i = ip_mq (k_ipc k) /\ ip_mp i = ip_mp (k_ipc k)) -> keeps I (modify f).
Proof. intros Hf. apply keeps_modify. intros k H. destruct (Hf k) as (i & -> & E1 & E2 & E3). by apply sb_ipc. Qed.
Lemma keeps_put_errno e : keeps I (modify (put_errno e)).
Proof. apply keeps_modify. intros k H. by apply sb_errno. Qed.
End Rules.

(** One step along the structure of kernel code. *)
Ltac skeep1 :=
  match goal with
  | |- keeps _ (get_mb _ ≫= _) => apply keeps_get_mb; intros ? ?
  | |- keeps _ (get_mq _ ≫= _) => apply keeps_get_mq; intros ? ?
  | |- keeps _ (get_mp _ ≫= _) => apply keeps_get_mp; intros ? ?
  | |- keeps _ (modify (put_mb _ _)) => eapply keeps_put_mb; [eassumption|by repeat case_match]
  | |- keeps _ (modify (put_mq _ _)) => eapply keeps_put_mq; [eassumption|by repeat case_match]
  | |- keeps _ (modify (put_mp _ _)) => eapply keeps_put_mp; [eassumption|by repeat case_match]
  | |- keeps _ (modify (put_errno _)) => apply keeps_put_errno
  | |- keeps _ (modify _) => apply keeps_put_ipc; intros ?; eexists; by split_and!
  | |- keeps _ (liftS (upd_thread _ _)) => apply keeps_shape; intros ?; apply shape_upd; done
  | |- keeps _ (liftS _) => solve [eauto with keeps | apply keeps_shape; intros ?; eauto with keeps]
  | |- _ => keep1
  end.
Ltac skeep := repeat (cbv zeta; skeep1).

Section Calls.
Context {CF : Config} {HP : Heap} {CO : ConfigOk CF} {I : kstate -> Prop} {SI : Stable I}.

Lemma k_prio_attr th : th_stack_addr (prio_attr th) = th_stack_addr th.
Proof. unfold prio_attr. by destruct (32 <? _). Qed.

Lemma k_type_read a : keeps I (liftO (rt_object_get_type a)).
Proof. apply keeps_reads_obj. intros s0. unfold rt_object_get_type. keep. Qed.
Lemma k_system_read a : keeps I (liftO (rt_object_is_systemobject a)).
Proof. apply keeps_reads_obj. intros s0. unfold rt_object_is_systemobject. keep. Qed.
Lemma k_object_read a : keeps I (liftO (get_object a)).
Proof. apply keeps_reads_obj. intros s0. apply keeps_lookup. Qed.
Lemma k_tick : keeps I (liftT rt_tick_get).
Proof. apply keeps_reads_ts. intros s0. apply keeps_gets. Qed.
Lemma k_timer a : keeps I (liftT (get_timer a)).
Proof. apply keeps_reads_ts. intros s0. apply keeps_get_timer. Qed.
#[local] Hint Resolve k_type_read k_system_read k_object_read k_tick k_timer : keeps.

Lemma k_not_irq : keeps I RT_DEBUG_NOT_IN_INTERRUPT.
Proof. unfold RT_DEBUG_NOT_IN_INTERRUPT. skeep. Qed.
#[local] Hint Resolve k_not_irq : keeps.
Lemma k_context : keeps I RT_DEBUG_IN_THREAD_CONTEXT.
Proof. unfold RT_DEBUG_IN_THREAD_CONTEXT. skeep. Qed.
Lemma k_type a c : keeps I (assert_type a c).
Proof. unfold assert_type. skeep. Qed.
Lemma k_system a b : keeps I (assert_systemobject a b).
Proof. unfold assert_systemobject. skeep. Qed.
Lemma k_stat t : keeps I (thread_stat t).
Proof. unfold thread_stat. skeep. Qed.
Lemma k_first h : keeps I (first_waiter h).
Proof. unfold first_waiter. skeep. Qed.
Lemma k_set_errno e : keeps I (rt_set_errno e).
Proof. unfold rt_set_errno. skeep. Qed.
#[local] Hint Resolve k_context k_type k_system k_stat k_first k_set_errno : keeps.

(** ** Records of IPC objects *)

Lemma k_get_sem o : keeps I (get_sem o).
Proof. apply keeps_lookup. Qed.
Lemma k_get_mutex o : keeps I (get_mutex o).
Proof. apply keeps_lookup. Qed.
Lemma k_get_event o : keeps I (get_event o).
Proof. apply keeps_lookup. Qed.
Lemma k_get_word o : keeps I (get_word o).
Proof. apply keeps_lookup. Qed.
Lemma k_get_msg x m : keeps I (get_msg x m).
Proof. apply keeps_option. Qed.
#[local] Hint Resolve k_get_sem k_get_mutex k_get_event k_get_word k_get_msg : keeps.
Lemma k_upd_mutex o f : keeps I (upd_mutex o f).
Proof. unfold upd_mutex. skeep. Qed.
Lemma k_set_sem o v : keeps I (set_sem_value o v).
Proof. unfold set_sem_value. skeep. Qed.
Lemma k_set_events o v : keeps I (set_events o v).
Proof. unfold set_events. skeep. Qed.
Lemma k_set_next q m n : keeps I (set_next q m n).
Proof. unfold set_next. skeep. Qed.
Lemma k_set_data q m b : keeps I (set_data q m b).
Proof. unfold set_data. skeep. Qed.
Lemma k_set_word a v : keeps I (set_word a v).
Proof. unfold set_word. skeep. Qed.
Lemma k_new_word b n a v : keeps I (new_word b n a v).
Proof. unfold new_word. skeep. Qed.
Lemma k_count f mp : keeps I (suspend_count f mp).
Proof. unfold suspend_count. skeep. Qed.
#[local] Hint Resolve k_upd_mutex k_set_sem k_set_events k_set_next k_set_data k_set_word k_new_word k_count : keeps.
Lemma k_take_slot q : keeps I (mq_take_slot q).
Proof. unfold mq_take_slot. skeep. Qed.
Lemma k_fill_slot q m b : keeps I (mq_fill_slot q m b).
Proof. unfold mq_fill_slot. skeep. Qed.
Lemma k_link_tail q m : keeps I (mq_link_tail q m).
Proof. unfold mq_link_tail. skeep. Qed.
Lemma k_link_head q m : keeps I (mq_link_head q m).
Proof. unfold mq_link_head. skeep. Qed.
Lemma k_unlink_head q : keeps I (mq_unlink_head q).
Proof. unfold mq_unlink_head. skeep. Qed.
Lemma k_copy_out q m n : keeps I (mq_copy_out q m n).
Proof. unfold mq_copy_out. skeep. Qed.
Lemma k_free_slot q m : keeps I (mq_free_slot q m).
Proof. unfold mq_free_slot. skeep. Qed.
Lemma k_send_checks q n : keeps I (mq_send_checks q n).
Proof. unfold mq_send_checks. skeep. Qed.
#[local] Hint Resolve k_take_slot k_fill_slot k_link_tail k_link_head k_unlink_head k_copy_out k_free_slot k_send_checks : keeps.
Lemma k_recv_finish q n : keeps I (mq_recv_finish q n).
Proof. unfold mq_recv_finish. skeep. Qed.
Lemma k_drain fuel q : keeps I (mq_drain fuel q).
Proof. induction fuel; cbn [mq_drain]; skeep. Qed.
Lemma k_link_blocks b n st m : forall off, keeps I (link_blocks b n st m off).
Proof. induction m; intros off; cbn [link_blocks]; skeep. Qed.
#[local] Hint Resolve k_recv_finish k_drain k_link_blocks : keeps.
Lemma k_blocks_init mp : keeps I (mp_blocks_init mp).
Proof. unfold mp_blocks_init. skeep. Qed.
Lemma k_mp_take mp : keeps I (mp_take mp).
Proof. unfold mp_take. skeep. Qed.
#[local] Hint Resolve k_blocks_init k_mp_take : keeps.

(** ** Timers and threads *)

Lemma k_timer_stop a : keeps I (rt_timer_stop a).
Proof. unfold rt_timer_stop. skeep. apply sb_stop. Qed.
Lemma k_timer_start a : keeps I (rt_timer_start a).
Proof. unfold rt_timer_start. skeep. apply sb_start. Qed.
Lemma k_set_time t time : keeps I (rt_timer_control (ATimer t) RT_TIMER_CTRL_SET_TIME time).
Proof. unfold rt_timer_control. skeep. apply sb_set_time. Qed.
#[local] Hint Resolve k_timer_stop k_timer_start k_set_time : keeps.
Lemma k_timer_go t time : keeps I (thread_timer_start t time).
Proof. unfold thread_timer_start. skeep. Qed.
#[local] Hint Resolve k_timer_go : keeps.
Lemma k_wait_timer t time : keeps I (wait_timer t time).
Proof. unfold wait_timer. skeep. Qed.
Lemma k_suspend t : keeps I (rt_thread_suspend t).
Proof. unfold rt_thread_suspend. skeep. Qed.
Lemma k_resume t : keeps I (rt_thread_resume t).
Proof. unfold rt_thread_resume. skeep. Qed.
#[local] Hint Resolve k_wait_timer k_suspend k_resume : keeps.
Lemma k_upd_prio t f : (forall th, th_stack_addr (f th) = th_stack_addr th) ->
  keeps I (liftS (upd_thread t (fun th => prio_attr (f th)))).
Proof. intros Hf. apply keeps_shape. intros s0. apply shape_upd. intros th. by rewrite k_prio_attr. Qed.
Lemma k_startup t : keeps I (rt_thread_startup t).
Proof.
  unfold rt_thread_startup. do 4 (apply keeps_bind; [skeep|intros ?]).
  apply keeps_bind; [by apply k_upd_prio|skeep].
Qed.
Lemma k_change_priority t p : keeps I (change_priority t p).
Proof.
  unfold change_priority. apply keeps_bind; [skeep|intros st]. destruct (st =? _); [|by apply k_upd_prio].
  apply keeps_bind; [skeep|intros _]. apply keeps_bind; [by apply k_upd_prio|skeep].
Qed.
#[local] Hint Resolve k_startup k_change_priority : keeps.
Lemma k_yield : keeps I rt_thread_yield.
Proof. unfold rt_thread_yield. skeep. Qed.
Lemma k_sleep tick : keeps I (rt_thread_sleep tick).
Proof. unfold rt_thread_sleep. skeep. Qed.
Lemma k_timeout t : keeps I (rt_thread_timeout t).
Proof. unfold rt_thread_timeout. skeep. Qed.
Lemma k_slice t : keeps I (time_slice t).
Proof. unfold time_slice, rt_thread_yield. skeep. Qed.
Lemma k_priority t p : keeps I (rt_thread_control t RT_THREAD_CTRL_CHANGE_PRIORITY p).
Proof. unfold rt_thread_control. rewrite Z.eqb_refl. skeep. Qed.
#[local] Hint Resolve k_priority : keeps.

(** ** Wait lists *)

Lemma k_list_suspend h t flag : h <> HDefunct -> keeps I (rt_ipc_list_suspend h t flag).
Proof. intros Hne. unfold rt_ipc_list_suspend. skeep. Qed.
Lemma k_list_resume h : keeps I (rt_ipc_list_resume h).
Proof. unfold rt_ipc_list_resume. skeep. Qed.
Lemma k_resume_loop fuel h : keeps I (resume_all_loop fuel h).
Proof. induction fuel; cbn [resume_all_loop]; skeep. Qed.
#[local] Hint Resolve k_list_suspend k_list_resume k_resume_loop : keeps.
Lemma k_resume_all h : keeps I (rt_ipc_list_resume_all h).
Proof. unfold rt_ipc_list_resume_all. skeep. Qed.
Lemma k_event_wake o l : forall ns, keeps I (event_wake o l ns).
Proof. induction l as [|t l IH]; intros ns; cbn [event_wake]; skeep. Qed.
Lemma k_mq_wake q : keeps I (mq_wake q).
Proof. unfold mq_wake. skeep. Qed.
Lemma k_mp_resume_all fuel mp : keeps I (mp_resume_all fuel mp).
Proof. induction fuel; cbn [mp_resume_all]; skeep. Qed.
#[local] Hint Resolve k_resume_all k_event_wake k_mq_wake k_mp_resume_all : keeps.
Lemma k_mp_wake_all mp : keeps I (mp_wake_all mp).
Proof. unfold mp_wake_all. skeep. Qed.

(** ** Calls *)

Lemma k_sem_take o time : keeps I (rt_sem_take o time).
Proof. unfold rt_sem_take. skeep. Qed.
Lemma k_sem_release o : keeps I (rt_sem_release o).
Proof. unfold rt_sem_release. skeep. Qed.
Lemma k_sem_control o cmd arg : keeps I (rt_sem_control o cmd arg).
Proof. unfold rt_sem_control. skeep. Qed.
Lemma k_mutex_take o time : keeps I (rt_mutex_take o time).
Proof. unfold rt_mutex_take, mutex_take_again. skeep. Qed.
Lemma k_mutex_release o : keeps I (rt_mutex_release o).
Proof. unfold rt_mutex_release. skeep. Qed.
Lemma k_event_send o set : keeps I (rt_event_send o set).
Proof. unfold rt_event_send. skeep. Qed.
Lemma k_event_recv o set opt time : keeps I (rt_event_recv o set opt time).
Proof. unfold rt_event_recv. skeep. Qed.
Lemma k_event_control o cmd arg : keeps I (rt_event_control o cmd arg).
Proof. unfold rt_event_control. skeep. Qed.
Lemma k_mb_send_loop o v t time : keeps I (mb_send_loop o v t time).
Proof. unfold mb_send_loop, mb_send_finish. skeep. Qed.
Lemma k_mb_recv_loop o t time : keeps I (mb_recv_loop o t time).
Proof. unfold mb_recv_loop, mb_recv_finish. skeep. Qed.
Lemma k_mb_control o cmd arg : keeps I (rt_mb_control o cmd arg).
Proof. unfold rt_mb_control. skeep. Qed.
Lemma k_mq_send o b : keeps I (rt_mq_send o b).
Proof. unfold rt_mq_send. skeep. Qed.
Lemma k_mq_urgent o b : keeps I (rt_mq_urgent o b).
Proof. unfold rt_mq_urgent. skeep. Qed.
Lemma k_mq_recv_loop o n t time : keeps I (mq_recv_loop o n t time).
Proof. unfold mq_recv_loop. skeep. Qed.
Lemma k_mq_control o cmd arg : keeps I (rt_mq_control o cmd arg).
Proof. unfold rt_mq_control. skeep. Qed.
Lemma k_mp_alloc_loop mp t time : keeps I (mp_alloc_loop mp t time).
Proof. unfold mp_alloc_loop. skeep. Qed.
Lemma k_mp_free b : keeps I (rt_mp_free b).
Proof. unfold rt_mp_free. skeep. Qed.
#[local] Hint Resolve k_mb_send_loop k_mb_recv_loop k_mq_recv_loop k_mp_alloc_loop : keeps.
Lemma k_mb_send o v time : keeps I (rt_mb_send_wait o v time).
Proof. unfold rt_mb_send_wait. skeep. Qed.
Lemma k_mb_recv o time : keeps I (rt_mb_recv o time).
Proof. unfold rt_mb_recv. skeep. Qed.
Lemma k_mq_recv o n time : keeps I (rt_mq_recv o n time).
Proof. unfold rt_mq_recv. skeep. Qed.
Lemma k_mp_alloc mp time : keeps I (rt_mp_alloc mp time).
Proof. unfold rt_mp_alloc. skeep. Qed.
Lemma k_mb_send_resumed pc : keeps I (mb_send_resumed pc).
Proof. unfold mb_send_resumed. skeep. Qed.
Lemma k_mb_recv_resumed pc : keeps I (mb_recv_resumed pc).
Proof. unfold mb_recv_resumed. skeep. Qed.
Lemma k_mq_recv_resumed pc : keeps I (mq_recv_resumed pc).
Proof. unfold mq_recv_resumed. skeep. Qed.
Lemma k_mp_alloc_resumed pc : keeps I (mp_alloc_resumed pc).
Proof. unfold mp_alloc_resumed. skeep. Qed.

End Calls.

#[export] Hint Resolve k_type_read k_system_read k_object_read k_tick k_timer k_not_irq k_context k_type k_system k_stat
  k_first k_set_errno k_link_blocks k_blocks_init k_resume_all k_mp_wake_all k_timer_stop k_timer_start k_set_time
  k_suspend k_resume k_startup k_list_resume : keeps.

#[export] Hint Extern 0 (Stable _) => typeclasses eauto : keeps.
#[export] Hint Extern 0 (ConfigOk _) => typeclasses eauto : keeps.

(** ** Creating and destroying the object at [o] *)

Section At.
Context {CF : Config} {HP : Heap} {CO : ConfigOk CF} {I : kstate -> Prop} {o : Z} {SI : StableAt I o}.

(** What is known of the records at [o] is no restriction. *)
Lemma at_put_mb x : keeps I (modify (put_mb o x)).
Proof. eapply keeps_put_mb; [apply sa_mb|done]. Qed.
Lemma at_put_mq x : keeps I (modify (put_mq o x)).
Proof. eapply keeps_put_mq; [apply sa_mq|done]. Qed.
Lemma at_put_mp x : keeps I (modify (put_mp o x)).
Proof. eapply keeps_put_mp; [apply sa_mp|done]. Qed.
Lemma at_head : keeps I (rt_ipc_object_init o).
Proof. apply sa_suspend. Qed.
Lemma at_detach a : a = AObj o \/ a = ATimer o -> keeps I (liftO (rt_object_detach a)).
Proof.
  intros Ha. unfold rt_object_detach. apply keeps_obj_seq.
  apply keeps_bind; [apply keeps_reads_obj; intros s0; keep|intros _]. apply keeps_obj_seq.
  apply keeps_bind; [by apply sa_reset|intros _; by apply sa_unlink].
Qed.
#[local] Hint Resolve at_head sa_suspend sa_sender sa_init sa_timer_init : keeps.

Lemma k_sem_init name v flag : keeps I (rt_sem_init o name v flag).
Proof. unfold rt_sem_init. skeep. Qed.
Lemma k_mutex_init name flag : keeps I (rt_mutex_init o name flag).
Proof. unfold rt_mutex_init. skeep. Qed.
Lemma k_event_init name flag : keeps I (rt_event_init o name flag).
Proof. unfold rt_event_init. skeep. Qed.
Lemma k_mb_init name pool size flag : keeps I (rt_mb_init o name pool size flag).
Proof.
  unfold rt_mb_init. do 3 (apply keeps_bind; [skeep|intros _]). apply keeps_bind; [apply at_put_mb|intros _]. skeep.
Qed.
Lemma k_mq_init name pool ms ps flag : keeps I (rt_mq_init o name pool ms ps flag).
Proof.
  unfold rt_mq_init. do 3 (apply keeps_bind; [skeep|intros _]). apply keeps_bind; [apply at_put_mq|intros _]. skeep.
Qed.
Lemma k_mp_init name start size bs : keeps I (rt_mp_init o name start size bs).
Proof.
  unfold rt_mp_init. do 2 (apply keeps_bind; [skeep|intros _]). cbv zeta. destruct (_ =? 0); [skeep|].
  apply keeps_bind; [apply at_put_mp|intros _]. skeep.
Qed.
Lemma k_thread_setup entry par ss sz prio tick : keeps I (_rt_thread_init o entry par ss sz prio tick).
Proof.
  unfold _rt_thread_init, rt_timer_init. do 3 (apply keeps_bind; [skeep|intros ?]).
  apply keeps_bind; [apply sa_thread|intros _]. do 2 (apply keeps_bind; [skeep|intros ?]); [|skeep].
  skeep. apply sa_set_timer.
Qed.
Lemma k_thread_init name entry par ss sz prio tick : keeps I (rt_thread_init o name entry par ss sz prio tick).
Proof. unfold rt_thread_init. skeep. apply k_thread_setup. Qed.

Lemma k_sem_detach : keeps I (rt_sem_detach o).
Proof. unfold rt_sem_detach. skeep. apply at_detach. by left. Qed.
Lemma k_mutex_detach : keeps I (rt_mutex_detach o).
Proof. unfold rt_mutex_detach. skeep. apply at_detach. by left. Qed.
Lemma k_event_detach : keeps I (rt_event_detach o).
Proof. unfold rt_event_detach. skeep. apply at_detach. by left. Qed.
Lemma k_mb_detach : keeps I (rt_mb_detach o).
Proof. unfold rt_mb_detach. skeep. apply at_detach. by left. Qed.
Lemma k_mq_detach : keeps I (rt_mq_detach o).
Proof. unfold rt_mq_detach. skeep. apply at_detach. by left. Qed.
Lemma k_mp_detach : keeps I (rt_mp_detach o).
Proof. unfold rt_mp_detach. skeep. apply at_detach. by left. Qed.
Lemma k_timer_detach a : a = AObj o \/ a = ATimer o -> keeps I (rt_timer_detach a).
Proof.
  intros Ha. unfold rt_timer_detach. do 3 (apply keeps_bind; [skeep|intros _]).
  apply keeps_bind; [by apply sa_remove|intros _]. skeep. by apply at_detach.
Qed.

(** Terminating the thread [o]. *)
Lemma k_unschedule t : keeps I (thread_unschedule t).
Proof. unfold thread_unschedule. skeep. Qed.
#[local] Hint Resolve k_unschedule : keeps.
#[local] Hint Resolve sa_defunct : keeps.
Lemma k_thread_detach : keeps I (rt_thread_detach o).
Proof.
  unfold rt_thread_detach. do 4 (apply keeps_bind; [skeep|intros _]).
  apply keeps_bind; [apply k_timer_detach; by right|intros _]. apply keeps_bind; [skeep|intros _].
  apply keeps_bind; [apply at_detach; by left|skeep].
Qed.
Lemma k_thread_delete : keeps I (rt_thread_delete o).
Proof.
  unfold rt_thread_delete. do 4 (apply keeps_bind; [skeep|intros _]).
  apply keeps_bind; [apply k_timer_detach; by right|skeep].
Qed.

End At.

(** ** The clock interrupt *)

Class StableTick {CF : Config} {HP : Heap} (I : kstate -> Prop) := {
  sk_stable :: Stable I;
  sk_remove : forall a, keeps I (liftT (_rt_timer_remove a));
  sk_deactivate : forall a, keeps I (liftT (upd_timer a deactivate));
  sk_tick : forall t, keeps I (liftT (rt_tick_set t))
}.

Section Tick.
Context {CF : Config} {HP : Heap} {CO : ConfigOk CF} {I : kstate -> Prop} {SI : StableTick I}.
Variable user_timeout : Z -> Z -> K unit.
Hypothesis user_keeps : forall f par, keeps I (user_timeout f par).

Lemma k_call f par : keeps I (call_timeout user_timeout f par).
Proof. unfold call_timeout. destruct f; [apply k_timeout|apply user_keeps]. Qed.
Lemma k_expire a : keeps I (timer_expire user_timeout a).
Proof.
  unfold timer_expire. apply keeps_bind; [skeep|intros tm].
  apply keeps_bind; [apply sk_remove|intros _]. apply keeps_bind; [apply k_call|intros _].
  apply keeps_bind; [skeep|intros tm']. apply keeps_bind; [apply sk_deactivate|intros _]. skeep.
Qed.
#[local] Hint Resolve k_expire k_slice sk_tick : keeps.
Lemma k_check_loop fuel : forall tick, keeps I (timer_check_loop user_timeout fuel tick).
Proof. induction fuel; intros tick; cbn [timer_check_loop]; skeep. Qed.
#[local] Hint Resolve k_check_loop : keeps.
Lemma k_tick_increase fuel : keeps I (rt_tick_increase user_timeout fuel).
Proof. unfold rt_tick_increase, rt_timer_check. skeep. Qed.
End Tick.
