(* ===== verification/Frames.v ===== *)
(** * Invariants of the kernel calls

    Three properties every call keeps: the running timers stay in expiry order
    ([run_k]); the heap is only changed by allocating and freeing ([heap_is]);
    and nothing is created or destroyed outside a set [E] of addresses
    ([frame_but E]). *)

From S2P Require Import Prelude Scheduler ReadyBitmap SchedInv Object ObjInv Timer TimerInv Kernel Thread.
From S2P Require Import Clock Ipc Semaphore Mutex Event Mailbox MsgQueue MemPool Idle KernelInv ThreadInv.
From S2P Require Import Keeps Stable.

Section Frames.
Context `{CO : ConfigOk} {HP : Heap}.

(** ** Expiry order *)

Definition run_k (k : kstate) : Prop := timers_run (k_ts k).
Definition fit_k (k : kstate) : Prop := timers_fit (k_ts k).

Lemma on_ts_zoom {A} (J : tsys -> Prop) (m : M tsys A) :
  keeps J m -> keeps (fun k : kstate => J (k_ts k)) (liftT m).
Proof. intros H. by apply (keeps_zoom _ _ _ J). Qed.

#[export] Instance run_stable : Stable run_k.
Proof.
  refine {| known_mb := fun _ _ => True; known_mq := fun _ _ => True; known_mp := fun _ _ => True |}; try done.
  - intros a. apply on_ts_zoom, run_stop.
  - intros a. apply on_ts_zoom, run_start.
  - intros t time. apply on_ts_zoom, run_set_time.
Defined.

#[export] Instance run_stable_at o : StableAt run_k o.
Proof.
  refine {| sa_stable := run_stable |}; try done; intros; try (by apply keeps_any).
  - apply on_ts_zoom, run_init. by split.
  - apply on_ts_zoom, run_remove.
Defined.

Lemma run_timer_set p f par time flag : 0 < time -> time + 1 < RT_TICK_MAX / 2 ->
  keeps run_k (liftT (_rt_timer_init (AObj p) (FUser f) par time flag)).
Proof.
  intros H1 H2. apply on_ts_zoom, run_init. split; cbn; [lia|]. intros q _. split; [by eexists|done].
Qed.

(** What the clock interrupt asks of the timers it keeps. *)
Lemma fit_stop a : keeps timers_fit (timer_stop a).
Proof.
  unfold timer_stop. apply keeps_bind; [apply keeps_get_timer|intros tm]. destruct (negb _); [apply keeps_ret|].
  apply keeps_bind; [apply fit_remove|intros _]. apply keeps_bind; [apply fit_upd, fits_deactivate|keep].
Qed.
#[export] Instance fit_stable : Stable fit_k.
Proof.
  refine {| known_mb := fun _ _ => True; known_mq := fun _ _ => True; known_mp := fun _ _ => True |}; try done.
  - intros a. apply on_ts_zoom, fit_stop.
  - intros a. apply on_ts_zoom, fit_start.
  - intros t time. apply on_ts_zoom. unfold timer_control. rewrite Z.eqb_refl.
    apply keeps_bind; [apply keeps_get_timer|intros tm]. apply keeps_bind; [|keep].
    apply fit_upd. intros tm' [_ H2]. split; [cbn; apply u32_range|done].
Defined.
#[export] Instance fit_stable_tick : StableTick fit_k.
Proof.
  refine {| sk_stable := fit_stable |}; intros; apply on_ts_zoom;
    [apply fit_remove|apply fit_upd, fits_deactivate|by apply keeps_modify].
Defined.

(** ** The heap *)

Definition heap_is (h : heap) (k : kstate) : Prop := k_heap k = h.

#[export] Instance heap_stable h : Stable (heap_is h).
Proof.
  refine {| known_mb := fun _ _ => True; known_mq := fun _ _ => True; known_mp := fun _ _ => True |}; try done;
    intros; by apply keeps_any.
Defined.
#[export] Instance heap_stable_at h o : StableAt (heap_is h) o.
Proof. refine {| sa_stable := heap_stable h |}; try done; intros; by apply keeps_any. Defined.
#[export] Instance heap_stable_tick h : StableTick (heap_is h).
Proof. refine {| sk_stable := heap_stable h |}; intros; by apply keeps_any. Defined.

(** ** Nothing created or destroyed *)

(** What is at address [p] is the same in both states. *)
Record same_at (p : Z) (k0 k : kstate) : Prop := {
  sx_obj : os_objs (k_obj k) !! AObj p = os_objs (k_obj k0) !! AObj p;
  sx_tobj : os_objs (k_obj k) !! ATimer p = os_objs (k_obj k0) !! ATimer p;
  sx_linked : object_linked (AObj p) (k_obj k) = object_linked (AObj p) (k_obj k0);
  sx_tlinked : object_linked (ATimer p) (k_obj k) = object_linked (ATimer p) (k_obj k0);
  sx_stack : th_stack_addr <$> threads k !! p = th_stack_addr <$> threads k0 !! p;
  sx_timer : is_Some (timers k !! AObj p) <-> is_Some (timers k0 !! AObj p);
  sx_ttimer : is_Some (timers k !! ATimer p) <-> is_Some (timers k0 !! ATimer p);
  sx_suspend : head_exists k (HSuspend p) <-> head_exists k0 (HSuspend p);
  sx_sender : head_exists k (HSender p) <-> head_exists k0 (HSender p);
  sx_mb : mb_msg_pool <$> ip_mb (k_ipc k) !! p = mb_msg_pool <$> ip_mb (k_ipc k0) !! p;
  sx_mq : mq_msg_pool <$> ip_mq (k_ipc k) !! p = mq_msg_pool <$> ip_mq (k_ipc k0) !! p;
  sx_mp : mp_start_address <$> ip_mp (k_ipc k) !! p = mp_start_address <$> ip_mp (k_ipc k0) !! p;
  sx_defunct : p ∈ waiters k HDefunct -> p ∈ waiters k0 HDefunct
}.

Definition frame_but (E : gset Z) (k0 k : kstate) : Prop := forall p, p ∉ E -> same_at p k0 k.

Lemma same_at_refl p k : same_at p k k.
Proof. by split. Qed.
Lemma same_at_trans p k0 k1 k2 : same_at p k0 k1 -> same_at p k1 k2 -> same_at p k0 k2.
Proof. intros [] []. split; try congruence; try (etransitivity; eassumption); auto. Qed.
Lemma frame_refl E k : frame_but E k k.
Proof. intros p _. apply same_at_refl. Qed.
Lemma frame_trans E k0 k1 k2 : frame_but E k0 k1 -> frame_but E k1 k2 -> frame_but E k0 k2.
Proof. intros H1 H2 p Hp. by eapply same_at_trans; [apply H1|apply H2]. Qed.
Lemma frame_weaken E E' k0 k : frame_but E k0 k -> E ⊆ E' -> frame_but E' k0 k.
Proof. intros H HE p Hp. apply H. set_solver. Qed.

Lemma same_at_sched p k0 k s : same_at p k0 k -> same_shape (k_sched k) s -> same_at p k0 (put_sched s k).
Proof.
  intros Hs [H1 H2 H3]. apply (same_at_trans _ _ _ _ Hs).
  split; first [apply H1 | apply H2 | apply H3 | done].
Qed.
Lemma same_at_ts p k0 k s : same_at p k0 k -> same_timers (k_ts k) s -> same_at p k0 (put_ts s k).
Proof. intros Hs Ht. apply (same_at_trans _ _ _ _ Hs). split; try done; apply Ht. Qed.
Lemma same_at_ipc p k0 k i : same_at p k0 k -> ip_mb i = ip_mb (k_ipc k) -> ip_mq i = ip_mq (k_ipc k) ->
  ip_mp i = ip_mp (k_ipc k) -> same_at p k0 (put_ipc i k).
Proof. intros Hs E1 E2 E3. apply (same_at_trans _ _ _ _ Hs). split; try done; cbn; by rewrite ?E1, ?E2, ?E3. Qed.

Lemma keeps_frame_ts {A} E k0 (m : M tsys A) :
  (forall s0, keeps (same_timers s0) m) -> keeps (frame_but E k0) (liftT m).
Proof.
  intros Hm k a k' H Er. unfold liftT, zoom in Er. destruct (m (k_ts k)) as [b s|] eqn:Em; [|done].
  injection Er as <- <-. intros p Hp. apply same_at_ts; [by apply H|]. by eapply (Hm (k_ts k)); [|exact Em].
Qed.

Definition known {X} (E : gset Z) (f : X -> Z) (m : gmap Z X) (o b : Z) : Prop := o ∈ E \/ f <$> m !! o = Some b.

Lemma same_insert {X} (f : X -> Z) (m m0 : gmap Z X) o p x :
  f <$> m !! p = f <$> m0 !! p -> (p = o -> f <$> m0 !! o = Some (f x)) -> f <$> <[o := x]> m !! p = f <$> m0 !! p.
Proof.
  intros H Hx. destruct (decide (p = o)) as [->|]; [|by rewrite lookup_insert_ne].
  rewrite lookup_insert_eq, Hx by done. done.
Qed.

#[export] Instance frame_stable E k0 : Stable (frame_but E k0).
Proof.
  refine {| known_mb := known E mb_msg_pool (ip_mb (k_ipc k0)); known_mq := known E mq_msg_pool (ip_mq (k_ipc k0));
            known_mp := known E mp_start_address (ip_mp (k_ipc k0)) |}.
  - intros k s H Hs p Hp. by apply same_at_sched; [apply H|].
  - intros k i H E1 E2 E3 p Hp. by apply same_at_ipc; [apply H|..].
  - intros k e H p Hp. destruct (H p Hp). by split.
  - intros k o x H Hx. destruct (decide (o ∈ E)) as [|Ho]; [by left|]. right. by rewrite <- (sx_mb _ _ _ (H o Ho)), Hx.
  - intros k o x H Hx p Hp. destruct (H p Hp). split; try done. apply same_insert; [done|]. intros ->. by destruct Hx.
  - intros k o x H Hx. destruct (decide (o ∈ E)) as [|Ho]; [by left|]. right. by rewrite <- (sx_mq _ _ _ (H o Ho)), Hx.
  - intros k o x H Hx p Hp. destruct (H p Hp). split; try done. apply same_insert; [done|]. intros ->. by destruct Hx.
  - intros k o x H Hx. destruct (decide (o ∈ E)) as [|Ho]; [by left|]. right. by rewrite <- (sx_mp _ _ _ (H o Ho)), Hx.
  - intros k o x H Hx p Hp. destruct (H p Hp). split; try done. apply same_insert; [done|]. intros ->. by destruct Hx.
  - intros a. apply keeps_frame_ts. intros s0. apply same_stop.
  - intros a. apply keeps_frame_ts. intros s0. apply same_start.
  - intros t time. apply keeps_frame_ts. intros s0. apply same_control.
Defined.

#[export] Instance frame_stable_tick E k0 : StableTick (frame_but E k0).
Proof.
  refine {| sk_stable := frame_stable E k0 |}; intros; apply keeps_frame_ts; intros s0;
    [apply same_remove|apply same_upd|]. apply keeps_modify. done.
Defined.

(** *** Creating and destroying within [E] *)

(** The address of the structure an object belongs to. *)
Definition owner (a : addr) : Z := match a with AObj p | ATimer p => p end.

(** The objects outside [E] are the same. *)
Definition objs_but (E : gset Z) (s0 s : objsys) : Prop :=
  forall a, owner a ∉ E -> os_objs s !! a = os_objs s0 !! a /\ object_linked a s = object_linked a s0.

Section Objs.
Variables (E : gset Z) (s0 : objsys).
Abbreviation but := (keeps (objs_but E s0)).

Lemma but_put a ob : owner a ∈ E -> but (modify (put_object a ob)).
Proof.
  intros Ha. apply keeps_modify. intros s H b Hb. destruct (H b Hb) as [H1 H2]. split; [|done].
  cbn. rewrite lookup_insert_ne; [done|]. intros ->. done.
Qed.
Lemma but_reset a : owner a ∈ E -> but (object_reset a).
Proof. intros Ha. unfold object_reset. apply keeps_bind; [keep|intros ob]. by apply but_put. Qed.
Lemma but_unlink a : owner a ∈ E -> but (container_remove a).
Proof.
  intros Ha. unfold container_remove. apply keeps_modify. intros s H b Hb. destruct (H b Hb) as [H1 H2]. split; [done|].
  rewrite <- H2. apply linked_remove. intros ->. done.
Qed.
Lemma but_link i a : owner a ∈ E -> but (container_insert i a).
Proof.
  intros Ha. unfold container_insert. apply keeps_bind; [keep|intros s1]. destruct (object_linked a s1); [keep|].
  apply keeps_modify. intros s H b Hb. destruct (H b Hb) as [H1 H2]. split; [done|].
  rewrite <- H2. apply linked_insert. intros ->. done.
Qed.
Lemma but_init a c name : owner a ∈ E -> but (rt_object_init a c name).
Proof.
  intros Ha. unfold rt_object_init, rt_object_get_information. do 2 (apply keeps_bind; [keep|intros ?]).
  apply keeps_bind; [by apply but_put|intros _]. by apply but_link.
Qed.
Lemma but_attach a c name : owner a ∈ E -> but (object_attach a c name).
Proof.
  intros Ha. unfold object_attach, rt_object_get_information. apply keeps_bind; [keep|intros ?].
  apply keeps_bind; [by apply but_put|intros _]. by apply but_link.
Qed.
End Objs.

Lemma keeps_frame_obj {A} E k0 (m : M objsys A) :
  (forall s0, keeps (objs_but E s0) m) -> keeps (frame_but E k0) (liftO m).
Proof.
  intros Hm k a k' H Er. unfold liftO, zoom in Er. destruct (m (k_obj k)) as [b s|] eqn:Em; [|done].
  injection Er as <- <-. intros p Hp. apply (same_at_trans _ _ k); [by apply H|].
  assert (Hb : objs_but E (k_obj k) s) by (eapply (Hm (k_obj k)); [|exact Em]; done).
  destruct (Hb (AObj p) Hp), (Hb (ATimer p) Hp). by split.
Qed.

(** The scheduler's and the timers' structures outside [E] are the same. *)
Definition sched_but (E : gset Z) (s0 s : sched) : Prop :=
  forall p, p ∉ E ->
    th_stack_addr <$> sc_threads s !! p = th_stack_addr <$> sc_threads s0 !! p /\
    (is_Some (sc_lists s !! HSuspend p) <-> is_Some (sc_lists s0 !! HSuspend p)) /\
    (is_Some (sc_lists s !! HSender p) <-> is_Some (sc_lists s0 !! HSender p)) /\
    (p ∈ lget s HDefunct -> p ∈ lget s0 HDefunct).

Lemma keeps_frame_sched {A} E k0 (m : M sched A) :
  (forall s a s', m s = Ok a s' -> sched_but E s s') -> keeps (frame_but E k0) (liftS m).
Proof.
  intros Hm k a k' H Er. unfold liftS, zoom in Er. destruct (m (k_sched k)) as [b s|] eqn:Em; [|done].
  injection Er as <- <-. intros p Hp. apply (same_at_trans _ _ k); [by apply H|].
  destruct (Hm _ _ _ Em p Hp) as (H1 & H2 & H3 & H4). by split.
Qed.

Lemma but_thread E s o th : o ∈ E -> sched_but E s (put_thread o th s).
Proof. intros Ho p Hp. split; [|done]. cbn. rewrite lookup_insert_ne; [done|]. intros ->. done. Qed.
Lemma but_head E s h l : (exists o, o ∈ E /\ (h = HSuspend o \/ h = HSender o)) -> sched_but E s (put_list h l s).
Proof.
  intros (o & Ho & Hh) p Hp. assert (p <> o) by (intros ->; done). split; [done|].
  unfold lget. destruct Hh as [-> | ->]; cbn; by rewrite !lookup_insert_ne by congruence.
Qed.
Lemma but_defunct E s o l : o ∈ E -> lget s HDefunct = l -> sched_but E s (put_list HDefunct (o :: l) s).
Proof.
  intros Ho <- p Hp. split; [done|]. rewrite lget_put, decide_True by done.
  do 2 (split; [cbn; by rewrite lookup_insert_ne|]). intros [->|]%elem_of_cons; done.
Qed.

Lemma head_init_but E h s a s' : (exists o, o ∈ E /\ (h = HSuspend o \/ h = HSender o)) ->
  tlist_head_init h s = Ok a s' -> sched_but E s s'.
Proof.
  intros Hh Er. unfold tlist_head_init in Er. rewrite bind_getS in Er.
  assert (s' = put_list h [] s) as ->; [|by apply but_head].
  destruct (sc_lists s !! h) as [[|x l]|]; [by injection Er|done|by injection Er].
Qed.

Lemma timer_set_same E k0 o f par time flag a : o ∈ E -> owner a = o ->
  keeps (frame_but E k0) (liftT (_rt_timer_init a f par time flag)).
Proof.
  intros Ho Ha k u k' H Er. unfold liftT, zoom, _rt_timer_init in Er. rewrite bind_getS in Er.
  destruct (timer_linked a (k_ts k)); [done|]. injection Er as _ <-. intros p Hp. specialize (H p Hp).
  apply (same_at_trans _ _ k); [done|]. split; try done; unfold timers; cbn;
    (rewrite lookup_insert_ne; [done|]); intros ->; cbn in Ha; by subst.
Qed.

Lemma frame_stable_at E k0 o : o ∈ E -> StableAt (frame_but E k0) o.
Proof.
  intros Ho. refine {| sa_stable := frame_stable E k0 |}; try (by left); intros.
  - apply keeps_frame_obj. intros s0. by apply but_init.
  - apply keeps_frame_obj. intros s0. by apply but_init.
  - apply keeps_frame_obj. intros s0. apply but_reset. by destruct H as [-> | ->].
  - apply keeps_frame_obj. intros s0. apply but_unlink. by destruct H as [-> | ->].
  - apply keeps_frame_sched. intros s a s'. apply head_init_but. exists o. auto.
  - apply keeps_frame_sched. intros s a s'. apply head_init_but. exists o. auto.
  - apply keeps_frame_sched. intros s a s' Er. unfold tlist_insert_after, get_thread, get_list, mbind, M_bind, of_option in Er.
    destruct (sc_threads s !! o); [|done]. cbn in Er. destruct (sc_lists s !! HDefunct) as [l|] eqn:El; [|done]. cbn in Er.
    destruct (linked o s); [done|]. injection Er as _ <-. apply but_defunct; [done|]. unfold lget. by rewrite El.
  - apply keeps_frame_sched. intros s a s' [= _ <-]. by apply but_thread.
  - by apply (timer_set_same E k0 o).
  - apply keeps_frame_ts. intros s0. apply same_remove.
Defined.

End Frames.

(** * Creation and deletion keep the timers in order

    Memory is freed only when no timer in it is running, so creating and
    deleting objects keeps [run_k]. *)

Section DynKeeps.
Context `{CO : ConfigOk} {HP : Heap}.

Abbreviation kept_run := (keeps run_k).

Lemma r_liftO {A} (m : M objsys A) : kept_run (liftO m).
Proof. by apply keeps_any. Qed.
Lemma r_liftS {A} (m : M sched A) : kept_run (liftS m).
Proof. by apply keeps_any. Qed.
Lemma r_liftH {A} (m : M heap A) : kept_run (liftH m).
Proof. by apply keeps_any. Qed.
#[local] Hint Resolve r_liftO r_liftS r_liftH : keeps.

Lemma r_not_irq : kept_run RT_DEBUG_NOT_IN_INTERRUPT.
Proof. apply k_not_irq. Qed.
Lemma r_type a c : kept_run (assert_type a c).
Proof. apply k_type. Qed.
Lemma r_system a b : kept_run (assert_systemobject a b).
Proof. apply k_system. Qed.
Lemma r_resume_all h : kept_run (rt_ipc_list_resume_all h).
Proof. apply k_resume_all. Qed.
Lemma r_mp_wake mp : kept_run (mp_wake_all mp).
Proof. apply k_mp_wake_all. Qed.
Lemma r_blocks mp : kept_run (mp_blocks_init mp).
Proof. apply k_blocks_init. Qed.
Lemma r_remove a : kept_run (liftT (_rt_timer_remove a)).
Proof. apply on_ts_zoom, run_remove. Qed.
Lemma r_timer_init a f par time flag : timer_fits a (mk_timer (Z.land flag (Z.lnot RT_TIMER_FLAG_ACTIVATED)) f par time 0) ->
  kept_run (liftT (_rt_timer_init a f par time flag)).
Proof. intros Hf. by apply on_ts_zoom, run_init. Qed.
#[local] Hint Resolve r_not_irq r_type r_system r_resume_all r_mp_wake r_blocks r_remove : keeps.

Lemma r_malloc n : kept_run (RT_KERNEL_MALLOC n).
Proof. unfold RT_KERNEL_MALLOC. keep. Qed.

Lemma run_forget p s : timers_run s -> (AObj p ∉ last_row s) -> (ATimer p ∉ last_row s) -> timers_run (forget_ts p s).
Proof.
  intros Hs H1 H2. assert (Ha : forall a, a ∈ last_row s -> ts_timers (forget_ts p s) !! a = ts_timers s !! a).
  { intros a Ha. cbn. rewrite !lookup_delete_ne; [done|..]; by intros <-. }
  pose proof Hs as (Hw & Ho & Hf). apply (run_sub s); try done.
  - destruct Hw as [T1 T2 T3 T4]. split; [done|done|done|]. intros a Hin. rewrite Ha by done. by apply T4.
  - intros a tm Ht. apply Hf. cbn in Ht. apply lookup_delete_Some in Ht as [_ Ht]. by apply lookup_delete_Some in Ht as [_ Ht].
  - intros a Hin. unfold due. by rewrite Ha.
Qed.

Lemma r_free p : kept_run (RT_KERNEL_FREE p).
Proof.
  unfold RT_KERNEL_FREE. apply keeps_bind; [keep|intros _]. intros k a k' H E. rewrite bind_getS in E.
  destruct (negb (p =? RT_NULL)) eqn:Hp; cbn [andb when] in E.
  - destruct (in_use p k) eqn:Hu; [done|]. unfold mbind, M_bind in E.
    destruct (liftH (heap_free p) k) as [[] k1|] eqn:E1; [|done]. injection E as _ <-.
    unfold liftH, zoom in E1. destruct (heap_free p (k_heap k)) as [u h|]; [|done]. injection E1 as _ <-.
    unfold in_use in Hu. repeat apply orb_false_iff in Hu as [Hu ?].
    apply run_forget; [done|apply timer_linked_spec; [apply H|done]..].
  - apply (keeps_bind run_k (liftH (heap_free p)) (fun _ => mret tt) (r_liftH _) (fun _ => keeps_ret _ _) k a k' H E).
Qed.
#[local] Hint Resolve r_malloc r_free : keeps.

Lemma r_allocate c name : kept_run (rt_object_allocate c name).
Proof. unfold rt_object_allocate. keep. Qed.
Lemma r_object_delete p : kept_run (rt_object_delete p).
Proof. unfold rt_object_delete. keep. Qed.
Lemma r_object_init p : kept_run (rt_ipc_object_init p).
Proof. apply r_liftS. Qed.
#[local] Hint Resolve r_allocate r_object_delete r_object_init : keeps.

Lemma r_sem_create name v flag : kept_run (rt_sem_create name v flag).
Proof. unfold rt_sem_create. keep. Qed.
Lemma r_sem_delete o : kept_run (rt_sem_delete o).
Proof. unfold rt_sem_delete. keep. Qed.
Lemma r_mutex_create name flag : kept_run (rt_mutex_create name flag).
Proof. unfold rt_mutex_create. keep. Qed.
Lemma r_mutex_delete o : kept_run (rt_mutex_delete o).
Proof. unfold rt_mutex_delete. keep. Qed.
Lemma r_event_create name flag : kept_run (rt_event_create name flag).
Proof. unfold rt_event_create. keep. Qed.
Lemma r_event_delete o : kept_run (rt_event_delete o).
Proof. unfold rt_event_delete. keep. Qed.
Lemma r_mb_create name size flag : kept_run (rt_mb_create name size flag).
Proof. unfold rt_mb_create. keep. Qed.
Lemma r_mb_delete o : kept_run (rt_mb_delete o).
Proof. unfold rt_mb_delete. keep. Qed.
Lemma r_mq_delete o : kept_run (rt_mq_delete o).
Proof. unfold rt_mq_delete. keep. Qed.
#[local] Hint Resolve r_mq_delete : keeps.
Lemma r_mq_create name ms n flag : kept_run (rt_mq_create name ms n flag).
Proof. unfold rt_mq_create. keep. Qed.
Lemma r_mp_create name n bs : kept_run (rt_mp_create name n bs).
Proof. unfold rt_mp_create. keep. Qed.
Lemma r_mp_delete o : kept_run (rt_mp_delete o).
Proof. unfold rt_mp_delete. keep. Qed.
Lemma r_timer_create name f par time flag :
  (forall p, timer_fits (AObj p) (mk_timer (Z.land flag (Z.lnot RT_TIMER_FLAG_ACTIVATED)) f par time 0)) ->
  kept_run (rt_timer_create name f par time flag).
Proof. intros Hf. unfold rt_timer_create. keep. by apply r_timer_init. Qed.
Lemma r_timer_delete p : kept_run (rt_timer_delete p).
Proof. unfold rt_timer_delete. keep. Qed.
Lemma r_thread_create name entry par size prio tick : kept_run (rt_thread_create name entry par size prio tick).
Proof. unfold rt_thread_create. keep. apply k_thread_setup. Qed.
Lemma r_timer_detach t : kept_run (rt_timer_detach (ATimer t)).
Proof. apply (k_timer_detach (o := t)). by right. Qed.
Lemma r_user_timer_detach p : kept_run (rt_timer_detach (AObj p)).
Proof. apply (k_timer_detach (o := p)). by left. Qed.
#[local] Hint Resolve r_timer_detach : keeps.
Lemma r_thread_exit : kept_run rt_thread_exit.
Proof. unfold rt_thread_exit. keep. Qed.
Lemma r_idle_free t : kept_run (idle_free t).
Proof. unfold idle_free. keep. Qed.
Lemma r_idle_collect cleanup : (forall f t, kept_run (cleanup f t)) -> kept_run (idle_collect cleanup).
Proof. intros Hc. unfold idle_collect, _has_defunct_thread, first_waiter. keep. Qed.

End DynKeeps.
