(* ===== verification/Own.v ===== *)
(** * Who owns the memory of the heap

    [mwf k]: the kernel structures in the heap's memory are those of dynamic
    objects.  Every dynamic object is at a live address, the memory it has
    allocated for itself (a stack, a pool) is live, its own, and holds no
    kernel structure, and memory of the heap that is not live holds nothing.
    So an allocation returns an address where an object can be created, and a
    dynamic object can be freed. *)

From S2P Require Import Prelude Scheduler ReadyBitmap SchedInv Object ObjInv Timer TimerInv Kernel Thread Ipc.
From S2P Require Import KernelInv ThreadInv IpcInv BlockInv Boot Keeps Stable Frames.

Section Own.
Context `{CO : ConfigOk} {HP : Heap} {HO : HeapOk HP}.
Implicit Types (k : kstate).

Definition live k : gset Z := heap_live (k_heap k).

(** ** Nothing at an address *)

Record vacant k (p : Z) : Prop := {
  va_obj : os_objs (k_obj k) !! AObj p = None;
  va_tobj : os_objs (k_obj k) !! ATimer p = None;
  va_thread : threads k !! p = None;
  va_timer : timers k !! AObj p = None;
  va_ttimer : timers k !! ATimer p = None;
  va_suspend : ~ head_exists k (HSuspend p);
  va_sender : ~ head_exists k (HSender p)
}.

Lemma none_iff {A} (x y : option A) : (is_Some x <-> is_Some y) -> y = None -> x = None.
Proof. intros H ->. apply eq_None_not_Some. rewrite H. by intros [? ?]. Qed.
Lemma fmap_none_iff {A B} (f : A -> B) (x y : option A) : f <$> x = f <$> y -> y = None -> x = None.
Proof. intros H ->. by destruct x. Qed.

Lemma vacant_same k k' p : same_at p k k' -> vacant k p -> vacant k' p.
Proof.
  intros [S1 S2 _ _ S5 S6 S7 S8 S9 _ _ _ _] [V1 V2 V3 V4 V5 V6 V7]. split; [congruence|congruence|..].
  - by eapply fmap_none_iff.
  - by eapply none_iff.
  - by eapply none_iff.
  - by rewrite S8.
  - by rewrite S9.
Qed.

Lemma no_head k h : ~ head_exists k h -> waiters k h = [].
Proof. unfold head_exists, waiters, lget. intros H. by destruct (sc_lists (k_sched k) !! h) as [l|]; [destruct H; eexists|]. Qed.

Lemma headless_detached k a : owf (k_obj k) -> os_objs (k_obj k) !! a = None -> detached a (k_obj k).
Proof. intros Hw Ha inf Hi Hin. destruct (ow_member _ Hw inf a Hi Hin) as (ob & Ho & _). congruence. Qed.

Lemma vacant_fresh k p : kwf k -> vacant k p -> p <> RT_NULL -> fresh k p.
Proof.
  intros Hk [V1 V2 V3 V4 V5 V6 V7] Hp.
  assert (Hr : forall a, timers k !! a = None -> a ∉ running k).
  { intros a Ha Hin. destruct (tw_mem _ (kw_ts _ Hk) a Hin) as [tm Ht]. unfold timers in Ha. congruence. }
  split; [done|by apply headless_detached; [apply Hk|]|by apply headless_detached; [apply Hk|]|done
         |split; by apply Hr|split; by apply no_head].
Qed.

(** ** Objects that can be freed *)

(** Nothing in the kernel refers to [p] any more, except its container. *)
Record unused k (p : Z) : Prop := {
  un_linked : unlinked p (k_sched k);
  un_current : p <> sc_current (k_sched k);
  un_waiters : waiters k (HSuspend p) = [] /\ waiters k (HSender p) = [];
  un_running : (AObj p ∉ running k) /\ ATimer p ∉ running k;
  un_owner : forall o x, has_type k (AObj o) RT_Object_Class_Mutex -> ip_mutex (k_ipc k) !! o = Some x ->
    mutex_value x = 0 -> mutex_owner x <> p
}.

(** The structures at [p] have gone. *)
Record gone k (p : Z) (k' : kstate) : Prop := {
  go_sched : k_sched k' = forget_sched p (k_sched k);
  go_ts : k_ts k' = forget_ts p (k_ts k);
  go_objs : os_objs (k_obj k') = delete (AObj p) (delete (ATimer p) (os_objs (k_obj k)));
  go_owf : owf (k_obj k');
  go_linked : forall a, owner a <> p -> object_linked a (k_obj k') = object_linked a (k_obj k);
  go_ipc : k_ipc k' = forget_ipc p (k_ipc k);
  go_heap : heap_ok (k_heap k')
}.

Lemma gone_objs k p k' a : gone k p k' -> owner a <> p -> os_objs (k_obj k') !! a = os_objs (k_obj k) !! a.
Proof.
  intros Hg Ha. rewrite (go_objs _ _ _ Hg), !lookup_delete_ne; [done|..]; intros <-; by apply Ha.
Qed.
Lemma gone_type k p k' a c : gone k p k' -> owner a <> p -> has_type k' a c <-> has_type k a c.
Proof. intros Hg Ha. unfold has_type, o_has_type. by rewrite (gone_objs _ _ _ _ Hg). Qed.
Lemma gone_type_ne k p k' o c : gone k p k' -> has_type k' (AObj o) c -> o <> p.
Proof.
  intros Hg (ob & Ho & _) ->. by rewrite (go_objs _ _ _ Hg), lookup_delete_eq in Ho.
Qed.
Lemma gone_lists k p k' h : gone k p k' -> h <> HSuspend p -> h <> HSender p ->
  sc_lists (k_sched k') !! h = sc_lists (k_sched k) !! h.
Proof. intros Hg H1 H2. rewrite (go_sched _ _ _ Hg). cbn. by rewrite !lookup_delete_ne. Qed.

Lemma gone_vacant k p k' : gone k p k' -> vacant k' p.
Proof.
  intros [Gs Gt Go _ _ _ _]. split; unfold threads, timers, head_exists; rewrite ?Gs, ?Gt, ?Go; cbn.
  - apply lookup_delete_eq.
  - rewrite lookup_delete_ne by done. apply lookup_delete_eq.
  - apply lookup_delete_eq.
  - apply lookup_delete_eq.
  - rewrite lookup_delete_ne by done. apply lookup_delete_eq.
  - rewrite lookup_delete_eq. by intros [? ?].
  - rewrite lookup_delete_ne, lookup_delete_eq by done. by intros [? ?].
Qed.

Lemma gone_frame k p k' : gone k p k' -> frame_but {[p]} k k'.
Proof.
  intros Hg q Hq. assert (Hne : q <> p) by set_solver. pose proof Hg as [Gs Gt _ _ Gl Gi _].
  split; try (by apply (gone_objs _ _ _ _ Hg)); try (by apply Gl); unfold threads, timers, head_exists, waiters, lget;
    rewrite ?Gs, ?Gt, ?Gi; cbn; by rewrite !lookup_delete_ne by congruence.
Qed.

Section Gone.
Variables (k : kstate) (p : Z) (k' : kstate).
Hypotheses (Hk : kwf k) (Hu : unused k p) (Hg : gone k p k').

Lemma gone_waiters h : waiters k' h = waiters k h.
Proof.
  unfold waiters, lget. destruct (un_waiters _ _ Hu) as [W1 W2]. rewrite (go_sched _ _ _ Hg). cbn.
  destruct (decide (h = HSuspend p)) as [->|]; [rewrite lookup_delete_eq; by symmetry|].
  rewrite lookup_delete_ne by done.
  destruct (decide (h = HSender p)) as [->|]; [rewrite lookup_delete_eq; by symmetry|by rewrite lookup_delete_ne].
Qed.
Lemma gone_thread t : t <> p -> threads k' !! t = threads k !! t.
Proof. intros Ht. unfold threads. rewrite (go_sched _ _ _ Hg). cbn. by rewrite lookup_delete_ne. Qed.
Lemma gone_thread_inv t th : threads k' !! t = Some th -> t <> p /\ threads k !! t = Some th.
Proof.
  intros Ht. assert (t <> p); [|by rewrite <- gone_thread].
  intros ->. unfold threads in Ht. rewrite (go_sched _ _ _ Hg) in Ht. cbn in Ht. by rewrite lookup_delete_eq in Ht.
Qed.
Lemma gone_running : running k' = running k.
Proof. unfold running. by rewrite (go_ts _ _ _ Hg). Qed.
Lemma gone_timer a : owner a <> p -> timers k' !! a = timers k !! a.
Proof.
  intros Ha. unfold timers. rewrite (go_ts _ _ _ Hg). cbn. rewrite !lookup_delete_ne; [done|..]; intros <-; by apply Ha.
Qed.

Lemma gone_swf : swf ∅ (k_sched k').
Proof.
  pose proof (kw_sched _ Hk) as Hw. destruct Hu as [Hul Hcur [W1 W2] _ _].
  assert (El : forall h, lget (k_sched k') h = lget (k_sched k) h) by exact gone_waiters.
  assert (Et : forall h t, t ∈ lget (k_sched k) h -> t <> p) by (intros h t Hin ->; by apply (Hul h)).
  assert (Eg : sc_group (k_sched k') = sc_group (k_sched k) /\ sc_table (k_sched k') = sc_table (k_sched k) /\
    sc_current (k_sched k') = sc_current (k_sched k)) by (by rewrite (go_sched _ _ _ Hg)).
  destruct Eg as (Eg & Eb & Ec).
  split; unfold rdy; intros *; rewrite ?El, ?Ec; try apply Hw.
  - rewrite (gone_lists _ _ _ _ Hg) by done. apply Hw.
  - rewrite (gone_lists _ _ _ _ Hg) by done. apply Hw.
  - intros Hin. change (is_Some (threads k' !! t)). rewrite gone_thread by eauto. by apply Hw in Hin.
  - intros Hin Ht. apply gone_thread_inv in Ht as [_ Ht]. by apply (sw_stat _ _ Hw).
  - intros Hin Ht. apply gone_thread_inv in Ht as [_ Ht]. by apply (sw_ready _ _ Hw _ t).
  - intros Ht. apply gone_thread_inv in Ht as [_ Ht]. by apply (sw_queued _ _ Hw).
  - rewrite Eg, Eb. eapply bitmap_rep_ext; [apply Hw|]. intros q _. unfold ready_set, rdy. by rewrite El.
  - intros Ht. apply gone_thread_inv in Ht as [_ Ht]. by apply (sw_thread _ _ Hw).
  - intros Hc. change (is_Some (threads k' !! sc_current (k_sched k))). rewrite gone_thread by congruence. by apply Hw.
Qed.

Lemma gone_live t : t <> p -> thread_live k t -> thread_live k' t.
Proof.
  intros Ht [L1 L2 L3 (ob & L4 & L5)].
  split; [by apply (gone_type _ _ _ _ _ Hg)|by rewrite gone_timer|by apply (gone_type _ _ _ _ _ Hg)|].
  exists ob. by rewrite (gone_objs _ _ _ _ Hg).
Qed.

Lemma gone_mutex o x : has_type k (AObj o) RT_Object_Class_Mutex -> ip_mutex (k_ipc k) !! o = Some x ->
  mutex_ok k x -> mutex_ok k' x.
Proof.
  intros Ho Hx [M1 M2 M3]. split; [done|done|]. intros Hv. destruct (M3 Hv) as [[[th Ht] T2] Hp]. split; [|done].
  pose proof (un_owner _ _ Hu o x Ho Hx Hv) as Hne. split; [rewrite gone_thread by done; by eexists|].
  by apply (gone_type _ _ _ _ _ Hg).
Qed.

Lemma gone_ipc_ok : ipc_ok k'.
Proof.
  apply ipc_ok_at. intros o c Ho Hc. pose proof (gone_type_ne _ _ _ _ _ Hg Ho) as Hne.
  apply (gone_type _ _ _ _ _ Hg) in Ho; [|done].
  destruct (ipc_at_ok _ _ _ (kw_ipc _ Hk) Ho Hc) as [I1 I2 I3 I4 I5 I6].
  assert (Hh : forall h, (h = HSuspend o \/ h = HSender o) -> head_exists k h -> head_exists k' h).
  { intros h Hh. unfold head_exists. by rewrite (gone_lists _ _ _ _ Hg) by (destruct Hh as [-> | ->]; congruence). }
  split; rewrite ?gone_waiters, ?(go_ipc _ _ _ Hg); cbn; rewrite ?lookup_delete_ne by done; auto.
  - intros Ec. destruct (I3 Ec) as (x & Hx & Hm & Hw). exists x. split; [done|]. split; [|done].
    subst c. by eapply gone_mutex.
  - intros Ec. destruct (I5 Ec) as [? ?]. auto.
Qed.

Lemma kwf_gone : kwf k'.
Proof.
  destruct Hu as [Hul Hcur _ [R1 R2] _].
  split; try (by apply Hg); rewrite ?gone_running, ?(go_ts _ _ _ Hg).
  - apply gone_swf.
  - destruct (kw_ts _ Hk) as [T1 T2 T3 T4]. split; [done|done|done|]. intros a Ha. cbn.
    rewrite !lookup_delete_ne; [by apply T4|..]; intros <-; done.
  - apply Hk.
  - intros t th Ht Hs. apply gone_thread_inv in Ht as [Hne Ht]. apply gone_live; [done|]. by apply (kw_live _ Hk t th).
  - intros t. rewrite gone_waiters. intros Ht. apply (gone_type _ _ _ _ _ Hg); [|by apply (kw_defunct _ Hk)].
    cbn. intros ->. by apply (Hul HDefunct).
  - intros t Ht. assert (t <> p) by (intros ->; done). rewrite gone_thread by done.
    change (timers (mk_kstate _ _ _ _ _ _)) with (timers k').
    rewrite gone_timer by done. by apply (kw_ttimer _ Hk).
  - intros q Hq. apply (gone_type _ _ _ _ _ Hg); [|by apply (kw_utimer _ Hk)]. cbn. intros ->. done.
  - apply gone_ipc_ok.
Qed.
End Gone.

(** ** Ownership *)

(** [p] is a dynamic object with header [ob]. *)
Definition dynamic k (p : Z) (ob : rt_object) : Prop :=
  os_objs (k_obj k) !! AObj p = Some ob /\ is_static ob = false /\ object_linked (AObj p) (k_obj k) = true.

(** The memory an object of class [c] at [p] has allocated. *)
Definition buffer_at k (p c : Z) : option Z :=
  if c =? RT_Object_Class_Thread then th_stack_addr <$> threads k !! p
  else if c =? RT_Object_Class_MailBox then mb_msg_pool <$> ip_mb (k_ipc k) !! p
  else if c =? RT_Object_Class_MessageQueue then mq_msg_pool <$> ip_mq (k_ipc k) !! p
  else if c =? RT_Object_Class_MemPool then mp_start_address <$> ip_mp (k_ipc k) !! p
  else None.
Definition owns k (p b : Z) : Prop := exists ob, dynamic k p ob /\ buffer_at k p (type_of ob) = Some b.

(** The structures a dynamic object of class [c] does not have. *)
Record profile k (p c : Z) : Prop := {
  pf_thread : c <> RT_Object_Class_Thread -> threads k !! p = None /\ object_linked (ATimer p) (k_obj k) = false;
  pf_sender : c <> RT_Object_Class_MailBox -> ~ head_exists k (HSender p);
  pf_suspend : c = RT_Object_Class_Thread \/ c = RT_Object_Class_Timer -> ~ head_exists k (HSuspend p)
}.

Record mwf k : Prop := {
  mw_vacant : forall p, heap_area p -> p ∉ live k -> vacant k p;
  mw_dynamic : forall p ob, dynamic k p ob -> p ∈ live k /\ profile k p (type_of ob);
  mw_owns : forall p b, owns k p b -> b ∈ live k /\ vacant k b;
  mw_unique : forall p q b, owns k p b -> owns k q b -> p = q;
  mw_defunct : forall t, t ∈ waiters k HDefunct ->
    object_linked (AObj t) (k_obj k) = true /\ object_linked (ATimer t) (k_obj k) = false
}.

Lemma dynamic_same k k' p ob : same_at p k k' -> dynamic k' p ob <-> dynamic k p ob.
Proof. intros [S1 _ S3 _ _ _ _ _ _ _ _ _ _]. unfold dynamic. by rewrite S1, S3. Qed.
Lemma buffer_same k k' p c : same_at p k k' -> buffer_at k' p c = buffer_at k p c.
Proof. intros [_ _ _ _ S5 _ _ _ _ S10 S11 S12 _]. unfold buffer_at. by rewrite S5, S10, S11, S12. Qed.
Lemma owns_same k k' p b : same_at p k k' -> owns k' p b <-> owns k p b.
Proof.
  intros Hs. unfold owns. split; intros (ob & H1 & H2); exists ob.
  - by rewrite <- (dynamic_same k k'), <- (buffer_same k k').
  - by rewrite (dynamic_same k k'), (buffer_same k k').
Qed.
Lemma profile_same k k' p c : same_at p k k' -> profile k p c -> profile k' p c.
Proof.
  intros [_ _ _ S4 S5 _ _ S8 S9 _ _ _ _] [P1 P2 P3]. split; [|by rewrite S9|by rewrite S8].
  intros Hc. destruct (P1 Hc) as [P1a P1b]. split; [by eapply fmap_none_iff|congruence].
Qed.

Lemma vacant_free k p ob : vacant k p -> ~ dynamic k p ob.
Proof. intros [V1 _ _ _ _ _ _] [D1 _]. congruence. Qed.

Lemma vacant_owns k p b : vacant k p -> ~ owns k p b.
Proof. intros Hv (ob & Hd & _). by apply (vacant_free k p ob). Qed.

(** A step that creates or destroys only what is at [o], with the memory [bs]
    of its own. *)
Lemma mwf_step k k' o (bs : gset Z) :
  mwf k -> frame_but ({[o]} ∪ bs) k k' ->
  (forall p, p <> o -> p ∉ bs -> p ∈ live k' <-> p ∈ live k) ->
  (forall b, b ∈ bs -> b <> o /\ vacant k b /\ vacant k' b /\ (b ∉ waiters k' HDefunct) /\
     forall p, p <> o -> ~ owns k p b) ->
  (forall p, ~ owns k p o) ->
  (heap_area o -> o ∉ live k' -> vacant k' o) ->
  (forall ob, dynamic k' o ob -> o ∈ live k' /\ profile k' o (type_of ob)) ->
  (forall b, owns k' o b -> b ∈ bs /\ b ∈ live k') ->
  (o ∈ waiters k' HDefunct ->
    object_linked (AObj o) (k_obj k') = true /\ object_linked (ATimer o) (k_obj k') = false) ->
  mwf k'.
Proof.
  intros [M1 M2 M3 M4 M5] Hf Hl Hbs Ho Hv Hd Hb Hdf.
  assert (Hs : forall p, p <> o -> p ∉ bs -> same_at p k k') by (intros p Hp Hn; apply Hf; set_solver).
  assert (Hown : forall p b, p <> o -> owns k' p b -> owns k p b /\ (b ∈ live k') /\ vacant k' b /\ (b ∉ bs)).
  { intros p b Hp Hb'. assert (Hpb : p ∉ bs).
    { intros Hin. destruct (Hbs p Hin) as (_ & _ & Hvb & _). by apply (vacant_owns k' p b). }
    apply (owns_same k k' p b (Hs p Hp Hpb)) in Hb'. destruct (M3 p b Hb') as [Hb1 Hb2].
    assert (b <> o) by (intros ->; by apply (Ho p)).
    assert (b ∉ bs) by (intros Hin; destruct (Hbs b Hin) as (_ & _ & _ & _ & Hn); by apply (Hn p)).
    split; [done|]. split; [by apply Hl|]. split; [|done]. by apply (vacant_same k); [apply Hs|]. }
  split.
  - intros p Hp Hn. destruct (decide (p = o)) as [->|Hne]; [by apply Hv|].
    destruct (decide (p ∈ bs)) as [Hin|]; [by apply (Hbs p Hin)|].
    apply (vacant_same k); [by apply Hs|]. apply M1; [done|]. by rewrite <- Hl.
  - intros p ob Hp. destruct (decide (p = o)) as [->|Hne]; [by apply Hd|].
    assert (Hpb : p ∉ bs).
    { intros Hin. destruct (Hbs p Hin) as (_ & _ & Hvb & _). by apply (vacant_free k' p ob). }
    apply (dynamic_same k k' p ob (Hs p Hne Hpb)) in Hp. destruct (M2 p ob Hp) as [H1 H2].
    split; [by apply Hl|]. by apply (profile_same k); [apply Hs|].
  - intros p b Hp. destruct (decide (p = o)) as [->|Hne]; [|by destruct (Hown p b Hne Hp) as (_ & ? & ? & _)].
    destruct (Hb b Hp) as [H1 H2]. split; [done|]. by apply (Hbs b H1).
  - intros p q b Hp Hq. destruct (decide (p = o)) as [->|Hp']; destruct (decide (q = o)) as [->|Hq']; [done|..].
    + destruct (Hown q b Hq' Hq) as (_ & _ & _ & Hn). by destruct (Hb b Hp).
    + destruct (Hown p b Hp' Hp) as (_ & _ & _ & Hn). by destruct (Hb b Hq).
    + apply (M4 p q b); [by apply (Hown p b Hp')|by apply (Hown q b Hq')].
  - intros t Ht. destruct (decide (t = o)) as [->|Hne]; [by apply Hdf|].
    assert (Htb : t ∉ bs) by (intros Hin; by destruct (Hbs t Hin) as (_ & _ & _ & Hn & _)).
    destruct (Hs t Hne Htb) as [_ _ S3 S4 _ _ _ _ _ _ _ _ S13]. rewrite S3, S4. by apply M5, S13.
Qed.

(** A step that creates and destroys nothing. *)
Lemma mwf_frame k k' : mwf k -> frame_but ∅ k k' -> live k' = live k -> mwf k'.
Proof.
  intros [M1 M2 M3 M4 M5] Hf Hl. assert (Hs : forall p, same_at p k k') by (intros p; apply Hf; set_solver).
  split; rewrite ?Hl.
  - intros p Hp Hn. apply (vacant_same k); [done|]. by apply M1.
  - intros p ob Hp. apply (dynamic_same k k' p ob (Hs p)) in Hp. destruct (M2 p ob Hp).
    split; [done|]. by apply (profile_same k).
  - intros p b Hp. apply (owns_same k k' p b (Hs p)) in Hp. destruct (M3 p b Hp). split; [done|]. by apply (vacant_same k).
  - intros p q b Hp Hq. apply (M4 p q b); [by apply (owns_same k k' p b (Hs p))|by apply (owns_same k k' q b (Hs q))].
  - intros t Ht. destruct (Hs t) as [_ _ S3 S4 _ _ _ _ _ _ _ _ S13]. rewrite S3, S4. by apply M5, S13.
Qed.

End Own.
