(* ===== verification/Dynamic.v ===== *)
(** * Creating and deleting dynamic objects

    [rt_object_allocate] and [rt_object_delete] on a well-formed kernel whose
    heap is owned as [mwf] says, and from them the [create] and [delete]
    functions of the IPC objects and timers. *)

From S2P Require Import Prelude Scheduler ReadyBitmap SchedInv Object ObjInv Timer TimerInv Kernel Thread Ipc.
From S2P Require Import Semaphore Mutex Event KernelInv ThreadInv IpcInv BlockInv Boot Keeps Stable Frames Own.

Section Dynamic.
Context `{CO : ConfigOk} {HP : Heap} {HO : HeapOk HP}.
Implicit Types (k : kstate).

Definition irq0 k : Prop := sc_irq_nest (k_sched k) = 0.

(** ** Memory *)

Lemma pos_nonnull p : 0 < p -> p <> RT_NULL.
Proof. unfold RT_NULL. lia. Qed.
#[local] Hint Resolve pos_nonnull : core.

Lemma live_nonnull k p : heap_ok (k_heap k) -> p ∈ live k -> p <> RT_NULL.
Proof. intros Hh Hp. by apply pos_nonnull, (heap_live_area (k_heap k)). Qed.

Lemma kwf_heap k h : kwf k -> heap_ok h -> kwf (put_heap h k).
Proof.
  intros Hk Hh. split; try apply Hk; [done| |].
  - intros t th Ht Hs. destruct (kw_live _ Hk t th Ht Hs). by split.
  - apply (ipc_ok_frame k); [apply Hk|done|done|done|done|by intros o t].
Qed.

Lemma not_irq_run k : irq0 k -> RT_DEBUG_NOT_IN_INTERRUPT k = Ok tt k.
Proof.
  intros Hi. unfold RT_DEBUG_NOT_IN_INTERRUPT. rewrite (bind_ok _ _ _ _ _ (k_nest_run k)). unfold irq0 in Hi. by rewrite Hi.
Qed.
Lemma when_not_irq_run k b : irq0 k -> when b RT_DEBUG_NOT_IN_INTERRUPT k = Ok tt k.
Proof. intros Hi. destruct b; [by apply not_irq_run|done]. Qed.

(** What [heap_malloc] hands out: new memory, with nothing at its address. *)
Record granted k (p : Z) (h : heap) : Prop := {
  gr_ok : heap_ok h;
  gr_new : p ∉ live k;
  gr_area : heap_area p;
  gr_pos : 0 < p;
  gr_live : heap_live h = {[p]} ∪ live k
}.
Definition refused k (h : heap) : Prop := heap_ok h /\ heap_live h = live k.

Lemma kmalloc_run k n : heap_ok (k_heap k) -> irq0 k ->
  exists p h, RT_KERNEL_MALLOC n k = Ok p (put_heap h k) /\
    ((p = RT_NULL /\ refused k h) \/ granted k p h).
Proof.
  intros Hk Hi. destruct (heap_malloc_ok (k_heap k) n Hk) as (p & h & E & Hh & Hp).
  exists p, h. unfold RT_KERNEL_MALLOC. rewrite (bind_ok _ _ _ _ _ (when_not_irq_run _ _ Hi)).
  split; [unfold liftH, zoom; by rewrite E|].
  destruct Hp as [[-> Hl]|(Ha & Hn & H0 & Hl)]; [by left|right; by split].
Qed.

Lemma unused_in_use k p : twf (k_ts k) -> unused k p -> detached (AObj p) (k_obj k) -> detached (ATimer p) (k_obj k) ->
  in_use p k = false.
Proof.
  intros Hk [U1 U2 [U3 U4] [U5 U6] _] D1 D2. unfold in_use.
  assert (Ht : forall a, a ∉ running k -> timer_linked a (k_ts k) = false).
  { intros a Ha. unfold timer_linked. apply not_true_is_false. intros H. apply existsb_exists in H as (row & Hr & Hb).
    apply bool_decide_eq_true in Hb. apply list_elem_of_In in Hr. apply Ha.
    eapply elem_of_sublist; [done|]. by apply twf_row_sub. }
  rewrite (proj2 (linked_spec _ _) U1), !bool_decide_false, (Ht _ U5), (Ht _ U6) by (by intros H; apply H).
  apply detached_iff in D1, D2. by rewrite D1, D2.
Qed.

Lemma owf_forget s p : owf s -> detached (AObj p) s -> detached (ATimer p) s -> owf (forget_obj p s).
Proof.
  intros [O1 O2 O3 O4] D1 D2. split; [done|done| |].
  - intros inf a Hi Ha. destruct (O3 inf a Hi Ha) as (ob & Ho & Ht). exists ob. split; [|done]. cbn.
    rewrite !lookup_delete_ne; [done|..]; intros <-; [by apply (D2 inf)|by apply (D1 inf)].
  - cbn. destruct (decide (AObj p = AObj RT_NULL)) as [->|]; [apply lookup_delete_eq|].
    rewrite lookup_delete_ne by done. by rewrite lookup_delete_ne.
Qed.

(** Freeing a structure that is in no container. *)
Lemma kfree_run k p : twf (k_ts k) -> owf (k_obj k) -> heap_ok (k_heap k) -> irq0 k -> p ∈ live k -> unused k p ->
  detached (AObj p) (k_obj k) -> detached (ATimer p) (k_obj k) ->
  exists k', RT_KERNEL_FREE p k = Ok tt k' /\ gone k p k' /\ live k' = live k ∖ {[p]} /\ irq0 k'.
Proof.
  intros Hw Ho Hk Hi Hp Hu D1 D2. pose proof (live_nonnull k _ Hk Hp) as Hnn.
  destruct (heap_free_ok (k_heap k) p Hk) as (h & E & Hh & Hl); [by left|].
  exists (forget p (put_heap h k)). unfold RT_KERNEL_FREE. rewrite (proj2 (Z.eqb_neq p RT_NULL) Hnn). cbn [negb when].
  rewrite (bind_ok _ _ _ _ _ (not_irq_run _ Hi)), bind_getS, (unused_in_use k p Hw Hu D1 D2). cbn [andb].
  split; [|split; [|done]].
  - assert (Ef : liftH (heap_free p) k = Ok tt (put_heap h k)) by (unfold liftH, zoom; by rewrite E).
    by rewrite (bind_ok _ _ _ _ _ Ef).
  - split; try done. by apply owf_forget.
Qed.

(** The memory an object owns is freed. *)
Lemma vacant_unused k b : kwf k -> vacant k b -> b <> RT_NULL -> unused k b.
Proof.
  intros Hk Hv Hb. pose proof (vacant_fresh k b Hk Hv Hb) as Hf. pose proof Hf as [_ _ _ F4 F5 F6].
  split; [by apply fresh_unlinked| |done|done|].
  - intros ->. assert (Hs := sw_current _ _ (kw_sched _ Hk) Hb). unfold threads in F4. rewrite F4 in Hs. by destruct Hs.
  - intros o x Ho Hx Hv' <-. destruct (io_mutex _ (kw_ipc _ Hk) o Ho) as (_ & x' & Hx' & Hm & _).
    rewrite Hx in Hx'. injection Hx' as <-. destruct (mx_owner _ _ Hm Hv') as [[[th Ht] _] _]. congruence.
Qed.

Lemma buffer_free_run k b : kwf k -> irq0 k -> b ∈ live k -> vacant k b ->
  exists k', RT_KERNEL_FREE b k = Ok tt k' /\ kwf k' /\ gone k b k' /\ live k' = live k ∖ {[b]} /\ irq0 k'.
Proof.
  intros Hk Hi Hb Hv. pose proof (live_nonnull k _ (kw_heap _ Hk) Hb) as Hnn.
  pose proof (vacant_unused k b Hk Hv Hnn) as Hu. pose proof (vacant_fresh k b Hk Hv Hnn) as [_ F2 F3 _ _ _].
  destruct (kfree_run k b) as (k' & E & Hg & Hl & Hi'); [apply Hk|apply Hk|apply Hk|done..|]. exists k'.
  split; [done|]. split; [by apply (kwf_gone k b)|done].
Qed.

(** ** Deleting *)

Lemma object_delete_gone k p ob : twf (k_ts k) -> owf (k_obj k) -> heap_ok (k_heap k) -> irq0 k -> p ∈ live k ->
  unused k p -> os_objs (k_obj k) !! AObj p = Some ob -> is_static ob = false -> detached (ATimer p) (k_obj k) ->
  exists k', rt_object_delete p k = Ok tt k' /\ gone k p k' /\ live k' = live k ∖ {[p]} /\ irq0 k'.
Proof.
  intros Hw Hwo Hh Hi Hp Hu Ho Hst D2. pose proof (live_nonnull k _ Hh Hp) as Hnn.
  assert (Hn : AObj p <> AObj RT_NULL) by congruence.
  set (s1 := os_remove (AObj p) (put_object (AObj p) (mk_object (o_name ob) 0) (k_obj k))).
  assert (Hw1 : owf s1) by by apply owf_detach.
  assert (D2' : detached (ATimer p) s1).
  { apply detached_iff. unfold s1. rewrite linked_remove by done. by apply detached_iff in D2. }
  destruct (kfree_run (put_obj s1 k) p) as (k' & E & Hg & Hl & Hi'); try done.
  { destruct Hu as [U1 U2 U3 U4 U5]. split; try done. intros o x (ob' & Ho' & Ht') Hx Hv.
    destruct (decide (o = p)) as [->|Hne].
    - cbn in Ho'. rewrite lookup_insert_eq in Ho'. injection Ho' as <-. done.
    - apply (U5 o x); [|done|done]. exists ob'. cbn in Ho'. by rewrite lookup_insert_ne in Ho' by congruence. }
  { apply os_remove_detached. }
  exists k'. assert (Hg' : gone k p k').
  { destruct Hg as [G1 G2 G3 G4 G5 G6 G7]. split; try done.
    - rewrite G3. cbn. rewrite delete_insert_ne by done. by rewrite delete_insert_eq.
    - intros a Ha. rewrite G5 by done. unfold s1. cbn [k_obj put_obj]. rewrite linked_remove; [done|]. intros ->. by apply Ha. }
  split; [|done].
  unfold rt_object_delete. rewrite (proj2 (Z.eqb_neq p RT_NULL) Hnn), bind_assert by done.
  assert (Eo : liftO (get_object (AObj p)) k = Ok ob k).
  { erewrite liftO_run by by apply get_object_run. by rewrite put_obj_id. }
  rewrite (bind_ok _ _ _ _ _ Eo). unfold is_static in Hst. rewrite bind_assert by (by rewrite Hst).
  assert (Er : liftO (object_reset (AObj p)) k = Ok tt (put_obj (put_object (AObj p) (mk_object (o_name ob) 0) (k_obj k)) k)).
  { apply liftO_run. unfold object_reset. by rewrite (bind_ok _ _ _ _ _ (get_object_run _ _ _ Ho)). }
  by rewrite (bind_ok _ _ _ _ _ Er).
Qed.

Lemma object_delete_run k p ob : kwf k -> irq0 k -> p ∈ live k -> unused k p ->
  os_objs (k_obj k) !! AObj p = Some ob -> is_static ob = false -> detached (ATimer p) (k_obj k) ->
  exists k', rt_object_delete p k = Ok tt k' /\ kwf k' /\ gone k p k' /\ live k' = live k ∖ {[p]} /\ irq0 k'.
Proof.
  intros Hk Hi Hp Hu Ho Hst D2.
  destruct (object_delete_gone k p ob) as (k' & E & Hg & Hl & Hi'); [apply Hk|apply Hk|apply Hk|done..|].
  exists k'. split; [done|]. split; [by apply (kwf_gone k p)|done].
Qed.

(** *** Ownership after a deletion and a creation *)

Lemma vacant_not_defunct k p : kwf k -> vacant k p -> p ∉ waiters k HDefunct.
Proof.
  intros Hk Hv Hin. destruct (sw_member _ _ (kw_sched _ Hk) _ _ Hin) as [th Ht].
  pose proof (va_thread _ _ Hv). unfold threads in *. congruence.
Qed.

Lemma mwf_deleted k k' p ob (bs : gset Z) :
  mwf k -> kwf k' -> dynamic k p ob -> frame_but ({[p]} ∪ bs) k k' -> vacant k' p ->
  (forall b, b ∈ bs -> owns k p b /\ vacant k' b) -> (forall b, owns k p b -> b ∈ bs) ->
  live k' = live k ∖ ({[p]} ∪ bs) -> mwf k'.
Proof.
  intros Hm Hk' Hd Hf Hv Hbs Hob Hl. apply (mwf_step k k' p bs); try done.
  - intros q Hq Hn. rewrite Hl. set_solver.
  - intros b Hb. destruct (Hbs b Hb) as [Ho Hvb]. destruct (mw_owns _ Hm p b Ho) as [_ Hvk].
    split; [intros ->; by apply (vacant_free k p ob)|]. split; [done|]. split; [done|].
    split; [by apply vacant_not_defunct|]. intros q Hq Hqo. apply Hq. by apply (mw_unique _ Hm q p b).
  - intros q Hq. destruct (mw_owns _ Hm q p Hq) as [_ Hvk]. by apply (vacant_free k p ob).
  - intros ob' Hd'. by destruct (vacant_free k' p ob').
  - intros b Hb. by destruct (vacant_owns k' p b).
  - intros Hin. by destruct (vacant_not_defunct k' p Hk' Hv).
Qed.

Lemma mwf_created k k' p ob (bs : gset Z) :
  mwf k -> kwf k' -> (p ∉ live k) -> heap_area p ->
  (forall b, b ∈ bs -> b <> p /\ (b ∉ live k) /\ heap_area b /\ vacant k' b) ->
  frame_but ({[p]} ∪ bs) k k' -> live k' = {[p]} ∪ bs ∪ live k ->
  os_objs (k_obj k') !! AObj p = Some ob -> profile k' p (type_of ob) ->
  (forall b, buffer_at k' p (type_of ob) = Some b -> b ∈ bs) ->
  (p ∉ waiters k' HDefunct) -> mwf k'.
Proof.
  intros Hm Hk' Hp Ha Hbs Hf Hl Ho Hpf Hb Hdf. pose proof (mw_vacant _ Hm p Ha Hp) as Hv.
  apply (mwf_step k k' p bs); try done.
  - intros q Hq Hn. rewrite Hl. set_solver.
  - intros b Hin. destruct (Hbs b Hin) as (H1 & H2 & H3 & H4). split; [done|]. split; [by apply (mw_vacant _ Hm)|].
    split; [done|]. split; [by apply vacant_not_defunct|]. intros q _ Hq. by apply H2, (mw_owns _ Hm q b).
  - intros q Hq. by apply Hp, (mw_owns _ Hm q p).
  - intros _ Hn. destruct Hn. rewrite Hl. set_solver.
  - intros ob' (Ho' & _). rewrite Ho in Ho'. injection Ho' as <-. split; [rewrite Hl; set_solver|done].
  - intros b (ob' & (Ho' & _) & Eb). rewrite Ho in Ho'. injection Ho' as <-. split; [by apply Hb|rewrite Hl; set_solver].
Qed.

(** ** Allocating an object *)

Record allocated k (c : Z) (name : list Z) (p : Z) (h : heap) (s' : objsys) : Prop := {
  al_granted : granted k p h;
  al_run : rt_object_allocate c name k = Ok p (put_obj s' (put_heap h k));
  al_attached : attached (k_obj k) (AObj p) (mk_object (name_copy RT_NAME_MAX name) c) s';
  al_fresh : fresh (put_heap h k) p;
  al_kwf : kwf (put_heap h k)
}.

Lemma fresh_heap k h p : fresh k p -> fresh (put_heap h k) p.
Proof. intros []. by split. Qed.

Lemma allocate_run k c name : kwf k -> mwf k -> irq0 k -> c ∈ container_classes ->
  (exists h, rt_object_allocate c name k = Ok RT_NULL (put_heap h k) /\ refused k h) \/
  exists p h s', allocated k c name p h s'.
Proof.
  intros Hk Hm Hi Hc. destruct (kmalloc_run k (object_size c) (kw_heap _ Hk) Hi) as (p & h & E & Hp).
  assert (Hinf : exists i, get_information c (os_container (k_obj k)) = Some i).
  { rewrite <- (ow_classes _ (kw_obj _ Hk)) in Hc. by apply get_information_some. }
  destruct Hinf as [i Hi'].
  assert (Hrun : rt_object_allocate c name k =
    (if p =? RT_NULL then mret RT_NULL else liftO (object_attach (AObj p) c name);; mret p) (put_heap h k)).
  { unfold rt_object_allocate. rewrite (bind_ok _ _ _ _ _ (not_irq_run _ Hi)).
    assert (Eg : liftO (rt_object_get_information c) k = Ok (Some i) k).
    { erewrite liftO_run; [by rewrite put_obj_id|]. unfold rt_object_get_information, gets. by rewrite Hi'. }
    by rewrite (bind_ok _ _ _ _ _ Eg), bind_assert, (bind_ok _ _ _ _ _ E) by done. }
  destruct Hp as [[-> Hr]|Hg]; [left; exists h; by rewrite Hrun|right]. exists p, h. destruct Hg as [G1 G2 G3 G4 G5] eqn:EG.
  pose proof (mw_vacant _ Hm p G3 G2) as Hv. pose proof (pos_nonnull p G4) as Gn. pose proof (vacant_fresh k p Hk Hv Gn) as Hf.
  destruct (object_attach_run (k_obj k) (AObj p) c name) as (s' & Ea & Hat);
    [apply Hk|apply Hf|congruence|done|]. exists s'.
  split; [done| |done|by apply fresh_heap|by apply kwf_heap].
  rewrite Hrun, (proj2 (Z.eqb_neq p RT_NULL) Gn).
  by rewrite (bind_ok _ _ _ _ _ (liftO_run _ (put_heap h k) _ _ Ea)).
Qed.

(** ** Creating *)

(** The object [p] of class [c] has been created, with the memory [bs]. *)
Record created k (c p : Z) (bs : gset Z) (k' : kstate) : Prop := {
  cr_kwf : kwf k';
  cr_mwf : mwf k';
  cr_irq : irq0 k';
  cr_dynamic : exists ob, dynamic k' p ob /\ type_of ob = c;
  cr_new : (p ∉ live k) /\ p <> RT_NULL;
  cr_live : live k' = {[p]} ∪ bs ∪ live k;
  cr_frame : frame_but ({[p]} ∪ bs) k k'
}.
(** There was no memory, and nothing has changed but the heap's own state; [E]
    are addresses that have been in use in between. *)
Record not_created k (k' : kstate) : Prop := {
  nc_kwf : kwf k';
  nc_mwf : mwf k';
  nc_irq : irq0 k';
  nc_live : live k' = live k;
  nc_frame : exists E, frame_but E k k' /\ forall p, p ∈ E -> vacant k p /\ vacant k' p
}.
Definition creation k (c p : Z) (k' : kstate) : Prop :=
  (p = RT_NULL /\ not_created k k') \/ exists bs, created k c p bs k'.

Lemma frame_heap E k h : frame_but E k (put_heap h k).
Proof. intros p _. by split. Qed.

Lemma new_frame k o ob k' : obj_new k o ob k' -> frame_but {[o]} k k'.
Proof.
  intros [Ho Hts Hh Eth Hw Hhd Hhb Hwt Hag] p Hp. assert (Hne : p <> o) by set_solver.
  assert (Ha : forall a, owner a = p -> os_objs (k_obj k') !! a = os_objs (k_obj k) !! a /\
    object_linked a (k_obj k') = object_linked a (k_obj k)).
  { intros a Ha. assert (a <> AObj o) by (intros ->; by apply Hne).
    split; [|by apply Ho]. rewrite (at_objs _ _ _ _ Ho). by rewrite lookup_insert_ne. }
  assert (Ht : forall a, owner a = p -> timers k' !! a = timers k !! a).
  { intros a Ha'. unfold timers. destruct (in_ts _ _ _ _ (Build_obj_new _ _ _ _ Ho Hts Hh Eth Hw Hhd Hhb Hwt Hag)) as [-> | [tm ->]];
      [done|]. cbn. rewrite lookup_insert_ne; [done|]. intros <-. by apply Hne. }
  destruct (Hag p Hne) as (_ & _ & _ & A4 & A5 & A6).
  split; try (by apply Ha); rewrite ?Eth, ?A4, ?A5, ?A6, ?Ht, ?Hwt by done; try done.
  - split; [apply Hhb; congruence|apply Hhd].
  - split; [apply Hhb; congruence|apply Hhd].
Qed.

Lemma refused_not_created k h : kwf k -> mwf k -> irq0 k -> refused k h -> not_created k (put_heap h k).
Proof.
  intros Hk Hm Hi [Hh Hl]. split; [by apply kwf_heap| |done|done|exists ∅; split; [apply frame_heap|set_solver]].
  apply (mwf_frame k); [done|apply frame_heap|done].
Qed.

(** An object that is not a thread. *)
Lemma new_created k h p ob k' (bs : gset Z) :
  kwf k -> mwf k -> kwf k' -> irq0 k' -> (p ∉ live k) -> heap_area p -> p <> RT_NULL -> obj_new (put_heap h k) p ob k' ->
  is_static ob = false -> type_of ob <> RT_Object_Class_Thread ->
  (type_of ob <> RT_Object_Class_MailBox -> ~ head_exists k' (HSender p)) ->
  (type_of ob = RT_Object_Class_Timer -> ~ head_exists k' (HSuspend p)) ->
  (forall b, b ∈ bs -> b <> p /\ (b ∉ live k) /\ heap_area b) ->
  live k' = {[p]} ∪ bs ∪ live k -> (forall b, buffer_at k' p (type_of ob) = Some b -> b ∈ bs) ->
  created k (type_of ob) p bs k'.
Proof.
  intros Hk Hm Hk' Hi Hp Ha Hnn Hn Hst Hc Hse Hsu Hbs Hl Hb. pose proof (in_obj _ _ _ _ Hn) as Hat.
  pose proof (mw_vacant _ Hm p Ha Hp) as Hv.
  assert (Hf : frame_but {[p]} k k') by (eapply frame_trans; [apply (frame_heap _ k h)|by eapply new_frame]).
  assert (Ho : os_objs (k_obj k') !! AObj p = Some ob) by (rewrite (at_objs _ _ _ _ Hat); apply lookup_insert_eq).
  assert (Hth : threads k' !! p = None) by (rewrite (in_threads _ _ _ _ Hn); apply Hv).
  split; try done.
  - apply (mwf_created k k' p ob bs); try done.
    + intros b Hin. destruct (Hbs b Hin) as (H1 & H2 & H3). split; [done|]. split; [done|]. split; [done|].
      apply (vacant_same k); [apply Hf; set_solver|by apply (mw_vacant _ Hm)].
    + eapply frame_weaken; [done|set_solver].
    + split; [|done|intros [?|?]; auto]. intros _. split; [done|]. rewrite (at_others _ _ _ _ Hat) by done.
      apply (detached_iff (ATimer p) (k_obj k)), headless_detached; [apply Hk|apply Hv].
    + intros Hin. destruct (sw_member _ _ (kw_sched _ Hk') _ _ Hin) as [th Ht]. unfold threads in Hth. congruence.
  - exists ob. split; [|done]. split; [done|]. split; [done|apply Hat].
  - eapply frame_weaken; [done|set_solver].
Qed.

(** The tail of a creation in src/ipc.c: the record is stored with [g]. *)
Section IpcCreate.
Variables (k : kstate) (c : Z) (name : list Z) (g : Z -> ipcs -> ipcs).
Hypotheses (Hk : kwf k) (Hm : mwf k) (Hi : irq0 k)
  (Hc : c = RT_Object_Class_Semaphore \/ c = RT_Object_Class_Mutex \/ c = RT_Object_Class_Event)
  (Hag : forall p i, ipc_agree p i (g p i))
  (Hat : forall k0 p, head_exists k0 (HSuspend p) -> waiters k0 (HSuspend p) = [] -> ipc_at (put_ipc (g p (k_ipc k0)) k0) p c).

Lemma ipc_create_run :
  exists p k', (o ← rt_object_allocate c name;
    if o =? RT_NULL then mret o
    else rt_ipc_object_init o;; modify (fun k => put_ipc (g o (k_ipc k)) k);; mret o) k = Ok p k' /\
    creation k c p k' /\ (p <> RT_NULL -> k_ipc k' = g p (k_ipc k)).
Proof.
  assert (Hcl : c ∈ container_classes) by (destruct Hc as [-> | [-> | ->]]; class_mem).
  destruct (allocate_run k c name Hk Hm Hi Hcl) as [(h & E & Hr)|(p & h & s' & Hal)].
  { exists RT_NULL, (put_heap h k). split; [by rewrite (bind_ok _ _ _ _ _ E)|]. split; [|done].
    left. split; [done|by apply refused_not_created]. }
  destruct Hal as [[G1 G2 G3 G4 G5] Er Ha Hf Hkh]. pose proof (pos_nonnull p G4) as Gn. set (ob := mk_object _ _) in *.
  destruct (dynamic_type (name_copy RT_NAME_MAX name) c Hcl) as [T1 T2]. fold ob in T1, T2.
  destruct (ipc_attached_run (put_heap h k) p ob s' Hkh Hf Ha) as (E2 & Hh & Ho & Hn).
  set (k1 := k_link _ _ _) in *. destruct (Hn (g p (k_ipc k)) (Hag p (k_ipc k))) as [Hnew Hw].
  exists p, (put_ipc (g p (k_ipc k)) k1).
  split; [|split; [right; exists ∅; rewrite <- T1|done]].
  - rewrite (bind_ok _ _ _ _ _ Er), (proj2 (Z.eqb_neq p RT_NULL) Gn). by rewrite (bind_ok _ _ _ _ _ E2).
  - pose proof (mw_vacant _ Hm p G3 G2) as Hv. apply (new_created k h p ob); try done.
    + apply (kwf_new_obj _ p ob _ Hkh Hf Hnew). intros _. rewrite T1. by apply (Hat k1 p).
    + rewrite T1. by destruct Hc as [-> | [-> | ->]].
    + intros _. unfold head_exists. cbn. rewrite lookup_insert_ne by done. apply Hv.
    + rewrite T1. by destruct Hc as [-> | [-> | ->]].
    + change (heap_live h = {[p]} ∪ ∅ ∪ live k). rewrite G5. set_solver.
    + rewrite T1. by destruct Hc as [-> | [-> | ->]].
Qed.
End IpcCreate.

Lemma sem_create_run k name v flag : kwf k -> mwf k -> irq0 k ->
  exists p k', rt_sem_create name v flag k = Ok p k' /\ creation k RT_Object_Class_Semaphore p k' /\
    (p <> RT_NULL -> ip_sem (k_ipc k') !! p = Some (mk_sem flag (u16 v))).
Proof.
  intros Hk Hm Hi. unfold rt_sem_create. rewrite (bind_ok _ _ _ _ _ (not_irq_run _ Hi)).
  destruct (ipc_create_run k RT_Object_Class_Semaphore name
    (fun o i => {| i with ip_sem := <[o := mk_sem flag (u16 v)]> (ip_sem i) |})) as (p & k' & E & Hcr & Hrec); auto.
  - intros p i x Hx. cbn. by rewrite lookup_insert_ne.
  - intros k0 p Hh Hw. split; try done. intros _. eexists. split; [apply lookup_insert_eq|].
    split; [apply u16_range|done].
  - exists p, k'. split; [exact E|]. split; [done|]. intros Hp. rewrite (Hrec Hp). apply lookup_insert_eq.
Qed.

Lemma mutex_create_run k name flag : kwf k -> mwf k -> irq0 k ->
  exists p k', rt_mutex_create name flag k = Ok p k' /\ creation k RT_Object_Class_Mutex p k' /\
    (p <> RT_NULL -> ip_mutex (k_ipc k') !! p = Some (new_mutex flag)).
Proof.
  intros Hk Hm Hi. unfold rt_mutex_create. rewrite (bind_ok _ _ _ _ _ (not_irq_run _ Hi)).
  destruct (ipc_create_run k RT_Object_Class_Mutex name
    (fun o i => {| i with ip_mutex := <[o := new_mutex flag]> (ip_mutex i) |})) as (p & k' & E & Hcr & Hrec); auto.
  - intros p i x Hx. cbn. by rewrite lookup_insert_ne.
  - intros k0 p Hh Hw. split; try done. intros _. eexists. split; [apply lookup_insert_eq|].
    split; [|done]. split; [by right|done|done].
  - exists p, k'. split; [exact E|]. split; [done|]. intros Hp. rewrite (Hrec Hp). apply lookup_insert_eq.
Qed.

Lemma event_create_run k name flag : kwf k -> mwf k -> irq0 k ->
  exists p k', rt_event_create name flag k = Ok p k' /\ creation k RT_Object_Class_Event p k' /\
    (p <> RT_NULL -> ip_event (k_ipc k') !! p = Some (mk_event flag 0)).
Proof.
  intros Hk Hm Hi. unfold rt_event_create. rewrite (bind_ok _ _ _ _ _ (not_irq_run _ Hi)).
  destruct (ipc_create_run k RT_Object_Class_Event name
    (fun o i => {| i with ip_event := <[o := mk_event flag 0]> (ip_event i) |})) as (p & k' & E & Hcr & Hrec); auto.
  - intros p i x Hx. cbn. by rewrite lookup_insert_ne.
  - intros k0 p Hh Hw. split; try done. intros _. eexists. apply lookup_insert_eq.
  - exists p, k'. split; [exact E|]. split; [done|]. intros Hp. rewrite (Hrec Hp). apply lookup_insert_eq.
Qed.

(** ** Deleting IPC objects *)

(** The object [p] and its memory [bs] are gone. *)
Record deleted k (p : Z) (bs : gset Z) (k' : kstate) : Prop := {
  de_kwf : kwf k';
  de_mwf : mwf k';
  de_irq : irq0 k';
  de_vacant : vacant k' p;
  de_live : live k' = live k ∖ ({[p]} ∪ bs);
  de_frame : frame_but ({[p]} ∪ bs) k k'
}.

Lemma dynamic_class k p ob c : dynamic k p ob -> type_of ob = c -> has_type k (AObj p) c.
Proof. intros [Ho _] Hc. by exists ob. Qed.

(** A dynamic object nobody waits for. *)
Lemma dynamic_unused k p ob : kwf k -> mwf k -> dynamic k p ob -> type_of ob <> RT_Object_Class_Thread ->
  (AObj p ∉ running k) -> waiters k (HSuspend p) = [] -> waiters k (HSender p) = [] ->
  unused k p /\ detached (ATimer p) (k_obj k) /\ p ∈ live k.
Proof.
  intros Hk Hm Hd Hc Hr W1 W2. destruct (mw_dynamic _ Hm p ob Hd) as [Hl [P1 P2 P3]]. destruct (P1 Hc) as [Ht Hd2].
  pose proof (live_nonnull k _ (kw_heap _ Hk) Hl) as Hnn.
  split; [|split; [by apply detached_iff|done]]. split; [| |done| |].
  - intros h Hin. destruct (sw_member _ _ (kw_sched _ Hk) _ _ Hin) as [th Hth]. unfold threads in Ht. congruence.
  - intros ->. assert (Hs := sw_current _ _ (kw_sched _ Hk) Hnn). unfold threads in Ht. rewrite Ht in Hs. by destruct Hs.
  - split; [done|]. intros Hin. destruct (kw_ttimer _ Hk p Hin) as (th & _ & Hth & _). congruence.
  - intros o x Ho Hx Hv <-. destruct (io_mutex _ (kw_ipc _ Hk) o Ho) as (_ & x' & Hx' & Hmx & _).
    rewrite Hx in Hx'. injection Hx' as <-. destruct (mx_owner _ _ Hmx Hv) as [[[th Hth] _] _]. congruence.
Qed.

Lemma not_timer k p ob : kwf k -> dynamic k p ob -> type_of ob <> RT_Object_Class_Timer -> AObj p ∉ running k.
Proof.
  intros Hk (Ho & _) Hc Hin. destruct (kw_utimer _ Hk p Hin) as (ob' & Ho' & Ht'). congruence.
Qed.

(** Waking the waiters creates and destroys nothing. *)
Lemma woken_mwf {A} (m : K A) k a k1 : mwf k -> m k = Ok a k1 ->
  (forall k0, keeps (frame_but ∅ k0) m) -> (forall h, keeps (heap_is h) m) ->
  mwf k1 /\ frame_but ∅ k k1 /\ live k1 = live k.
Proof.
  intros Hm E Hf Hh. assert (Hf1 : frame_but ∅ k k1) by (eapply (Hf k); [apply frame_refl|exact E]).
  assert (Hl : live k1 = live k).
  { unfold live. assert (Hh1 : heap_is (k_heap k) k1) by (eapply (Hh (k_heap k)); [done|exact E]). by rewrite Hh1. }
  split; [by apply (mwf_frame k)|done].
Qed.

Lemma dynamic_frame k k1 p ob : frame_but ∅ k k1 -> dynamic k p ob -> dynamic k1 p ob.
Proof. intros Hf. apply dynamic_same. apply Hf. set_solver. Qed.

Lemma deleted_after k k1 p bs k' : frame_but ∅ k k1 -> live k1 = live k -> deleted k1 p bs k' -> deleted k p bs k'.
Proof.
  intros Hf Hl [D1 D2 D3 D4 D5 D6]. split; try done; [by rewrite <- Hl|].
  eapply frame_trans; [|exact D6]. eapply frame_weaken; [done|set_solver].
Qed.

(** An object without memory of its own. *)
Lemma plain_delete_run k p ob : kwf k -> mwf k -> irq0 k -> dynamic k p ob -> type_of ob <> RT_Object_Class_Thread ->
  (AObj p ∉ running k) -> waiters k (HSuspend p) = [] -> waiters k (HSender p) = [] -> buffer_at k p (type_of ob) = None ->
  exists k', rt_object_delete p k = Ok tt k' /\ deleted k p ∅ k'.
Proof.
  intros Hk Hm Hi Hd Hc Hr W1 W2 Hb. destruct (dynamic_unused k p ob) as (Hu & D2 & Hl); [done..|].
  destruct (object_delete_run k p ob) as (k' & E & Hk' & Hg & Hl' & Hi'); [done..|apply Hd|apply Hd|done|].
  exists k'. split; [done|]. pose proof (gone_frame _ _ _ Hg) as Hf. pose proof (gone_vacant _ _ _ Hg) as Hv.
  assert (Hf' : frame_but ({[p]} ∪ ∅) k k') by (eapply frame_weaken; [done|set_solver]).
  assert (Hl2 : live k' = live k ∖ ({[p]} ∪ ∅)) by (rewrite Hl'; set_solver).
  split; try done. apply (mwf_deleted k k' p ob ∅); try done.
  intros b (ob' & (Ho & _) & Eb). destruct Hd as [Ho' _]. rewrite Ho in Ho'. injection Ho' as ->. congruence.
Qed.

Lemma ipc_delete_run k p ob : kwf k -> mwf k -> irq0 k -> dynamic k p ob ->
  type_of ob = RT_Object_Class_Semaphore \/ type_of ob = RT_Object_Class_Mutex \/ type_of ob = RT_Object_Class_Event ->
  exists k1 k', rt_ipc_list_resume_all (HSuspend p) k = Ok RT_EOK k1 /\ rt_object_delete p k1 = Ok tt k' /\
    deleted k p ∅ k'.
Proof.
  intros Hk Hm Hi Hd Hc. assert (Hty : has_type k (AObj p) (type_of ob)) by (exists ob; split; [apply Hd|done]).
  assert (Hh : head_exists k (HSuspend p)).
  { destruct (ipc_at_ok k p (type_of ob) (kw_ipc _ Hk) Hty) as [Hh _ _ _ _ _]; [|done].
    destruct Hc as [-> | [-> | ->]]; by split. }
  assert (Hc' : type_of ob <> RT_Object_Class_Thread /\ type_of ob <> RT_Object_Class_MailBox /\
    type_of ob <> RT_Object_Class_Timer) by (destruct Hc as [-> | [-> | ->]]; done).
  destruct Hc' as (N1 & N2 & N3). destruct (resume_all_run k (HSuspend p) Hk I Hh) as (k1 & E1 & Hk1 & Hra).
  destruct (woken_mwf (rt_ipc_list_resume_all (HSuspend p)) k RT_EOK k1 Hm E1) as (Hm1 & Hf1 & Hl1);
    [intros k0; apply k_resume_all|intros h; apply k_resume_all|].
  pose proof (dynamic_frame k k1 p ob Hf1 Hd) as Hd1.
  destruct (plain_delete_run k1 p ob) as (k' & E2 & Hdel); try done.
  - unfold irq0. by rewrite (wf_irq _ _ (ra_frame _ _ _ Hra)).
  - by apply (not_timer k1 p ob).
  - apply Hra.
  - apply no_head. by apply (pf_sender _ _ _ (proj2 (mw_dynamic _ Hm1 p ob Hd1))).
  - unfold buffer_at. destruct Hc as [-> | [-> | ->]]; done.
  - exists k1, k'. split; [done|]. split; [done|]. by eapply deleted_after.
Qed.

Lemma sem_delete_run k p ob : kwf k -> mwf k -> irq0 k -> dynamic k p ob -> type_of ob = RT_Object_Class_Semaphore ->
  exists k', rt_sem_delete p k = Ok RT_EOK k' /\ deleted k p ∅ k'.
Proof.
  intros Hk Hm Hi Hd Hc. destruct (ipc_delete_run k p ob) as (k1 & k' & E1 & E2 & Hdel); [auto..|]. exists k'. split; [|done].
  unfold rt_sem_delete. rewrite (bind_ok _ _ _ _ _ (not_irq_run _ Hi)), (check_run _ _ _ _ Hk (dynamic_class k p ob _ Hd Hc)).
  rewrite (bind_ok _ _ _ _ _ (assert_system_run k p ob false Hk (proj1 Hd) (proj1 (proj2 Hd)))).
  by rewrite (bind_ok _ _ _ _ _ E1), (bind_ok _ _ _ _ _ E2).
Qed.
Lemma mutex_delete_run k p ob : kwf k -> mwf k -> irq0 k -> dynamic k p ob -> type_of ob = RT_Object_Class_Mutex ->
  exists k', rt_mutex_delete p k = Ok RT_EOK k' /\ deleted k p ∅ k'.
Proof.
  intros Hk Hm Hi Hd Hc. destruct (ipc_delete_run k p ob) as (k1 & k' & E1 & E2 & Hdel); [auto..|]. exists k'. split; [|done].
  unfold rt_mutex_delete. rewrite (bind_ok _ _ _ _ _ (not_irq_run _ Hi)), (check_run _ _ _ _ Hk (dynamic_class k p ob _ Hd Hc)).
  rewrite (bind_ok _ _ _ _ _ (assert_system_run k p ob false Hk (proj1 Hd) (proj1 (proj2 Hd)))).
  by rewrite (bind_ok _ _ _ _ _ E1), (bind_ok _ _ _ _ _ E2).
Qed.
Lemma event_delete_run k p ob : kwf k -> mwf k -> irq0 k -> dynamic k p ob -> type_of ob = RT_Object_Class_Event ->
  exists k', rt_event_delete p k = Ok RT_EOK k' /\ deleted k p ∅ k'.
Proof.
  intros Hk Hm Hi Hd Hc. destruct (ipc_delete_run k p ob) as (k1 & k' & E1 & E2 & Hdel); [auto..|]. exists k'. split; [|done].
  unfold rt_event_delete. rewrite (check_run _ _ _ _ Hk (dynamic_class k p ob _ Hd Hc)).
  rewrite (bind_ok _ _ _ _ _ (assert_system_run k p ob false Hk (proj1 Hd) (proj1 (proj2 Hd)))).
  by rewrite (bind_ok _ _ _ _ _ (not_irq_run _ Hi)), (bind_ok _ _ _ _ _ E1), (bind_ok _ _ _ _ _ E2).
Qed.

End Dynamic.
