(* ===== verification/DynPool.v ===== *)
(** * Dynamic objects with memory of their own

    Mailboxes, message queues and memory pools allocate a pool besides their
    own structure.  When there is no memory for the pool the object is deleted
    again, and deleting an object frees its pool first. *)

From S2P Require Import Prelude Scheduler ReadyBitmap SchedInv Object ObjInv Timer TimerInv Kernel Thread Ipc.
From S2P Require Import Mailbox MsgQueue MemPool KernelInv ThreadInv IpcInv BlockInv Boot MailboxSpec MqInv MqSpec.
From S2P Require Import MpSpec Keeps Stable Frames Own Dynamic.

Section Pool.
Context `{CO : ConfigOk} {HP : Heap} {HO : HeapOk HP}.
Implicit Types (k : kstate).

(** ** Giving up a creation *)

(** The creation of [p] has begun in [k] and led to [kx]. *)
Record begun k (p : Z) (ob : rt_object) (kx : kstate) : Prop := {
  bg_sched : forget_sched p (k_sched kx) = forget_sched p (k_sched k);
  bg_ts : k_ts kx = k_ts k;
  bg_obj : attached (k_obj k) (AObj p) ob (k_obj kx);
  bg_ipc : forget_ipc p (k_ipc kx) = forget_ipc p (k_ipc k);
  bg_heap : heap_ok (k_heap kx);
  bg_live : live kx = {[p]} ∪ live k;
  bg_unused : unused kx p;
  bg_irq : irq0 kx
}.

Lemma undo_run k p ob kx : kwf k -> mwf k -> (p ∉ live k) -> heap_area p -> 0 < p -> is_static ob = false ->
  begun k p ob kx -> exists k', rt_object_delete p kx = Ok tt k' /\ not_created k k'.
Proof.
  intros Hk Hm Hp Ha Hpos Hst [B1 B2 B3 B4 B5 B6 B7 B8]. pose proof (mw_vacant _ Hm p Ha Hp) as Hv.
  assert (D2 : detached (ATimer p) (k_obj kx)) by (apply B3; [done|apply headless_detached; [apply Hk|apply Hv]]).
  destruct (object_delete_gone kx p ob) as (k' & E & [G1 G2 G3 G4 G5 G6 G7] & Hl & Hi); try done.
  { rewrite B2. apply Hk. }
  { apply B3. }
  { rewrite B6. set_solver. }
  { rewrite (at_objs _ _ _ _ B3). apply lookup_insert_eq. }
  assert (Hg : gone k p k').
  { split; [congruence|congruence| |done| |congruence|done].
    - rewrite G3, (at_objs _ _ _ _ B3), delete_insert_ne by done. by rewrite delete_insert_eq.
    - intros a Ha'. rewrite G5 by done. apply B3. intros ->. by apply Ha'. }
  assert (Hl' : live k' = live k) by (rewrite Hl, B6; set_solver).
  assert (Hk' : kwf k') by (apply (kwf_gone k p); [done|by apply vacant_unused; [..|apply pos_nonnull]|done]).
  pose proof (gone_vacant _ _ _ Hg) as Hv'. exists k'. split; [done|]. split; [done| |done|done|].
  - apply (mwf_step k k' p ∅); try done.
    + eapply frame_weaken; [by apply gone_frame|set_solver].
    + intros q _ _. by rewrite Hl'.
    + intros q Hq. by apply Hp, (mw_owns _ Hm q p).
    + intros ob' Hd. by destruct (vacant_free k' p ob').
    + intros b Hb. by destruct (vacant_owns k' p b).
    + intros Hin. by destruct (vacant_not_defunct k' p Hk' Hv').
  - exists {[p]}. split; [by apply gone_frame|]. intros q ->%elem_of_singleton. done.
Qed.

Lemma begun_unused k p ob kx : kwf k -> vacant k p -> p <> RT_NULL -> (forall h, waiters kx h = waiters k h) ->
  sc_current (k_sched kx) = sc_current (k_sched k) -> k_ts kx = k_ts k -> attached (k_obj k) (AObj p) ob (k_obj kx) ->
  type_of ob <> RT_Object_Class_Mutex -> ip_mutex (k_ipc kx) = ip_mutex (k_ipc k) -> unused kx p.
Proof.
  intros Hk Hv Hp Hw Hc Ht Ha Hty Hi. destruct (vacant_unused k p Hk Hv Hp) as [U1 U2 U3 U4 U5]. split.
  - intros h. change (p ∉ waiters kx h). rewrite Hw. apply U1.
  - by rewrite Hc.
  - by rewrite !Hw.
  - unfold running. rewrite Ht. apply U4.
  - intros o x (ob' & Ho & Ht') Hx. rewrite Hi in Hx. apply (U5 o x); [|done].
    rewrite (at_objs _ _ _ _ Ha) in Ho. destruct (decide (o = p)) as [->|].
    + rewrite lookup_insert_eq in Ho. injection Ho as <-. done.
    + rewrite lookup_insert_ne in Ho by congruence. by exists ob'.
Qed.

Lemma forget_suspend p l s : forget_sched p (put_list (HSuspend p) l s) = forget_sched p s.
Proof. unfold forget_sched. cbn. f_equal. rewrite delete_insert_ne by done. by rewrite delete_insert_eq. Qed.

(** The two states in which the creation of an object with a pool is given up. *)
Lemma allocated_begun k c name p h s' h2 : kwf k -> mwf k -> irq0 k -> c <> RT_Object_Class_Mutex ->
  c ∈ container_classes -> allocated k c name p h s' -> heap_ok h2 -> heap_live h2 = {[p]} ∪ live k ->
  let ob := mk_object (name_copy RT_NAME_MAX name) c in
  begun k p ob (put_heap h2 (put_obj s' k)) /\ begun k p ob (k_link (HSuspend p) [] (put_heap h2 (put_obj s' k))).
Proof.
  intros Hk Hm Hi Hc Hcl [[G1 G2 G3 G4 G5] Er Ha Hf _] Hh Hl ob. pose proof (mw_vacant _ Hm p G3 G2) as Hv.
  destruct (dynamic_type (name_copy RT_NAME_MAX name) c Hcl) as [T1 T2]. fold ob in T1, T2, Ha.
  pose proof (pos_nonnull p G4) as Gn. assert (W : waiters k (HSuspend p) = []) by apply no_head, Hv.
  split; split; try done.
  - by apply (begun_unused k p ob); rewrite ?T1.
  - apply forget_suspend.
  - apply (begun_unused k p ob); try done; [|by rewrite T1]. intros h0. unfold waiters. cbn. rewrite lget_put.
    by destruct (decide (h0 = HSuspend p)) as [->|].
Qed.

(** The memory for the pool. *)
Lemma pool_malloc_run k p kx n : live kx = {[p]} ∪ live k -> heap_ok (k_heap kx) -> irq0 kx ->
  exists b h2, RT_KERNEL_MALLOC n kx = Ok b (put_heap h2 kx) /\ heap_ok h2 /\
    ((b = RT_NULL /\ heap_live h2 = {[p]} ∪ live k) \/
     (0 < b /\ b <> p /\ (b ∉ live k) /\ heap_area b /\ heap_live h2 = {[p]} ∪ {[b]} ∪ live k)).
Proof.
  intros Hl Hh Hi. destruct (kmalloc_run kx n Hh Hi) as (b & h2 & E & Hb). exists b, h2. split; [done|].
  destruct Hb as [[-> [Hh2 Hl2]]|[G1 G2 G3 G4 G5]].
  - split; [done|]. left. by rewrite Hl2, Hl.
  - split; [done|]. right. rewrite Hl in G2, G5. split; [done|]. split; [set_solver|]. split; [set_solver|].
    split; [done|]. rewrite G5. set_solver.
Qed.

(** ** Deleting an object with a pool *)

Lemma unused_gone k b k' p : kwf k -> unused k b -> gone k b k' -> unused k p -> p <> b -> unused k' p.
Proof.
  intros Hk Hub Hg [U1 U2 U3 U4 U5] Hne. split.
  - intros h. change (p ∉ waiters k' h). rewrite (gone_waiters k b k' Hub Hg). apply U1.
  - rewrite (go_sched _ _ _ Hg). apply U2.
  - rewrite !(gone_waiters k b k' Hub Hg). done.
  - by rewrite (gone_running k b k' Hg).
  - intros o x Ho Hx Hv. pose proof (gone_type_ne _ _ _ _ _ Hg Ho) as Hob.
    apply (U5 o x); [|by rewrite (go_ipc _ _ _ Hg) in Hx; cbn in Hx; rewrite lookup_delete_ne in Hx|done].
    by apply (gone_type _ _ _ _ _ Hg) in Ho.
Qed.

Lemma put_words_id k : put_words (ip_words (k_ipc k)) k = k.
Proof. by destruct k as [? ? ? []]. Qed.

Lemma frame_words E k w : frame_but E k (put_words w k).
Proof. intros p _. by split. Qed.

Lemma owned_delete_run k p ob b : kwf k -> mwf k -> irq0 k -> dynamic k p ob -> unused k p ->
  detached (ATimer p) (k_obj k) -> buffer_at k p (type_of ob) = Some b ->
  exists k2, RT_KERNEL_FREE b k = Ok tt k2 /\
    forall w, exists k', rt_object_delete p (put_words w k2) = Ok tt k' /\ deleted k p {[b]} k' /\ vacant k' b /\
      k_sched k' = forget_sched p (forget_sched b (k_sched k)) /\
      ip_mutex (k_ipc k') = delete p (delete b (ip_mutex (k_ipc k))).
Proof.
  intros Hk Hm Hi Hd Hu D2 Hb. assert (Hown : owns k p b) by by exists ob.
  destruct (mw_owns _ Hm p b Hown) as [Hlb Hvb]. destruct (mw_dynamic _ Hm p ob Hd) as [Hl _].
  destruct (buffer_free_run k b Hk Hi Hlb Hvb) as (k2 & E & Hk2 & Hg2 & Hl2 & Hi2).
  assert (Hne : p <> b) by (intros ->; by apply (vacant_free k b ob)).
  exists k2. split; [done|]. intros w. pose proof (pos_nonnull _ (proj2 (heap_live_area _ _ (kw_heap _ Hk) Hlb))) as Hnb.
  pose proof (unused_gone k b k2 p Hk (vacant_unused k b Hk Hvb Hnb) Hg2 Hu Hne) as [U1 U2 U3 U4 U5].
  destruct (object_delete_run (put_words w k2) p ob) as (k' & E' & Hk' & Hg' & Hl' & Hi'); try done.
  { exact (kwf_pools k2 (ip_mp (k_ipc k2)) w Hk2). }
  { change (p ∈ live k2). rewrite Hl2. set_solver. }
  { cbn. rewrite (gone_objs _ _ _ _ Hg2) by done. apply Hd. }
  { apply Hd. }
  { apply detached_iff. cbn. rewrite (go_linked _ _ _ Hg2) by done. by apply detached_iff. }
  exists k'. split; [done|]. pose proof (gone_vacant _ _ _ Hg') as Hv'.
  assert (Hf : frame_but ({[p]} ∪ {[b]}) k k').
  { eapply frame_trans; [eapply frame_weaken; [by apply gone_frame|set_solver]|].
    eapply frame_trans; [apply (frame_words _ k2 w)|].
    eapply frame_weaken; [by apply (gone_frame (put_words w k2))|set_solver]. }
  assert (Hvb' : vacant k' b).
  { apply (vacant_same (put_words w k2)); [apply (gone_frame (put_words w k2) p k' Hg'); set_solver|].
    destruct (gone_vacant _ _ _ Hg2). by split. }
  assert (Hl3 : live k' = live k ∖ ({[p]} ∪ {[b]})) by (rewrite Hl'; change (live (put_words w k2)) with (live k2); rewrite Hl2; set_solver).
  split; [|split; [done|split]].
  2: { rewrite (go_sched _ _ _ Hg'). cbn [k_sched put_words put_ipc]. by rewrite (go_sched _ _ _ Hg2). }
  2: { rewrite (go_ipc _ _ _ Hg'). cbn. by rewrite (go_ipc _ _ _ Hg2). }
  split; try done. apply (mwf_deleted k k' p ob {[b]}); try done.
  - intros b' ->%elem_of_singleton. done.
  - intros b' (ob' & (Ho & _) & Eb). destruct Hd as [Ho' _]. rewrite Ho in Ho'. injection Ho' as ->. set_solver.
Qed.

Lemma pool_delete_run k p ob b : kwf k -> mwf k -> irq0 k -> dynamic k p ob -> type_of ob <> RT_Object_Class_Thread ->
  type_of ob <> RT_Object_Class_Timer -> waiters k (HSuspend p) = [] -> waiters k (HSender p) = [] ->
  buffer_at k p (type_of ob) = Some b ->
  exists k2, RT_KERNEL_FREE b k = Ok tt k2 /\
    forall w, exists k', rt_object_delete p (put_words w k2) = Ok tt k' /\ deleted k p {[b]} k'.
Proof.
  intros Hk Hm Hi Hd Hc1 Hc2 W1 W2 Hb.
  destruct (dynamic_unused k p ob) as (Hu & D2 & Hl); [done..|by apply (not_timer k p ob)|done|done|].
  destruct (owned_delete_run k p ob b) as (k2 & E & H); [done..|]. exists k2. split; [done|].
  intros w. destruct (H w) as (k' & E' & Hde & _). by exists k'.
Qed.

(** ** Mailboxes *)

Lemma mb_create_run k name size flag : kwf k -> mwf k -> irq0 k ->
  exists p k', rt_mb_create name size flag k = Ok p k' /\ creation k RT_Object_Class_MailBox p k' /\
    (p <> RT_NULL -> exists pool, ip_mb (k_ipc k') !! p = Some (new_mailbox flag pool size)).
Proof.
  intros Hk Hm Hi. set (c := RT_Object_Class_MailBox). assert (Hcl : c ∈ container_classes) by class_mem.
  unfold rt_mb_create. rewrite (bind_ok _ _ _ _ _ (not_irq_run _ Hi)).
  destruct (allocate_run k c name Hk Hm Hi Hcl) as [(h & E & Hr)|(p & h & s' & Hal)].
  { exists RT_NULL, (put_heap h k). split; [by rewrite (bind_ok _ _ _ _ _ E)|]. split; [|done].
    left. split; [done|by apply refused_not_created]. }
  pose proof Hal as [[G1 G2 G3 G4 G5] Er Ha Hf Hkh]. pose proof (pos_nonnull p G4) as Gn. set (ob := mk_object _ _) in *.
  destruct (dynamic_type (name_copy RT_NAME_MAX name) c Hcl) as [T1 T2]. fold ob in T1, T2.
  destruct (ipc_attached_run (put_heap h k) p ob s' Hkh Hf Ha) as (E2 & _).
  rewrite (bind_ok _ _ _ _ _ Er), (proj2 (Z.eqb_neq p RT_NULL) Gn), (bind_ok _ _ _ _ _ E2).
  destruct (pool_malloc_run k p (k_link (HSuspend p) [] (put_obj s' (put_heap h k))) (u16 size * sizeof_ptr)) as (b & h2 & E3 & Hh2 & Hb);
    [done..|]. rewrite (bind_ok _ _ _ _ _ E3). destruct Hb as [[-> Hl2]|(B1 & B2 & B3 & B4 & Hl2)].
  { destruct (allocated_begun k c name p h s' h2) as [_ Hbg]; [done..|].
    destruct (undo_run k p ob _ Hk Hm G2 G3 G4 T2 Hbg) as (k' & E4 & Hnc). exists RT_NULL, k'.
    split; [rewrite Z.eqb_refl; by erewrite bind_ok by exact E4|]. split; [by left|done]. }
  rewrite (proj2 (Z.eqb_neq b RT_NULL) (pos_nonnull b B1)), bind_modify. set (x := new_mailbox flag b size).
  pose proof (fresh_heap _ h2 p Hf) as Hf2.
  destruct (ipc_attached_run (put_heap h2 k) p ob s') as (_ & Hh & Ho & Hn); [by apply kwf_heap|exact Hf2|done|].
  destruct (Hn (let i := k_ipc k in {| i with ip_mb := <[p := x]> (ip_mb i) |})) as [Hnew Hw].
  { intros y Hy. cbn. by rewrite lookup_insert_ne. }
  pose proof (obj_new_head _ _ _ _ (HSender p) Hnew (or_intror eq_refl) (proj2 (fr_waiters _ _ Hf))) as Hnew2.
  erewrite bind_ok by (apply head_init_run; etransitivity; [apply (in_waiters _ _ _ _ Hnew (HSender p))|apply (fr_waiters _ _ Hf)]).
  exists p. eexists. split; [done|]. split; [right; exists {[b]}; fold c; rewrite <- T1|intros _; exists b; apply lookup_insert_eq].
  apply (new_created k h2 p ob); try done; rewrite ?T1; try done.
  - apply (kwf_new_obj _ p ob _ (kwf_heap k h2 Hk Hh2) Hf2 Hnew2). intros _. rewrite T1. split; try done.
    + unfold head_exists. cbn. rewrite lookup_insert_ne by done. apply Hh.
    + intros _. split; [unfold head_exists; cbn; rewrite lookup_insert_eq; by eexists|].
      exists x. split; [apply lookup_insert_eq|apply new_mailbox_ok].
  - intros b' ->%elem_of_singleton. done.
  - intros b'. unfold buffer_at. cbn. rewrite lookup_insert_eq. intros [= <-]. set_solver.
Qed.

(** A dynamic object whose pool has been granted at [b]. *)
Lemma pool_created k c name p h s' h2 b i : kwf k -> mwf k -> irq0 k -> allocated k c name p h s' ->
  c ∈ container_classes -> c <> RT_Object_Class_Thread -> c <> RT_Object_Class_MailBox -> c <> RT_Object_Class_Timer ->
  heap_ok h2 -> 0 < b /\ b <> p /\ (b ∉ live k) /\ heap_area b /\ heap_live h2 = {[p]} ∪ {[b]} ∪ live k ->
  ipc_agree p (k_ipc k) i ->
  let k' := put_ipc i (k_link (HSuspend p) [] (put_obj s' (put_heap h2 k))) in
  buffer_at k' p c = Some b -> (head_exists k' (HSuspend p) -> 1 <= c <= 5 -> ipc_at k' p c) -> created k c p {[b]} k'.
Proof.
  intros Hk Hm Hi [[G1 G2 G3 G4 G5] Er Ha Hf Hkh] Hcl C1 C2 C3 Hh2 (B1 & B2 & B3 & B4 & Hl2) Hag k' Hb Hat.
  pose proof (pos_nonnull p G4) as Gn. set (ob := mk_object _ _) in *. pose proof (fresh_heap _ h2 p Hf) as Hf2.
  destruct (dynamic_type (name_copy RT_NAME_MAX name) c Hcl) as [T1 T2]. fold ob in T1, T2.
  destruct (ipc_attached_run (put_heap h2 k) p ob s') as (_ & Hh & Ho & Hn); [by apply kwf_heap|exact Hf2|done|].
  destruct (Hn i Hag) as [Hnew Hw]. rewrite <- T1. apply (new_created k h2 p ob); try done; rewrite ?T1; try done.
  - apply (kwf_new_obj _ p ob _ (kwf_heap k h2 Hk Hh2) Hf2 Hnew). rewrite T1. by apply Hat.
  - intros _. unfold k', head_exists. cbn. rewrite lookup_insert_ne by done. apply (va_sender _ _ (mw_vacant _ Hm p G3 G2)).
  - intros b' ->%elem_of_singleton. done.
  - intros b' Hb'. rewrite Hb in Hb'. injection Hb' as <-. set_solver.
Qed.

(** ** Message queues *)

Lemma begun_put_mq k p ob x kx : begun k p ob kx -> begun k p ob (put_mq p x kx).
Proof.
  intros [B1 B2 B3 B4 B5 B6 [U1 U2 U3 U4 U5] B8]. split; try done. rewrite <- B4. unfold forget_ipc. cbn. f_equal.
  by rewrite delete_insert_eq.
Qed.

Lemma free_null_run k : heap_ok (k_heap k) ->
  exists h, RT_KERNEL_FREE RT_NULL k = Ok tt (put_heap h k) /\ heap_ok h /\ heap_live h = live k.
Proof.
  intros Hk. destruct (heap_free_ok (k_heap k) RT_NULL Hk) as (h & E & Hh & Hl); [by right|]. exists h.
  split; [|split; [done|]].
  - unfold RT_KERNEL_FREE. rewrite Z.eqb_refl. cbn [negb andb when].
    assert (Ef : liftH (heap_free RT_NULL) k = Ok tt (put_heap h k)) by (unfold liftH, zoom; by rewrite E).
    rewrite (bind_ok _ _ _ tt k eq_refl), bind_getS. by rewrite (bind_ok _ _ _ _ _ Ef).
  - assert (RT_NULL ∉ live k) by (intros Hn; by apply (live_nonnull k RT_NULL)). rewrite Hl. fold (live k). set_solver.
Qed.

(** The failure path of [rt_mq_create]: the queue is deleted without a pool. *)
Lemma mq_undo_run k p ob kx x : kwf k -> mwf k -> (p ∉ live k) -> heap_area p -> 0 < p -> is_static ob = false ->
  type_of ob = RT_Object_Class_MessageQueue -> begun k p ob kx -> sc_lists (k_sched kx) !! HSuspend p = Some [] ->
  ip_mq (k_ipc kx) !! p = Some x -> mq_msg_pool x = RT_NULL ->
  exists k', rt_mq_delete p kx = Ok RT_EOK k' /\ not_created k k'.
Proof.
  intros Hk Hm Hp Ha Hpos Hst Hty Hbg Hl Hx Hnull. pose proof (pos_nonnull p Hpos) as Hn.
  destruct (free_null_run kx (bg_heap _ _ _ _ Hbg)) as (h & E1 & Hh & Hlive).
  assert (Hbg' : begun k p ob (put_heap h kx)).
  { destruct Hbg as [B1 B2 B3 B4 B5 B6 [U1 U2 U3 U4 U5] B8]. split; try done. by rewrite <- B6. }
  destruct (undo_run k p ob _ Hk Hm Hp Ha Hpos Hst Hbg') as (k' & E2 & Hnc). exists k'. split; [|done].
  assert (Ho : os_objs (k_obj kx) !! AObj p = Some ob) by (rewrite (at_objs _ _ _ _ (bg_obj _ _ _ _ Hbg)); apply lookup_insert_eq).
  assert (Hne : AObj p <> AObj RT_NULL) by congruence.
  unfold rt_mq_delete. rewrite (bind_ok _ _ _ _ _ (not_irq_run _ (bg_irq _ _ _ _ Hbg))).
  rewrite (proj2 (Z.eqb_neq p RT_NULL) Hn), bind_assert by done.
  assert (Et : assert_type (AObj p) RT_Object_Class_MessageQueue kx = Ok tt kx).
  { unfold assert_type. erewrite bind_ok by (eapply liftO_run, get_type_run; eauto).
    by rewrite put_obj_id, Hty. }
  assert (Es : assert_systemobject (AObj p) false kx = Ok tt kx).
  { unfold assert_systemobject. erewrite bind_ok by (eapply liftO_run, is_system_run; eauto).
    by rewrite put_obj_id, Hst. }
  rewrite (bind_ok _ _ _ _ _ Et), (bind_ok _ _ _ _ _ Es).
  assert (Er : rt_ipc_list_resume_all (HSuspend p) kx = Ok RT_EOK kx).
  { unfold rt_ipc_list_resume_all. rewrite (bind_ok _ _ _ _ _ (k_list_run _ _ _ Hl)). cbn [length resume_all_loop].
    assert (Hw : waiters kx (HSuspend p) = []) by (unfold waiters, lget; by rewrite Hl).
    rewrite bind_assoc, (bind_ok _ _ _ _ _ (k_isempty_run kx (HSuspend p) ltac:(by eexists))), Hw. done. }
  rewrite (bind_ok _ _ _ _ _ Er), (bind_ok _ _ _ _ _ (get_mq_run _ _ _ Hx)), Hnull, (bind_ok _ _ _ _ _ E1).
  by rewrite (bind_ok _ _ _ _ _ E2).
Qed.

Lemma thread_slots_pool n : forall temp x, mq_msg_pool (mq_thread_slots n temp x) = mq_msg_pool x.
Proof. induction n as [|n IH]; intros temp x; [done|]. cbn [mq_thread_slots]. by rewrite IH. Qed.

Lemma mq_create_run k name msg_size max_msgs flag : kwf k -> mwf k -> irq0 k ->
  exists p k', rt_mq_create name msg_size max_msgs flag k = Ok p k' /\ creation k RT_Object_Class_MessageQueue p k' /\
    (p <> RT_NULL -> exists pool, created k RT_Object_Class_MessageQueue p {[pool]} k' /\ (pool ∉ live k) /\
      ip_mq (k_ipc k') !! p = Some (new_mq flag pool (u16 (RT_ALIGN msg_size RT_ALIGN_SIZE)) (u16 max_msgs))).
Proof.
  intros Hk Hm Hi. set (c := RT_Object_Class_MessageQueue). assert (Hcl : c ∈ container_classes) by class_mem.
  unfold rt_mq_create. rewrite (bind_ok _ _ _ _ _ (not_irq_run _ Hi)).
  destruct (allocate_run k c name Hk Hm Hi Hcl) as [(h & E & Hr)|(p & h & s' & Hal)].
  { exists RT_NULL, (put_heap h k). split; [by rewrite (bind_ok _ _ _ _ _ E)|]. split; [|done].
    left. split; [done|by apply refused_not_created]. }
  pose proof Hal as [[G1 G2 G3 G4 G5] Er Ha Hf Hkh]. pose proof (pos_nonnull p G4) as Gn.
  destruct (ipc_attached_run (put_heap h k) p _ s' Hkh Hf Ha) as (E2 & _).
  rewrite (bind_ok _ _ _ _ _ Er), (proj2 (Z.eqb_neq p RT_NULL) Gn), (bind_ok _ _ _ _ _ E2).
  set (sz := u16 (RT_ALIGN msg_size _)). set (n := u16 max_msgs). cbv zeta.
  destruct (pool_malloc_run k p (k_link (HSuspend p) [] (put_obj s' (put_heap h k))) (msg_stride sz * n))
    as (b & h2 & E3 & Hh2 & Hb); [done..|]. rewrite (bind_ok _ _ _ _ _ E3), bind_modify.
  destruct Hb as [[-> Hl2]|Hb].
  { destruct (allocated_begun k c name p h s' h2) as [_ Hbg]; [done..|].
    destruct (dynamic_type (name_copy RT_NAME_MAX name) c Hcl) as [T1 T2].
    set (x := mk_mq _ _ _ _ _ _ _ _ _). pose proof (begun_put_mq _ _ _ x _ Hbg) as Hbg'.
    destruct (mq_undo_run k p _ _ x Hk Hm G2 G3 G4 T2 T1 Hbg') as (k' & E4 & Hnc);
      [apply lookup_insert_eq|apply lookup_insert_eq|done|].
    exists RT_NULL, k'. split; [rewrite Z.eqb_refl; by erewrite bind_ok by exact E4|]. split; [by left|done]. }
  rewrite (proj2 (Z.eqb_neq b RT_NULL) (pos_nonnull b (proj1 Hb))), bind_modify.
  destruct (new_mq_split flag b sz n) as (fr & Hs & _); [apply u16_range|apply Hb|apply u16_range|].
  set (x := new_mq flag b sz n) in *. exists p. eexists. split; [done|].
  match goal with |- creation _ _ _ ?k' /\ _ => cut (created k c p {[b]} k') end.
  { intros Hcr. split; [right; by exists {[b]}|]. intros _. exists b. split; [done|]. split; [apply Hb|apply lookup_insert_eq]. }
  set (i := let i := k_ipc k in {| i with ip_mq := <[p := x]> (<[p := mk_mq flag b ∅ sz n 0 RT_NULL RT_NULL RT_NULL]> (ip_mq i)) |}).
  apply (pool_created k c name p h s' h2 b i); try done.
  - intros y Hy. cbn. by rewrite !lookup_insert_ne.
  - unfold buffer_at, c, i. cbn. rewrite lookup_insert_eq. cbn. unfold x, new_mq. by rewrite thread_slots_pool.
  - intros Hh _. split; try done. intros _. exists x. split; [apply lookup_insert_eq|eauto].
Qed.

Lemma mb_delete_run k p ob : kwf k -> mwf k -> irq0 k -> dynamic k p ob -> type_of ob = RT_Object_Class_MailBox ->
  exists b k', rt_mb_delete p k = Ok RT_EOK k' /\ deleted k p {[b]} k' /\ owns k p b.
Proof.
  intros Hk Hm Hi Hd Hc. pose proof (dynamic_class k p ob _ Hd Hc) as Hty.
  destruct (io_mb _ (kw_ipc _ Hk) p Hty) as (Hh & Hs & _).
  destruct (resume_all_run k (HSuspend p) Hk I Hh) as (k1 & E1 & Hk1 & R1).
  destruct (woken_mwf _ k RT_EOK k1 Hm E1) as (Hm1 & Hf1 & Hl1); [intros k0; apply k_resume_all|intros h; apply k_resume_all|].
  destruct (resume_all_run k1 (HSender p) Hk1 I (wf_heads _ _ (ra_frame _ _ _ R1) _ Hs)) as (k2 & E2 & Hk2 & R2).
  destruct (woken_mwf _ k1 RT_EOK k2 Hm1 E2) as (Hm2 & Hf2 & Hl2); [intros k0; apply k_resume_all|intros h; apply k_resume_all|].
  pose proof (frame_trans _ _ _ _ Hf1 Hf2) as Hf. pose proof (dynamic_frame k k2 p ob Hf Hd) as Hd2.
  destruct (io_mb _ (kw_ipc _ Hk2) p (dynamic_class k2 p ob _ Hd2 Hc)) as (_ & _ & x & Hx & _).
  assert (Hb : buffer_at k2 p (type_of ob) = Some (mb_msg_pool x)) by (rewrite Hc; unfold buffer_at; cbn; by rewrite Hx).
  destruct (pool_delete_run k2 p ob (mb_msg_pool x)) as (k3 & E3 & Hdel); try done; rewrite ?Hc; try done.
  { unfold irq0. by rewrite (wf_irq _ _ (ra_frame _ _ _ R2)), (wf_irq _ _ (ra_frame _ _ _ R1)). }
  { rewrite (ra_others _ _ _ R2) by done. apply R1. }
  { apply R2. }
  destruct (Hdel (ip_words (k_ipc k3))) as (k' & E4 & Hde). rewrite put_words_id in E4. exists (mb_msg_pool x), k'.
  split; [|split; [eapply deleted_after; [exact Hf|congruence|exact Hde]|]].
  - unfold rt_mb_delete. rewrite (bind_ok _ _ _ _ _ (not_irq_run _ Hi)), (check_run _ _ _ _ Hk Hty).
    rewrite (bind_ok _ _ _ _ _ (assert_system_run k p ob false Hk (proj1 Hd) (proj1 (proj2 Hd)))).
    rewrite (bind_ok _ _ _ _ _ E1), (bind_ok _ _ _ _ _ E2), (bind_ok _ _ _ _ _ (get_mb_run _ _ _ Hx)).
    by rewrite (bind_ok _ _ _ _ _ E3), (bind_ok _ _ _ _ _ E4).
  - apply (owns_same k k2 p); [apply Hf; set_solver|by exists ob].
Qed.

Lemma mq_delete_run k p ob : kwf k -> mwf k -> irq0 k -> dynamic k p ob -> type_of ob = RT_Object_Class_MessageQueue ->
  exists b k', rt_mq_delete p k = Ok RT_EOK k' /\ deleted k p {[b]} k' /\ owns k p b.
Proof.
  intros Hk Hm Hi Hd Hc. pose proof (dynamic_class k p ob _ Hd Hc) as Hty.
  destruct (io_mq _ (kw_ipc _ Hk) p Hty) as (Hh & _).
  destruct (resume_all_run k (HSuspend p) Hk I Hh) as (k1 & E1 & Hk1 & R1).
  destruct (woken_mwf _ k RT_EOK k1 Hm E1) as (Hm1 & Hf & Hl1); [intros k0; apply k_resume_all|intros h; apply k_resume_all|].
  pose proof (dynamic_frame k k1 p ob Hf Hd) as Hd1.
  destruct (io_mq _ (kw_ipc _ Hk1) p (dynamic_class k1 p ob _ Hd1 Hc)) as (_ & x & Hx & _).
  assert (Hb : buffer_at k1 p (type_of ob) = Some (mq_msg_pool x)) by (rewrite Hc; unfold buffer_at; cbn; by rewrite Hx).
  destruct (pool_delete_run k1 p ob (mq_msg_pool x)) as (k3 & E3 & Hdel); try done; rewrite ?Hc; try done.
  { unfold irq0. by rewrite (wf_irq _ _ (ra_frame _ _ _ R1)). }
  { apply R1. }
  { apply no_head, (pf_sender _ _ _ (proj2 (mw_dynamic _ Hm1 p ob Hd1))). by rewrite Hc. }
  destruct (Hdel (ip_words (k_ipc k3))) as (k' & E4 & Hde). rewrite put_words_id in E4. exists (mq_msg_pool x), k'.
  split; [|split; [eapply deleted_after; [exact Hf|congruence|exact Hde]|]].
  - unfold rt_mq_delete. rewrite (bind_ok _ _ _ _ _ (not_irq_run _ Hi)), (check_run _ _ _ _ Hk Hty).
    rewrite (bind_ok _ _ _ _ _ (assert_system_run k p ob false Hk (proj1 Hd) (proj1 (proj2 Hd)))).
    rewrite (bind_ok _ _ _ _ _ E1), (bind_ok _ _ _ _ _ (get_mq_run _ _ _ Hx)).
    by rewrite (bind_ok _ _ _ _ _ E3), (bind_ok _ _ _ _ _ E4).
  - apply (owns_same k k1 p); [apply Hf; set_solver|by exists ob].
Qed.

(** ** Memory pools *)

(** What the deletion of a pool does to the threads waiting for a block. *)
Record mp_woken (mp : Z) k (k' : kstate) : Prop := {
  mk_kwf : kwf k';
  mk_empty : waiters k' (HSuspend mp) = [];
  mk_obj : k_obj k' = k_obj k;
  mk_irq : sc_irq_nest (k_sched k') = sc_irq_nest (k_sched k);
  mk_pool : exists x', pools k' !! mp = Some x'
}.

Lemma suspend_count_run f mp x k : pools k !! mp = Some x ->
  exists x', suspend_count f mp k = Ok tt (put_mp mp x' k).
Proof. intros Hx. eexists. unfold suspend_count. by rewrite (bind_ok _ _ _ _ _ (get_mp_run _ _ _ Hx)). Qed.

Lemma mp_resume_all_run mp l fuel k : kwf k -> head_exists k (HSuspend mp) -> waiters k (HSuspend mp) = l ->
  is_Some (pools k !! mp) -> (length l < fuel)%nat -> exists k', mp_resume_all fuel mp k = Ok tt k' /\ mp_woken mp k k'.
Proof.
  revert fuel k. induction l as [|t l IH]; intros [|fuel] k Hk Hhe El [x Hx] Hf; simpl in Hf; try lia;
    cbn [mp_resume_all]; rewrite (bind_ok _ _ _ _ _ (k_isempty_run _ _ Hhe)), El.
  - rewrite bool_decide_true by done. exists k. split; [done|]. split; try done. by exists x.
  - rewrite bool_decide_false by done. rewrite (bind_ok _ _ _ _ _ (first_waiter_run _ _ _ _ El)).
    destruct (wait_suspended k (HSuspend mp) t) as (th & Ht & Hs); [done|done|rewrite El; set_solver|].
    rewrite (bind_ok _ _ _ _ _ (k_upd_thread_run _ _ _ _ Ht)).
    set (th1 := set_error (- RT_ERROR) th). fold (k_put t th1 k). set (k1 := k_put t th1 k).
    assert (Hk1 : kwf k1) by (eapply kwf_put_same; [done|done|apply set_error_same]).
    assert (Ht1 : threads k1 !! t = Some th1) by apply lookup_insert_eq.
    destruct (thread_resume_run k1 t th1 Hk1 Ht1 Hs) as [Hr Hk2].
    rewrite (bind_ok _ _ _ _ _ Hr). set (k2 := ThreadInv.k_resume t th1 k1) in *.
    assert (Hfr : wake_frame k k2) by (etrans; [apply k_put_frame|apply k_resume_frame]).
    assert (Hx2 : pools k2 !! mp = Some x) by (unfold pools; by rewrite (wf_ipc _ _ Hfr)).
    destruct (suspend_count_run Z.pred mp x k2 Hx2) as (x' & Ec). rewrite (bind_ok _ _ _ _ _ Ec).
    assert (Hnd : NoDup (t :: l)) by (rewrite <- El; apply (sw_nodup _ _ (kw_sched _ Hk))). apply NoDup_cons in Hnd as [Hnt _].
    destruct (IH fuel (put_mp mp x' k2)) as (k' & E & [W1 W2 W3 W4 W5]).
    + exact (kwf_pools k2 _ (words k2) Hk2).
    + by apply (wf_heads _ _ Hfr).
    + change (waiters k2 (HSuspend mp) = l). unfold k2. rewrite k_resume_waiters by done.
      change (waiters k1 (HSuspend mp)) with (waiters k (HSuspend mp)).
      rewrite El. unfold unlink. rewrite filter_cons_False by tauto. by apply unlink_notin.
    + unfold pools. cbn. rewrite lookup_insert_eq. by eexists.
    + lia.
    + exists k'. split; [done|]. split; [done|done|rewrite W3; apply (wf_obj _ _ Hfr)|rewrite W4; apply (wf_irq _ _ Hfr)|done].
Qed.

Lemma mp_wake_all_run mp k : kwf k -> is_mp k mp -> is_Some (pools k !! mp) ->
  exists k', mp_wake_all mp k = Ok tt k' /\ mp_woken mp k k'.
Proof.
  intros Hk [_ Hhe] Hx. pose proof Hhe as [l Hl]. unfold mp_wake_all. rewrite (bind_ok _ _ _ _ _ (k_list_run _ _ _ Hl)).
  apply (mp_resume_all_run mp l); try done; [|lia]. unfold waiters, lget. by rewrite Hl.
Qed.

Lemma mp_delete_run k p ob : kwf k -> mwf k -> irq0 k -> dynamic k p ob -> is_mp k p -> is_Some (pools k !! p) ->
  exists b k', rt_mp_delete p k = Ok RT_EOK k' /\ deleted k p {[b]} k' /\ owns k p b.
Proof.
  intros Hk Hm Hi Hd Hp Hx0. pose proof Hp as [Hty Hh].
  assert (Hc : type_of ob = RT_Object_Class_MemPool) by (destruct Hty as (ob' & Ho' & <-); destruct Hd as [Ho _]; congruence).
  destruct (mp_wake_all_run p k Hk Hp Hx0) as (k1 & E1 & [Hk1 W2 W3 W4 (x & Hx)]).
  destruct (woken_mwf _ k tt k1 Hm E1) as (Hm1 & Hf & Hl1); [intros k0; apply k_mp_wake_all|intros h; apply k_mp_wake_all|].
  pose proof (dynamic_frame k k1 p ob Hf Hd) as Hd1.
  assert (Hb : buffer_at k1 p (type_of ob) = Some (mp_start_address x)).
  { rewrite Hc. unfold buffer_at. cbn. unfold pools in Hx. by rewrite Hx. }
  destruct (pool_delete_run k1 p ob (mp_start_address x)) as (k3 & E3 & Hdel); try done; rewrite ?Hc; try done.
  { unfold irq0. by rewrite W4. }
  { apply no_head, (pf_sender _ _ _ (proj2 (mw_dynamic _ Hm1 p ob Hd1))). by rewrite Hc. }
  destruct (Hdel (filter (fun aw : Z * Z => ~ (mp_start_address x <= aw.1 < mp_start_address x + mp_pool_size x)) (ip_words (k_ipc k3))))
    as (k' & E4 & Hde). exists (mp_start_address x), k'.
  split; [|split; [eapply deleted_after; [exact Hf|congruence|exact Hde]|]].
  - unfold rt_mp_delete. rewrite (bind_ok _ _ _ _ _ (not_irq_run _ Hi)), (check_run _ _ _ _ Hk Hty).
    rewrite (bind_ok _ _ _ _ _ (assert_system_run k p ob false Hk (proj1 Hd) (proj1 (proj2 Hd)))).
    rewrite (bind_ok _ _ _ _ _ E1), (bind_ok _ _ _ _ _ (get_mp_run _ _ _ Hx)), (bind_ok _ _ _ _ _ E3), bind_modify.
    by erewrite bind_ok by exact E4.
  - apply (owns_same k k1 p); [apply Hf; set_solver|by exists ob].
Qed.

(** The arguments of [rt_mp_create]: at least one block, and the sizes do not
    wrap around. *)
Record mp_create_args (count block_size : Z) : Prop := {
  ca_count : 1 <= count;
  ca_block : 0 <= block_size;
  ca_size : count * (RT_ALIGN block_size RT_ALIGN_SIZE + sizeof_ptr) < 2 ^ (8 * sizeof_ptr)
}.

Lemma mp_create_run k name count bs : kwf k -> mwf k -> irq0 k -> mp_create_args count bs ->
  exists p k', rt_mp_create name count bs k = Ok p k' /\ creation k RT_Object_Class_MemPool p k' /\
    (p <> RT_NULL -> exists start, let al := RT_ALIGN bs RT_ALIGN_SIZE in
      let x := new_mp start (count * (al + sizeof_ptr)) al count in
      is_mp k' p /\ pools k' !! p = Some x /\ mp_rep (words k') p x (pool_blocks x) []).
Proof.
  intros Hk Hm Hi [A1 A2 A3]. set (c := RT_Object_Class_MemPool). assert (Hcl : c ∈ container_classes) by class_mem.
  pose proof cfg_ptr as Hp. pose proof (align_nonneg bs A2) as A6. set (al := RT_ALIGN bs _) in *.
  unfold rt_mp_create. rewrite (bind_ok _ _ _ _ _ (not_irq_run _ Hi)).
  destruct (allocate_run k c name Hk Hm Hi Hcl) as [(h & E & Hr)|(p & h & s' & Hal)].
  { exists RT_NULL, (put_heap h k). split; [by rewrite (bind_ok _ _ _ _ _ E)|]. split; [|done].
    left. split; [done|by apply refused_not_created]. }
  pose proof Hal as [[G1 G2 G3 G4 G5] Er Ha Hf Hkh]. pose proof (pos_nonnull p G4) as Gn.
  rewrite (bind_ok _ _ _ _ _ Er), (proj2 (Z.eqb_neq p RT_NULL) Gn). fold al. cbv zeta.
  rewrite (ubase_small al), (ubase_small (al + _)), (ubase_small (_ * _)) by nia. rewrite (Z.mul_comm _ count).
  set (size := count * (al + sizeof_ptr)).
  destruct (pool_malloc_run k p (put_obj s' (put_heap h k)) size) as (b & h2 & E3 & Hh2 & Hb); [done..|].
  rewrite (bind_ok _ _ _ _ _ E3). destruct Hb as [[-> Hl2]|Hb].
  { destruct (allocated_begun k c name p h s' h2) as [Hbg _]; [done..|].
    destruct (dynamic_type (name_copy RT_NAME_MAX name) c Hcl) as [T1 T2].
    destruct (undo_run k p _ _ Hk Hm G2 G3 G4 T2 Hbg) as (k' & E4 & Hnc). exists RT_NULL, k'.
    split; [rewrite Z.eqb_refl; by erewrite bind_ok by exact E4|]. split; [by left|done]. }
  rewrite (proj2 (Z.eqb_neq b RT_NULL) (pos_nonnull b (proj1 Hb))), bind_modify.
  set (x0 := mk_mp b size al RT_NULL count count 0).
  erewrite bind_ok by (apply head_init_run; apply (fr_waiters _ _ Hf)).
  destruct (blocks_init_run (k_link (HSuspend p) [] (put_mp p x0 (put_heap h2 (put_obj s' (put_heap h k))))) p b size al count)
    as (w & E5 & HR); [apply lookup_insert_eq|tauto|done|nia|nia|unfold size; lia|].
  exists p. eexists. split; [by erewrite bind_ok by exact E5|].
  set (i := let i := k_ipc k in {| i with ip_mp := <[p := new_mp b size al count]> (<[p := x0]> (ip_mp i)); ip_words := w |}).
  assert (Hcr : created k c p {[b]} (put_ipc i (k_link (HSuspend p) [] (put_obj s' (put_heap h2 k))))).
  { apply (pool_created k c name p h s' h2 b i); try done.
    - intros y Hy. cbn. by rewrite !lookup_insert_ne by done.
    - unfold buffer_at, c, i. cbn. by rewrite lookup_insert_eq.
  }
  split; [right; exists {[b]}; exact Hcr|]. intros _. exists b. cbv zeta. split; [|split; [apply lookup_insert_eq|exact HR]].
  destruct (cr_dynamic _ _ _ _ _ Hcr) as (ob & (Ho & _) & Ht). split; [by exists ob|].
  unfold head_exists. cbn. rewrite lookup_insert_eq. by eexists.
Qed.

End Pool.
