(* ===== verification/Lifetime.v ===== *)
(** * The life of timers and of static objects

    Dynamic timers own nothing but their structure.  A static object is
    initialised at an address outside the heap, and detaching it leaves its
    memory to the application; neither concerns the ownership of the heap. *)

From S2P Require Import Prelude Scheduler ReadyBitmap SchedInv Object ObjInv Timer TimerInv Kernel Thread Ipc.
From S2P Require Import Semaphore Mutex Event Mailbox MsgQueue MemPool KernelInv ThreadInv IpcInv BlockInv ClockInv.
From S2P Require Import Boot SemSpec MutexSpec EventSpec MailboxSpec MqInv MqSpec MpSpec Keeps Stable Frames Own Dynamic DynPool.

Section Lifetime.
Context `{CO : ConfigOk} {HP : Heap} {HO : HeapOk HP}.
Implicit Types (k : kstate).

(** ** Dynamic timers *)

Definition new_timer (f : tfunc) (par time flag : Z) : rt_timer :=
  mk_timer (Z.land flag (Z.lnot RT_TIMER_FLAG_ACTIVATED)) f par time 0.

Lemma timer_create_run k name f par time flag : kwf k -> mwf k -> irq0 k ->
  exists p k', rt_timer_create name f par time flag k = Ok p k' /\ creation k RT_Object_Class_Timer p k' /\
    running k' = running k /\ (p <> RT_NULL -> timers k' = <[AObj p := new_timer f par time flag]> (timers k)).
Proof.
  intros Hk Hm Hi. set (c := RT_Object_Class_Timer). assert (Hcl : c ∈ container_classes) by class_mem.
  unfold rt_timer_create. destruct (allocate_run k c name Hk Hm Hi Hcl) as [(h & E & Hr)|(p & h & s' & Hal)].
  { exists RT_NULL, (put_heap h k). split; [by rewrite (bind_ok _ _ _ _ _ E)|]. split; [|done].
    left. split; [done|by apply refused_not_created]. }
  destruct Hal as [[G1 G2 G3 G4 G5] Er Ha Hf Hkh]. pose proof (pos_nonnull p G4) as Gn. set (ob := mk_object _ _) in *.
  destruct (dynamic_type (name_copy RT_NAME_MAX name) c Hcl) as [T1 T2]. fold ob in T1, T2.
  rewrite (bind_ok _ _ _ _ _ Er), (proj2 (Z.eqb_neq p RT_NULL) Gn).
  erewrite bind_ok by (eapply liftT_run, timer_init_run; [apply Hk|apply (fr_running _ _ Hf)]).
  exists p. eexists. split; [done|]. fold (new_timer f par time flag). set (tm := new_timer f par time flag).
  set (k' := put_ts _ _). pose proof (mw_vacant _ Hm p G3 G2) as Hv.
  assert (Hn : obj_new (put_heap h k) p ob k').
  { split; try done; [by right; exists tm|apply Hk]. }
  split; [right; exists ∅; rewrite <- T1|done]. apply (new_created k h p ob); try done; rewrite ?T1; try done.
  - apply (kwf_new_obj _ p ob _ Hkh Hf Hn). rewrite T1. by intros [_ ?].
  - intros _. apply Hv.
  - intros _. apply Hv.
  - change (heap_live h = {[p]} ∪ ∅ ∪ live k). rewrite G5. set_solver.
Qed.

Lemma timer_delete_run k p ob tm : kwf k -> mwf k -> irq0 k -> dynamic k p ob -> type_of ob = RT_Object_Class_Timer ->
  timers k !! AObj p = Some tm ->
  exists k', rt_timer_delete p k = Ok RT_EOK k' /\ deleted k p ∅ k'.
Proof.
  intros Hk Hm Hi Hd Hc Ht. pose proof (dynamic_class k p ob _ Hd Hc) as Hty.
  destruct (kwf_unrow k (AObj p) Hk) as [Hk1 Er]. set (k1 := k_unrow (AObj p) k) in *.
  assert (E1 : liftT (_rt_timer_remove (AObj p)) k = Ok tt k1) by by eapply liftT_run, timer_remove_run.
  assert (Hf : frame_but ∅ k k1) by (eapply keeps_frame_ts; [intros s0; apply same_remove|apply frame_refl|exact E1]).
  assert (Hm1 : mwf k1) by by apply (mwf_frame k).
  pose proof (dynamic_frame k k1 p ob Hf Hd) as Hd1. destruct (mw_dynamic _ Hm1 p ob Hd1) as [_ [P1 P2 P3]].
  destruct (plain_delete_run k1 p ob) as (k' & E2 & Hdel); try done; rewrite ?Hc; try done.
  { rewrite Er, elem_of_without. tauto. }
  { apply no_head, P3. by right. }
  { apply no_head, P2. by rewrite Hc. }
  exists k'. split; [|by eapply deleted_after].
  unfold rt_timer_delete. rewrite (check_run _ _ _ _ Hk Hty).
  rewrite (bind_ok _ _ _ _ _ (assert_system_run k p ob false Hk (proj1 Hd) (proj1 (proj2 Hd)))).
  by rewrite (bind_ok _ _ _ _ _ E1), (bind_ok _ _ _ _ _ E2).
Qed.

(** ** Static objects *)

Lemma mwf_static k k' o : kwf k -> mwf k -> frame_but {[o]} k k' -> live k' = live k ->
  ~ heap_area o \/ is_Some (os_objs (k_obj k) !! AObj o) -> (forall ob, ~ dynamic k' o ob) ->
  (o ∈ waiters k' HDefunct ->
    object_linked (AObj o) (k_obj k') = true /\ object_linked (ATimer o) (k_obj k') = false) -> mwf k'.
Proof.
  intros Hk Hm Hf Hl Ho Hd Hdf. apply (mwf_step k k' o ∅); try done.
  - eapply frame_weaken; [done|set_solver].
  - intros p _ _. by rewrite Hl.
  - intros p Hp. destruct (mw_owns _ Hm p o Hp) as [Hlo Hv]. destruct Ho as [Ho|[ob Hob]].
    + apply Ho. by apply (heap_live_area (k_heap k) o); [apply Hk|].
    + by rewrite (va_obj _ _ Hv) in Hob.
  - intros Ha Hn. destruct Ho as [Ho|[ob Hob]]; [done|]. rewrite Hl in Hn.
    by rewrite (va_obj _ _ (mw_vacant _ Hm o Ha Hn)) in Hob.
  - intros ob Hd'. by destruct (Hd ob).
  - intros b (ob & Hd' & _). by destruct (Hd ob).
Qed.

(** The object at [o] is detached: a state that differs only in its header. *)
Lemma detach_obj k o ob :
  k_obj (k_detach o ob k) = os_remove (AObj o) (put_object (AObj o) (mk_object (o_name ob) 0) (k_obj k)).
Proof. done. Qed.

Lemma detach_frame k o ob : frame_but {[o]} k (k_detach o ob k).
Proof.
  intros p Hp. assert (Hne : p <> o) by set_solver. split; try done.
  - cbn. by rewrite lookup_insert_ne by congruence.
  - cbn. by rewrite lookup_insert_ne.
  - rewrite detach_obj, linked_remove; [done|congruence].
  - by rewrite detach_obj, linked_remove.
Qed.

Lemma detach_unlinked k o ob : object_linked (AObj o) (k_obj (k_detach o ob k)) = false.
Proof. apply detached_iff, os_remove_detached. Qed.

Lemma mwf_detach k o ob c : kwf k -> mwf k -> os_objs (k_obj k) !! AObj o = Some ob -> has_type k (AObj o) c ->
  c <> RT_Object_Class_Thread -> mwf (k_detach o ob k).
Proof.
  intros Hk Hm Ho Hty Hc. apply (mwf_static k _ o); try done; [apply detach_frame|right; by eexists| |].
  - intros ob' (_ & _ & Hl). by rewrite detach_unlinked in Hl.
  - intros Hin. pose proof (kw_defunct _ Hk o Hin) as Ht. by pose proof (type_unique _ _ _ _ Hty Ht).
Qed.

(** Detaching after the waiters have been woken by [m]. *)
Lemma detach_after {A} (m : K A) k a k1 o ob c :
  kwf k -> mwf k -> m k = Ok a k1 -> kwf k1 -> k_obj k1 = k_obj k ->
  (forall k0, keeps (frame_but ∅ k0) m) -> (forall h, keeps (heap_is h) m) ->
  os_objs (k_obj k) !! AObj o = Some ob -> has_type k (AObj o) c ->
  c <> RT_Object_Class_Thread -> c <> RT_Object_Class_Timer ->
  liftO (rt_object_detach (AObj o)) k1 = Ok tt (k_detach o ob k1) /\ kwf (k_detach o ob k1) /\ mwf (k_detach o ob k1).
Proof.
  intros Hk Hm E Hk1 Eo Hf Hh Ho Hty Hc Hc'. destruct (woken_mwf m k a k1 Hm E Hf Hh) as (Hm1 & _ & _).
  assert (Ho1 : os_objs (k_obj k1) !! AObj o = Some ob) by by rewrite Eo.
  assert (Hty1 : has_type k1 (AObj o) c) by (unfold has_type; by rewrite Eo).
  destruct (kwf_detach k1 o ob c Hk1 Ho1 Hty1 Hc (not_running _ _ _ Hk1 Hty1 Hc')) as [E1 Hk2].
  split; [done|]. split; [done|]. by eapply mwf_detach.
Qed.

(** The detach functions of src/ipc.c and src/mempool.c. *)
Definition detachment (m : K Z) k : Prop := exists k', m k = Ok RT_EOK k' /\ kwf k' /\ mwf k'.

Section Detach.
Variables (k : kstate) (o : Z).
Hypotheses (Hk : kwf k) (Hm : mwf k) (Hst : has_static k (AObj o) true).

Lemma checks_run {A} c (m : K A) : has_type k (AObj o) c ->
  (RT_ASSERT (negb (o =? RT_NULL));; assert_type (AObj o) c;; assert_systemobject (AObj o) true;; m) k = m k.
Proof.
  intros Hty. destruct Hst as (ob & Ho & Hs). rewrite (check_run _ _ _ _ Hk Hty).
  by rewrite (bind_ok _ _ _ _ _ (assert_system_run k o ob true Hk Ho Hs)).
Qed.

Lemma list_detach_run c : has_type k (AObj o) c -> c <> RT_Object_Class_Thread -> c <> RT_Object_Class_Timer ->
  head_exists k (HSuspend o) ->
  detachment (rt_ipc_list_resume_all (HSuspend o);; liftO (rt_object_detach (AObj o));; mret RT_EOK) k.
Proof.
  intros Hty Hc Hc' Hh. destruct Hst as (ob & Ho & _).
  destruct (resume_all_run k (HSuspend o) Hk I Hh) as (k1 & E1 & Hk1 & R1).
  destruct (detach_after _ k RT_EOK k1 o ob c Hk Hm E1 Hk1 (wf_obj _ _ (ra_frame _ _ _ R1))) as (E2 & Hk2 & Hm2);
    [intros k0; apply k_resume_all|intros h; apply k_resume_all|done..|].
  eexists. split; [|by split]. by rewrite (bind_ok _ _ _ _ _ E1), (bind_ok _ _ _ _ _ E2).
Qed.

Lemma sem_detach_goes : is_sem k o -> detachment (rt_sem_detach o) k.
Proof.
  intros Ho. unfold detachment, rt_sem_detach. rewrite checks_run by done.
  by apply (list_detach_run RT_Object_Class_Semaphore); [..|apply (io_sem _ (kw_ipc _ Hk) o Ho)].
Qed.
Lemma mutex_detach_goes : is_mutex k o -> detachment (rt_mutex_detach o) k.
Proof.
  intros Ho. unfold detachment, rt_mutex_detach. rewrite checks_run by done.
  by apply (list_detach_run RT_Object_Class_Mutex); [..|apply (io_mutex _ (kw_ipc _ Hk) o Ho)].
Qed.
Lemma event_detach_goes : is_event k o -> detachment (rt_event_detach o) k.
Proof.
  intros Ho. unfold detachment, rt_event_detach. rewrite checks_run by done.
  by apply (list_detach_run RT_Object_Class_Event); [..|apply (io_event _ (kw_ipc _ Hk) o Ho)].
Qed.
Lemma mq_detach_goes : is_mq k o -> detachment (rt_mq_detach o) k.
Proof.
  intros Ho. unfold detachment, rt_mq_detach. rewrite checks_run by done.
  by apply (list_detach_run RT_Object_Class_MessageQueue); [..|apply (io_mq _ (kw_ipc _ Hk) o Ho)].
Qed.
Lemma mb_detach_goes : is_mb k o -> detachment (rt_mb_detach o) k.
Proof.
  intros Hty. destruct Hst as (ob & Ho & _). destruct (io_mb _ (kw_ipc _ Hk) o Hty) as (Hh & Hs & _).
  destruct (resume_all_run k (HSuspend o) Hk I Hh) as (k1 & E1 & Hk1 & R1).
  destruct (woken_mwf _ k RT_EOK k1 Hm E1) as (Hm1 & _ & _); [intros k0; apply k_resume_all|intros h; apply k_resume_all|].
  destruct (resume_all_run k1 (HSender o) Hk1 I (wf_heads _ _ (ra_frame _ _ _ R1) _ Hs)) as (k2 & E2 & Hk2 & R2).
  pose proof (wf_obj _ _ (ra_frame _ _ _ R1)) as Eo.
  destruct (detach_after _ k1 RT_EOK k2 o ob RT_Object_Class_MailBox Hk1 Hm1 E2 Hk2 (wf_obj _ _ (ra_frame _ _ _ R2)))
    as (E3 & Hk3 & Hm3); [intros k0; apply k_resume_all|intros h; apply k_resume_all|by rewrite Eo|unfold has_type; by rewrite Eo|done..|].
  eexists. split; [|by split]. unfold rt_mb_detach. rewrite checks_run by done.
  by rewrite (bind_ok _ _ _ _ _ E1), (bind_ok _ _ _ _ _ E2), (bind_ok _ _ _ _ _ E3).
Qed.
Lemma mp_detach_goes : is_mp k o -> is_Some (pools k !! o) -> detachment (rt_mp_detach o) k.
Proof.
  intros Ho Hx. destruct Hst as (ob & Hob & _). pose proof Ho as [Hty _].
  destruct (mp_wake_all_run o k Hk Ho Hx) as (k1 & E1 & [Hk1 _ Eo _ _]).
  destruct (detach_after _ k tt k1 o ob RT_Object_Class_MemPool Hk Hm E1 Hk1 Eo) as (E2 & Hk2 & Hm2);
    [intros k0; apply k_mp_wake_all|intros h; apply k_mp_wake_all|done..|].
  eexists. split; [|by split]. unfold rt_mp_detach. rewrite checks_run by done.
  by rewrite (bind_ok _ _ _ _ _ E1), (bind_ok _ _ _ _ _ E2).
Qed.
Lemma timer_detach_goes tm : has_type k (AObj o) RT_Object_Class_Timer -> timers k !! AObj o = Some tm ->
  detachment (rt_timer_detach (AObj o)) k.
Proof.
  intros Hty Ht. destruct Hst as (ob & Ho & _). destruct (kwf_unrow k (AObj o) Hk) as [Hk1 Er].
  set (k1 := k_unrow (AObj o) k) in *.
  assert (E1 : liftT (_rt_timer_remove (AObj o)) k = Ok tt k1) by by eapply liftT_run, timer_remove_run.
  assert (Hm1 : mwf k1).
  { apply (mwf_frame k); [done| |done]. eapply keeps_frame_ts; [intros s0; apply same_remove|apply frame_refl|exact E1]. }
  destruct (kwf_detach k1 o ob _ Hk1 Ho Hty) as [E2 Hk2]; [done|rewrite Er, elem_of_without; tauto|].
  eexists. split; [|split; [exact Hk2|by eapply mwf_detach]]. unfold rt_timer_detach.
  assert (Hnull : is_null (AObj o) = (o =? RT_NULL)).
  { unfold is_null. destruct (Z.eqb_spec o RT_NULL) as [->|]; [by apply bool_decide_true|apply bool_decide_false; congruence]. }
  rewrite Hnull, checks_run by done. by rewrite (bind_ok _ _ _ _ _ E1), (bind_ok _ _ _ _ _ E2).
Qed.
End Detach.

End Lifetime.
