(* ===== verification/ThreadLife.v ===== *)
(** * The life of a thread

    Creation, termination, and the collection of terminated threads by the
    idle thread.  A thread that ends leaves the scheduler and its timer is
    detached; a static thread is detached from its container, a dynamic one is
    put on the list of terminated threads, from where the idle thread frees
    its stack and its structure. *)

From S2P Require Import Prelude Scheduler ReadyBitmap SchedInv SchedSpec Object ObjInv Timer TimerInv Kernel Thread.
From S2P Require Import Ipc Idle KernelInv ThreadInv IpcInv BlockInv ClockInv Boot Keeps Stable Frames Own Dynamic.
From S2P Require Import DynPool Lifetime.

Section ThreadLife.
Context `{CO : ConfigOk} {HP : Heap} {HO : HeapOk HP}.
Implicit Types (k : kstate).

(** ** A thread leaves the scheduler *)

Definition s_leave (t : Z) (th : rt_thread) (s : sched) : sched :=
  if stat_of th =? RT_THREAD_INIT then s else sched_remove t th s.
Definition s_close (t : Z) (th : rt_thread) (s : sched) : sched :=
  put_thread t (force_stat RT_THREAD_CLOSE th) (s_leave t th s).

Lemma close_stat th : stat_of (force_stat RT_THREAD_CLOSE th) = RT_THREAD_CLOSE.
Proof. done. Qed.

Lemma leave_frame t th s : sched_frame s (s_leave t th s) /\ sc_current (s_leave t th s) = sc_current s.
Proof. unfold s_leave. case_match; [done|]. unfold sched_remove. by case_match. Qed.

Lemma leave_lists t th s h : unlinked t s \/ stat_of th <> RT_THREAD_INIT -> lget (s_leave t th s) h = unlink t (lget s h).
Proof.
  intros Hu. unfold s_leave. destruct (Z.eqb_spec (stat_of th) RT_THREAD_INIT) as [E|E]; [|apply sched_remove_lget].
  destruct Hu as [Hu|]; [|done]. symmetry. apply unlink_notin, Hu.
Qed.

Lemma leave_heads t th s h : is_Some (sc_lists (s_leave t th s) !! h) <-> is_Some (sc_lists s !! h).
Proof.
  unfold s_leave. case_match; [done|]. rewrite sched_remove_lists, lookup_fmap. apply fmap_is_Some.
Qed.

Section Leave.
Variables (s : sched) (t : Z) (th : rt_thread).
Hypotheses (Hw : swf ∅ s) (Ht : sc_threads s !! t = Some th) (Hs : stat_of th <> RT_THREAD_CLOSE).

Lemma init_apart : unlinked t s \/ stat_of th <> RT_THREAD_INIT.
Proof.
  destruct (decide (stat_of th = RT_THREAD_INIT)) as [E|]; [left|by right]. intros h Hin.
  pose proof (sw_stat _ _ Hw h t th Hin Ht ltac:(set_solver)) as E'. rewrite E in E'. by destruct h.
Qed.

Lemma leave_run : stat_of th <> RT_THREAD_INIT -> rt_schedule_remove_thread t s = Ok tt (s_leave t th s).
Proof.
  intros Hi. unfold s_leave. rewrite (proj2 (Z.eqb_neq _ _) Hi). eapply remove_run; [done..|].
  by eapply ready_masks.
Qed.

Lemma leave_swf : swf {[t]} (s_leave t th s) /\ unlinked t (s_leave t th s).
Proof.
  unfold s_leave. destruct (Z.eqb_spec (stat_of th) RT_THREAD_INIT) as [E|E].
  - split; [apply (swf_weaken ∅); [done|set_solver]|]. by destruct init_apart.
  - destruct (remove_swf ∅ s t th Hw Ht) as [H1 H2]; [by eapply ready_masks|]. split; [|done].
    apply (swf_weaken ({[t]} ∪ ∅)); [done|set_solver].
Qed.

Lemma close_swf : swf ∅ (s_close t th s) /\ unlinked t (s_close t th s).
Proof.
  destruct leave_swf as [H1 H2]. split; [|exact H2]. destruct (sw_thread _ _ Hw t th Ht) as (T1 & T2 & T3 & T4).
  apply (swf_weaken (({[t]} ∪ {[t]}) ∖ {[t]})); [|set_solver]. apply swf_placed.
  - apply put_thread_swf; [done|done|]. split; [done|]. split; [done|]. split; [done|]. by intros _ [].
  - eapply placed_unlinked; [apply lookup_insert_eq|exact H2|done].
Qed.

Lemma close_threads : sc_threads (s_close t th s) = <[t := force_stat RT_THREAD_CLOSE th]> (sc_threads s).
Proof. unfold s_close. cbn. by destruct (leave_frame t th s) as [[-> _] _]. Qed.
Lemma close_lists h : lget (s_close t th s) h = unlink t (lget s h).
Proof. apply (leave_lists t th s h), init_apart. Qed.
End Leave.

(** ** Closing a thread: the scheduler, its timer and the timer's container *)

Definition timer_gone (t : Z) (tob : rt_object) (s : objsys) : objsys :=
  os_remove (ATimer t) (put_object (ATimer t) (mk_object (o_name tob) 0) s).

Definition k_close (t : Z) (th : rt_thread) (tob : rt_object) k : kstate :=
  put_obj (timer_gone t tob (k_obj k)) (put_sched (s_close t th (k_sched k)) (k_unrow (ATimer t) k)).

Lemma gone_timer_run k t tob tm :
  os_objs (k_obj k) !! ATimer t = Some tob -> type_of tob = RT_Object_Class_Timer -> is_static tob = true ->
  timers k !! ATimer t = Some tm ->
  rt_timer_detach (ATimer t) k = Ok RT_EOK (put_obj (timer_gone t tob (k_obj k)) (k_unrow (ATimer t) k)).
Proof.
  intros Ho Hty Hs Ht. assert (Hn : ATimer t <> AObj RT_NULL) by done. unfold rt_timer_detach.
  rewrite bind_assert by done. rewrite (bind_ok _ _ _ _ _ (assert_type_obj k _ _ ltac:(by exists tob) Hn)).
  assert (Es : assert_systemobject (ATimer t) true k = Ok tt k).
  { unfold assert_systemobject. erewrite bind_ok by (eapply liftO_run, is_system_run; eauto). by rewrite put_obj_id, Hs. }
  rewrite (bind_ok _ _ _ _ _ Es).
  rewrite (bind_ok _ _ _ _ _ (liftT_run (_rt_timer_remove (ATimer t)) k _ _ (timer_remove_run _ _ _ Ht))).
  erewrite bind_ok by (eapply liftO_run, detach_run; [exact Ho|done]). done.
Qed.

(** The header of the timer of a closed thread changes. *)
Lemma kwf_timer_gone k t th tob : kwf k -> threads k !! t = Some th -> stat_of th = RT_THREAD_CLOSE ->
  kwf (put_obj (timer_gone t tob (k_obj k)) k).
Proof.
  intros Hk Ht Hs.
  assert (Hty : forall o c, has_type (put_obj (timer_gone t tob (k_obj k)) k) (AObj o) c <-> has_type k (AObj o) c).
  { intros o c. unfold has_type, o_has_type. cbn. by rewrite lookup_insert_ne. }
  split; try apply Hk.
  - apply owf_detach; [apply Hk|done].
  - intros x thx Hx Hsx. destruct (kw_live _ Hk x thx Hx Hsx) as [L1 L2 L3 L4].
    assert (x <> t) by (intros ->; unfold threads in *; cbn in Hx; congruence).
    split; [by apply Hty|done|..].
    + unfold has_type, o_has_type. cbn. by rewrite lookup_insert_ne by congruence.
    + unfold has_static. cbn. by rewrite lookup_insert_ne by congruence.
  - intros x Hx. by apply Hty, (kw_defunct _ Hk).
  - intros p Hp. by apply Hty, (kw_utimer _ Hk).
  - apply (ipc_ok_frame k); [apply Hk|done|intros o c; by rewrite Hty|done| |by intros x y].
    intros x [H1 H2]. split; [done|by apply Hty].
Qed.

(** What closing the thread [t] leaves. *)
Record closed (t : Z) (th : rt_thread) k (k' : kstate) : Prop := {
  cl_kwf : kwf k';
  cl_threads : threads k' = <[t := force_stat RT_THREAD_CLOSE th]> (threads k);
  cl_unlinked : unlinked t (k_sched k');
  cl_waiters : forall h, waiters k' h = unlink t (waiters k h);
  cl_heads : forall h, head_exists k' h <-> head_exists k h;
  cl_objs : forall a, a <> ATimer t -> os_objs (k_obj k') !! a = os_objs (k_obj k) !! a;
  cl_linked : forall a, a <> ATimer t -> object_linked a (k_obj k') = object_linked a (k_obj k);
  cl_detached : object_linked (ATimer t) (k_obj k') = false;
  cl_running : ATimer t ∉ running k';
  cl_timers : timers k' = timers k;
  cl_ipc : k_ipc k' = k_ipc k;
  cl_heap : k_heap k' = k_heap k;
  cl_frame : sched_frame (put_thread t (force_stat RT_THREAD_CLOSE th) (k_sched k)) (k_sched k');
  cl_current : sc_current (k_sched k') = sc_current (k_sched k)
}.

Lemma k_close_closed k t th tob : kwf k -> threads k !! t = Some th -> stat_of th <> RT_THREAD_CLOSE ->
  closed t th k (k_close t th tob k).
Proof.
  intros Hk Ht Hs. destruct (close_swf (k_sched k) t th (kw_sched _ Hk) Ht Hs) as [Hw Hu].
  pose proof (close_threads (k_sched k) t th) as Eth.
  assert (El : forall h, lget (s_close t th (k_sched k)) h = unlink t (lget (k_sched k) h)).
  { intros h. apply close_lists; [apply Hk|done..]. }
  destruct (kwf_unrow k (ATimer t) Hk) as [Hk1 Er].
  assert (Hh : forall h, is_Some (sc_lists (s_close t th (k_sched k)) !! h) <-> head_exists k h) by apply leave_heads.
  assert (Hk2 : kwf (put_sched (s_close t th (k_sched k)) (k_unrow (ATimer t) k))).
  { apply kwf_sched_step; [done|eapply (sched_step_thread _ _ t th); try done|].
    - right. rewrite Er, elem_of_without. tauto.
    - intros h Hh'. by apply Hh.
    - intros x. rewrite El, elem_of_unlink. by intros [? _].
    - intros o x. rewrite El, elem_of_unlink. by intros [? _]. }
  destruct (leave_frame t th (k_sched k)) as [Hf Hc].
  split; try done.
  - apply (kwf_timer_gone _ t (force_stat RT_THREAD_CLOSE th) tob Hk2); [|done].
    unfold threads. cbn [k_sched put_sched]. rewrite Eth. apply lookup_insert_eq.
  - intros a Ha. cbn. by rewrite lookup_insert_ne.
  - intros a Ha. by etransitivity; [apply linked_remove|].
  - apply detached_iff, os_remove_detached.
  - change (ATimer t ∉ running (k_unrow (ATimer t) k)). rewrite Er, elem_of_without. tauto.
  - destruct Hf as (F1 & F2 & F3). split; [exact Eth|done].
Qed.

Section Closing.
Variables (k : kstate) (t : Z) (th : rt_thread).
Hypotheses (Hk : kwf k) (Ht : threads k !! t = Some th) (Hs : stat_of th <> RT_THREAD_CLOSE).

Lemma live_timer : exists tob tm, os_objs (k_obj k) !! ATimer t = Some tob /\ type_of tob = RT_Object_Class_Timer /\
  is_static tob = true /\ timers k !! ATimer t = Some tm.
Proof.
  destruct (kw_live _ Hk t th Ht Hs) as [_ (tm & Htm & _) (tob & Ho & Hty) (tob' & Ho' & Hst)].
  exists tob, tm. assert (tob' = tob) as -> by congruence. done.
Qed.

(** As [rt_thread_detach] and [rt_thread_delete] close the thread. *)
Lemma unschedule_run {A} (m : K A) : exists tob,
  (thread_unschedule t;; rt_timer_detach (ATimer t);; liftS (upd_thread t (force_stat RT_THREAD_CLOSE));; m) k =
  m (k_close t th tob k).
Proof.
  destruct live_timer as (tob & tm & T1 & T2 & T3 & T4). exists tob.
  set (k1 := put_sched (s_leave t th (k_sched k)) k).
  assert (E1 : thread_unschedule t k = Ok tt k1).
  { unfold thread_unschedule. rewrite (bind_ok _ _ _ _ _ (thread_stat_run _ _ _ Ht)).
    destruct (Z.eqb_spec (stat_of th) RT_THREAD_INIT) as [E|E]; cbn [negb when].
    - unfold k1, s_leave. by rewrite E, Z.eqb_refl, put_sched_id.
    - apply liftS_run, leave_run; [apply Hk|done..]. }
  rewrite (bind_ok _ _ _ _ _ E1), (bind_ok _ _ _ _ _ (gone_timer_run k1 t tob tm T1 T2 T3 T4)).
  erewrite bind_ok; [|apply k_upd_thread_run; unfold threads; cbn; by destruct (leave_frame t th (k_sched k)) as [[-> _] _]].
  done.
Qed.

(** As [rt_thread_exit] closes the running thread. *)
Lemma exit_close_run {A} (m : K A) : stat_of th = RT_THREAD_READY -> exists tob,
  (liftS (rt_schedule_remove_thread t);; liftS (upd_thread t (force_stat RT_THREAD_CLOSE));; rt_timer_detach (ATimer t);; m) k =
  m (k_close t th tob k).
Proof.
  intros Hr. destruct live_timer as (tob & tm & T1 & T2 & T3 & T4). exists tob.
  erewrite bind_ok by (apply liftS_run, leave_run; [apply Hk|done|done|by rewrite Hr]).
  erewrite bind_ok; [|apply k_upd_thread_run; unfold threads; cbn; by destruct (leave_frame t th (k_sched k)) as [[-> _] _]].
  by erewrite bind_ok by (by apply (gone_timer_run _ t tob tm)).
Qed.
End Closing.

Lemma closed_frame k t th k' : closed t th k k' -> frame_but {[t]} k k'.
Proof.
  intros [_ C2 _ C4 C5 C6 C7 _ _ C10 C11 _ _ _] p Hp. assert (Hne : p <> t) by set_solver.
  split; rewrite ?C10, ?C11; try done.
  - by apply C6.
  - apply C6. congruence.
  - by apply C7.
  - apply C7. congruence.
  - by rewrite C2, lookup_insert_ne.
  - rewrite C4, elem_of_unlink. by intros [? _].
Qed.

(** ** The list of terminated threads *)

Lemma kwf_defunct k t th : kwf k -> threads k !! t = Some th -> stat_of th = RT_THREAD_CLOSE -> unlinked t (k_sched k) ->
  has_type k (AObj t) RT_Object_Class_Thread -> kwf (k_link HDefunct (t :: waiters k HDefunct) k).
Proof.
  intros Hk Ht Hs Hu Hty. pose proof (kw_sched _ Hk) as Hw. split; try apply Hk.
  - assert (Hw' : swf {[t]} (k_sched k)) by (apply (swf_weaken ∅); [done|set_solver]).
    apply (swf_weaken ({[t]} ∖ {[t]})); [|set_solver]. apply swf_placed.
    + apply (link_wait_swf _ _ t th); try done; [set_solver|apply Hw].
    + apply (link_placed {[t]} _ t th); try done; [set_solver|apply Hw].
  - intros x thx Hx Hsx. destruct (kw_live _ Hk x thx Hx Hsx). by split.
  - intros x. unfold waiters. cbn [k_sched k_link put_sched]. rewrite lget_put, decide_True by done.
    intros [->|Hx]%elem_of_cons; [done|]. by apply (kw_defunct _ Hk).
  - apply ipc_ok_link; [apply Hk|]. by intros o.
Qed.

Lemma kwf_thread_gone k t th ob : kwf k -> threads k !! t = Some th -> stat_of th = RT_THREAD_CLOSE ->
  os_objs (k_obj k) !! AObj t = Some ob -> type_of ob = RT_Object_Class_Thread -> kwf (k_detach t ob k).
Proof.
  intros Hk Ht Hs Ho Hty.
  assert (Ht' : forall a c, has_type (k_detach t ob k) a c <-> has_type k a c).
  { intros a c. destruct (decide (a = AObj t)) as [->|Hne]; [|by apply detach_type].
    unfold has_type, o_has_type. rewrite Ho. split; intros (ob' & E & Hc).
    - cbn in E. rewrite lookup_insert_eq in E. injection E as <-. exists ob. split; [done|]. by rewrite Hty.
    - injection E as <-. eexists. split; [apply lookup_insert_eq|]. by rewrite <- Hc, Hty. }
  split; try apply Hk.
  - apply owf_detach; [apply Hk|]. apply (has_type_nonnull k _ (type_of ob)); [done|by exists ob].
  - intros x thx Hx Hsx. destruct (kw_live _ Hk x thx Hx Hsx) as [L1 L2 L3 L4].
    split; [by apply Ht'|done|by apply Ht'|]. unfold has_static. cbn. by rewrite lookup_insert_ne.
  - intros x Hx. by apply Ht', (kw_defunct _ Hk).
  - intros p Hp. by apply Ht', (kw_utimer _ Hk).
  - apply (ipc_ok_frame k); [apply Hk|done|intros o c; by rewrite Ht'|done| |by intros x y].
    intros x [H1 H2]. split; [done|by apply Ht'].
Qed.

Definition to_defunct (t : Z) k : kstate := k_link HDefunct (t :: waiters k HDefunct) k.

Lemma defunct_frame k t : frame_but {[t]} k (to_defunct t k).
Proof.
  intros p Hp. assert (Hne : p <> t) by set_solver.
  split; try done; unfold head_exists, waiters; cbn [k_sched to_defunct k_link put_sched].
  - cbn. by rewrite lookup_insert_ne.
  - cbn. by rewrite lookup_insert_ne.
  - rewrite lget_put, decide_True by done. by intros [->|?]%elem_of_cons.
Qed.

Section Ending.
Variables (k : kstate) (t : Z) (th : rt_thread) (k1 : kstate) (ob : rt_object).
Hypotheses (Hk : kwf k) (Hm : mwf k) (Ht : threads k !! t = Some th) (Hs : stat_of th <> RT_THREAD_CLOSE)
  (Hc : closed t th k k1) (Ho : os_objs (k_obj k) !! AObj t = Some ob).

Lemma end_type : type_of ob = RT_Object_Class_Thread.
Proof. destruct (tl_type _ _ (kw_live _ Hk t th Ht Hs)) as (ob' & Ho' & <-). congruence. Qed.

Lemma end_head : os_objs (k_obj k1) !! AObj t = Some ob.
Proof. by rewrite (cl_objs _ _ _ _ Hc). Qed.

Lemma end_thread : threads k1 !! t = Some (force_stat RT_THREAD_CLOSE th).
Proof. rewrite (cl_threads _ _ _ _ Hc). apply lookup_insert_eq. Qed.

Lemma end_live : live k1 = live k.
Proof. unfold live. by rewrite (cl_heap _ _ _ _ Hc). Qed.

(** The thread goes to the list of terminated threads. *)
Lemma end_defunct_kwf : kwf (to_defunct t k1).
Proof.
  eapply kwf_defunct; [apply Hc|exact end_thread|done|apply Hc|]. exists ob. split; [exact end_head|exact end_type].
Qed.

Lemma end_defunct_frame : frame_but {[t]} k (to_defunct t k1).
Proof. eapply frame_trans; [by eapply closed_frame|apply defunct_frame]. Qed.

Lemma end_linked : object_linked (AObj t) (k_obj (to_defunct t k1)) = object_linked (AObj t) (k_obj k).
Proof. by apply (cl_linked _ _ _ _ Hc). Qed.

Lemma end_dynamic : dynamic k t ob -> mwf (to_defunct t k1).
Proof.
  intros Hd. pose proof end_defunct_frame as Hf. pose proof end_type as Hty.
  destruct (mw_dynamic _ Hm t ob Hd) as [Hlt [_ P2 P3]].
  assert (Hown : owns k t (th_stack_addr th)) by (exists ob; split; [done|]; rewrite Hty; unfold buffer_at; cbn; by rewrite Ht).
  destruct (mw_owns _ Hm t _ Hown) as [Hlb Hvb]. pose proof end_live as El.
  assert (Hne : th_stack_addr th <> t) by (intros E; rewrite E in Hvb; by apply (vacant_free k t ob)).
  assert (Hvb' : vacant (to_defunct t k1) (th_stack_addr th)) by (apply (vacant_same k); [apply Hf; set_solver|done]).
  apply (mwf_step k _ t {[th_stack_addr th]}); try done.
  - eapply frame_weaken; [exact Hf|set_solver].
  - intros p _ _. change (p ∈ live k1 <-> p ∈ live k). by rewrite El.
  - intros b ->%elem_of_singleton. split; [done|]. split; [done|]. split; [done|].
    split; [apply vacant_not_defunct; [apply end_defunct_kwf|done]|]. intros p Hp Hpo. by apply Hp, (mw_unique _ Hm p t _ Hpo).
  - intros p Hp. destruct (mw_owns _ Hm p t Hp) as [_ Hv]. by apply (vacant_free k t ob).
  - intros _ Hn. destruct Hn. change (t ∈ live k1). by rewrite El.
  - intros ob' (Ho' & _). change (os_objs (k_obj k1) !! AObj t = Some ob') in Ho'. rewrite end_head in Ho'. injection Ho' as <-.
    split; [change (t ∈ live k1); by rewrite El|]. rewrite Hty in *. split; [done| |].
    + intros H Hh. apply P2; [done|]. apply (cl_heads _ _ _ _ Hc). revert Hh. unfold head_exists. cbn. by rewrite lookup_insert_ne.
    + intros H Hh. apply P3; [done|]. apply (cl_heads _ _ _ _ Hc). revert Hh. unfold head_exists. cbn. by rewrite lookup_insert_ne.
  - intros b (ob' & (Ho' & _) & Eb). change (os_objs (k_obj k1) !! AObj t = Some ob') in Ho'. rewrite end_head in Ho'. injection Ho' as <-.
    rewrite Hty in Eb. unfold buffer_at in Eb. cbn in Eb. change (sc_threads (k_sched k1) !! t) with (threads k1 !! t) in Eb.
    rewrite end_thread in Eb. injection Eb as <-. split; [set_solver|]. change (th_stack_addr th ∈ live k1). by rewrite El.
  - intros _. split; [rewrite end_linked; apply Hd|apply (cl_detached _ _ _ _ Hc)].
Qed.

(** A static thread with a cleanup function. *)
Lemma end_kept : is_static ob = true -> object_linked (AObj t) (k_obj k) = true -> mwf (to_defunct t k1).
Proof.
  intros Hst Hl. apply (mwf_static k _ t); try done.
  - apply end_defunct_frame.
  - exact end_live.
  - right. by eexists.
  - intros ob' (Ho' & Hs' & _). change (os_objs (k_obj k1) !! AObj t = Some ob') in Ho'. rewrite end_head in Ho'. congruence.
  - intros _. split; [by rewrite end_linked|apply (cl_detached _ _ _ _ Hc)].
Qed.

(** A static thread without one. *)
Lemma end_static : is_static ob = true ->
  liftO (rt_object_detach (AObj t)) k1 = Ok tt (k_detach t ob k1) /\ kwf (k_detach t ob k1) /\ mwf (k_detach t ob k1).
Proof.
  intros Hst. pose proof end_type as Hty. assert (Hn : AObj t <> AObj RT_NULL).
  { apply (has_type_nonnull k _ (type_of ob)); [done|by exists ob]. }
  split; [by apply liftO_run, detach_run; [exact end_head|]|]. split.
  - eapply kwf_thread_gone; [apply Hc|exact end_thread|done|exact end_head|done].
  - apply (mwf_static k _ t); try done.
    + eapply frame_trans; [by eapply closed_frame|apply detach_frame].
    + exact end_live.
    + right. by eexists.
    + intros ob' (_ & _ & Hl). by rewrite detach_unlinked in Hl.
    + intros Hin. by destruct (cl_unlinked _ _ _ _ Hc HDefunct).
Qed.

Lemma insert_defunct_run : liftS (tlist_insert_after HDefunct t) k1 = Ok tt (to_defunct t k1).
Proof.
  apply liftS_run. eapply tlist_insert_after_run; [exact end_thread| |apply Hc].
  destruct (sw_defunct _ _ (kw_sched _ (cl_kwf _ _ _ _ Hc))) as [l Hl]. unfold waiters, lget. by rewrite Hl.
Qed.
End Ending.

(** ** Termination *)

Section Terminate.
Variables (k : kstate) (t : Z) (th : rt_thread) (ob : rt_object).
Hypotheses (Hk : kwf k) (Hm : mwf k) (Ht : threads k !! t = Some th) (Hs : stat_of th <> RT_THREAD_CLOSE)
  (Ho : os_objs (k_obj k) !! AObj t = Some ob).

Lemma thread_check_run {A} (m : K A) :
  (RT_ASSERT (negb (t =? RT_NULL));; assert_type (AObj t) RT_Object_Class_Thread;;
   assert_systemobject (AObj t) (is_static ob);; m) k = m k.
Proof.
  rewrite (check_run _ _ _ _ Hk (tl_type _ _ (kw_live _ Hk t th Ht Hs))).
  by rewrite (bind_ok _ _ _ _ _ (assert_system_run k t ob _ Hk Ho eq_refl)).
Qed.

Lemma thread_delete_run : dynamic k t ob ->
  exists k1, closed t th k k1 /\ rt_thread_delete t k = Ok RT_EOK (to_defunct t k1) /\
    kwf (to_defunct t k1) /\ mwf (to_defunct t k1).
Proof.
  intros Hd. assert (Hst : is_static ob = false) by apply Hd.
  destruct (unschedule_run k t th Hk Ht Hs (liftS (tlist_insert_after HDefunct t);; mret RT_EOK)) as [tob E].
  pose proof (k_close_closed k t th tob Hk Ht Hs) as Hc. exists (k_close t th tob k). split; [done|]. split.
  - unfold rt_thread_delete. rewrite <- Hst, thread_check_run, E.
    by rewrite (bind_ok _ _ _ _ _ (insert_defunct_run k t th _ Hc)).
  - split; [by apply (end_defunct_kwf k t th _ ob)|by apply (end_dynamic k t th _ ob)].
Qed.

Lemma thread_detach_run : is_static ob = true -> th_cleanup th = RT_NULL ->
  exists k1, closed t th k k1 /\ rt_thread_detach t k = Ok RT_EOK (k_detach t ob k1) /\
    kwf (k_detach t ob k1) /\ mwf (k_detach t ob k1).
Proof.
  intros Hst Hcl. set (m := (liftO (rt_object_detach (AObj t));; th ← liftS (get_thread t);
    when (negb (th_cleanup th =? RT_NULL)) (liftS (tlist_insert_after HDefunct t));; mret RT_EOK)).
  destruct (unschedule_run k t th Hk Ht Hs m) as [tob E].
  pose proof (k_close_closed k t th tob Hk Ht Hs) as Hc. exists (k_close t th tob k). split; [done|].
  destruct (end_static k t th _ ob Hk Hm Ht Hs Hc Ho Hst) as (E2 & Hk2 & Hm2). split; [|done].
  unfold rt_thread_detach. rewrite <- Hst, thread_check_run. unfold m in E. rewrite E.
  rewrite (bind_ok _ _ _ _ _ E2).
  erewrite bind_ok by (apply k_thread_run; exact (end_thread k t th _ Hc)). cbn. by rewrite Hcl, Z.eqb_refl.
Qed.

(** The state in which an ending thread calls the scheduler. *)
Definition exit_state (k1 : kstate) : kstate :=
  if is_static ob && (th_cleanup th =? RT_NULL) then k_detach t ob k1 else to_defunct t k1.

Lemma thread_exit_run : t = sc_current (k_sched k) -> stat_of th = RT_THREAD_READY ->
  is_static ob = true \/ dynamic k t ob -> object_linked (AObj t) (k_obj k) = true ->
  exists k1 s', closed t th k k1 /\ rt_thread_exit k = Ok tt (put_sched s' (exit_state k1)) /\
    rescheduled (k_sched (exit_state k1)) s' /\ kwf (exit_state k1) /\
    kwf (put_sched s' (exit_state k1)) /\ mwf (put_sched s' (exit_state k1)).
Proof.
  intros Hcur Hr Hd Hl. assert (Hn : t <> RT_NULL) by apply (sw_thread _ _ (kw_sched _ Hk) t th Ht).
  set (m := (sys ← liftO (rt_object_is_systemobject (AObj t)); th ← liftS (get_thread t);
    (if (sys : bool) && (th_cleanup th =? RT_NULL) then liftO (rt_object_detach (AObj t))
     else liftS (tlist_insert_after HDefunct t));; liftS rt_schedule)).
  destruct (exit_close_run k t th Hk Ht Hs m Hr) as [tob E]. exists (k_close t th tob k).
  pose proof (k_close_closed k t th tob Hk Ht Hs) as Hc. set (k1 := k_close t th tob k) in *.
  pose proof (end_head k t th k1 ob Hc Ho) as Ho1.
  assert (Hx : kwf (exit_state k1) /\ mwf (exit_state k1)).
  { unfold exit_state. destruct (is_static ob && _) eqn:Eb.
    - apply andb_true_iff in Eb as [Eb _]. by apply (end_static k t th _ ob).
    - split; [by apply (end_defunct_kwf k t th _ ob)|].
      destruct Hd as [Hst|Hd]; [by apply (end_kept k t th _ ob)|by apply (end_dynamic k t th _ ob)]. }
  destruct Hx as [Hkx Hmx].
  assert (Hcx : sc_current (k_sched (exit_state k1)) <> RT_NULL).
  { unfold exit_state. assert (sc_current (k_sched k1) <> RT_NULL) by by rewrite (cl_current _ _ _ _ Hc), <- Hcur.
    by case_match. }
  destruct (k_schedule_run _ Hkx Hcx) as (s' & E3 & Hk3 & Hres). exists s'. split; [done|].
  assert (Ex : rt_thread_exit k = Ok tt (put_sched s' (exit_state k1))).
  { unfold rt_thread_exit. rewrite (bind_ok _ _ _ _ _ (k_self_run k)), <- Hcur. unfold m in E. rewrite E.
    erewrite bind_ok by (eapply liftO_run, is_system_run; [exact Ho1|congruence]). rewrite put_obj_id.
    rewrite (bind_ok _ _ _ _ _ (k_thread_run k1 t _ (end_thread k t th _ Hc))).
    change (th_cleanup (force_stat _ th)) with (th_cleanup th). rewrite <- E3. unfold exit_state.
    destruct (is_static ob && (th_cleanup th =? RT_NULL)) eqn:Eb.
    - apply andb_true_iff in Eb as [Eb _]. destruct (end_static k t th _ ob Hk Hm Ht Hs Hc Ho Eb) as (E2 & _).
      by rewrite (bind_ok _ _ _ _ _ E2).
    - by rewrite (bind_ok _ _ _ _ _ (insert_defunct_run k t th _ Hc)). }
  split; [done|]. split; [done|]. split; [done|]. split; [done|].
  apply (mwf_frame (exit_state k1)); [done| |done].
  eapply (keeps_shape (I := frame_but ∅ (exit_state k1)) rt_schedule); [|apply frame_refl|exact E3].
  intros s0. apply shape_schedule.
Qed.
End Terminate.

(** ** Creation *)

Lemma inited_frame k t th k' : thread_inited k t th k' -> frame_but {[t]} k k'.
Proof.
  intros [Es (ob & tob & s1 & A1 & A2 & _) (tm & Ets & _) Ei _] p Hp. assert (Hne : p <> t) by set_solver.
  assert (Ha : forall a, owner a = p -> os_objs (k_obj k') !! a = os_objs (k_obj k) !! a /\
    object_linked a (k_obj k') = object_linked a (k_obj k)).
  { intros a <-. assert (a <> AObj t /\ a <> ATimer t) as [H1 H2] by (split; intros ->; by apply Hne).
    rewrite (at_objs _ _ _ _ A2), (at_others _ _ _ _ A2), (at_others _ _ _ _ A1) by done. split; [|done].
    rewrite lookup_insert_ne by done. rewrite (at_objs _ _ _ _ A1). by rewrite lookup_insert_ne. }
  split; try (by apply Ha); unfold threads, timers, head_exists, waiters; rewrite ?Es, ?Ets, ?Ei; try done;
    cbn; by rewrite lookup_insert_ne by congruence.
Qed.

Lemma thread_create_run k name entry par size prio tick : kwf k -> mwf k -> irq0 k ->
  0 <= prio < RT_THREAD_PRIORITY_MAX ->
  exists t k', rt_thread_create name entry par size prio tick k = Ok t k' /\ creation k RT_Object_Class_Thread t k' /\
    (t <> RT_NULL -> exists th stack, created k RT_Object_Class_Thread t {[stack]} k' /\ (stack ∉ live k) /\
      k_sched k' = put_thread t th (k_sched k) /\ k_ipc k' = k_ipc k /\ thread_new th entry par stack size prio tick).
Proof.
  intros Hk Hm Hi Hpr. set (c := RT_Object_Class_Thread). assert (Hcl : c ∈ container_classes) by class_mem.
  unfold rt_thread_create. destruct (allocate_run k c name Hk Hm Hi Hcl) as [(h & E & Hr)|(p & h & s' & Hal)].
  { exists RT_NULL, (put_heap h k). split; [by rewrite (bind_ok _ _ _ _ _ E)|]. split; [|done].
    left. split; [done|by apply refused_not_created]. }
  pose proof Hal as [[G1 G2 G3 G4 G5] Er Ha Hf Hkh]. pose proof (pos_nonnull p G4) as Gn. set (ob := mk_object _ _) in *.
  destruct (dynamic_type (name_copy RT_NAME_MAX name) c Hcl) as [T1 T2]. fold ob in T1, T2.
  rewrite (bind_ok _ _ _ _ _ Er), (proj2 (Z.eqb_neq p RT_NULL) Gn).
  destruct (pool_malloc_run k p (put_obj s' (put_heap h k)) size) as (b & h2 & E3 & Hh2 & Hb); [done..|].
  rewrite (bind_ok _ _ _ _ _ E3). destruct Hb as [[-> Hl2]|(B1 & B2 & B3 & B4 & Hl2)].
  { destruct (allocated_begun k c name p h s' h2) as [Hbg _]; [done..|].
    destruct (undo_run k p _ _ Hk Hm G2 G3 G4 T2 Hbg) as (k' & E4 & Hnc). exists RT_NULL, k'.
    split; [rewrite Z.eqb_refl; by erewrite bind_ok by exact E4|]. split; [by left|done]. }
  rewrite (proj2 (Z.eqb_neq b RT_NULL) (pos_nonnull b B1)).
  destruct (thread_setup_run (put_heap h2 k) p ob s' entry par b size prio tick (kwf_heap k h2 Hk Hh2) (fresh_heap _ h2 p Hf) Ha T1 Hpr)
    as (k' & th & E5 & Hk' & Hin & Hnew & Ho & Hlk).
  exists p, k'. split; [by erewrite bind_ok by exact E5|].
  pose proof (inited_frame _ _ _ _ Hin) as Hfr. pose proof (mw_vacant _ Hm p G3 G2) as Hv. pose proof Hin as [Es _ _ _ Eh].
  assert (Hth : threads k' = <[p := th]> (threads k)) by (unfold threads; by rewrite Es).
  assert (Hlive : live k' = {[p]} ∪ {[b]} ∪ live k) by (unfold live; by rewrite Eh).
  assert (Hd : dynamic k' p ob) by done.
  assert (Hb : buffer_at k' p (type_of ob) = Some b).
  { rewrite T1. unfold buffer_at. cbn. rewrite Hth, lookup_insert_eq. cbn. f_equal. apply Hnew. }
  assert (Hfk : frame_but {[p]} k k') by (eapply frame_trans; [apply (frame_heap _ k h2)|done]).
  cut (created k c p {[b]} k').
  { intros Hcr. split; [right; by exists {[b]}|]. intros _. exists th, b. split; [done|]. split; [done|]. split; [done|].
    split; [apply (ti_ipc _ _ _ _ Hin)|done]. }
  split; try done.
  - apply (mwf_created k k' p ob {[b]}); try done.
    + intros b' ->%elem_of_singleton. split; [done|]. split; [done|]. split; [done|].
      apply (vacant_same k); [apply Hfk; set_solver|by apply (mw_vacant _ Hm)].
    + eapply frame_weaken; [done|set_solver].
    + rewrite T1. split; [done| |]; intros _; unfold head_exists; rewrite Es; apply Hv.
    + intros b' Hb'. rewrite Hb in Hb'. injection Hb' as <-. set_solver.
    + intros Hin'. unfold waiters in Hin'. rewrite Es in Hin'. by apply (vacant_not_defunct k p Hk Hv).
  - unfold irq0. rewrite Es. exact Hi.
  - by exists ob.
  - eapply frame_weaken; [done|set_solver].
Qed.

End ThreadLife.
