(* ===== verification/IdleSpec.v ===== *)
(** * What the idle thread frees

    The idle thread takes the terminated threads off their list one after the
    other, calls their cleanup functions and frees their stacks and
    structures. *)

From S2P Require Import Prelude Scheduler ReadyBitmap SchedInv SchedSpec Object ObjInv Timer TimerInv Kernel Thread.
From S2P Require Import Ipc Idle KernelInv ThreadInv IpcInv BlockInv ClockInv Boot Keeps Stable Frames Own Dynamic.
From S2P Require Import DynPool Lifetime ThreadLife.

Section Idle.
Context `{CO : ConfigOk} {HP : Heap} {HO : HeapOk HP}.
Implicit Types (k : kstate).

(** ** The scheduler and the list of terminated threads *)

(** The running thread is ready. *)
Definition runs_ready k : Prop :=
  exists th, threads k !! sc_current (k_sched k) = Some th /\ stat_of th = RT_THREAD_READY.

Lemma runs_nonnull k : kwf k -> runs_ready k -> sc_current (k_sched k) <> RT_NULL.
Proof. intros Hk (th & Ht & _). apply (sw_thread _ _ (kw_sched _ Hk) _ _ Ht). Qed.

Lemma abs_schedule_defunct s : swf ∅ s -> default [] ((abs_schedule s).2 !! HDefunct) = lget s HDefunct.
Proof.
  intros Hw. unfold abs_schedule. destruct (top_ready s) as [[x p]|] eqn:Ex; [|done].
  assert (Hx : unlink x (lget s HDefunct) = lget s HDefunct).
  { destruct (Z.eq_dec (sc_group s) 0) as [Hg|Hg]; [by rewrite (top_ready_none _ _ Hw Hg) in Ex|].
    destruct (get_highest_run _ _ Hw Hg) as (x' & p' & rest & _ & Hq & _ & Ex'). simplify_eq.
    apply unlink_notin. intros Hin. assert (Hr : x ∈ lget s (HReady p)) by (unfold rdy in Hq; rewrite Hq; set_solver).
    by pose proof (sw_disj _ _ Hw _ _ _ Hin Hr). }
  destruct (sw_defunct _ _ Hw) as [l Hl]. unfold lget in *. rewrite Hl in *. cbn in Hx.
  repeat case_match; cbn; rewrite ?lookup_fmap, ?lookup_insert_ne, ?Hl by done; done.
Qed.

Lemma resched_defunct k s' : kwf k -> rescheduled (k_sched k) s' ->
  waiters (put_sched s' k) HDefunct = waiters k HDefunct.
Proof.
  intros Hk (_ & H1 & H2). destruct (Z.eq_dec (sc_lock_nest (k_sched k)) 0) as [Hl|Hl]; [|by rewrite (H1 Hl), put_sched_id].
  specialize (H2 Hl). apply (f_equal snd) in H2. cbn in H2. unfold waiters, lget. cbn. rewrite H2.
  apply abs_schedule_defunct, Hk.
Qed.

Lemma resched_idle k s' : kwf k -> runs_ready k -> rescheduled (k_sched k) s' ->
  runs_ready (put_sched s' k) /\ waiters (put_sched s' k) HDefunct = waiters k HDefunct.
Proof.
  intros Hk Hr Hres. split; [|by apply resched_defunct]. destruct Hres as ((F1 & _) & H1 & H2).
  pose proof (kw_sched _ Hk) as Hw. pose proof (runs_nonnull k Hk Hr) as Hn.
  destruct (Z.eq_dec (sc_lock_nest (k_sched k)) 0) as [Hl|Hl]; [|by rewrite (H1 Hl), put_sched_id].
  specialize (H2 Hl). destruct Hr as (th & Ht & Hs).
  apply (f_equal fst) in H2. cbn in H2. pose proof (abs_schedule_nonnull _ Hw Hn) as Hn'.
  assert (Hx : exists thx, sc_threads (k_sched k) !! (abs_schedule (k_sched k)).1 = Some thx).
  { unfold abs_schedule. destruct (top_ready _) as [[x p]|] eqn:Ex; [|by exists th].
    destruct (Z.eq_dec (sc_group (k_sched k)) 0) as [Hg|Hg]; [by rewrite (top_ready_none _ _ Hw Hg) in Ex|].
    destruct (get_highest_run _ _ Hw Hg) as (x' & p' & rest & _ & Hq & _ & Ex'). simplify_eq.
    destruct (sw_member _ _ Hw (HReady p) x) as [thx Hx]; [unfold rdy in Hq; rewrite Hq; set_solver|].
    unfold threads in Ht. rewrite Ht. destruct (stat_of th =? _); [|by exists thx].
    destruct (_ <? _); [by exists th|by exists thx]. }
  destruct Hx as [thx Hx]. exists thx. unfold threads. cbn. rewrite F1, H2. split; [done|].
  by destruct (abs_schedule_min _ thx _ th Hw Hn Hx Ht Hs).
Qed.

(** ** Threads that can be freed *)

Definition no_mutex k (t : Z) : Prop := forall o x, has_type k (AObj o) RT_Object_Class_Mutex ->
  ip_mutex (k_ipc k) !! o = Some x -> mutex_value x = 0 -> mutex_owner x <> t.

(** A thread the idle thread has taken off the list. *)
Record collected k (t : Z) : Prop := {
  co_dynamic : exists ob, dynamic k t ob /\ type_of ob = RT_Object_Class_Thread;
  co_closed : exists th, threads k !! t = Some th /\ stat_of th = RT_THREAD_CLOSE;
  co_unlinked : unlinked t (k_sched k);
  co_timer : object_linked (ATimer t) (k_obj k) = false;
  co_current : t <> sc_current (k_sched k);
  co_mutex : no_mutex k t
}.

Lemma idle_free_run k t : kwf k -> mwf k -> irq0 k -> collected k t ->
  exists th k', threads k !! t = Some th /\ idle_free t k = Ok tt k' /\
    deleted k t {[th_stack_addr th]} k' /\ vacant k' (th_stack_addr th) /\
    k_sched k' = forget_sched t (forget_sched (th_stack_addr th) (k_sched k)) /\
    ip_mutex (k_ipc k') = delete t (delete (th_stack_addr th) (ip_mutex (k_ipc k))).
Proof.
  intros Hk Hm Hi [(ob & Hd & Hty) (th & Ht & Hs) Hu Htm Hc Hmx].
  destruct (mw_dynamic _ Hm t ob Hd) as [_ [_ P2 P3]]. rewrite Hty in *.
  assert (Hun : unused k t).
  { split; [done|done| | |done].
    - split; apply no_head; [apply P3; by left|by apply P2].
    - split; [apply (not_timer k t ob); try done; by rewrite Hty|].
      intros Hin. destruct (kw_ttimer _ Hk t Hin) as (th' & _ & Ht' & Hs' & _). rewrite Ht in Ht'. injection Ht' as <-.
      by rewrite Hs in Hs'. }
  assert (Hb : buffer_at k t (type_of ob) = Some (th_stack_addr th)) by (rewrite Hty; unfold buffer_at; cbn; by rewrite Ht).
  apply detached_iff in Htm. destruct (owned_delete_run k t ob _ Hk Hm Hi Hd Hun Htm Hb) as (k2 & E2 & H).
  destruct (H (ip_words (k_ipc k2))) as (k' & E3 & Hde & Hv). rewrite put_words_id in E3.
  exists th, k'. split; [done|]. split; [|done]. unfold idle_free.
  by rewrite (bind_ok _ _ _ _ _ (k_thread_run _ _ _ Ht)), (bind_ok _ _ _ _ _ E2).
Qed.

(** ** Taking a thread off the list *)

Definition k_lock (n : Z) k : kstate := put_sched (put_lock n (k_sched k)) k.

Lemma kwf_lock k n : kwf k -> kwf (k_lock n k).
Proof.
  intros Hk. pose proof (kw_sched _ Hk) as Hw. apply kwf_sched_step; [done|apply sched_step_lists; try done|by intros o x].
  split; apply Hw.
Qed.

Lemma frame_lock E k n : frame_but E k (k_lock n k).
Proof. intros p _. by split. Qed.

Lemma frame_run {A} E k (m : M sched A) a s : (forall s0, keeps (same_shape s0) m) -> m (k_sched k) = Ok a s ->
  frame_but E k (put_sched s k).
Proof.
  intros Hm Er. eapply (keeps_shape (I := frame_but E k) m Hm k a); [apply frame_refl|by apply liftS_run].
Qed.

(** What a cleanup function may do: wake threads, and use objects it does not
    create or delete. *)
Record harmless k (k' : kstate) : Prop := {
  ha_kwf : kwf k';
  ha_frame : frame_but ∅ k k';
  ha_heap : k_heap k' = k_heap k;
  ha_defunct : waiters k' HDefunct = waiters k HDefunct;
  ha_irq : sc_irq_nest (k_sched k') = sc_irq_nest (k_sched k);
  ha_lock : sc_lock_nest (k_sched k') = sc_lock_nest (k_sched k);
  ha_ready : sc_current (k_sched k') = sc_current (k_sched k) /\ (runs_ready k -> runs_ready k');
  ha_closed : forall t th, threads k !! t = Some th -> stat_of th = RT_THREAD_CLOSE -> threads k' !! t = Some th;
  ha_mutex : ip_mutex (k_ipc k') = ip_mutex (k_ipc k)
}.

Lemma harmless_refl k : kwf k -> harmless k k.
Proof. intros Hk. by split. Qed.

Variable cleanup : Z -> Z -> K unit.
Hypothesis cleanup_harmless : forall f t k, kwf k -> sc_lock_nest (k_sched k) <> 0 ->
  exists k', cleanup f t k = Ok tt k' /\ harmless k k'.

(** The idle thread is running, outside interrupts, and the scheduler is not
    locked. *)
Record idling k : Prop := {
  id_kwf : kwf k;
  id_mwf : mwf k;
  id_irq : irq0 k;
  id_lock : sc_lock_nest (k_sched k) = 0;
  id_ready : runs_ready k
}.

Lemma exit_critical_run k : kwf k -> runs_ready k -> sc_lock_nest (k_sched k) = 1 ->
  exists s', liftS rt_exit_critical k = Ok tt (put_sched s' k) /\ kwf (put_sched s' k) /\ runs_ready (put_sched s' k) /\
    waiters (put_sched s' k) HDefunct = waiters k HDefunct /\ sched_frame (put_lock 0 (k_sched k)) s'.
Proof.
  intros Hk Hr Hl. pose proof (kwf_lock k 0 Hk) as Hk0.
  destruct (k_schedule_run (k_lock 0 k) Hk0 (runs_nonnull k Hk Hr)) as (s' & E & Hk' & Hres). exists s'.
  destruct (resched_idle (k_lock 0 k) s' Hk0 Hr Hres) as [Hr' Hd]. split; [|split; [exact Hk'|by split; [|split; [|apply Hres]]]].
  apply liftS_run. unfold rt_exit_critical. rewrite bind_modify, bind_gets. cbn [sc_lock_nest put_lock]. rewrite Hl.
  change (i16 (1 - 1)) with 0. change (0 <=? 0) with true. cbn [when]. rewrite bind_modify.
  unfold liftS, zoom in E. change (k_sched (k_lock 0 k)) with (put_lock 0 (k_sched k)) in E.
  change (put_lock 0 (put_lock 0 (k_sched k))) with (put_lock 0 (k_sched k)).
  destruct (rt_schedule _) as [[] s2|]; [|done]. injection E as E. f_equal. by rewrite E.
Qed.

(** What taking threads off the list keeps. *)
Record kept k (k' : kstate) : Prop := {
  ke_frame : frame_but ∅ k k';
  ke_live : live k' = live k;
  ke_mutex : ip_mutex (k_ipc k') = ip_mutex (k_ipc k);
  ke_closed : forall t th, threads k !! t = Some th -> stat_of th = RT_THREAD_CLOSE -> threads k' !! t = Some th
}.

Lemma defunct_closed k t : kwf k -> t ∈ waiters k HDefunct -> exists th, threads k !! t = Some th /\ stat_of th = RT_THREAD_CLOSE.
Proof.
  intros Hk Hin. destruct (sw_member _ _ (kw_sched _ Hk) _ _ Hin) as [th Ht]. exists th. split; [done|].
  apply (sw_stat _ _ (kw_sched _ Hk) _ _ _ Hin Ht). set_solver.
Qed.

Lemma closed_not_current k t th : runs_ready k -> threads k !! t = Some th -> stat_of th = RT_THREAD_CLOSE ->
  t <> sc_current (k_sched k).
Proof. intros (th' & Ht' & Hr) Ht Hs ->. rewrite Ht in Ht'. injection Ht' as <-. by rewrite Hs in Hr. Qed.

Lemma closed_unlinked k t th : kwf k -> threads k !! t = Some th -> stat_of th = RT_THREAD_CLOSE ->
  (t ∉ waiters k HDefunct) -> unlinked t (k_sched k).
Proof.
  intros Hk Ht Hs Hn h Hin. pose proof (sw_stat _ _ (kw_sched _ Hk) _ _ _ Hin Ht ltac:(set_solver)) as E.
  rewrite Hs in E. by destruct h.
Qed.

Lemma no_mutex_kept k k' t : frame_but ∅ k k' -> ip_mutex (k_ipc k') = ip_mutex (k_ipc k) -> no_mutex k t -> no_mutex k' t.
Proof.
  intros Hf Em Hn o x (ob & Ho & Hc) Hx. rewrite Em in Hx. apply (Hn o x); [|done]. exists ob. split; [|done].
  by rewrite <- (sx_obj _ _ _ (Hf o ltac:(set_solver))).
Qed.

(** The steps up to the cleanup function. *)
Lemma take_run k t rest : idling k -> waiters k HDefunct = t :: rest ->
  let k2 := k_lock 1 (k_unlink t k) in
  (forall A (m : Z -> K A),
    (thread ← first_waiter HDefunct; liftS (tlist_remove thread);; liftS rt_enter_critical;; m thread) k = m t k2) /\
  kwf k2 /\ frame_but ∅ k k2 /\ waiters k2 HDefunct = rest.
Proof.
  intros [Hk Hm Hi Hl Hr] Hw k2. destruct (defunct_closed k t Hk) as (th & Ht & Hs); [rewrite Hw; set_solver|].
  destruct (kwf_unlink k t th Hk Ht) as [Hk1 _]; [by rewrite Hs|]. pose proof (tlist_remove_run _ _ _ Ht) as Er.
  split; [|split; [by apply kwf_lock|split]].
  - intros A m. rewrite (bind_ok _ _ _ _ _ (first_waiter_run _ _ _ _ Hw)), (bind_ok _ _ _ _ _ (liftS_run _ _ _ _ Er)).
    assert (Ee : liftS rt_enter_critical (k_unlink t k) = Ok tt k2).
    { apply liftS_run. unfold rt_enter_critical. unfold modify. cbn [k_sched k_unlink put_sched sc_lock_nest put_lists].
      by rewrite Hl. }
    by erewrite bind_ok by exact Ee.
  - eapply frame_trans; [|apply frame_lock]. eapply frame_run; [|exact Er]. intros s0. apply shape_remove.
  - unfold waiters. change (lget (k_sched k2) HDefunct) with (default [] ((unlink t <$> sc_lists (k_sched k)) !! HDefunct)).
    rewrite lget_unlink. change (unlink t (waiters k HDefunct) = rest). rewrite Hw.
    pose proof (sw_nodup _ _ (kw_sched _ Hk) HDefunct) as Hnd. fold (waiters k HDefunct) in Hnd. rewrite Hw in Hnd.
    apply NoDup_cons in Hnd as [Hnt _]. unfold unlink. rewrite filter_cons_False by tauto. by apply unlink_notin.
Qed.

Lemma cleanup_run k t th : kwf k -> sc_lock_nest (k_sched k) <> 0 -> threads k !! t = Some th ->
  exists k', when (negb (th_cleanup th =? RT_NULL)) (cleanup (th_cleanup th) t) k = Ok tt k' /\ harmless k k'.
Proof.
  intros Hk Hl Ht. destruct (th_cleanup th =? RT_NULL); cbn [negb when]; [|by apply cleanup_harmless].
  exists k. split; [done|by apply harmless_refl].
Qed.

Lemma more_run k : kwf k -> _has_defunct_thread k = Ok (negb (bool_decide (waiters k HDefunct = []))) k.
Proof.
  intros Hk. unfold _has_defunct_thread.
  by rewrite (bind_ok _ _ _ _ _ (k_isempty_run k HDefunct (sw_defunct _ _ (kw_sched _ Hk)))).
Qed.

(** The thread that has been taken off the list. *)
Lemma kept_collected k t rest ob th k' : kwf k -> mwf k -> waiters k HDefunct = t :: rest ->
  os_objs (k_obj k) !! AObj t = Some ob -> threads k !! t = Some th -> stat_of th = RT_THREAD_CLOSE ->
  kwf k' -> runs_ready k' -> kept k k' -> waiters k' HDefunct = rest -> is_static ob = false -> no_mutex k t -> collected k' t.
Proof.
  intros Hk Hm Hw Ho Ht Hs Hk' Hr' Hkept Hwr Hst Hnm. pose proof (ke_closed _ _ Hkept t th Ht Hs) as Ht'.
  assert (Hin : t ∈ waiters k HDefunct) by (rewrite Hw; set_solver). pose proof (mw_defunct _ Hm t Hin) as [L1 L2].
  destruct (ke_frame _ _ Hkept t ltac:(set_solver)) as [S1 _ S3 S4 _ _ _ _ _ _ _ _ _]. split.
  - exists ob. split; [split; [congruence|split; [done|congruence]]|].
    destruct (kw_defunct _ Hk t Hin) as (ob' & Ho' & <-). congruence.
  - by exists th.
  - eapply closed_unlinked; [done|done|done|]. rewrite Hwr. intros Hin'.
    pose proof (sw_nodup _ _ (kw_sched _ Hk) HDefunct) as Hnd. fold (waiters k HDefunct) in Hnd. rewrite Hw in Hnd.
    by apply NoDup_cons in Hnd as [? _].
  - congruence.
  - by eapply closed_not_current.
  - by apply (no_mutex_kept k); [apply Hkept|apply Hkept|].
Qed.

Lemma idle_collect_run k t rest ob : idling k -> waiters k HDefunct = t :: rest -> os_objs (k_obj k) !! AObj t = Some ob ->
  exists k', idle_collect cleanup k = Ok (if is_static ob then None else Some t) k' /\ idling k' /\
    waiters k' HDefunct = rest /\ kept k k' /\ (is_static ob = false -> no_mutex k t -> collected k' t).
Proof.
  intros Hid Hw Ho. pose proof Hid as [Hk Hm Hi Hl Hr]. destruct (take_run k t rest Hid Hw) as (E2 & Hk2 & Hf2 & Hw2).
  set (k2 := k_lock 1 (k_unlink t k)) in *.
  destruct (defunct_closed k t Hk) as (th & Ht & Hs); [rewrite Hw; set_solver|].
  destruct (cleanup_run k2 t th Hk2) as (k3 & E3 & Ha); [done|done|]. pose proof Ha as [H1 H2 H3 H4 H5 H6 [H7 H7'] H8 H9].
  assert (Hr3 : runs_ready k3) by by apply H7'.
  destruct (exit_critical_run k3 H1 Hr3) as (s' & E4 & Hk4 & Hr4 & Hd4 & (F1 & F2 & F3)); [by rewrite H6|].
  set (k4 := put_sched s' k3) in *. exists k4.
  assert (Hf3 : frame_but ∅ k k3) by by eapply frame_trans.
  assert (Ho3 : os_objs (k_obj k3) !! AObj t = Some ob) by by rewrite (sx_obj _ _ _ (Hf3 t ltac:(set_solver))).
  assert (Hnn : AObj t <> AObj RT_NULL).
  { pose proof (sw_thread _ _ (kw_sched _ Hk) t th Ht) as [? _]. congruence. }
  assert (Hf : frame_but ∅ k k4).
  { eapply frame_trans; [exact Hf3|]. unfold liftS, zoom in E4. destruct (rt_exit_critical _) as [[] s2|] eqn:Ex; [|done].
    injection E4 as E4. change k4 with (put_sched s' k3). rewrite <- E4. eapply frame_run; [|exact Ex].
    intros s0. apply shape_exit. }
  assert (Hkept : kept k k4).
  { split; [done|unfold live; change (k_heap k4) with (k_heap k3); by rewrite H3|exact H9|]. intros x thx Hx Hsx. unfold threads. cbn. rewrite F1.
    by apply H8. }
  assert (Hwr : waiters k4 HDefunct = rest) by (rewrite Hd4; congruence).
  assert (Hmx : mwf k4) by (apply (mwf_frame k); [done..|apply Hkept]).
  split; [|split; [split; try done|split; [done|split; [done|]]]].
  - unfold idle_collect. rewrite (bind_ok _ _ _ _ _ (not_irq_run _ Hi)), (bind_ok _ _ _ _ _ (more_run k Hk)), Hw.
    rewrite bool_decide_false by done. cbn [negb].
    rewrite (E2 _ (fun thread => _)). rewrite (bind_ok _ _ _ _ _ (k_thread_run k2 t th Ht)).
    rewrite (bind_ok _ _ _ _ _ E3). erewrite bind_ok by (eapply liftO_run, is_system_run; [exact Ho3|done]).
    rewrite put_obj_id, (bind_ok _ _ _ _ _ E4). done.
  - unfold irq0. cbn. rewrite F3. cbn. by rewrite H5.
  - by apply (kept_collected k t rest ob th).
Qed.

(** ** The whole list *)

Definition stack_of k (t : Z) : Z := default RT_NULL (th_stack_addr <$> threads k !! t).
(** The memory the threads [l] have allocated. *)
Definition thread_memory k (l : list Z) : gset Z := list_to_set l ∪ list_to_set (stack_of k <$> l).

Lemma free_idling k t th k' : idling k -> threads k !! t = Some th -> collected k t ->
  deleted k t {[th_stack_addr th]} k' -> vacant k (th_stack_addr th) ->
  k_sched k' = forget_sched t (forget_sched (th_stack_addr th) (k_sched k)) ->
  idling k' /\ waiters k' HDefunct = waiters k HDefunct /\
  forall x, x <> t -> threads k !! x <> None -> threads k' !! x = threads k !! x.
Proof.
  intros [Hk Hm Hi Hl Hr] Ht Hco Hde Hv Es.
  assert (Hth : forall x, x <> t -> threads k !! x <> None -> threads k' !! x = threads k !! x).
  { intros x Hx Hn. unfold threads. rewrite Es. cbn. rewrite lookup_delete_ne by done. rewrite lookup_delete_ne; [done|].
    intros <-. apply Hn, Hv. }
  split; [|split; [|done]].
  - destruct Hde as [D1 D2 D3 _ _ _]. split; [done|done|done|by rewrite Es|].
    destruct Hr as (thc & Hc & Hs). exists thc. rewrite Es at 1. cbn [sc_current forget_sched].
    rewrite Hth; [done| |]; rewrite ?Hc; [|done]. intros E. by apply (co_current _ _ Hco).
  - unfold waiters, lget. rewrite Es. cbn. by rewrite !lookup_delete_ne.
Qed.

(** A terminated thread the idle thread can free. *)
Definition freeable k (t : Z) : Prop := (exists ob, dynamic k t ob) /\ no_mutex k t.

Lemma freeable_kept k k' t : kept k k' -> freeable k t -> freeable k' t.
Proof.
  intros [Hf _ Em _] [[ob Hd] Hn]. split; [exists ob; by eapply dynamic_frame|by eapply no_mutex_kept].
Qed.

Lemma freeable_freed k t b k' x : deleted k t {[b]} k' -> vacant k' b ->
  ip_mutex (k_ipc k') = delete t (delete b (ip_mutex (k_ipc k))) -> x <> t -> x <> b -> freeable k x -> freeable k' x.
Proof.
  intros [_ _ _ Hv _ Hf] Hvb Em Hx Hxb [[ob Hd] Hn]. split.
  - exists ob. apply (dynamic_same k k'); [apply Hf; set_solver|done].
  - intros o y (ob' & Ho & Hc) Hy. assert (Hot : o <> t) by (intros ->; by rewrite (va_obj _ _ Hv) in Ho).
    assert (Hob : o <> b) by (intros ->; by rewrite (va_obj _ _ Hvb) in Ho).
    rewrite Em, !lookup_delete_ne in Hy by done. apply (Hn o y); [|done]. exists ob'. split; [|done].
    by rewrite <- (sx_obj _ _ _ (Hf o ltac:(set_solver))).
Qed.

Lemma memory_same k k' l : (forall x, x ∈ l -> threads k' !! x = threads k !! x) -> thread_memory k' l = thread_memory k l.
Proof.
  intros H. unfold thread_memory. f_equal. f_equal. apply list_fmap_ext. intros i x Hx. unfold stack_of.
  by rewrite H by by eapply list_elem_of_lookup_2.
Qed.

(** One turn: the first thread of the list is freed. *)
Lemma idle_turn_run k t rest : idling k -> waiters k HDefunct = t :: rest -> (forall x, x ∈ t :: rest -> freeable k x) ->
  exists k1 k2, idle_collect cleanup k = Ok (Some t) k1 /\ idle_free t k1 = Ok tt k2 /\ idling k2 /\
    waiters k2 HDefunct = rest /\ (forall x, x ∈ rest -> freeable k2 x) /\
    (forall x, x ∈ rest -> threads k2 !! x = threads k !! x) /\
    live k2 = live k ∖ thread_memory k [t] /\ frame_but (thread_memory k [t]) k k2 /\
    (forall p, p ∈ thread_memory k [t] -> vacant k2 p).
Proof.
  intros Hid Hw Hfr. destruct (Hfr t) as [[ob Hd] Hnm]; [set_solver|].
  destruct (idle_collect_run k t rest ob Hid Hw (proj1 Hd)) as (k1 & E1 & Hid1 & Hw1 & Hke & Hco).
  pose proof (proj1 (proj2 Hd)) as Hst. rewrite Hst in E1. specialize (Hco Hst Hnm).
  pose proof Hid1 as [Hk1 Hm1 Hi1 _ _]. destruct (idle_free_run k1 t Hk1 Hm1 Hi1 Hco) as (th & k2 & Ht & E2 & Hde & Hv & Es & Em).
  assert (Hown : owns k1 t (th_stack_addr th)).
  { destruct (co_dynamic _ _ Hco) as (ob' & Hd' & Hc'). exists ob'. split; [done|]. rewrite Hc'. unfold buffer_at. cbn. by rewrite Ht. }
  destruct (mw_owns _ Hm1 t _ Hown) as [_ Hvs]. destruct (free_idling k1 t th k2 Hid1 Ht Hco Hde Hvs Es) as (Hid2 & Hw2 & Hth2).
  assert (Hin : forall x, x ∈ t :: rest -> exists thx, threads k !! x = Some thx /\ threads k1 !! x = Some thx).
  { intros x Hx. destruct (defunct_closed k x (id_kwf _ Hid)) as (thx & Hx1 & Hx2); [by rewrite Hw|].
    exists thx. split; [done|]. by apply (ke_closed _ _ Hke). }
  assert (Hnt : t ∉ rest).
  { pose proof (sw_nodup _ _ (kw_sched _ (id_kwf _ Hid)) HDefunct) as Hnd. fold (waiters k HDefunct) in Hnd. rewrite Hw in Hnd.
    by apply NoDup_cons in Hnd as [? _]. }
  assert (Hmem : thread_memory k [t] = {[t]} ∪ {[th_stack_addr th]}).
  { destruct (Hin t) as (thx & Hx0 & Hx); [set_solver|]. assert (thx = th) as -> by congruence.
    unfold thread_memory. cbn. unfold stack_of. rewrite Hx0. cbn. set_solver. }
  rewrite Hmem. exists k1, k2. split; [done|]. split; [done|]. split; [done|]. split; [congruence|].
  pose proof Hke as [Hf Hl _ _]. destruct Hde as [D1 D2 D3 D4 D5 D6] eqn:Ed.
  split; [|split; [|split; [by rewrite D5, Hl|split]]].
  - intros x Hx. destruct (Hin x) as (thx & _ & Hx1); [set_solver|].
    apply (freeable_freed k1 t (th_stack_addr th)); try done; [by intros ->| |].
    + intros ->. by rewrite (va_thread _ _ Hvs) in Hx1.
    + apply (freeable_kept k); [done|]. apply Hfr. set_solver.
  - intros x Hx. destruct (Hin x) as (thx & Hx0 & Hx1); [set_solver|].
    rewrite Hth2; [congruence|by intros ->|by rewrite Hx1].
  - eapply frame_trans; [eapply frame_weaken; [done|set_solver]|done].
  - intros p [->%elem_of_singleton| ->%elem_of_singleton]%elem_of_union; done.
Qed.

Lemma idle_excute_run l : forall fuel k, idling k -> waiters k HDefunct = l -> (forall t, t ∈ l -> freeable k t) ->
  (length l < fuel)%nat ->
  exists k', rt_thread_idle_excute cleanup fuel k = Ok tt k' /\ idling k' /\ waiters k' HDefunct = [] /\
    live k' = live k ∖ thread_memory k l /\ frame_but (thread_memory k l) k k' /\
    (forall p, p ∈ thread_memory k l -> vacant k' p).
Proof.
  induction l as [|t l IH]; intros [|fuel] k Hid Hw Hfr Hlen; simpl in Hlen; try lia; cbn [rt_thread_idle_excute];
    rewrite (bind_ok _ _ _ _ _ (more_run k (id_kwf _ Hid))), Hw.
  - rewrite bool_decide_true by done. exists k. split; [done|]. split; [done|]. split; [done|].
    split; [|split; [apply frame_refl|]]; unfold thread_memory; cbn; set_solver.
  - rewrite bool_decide_false by done. cbn [negb].
    destruct (idle_turn_run k t l Hid Hw Hfr) as (k1 & k2 & E1 & E2 & Hid2 & Hw2 & Hfr2 & Hth & Hl2 & Hf2 & Hv2).
    destruct (IH fuel k2 Hid2 Hw2 Hfr2) as (k' & E & Hid' & Hw' & Hl' & Hf' & Hv'); [lia|].
    pose proof (memory_same k k2 l Hth) as Em. rewrite Em in *.
    assert (Ec : thread_memory k (t :: l) = thread_memory k [t] ∪ thread_memory k l).
    { unfold thread_memory. cbn. set_solver. }
    exists k'. rewrite (bind_ok _ _ _ _ _ E1), (bind_ok _ _ _ _ _ E2). split; [done|]. split; [done|]. split; [done|].
    rewrite Ec. split; [rewrite Hl', Hl2; set_solver|]. split.
    + eapply frame_trans; eapply frame_weaken; [exact Hf2|set_solver|exact Hf'|set_solver].
    + intros p Hp. destruct (decide (p ∈ thread_memory k l)) as [|Hn]; [by apply Hv'|].
      apply (vacant_same k2); [by apply Hf'|]. apply Hv2. set_solver.
Qed.

End Idle.
