(* ===== verification/Calls.v ===== *)
(** * The calls of the kernel and their contracts

    [call] lists the kernel calls an application, an interrupt handler or the
    idle thread makes, and [exec] is what they do.  [allowed k c] is the
    contract of call [c] in state [k].  The calls that create and destroy
    nothing are [plain]. *)

From S2P Require Import Prelude Scheduler ReadyBitmap SchedInv SchedSpec Object ObjInv Timer TimerInv.
From S2P Require Import Kernel Thread Ipc Semaphore Mutex Event Mailbox MsgQueue MemPool Clock Idle.
From S2P Require Import KernelInv ThreadInv IpcInv BlockInv ClockInv Boot SemSpec MutexSpec EventSpec MailboxSpec.
From S2P Require Import MqInv MqSpec MpSpec Keeps Stable Frames Own Dynamic DynPool Lifetime ThreadLife IdleSpec.

Inductive call :=
| SemInit (o : Z) (name : list Z) (value flag : Z)
| SemDetach (o : Z)
| SemCreate (name : list Z) (value flag : Z)
| SemDelete (o : Z)
| SemTake (o time : Z)
| SemRelease (o : Z)
| SemReset (o value : Z)
| MutexInit (o : Z) (name : list Z) (flag : Z)
| MutexDetach (o : Z)
| MutexCreate (name : list Z) (flag : Z)
| MutexDelete (o : Z)
| MutexTake (o time : Z)
| MutexRelease (o : Z)
| EventInit (o : Z) (name : list Z) (flag : Z)
| EventDetach (o : Z)
| EventCreate (name : list Z) (flag : Z)
| EventDelete (o : Z)
| EventSend (o set : Z)
| EventRecv (o set opt time : Z)
| EventReset (o : Z)
| MbInit (o : Z) (name : list Z) (pool size flag : Z)
| MbDetach (o : Z)
| MbCreate (name : list Z) (size flag : Z)
| MbDelete (o : Z)
| MbSend (o v time : Z)
| MbRecv (o time : Z)
| MbSendOn (pc : mb_pc)
| MbRecvOn (pc : mb_pc)
| MbReset (o : Z)
| MqInit (o : Z) (name : list Z) (pool msg_size pool_size flag : Z)
| MqDetach (o : Z)
| MqCreate (name : list Z) (msg_size max_msgs flag : Z)
| MqDelete (o : Z)
| MqSend (o : Z) (buffer : list Z)
| MqUrgent (o : Z) (buffer : list Z)
| MqRecv (o n time : Z)
| MqRecvOn (pc : mq_pc)
| MqReset (o : Z)
| MpInit (o : Z) (name : list Z) (start size block_size : Z)
| MpDetach (o : Z)
| MpCreate (name : list Z) (count block_size : Z)
| MpDelete (o : Z)
| MpAlloc (mp time : Z)
| MpAllocOn (pc : mp_pc)
| MpFree (block : Z)
| ThreadInit (t : Z) (name : list Z) (entry par stack size prio tick : Z)
| ThreadDetach (t : Z)
| ThreadCreate (name : list Z) (entry par size prio tick : Z)
| ThreadDelete (t : Z)
| ThreadExit
| ThreadStartup (t : Z)
| ThreadPriority (t prio : Z)
| SchedulerStart
| Suspend
| Sleep (tick : Z)
| Yield
| Resume (t : Z)
| TimerInit (p : Z) (name : list Z) (f par time flag : Z)
| TimerDetach (p : Z)
| TimerCreate (name : list Z) (f par time flag : Z)
| TimerDelete (p : Z)
| TimerStart (p : Z)
| TimerStop (p : Z)
| EnterCritical
| ExitCritical
| IrqEnter
| IrqLeave
| IdleCollect
| IdleFree (t : Z)
| Tick (fuel : nat).

Section Calls.
Context `{CO : ConfigOk} {HP : Heap} {HO : HeapOk HP}.
(** The timeout functions of the application's timers, and the cleanup
    functions of its threads. *)
Variables user_timeout cleanup : Z -> Z -> K unit.

(** Run [m] for its effect. *)
Definition run {A} (m : K A) : K unit := m;; mret tt.

Definition exec (c : call) : K unit :=
  match c with
  | SemInit o name v flag => run (rt_sem_init o name v flag)
  | SemDetach o => run (rt_sem_detach o)
  | SemCreate name v flag => run (rt_sem_create name v flag)
  | SemDelete o => run (rt_sem_delete o)
  | SemTake o time => run (rt_sem_take o time)
  | SemRelease o => run (rt_sem_release o)
  | SemReset o v => run (rt_sem_control o RT_IPC_CMD_RESET v)
  | MutexInit o name flag => run (rt_mutex_init o name flag)
  | MutexDetach o => run (rt_mutex_detach o)
  | MutexCreate name flag => run (rt_mutex_create name flag)
  | MutexDelete o => run (rt_mutex_delete o)
  | MutexTake o time => run (rt_mutex_take o time)
  | MutexRelease o => run (rt_mutex_release o)
  | EventInit o name flag => run (rt_event_init o name flag)
  | EventDetach o => run (rt_event_detach o)
  | EventCreate name flag => run (rt_event_create name flag)
  | EventDelete o => run (rt_event_delete o)
  | EventSend o set => run (rt_event_send o set)
  | EventRecv o set opt time => run (rt_event_recv o set opt time)
  | EventReset o => run (rt_event_control o RT_IPC_CMD_RESET 0)
  | MbInit o name pool size flag => run (rt_mb_init o name pool size flag)
  | MbDetach o => run (rt_mb_detach o)
  | MbCreate name size flag => run (rt_mb_create name size flag)
  | MbDelete o => run (rt_mb_delete o)
  | MbSend o v time => run (rt_mb_send_wait o v time)
  | MbRecv o time => run (rt_mb_recv o time)
  | MbSendOn pc => run (mb_send_resumed pc)
  | MbRecvOn pc => run (mb_recv_resumed pc)
  | MbReset o => run (rt_mb_control o RT_IPC_CMD_RESET 0)
  | MqInit o name pool ms ps flag => run (rt_mq_init o name pool ms ps flag)
  | MqDetach o => run (rt_mq_detach o)
  | MqCreate name ms n flag => run (rt_mq_create name ms n flag)
  | MqDelete o => run (rt_mq_delete o)
  | MqSend o b => run (rt_mq_send o b)
  | MqUrgent o b => run (rt_mq_urgent o b)
  | MqRecv o n time => run (rt_mq_recv o n time)
  | MqRecvOn pc => run (mq_recv_resumed pc)
  | MqReset o => run (rt_mq_control o RT_IPC_CMD_RESET 0)
  | MpInit o name start size bs => run (rt_mp_init o name start size bs)
  | MpDetach o => run (rt_mp_detach o)
  | MpCreate name n bs => run (rt_mp_create name n bs)
  | MpDelete o => run (rt_mp_delete o)
  | MpAlloc mp time => run (rt_mp_alloc mp time)
  | MpAllocOn pc => run (mp_alloc_resumed pc)
  | MpFree b => run (rt_mp_free b)
  | ThreadInit t name entry par ss sz prio tick => run (rt_thread_init t name entry par ss sz prio tick)
  | ThreadDetach t => run (rt_thread_detach t)
  | ThreadCreate name entry par sz prio tick => run (rt_thread_create name entry par sz prio tick)
  | ThreadDelete t => run (rt_thread_delete t)
  | ThreadExit => run rt_thread_exit
  | ThreadStartup t => run (rt_thread_startup t)
  | ThreadPriority t prio => run (rt_thread_control t RT_THREAD_CTRL_CHANGE_PRIORITY prio)
  | SchedulerStart => run (liftS rt_system_scheduler_start)
  | Suspend => run (self ← liftS rt_thread_self; rt_thread_suspend self)
  | Sleep tick => run (rt_thread_sleep tick)
  | Yield => run rt_thread_yield
  | Resume t => run (rt_thread_resume t)
  | TimerInit p name f par time flag => run (rt_timer_init (AObj p) name (FUser f) par time flag)
  | TimerDetach p => run (rt_timer_detach (AObj p))
  | TimerCreate name f par time flag => run (rt_timer_create name (FUser f) par time flag)
  | TimerDelete p => run (rt_timer_delete p)
  | TimerStart p => run (rt_timer_start (AObj p))
  | TimerStop p => run (rt_timer_stop (AObj p))
  | EnterCritical => run (liftS rt_enter_critical)
  | ExitCritical => run (liftS rt_exit_critical)
  | IrqEnter => run (liftS rt_interrupt_enter)
  | IrqLeave => run (liftS rt_interrupt_leave)
  | IdleCollect => run (idle_collect cleanup)
  | IdleFree t => run (idle_free t)
  | Tick fuel => run (rt_tick_increase user_timeout fuel)
  end.

(** ** The contract *)

(** The scheduler has been started. *)
Definition started (k : kstate) : Prop := sc_current (k_sched k) <> RT_NULL.
(** The caller is a running, ready thread, outside interrupts. *)
Definition in_thread (k : kstate) : Prop := exists t th, can_block k t th.
(** A waiting time a timer can be set to, or forever. *)
Definition wait_time (time : Z) : Prop := time < RT_TICK_MAX / 2.
(** The object has a record with a valid flag. *)
Definition flagged {A} (flag : A -> Z) (x : option A) : Prop := exists a, x = Some a /\ ipc_flag (flag a).
(** The waiting time left of a call that goes on now. *)
Definition left_time (k : kstate) (time start : Z) : Z := time_left time start (ts_tick (k_ts k)).
(** A place for a static object: unused, and outside the heap. *)
Definition place (k : kstate) (o : Z) : Prop := fresh k o /\ ~ heap_area o.
(** A dynamic object of class [c], outside interrupts. *)
Definition dyn (k : kstate) (o c : Z) : Prop := irq0 k /\ exists ob, dynamic k o ob /\ type_of ob = c.
(** A thread that has not terminated. *)
Definition alive (k : kstate) (t : Z) (th : rt_thread) : Prop :=
  threads k !! t = Some th /\ stat_of th <> RT_THREAD_CLOSE.

Definition allowed (k : kstate) (c : call) : Prop :=
  match c with
  | SemInit o _ _ _ | MutexInit o _ _ | EventInit o _ _ | MbInit o _ _ _ _ => place k o
  | MqInit o _ pool _ _ _ => place k o /\ 0 < pool
  | MpInit o _ start size bs => place k o /\ mp_args start size bs
  | SemDetach o => is_sem k o /\ has_static k (AObj o) true
  | MutexDetach o => is_mutex k o /\ has_static k (AObj o) true
  | EventDetach o => is_event k o /\ has_static k (AObj o) true
  | MbDetach o => is_mb k o /\ has_static k (AObj o) true
  | MqDetach o => is_mq k o /\ has_static k (AObj o) true
  | MpDetach o => is_mp k o /\ is_Some (pools k !! o) /\ has_static k (AObj o) true
  | SemCreate _ _ _ | MutexCreate _ _ | EventCreate _ _ | MbCreate _ _ _ | MqCreate _ _ _ _ => irq0 k
  | MpCreate _ n bs => irq0 k /\ mp_create_args n bs
  | SemDelete o => dyn k o RT_Object_Class_Semaphore
  | MutexDelete o => dyn k o RT_Object_Class_Mutex
  | EventDelete o => dyn k o RT_Object_Class_Event
  | MbDelete o => dyn k o RT_Object_Class_MailBox
  | MqDelete o => dyn k o RT_Object_Class_MessageQueue
  | MpDelete o => dyn k o RT_Object_Class_MemPool /\ is_mp k o /\ is_Some (pools k !! o)
  | SemTake o time => is_sem k o /\ flagged sem_flag (ip_sem (k_ipc k) !! o) /\ in_thread k /\ wait_time time
  | SemRelease o | SemReset o _ => is_sem k o /\ started k
  | MutexTake o time =>
      is_mutex k o /\ flagged mutex_flag (ip_mutex (k_ipc k) !! o) /\ in_thread k /\ wait_time time
  | MutexRelease o => is_mutex k o /\ in_thread k
  | EventSend o _ | EventReset o => is_event k o /\ started k
  | EventRecv o set opt time =>
      is_event k o /\ flagged event_flag (ip_event (k_ipc k) !! o) /\ in_thread k /\ wait_time time /\
      set <> 0 /\ (has opt RT_EVENT_FLAG_AND = true \/ has opt RT_EVENT_FLAG_OR = true)
  | MbSend o _ time | MbRecv o time =>
      is_mb k o /\ flagged mb_flag (ip_mb (k_ipc k) !! o) /\ in_thread k /\ wait_time time
  | MbSendOn pc | MbRecvOn pc =>
      is_mb k (bp_mb pc) /\ flagged mb_flag (ip_mb (k_ipc k) !! bp_mb pc) /\
      (exists th, can_block k (bp_thread pc) th) /\ wait_time (left_time k (bp_timeout pc) (bp_start pc))
  | MbReset o => is_mb k o /\ started k
  | MqSend o b | MqUrgent o b => is_mq k o /\ b <> [] /\ started k
  | MqRecv o n time =>
      is_mq k o /\ flagged mq_flag (ip_mq (k_ipc k) !! o) /\ in_thread k /\ wait_time time /\ n <> 0
  | MqRecvOn pc =>
      is_mq k (qp_mq pc) /\ flagged mq_flag (ip_mq (k_ipc k) !! qp_mq pc) /\
      (exists th, can_block k (qp_thread pc) th) /\ wait_time (left_time k (qp_timeout pc) (qp_start pc))
  | MqReset o => is_mq k o /\ started k
  | MpAlloc mp time =>
      is_mp k mp /\ in_thread k /\ wait_time time /\
      exists x fr al, pools k !! mp = Some x /\ mp_rep (words k) mp x fr al
  | MpAllocOn pc =>
      is_mp k (pp_mp pc) /\ (exists th, can_block k (pp_thread pc) th) /\
      wait_time (left_time k (pp_time pc) (pp_start pc)) /\
      exists x fr al, pools k !! pp_mp pc = Some x /\ mp_rep (words k) (pp_mp pc) x fr al
  | MpFree block =>
      started k /\ exists mp x fr al1 b al2, block = b + sizeof_ptr /\ pools k !! mp = Some x /\
        mp_rep (words k) mp x fr (al1 ++ b :: al2) /\ waiters_counted k mp x
  | ThreadInit t _ _ _ stack _ prio _ => place k t /\ stack <> RT_NULL /\ 0 <= prio < RT_THREAD_PRIORITY_MAX
  | ThreadDetach t => exists th, alive k t th /\ has_static k (AObj t) true /\ th_cleanup th = RT_NULL
  | ThreadCreate _ _ _ _ prio _ => irq0 k /\ 0 <= prio < RT_THREAD_PRIORITY_MAX
  | ThreadDelete t => exists th ob, alive k t th /\ dynamic k t ob
  | ThreadExit => exists t th ob, can_block k t th /\ os_objs (k_obj k) !! AObj t = Some ob /\
      object_linked (AObj t) (k_obj k) = true
  | ThreadStartup t => exists th, threads k !! t = Some th /\ stat_of th = RT_THREAD_INIT /\
      0 <= th_init_priority th < RT_THREAD_PRIORITY_MAX
  | ThreadPriority t prio => exists th, alive k t th /\ 0 <= u8 prio < RT_THREAD_PRIORITY_MAX
  | SchedulerStart => sc_current (k_sched k) = RT_NULL /\ sc_group (k_sched k) <> 0
  | Suspend => in_thread k
  | Sleep tick => in_thread k /\ 0 <= tick < RT_TICK_MAX / 2
  | Yield => started k
  | Resume t => exists th, threads k !! t = Some th /\ stat_of th = RT_THREAD_SUSPEND
  | TimerInit p _ _ _ time _ => place k p /\ 0 < time /\ time + 1 < RT_TICK_MAX / 2
  | TimerDetach p => has_type k (AObj p) RT_Object_Class_Timer /\ has_static k (AObj p) true /\
      is_Some (timers k !! AObj p)
  | TimerCreate _ _ _ time _ => irq0 k /\ 0 < time /\ time + 1 < RT_TICK_MAX / 2
  | TimerDelete p => dyn k p RT_Object_Class_Timer /\ is_Some (timers k !! AObj p)
  | TimerStart p => has_type k (AObj p) RT_Object_Class_Timer /\
      exists tm, timers k !! AObj p = Some tm /\ tm_init_tick tm < RT_TICK_MAX / 2
  | TimerStop p => has_type k (AObj p) RT_Object_Class_Timer /\ is_Some (timers k !! AObj p)
  | EnterCritical => True
  | ExitCritical => started k
  | IrqEnter | IrqLeave => True
  | IdleCollect => idling k /\ waiters k HDefunct <> []
  | IdleFree t => irq0 k /\ collected k t
  | Tick fuel => started k /\ (length (running k) < fuel)%nat
  end.

(** ** What the calls keep *)

(** The calls that create and destroy nothing. *)
Definition plain (c : call) : bool :=
  match c with
  | SemTake _ _ | SemRelease _ | SemReset _ _ | MutexTake _ _ | MutexRelease _ | EventSend _ _ | EventRecv _ _ _ _
  | EventReset _ | MbSend _ _ _ | MbRecv _ _ | MbSendOn _ | MbRecvOn _ | MbReset _ | MqSend _ _ | MqUrgent _ _
  | MqRecv _ _ _ | MqRecvOn _ | MqReset _ | MpAlloc _ _ | MpAllocOn _ | MpFree _ | ThreadStartup _
  | ThreadPriority _ _ | SchedulerStart | Suspend | Sleep _ | Yield | Resume _ | TimerStart _ | TimerStop _
  | EnterCritical | ExitCritical | IrqEnter | IrqLeave => true
  | _ => false
  end.

Lemma keeps_run {A} (I : kstate -> Prop) (m : K A) : keeps I m -> keeps I (run m).
Proof. intros H. apply keeps_bind; [done|intros _; apply keeps_ret]. Qed.

Lemma plain_keeps (I : kstate -> Prop) {SI : Stable I} c : plain c = true -> keeps I (exec c).
Proof.
  intros Hp. destruct c; try done; cbn [exec]; apply keeps_run;
    eauto using k_sem_take, k_sem_release, k_sem_control, k_mutex_take, k_mutex_release, k_event_send, k_event_recv,
    k_event_control, k_mb_send, k_mb_recv, k_mb_send_resumed, k_mb_recv_resumed, k_mb_control, k_mq_send, k_mq_urgent,
    k_mq_recv, k_mq_recv_resumed, k_mq_control, k_mp_alloc, k_mp_alloc_resumed, k_mp_free, k_startup, k_priority,
    k_sleep, k_yield, Stable.k_resume, k_timer_start, k_timer_stop.
  - apply keeps_shape. intros s0. apply shape_start.
  - apply keeps_bind; [apply keeps_shape; intros s0; apply shape_self|intros t; apply Stable.k_suspend].
  - apply keeps_shape. intros s0. apply shape_enter.
  - apply keeps_shape. intros s0. apply shape_exit.
  - apply keeps_shape. intros s0. by apply shape_modify.
  - apply keeps_shape. intros s0. by apply shape_modify.
Qed.

End Calls.
