(* ===== verification/Progress.v ===== *)
(** * Every allowed call returns

    For each call that creates and destroys nothing: within its contract it
    returns without a fault, and the kernel is well formed again. *)

From S2P Require Import Prelude Scheduler ReadyBitmap SchedInv SchedSpec Object ObjInv Timer TimerInv.
From S2P Require Import Kernel Thread Ipc Semaphore Mutex Event Mailbox MsgQueue MemPool Clock Idle.
From S2P Require Import KernelInv ThreadInv IpcInv BlockInv ClockInv Boot SemSpec PrioInv MutexSpec EventSpec.
From S2P Require Import MailboxSpec MqInv MqSpec MpSpec Own Dynamic IdleSpec Calls.

Section Progress.
Context `{CO : ConfigOk} {HP : Heap} {HO : HeapOk HP}.
Variables user_timeout cleanup : Z -> Z -> K unit.

(** The call returns with the kernel well formed. *)
Definition goes (m : K unit) (k : kstate) : Prop := exists k', m k = Ok tt k' /\ kwf k'.

Lemma goes_run {A} (m : K A) k a k' : m k = Ok a k' -> kwf k' -> goes (run m) k.
Proof. intros E Hk. exists k'. unfold run. by rewrite (bind_ok _ _ _ _ _ E). Qed.

Lemma thread_started k t th : kwf k -> can_block k t th -> started k.
Proof. intros Hk [Ht Hc _ _]. unfold started. rewrite <- Hc. apply (sw_thread _ _ (kw_sched _ Hk) _ _ Ht). Qed.

Section At.
Variable k : kstate.
Hypothesis Hk : kwf k.

Lemma go_sem_take o time : allowed k (SemTake o time) -> goes (exec user_timeout cleanup (SemTake o time)) k.
Proof.
  intros (Ho & (x & Hx & Hf) & (t & th & Hb) & Ht). destruct (io_sem _ (kw_ipc _ Hk) o Ho) as (_ & x' & Hx' & Hv & _).
  rewrite Hx in Hx'. injection Hx' as <-. destruct (decide (0 < sem_value x)).
  { destruct (sem_take_available k o x time) as [E Hk']; [done..|]. by eapply goes_run. }
  assert (sem_value x = 0) by lia. destruct (decide (time = 0)) as [->|].
  { by eapply goes_run; [apply (sem_take_try k o x)|]. }
  destruct (sem_take_block k o x t th time) as (k' & E & Hk' & _); [done..|]. by eapply goes_run.
Qed.

Lemma go_sem_release o : allowed k (SemRelease o) -> goes (exec user_timeout cleanup (SemRelease o)) k.
Proof.
  intros [Ho Hc]. destruct (io_sem _ (kw_ipc _ Hk) o Ho) as (_ & x & Hx & _).
  destruct (waiters k (HSuspend o)) as [|t rest] eqn:Hw.
  - destruct (sem_release_free k o x) as [E Hk']; [done..|]. by eapply goes_run.
  - destruct (sem_release_wake k o t rest) as (th & s' & _ & _ & _ & E & Hk'); [done..|]. by eapply goes_run.
Qed.

Lemma go_sem_reset o v : allowed k (SemReset o v) -> goes (exec user_timeout cleanup (SemReset o v)) k.
Proof.
  intros [Ho Hc]. destruct (io_sem _ (kw_ipc _ Hk) o Ho) as (_ & x & Hx & _).
  destruct (sem_reset_run k o x v) as (k1 & s' & _ & E & Hk' & _); [done..|]. by eapply goes_run.
Qed.

Lemma go_mutex_take o time : allowed k (MutexTake o time) -> goes (exec user_timeout cleanup (MutexTake o time)) k.
Proof.
  intros (Ho & (x & Hx & Hf) & (t & th & Hb) & Ht).
  destruct (mutex_inv k o x Hk Ho Hx) as ([Hv Hfree Hown] & _ & _).
  destruct (decide (mutex_owner x = t)) as [|Hne].
  { destruct (mutex_take_recursive k o t x th) with (time := time) as [E Hk']; [done..|]. by eapply goes_run. }
  destruct Hv as [Hv|Hv]; cycle 1.
  { destruct (mutex_take_free k o t x th) with (time := time) as [E Hk']; [done..|lia|]. by eapply goes_run. }
  destruct (decide (time = 0)) as [->|].
  { destruct (mutex_take_try k o t x th) as [E Hk']; [done..|]. by eapply goes_run. }
  destruct (Hown Hv) as [[[oth Hoth] _] _].
  destruct (mutex_take_block k o t x th) with (time := time) (oth := oth) as (k1 & k' & E & Hk' & _); [done..|].
  by eapply goes_run.
Qed.

Lemma go_mutex_release o : allowed k (MutexRelease o) -> goes (exec user_timeout cleanup (MutexRelease o)) k.
Proof.
  intros (Ho & t & th & Hb). destruct (io_mutex _ (kw_ipc _ Hk) o Ho) as (_ & x & Hx & _).
  destruct (decide (mutex_owner x = t)) as [Hown|Hne]; cycle 1.
  { destruct (mutex_release_other k o t x th) as [E Hk']; [done..|]. by eapply goes_run. }
  destruct (decide (u8 (mutex_hold x - 1) = 0)) as [Hz|Hz]; cycle 1.
  { destruct (mutex_release_nested k o t x th) as [E Hk']; [done..|]. by eapply goes_run. }
  destruct (waiters k (HSuspend o)) as [|nx rest] eqn:Hw.
  - destruct (mutex_release_free k o t x th) as (k2 & _ & E & Hk'); [done..|]. by eapply goes_run.
  - destruct (mutex_release_hand k o t x th) with (next := nx) (rest := rest)
      as (k2 & nth & s' & _ & _ & _ & _ & E & Hk' & _); [done..|]. by eapply goes_run.
Qed.

Lemma go_event_send o set : allowed k (EventSend o set) -> goes (exec user_timeout cleanup (EventSend o set)) k.
Proof.
  intros [Ho Hc]. destruct (io_event _ (kw_ipc _ Hk) o Ho) as (_ & x & Hx). destruct (decide (set = 0)) as [->|].
  - eapply goes_run; [|exact Hk]. unfold rt_event_send. by rewrite check_run by done.
  - destruct (event_send_run k o x set) as (k1 & s' & _ & _ & E & Hk' & _); [done..|]. by eapply goes_run.
Qed.

Lemma go_event_recv o set opt time : allowed k (EventRecv o set opt time) -> goes (exec user_timeout cleanup (EventRecv o set opt time)) k.
Proof.
  intros (Ho & (x & Hx & Hf) & (t & th & Hb) & Ht & Hset & Hopt).
  destruct (event_match opt set (event_set x)) as [got|] eqn:Em.
  { destruct (event_recv_got k o t x th set opt) with (timeout := time) (got := got) as [E Hk']; [done..|].
    by eapply goes_run. }
  destruct (decide (time = 0)) as [->|].
  - destruct (event_recv_try k o t x th set opt) as [E Hk']; [done..|]. by eapply goes_run.
  - destruct (event_recv_block k o t x th set opt) with (timeout := time) as (k' & E & Hk' & _); [done..|].
    by eapply goes_run.
Qed.

(** *** Mailboxes and message queues

    The loop of a call is the call itself once the first test is passed; a
    call that goes on after a wake-up enters it again with the time left. *)

Lemma reset_try_goes t th e : can_block k t th -> kwf (k_put t (set_error e th) (k_put t (set_error RT_EOK th) k)).
Proof.
  intros Hb. destruct (reset_error_run k t th Hk Hb) as (_ & Hk0 & Hb0).
  eapply kwf_put_same; [done|apply (cb_thread _ _ _ Hb0)|by split_and!].
Qed.

Lemma go_mb_send_loop o v t th x time : is_mb k o -> ip_mb (k_ipc k) !! o = Some x -> ipc_flag (mb_flag x) ->
  can_block k t th -> wait_time time -> goes (run (mb_send_loop o v t time)) k.
Proof.
  intros Ho Hx Hf Hb Ht. destruct (mb_inv k o x Hk Ho Hx) as (Hok & _ & _). pose proof (mo_entry _ Hok).
  destruct (decide (mb_entry x = mb_size x)) as [Hfull|Hfree]; [destruct (decide (time = 0)) as [->|Hnz]|].
  - destruct (reset_error_run k t th Hk Hb) as (E0 & Hk0 & _). eapply goes_run; [|exact Hk0].
    unfold mb_send_loop. rewrite (bind_ok _ _ _ _ _ (get_mb_run _ _ _ Hx)), Hfull, Z.eqb_refl.
    by rewrite (bind_ok _ _ _ _ _ E0).
  - destruct (mb_send_block k o x Hk Ho Hx v time t th) as (k' & E & Hk' & _); [done..|].
    eapply goes_run; [|exact Hk']. rewrite <- E. unfold rt_mb_send_wait. rewrite check_run by done.
    rewrite (bind_ok _ _ _ _ _ (k_self_run k)), <- (cb_current _ _ _ Hb).
    by rewrite (bind_ok _ _ _ _ _ (get_mb_run _ _ _ Hx)), (proj2 (Z.eqb_neq _ _) Hnz), andb_false_r.
  - destruct (mb_send_finish_run k o x Hk Ho Hx v) as (k' & E & Hk' & _); [lia|by eapply thread_started|].
    eapply goes_run; [|exact Hk']. unfold mb_send_loop. rewrite (bind_ok _ _ _ _ _ (get_mb_run _ _ _ Hx)).
    rewrite (proj2 (Z.eqb_neq _ _) Hfree). by rewrite (bind_ok _ _ _ _ _ E).
Qed.

Lemma go_mb_recv_loop o t th x time : is_mb k o -> ip_mb (k_ipc k) !! o = Some x -> ipc_flag (mb_flag x) ->
  can_block k t th -> wait_time time -> goes (run (mb_recv_loop o t time)) k.
Proof.
  intros Ho Hx Hf Hb Ht. destruct (mb_inv k o x Hk Ho Hx) as (Hok & _ & _). pose proof (mo_entry _ Hok).
  destruct (decide (mb_entry x = 0)) as [He|He]; [destruct (decide (time = 0)) as [->|Hnz]|].
  - destruct (reset_error_run k t th Hk Hb) as (E0 & _ & Hb0).
    eapply goes_run; [|exact (reset_try_goes t th (- RT_ETIMEOUT) Hb)].
    unfold mb_recv_loop. rewrite (bind_ok _ _ _ _ _ (get_mb_run _ _ _ Hx)), He. cbn [Z.eqb].
    rewrite (bind_ok _ _ _ _ _ E0). by rewrite (bind_ok _ _ _ _ _ (k_upd_thread_run _ _ _ _ (cb_thread _ _ _ Hb0))).
  - destruct (mb_recv_block k o x Hk Ho Hx time t th) as (k' & E & Hk' & _); [done..|].
    eapply goes_run; [|exact Hk']. rewrite <- E. unfold rt_mb_recv. rewrite check_run by done.
    rewrite (bind_ok _ _ _ _ _ (k_self_run k)), <- (cb_current _ _ _ Hb).
    by rewrite (bind_ok _ _ _ _ _ (get_mb_run _ _ _ Hx)), (proj2 (Z.eqb_neq _ _) Hnz), andb_false_r.
  - destruct (mb_recv_mail k o x Hk Ho Hx time) as (v & k' & E & Hk' & _); [lia|by eapply thread_started|].
    eapply goes_run; [|exact Hk']. rewrite <- E. unfold rt_mb_recv. rewrite check_run by done.
    rewrite (bind_ok _ _ _ _ _ (k_self_run k)), <- (cb_current _ _ _ Hb).
    by rewrite (bind_ok _ _ _ _ _ (get_mb_run _ _ _ Hx)), (proj2 (Z.eqb_neq _ _) He).
Qed.

Lemma go_mb_send o v time : allowed k (MbSend o v time) -> goes (exec user_timeout cleanup (MbSend o v time)) k.
Proof.
  intros (Ho & (x & Hx & Hf) & (t & th & Hb) & Ht). cbn [exec].
  assert (E : rt_mb_send_wait o v time k =
    (if (mb_entry x =? mb_size x) && (time =? 0) then mret (Return (- RT_EFULL)) else mb_send_loop o v t time) k).
  { unfold rt_mb_send_wait. rewrite check_run by done. rewrite (bind_ok _ _ _ _ _ (k_self_run k)), <- (cb_current _ _ _ Hb).
    by rewrite (bind_ok _ _ _ _ _ (get_mb_run _ _ _ Hx)). }
  destruct ((mb_entry x =? mb_size x) && (time =? 0)); [by eapply goes_run|].
  destruct (go_mb_send_loop o v t th x time) as (k' & E' & Hk'); [done..|]. exists k'. split; [|done].
  unfold run, mbind, M_bind in *. by rewrite E.
Qed.

Lemma go_mb_recv o time : allowed k (MbRecv o time) -> goes (exec user_timeout cleanup (MbRecv o time)) k.
Proof.
  intros (Ho & (x & Hx & Hf) & (t & th & Hb) & Ht). cbn [exec].
  assert (E : rt_mb_recv o time k =
    (if (mb_entry x =? 0) && (time =? 0) then mret (Return (- RT_ETIMEOUT, None)) else mb_recv_loop o t time) k).
  { unfold rt_mb_recv. rewrite check_run by done. rewrite (bind_ok _ _ _ _ _ (k_self_run k)), <- (cb_current _ _ _ Hb).
    by rewrite (bind_ok _ _ _ _ _ (get_mb_run _ _ _ Hx)). }
  destruct ((mb_entry x =? 0) && (time =? 0)); [by eapply goes_run|].
  destruct (go_mb_recv_loop o t th x time) as (k' & E' & Hk'); [done..|]. exists k'. split; [|done].
  unfold run, mbind, M_bind in *. by rewrite E.
Qed.

(** A call that goes on: it returns the error it was woken with, or enters
    its loop [m] with the time left. *)
Lemma go_on {A} t th time start (e : Z -> A) (m : Z -> K A) : can_block k t th ->
  goes (run (m (left_time k time start))) k ->
  goes (run (th ← liftS (get_thread t);
    if negb (th_error th =? RT_EOK) then mret (e (th_error th))
    else now ← liftT rt_tick_get; m (time_left time start now))) k.
Proof.
  intros Hb (k' & E & Hk'). unfold run.
  destruct (negb (th_error th =? RT_EOK)) eqn:Ee.
  - exists k. split; [|done]. rewrite bind_assoc, (bind_ok _ _ _ _ _ (k_thread_run _ _ _ (cb_thread _ _ _ Hb))).
    by rewrite Ee.
  - exists k'. split; [|done]. rewrite bind_assoc, (bind_ok _ _ _ _ _ (k_thread_run _ _ _ (cb_thread _ _ _ Hb))).
    rewrite Ee, bind_assoc, (bind_ok _ _ _ _ _ (k_tick_run k)). exact E.
Qed.

Lemma go_mb_send_on pc : allowed k (MbSendOn pc) -> goes (exec user_timeout cleanup (MbSendOn pc)) k.
Proof.
  intros (Ho & (x & Hx & Hf) & (th & Hb) & Ht). cbn [exec]. unfold mb_send_resumed.
  apply (go_on (bp_thread pc) th (bp_timeout pc) (bp_start pc) Return (mb_send_loop (bp_mb pc) (bp_value pc) (bp_thread pc))); [done|].
  by apply (go_mb_send_loop _ _ _ th x).
Qed.

Lemma go_mb_recv_on pc : allowed k (MbRecvOn pc) -> goes (exec user_timeout cleanup (MbRecvOn pc)) k.
Proof.
  intros (Ho & (x & Hx & Hf) & (th & Hb) & Ht). cbn [exec]. unfold mb_recv_resumed.
  apply (go_on (bp_thread pc) th (bp_timeout pc) (bp_start pc) (fun e => Return (e, None)) (mb_recv_loop (bp_mb pc) (bp_thread pc))); [done|].
  by apply (go_mb_recv_loop _ _ th x).
Qed.

Lemma go_mq_send o b : allowed k (MqSend o b) -> goes (exec user_timeout cleanup (MqSend o b)) k /\ goes (exec user_timeout cleanup (MqUrgent o b)) k.
Proof.
  intros (Ho & Hb & Hc). destruct (io_mq _ (kw_ipc _ Hk) o Ho) as (_ & x & Hx & fr & qu & Hs).
  destruct (decide (mq_msg_size x < Z.of_nat (length b))).
  { destruct (mq_send_long k o x Hk Ho Hx b) as [E1 E2]; [done..|]. split; by eapply goes_run. }
  destruct fr as [|s fr].
  { destruct (mq_send_full k o x [] qu Hk Ho Hx Hs b) as [E1 E2]; [done|lia|done|]. split; by eapply goes_run. }
  destruct (mq_send_run k o x (s :: fr) qu Hk Ho Hx Hs b s fr) as (k1 & E1 & Hk1 & _); [done|lia|done|done|].
  destruct (mq_urgent_run k o x (s :: fr) qu Hk Ho Hx Hs b s fr) as (k2 & E2 & Hk2 & _); [done|lia|done|done|].
  split; by eapply goes_run.
Qed.

Lemma go_mq_recv_loop o n t th x time : is_mq k o -> ip_mq (k_ipc k) !! o = Some x -> ipc_flag (mq_flag x) ->
  can_block k t th -> wait_time time -> goes (run (mq_recv_loop o n t time)) k.
Proof.
  intros Ho Hx Hf Hb Ht. destruct (io_mq _ (kw_ipc _ Hk) o Ho) as (_ & x' & Hx' & fr & qu & Hs).
  rewrite Hx in Hx'. injection Hx' as <-. pose proof (entry_nil x fr qu Hs) as He.
  destruct qu as [|s qu]; [rewrite bool_decide_true in He by done|rewrite bool_decide_false in He by done].
  - destruct (decide (time = 0)) as [->|Hnz].
    + destruct (reset_error_run k t th Hk Hb) as (E0 & _ & Hb0).
      eapply goes_run; [|exact (reset_try_goes t th (- RT_ETIMEOUT) Hb)].
      unfold mq_recv_loop. rewrite (bind_ok _ _ _ _ _ (get_mq_run _ _ _ Hx)), He.
      rewrite (bind_ok _ _ _ _ _ (thread_context_run _ _ _ Hk Hb)), (bind_ok _ _ _ _ _ E0). cbn [Z.eqb].
      by rewrite (bind_ok _ _ _ _ _ (k_upd_thread_run _ _ _ _ (cb_thread _ _ _ Hb0))).
    + destruct (mq_wait_run k o x fr [] Hk Ho Hx Hs n time t th) as (k' & E & Hk' & _); [done..|]. by eapply goes_run.
  - eapply goes_run.
    + unfold mq_recv_loop. rewrite (bind_ok _ _ _ _ _ (get_mq_run _ _ _ Hx)), He.
      by rewrite (bind_ok _ _ _ _ _ (recv_finish_run k o x fr (s :: qu) Hx Hs n s qu eq_refl)).
    + eapply kwf_put_mq; [done|]. by apply received_split.
Qed.

Lemma go_mq_recv o n time : allowed k (MqRecv o n time) -> goes (exec user_timeout cleanup (MqRecv o n time)) k.
Proof.
  intros (Ho & (x & Hx & Hf) & (t & th & Hb) & Ht & Hn). cbn [exec].
  assert (E : rt_mq_recv o n time k =
    (if (mq_entry x =? 0) && (time =? 0) then mret (Return (- RT_ETIMEOUT, None)) else mq_recv_loop o n t time) k).
  { unfold rt_mq_recv. rewrite (recv_checks_run k o x Hk Ho Hx n) by done. by rewrite <- (cb_current _ _ _ Hb). }
  destruct ((mq_entry x =? 0) && (time =? 0)); [by eapply goes_run|].
  destruct (go_mq_recv_loop o n t th x time) as (k' & E' & Hk'); [done..|]. exists k'. split; [|done].
  unfold run, mbind, M_bind in *. by rewrite E.
Qed.

Lemma go_mq_recv_on pc : allowed k (MqRecvOn pc) -> goes (exec user_timeout cleanup (MqRecvOn pc)) k.
Proof.
  intros (Ho & (x & Hx & Hf) & (th & Hb) & Ht). cbn [exec]. unfold mq_recv_resumed.
  apply (go_on (qp_thread pc) th (qp_timeout pc) (qp_start pc) (fun e => Return (e, None)) (mq_recv_loop (qp_mq pc) (qp_size pc) (qp_thread pc)));
    [done|]. by apply (go_mq_recv_loop _ _ _ th x).
Qed.

(** *** Memory pools *)

Lemma go_mp_alloc mp time : allowed k (MpAlloc mp time) -> goes (exec user_timeout cleanup (MpAlloc mp time)) k.
Proof.
  intros (Hm & (t & th & Hb) & Ht & x & fr & al & Hx & HR). destruct fr as [|b fr].
  - destruct (decide (time = 0)) as [->|].
    + destruct (mp_alloc_try k mp x al t th) as [E Hk']; [done..|]. by eapply goes_run.
    + destruct (mp_alloc_block k mp x al t th time) as (k' & E & Hk' & _); [done..|]. by eapply goes_run.
  - destruct (mp_alloc_free k mp x b fr al time Hx HR) as (x' & E & _). eapply goes_run; [exact E|by apply kwf_pools].
Qed.

Lemma go_mp_alloc_on pc : allowed k (MpAllocOn pc) -> goes (exec user_timeout cleanup (MpAllocOn pc)) k.
Proof.
  intros (Hm & (th & Hb) & Ht & Hx). cbn [exec]. unfold mp_alloc_resumed.
  apply (go_on (pp_thread pc) th (pp_time pc) (pp_start pc) (fun _ => Return RT_NULL) (mp_alloc_loop (pp_mp pc) (pp_thread pc))); [done|].
  destruct (go_mp_alloc (pp_mp pc) (left_time k (pp_time pc) (pp_start pc))) as (k' & E & Hk').
  { split; [done|]. split; [by exists (pp_thread pc), th|]. by split. }
  exists k'. split; [|done]. rewrite <- E. cbn [exec]. unfold run, rt_mp_alloc.
  rewrite bind_assoc, (bind_ok _ _ _ _ _ (k_self_run k)). by rewrite <- (cb_current _ _ _ Hb).
Qed.

Lemma go_mp_free block : allowed k (MpFree block) -> goes (exec user_timeout cleanup (MpFree block)) k.
Proof.
  intros (Hc & mp & x & fr & al1 & b & al2 & -> & Hx & HR & [Hw Hlt]).
  destruct (mp_free_head k mp x b fr al1 al2 Hx HR) as [HR1 E]. cbv zeta in HR1, E.
  set (k1 := pools_at _ _ k) in *. assert (Hk1 : kwf k1) by by apply kwf_pools.
  destruct (waiters k (HSuspend mp)) as [|t rest] eqn:El.
  - cbn in Hw. rewrite Hw in E. exact (goes_run _ _ tt k1 E Hk1).
  - rewrite (proj2 (Z.ltb_lt _ _)) in E by (rewrite Hw; cbn; lia).
    destruct (wait_suspended k (HSuspend mp) t Hk I) as (th & Ht & _); [rewrite El; set_solver|].
    destruct (mp_free_wake k1 mp (give_block b x) t rest th) as (k' & E' & Hk' & _);
      [done|apply lookup_insert_eq|exact El|exact Ht|exact Hc|]. rewrite E' in E. by eapply goes_run.
Qed.

(** *** Resets *)

Lemma go_event_reset o : allowed k (EventReset o) -> goes (exec user_timeout cleanup (EventReset o)) k.
Proof.
  intros [Ho Hc]. destruct (io_event _ (kw_ipc _ Hk) o Ho) as (Hh & x & Hx).
  destruct (resume_all_run k (HSuspend o) Hk I Hh) as (k1 & E1 & Hk1 & Hra).
  assert (Ex : ip_event (k_ipc k1) !! o = Some x) by by rewrite (wf_ipc _ _ (ra_frame _ _ _ Hra)).
  destruct (k_schedule_run (put_event o (mk_event (event_flag x) 0) k1)) as (s' & E3 & Hk3 & _).
  { by apply kwf_put_event. }
  { cbn. by rewrite (wf_current _ _ (ra_frame _ _ _ Hra)). }
  eapply goes_run; [|exact Hk3]. unfold rt_event_control. rewrite check_run by done. rewrite Z.eqb_refl.
  rewrite (bind_ok _ _ _ _ _ E1). unfold set_events. rewrite bind_assoc.
  rewrite (bind_ok _ _ _ _ _ (get_event_run _ _ _ Ex)), bind_modify.
  by erewrite bind_ok by exact E3.
Qed.

Lemma go_mb_reset o : allowed k (MbReset o) -> goes (exec user_timeout cleanup (MbReset o)) k.
Proof.
  intros [Ho Hc]. destruct (io_mb _ (kw_ipc _ Hk) o Ho) as (_ & _ & x & Hx & _).
  destruct (mb_control_reset k o 0 x Hk Ho Hx Hc) as (k1 & k2 & k' & x' & _ & _ & E & Hk' & _). by eapply goes_run.
Qed.

Lemma go_mq_reset o : allowed k (MqReset o) -> goes (exec user_timeout cleanup (MqReset o)) k.
Proof.
  intros [Ho Hc]. destruct (io_mq _ (kw_ipc _ Hk) o Ho) as (_ & x & Hx & fr & qu & Hs).
  destruct (mq_reset_run k o 0 x fr qu Hk Ho Hx Hs Hc) as (k1 & k' & x' & _ & E & Hk' & _). by eapply goes_run.
Qed.

(** *** Threads, timers, critical sections and interrupts *)

Lemma go_priority t prio : allowed k (ThreadPriority t prio) -> goes (exec user_timeout cleanup (ThreadPriority t prio)) k.
Proof.
  intros (th & [Ht Hs] & Hp). destruct (change_priority_run k t (u8 prio) th Hk Ht Hp) as (s' & E & Hk' & _).
  eapply goes_run; [|exact Hk']. unfold rt_thread_control.
  rewrite (check_run _ _ _ _ Hk (tl_type _ _ (kw_live _ Hk t th Ht Hs))), Z.eqb_refl. by rewrite (bind_ok _ _ _ _ _ E).
Qed.

Lemma go_suspend : allowed k Suspend -> goes (exec user_timeout cleanup Suspend) k.
Proof.
  intros (t & th & [Ht Hc Hr _]). destruct (thread_suspend_run k t th Hk Ht Hc Hr) as (E & Hk' & _).
  eapply goes_run; [|exact Hk']. by rewrite (bind_ok _ _ _ _ _ (k_self_run k)), <- Hc.
Qed.

Lemma go_timer_stop p : allowed k (TimerStop p) -> goes (exec user_timeout cleanup (TimerStop p)) k.
Proof.
  intros [Hty [tm Ht]]. destruct (timer_stop_run _ _ _ Ht) as [r Hr].
  eapply (goes_run _ k r (put_ts (ts_stop (AObj p) (k_ts k)) k)).
  - unfold rt_timer_stop, is_null. pose proof (has_type_nonnull _ _ _ Hk Hty) as Hn.
    rewrite bool_decide_false, bind_assert by done. rewrite (bind_ok _ _ _ _ _ (assert_type_run _ _ _ Hk Hty)).
    by apply liftT_run.
  - apply kwf_ts_step; [done|]. split.
    + by apply twf_stop, Hk.
    + unfold ts_stop. destruct (ts_timers (k_ts k) !! AObj p); [|done]. by case_match.
    + intros a tm' Ha Hf. destruct (stop_timers (AObj p) (k_ts k) a) as [E|(-> & tm0 & E1 & E2)].
      * exists tm'. rewrite E. split; [done|by apply same_timer_refl].
      * eexists. split; [exact E2|]. assert (tm0 = tm') as -> by (unfold timers in Ha; congruence). apply same_timer_deactivate.
    + intros x Hx. destruct (kw_ttimer _ Hk _ (stop_row_sub _ _ _ Hx)) as (th & tm0 & H1 & H2 & H3 & H4). split; [eauto|].
      destruct (stop_timers (AObj p) (k_ts k) (ATimer x)) as [E|(E & _)]; [|done]. exists tm0. by rewrite E.
    + intros q Hq. apply (kw_utimer _ Hk). by eapply stop_row_sub.
Qed.

Lemma kwf_counters k0 s : kwf k0 -> sc_threads s = threads k0 -> sc_lists s = sc_lists (k_sched k0) ->
  sc_group s = sc_group (k_sched k0) -> sc_table s = sc_table (k_sched k0) -> sc_current s = sc_current (k_sched k0) ->
  kwf (put_sched s k0).
Proof.
  intros Hk0 E1 E2 E3 E4 E5. pose proof (kw_sched _ Hk0) as Hw. unfold threads in E1.
  assert (El : forall h, lget s h = lget (k_sched k0) h) by (intros h; unfold lget; by rewrite E2).
  apply kwf_sched_step; [done|apply sched_step_lists; try done|].
  - assert (Er : forall p, ready_set s p = ready_set (k_sched k0) p) by (intros p; unfold ready_set, rdy; by rewrite El).
    destruct Hw as [W1 W2 W3 W4 W5 W6 W7 W8 W9 W10 W11 W12].
    split; unfold rdy in *; intros *; rewrite ?El, ?E1, ?E2, ?E5; eauto.
    rewrite E3, E4. eapply bitmap_rep_ext; [exact W10|]. intros p _. by rewrite Er.
  - intros h. by rewrite E2.
  - intros x. by rewrite El.
  - intros o x. by rewrite El.
Qed.

Lemma go_exit_critical : allowed k ExitCritical -> goes (exec user_timeout cleanup ExitCritical) k.
Proof.
  intros Hc. unfold allowed, started in Hc. cbn [exec]. set (n := i16 (sc_lock_nest (k_sched k) - 1)).
  assert (Hk1 : kwf (k_lock n k)) by by apply kwf_lock.
  destruct (Z.leb_spec n 0) as [Hn|Hn].
  - destruct (k_schedule_run (k_lock 0 k) (kwf_lock k 0 Hk) Hc) as (s' & E & Hk' & _).
    eapply (goes_run _ k tt (put_sched s' k)); [|exact Hk'].
    apply liftS_run. unfold rt_exit_critical. rewrite bind_modify, bind_gets. cbn [sc_lock_nest put_lock]. fold n.
    rewrite (proj2 (Z.leb_le n 0) Hn). cbn [when]. rewrite bind_modify. unfold liftS, zoom in E.
    change (put_lock 0 (put_lock n (k_sched k))) with (put_lock 0 (k_sched k)).
    change (k_sched (k_lock 0 k)) with (put_lock 0 (k_sched k)) in E.
    destruct (rt_schedule _) as [[] s2|]; [|done]. injection E as E. f_equal. by rewrite E.
  - eapply goes_run; [|exact Hk1]. apply liftS_run. unfold rt_exit_critical. rewrite bind_modify, bind_gets.
    cbn [sc_lock_nest put_lock]. fold n. rewrite (proj2 (Z.leb_gt n 0)) by done. done.
Qed.

Lemma go_counters c : c = EnterCritical \/ c = IrqEnter \/ c = IrqLeave -> goes (exec user_timeout cleanup c) k.
Proof.
  intros [->|[->| ->]]; cbn [exec]; (eapply goes_run; [by apply liftS_run|by apply kwf_counters]).
Qed.

End At.

Lemma plain_goes k c : kwf k -> plain c = true -> allowed k c -> goes (exec user_timeout cleanup c) k.
Proof.
  intros Hk Hp Ha. destruct c; try done; try (by eauto using go_sem_take, go_sem_release, go_sem_reset, go_mutex_take,
    go_mutex_release, go_event_send, go_event_recv, go_event_reset, go_mb_send, go_mb_recv, go_mb_send_on, go_mb_recv_on,
    go_mb_reset, go_mq_recv, go_mq_recv_on, go_mq_reset, go_mp_alloc, go_mp_alloc_on, go_mp_free, go_priority, go_suspend,
    go_timer_stop, go_exit_critical, go_counters); cbn in Ha.
  - by apply go_mq_send.
  - by apply go_mq_send.
  - destruct Ha as (th & Ht & Hs & Hpr). destruct (thread_startup_run k t th Hk Ht Hs Hpr) as (s' & E & Hk' & _).
    by eapply goes_run.
  - destruct Ha as [Hc Hg]. destruct (k_start_run k Hk Hc Hg) as (s' & t & p & E & Hk' & _). by eapply goes_run.
  - destruct Ha as ((t & th & Hb) & Ht). destruct (sleep_run k t th tick Hk Hb Ht) as (k' & E & Hk' & _). by eapply goes_run.
  - destruct (k_schedule_run k Hk Ha) as (s' & E & Hk' & _).
    eapply goes_run; [unfold rt_thread_yield; by rewrite (bind_ok _ _ _ _ _ E)|done].
  - destruct Ha as (th & Ht & Hs). destruct (thread_resume_run k t th Hk Ht Hs) as [E Hk']. by eapply goes_run.
  - destruct Ha as (Hty & tm & Ht & Hi). destruct (user_timer_start_run k p tm Hk Ht Hty Hi) as (ts' & E & Hk').
    by eapply goes_run.
Qed.

End Progress.

