(* ===== verification/System.v ===== *)
(** * The kernel as a whole

    A run of the system is a sequence of kernel calls and clock interrupts,
    starting from the initialised kernel; [reachable] collects the states such
    runs reach.  In every reachable state the kernel is well formed, its
    running timers are in expiry order, the memory of every dynamic object is
    its own, and every allowed call returns. *)

From S2P Require Import Prelude Scheduler ReadyBitmap SchedInv SchedSpec Object ObjInv Timer TimerInv.
From S2P Require Import Kernel Thread Ipc Semaphore Mutex Event Mailbox MsgQueue MemPool Clock Idle.
From S2P Require Import KernelInv ThreadInv IpcInv BlockInv ClockInv Boot Demo Mem MemInv MemThm SemSpec.
From S2P Require Import MutexSpec EventSpec MailboxSpec MqInv MqSpec MpSpec Keeps Stable Frames Own Dynamic.
From S2P Require Import DynPool Lifetime ThreadLife IdleSpec Calls Progress.

Section System.
Context `{CO : ConfigOk} {HP : Heap} {HO : HeapOk HP}.
Variables user_timeout cleanup : Z -> Z -> K unit.
Abbreviation exec := (exec user_timeout cleanup).

(** The states of a run. *)
Inductive reachable : kstate -> Prop :=
| reach_boot h k : heap_ok h -> kernel_init (kernel_zero h) = Ok tt k -> reachable k
| reach_call k c k' : reachable k -> allowed k c -> exec c k = Ok tt k' -> reachable k'.

Record sys_ok (k : kstate) : Prop := {
  so_kwf : kwf k;
  so_run : timers_run (k_ts k);
  so_mwf : mwf k
}.

(** The call returns with the kernel and the ownership of memory well formed. *)
Definition goes_on (m : K unit) (k : kstate) : Prop := exists k', m k = Ok tt k' /\ kwf k' /\ mwf k'.

Lemma on_run {A} (m : K A) k a k' : m k = Ok a k' -> kwf k' -> mwf k' -> goes_on (run m) k.
Proof. intros E Hk Hm. exists k'. unfold run. by rewrite (bind_ok _ _ _ _ _ E). Qed.

(** ** Calls that create and destroy nothing *)

Lemma plain_on k c : kwf k -> mwf k -> plain c = true -> allowed k c -> goes_on (exec c) k.
Proof.
  intros Hk Hm Hp Ha. destruct (plain_goes user_timeout cleanup k c Hk Hp Ha) as (k' & E & Hk'). exists k'.
  split; [done|]. split; [done|]. destruct (woken_mwf (exec c) k tt k' Hm E) as (Hm' & _); [| |done].
  - intros k0. apply plain_keeps; [apply frame_stable|done].
  - intros h. apply plain_keeps; [apply heap_stable|done].
Qed.

(** ** Static objects *)

Lemma not_defunct k o c : kwf k -> has_type k (AObj o) c -> c <> RT_Object_Class_Thread -> o ∉ waiters k HDefunct.
Proof. intros Hk Hty Hc Hin. by pose proof (type_unique _ _ _ _ Hty (kw_defunct _ Hk o Hin)). Qed.

Lemma init_on {A} (m : K A) k a k' o : kwf k -> mwf k -> place k o -> m k = Ok a k' -> kwf k' ->
  has_static k' (AObj o) true -> (o ∉ waiters k' HDefunct) ->
  keeps (frame_but {[o]} k) m -> keeps (heap_is (k_heap k)) m -> goes_on (run m) k.
Proof.
  intros Hk Hm [_ Ho] E Hk' (ob & Hob & Hst) Hn Hf Hh. eapply on_run; [exact E|done|].
  apply (mwf_static k k' o); try done; [| |by left|].
  - eapply Hf; [apply frame_refl|exact E].
  - unfold live. assert (Hh' : heap_is (k_heap k) k') by (eapply Hh; [done|exact E]). by rewrite Hh'.
  - intros ob' (Hob' & Hst' & _). congruence.
Qed.

Lemma init_at {A} (m : K A) k a k' o c : kwf k -> mwf k -> place k o -> m k = Ok a k' -> kwf k' ->
  has_static k' (AObj o) true -> has_type k' (AObj o) c -> c <> RT_Object_Class_Thread ->
  (forall I, StableAt I o -> keeps I m) -> goes_on (run m) k.
Proof.
  intros Hk Hm Ho E Hk' Hst Hty Hc Hkeep. eapply init_on; try done; [by eapply not_defunct| |].
  - apply Hkeep, frame_stable_at. set_solver.
  - apply Hkeep, heap_stable_at.
Qed.

Section Static.
Variables (k : kstate).
Hypotheses (Hk : kwf k) (Hm : mwf k).

Lemma static_on c : (match c with SemInit _ _ _ _ | MutexInit _ _ _ | EventInit _ _ _ | MbInit _ _ _ _ _ | MqInit _ _ _ _ _ _
    | MpInit _ _ _ _ _ | ThreadInit _ _ _ _ _ _ _ _ | TimerInit _ _ _ _ _ _ => True | _ => False end) ->
  allowed k c -> goes_on (exec c) k.
Proof.
  destruct c; try done; intros _ Ha; cbn in Ha.
  - destruct (sem_init_run k o name value flag Hk (proj1 Ha)) as (k' & E & Hk' & Hty & _ & _ & Hst).
    eapply init_at; try done. intros I SI. apply k_sem_init.
  - destruct (mutex_init_run k o name flag Hk (proj1 Ha)) as (k' & E & Hk' & Hty & _ & _ & Hst).
    eapply init_at; try done. intros I SI. apply k_mutex_init.
  - destruct (event_init_run k o name flag Hk (proj1 Ha)) as (k' & E & Hk' & Hty & _ & _ & Hst).
    eapply init_at; try done. intros I SI. apply k_event_init.
  - destruct (mb_init_run k o name pool size flag Hk (proj1 Ha)) as (k' & E & Hk' & Hty & _ & Hst).
    eapply init_at; try done. intros I SI. apply k_mb_init.
  - destruct Ha as [Ha Hp].
    destruct (mq_init_run k o name pool msg_size pool_size flag Hk (proj1 Ha) Hp) as (k' & fr & E & Hk' & Hty & _ & _ & _ & Hst).
    eapply init_at; try done. intros I SI. apply k_mq_init.
  - destruct Ha as [Ha Hp].
    destruct (mp_init_run k o name start size block_size Hk (proj1 Ha) Hp) as (k' & E & Hk' & [Hty _] & _ & _ & _ & _ & _ & _ & Hst).
    eapply init_at; try done. intros I SI. apply k_mp_init.
  - destruct Ha as (Ha & Hs & Hp). destruct (thread_init_run k t name entry par stack size prio tick Hk (proj1 Ha) Hs Hp)
      as (k' & th & E & Hk' & Hi & _ & Hst).
    pose proof (frame_stable_at {[t]} k t ltac:(set_solver)) as SI.
    eapply init_on; try done; [|apply k_thread_init|apply k_thread_init].
    unfold waiters. rewrite (ti_sched _ _ _ _ Hi). intros Hin. by apply (fresh_unlinked k t Hk (proj1 Ha) HDefunct).
  - destruct Ha as (Ha & Ht). destruct (user_timer_init_run k p name f par time flag Hk (proj1 Ha)) as (k' & E & Hk' & Hty & _ & _ & Hst).
    eapply init_on; try done; [by eapply not_defunct| |]; unfold rt_timer_init;
      (apply keeps_bind; [keep|intros _]; apply keeps_bind; [|intros _]).
    + apply keeps_frame_obj. intros s0. apply but_init. set_solver.
    + apply (timer_set_same _ _ p); set_solver.
    + by apply keeps_any.
    + by apply keeps_any.
Qed.

Lemma detach_on c : (match c with SemDetach _ | MutexDetach _ | EventDetach _ | MbDetach _ | MqDetach _ | MpDetach _
    | TimerDetach _ | ThreadDetach _ => True | _ => False end) ->
  allowed k c -> goes_on (exec c) k.
Proof.
  destruct c; try done; intros _ Ha; cbn in Ha.
  - destruct Ha as [Ho Hst]. destruct (sem_detach_goes k o Hk Hm Hst Ho) as (k' & E & Hk' & Hm'). by eapply on_run.
  - destruct Ha as [Ho Hst]. destruct (mutex_detach_goes k o Hk Hm Hst Ho) as (k' & E & Hk' & Hm'). by eapply on_run.
  - destruct Ha as [Ho Hst]. destruct (event_detach_goes k o Hk Hm Hst Ho) as (k' & E & Hk' & Hm'). by eapply on_run.
  - destruct Ha as [Ho Hst]. destruct (mb_detach_goes k o Hk Hm Hst Ho) as (k' & E & Hk' & Hm'). by eapply on_run.
  - destruct Ha as [Ho Hst]. destruct (mq_detach_goes k o Hk Hm Hst Ho) as (k' & E & Hk' & Hm'). by eapply on_run.
  - destruct Ha as (Ho & Hx & Hst). destruct (mp_detach_goes k o Hk Hm Hst Ho Hx) as (k' & E & Hk' & Hm'). by eapply on_run.
  - destruct Ha as (th & [Ht Hs] & (ob & Ho & Hst) & Hcl).
    destruct (thread_detach_run k t th ob Hk Hm Ht Hs Ho Hst Hcl) as (k1 & _ & E & Hk' & Hm'). by eapply on_run.
  - destruct Ha as (Hty & Hst & tm & Ht). destruct (timer_detach_goes k p Hk Hm Hst tm Hty Ht) as (k' & E & Hk' & Hm').
    by eapply on_run.
Qed.

(** ** Dynamic objects *)

Lemma creation_ok c p k' : creation k c p k' -> kwf k' /\ mwf k'.
Proof. intros [[_ []]|(bs & [])]; done. Qed.

Lemma create_on c : (match c with SemCreate _ _ _ | MutexCreate _ _ | EventCreate _ _ | MbCreate _ _ _ | MqCreate _ _ _ _
    | MpCreate _ _ _ | ThreadCreate _ _ _ _ _ _ | TimerCreate _ _ _ _ _ => True | _ => False end) ->
  allowed k c -> goes_on (exec c) k.
Proof.
  destruct c; try done; intros _ Ha; cbn in Ha.
  - destruct (sem_create_run k name value flag Hk Hm Ha) as (p & k' & E & Hc & _). eapply on_run; [exact E|apply (creation_ok _ _ _ Hc)..].
  - destruct (mutex_create_run k name flag Hk Hm Ha) as (p & k' & E & Hc & _). eapply on_run; [exact E|apply (creation_ok _ _ _ Hc)..].
  - destruct (event_create_run k name flag Hk Hm Ha) as (p & k' & E & Hc & _). eapply on_run; [exact E|apply (creation_ok _ _ _ Hc)..].
  - destruct (mb_create_run k name size flag Hk Hm Ha) as (p & k' & E & Hc & _). eapply on_run; [exact E|apply (creation_ok _ _ _ Hc)..].
  - destruct (mq_create_run k name msg_size max_msgs flag Hk Hm Ha) as (p & k' & E & Hc & _).
    eapply on_run; [exact E|apply (creation_ok _ _ _ Hc)..].
  - destruct Ha as [Hi Ha]. destruct (mp_create_run k name count block_size Hk Hm Hi Ha) as (p & k' & E & Hc & _).
    eapply on_run; [exact E|apply (creation_ok _ _ _ Hc)..].
  - destruct Ha as [Hi Ha]. destruct (thread_create_run k name entry par size prio tick Hk Hm Hi Ha) as (p & k' & E & Hc & _).
    eapply on_run; [exact E|apply (creation_ok _ _ _ Hc)..].
  - destruct Ha as [Hi Ha]. destruct (timer_create_run k name (FUser f) par time flag Hk Hm Hi) as (p & k' & E & Hc & _).
    eapply on_run; [exact E|apply (creation_ok _ _ _ Hc)..].
Qed.

Lemma delete_on c : (match c with SemDelete _ | MutexDelete _ | EventDelete _ | MbDelete _ | MqDelete _ | MpDelete _
    | TimerDelete _ | ThreadDelete _ => True | _ => False end) ->
  allowed k c -> goes_on (exec c) k.
Proof.
  destruct c; try done; intros _ Ha; cbn in Ha.
  - destruct Ha as (Hi & ob & Hd & Hc). destruct (sem_delete_run k o ob Hk Hm Hi Hd Hc) as (k' & E & []). by eapply on_run.
  - destruct Ha as (Hi & ob & Hd & Hc). destruct (mutex_delete_run k o ob Hk Hm Hi Hd Hc) as (k' & E & []). by eapply on_run.
  - destruct Ha as (Hi & ob & Hd & Hc). destruct (event_delete_run k o ob Hk Hm Hi Hd Hc) as (k' & E & []). by eapply on_run.
  - destruct Ha as (Hi & ob & Hd & Hc). destruct (mb_delete_run k o ob Hk Hm Hi Hd Hc) as (b & k' & E & [] & _). by eapply on_run.
  - destruct Ha as (Hi & ob & Hd & Hc). destruct (mq_delete_run k o ob Hk Hm Hi Hd Hc) as (b & k' & E & [] & _). by eapply on_run.
  - destruct Ha as ((Hi & ob & Hd & Hc) & Ho & Hx).
    destruct (mp_delete_run k o ob Hk Hm Hi Hd Ho Hx) as (b & k' & E & [] & _). by eapply on_run.
  - destruct Ha as (th & ob & [Ht Hs] & Hd). pose proof Hd as [Ho _].
    destruct (thread_delete_run k t th ob Hk Hm Ht Hs Ho Hd) as (k1 & _ & E & Hk' & Hm'). by eapply on_run.
  - destruct Ha as ((Hi & ob & Hd & Hc) & tm & Ht).
    destruct (timer_delete_run k p ob tm Hk Hm Hi Hd Hc Ht) as (k' & E & []). by eapply on_run.
Qed.

Lemma exit_on : allowed k ThreadExit -> goes_on (exec ThreadExit) k.
Proof.
  intros (t & th & ob & [Ht Hc Hr _] & Ho & Hl). assert (Hs : stat_of th <> RT_THREAD_CLOSE) by by rewrite Hr.
  destruct (thread_exit_run k t th ob Hk Hm Ht Hs Ho Hc Hr) as (k1 & s' & _ & E & _ & _ & Hk' & Hm'); [|done|by eapply on_run].
  destruct (is_static ob) eqn:Hst; [by left|by right].
Qed.
End Static.

(** ** Any call *)

Hypothesis user_quiet : forall f par k, kwf k -> sc_current (k_sched k) <> RT_NULL ->
  exists k', user_timeout f par k = Ok tt k' /\ quiet k k'.
Hypothesis user_keeps : forall I (SI : StableTick I) f par, keeps I (user_timeout f par).
Hypothesis cleanup_harmless : forall f t k, kwf k -> sc_lock_nest (k_sched k) <> 0 ->
  exists k', cleanup f t k = Ok tt k' /\ harmless k k'.
Hypothesis cleanup_run : forall f t, keeps run_k (cleanup f t).

Lemma idle_on k c : kwf k -> mwf k -> (match c with IdleCollect | IdleFree _ => True | _ => False end) ->
  allowed k c -> goes_on (exec c) k.
Proof.
  intros Hk Hm. destruct c; try done; intros _ Ha; cbn in Ha.
  - destruct Ha as [Hid Hne]. destruct (waiters k HDefunct) as [|t rest] eqn:Hw; [done|].
    destruct (kw_defunct _ Hk t) as (ob & Ho & _); [rewrite Hw; set_solver|].
    destruct (idle_collect_run cleanup cleanup_harmless k t rest ob Hid Hw Ho) as (k' & E & [] & _). by eapply on_run.
  - destruct Ha as [Hi Hco]. destruct (idle_free_run k t Hk Hm Hi Hco) as (th & k' & _ & E & [] & _). by eapply on_run.
Qed.

Lemma fit_app k : kwf k -> timers_fit (k_ts k) -> app_timers 1 k.
Proof.
  intros Hk Hf a tm Ha Ht. destruct (Hf a tm Ht) as [_ H]. split; [intros p Hp; by apply (H p)|].
  intros Hp. destruct a as [p|t]; [by apply (H p)|].
  by rewrite (thread_timer_oneshot k t tm Hk Ha Ht) in Hp.
Qed.

Lemma tick_goes k fuel : sys_ok k -> allowed k (Tick fuel) ->
  exists k', exec (Tick fuel) k = Ok tt k' /\ sys_ok k'.
Proof.
  intros [Hk (Hw & Ho & Hf) Hm] [Hc Hl].
  destruct (tick_increase_run user_timeout k fuel user_quiet Hk Hc Ho (fit_app k Hk Hf) Hl)
    as (k' & E & Hk' & Htk & Ht & _).
  assert (Hkeep : forall I, StableTick I -> keeps I (rt_tick_increase user_timeout fuel)).
  { intros I SI. apply k_tick_increase. intros f par. by apply user_keeps. }
  exists k'. split; [cbn [Calls.exec]; unfold run; by rewrite (bind_ok _ _ _ _ _ E)|]. split; [done| |].
  - split; [apply Hk'|]. split; [exact Ht|]. exact (Hkeep fit_k fit_stable_tick k tt k' Hf E).
  - destruct (woken_mwf _ k tt k' Hm E) as (Hm' & _); [intros k0; apply Hkeep, frame_stable_tick
      |intros h; apply Hkeep, heap_stable_tick|done].
Qed.

Lemma call_goes k c : kwf k -> mwf k -> allowed k c -> (forall fuel, c <> Tick fuel) -> goes_on (exec c) k.
Proof.
  intros Hk Hm Ha Hn. destruct (plain c) eqn:Hp; [by apply plain_on|].
  destruct c; try discriminate Hp;
    [by apply static_on|by apply detach_on|by apply create_on|by apply delete_on|
     by apply static_on|by apply detach_on|by apply create_on|by apply delete_on|
     by apply static_on|by apply detach_on|by apply create_on|by apply delete_on|
     by apply static_on|by apply detach_on|by apply create_on|by apply delete_on|
     by apply static_on|by apply detach_on|by apply create_on|by apply delete_on|
     by apply static_on|by apply detach_on|by apply create_on|by apply delete_on|
     by apply static_on|by apply detach_on|by apply create_on|by apply delete_on|by apply exit_on|
     by apply static_on|by apply detach_on|by apply create_on|by apply delete_on|by apply idle_on|by apply idle_on|by edestruct Hn].
Qed.

Lemma timer_time_fits p f par time flag : 0 < time -> time + 1 < RT_TICK_MAX / 2 ->
  timer_fits (AObj p) (mk_timer (Z.land flag (Z.lnot RT_TIMER_FLAG_ACTIVATED)) (FUser f) par time 0).
Proof. intros H1 H2. split; cbn; [lia|]. intros q _. split; [by eexists|done]. Qed.

Lemma call_keeps k c : allowed k c -> (forall fuel, c <> Tick fuel) -> keeps run_k (exec c).
Proof.
  intros Ha Hn. destruct (plain c) eqn:Hp; [apply plain_keeps; [apply run_stable|done]|].
  destruct c; try discriminate Hp; cbn [Calls.exec]; apply keeps_run;
    [apply k_sem_init|apply k_sem_detach|apply r_sem_create|apply r_sem_delete|
     apply k_mutex_init|apply k_mutex_detach|apply r_mutex_create|apply r_mutex_delete|
     apply k_event_init|apply k_event_detach|apply r_event_create|apply r_event_delete|
     apply k_mb_init|apply k_mb_detach|apply r_mb_create|apply r_mb_delete|
     apply k_mq_init|apply k_mq_detach|apply r_mq_create|apply r_mq_delete|
     apply k_mp_init|apply k_mp_detach|apply r_mp_create|apply r_mp_delete|
     apply k_thread_init|apply k_thread_detach|apply r_thread_create|apply k_thread_delete|apply r_thread_exit|
     idtac|apply r_user_timer_detach|idtac|apply r_timer_delete|by apply r_idle_collect|apply r_idle_free|by edestruct Hn].
  - destruct Ha as (_ & H1 & H2). unfold rt_timer_init. apply keeps_bind; [keep|intros _].
    apply keeps_bind; [by apply keeps_any|intros _]. by apply run_timer_set.
  - destruct Ha as (_ & H1 & H2). apply r_timer_create. intros p. by apply timer_time_fits.
Qed.

Lemma step_ok k c : sys_ok k -> allowed k c -> exists k', exec c k = Ok tt k' /\ sys_ok k'.
Proof.
  intros Hs Ha. assert (Hd : (exists fuel, c = Tick fuel) \/ forall fuel, c <> Tick fuel).
  { destruct c; try (right; discriminate). left. by eexists. }
  destruct Hd as [[fuel ->]|Hn]; [by apply tick_goes|]. destruct Hs as [Hk Hr Hm].
  destruct (call_goes k c Hk Hm Ha Hn) as (k' & E & Hk' & Hm'). exists k'. split; [done|]. split; [done| |done].
  exact (call_keeps k c Ha Hn k tt k' Hr E).
Qed.

Lemma boot_ok h k : heap_ok h -> kernel_init (kernel_zero h) = Ok tt k -> sys_ok k.
Proof.
  intros Hh E. destruct (boot_run h Hh) as (k' & E' & Hk & B1 & B2 & B3 & _ & _ & B4 & B5). rewrite E in E'. injection E' as <-.
  assert (Hv : forall p, vacant k p).
  { intros p. destruct (B5 p) as [H1 H2]. split; rewrite ?B1, ?B2, ?B4; try apply lookup_empty;
      unfold head_exists; rewrite ?H1, ?H2; by intros [? ?]. }
  split; [done| |].
  - split; [apply Hk|]. assert (Er : ts_rows (k_ts k) = replicate RT_TIMER_SKIP_LIST_LEVEL []).
    { unfold kernel_init, mbind, M_bind, liftT, liftS, zoom in E. cbn in E.
      destruct (rt_system_scheduler_init _) as [[] s|]; [|done]. by injection E as <-. }
    split.
    + split; rewrite last_row_replicate by done; [set_solver|constructor].
    + intros a tm Ha. unfold timers in B4. by rewrite B4, lookup_empty in Ha.
  - split.
    + done.
    + intros p ob Hd. by destruct (vacant_free k p ob).
    + intros p b Hb. by destruct (vacant_owns k p b).
    + intros p q b Hb. by destruct (vacant_owns k p b).
    + intros t. rewrite B3. set_solver.
Qed.

Lemma reachable_ok k : reachable k -> sys_ok k.
Proof.
  induction 1 as [h k Hh E|k c k' _ IH Ha E]; [by eapply boot_ok|].
  destruct (step_ok k c IH Ha) as (k'' & E' & Hs). rewrite E in E'. by injection E' as <-.
Qed.


End System.

(** ** On the small memory allocator

    The start-up heap of src/mem.c is a heap the kernel can run on. *)

Section SmallHeap.
Context `{CO : ConfigOk}.

Lemma heap_start_ok b e :
  0 < b -> e < 2 ^ (8 * sizeof_ptr) ->
  RT_ALIGN b RT_ALIGN_SIZE + 2 * SIZEOF_STRUCT_MEM + MIN_SIZE_ALIGNED <= RT_ALIGN_DOWN e RT_ALIGN_SIZE ->
  small_mem_inv b e (heap_start b e).
Proof.
  intros Hb He Hroom. destruct (heap_init_run b e Hb He Hroom) as (_ & Hr & Hp & Hend & Hl).
  pose proof (rep_blocks _ _ Hr) as Eb. pose proof (RT_ALIGN_spec b) as [Ha _].
  split; [split; rewrite Eb; [done|by cbn]|]. split; [|lia]. unfold lowest. rewrite Eb, Hl. cbn. lia.
Qed.

End SmallHeap.

(** ** A run *)

Lemma nop_quiet `{CO : ConfigOk} {HP : Heap} {HO : HeapOk HP} (k : kstate) :
  kwf k -> sc_current (k_sched k) <> RT_NULL -> quiet k k.
Proof. intros Hk Hc. by split. Qed.

#[local] Existing Instance default_config.
#[local] Existing Instance default_config_ok.
#[local] Existing Instance small_mem_heap.
#[local] Instance demo_heap_ok : HeapOk small_mem_heap := small_mem_ok 1000 2000.

Definition nop (f par : Z) : K unit := mret tt.

Lemma nop_harmless (f t : Z) (k : kstate) : kwf k -> sc_lock_nest (k_sched k) <> 0 ->
  exists k', nop f t k = Ok tt k' /\ harmless k k'.
Proof. intros Hk _. exists k. split; [done|by apply harmless_refl]. Qed.

Lemma nop_user_quiet (f par : Z) (k : kstate) : kwf k -> sc_current (k_sched k) <> RT_NULL ->
  exists k', nop f par k = Ok tt k' /\ quiet k k'.
Proof. intros Hk Hc. exists k. split; [done|by apply nop_quiet]. Qed.

Lemma nop_keeps (I : kstate -> Prop) f par : keeps I (nop f par).
Proof. apply keeps_ret. Qed.

Abbreviation exec0 := (exec nop nop).
Abbreviation reach0 := (reachable nop nop).

Definition returns {A} (m : K A) (k : kstate) : bool := match m k with Ok _ _ => true | Fault _ => false end.

Lemma reach_after k c : reach0 k -> allowed k c -> returns (exec0 c) k = true -> reach0 (after (exec0 c) k).
Proof.
  intros Hr Ha E. unfold returns in E. destruct (exec0 c k) as [[] k'|] eqn:Ec; [|done].
  rewrite (after_ok _ _ _ _ Ec). by eapply reach_call.
Qed.

Lemma sys_ok0 k : reach0 k -> sys_ok k.
Proof. apply reachable_ok; [apply nop_user_quiet|intros I SI; apply nop_keeps|apply nop_harmless|apply nop_keeps]. Qed.

(** Threads 100 and 200 and semaphore 400, with the heap between 1000 and
    2000, where a thread is created and deleted. *)
Definition sys0 : kstate := after kernel_init (kernel_zero (heap_start 1000 2000)).
Definition sys1 : kstate := after (exec0 (ThreadInit 100 [104; 105] 1 0 5000 512 5 10)) sys0.
Definition sys2 : kstate := after (exec0 (ThreadStartup 100)) sys1.
Definition sys3 : kstate := after (exec0 (ThreadInit 200 [108; 111] 1 0 6000 512 10 10)) sys2.
Definition sys4 : kstate := after (exec0 (ThreadStartup 200)) sys3.
Definition sys5 : kstate := after (exec0 SchedulerStart) sys4.
Definition sys6 : kstate := after (exec0 (SemInit 400 [115] 0 RT_IPC_FLAG_PRIO)) sys5.
Definition sys7 : kstate := after (exec0 (Tick 1)) sys6.
Definition sys8 : kstate := after (exec0 (ThreadCreate [100; 121] 1 0 64 20 10)) sys7.
Definition dyn_thread : Z := 1012.
Definition sys9 : kstate := after (exec0 (ThreadDelete dyn_thread)) sys8.

Lemma demo_place k o : freshb k o = true -> (o <? 1000) = true -> place k o.
Proof. intros Hf Ho. split; [by apply freshb_ok|]. apply Z.ltb_lt in Ho. intros [H _]. lia. Qed.

Lemma sys0_reachable : reach0 sys0.
Proof.
  pose (h := heap_start 1000 2000 : @heap small_mem_heap).
  assert (Hh : heap_ok h) by (apply (heap_start_ok 1000 2000); [reflexivity|reflexivity|vm_compute; discriminate]).
  destruct (boot_run h Hh) as (k & E & _). unfold sys0. fold h. rewrite (after_ok _ _ _ _ E).
  exact (reach_boot nop nop h k Hh E).
Qed.

Lemma sys2_reachable : reach0 sys2.
Proof.
  apply reach_after; [apply reach_after|..]; [exact sys0_reachable| | | |].
  - split; [apply demo_place; by vm_compute|done].
  - by vm_compute.
  - eexists. split; [by vm_compute|by vm_compute].
  - by vm_compute.
Qed.

Lemma sys5_reachable : reach0 sys5.
Proof.
  apply reach_after; [apply reach_after; [apply reach_after|..]|..]; [exact sys2_reachable| | | | | |].
  - split; [apply demo_place; by vm_compute|done].
  - by vm_compute.
  - eexists. split; [by vm_compute|by vm_compute].
  - by vm_compute.
  - split; by vm_compute.
  - by vm_compute.
Qed.

Lemma sys7_reachable : reach0 sys7.
Proof.
  apply reach_after; [apply reach_after|..]; [exact sys5_reachable| | | |].
  - apply demo_place; by vm_compute.
  - by vm_compute.
  - split; [by vm_compute|]. vm_compute. lia.
  - by vm_compute.
Qed.

Lemma sys9_reachable : reach0 sys9.
Proof.
  apply reach_after; [apply reach_after|..]; [exact sys7_reachable| | | |].
  - split; [by vm_compute|done].
  - by vm_compute.
  - eexists _, _. split; [split; [by vm_compute|by vm_compute]|]. split; [by vm_compute|]. split; by vm_compute.
  - by vm_compute.
Qed.

#[global] Opaque sys7 sys9.

