(* ===== verification/LifeThm.v ===== *)
(** * Theorems on the life of objects

    From creation to the return of their memory: threads with the idle thread
    that frees them, message queues, and the types of all objects. *)

From S2P Require Import Prelude Scheduler ReadyBitmap SchedInv SchedSpec Object ObjInv Timer TimerInv Kernel Thread.
From S2P Require Import Ipc MsgQueue Idle KernelInv ThreadInv IpcInv BlockInv ClockInv Boot Demo Mem MemInv MemThm.
From S2P Require Import MqInv MqSpec Keeps Stable Frames Own Dynamic DynPool Lifetime ThreadLife IdleSpec Calls System.

Section Life.
Context `{CO : ConfigOk} {HP : Heap} {HO : HeapOk HP}.

(** ** The idle thread *)

Section Idle.
Variable cleanup : Z -> Z -> K unit.
Hypothesis cleanup_harmless : forall f t (k : kstate), kwf k -> sc_lock_nest (k_sched k) <> 0 ->
  exists k', cleanup f t k = Ok tt k' /\ harmless k k'.


(** A static thread with a cleanup function ends a call of
    [rt_thread_idle_excute] early: it is taken off the list and its cleanup
    function is called, but the terminated threads behind it stay on the list
    for the next call. *)
Theorem idle_stops_at_static (k : kstate) (fuel : nat) (t : Z) (rest : list Z) (ob : rt_object) (Hid : idling k)
    (Hw : waiters k HDefunct = t :: rest) (Ho : os_objs (k_obj k) !! AObj t = Some ob) (Hst : is_static ob = true) :
  exists k', rt_thread_idle_excute cleanup (S fuel) k = Ok tt k' /\ kwf k' /\ mwf k' /\ waiters k' HDefunct = rest /\
    live k' = live k.
Proof.
  destruct (idle_collect_run cleanup cleanup_harmless k t rest ob Hid Hw Ho) as (k' & E & [Hk' Hm' _ _ _] & Hw' & Hke & _).
  rewrite Hst in E. exists k'. split; [|split; [done|split; [done|split; [done|apply Hke]]]].
  cbn [rt_thread_idle_excute]. rewrite (bind_ok _ _ _ _ _ (more_run k (id_kwf _ Hid))), Hw.
  rewrite bool_decide_false by done. cbn [negb]. by rewrite (bind_ok _ _ _ _ _ E).
Qed.

(** ** Creating and deleting a thread *)

Lemma owned_apart k p ob b : mwf k -> dynamic k p ob -> owns k p b -> p <> b.
Proof. intros Hm Hd Ho ->. apply (vacant_free k b ob); [apply (mw_owns _ Hm b b Ho)|done]. Qed.

(** No mutex has a new thread as its owner. *)
Lemma created_no_mutex k t stack k1 : kwf k -> mwf k -> created k RT_Object_Class_Thread t {[stack]} k1 ->
  k_ipc k1 = k_ipc k -> threads k1 !! t <> None -> th_stack_addr <$> threads k1 !! t = Some stack -> no_mutex k1 t.
Proof.
  intros Hk Hm [C1 C2 C3 (ob & Hdy & Hc) [C5 _] C6 C7] Ei Hn Hst o x (ob' & Ho & Hc') Hx Hv Hown.
  destruct (mw_dynamic _ C2 t ob Hdy) as [Hlt _].
  assert (Hnew : threads k !! t = None).
  { apply (mw_vacant _ Hm); [|done]. by apply (heap_live_area _ _ (kw_heap _ C1)). }
  assert (Hvs : vacant k1 stack).
  { apply (mw_owns _ C2 t). exists ob. split; [done|]. rewrite Hc. by unfold buffer_at. }
  assert (Hot : o <> t) by (intros ->; rewrite (proj1 Hdy) in Ho; simplify_eq; by rewrite Hc in Hc').
  assert (Hos : o <> stack) by (intros ->; by rewrite (va_obj _ _ Hvs) in Ho).
  rewrite (sx_obj _ _ _ (C7 o ltac:(set_solver))) in Ho. rewrite Ei in Hx.
  destruct (io_mutex _ (kw_ipc _ Hk) o (ex_intro _ ob' (conj Ho Hc'))) as (_ & x' & Hx' & Hmx & _). simplify_eq.
  destruct (mx_owner _ _ Hmx Hv) as [[[? Hth] _] _]. congruence.
Qed.

(** A new thread that is deleted goes to the list of terminated threads. *)
Lemma new_thread_deleted k t th stack k1 : idling k -> waiters k HDefunct = [] ->
  created k RT_Object_Class_Thread t {[stack]} k1 -> k_sched k1 = put_thread t th (k_sched k) -> k_ipc k1 = k_ipc k ->
  stat_of th = RT_THREAD_INIT -> th_stack_addr th = stack ->
  exists k2, rt_thread_delete t k1 = Ok RT_EOK k2 /\ idling k2 /\ waiters k2 HDefunct = [t] /\ freeable k2 t /\
    live k2 = live k1 /\ thread_memory k2 [t] = {[t]} ∪ {[stack]}.
Proof.
  intros [Hk Hm Hi Hl Hr] Hd Hcr Es Ei Hst Hss. pose proof Hcr as [C1 C2 C3 (ob & Hdy & Hc) [C5 _] C6 C7].
  assert (Ht : threads k1 !! t = Some th) by (unfold threads; rewrite Es; apply lookup_insert_eq).
  assert (Hs : stat_of th <> RT_THREAD_CLOSE) by by rewrite Hst.
  assert (Hnm : no_mutex k1 t).
  { apply (created_no_mutex k t stack k1); try done; rewrite Ht; [done|]. cbn. by rewrite Hss. }
  destruct (thread_delete_run k1 t th ob C1 C2 Ht Hs (proj1 Hdy) Hdy) as (kc & Hcl & E & Hk2 & Hm2).
  exists (to_defunct t kc). split; [done|]. pose proof Hcl as [_ L2 _ L4 _ L6 _ _ _ _ L11 L12 (F1 & F2 & F3) L14].
  split; [|split; [|split; [|split]]].
  - split; [done|done| | |].
    + unfold irq0. cbn. rewrite F3. exact C3.
    + cbn. rewrite F2. cbn. by rewrite Es.
    + destruct Hr as (thc & Hrc & Hrs). exists thc. split; [|done].
      change (threads kc !! sc_current (k_sched kc) = Some thc). rewrite L14, L2, Es. cbn.
      assert (t <> sc_current (k_sched k)).
      { intros ->. assert (threads k !! sc_current (k_sched k) = None); [|congruence].
        apply (mw_vacant _ Hm); [|done]. apply (heap_live_area _ _ (kw_heap _ C1)), (mw_dynamic _ C2 _ ob Hdy). }
      rewrite lookup_insert_ne by done. unfold threads. rewrite Es. cbn. by rewrite lookup_insert_ne.
  - unfold waiters. cbn [k_sched to_defunct k_link put_sched]. rewrite lget_put, decide_True by done. f_equal.
    change (waiters kc HDefunct = []). rewrite L4. unfold waiters. rewrite Es.
    change (unlink t (waiters k HDefunct) = []). by rewrite Hd.
  - split.
    + exists ob. split; [|split; [apply Hdy|]].
      * change (os_objs (k_obj kc) !! AObj t = Some ob). rewrite L6 by done. apply Hdy.
      * change (object_linked (AObj t) (k_obj kc) = true). rewrite (cl_linked _ _ _ _ Hcl) by done. apply Hdy.
    + intros o x (ob' & Ho & Hc') Hx. change (ip_mutex (k_ipc kc) !! o = Some x) in Hx. rewrite L11 in Hx.
      change (os_objs (k_obj kc) !! AObj o = Some ob') in Ho. rewrite L6 in Ho by done.
      apply (Hnm o x); [by exists ob'|done].
  - unfold live. cbn. by rewrite L12.
  - unfold thread_memory, stack_of. cbn.
    change (sc_threads (k_sched kc) !! t) with (threads kc !! t). rewrite (end_thread k1 t th kc Hcl). cbn. rewrite Hss. set_solver.
Qed.

(** C21: A thread that is created, deleted and collected by the idle thread leaves
    the heap as it was: [rt_thread_create] either returns [RT_NULL] with no
    memory taken, or a new thread of two allocations, its structure and its
    stack; [rt_thread_delete] only queues it, and one call of
    [rt_thread_idle_excute] then gives back exactly those two allocations. *)
Theorem thread_memory_roundtrip (k : kstate) (name : list Z) (entry par size prio tick : Z) (fuel : nat)
    (Hid : idling k) (Hd : waiters k HDefunct = []) (Hpr : 0 <= prio < RT_THREAD_PRIORITY_MAX) :
  exists t k1, rt_thread_create name entry par size prio tick k = Ok t k1 /\
    (t = RT_NULL /\ live k1 = live k \/
     exists stack k2 k3, live k1 = {[t]} ∪ {[stack]} ∪ live k /\ t <> stack /\ (t ∉ live k) /\ (stack ∉ live k) /\
       rt_thread_delete t k1 = Ok RT_EOK k2 /\ live k2 = live k1 /\ waiters k2 HDefunct = [t] /\
       rt_thread_idle_excute cleanup (S (S fuel)) k2 = Ok tt k3 /\ waiters k3 HDefunct = [] /\ live k3 = live k /\
       kwf k3 /\ mwf k3 /\ vacant k3 t /\ vacant k3 stack).
Proof.
  destruct (thread_create_run k name entry par size prio tick (id_kwf _ Hid) (id_mwf _ Hid) (id_irq _ Hid) Hpr)
    as (t & k1 & E & Hcr & Hnew).
  exists t, k1. split; [done|]. destruct (decide (t = RT_NULL)) as [->|Hn].
  { left. split; [done|]. destruct Hcr as [[_ Hnc]|[bs Hcr]]; [apply Hnc|by destruct (cr_new _ _ _ _ _ Hcr)]. }
  right. destruct (Hnew Hn) as (th & stack & Hc & Hs & Es & Ei & Hth).
  destruct (new_thread_deleted k t th stack k1) as (k2 & E2 & Hid2 & Hw2 & Hf2 & Hl2 & Hm2); try done;
    [by unfold stat_of; rewrite (proj1 (proj2 (proj2 (proj2 (proj2 (proj2 (proj2 (proj2 (proj2 (proj2 Hth))))))))))|apply Hth|].
  assert (Hfr : forall x, x ∈ waiters k2 HDefunct -> freeable k2 x).
  { intros x. rewrite Hw2. intros ->%list_elem_of_singleton. done. }
  destruct (idle_excute_run cleanup cleanup_harmless _ (S (S fuel)) k2 Hid2 Hw2) as (k3 & E3 & Hid3 & Hw3 & Hl3 & _ & Hv3);
    [by rewrite <- Hw2|cbn; lia|].
  rewrite Hm2 in Hl3, Hv3. pose proof (cr_new _ _ _ _ _ Hc) as [Htl _]. pose proof (cr_live _ _ _ _ _ Hc) as Hl1.
  exists stack, k2, k3. split; [done|]. split; [|split; [done|split; [done|split; [done|split; [done|split; [done|]]]]]].
  - destruct (cr_dynamic _ _ _ _ _ Hc) as (ob & Hdy & Hcl). apply (owned_apart k1 t ob); [apply Hc|done|]. exists ob.
    split; [done|]. rewrite Hcl. unfold buffer_at, threads. rewrite Es. cbn. rewrite lookup_insert_eq. cbn. f_equal. apply Hth.
  - split; [done|]. split; [done|]. split; [rewrite Hl3, Hl2, Hl1; set_solver|].
    split; [apply Hid3|]. split; [apply Hid3|]. split; apply Hv3; set_solver.
Qed.

End Idle.

(** ** The end of the running thread *)

Lemma first_ready_ext s s' : (forall p, rdy s' p = rdy s p) -> forall n p, first_ready n p s' = first_ready n p s.
Proof. intros H n. induction n as [|n IH]; intros p; cbn; [done|]. by rewrite H, IH. Qed.

(** The lists after a thread has ended. *)
Lemma exit_lists k t th ob k1 h : closed t th k k1 ->
  waiters (exit_state t th ob k1) h = (if decide (h = HDefunct) then
    (if is_static ob && (th_cleanup th =? RT_NULL) then [] else [t]) else []) ++ unlink t (waiters k h).
Proof.
  intros Hc. unfold exit_state. rewrite <- (cl_waiters _ _ _ _ Hc h).
  destruct (is_static ob && _); [by case_decide|]. unfold waiters. cbn [k_sched to_defunct k_link put_sched].
  rewrite lget_put. by repeat case_decide; subst.
Qed.

Lemma exit_queued k t th ob k1 : closed t th k k1 ->
  t ∈ waiters (exit_state t th ob k1) HDefunct <-> is_static ob = false \/ th_cleanup th <> RT_NULL.
Proof.
  intros Hc. rewrite (exit_lists k) by done. rewrite decide_True by done. rewrite elem_of_app, elem_of_unlink.
  destruct (is_static ob), (Z.eqb_spec (th_cleanup th) RT_NULL); cbn; rewrite ?list_elem_of_singleton; set_solver.
Qed.

Lemma exit_same t th ob k1 :
  let k2 := exit_state t th ob k1 in
  threads k2 = threads k1 /\ k_heap k2 = k_heap k1 /\ k_ts k2 = k_ts k1 /\
  object_linked (ATimer t) (k_obj k2) = object_linked (ATimer t) (k_obj k1) /\
  sc_lock_nest (k_sched k2) = sc_lock_nest (k_sched k1) /\ sc_current (k_sched k2) = sc_current (k_sched k1).
Proof.
  unfold exit_state. destruct (is_static ob && _); [|done]. repeat (split; [done|]). split; [|done].
  unfold k_detach. cbn [put_obj k_obj]. by rewrite linked_remove.
Qed.

(** C22: [rt_thread_exit] ends the running thread for good: it is closed, its timer
    is stopped and off the object list, it is in no ready and in no wait list,
    and it is queued for the idle thread exactly if it is dynamic or has a
    cleanup function.  Unless the scheduler is locked, the first thread of the
    highest ready priority runs next. *)
Theorem thread_exit_correct (k : kstate) (t : Z) (th : rt_thread) (ob : rt_object) (Hk : kwf k) (Hm : mwf k)
    (Hb : can_block k t th) (Ho : os_objs (k_obj k) !! AObj t = Some ob)
    (Hl : object_linked (AObj t) (k_obj k) = true) :
  exists k', rt_thread_exit k = Ok tt k' /\ kwf k' /\ mwf k' /\ live k' = live k /\
    stat_of <$> threads k' !! t = Some RT_THREAD_CLOSE /\ (ATimer t ∉ running k') /\
    object_linked (ATimer t) (k_obj k') = false /\
    (forall h, t ∈ waiters k' h <-> h = HDefunct /\ (is_static ob = false \/ th_cleanup th <> RT_NULL)) /\
    (forall t' p, sc_lock_nest (k_sched k) = 0 -> top_ready (k_sched k) = Some (t', p) -> sc_current (k_sched k') = t').
Proof.
  destruct Hb as [Ht Hcur Hr Hirq]. assert (Hs : stat_of th <> RT_THREAD_CLOSE) by by rewrite Hr.
  assert (Hd : is_static ob = true \/ dynamic k t ob) by (destruct (is_static ob) eqn:?; [by left|by right]).
  destruct (thread_exit_run k t th ob Hk Hm Ht Hs Ho Hcur Hr Hd Hl) as (k1 & s' & Hc & E & Hres & Hk2 & Hk' & Hm').
  pose proof (resched_defunct _ s' Hk2 Hres) as Hdf. destruct (exit_same t th ob k1) as (X1 & X2 & X3 & X4 & X5 & X6).
  set (k2 := exit_state t th ob k1) in *. destruct Hres as [(F1 & F2 & F3) [_ Hsch]].
  assert (Et : threads (put_sched s' k2) !! t = Some (force_stat RT_THREAD_CLOSE th)).
  { rewrite <- (end_thread k t th k1 Hc), <- X1. unfold threads. cbn. by rewrite F1. }
  exists (put_sched s' k2). split; [done|]. split; [done|]. split; [done|]. split.
  { unfold live. cbn. by rewrite X2, (cl_heap _ _ _ _ Hc). }
  split; [rewrite Et; cbn; f_equal; apply close_stat|]. split; [unfold running; cbn; rewrite X3; apply Hc|].
  split; [cbn; rewrite X4; apply Hc|]. split.
  - intros h. split.
    + intros Hin. assert (h = HDefunct) as ->.
      { pose proof (sw_stat _ _ (kw_sched _ Hk') h t _ Hin Et ltac:(set_solver)) as Hh. rewrite close_stat in Hh. by destruct h. }
      split; [done|]. rewrite Hdf in Hin. by apply (exit_queued k) in Hin.
    + intros [-> Hor]. rewrite Hdf. by apply (exit_queued k).
  - intros t' p Hlk Htop.
    assert (Hlk2 : sc_lock_nest (k_sched k2) = 0) by by rewrite X5, (proj1 (proj2 (cl_frame _ _ _ _ Hc))).
    apply Hsch, (f_equal fst) in Hlk2. cbn in Hlk2 |- *. rewrite Hlk2. unfold abs_schedule.
    assert (Htop2 : top_ready (k_sched k2) = Some (t', p)).
    { rewrite <- Htop. apply first_ready_ext. intros q. change (waiters k2 (HReady q) = waiters k (HReady q)).
      unfold k2. rewrite (exit_lists k) by done. apply unlink_notin. intros Hin.
      by apply (sw_running _ _ (kw_sched _ Hk) q t Hin ltac:(set_solver)). }
    rewrite Htop2, X6, (cl_current _ _ _ _ Hc), <- Hcur. change (sc_threads (k_sched k2)) with (threads k2).
    by rewrite X1, (end_thread k t th k1 Hc), close_stat.
Qed.

(** ** Message queues *)

(** C24: [rt_mq_create] is all or nothing: without memory for the queue and for its
    pool it returns [RT_NULL] and has taken nothing; else it returns an empty
    queue of [max_msgs] slots, whose two allocations [rt_mq_delete] gives back,
    with nothing left in the kernel at their addresses. *)
Theorem mq_create_correct (k : kstate) (name : list Z) (msg_size max_msgs flag : Z)
    (Hk : kwf k) (Hm : mwf k) (Hi : irq0 k) :
  exists q k1, rt_mq_create name msg_size max_msgs flag k = Ok q k1 /\ kwf k1 /\ mwf k1 /\
    (q = RT_NULL /\ live k1 = live k \/
     exists pool k2,
       ip_mq (k_ipc k1) !! q = Some (new_mq flag pool (u16 (RT_ALIGN msg_size RT_ALIGN_SIZE)) (u16 max_msgs)) /\
       live k1 = {[q]} ∪ {[pool]} ∪ live k /\ frame_but ({[q]} ∪ {[pool]}) k k1 /\
       rt_mq_delete q k1 = Ok RT_EOK k2 /\ live k2 = live k /\ kwf k2 /\ mwf k2 /\ vacant k2 q).
Proof.
  destruct (mq_create_run k name msg_size max_msgs flag Hk Hm Hi) as (q & k1 & E & Hcr & Hnew). exists q, k1.
  split; [done|]. destruct (decide (q = RT_NULL)) as [->|Hn].
  { destruct Hcr as [[_ []]|[bs Hcr]]; [by auto|by destruct (cr_new _ _ _ _ _ Hcr)]. }
  destruct (Hnew Hn) as (pool & [C1 C2 C3 (ob & Hdy & Hc) [C5 _] C6 C7] & Hp & Hx). split; [done|]. split; [done|].
  right. destruct (mq_delete_run k1 q ob C1 C2 C3 Hdy Hc) as (b & k2 & E2 & [D1 D2 D3 D4 D5 D6] & ob' & Hdy' & Hb).
  assert (b = pool) as ->.
  { destruct Hdy as [Ho _], Hdy' as [Ho' _]. simplify_eq. rewrite Hc in Hb. unfold buffer_at in Hb. cbn in Hb.
    rewrite Hx in Hb. cbn in Hb. injection Hb as <-. unfold new_mq. by rewrite thread_slots_pool. }
  exists pool, k2. do 4 (split; [done|]). split; [rewrite D5, C6; set_solver|done].
Qed.

(** ** Cleanup functions *)

(** The application sets the cleanup function of a thread. *)
Definition set_cleanup (f t : Z) (k : kstate) : kstate :=
  match threads k !! t with
  | Some th => k_put t {| th with th_cleanup := f |} k
  | None => k
  end.

Lemma set_cleanup_ok f t k : kwf k -> mwf k -> kwf (set_cleanup f t k) /\ mwf (set_cleanup f t k).
Proof.
  intros Hk Hm. unfold set_cleanup. destruct (threads k !! t) as [th|] eqn:Ht; [|done].
  split; [by apply (kwf_put_same k t th)|]. apply (mwf_frame k); [done| |done]. intros p _. apply same_at_sched; [apply same_at_refl|].
  split; [|done|done]. intros x. cbn. destruct (decide (x = t)) as [->|Hx]; [|by rewrite lookup_insert_ne].
  rewrite lookup_insert_eq. unfold threads in Ht. by rewrite Ht.
Qed.

(** ** Types *)

(** The structure that belongs to an object of an IPC class. *)
Definition has_record (k : kstate) (c o : Z) : Prop :=
  (c = RT_Object_Class_Semaphore -> is_Some (ip_sem (k_ipc k) !! o)) /\
  (c = RT_Object_Class_Mutex -> is_Some (ip_mutex (k_ipc k) !! o)) /\
  (c = RT_Object_Class_Event -> is_Some (ip_event (k_ipc k) !! o)) /\
  (c = RT_Object_Class_MailBox -> is_Some (ip_mb (k_ipc k) !! o)) /\
  (c = RT_Object_Class_MessageQueue -> is_Some (ip_mq (k_ipc k) !! o)).

Lemma typed_record k c o : kwf k -> has_type k (AObj o) c -> has_record k c o.
Proof.
  intros Hk Ho. pose proof (kw_ipc _ Hk) as [I1 I2 I3 I4 I5]. repeat split; intros ->.
  - destruct (I1 o Ho) as (_ & x & ? & _). by exists x.
  - destruct (I2 o Ho) as (_ & x & ? & _). by exists x.
  - destruct (I3 o Ho) as (_ & x & ?). by exists x.
  - destruct (I4 o Ho) as (_ & _ & x & ? & _). by exists x.
  - destruct (I5 o Ho) as (_ & x & ? & _). by exists x.
Qed.

Lemma listed_thread k h t : kwf k -> t ∈ waiters k h -> is_Some (threads k !! t) /\ has_type k (AObj t) RT_Object_Class_Thread.
Proof.
  intros Hk Hin. pose proof (kw_sched _ Hk) as Hw. destruct (sw_member _ _ Hw h t Hin) as [th Ht]. split; [by exists th|].
  destruct (decide (h = HDefunct)) as [->|Hh]; [by apply (kw_defunct _ Hk)|].
  apply (kw_live _ Hk t th Ht). rewrite (sw_stat _ _ Hw h t th Hin Ht) by set_solver. by destruct h.
Qed.

Lemma running_timer k a : kwf k -> a ∈ running k -> is_Some (timers k !! a) /\ has_type k a RT_Object_Class_Timer.
Proof.
  intros Hk Hin. split; [by apply (tw_mem _ (kw_ts _ Hk))|]. destruct a as [p|t]; [by apply (kw_utimer _ Hk)|].
  destruct (kw_ttimer _ Hk t Hin) as (th & _ & Ht & Hs & _). apply (kw_live _ Hk t th Ht). by rewrite Hs.
Qed.

Section Types.
Variables (user_timeout : Z -> Z -> K unit) (cleanup : Z -> Z -> K unit).
Hypothesis user_quiet : forall f par k, kwf k -> sc_current (k_sched k) <> RT_NULL ->
  exists k', user_timeout f par k = Ok tt k' /\ quiet k k'.
Hypothesis user_keeps : forall (I : kstate -> Prop), StableTick I -> forall f par, keeps I (user_timeout f par).
Hypothesis cleanup_harmless : forall f t (k : kstate), kwf k -> sc_lock_nest (k_sched k) <> 0 ->
  exists k', cleanup f t k = Ok tt k' /\ harmless k k'.
Hypothesis cleanup_run : forall f t, keeps run_k (cleanup f t).

End Types.

End Life.

(** ** Idle hooks *)

Lemma slot_undo (h : Z) (l l' : list Z) : h ∉ l -> slot_replace RT_NULL h l = Some l' -> slot_replace h RT_NULL l' = Some l.
Proof.
  revert l'. induction l as [|x l IH]; intros l' Hn E; cbn in E; [done|]. apply not_elem_of_cons in Hn as [Hx Hn].
  destruct (Z.eqb_spec x RT_NULL) as [->|Hx0]; simplify_eq; [cbn; by rewrite Z.eqb_refl|].
  destruct (slot_replace RT_NULL h l) as [l1|] eqn:E1; [|done]. cbn in E. simplify_eq. cbn.
  rewrite (proj2 (Z.eqb_neq x h)) by done. by rewrite (IH l1).
Qed.

Lemma slot_free (old new : Z) (l : list Z) : slot_replace old new l = None <-> old ∉ l.
Proof.
  induction l as [|x l IH]; cbn; [set_solver|]. destruct (Z.eqb_spec x old) as [->|Hx]; [set_solver|].
  destruct (slot_replace old new l); cbn; set_solver.
Qed.

Lemma slot_put (old new : Z) (l l' : list Z) : slot_replace old new l = Some l' -> length l' = length l /\ new ∈ l'.
Proof.
  revert l'. induction l as [|x l IH]; intros l' E; cbn in E; [done|].
  destruct (Z.eqb_spec x old) as [->|Hx]; simplify_eq; [split; [done|set_solver]|].
  destruct (slot_replace old new l) as [l1|] eqn:E1; [|done]. cbn in E. simplify_eq. destruct (IH l1 eq_refl) as [Hl ?].
  split; [cbn; by rewrite Hl|set_solver].
Qed.

(** A hook that [rt_thread_idle_sethook] has stored is removed again by
    [rt_thread_idle_delhook], which leaves the table as it was; the first
    fails exactly if the table has no free slot. *)
Theorem idle_hook_roundtrip (hook : Z) (l : list Z) (Hn : hook ∉ l) :
  (RT_NULL ∈ l -> exists l', rt_thread_idle_sethook hook l = (RT_EOK, l') /\ length l' = length l /\ hook ∈ l' /\
     rt_thread_idle_delhook hook l' = (RT_EOK, l)) /\
  (RT_NULL ∉ l -> rt_thread_idle_sethook hook l = (- RT_EFULL, l)) /\
  rt_thread_idle_delhook hook l = (- RT_ENOSYS, l).
Proof.
  unfold rt_thread_idle_sethook, rt_thread_idle_delhook. split; [|split].
  - intros Hin. destruct (slot_replace RT_NULL hook l) as [l'|] eqn:E; [|by apply slot_free in E].
    exists l'. rewrite (slot_undo hook l l' Hn E). split; [done|]. destruct (slot_put _ _ _ _ E). done.
  - intros Hin. by rewrite (proj2 (slot_free RT_NULL hook l) Hin).
  - by rewrite (proj2 (slot_free hook RT_NULL l) Hn).
Qed.

(** ** Witnesses *)

#[local] Existing Instance default_config.
#[local] Existing Instance default_config_ok.
#[local] Existing Instance small_mem_heap.
#[local] Existing Instance demo_heap_ok.

Lemma sys7_idling : idling sys7.
Proof.
  destruct (sys_ok0 sys7 sys7_reachable) as [Hk _ Hm]. split; [done|done|by vm_compute|by vm_compute|].
  eexists. split; by vm_compute.
Qed.
Lemma sys9_idling : idling sys9.
Proof.
  destruct (sys_ok0 sys9 sys9_reachable) as [Hk _ Hm]. split; [done|done|by vm_compute|by vm_compute|].
  eexists. split; by vm_compute.
Qed.


Lemma thread_memory_roundtrip_witness :
  exists t k1, rt_thread_create [100; 121] 1 0 64 20 10 sys7 = Ok t k1 /\ t <> RT_NULL /\
    exists k2 k3, rt_thread_delete t k1 = Ok RT_EOK k2 /\ rt_thread_idle_excute nop 2 k2 = Ok tt k3 /\ live k3 = live sys7.
Proof.
  destruct (thread_memory_roundtrip nop nop_harmless sys7 [100; 121] 1 0 64 20 10 0) as (t & k1 & E & H);
    [exact sys7_idling|by vm_compute|by split; vm_compute|].
  exists t, k1. split; [exact E|].
  assert (Ht : match rt_thread_create [100; 121] 1 0 64 20 10 sys7 with Ok t _ => negb (t =? RT_NULL) | _ => false end = true)
    by by vm_compute.
  rewrite E in Ht. apply negb_true_iff, Z.eqb_neq in Ht. split; [exact Ht|].
  destruct H as [[H _]|(stack & k2 & k3 & _ & _ & _ & _ & E2 & _ & _ & E3 & _ & Hl & _)]; [destruct (Ht H)|].
  exists k2, k3. split; [exact E2|]. split; [exact E3|exact Hl].
Defined.

Lemma thread_exit_correct_witness : exists k', rt_thread_exit sys7 = Ok tt k' /\ sc_current (k_sched k') = 200.
Proof.
  destruct sys7_idling as [Hk Hm _ _ _].
  edestruct (thread_exit_correct sys7 100) as (k' & E & _ & _ & _ & _ & _ & _ & _ & Hnext); [exact Hk|exact Hm| | | |].
  - split; by vm_compute.
  - by vm_compute.
  - by vm_compute.
  - exists k'. split; [exact E|]. apply (Hnext 200 10); by vm_compute.
Defined.

Lemma mq_create_correct_witness : exists q k1 k2, rt_mq_create [113] 8 4 RT_IPC_FLAG_FIFO sys7 = Ok q k1 /\
  rt_mq_delete q k1 = Ok RT_EOK k2 /\ live k2 = live sys7.
Proof.
  destruct sys7_idling as [Hk Hm Hi _ _].
  destruct (mq_create_correct sys7 [113] 8 4 RT_IPC_FLAG_FIFO Hk Hm Hi) as (q & k1 & E & _ & _ & H).
  assert (Hq : match rt_mq_create [113] 8 4 RT_IPC_FLAG_FIFO sys7 with Ok q _ => negb (q =? RT_NULL) | _ => false end = true)
    by by vm_compute.
  rewrite E in Hq. apply negb_true_iff, Z.eqb_neq in Hq.
  destruct H as [[H _]|(pool & k2 & _ & _ & _ & E2 & Hl & _)]; [destruct (Hq H)|].
  exists q, k1, k2. split; [exact E|]. split; [exact E2|exact Hl].
Defined.


Lemma idle_hook_roundtrip_witness :
  exists l', rt_thread_idle_sethook 7 idle_hook_list = (RT_EOK, l') /\ rt_thread_idle_delhook 7 l' = (RT_EOK, idle_hook_list).
Proof.
  destruct (idle_hook_roundtrip 7 idle_hook_list) as [H _].
  - assert (bool_decide (7 ∈ idle_hook_list) = false) as Hn by by vm_compute. by apply bool_decide_eq_false in Hn.
  - destruct H as (l' & E & _ & _ & E'); [|by exists l']. apply (bool_decide_eq_true (RT_NULL ∈ idle_hook_list)). by vm_compute.
Defined.

(** Thread 100 has a cleanup function and ends. *)
Definition exited : kstate := after rt_thread_exit (set_cleanup 7 100 sys7).

Lemma exited_idling : idling exited.
Proof.
  destruct sys7_idling as [Hk Hm _ _ _]. destruct (set_cleanup_ok 7 100 sys7 Hk Hm) as [Hk1 Hm1].
  edestruct (thread_exit_run (set_cleanup 7 100 sys7) 100) as (k1 & s' & _ & E & _ & _ & Hk' & Hm');
    [exact Hk1|exact Hm1|by vm_compute|by vm_compute|by vm_compute|by vm_compute|by vm_compute|left; by vm_compute|by vm_compute|].
  pose proof (after_ok _ _ _ _ E) as Ex. fold exited in Ex.
  split; [rewrite Ex; exact Hk'|rewrite Ex; exact Hm'|by vm_compute|by vm_compute|]. eexists. split; by vm_compute.
Qed.

Lemma idle_stops_at_static_witness : exists k', rt_thread_idle_excute nop 1 exited = Ok tt k' /\ live k' = live exited.
Proof.
  edestruct (idle_stops_at_static nop nop_harmless exited 0 100 []) as (k' & E & _ & _ & _ & Hl);
    [exact exited_idling|by vm_compute|by vm_compute|by vm_compute|].
  exists k'. split; [exact E|exact Hl].
Defined.

(** [rt_thread_detach] on a static thread with a cleanup function: the header
    has lost its static mark when the idle thread looks at it, so the idle
    thread goes on to free the memory of the static thread. *)
Definition detached_cleanup : kstate := after (rt_thread_detach 200) (set_cleanup 7 200 sys7).

Example detach_cleanup_freed :
  has_static sys7 (AObj 200) true /\ returns (rt_thread_detach 200) (set_cleanup 7 200 sys7) = true /\
  match idle_collect nop detached_cleanup with
  | Ok (Some t) k' => (t =? 200) && negb (returns (idle_free t) k')
  | _ => false
  end = true.
Proof.
  split; [eexists; split; by vm_compute|]. split; by vm_compute.
Qed.
