(* ===== verification/FinshVm.v ===== *)
(** * The virtual machine of the shell
      (components/finsh/finsh_vm.c, finsh_ops.c, finsh_ops.h)

    A stack machine with byte code.  A slot of the stack is the union
    [finsh_value]: 32 bits, of which an operation on bytes or words reads and
    writes the low 8 or 16 only.  The memory is a map from addresses to bytes;
    the functions the byte code calls are a parameter.  The target is a 32-bit
    little-endian machine; signed arithmetic wraps around, a division by zero, a
    quotient out of range or a shift by 32 bits and more is a fault. *)

From S2P Require Import Prelude KString.

Definition FINSH_STACK_MAX : Z := 64.
Definition FINSH_TEXT_MAX : Z := 128.

(** ** Op codes *)

Inductive width := WByte | WWord | WDword.
#[global] Instance width_eq_dec : EqDecision width.
Proof. solve_decision. Defined.

Definition by_width (w : width) (byte word dword : Z) : Z :=
  match w with WByte => byte | WWord => word | WDword => dword end.

Inductive binop := BAdd | BSub | BDiv | BMod | BMul | BAnd | BOr | BXor | BShl | BShr.
#[global] Instance binop_eq_dec : EqDecision binop.
Proof. solve_decision. Defined.

Definition FINSH_OP_ADD (w : width) : Z := by_width w 0x01 0x02 0x03.
Definition FINSH_OP_SUB (w : width) : Z := by_width w 0x04 0x05 0x06.
Definition FINSH_OP_DIV (w : width) : Z := by_width w 0x07 0x08 0x09.
Definition FINSH_OP_MOD (w : width) : Z := by_width w 0x0A 0x0B 0x0C.
Definition FINSH_OP_MUL (w : width) : Z := by_width w 0x0D 0x0E 0x0F.
Definition FINSH_OP_AND (w : width) : Z := by_width w 0x10 0x11 0x12.
Definition FINSH_OP_OR (w : width) : Z := by_width w 0x13 0x14 0x15.
Definition FINSH_OP_XOR (w : width) : Z := by_width w 0x16 0x17 0x18.
Definition FINSH_OP_BITWISE (w : width) : Z := by_width w 0x19 0x1A 0x1B.
Definition FINSH_OP_SHL (w : width) : Z := by_width w 0x1C 0x1D 0x1E.
Definition FINSH_OP_SHR (w : width) : Z := by_width w 0x1F 0x20 0x21.
Definition FINSH_OP_LD (w : width) : Z := by_width w 0x22 0x23 0x24.
Definition FINSH_OP_LD_VALUE (w : width) : Z := by_width w 0x25 0x26 0x27.
Definition FINSH_OP_ST (w : width) : Z := by_width w 0x28 0x29 0x2A.
Definition FINSH_OP_POP : Z := 0x2B.
Definition FINSH_OP_SYSCALL : Z := 0x2C.
Definition FINSH_OP_LD_VALUE_STACK (w : width) : Z := by_width w 0x2D 0x2E 0x2F.

(** ** Values and memory *)

Definition width_bits (w : width) : Z := by_width w 8 16 32.
Definition width_bytes (w : width) : nat := match w with WByte => 1 | WWord => 2 | WDword => 4 end.

(** [char_value], [short_value] and [long_value] of a slot. *)
Definition slot_get {CS : CharSign} (w : width) (s : Z) : Z :=
  match w with
  | WByte => if char_signed then i8 s else u8 s
  | WWord => i16 s
  | WDword => i32 s
  end.
Definition slot_put (w : width) (v s : Z) : Z :=
  s - s mod 2 ^ width_bits w + v mod 2 ^ width_bits w.

(** Operators of C on [int]; [None] is undefined. *)
Definition c_div_ok (a b : Z) : bool := negb (b =? 0) && negb ((a =? - 2 ^ 31) && (b =? -1)).
Definition c_binop (o : binop) (a b : Z) : option Z :=
  match o with
  | BAdd => Some (i32 (a + b))
  | BSub => Some (i32 (a - b))
  | BMul => Some (i32 (a * b))
  | BDiv => if c_div_ok a b then Some (Z.quot a b) else None
  | BMod => if c_div_ok a b then Some (Z.rem a b) else None
  | BAnd => Some (Z.land a b)
  | BOr => Some (Z.lor a b)
  | BXor => Some (Z.lxor a b)
  | BShl => if (0 <=? b) && (b <? 32) then Some (i32 (Z.shiftl a b)) else None
  | BShr => if (0 <=? b) && (b <? 32) then Some (Z.shiftr a b) else None
  end.

Abbreviation fmem := bmem.

(** ** The machine *)

Record fvm := mk_vm {
  vm_stack : list Z;   (* finsh_vm_stack, slots as unsigned 32-bit numbers *)
  vm_sp : Z;           (* finsh_sp, as an index *)
  vm_pc : Z;           (* finsh_pc, as an index *)
  vm_text : list Z;    (* text_segment *)
  vm_mem : fmem
}.

Abbreviation V := (M fvm).

Definition set_sp (n : Z) : V unit :=
  modify (fun s => {| s with vm_sp := n |}).
Definition set_pc (n : Z) : V unit :=
  modify (fun s => {| s with vm_pc := n |}).

(** Access to the arrays [finsh_vm_stack] and [text_segment]. *)
Definition get_slot (i : Z) : V Z :=
  s ← getS; if i <? 0 then fail BadPtr else of_option BadPtr (vm_stack s !! Z.to_nat i).
Definition put_slot (i v : Z) : V unit :=
  get_slot i;; modify (fun s => {| s with vm_stack := <[Z.to_nat i := v]> (vm_stack s) |}).
Definition get_text (i : Z) : V Z :=
  s ← getS; if i <? 0 then fail BadPtr else of_option BadPtr (vm_text s !! Z.to_nat i).

Definition mem_load (w : width) (a : Z) : V Z :=
  s ← getS; of_option BadPtr (load (width_bytes w) a (vm_mem s)).
Definition mem_store (w : width) (a v : Z) : V unit :=
  s ← getS; m ← of_option BadPtr (store (width_bytes w) a v (vm_mem s)); modify (fun s => {| s with vm_mem := m |}).

(** [FINSH_GET16] and [FINSH_GET32] at the program counter; an operand of a
    byte is one byte. *)
Definition FINSH_GET16 (p : Z) : V Z :=
  b0 ← get_text p; b1 ← get_text (p + 1); mret (Z.lor b0 (Z.shiftl b1 8)).
Definition FINSH_GET32 (p : Z) : V Z :=
  b0 ← get_text p; b1 ← get_text (p + 1); b2 ← get_text (p + 2); b3 ← get_text (p + 3);
  mret (Z.lor (Z.lor (Z.lor b0 (Z.shiftl b1 8)) (Z.shiftl b2 16)) (Z.shiftl b3 24)).

Section Ops.
Context {CS : CharSign}.

(** [call f args m]: the function at address [f]. *)
Variable call : Z -> list Z -> fmem -> option (Z * fmem).

(** ** Operations *)

Definition OP_no_op : V unit := mret tt.

(** [OP_BIN_BYTE], [OP_BIN_WORD] and [OP_BIN_DWORD]. *)
Definition OP_BIN (w : width) (o : binop) : V unit :=
  s ← getS;
  a ← get_slot (vm_sp s - 2);
  b ← get_slot (vm_sp s - 1);
  r ← of_option BadArith (c_binop o (slot_get w a) (slot_get w b));
  put_slot (vm_sp s - 2) (slot_put w r a);;
  set_sp (vm_sp s - 1).

Definition OP_add (w : width) : V unit := OP_BIN w BAdd.
Definition OP_sub (w : width) : V unit := OP_BIN w BSub.
Definition OP_div (w : width) : V unit := OP_BIN w BDiv.
Definition OP_mod (w : width) : V unit := OP_BIN w BMod.
Definition OP_mul (w : width) : V unit := OP_BIN w BMul.
Definition OP_and (w : width) : V unit := OP_BIN w BAnd.
Definition OP_or (w : width) : V unit := OP_BIN w BOr.
Definition OP_xor (w : width) : V unit := OP_BIN w BXor.
Definition OP_shl (w : width) : V unit := OP_BIN w BShl.
Definition OP_shr (w : width) : V unit := OP_BIN w BShr.

Definition OP_bw (w : width) : V unit :=
  s ← getS;
  a ← get_slot (vm_sp s - 1);
  put_slot (vm_sp s - 1) (slot_put w (Z.lnot (slot_get w a)) a).

(** A value on top of the stack. *)
Definition push_value (w : width) (v : Z) : V unit :=
  s ← getS;
  a ← get_slot (vm_sp s);
  put_slot (vm_sp s) (slot_put w v a);;
  set_sp (vm_sp s + 1).

Definition OP_ld_byte : V unit :=
  s ← getS;
  v ← get_text (vm_pc s);
  push_value WByte v;;
  set_pc (vm_pc s + 1).
Definition OP_ld_word : V unit :=
  s ← getS;
  v ← FINSH_GET16 (vm_pc s);
  push_value WWord v;;
  set_pc (vm_pc s + 2).
Definition OP_ld_dword : V unit :=
  s ← getS;
  v ← FINSH_GET32 (vm_pc s);
  push_value WDword v;;
  set_pc (vm_pc s + 4).

Definition OP_ld_value (w : width) : V unit :=
  s ← getS;
  c ← FINSH_GET32 (vm_pc s);
  v ← mem_load w c;
  push_value w v;;
  set_pc (vm_pc s + 4).

(** The pointer in the top slot is replaced by what it points to. *)
Definition OP_ld_value_stack (w : width) : V unit :=
  s ← getS;
  c ← get_slot (vm_sp s - 1);
  v ← mem_load w c;
  put_slot (vm_sp s - 1) (slot_put w v c).

Definition OP_st (w : width) : V unit :=
  s ← getS;
  a ← get_slot (vm_sp s - 2);
  v ← get_slot (vm_sp s - 1);
  mem_store w a (v mod 2 ^ width_bits w);;
  set_sp (vm_sp s - 1).

Definition OP_pop : V unit :=
  s ← getS; set_sp (vm_sp s - 1).

(** The loop of [OP_call] that fills [parameterv] from the last argument on. *)
Fixpoint call_args (n : nat) (args : list Z) : V (list Z) :=
  match n with
  | O => mret args
  | S n =>
      s ← getS;
      v ← get_slot (vm_sp s);
      set_sp (vm_sp s - 1);;
      call_args n (v :: args)
  end.

Definition OP_call : V unit :=
  s ← getS;
  parameters ← get_text (vm_pc s);
  set_pc (vm_pc s + 1);;
  set_sp (vm_sp s - 1);;
  (if 16 <? parameters then fail BadPtr else mret tt);;
  args ← call_args (Z.to_nat parameters) [];
  s ← getS;
  f ← get_slot (vm_sp s);
  rm ← of_option BadPtr (call f (if parameters =? 0 then [0] else args) (vm_mem s));
  modify (fun s => {| s with vm_mem := rm.2 |});;
  put_slot (vm_sp s) (u32 rm.1);;
  set_sp (vm_sp s + 1).

Definition by_widths (f : width -> V unit) : list (V unit) := [f WByte; f WWord; f WDword].

Definition op_table : list (V unit) :=
  OP_no_op :: by_widths OP_add ++ by_widths OP_sub ++ by_widths OP_div ++ by_widths OP_mod ++ by_widths OP_mul ++
  by_widths OP_and ++ by_widths OP_or ++ by_widths OP_xor ++ by_widths OP_bw ++ by_widths OP_shl ++ by_widths OP_shr ++
  [OP_ld_byte; OP_ld_word; OP_ld_dword] ++ by_widths OP_ld_value ++ by_widths OP_st ++ [OP_pop; OP_call] ++
  by_widths OP_ld_value_stack.

(** One turn of the loop of [finsh_vm_run]. *)
Definition vm_step : V unit :=
  s ← getS;
  op ← get_text (vm_pc s);
  set_pc (vm_pc s + 1);;
  f ← of_option BadPtr (op_table !! Z.to_nat op);
  f.

Fixpoint vm_loop (fuel : nat) : V unit :=
  s ← getS;
  if (0 <=? vm_pc s) && (vm_pc s <? FINSH_TEXT_MAX) then
    match fuel with
    | O => fail OutOfFuel
    | S fuel => vm_step;; vm_loop fuel
    end
  else mret tt.

Definition finsh_vm_run : V unit :=
  set_sp 0;; set_pc 0;; vm_loop (Z.to_nat FINSH_TEXT_MAX).

(** [finsh_stack_bottom] *)
Definition finsh_stack_bottom : V Z :=
  v ← get_slot 0; mret (i32 v).

End Ops.
