(* ===== verification/FinshData.v ===== *)
(** * Data of the shell interpreter
      (components/finsh/finsh.h, finsh_var.c, finsh_error.c, finsh_vm.c)

    The state of the interpreter: the machine with its memory, the table of
    syntax nodes, the table of variables, the string heap, the tokenizer, and
    the error number.  Node pointers are indices into the node table; the
    values of variables lie in the memory of the machine, at the addresses the
    byte code uses.  Strings are lists of character codes without the
    terminating zero. *)

From S2P Require Import Prelude FinshVm.

Definition FINSH_NAME_MAX : nat := 16.
Definition FINSH_NODE_MAX : nat := 16.
Definition FINSH_HEAP_MAX : Z := 128.
Definition FINSH_STRING_MAX : nat := 128.
Definition FINSH_VARIABLE_MAX : nat := 8.

(** ** Error numbers *)

Definition FINSH_ERROR_OK : Z := 0.
Definition FINSH_ERROR_INVALID_TOKEN : Z := 1.
Definition FINSH_ERROR_EXPECT_TYPE : Z := 2.
Definition FINSH_ERROR_UNKNOWN_TYPE : Z := 3.
Definition FINSH_ERROR_VARIABLE_EXIST : Z := 4.
Definition FINSH_ERROR_EXPECT_OPERATOR : Z := 5.
Definition FINSH_ERROR_MEMORY_FULL : Z := 6.
Definition FINSH_ERROR_UNKNOWN_NODE : Z := 8.
Definition FINSH_ERROR_EXPECT_CHAR : Z := 9.
Definition FINSH_ERROR_UNEXPECT_END : Z := 10.
Definition FINSH_ERROR_UNKNOWN_TOKEN : Z := 11.
Definition FINSH_ERROR_UNKNOWN_SYMBOL : Z := 13.
Definition FINSH_ERROR_NULL_NODE : Z := 14.

(** ** Types *)

Inductive finsh_type :=
| finsh_type_unknown
| finsh_type_void | finsh_type_voidp
| finsh_type_char | finsh_type_uchar | finsh_type_charp
| finsh_type_short | finsh_type_ushort | finsh_type_shortp
| finsh_type_int | finsh_type_uint | finsh_type_intp
| finsh_type_long | finsh_type_ulong | finsh_type_longp.
#[global] Instance finsh_type_eq_dec : EqDecision finsh_type.
Proof. solve_decision. Defined.

(** The value of the enumerator. *)
Definition type_code (t : finsh_type) : Z :=
  match t with
  | finsh_type_unknown => 0
  | finsh_type_void => 1 | finsh_type_voidp => 2
  | finsh_type_char => 3 | finsh_type_uchar => 4 | finsh_type_charp => 5
  | finsh_type_short => 6 | finsh_type_ushort => 7 | finsh_type_shortp => 8
  | finsh_type_int => 9 | finsh_type_uint => 10 | finsh_type_intp => 11
  | finsh_type_long => 12 | finsh_type_ulong => 13 | finsh_type_longp => 14
  end.

Inductive finsh_token_type :=
| T_left_paren | T_right_paren | T_comma | T_semicolon | T_mul | T_add | T_inc | T_sub | T_dec | T_div | T_mod
| T_assign | T_and | T_or | T_xor | T_bitwise | T_shl | T_shr | T_comments
| T_void | T_char | T_short | T_int | T_long | T_unsigned
| T_value_char | T_value_int | T_value_long | T_value_string | T_value_null
| T_identifier | T_bad | T_eof.
#[global] Instance finsh_token_type_eq_dec : EqDecision finsh_token_type.
Proof. solve_decision. Defined.

(** ** Structures *)

Record finsh_var := mk_var { fv_name : list Z; fv_type : finsh_type }.

Record finsh_sysvar := mk_sysvar { sv_name : list Z; sv_type : finsh_type; sv_var : Z }.

Record finsh_syscall := mk_syscall { sc_name : list Z; sc_func : Z }.

Record finsh_node := mk_node {
  n_type : Z;                (* node_type *)
  n_data : Z;                (* data_type *)
  n_idtype : Z;              (* idtype *)
  n_value : Z;               (* value, as an unsigned 32-bit number *)
  n_id : Z;                  (* id, the address of the symbol *)
  n_sibling : option nat;
  n_child : option nat
}.

Record finsh_token := mk_token {
  tk_eof : bool;
  tk_replay : bool;
  tk_position : nat;
  tk_current : finsh_token_type;
  tk_value : Z;              (* value, as an unsigned 32-bit number *)
  tk_string : list Z;
  tk_line : list Z
}.

(** The string heap: the headers of its blocks by address. *)
Record finsh_block_header := mk_block { bh_length : Z; bh_next : Z }.
Record finsh_heap_state := mk_fheap {
  fh_blocks : gmap Z finsh_block_header;
  fh_free_list : Z;
  fh_allocate_list : Z
}.

Record finsh := mk_finsh {
  f_vm : fvm;
  f_nodes : list finsh_node;          (* global_node_table *)
  f_vars : list finsh_var;            (* global_variable, without the values *)
  f_errno : Z;                        (* global_errno *)
  f_heap : finsh_heap_state;
  f_token : finsh_token;              (* the token of the parser *)
  f_root : option nat;                (* the root of the parser *)
  f_compile_pc : Z;                   (* finsh_compile_pc, as an index *)
  f_sysvar_list : list (Z * finsh_sysvar);     (* global_sysvar_list, with addresses *)
  f_syscall_list : list (Z * finsh_syscall)    (* global_syscall_list, with addresses *)
}.

Abbreviation F := (M finsh).

(** The addresses the linker chooses, and the symbol tables of the program. *)
Class FinshEnv := {
  global_variable : Z;
  finsh_heap : Z;
  sysvar_table : list (Z * finsh_sysvar);
  syscall_table : list (Z * finsh_syscall)
}.

Definition on_vm {A} : V A -> F A :=
  zoom f_vm (fun v s => {| s with f_vm := v |}).

(** ** Errors *)

Definition finsh_error_init : F unit := modify (fun s => {| s with f_errno := FINSH_ERROR_OK |}).
Definition finsh_error_set (type : Z) : F unit := modify (fun s => {| s with f_errno := type |}).
Definition finsh_errno : F Z := gets f_errno.

(** ** Strings *)

(** [strcmp(a, b) == 0] and [strncmp(a, b, n) == 0]. *)
Definition str_eqb (a b : list Z) : bool := bool_decide (a = b).
Definition strn_eqb (n : nat) (a b : list Z) : bool := bool_decide (take n a = take n b).

Section Data.
Context {FE : FinshEnv}.

(** ** Variables *)

(** [struct finsh_var] is 24 bytes long, its [value] at offset 20. *)
Definition sizeof_finsh_var : Z := 24.
Definition var_addr (i : nat) : Z := global_variable + sizeof_finsh_var * Z.of_nat i.
Definition value_addr (var : Z) : Z := var + 20.

(** The variable a pointer points to. *)
Definition var_at (p : Z) (vars : list finsh_var) : option finsh_var :=
  if (global_variable <=? p) && ((p - global_variable) mod sizeof_finsh_var =? 0)
  then vars !! Z.to_nat ((p - global_variable) / sizeof_finsh_var) else None.

Definition empty_var : finsh_var := mk_var [] finsh_type_unknown.

(** [memset(&global_variable[i], 0, sizeof(struct finsh_var))] *)
Definition clear_var (i : nat) : F unit :=
  on_vm (mem_store WDword (value_addr (var_addr i)) 0);;
  modify (fun s => {| s with f_vars := <[i := empty_var]> (f_vars s) |}).

Fixpoint clear_vars (n : nat) : F unit :=
  match n with
  | O => mret tt
  | S n => clear_vars n;; clear_var n
  end.

Definition finsh_var_init : F unit := clear_vars FINSH_VARIABLE_MAX.

Fixpoint find_name (name : list Z) (vars : list finsh_var) : option nat :=
  match vars with
  | [] => None
  | v :: vars => if strn_eqb FINSH_NAME_MAX (fv_name v) name then Some O else S <$> find_name name vars
  end.
Fixpoint find_empty (vars : list finsh_var) : option nat :=
  match vars with
  | [] => None
  | v :: vars => if decide (fv_type v = finsh_type_unknown) then Some O else S <$> find_empty vars
  end.

Definition finsh_var_insert (name : list Z) (type : finsh_type) : F Z :=
  vars ← gets f_vars;
  match find_name name vars, find_empty vars with
  | None, Some empty =>
      modify (fun s => {| s with f_vars := <[empty := mk_var (take FINSH_NAME_MAX name) type]> vars |});;
      mret (Z.of_nat empty)
  | _, _ => mret (-1)
  end.

Definition finsh_var_delete (name : list Z) : F Z :=
  vars ← gets f_vars;
  match find_name name vars with
  | None => mret (-1)
  | Some i => clear_var i;; mret 0
  end.

(** The address of the variable; [None] is the null pointer. *)
Definition finsh_var_lookup (name : list Z) : F (option Z) :=
  vars ← gets f_vars;
  mret (var_addr <$> find_name name vars).

(** ** System variables and system calls *)

Fixpoint table_find {A} (nm : A -> list Z) (same : list Z -> list Z -> bool) (name : list Z) (l : list (Z * A)) : option Z :=
  match l with
  | [] => None
  | (p, a) :: l => if same (nm a) name then Some p else table_find nm same name l
  end.

(** An identifier of [FINSH_NAME_MAX] characters and more has lost its
    terminating zero when it arrives here. *)
Definition terminated (name : list Z) : F unit :=
  if bool_decide (length name < FINSH_NAME_MAX)%nat then mret tt else fail BadPtr.

Definition finsh_sysvar_lookup (name : list Z) : F (option Z) :=
  terminated name;;
  l ← gets f_sysvar_list;
  mret (match table_find sv_name str_eqb name sysvar_table with
        | Some p => Some p
        | None => table_find sv_name (strn_eqb (length name)) name l
        end).

Definition finsh_syscall_lookup (name : list Z) : F (option Z) :=
  terminated name;;
  l ← gets f_syscall_list;
  mret (match table_find sc_name str_eqb name syscall_table with
        | Some p => Some p
        | None => table_find sc_name (strn_eqb (length name)) name l
        end).

(** The new list item is what [rt_malloc] has returned. *)
Definition finsh_sysvar_append (item : option Z) (name : list Z) (type : finsh_type) (var_addr : Z) : F unit :=
  match item with
  | Some p => modify (fun s => {| s with f_sysvar_list := (p, mk_sysvar name type var_addr) :: f_sysvar_list s |})
  | None => mret tt
  end.
Definition finsh_syscall_append (item : option Z) (name : list Z) (func : Z) : F unit :=
  match item with
  | Some p => modify (fun s => {| s with f_syscall_list := (p, mk_syscall name func) :: f_syscall_list s |})
  | None => mret tt
  end.

Fixpoint symbol_at {A} (p : Z) (l : list (Z * A)) : option A :=
  match l with
  | [] => None
  | (q, a) :: l => if p =? q then Some a else symbol_at p l
  end.

(** The symbols pointers point to. *)
Definition sysvar_at (p : Z) (s : finsh) : option finsh_sysvar := symbol_at p (sysvar_table ++ f_sysvar_list s).
Definition syscall_at (p : Z) (s : finsh) : option finsh_syscall := symbol_at p (syscall_table ++ f_syscall_list s).

End Data.
