(* ===== verification/FinshHeap.v ===== *)
(** * The string heap of the shell (components/finsh/finsh_heap.c)

    A first-fit allocator with two address-ordered lists, the free and the
    allocated blocks, and a collector that frees the blocks no variable points
    to.  The headers are kept apart from the bytes of the heap. *)

From S2P Require Import Prelude FinshVm FinshData.

Section Heap.
Context {FE : FinshEnv}.

Definition HEAP_ALIGNMENT : Z := 4.
Definition HEAP_ALIGN_SIZE (size : Z) : Z := Z.land (size + HEAP_ALIGNMENT - 1) (Z.lnot (HEAP_ALIGNMENT - 1)).
Definition sizeof_header : Z := 8.
Definition finsh_block_get_header (data : Z) : Z := data - sizeof_header.
Definition finsh_block_get_data (header : Z) : Z := header + sizeof_header.

(** ** Headers and lists *)

Inductive heap_list := FreeList | AllocateList.

Definition put_heap (h : finsh_heap_state) : F unit := modify (fun s => {| s with f_heap := h |}).
Definition get_list (l : heap_list) : F Z :=
  h ← gets f_heap; mret (match l with FreeList => fh_free_list h | AllocateList => fh_allocate_list h end).
Definition put_list (l : heap_list) (p : Z) : F unit :=
  h ← gets f_heap;
  put_heap (match l with
            | FreeList => {| h with fh_free_list := p |}
            | AllocateList => {| h with fh_allocate_list := p |}
            end).
Definition get_header (p : Z) : F finsh_block_header :=
  h ← gets f_heap; of_option BadPtr (fh_blocks h !! p).
Definition put_header (p : Z) (b : finsh_block_header) : F unit :=
  h ← gets f_heap;
  put_heap {| h with fh_blocks := <[p := b]> (fh_blocks h) |}.
Definition set_next (p n : Z) : F unit :=
  b ← get_header p; put_header p {| b with bh_next := n |}.
Definition set_length (p n : Z) : F unit :=
  b ← get_header p; put_header p {| b with bh_length := n |}.

(** A header inside [finsh_heap]. *)
Definition in_heap (p : Z) : bool :=
  (finsh_heap <=? p) && (p + sizeof_header <=? finsh_heap + FINSH_HEAP_MAX).

Fixpoint mem_zero (n : nat) (a : Z) : F unit :=
  match n with
  | O => mret tt
  | S n => on_vm (mem_store WByte a 0);; mem_zero n (a + 1)
  end.

Definition finsh_heap_init : F unit :=
  mem_zero (Z.to_nat FINSH_HEAP_MAX) finsh_heap;;
  put_heap (mk_fheap {[ finsh_heap := mk_block (FINSH_HEAP_MAX - sizeof_header) 0 ]} finsh_heap 0).

(** ** Lists of blocks; the fuel is the number of headers *)

(** The node after which [header] is inserted. *)
Fixpoint insert_point (fuel : nat) (header node : Z) : F Z :=
  match fuel with
  | O => fail OutOfFuel
  | S fuel =>
      b ← get_header node;
      if (header <? bh_next b) || (bh_next b =? 0) then mret node
      else insert_point fuel header (bh_next b)
  end.

Definition list_fuel : F nat := h ← gets f_heap; mret (S (size (fh_blocks h))).

Definition finsh_block_insert (l : heap_list) (header : Z) : F unit :=
  first ← get_list l;
  if first =? 0 then put_list l header
  else if header <? first then set_next header first;; put_list l header
  else
    fuel ← list_fuel;
    node ← insert_point fuel header first;
    b ← get_header node;
    when (negb (bh_next b =? 0)) (set_next header (bh_next b));;
    set_next node header.

(** Unlink [header] behind [node]; nothing happens if it is not there. *)
Fixpoint remove_after (fuel : nat) (header node : Z) : F unit :=
  match fuel with
  | O => fail OutOfFuel
  | S fuel =>
      if node =? 0 then mret tt
      else
        b ← get_header node;
        if bh_next b =? header then h ← get_header header; set_next node (bh_next h)
        else remove_after fuel header (bh_next b)
  end.

Definition finsh_block_remove (l : heap_list) (header : Z) : F unit :=
  first ← get_list l;
  if first =? header then
    h ← get_header header;
    put_list l (bh_next h);;
    set_next header 0
  else
    fuel ← list_fuel;
    remove_after fuel header first.

Definition finsh_block_split (header size : Z) : F unit :=
  b ← get_header header;
  (if in_heap (header + sizeof_header + size) then mret tt else fail BadPtr);;
  put_header (header + sizeof_header + size) (mk_block (u32 (bh_length b - sizeof_header - size)) (bh_next b));;
  put_header header (mk_block size (header + sizeof_header + size)).

(** The block whose successor is [header]; 0 if there is none. *)
Fixpoint previous (fuel : nat) (header node : Z) : F Z :=
  match fuel with
  | O => fail OutOfFuel
  | S fuel =>
      if node =? 0 then mret 0
      else b ← get_header node; if bh_next b =? header then mret node else previous fuel header (bh_next b)
  end.

(** The block at [p] ends where [q] begins. *)
Definition adjoins (p q : Z) : F bool :=
  if p =? 0 then mret false
  else b ← get_header p; mret (p + bh_length b + sizeof_header =? q).

Definition finsh_block_merge (l : heap_list) (header : Z) : F unit :=
  h ← get_header header;
  first ← get_list l;
  fuel ← list_fuel;
  prev_node ← (if first =? header then mret 0 else previous fuel header first);
  let next_node := bh_next h in
  near ← adjoins prev_node header;
  close ← (if next_node =? 0 then mret false else adjoins header next_node);
  if (near : bool) then
    p ← get_header prev_node;
    if (close : bool) then
      n ← get_header next_node;
      put_header prev_node (mk_block (u32 (bh_length p + bh_length h + bh_length n + 2 * sizeof_header)) (bh_next n))
    else put_header prev_node (mk_block (u32 (bh_length p + bh_length h + sizeof_header)) (bh_next h))
  else if (close : bool) then
    n ← get_header next_node;
    put_header header (mk_block (u32 (bh_length h + bh_length n + sizeof_header)) (bh_next n))
  else mret tt.

(** ** Allocation *)

Definition finsh_heap_free (ptr : Z) : F unit :=
  let header := finsh_block_get_header ptr in
  finsh_block_remove AllocateList header;;
  finsh_block_insert FreeList header;;
  finsh_block_merge FreeList header.

(** Does one of the variables from [i] on point to [data]? *)
Fixpoint pointed (n i : nat) (data : Z) : F bool :=
  match n with
  | O => mret false
  | S n =>
      vars ← gets f_vars;
      match vars !! i with
      | Some v =>
          if decide (fv_type v = finsh_type_unknown) then pointed n (S i) data
          else p ← on_vm (mem_load WDword (value_addr (var_addr i)));
               if p =? data then mret true else pointed n (S i) data
      | None => fail BadPtr
      end
  end.

Fixpoint gc_loop (fuel : nat) (header : Z) : F unit :=
  match fuel with
  | O => fail OutOfFuel
  | S fuel =>
      if header =? 0 then mret tt
      else
        used ← pointed FINSH_VARIABLE_MAX 0 (finsh_block_get_data header);
        b ← get_header header;
        when (negb used) (finsh_heap_free (finsh_block_get_data header));;
        gc_loop fuel (bh_next b)
  end.

Definition finsh_heap_gc : F unit :=
  first ← get_list AllocateList;
  fuel ← list_fuel;
  gc_loop fuel first.

(** The first block whose length passes [fits]; 0 if there is none. *)
Fixpoint block_fit (fuel : nat) (fits : Z -> bool) (header : Z) : F Z :=
  match fuel with
  | O => fail OutOfFuel
  | S fuel =>
      if header =? 0 then mret 0
      else b ← get_header header; if fits (bh_length b) then mret header else block_fit fuel fits (bh_next b)
  end.

Definition finsh_heap_allocate (size : Z) : F Z :=
  let size := HEAP_ALIGN_SIZE size in
  first ← get_list FreeList;
  fuel ← list_fuel;
  header ← block_fit fuel (fun n => u32 (size + sizeof_header) <? n) first;
  header ← (if header =? 0 then
              finsh_heap_gc;;
              first ← get_list FreeList;
              fuel ← list_fuel;
              block_fit fuel (fun n => u32 (size + sizeof_header) <=? n) first
            else mret header);
  if header =? 0 then mret 0
  else
    finsh_block_split header size;;
    finsh_block_remove FreeList header;;
    set_next header 0;;
    finsh_block_insert AllocateList header;;
    mem_zero (Z.to_nat size) (finsh_block_get_data header);;
    mret (finsh_block_get_data header).

End Heap.
