(* ===== verification/FinshNode.v ===== *)
(** * Syntax nodes of the shell (components/finsh/finsh_node.c, finsh_node.h) *)

From S2P Require Import Prelude FinshVm FinshData FinshHeap.

Definition FINSH_NODE_UNKNOWN : Z := 0.
Definition FINSH_NODE_ID : Z := 1.
Definition FINSH_NODE_VALUE_CHAR : Z := 2.
Definition FINSH_NODE_VALUE_INT : Z := 3.
Definition FINSH_NODE_VALUE_LONG : Z := 4.
Definition FINSH_NODE_VALUE_STRING : Z := 5.
Definition FINSH_NODE_VALUE_NULL : Z := 6.
Definition FINSH_NODE_SYS_ADD : Z := 7.
Definition FINSH_NODE_SYS_SUB : Z := 8.
Definition FINSH_NODE_SYS_MUL : Z := 9.
Definition FINSH_NODE_SYS_DIV : Z := 10.
Definition FINSH_NODE_SYS_MOD : Z := 11.
Definition FINSH_NODE_SYS_AND : Z := 12.
Definition FINSH_NODE_SYS_OR : Z := 13.
Definition FINSH_NODE_SYS_XOR : Z := 14.
Definition FINSH_NODE_SYS_BITWISE : Z := 15.
Definition FINSH_NODE_SYS_SHL : Z := 16.
Definition FINSH_NODE_SYS_SHR : Z := 17.
Definition FINSH_NODE_SYS_FUNC : Z := 18.
Definition FINSH_NODE_SYS_ASSIGN : Z := 19.
Definition FINSH_NODE_SYS_PREINC : Z := 21.
Definition FINSH_NODE_SYS_PREDEC : Z := 22.
Definition FINSH_NODE_SYS_INC : Z := 23.
Definition FINSH_NODE_SYS_DEC : Z := 24.
Definition FINSH_NODE_SYS_GETVALUE : Z := 25.
Definition FINSH_NODE_SYS_GETADDR : Z := 26.
Definition FINSH_NODE_SYS_NULL : Z := 27.

Definition FINSH_DATA_TYPE_VOID : Z := 0.
Definition FINSH_DATA_TYPE_BYTE : Z := 1.
Definition FINSH_DATA_TYPE_WORD : Z := 2.
Definition FINSH_DATA_TYPE_DWORD : Z := 3.

Definition FINSH_NODE_VALUE : Z := 0.

Definition FINSH_IDTYPE_VAR : Z := 0x01.
Definition FINSH_IDTYPE_SYSVAR : Z := 0x02.
Definition FINSH_IDTYPE_SYSCALL : Z := 0x04.
Definition FINSH_IDTYPE_ADDRESS : Z := 0x08.

(** ** The node table *)

Definition empty_node : finsh_node := mk_node 0 0 0 0 0 None None.

Definition finsh_node_init : F unit :=
  modify (fun s => {| s with f_nodes := replicate FINSH_NODE_MAX empty_node |}).

Definition get_node (i : nat) : F finsh_node :=
  l ← gets f_nodes; of_option BadPtr (l !! i).
Definition put_node (i : nat) (n : finsh_node) : F unit :=
  modify (fun s => {| s with f_nodes := <[i := n]> (f_nodes s) |}).
Definition upd_node (i : nat) (f : finsh_node -> finsh_node) : F unit :=
  n ← get_node i; put_node i (f n).

Definition with_type (t : Z) (n : finsh_node) : finsh_node := {| n with n_type := t |}.
Definition with_data (t : Z) (n : finsh_node) : finsh_node := {| n with n_data := t |}.
Definition with_idtype (t : Z) (n : finsh_node) : finsh_node := {| n with n_idtype := t |}.
Definition with_value (v : Z) (n : finsh_node) : finsh_node := {| n with n_value := v |}.
Definition with_id (p t : Z) (n : finsh_node) : finsh_node := {| n with n_id := p; n_idtype := t |}.
Definition with_child (c : option nat) (n : finsh_node) : finsh_node := {| n with n_child := c |}.
Definition with_sibling (c : option nat) (n : finsh_node) : finsh_node := {| n with n_sibling := c |}.

Fixpoint free_node (l : list finsh_node) : option nat :=
  match l with
  | [] => None
  | n :: l => if n_type n =? FINSH_NODE_UNKNOWN then Some O else S <$> free_node l
  end.

Definition finsh_node_allocate (type : Z) : F (option nat) :=
  l ← gets f_nodes;
  match free_node l with
  | None => mret None
  | Some i => upd_node i (with_type type);; mret (Some i)
  end.

(** Allocate a node and fill it with [fill]. *)
Definition node_new (type : Z) (fill : nat -> F unit) : F (option nat) :=
  node ← finsh_node_allocate type;
  match node with
  | None => finsh_error_set FINSH_ERROR_MEMORY_FULL;; mret None
  | Some i => fill i;; mret (Some i)
  end.

Section Node.
Context {FE : FinshEnv}.

Definition finsh_node_new_id (id : list Z) : F (option nat) :=
  var ← finsh_var_lookup id;
  symbol ← match var with
           | Some p => mret (Some (p, FINSH_IDTYPE_VAR))
           | None =>
               sysvar ← finsh_sysvar_lookup id;
               match sysvar with
               | Some p => mret (Some (p, FINSH_IDTYPE_SYSVAR))
               | None =>
                   syscall ← finsh_syscall_lookup id;
                   mret ((fun p => (p, FINSH_IDTYPE_SYSCALL)) <$> syscall)
               end
           end;
  match symbol with
  | Some (p, type) => node_new FINSH_NODE_ID (fun i => upd_node i (with_id p type))
  | None => finsh_error_set FINSH_ERROR_UNKNOWN_SYMBOL;; mret None
  end.

(** [value.char_value = c] changes one byte of the union. *)
Definition finsh_node_new_char (c : Z) : F (option nat) :=
  node_new FINSH_NODE_VALUE_CHAR (fun i => upd_node i (fun n => with_value (slot_put WByte c (n_value n)) n)).
Definition finsh_node_new_int (v : Z) : F (option nat) :=
  node_new FINSH_NODE_VALUE_INT (fun i => upd_node i (with_value (u32 v))).
Definition finsh_node_new_long (v : Z) : F (option nat) :=
  node_new FINSH_NODE_VALUE_LONG (fun i => upd_node i (with_value (u32 v))).
Definition finsh_node_new_ptr (p : Z) : F (option nat) :=
  node_new FINSH_NODE_VALUE_NULL (fun i => upd_node i (with_value (u32 p))).

Fixpoint store_bytes (a : Z) (l : list Z) : F unit :=
  match l with
  | [] => mret tt
  | c :: l => on_vm (mem_store WByte a c);; store_bytes (a + 1) l
  end.

(** The pointer [finsh_heap_allocate] returns is used unchecked. *)
Definition finsh_node_new_string (s : list Z) : F (option nat) :=
  node_new FINSH_NODE_VALUE_STRING (fun i =>
    p ← finsh_heap_allocate (Z.of_nat (length s) + 1);
    upd_node i (with_value p);;
    store_bytes p (s ++ [0])).

End Node.
