(* ===== verification/FinshToken.v ===== *)
(** * The tokenizer of the shell (components/finsh/finsh_token.c)

    Characters are numbers from 0 to 255.  The loops over the line take the
    length of the line as fuel: each turn moves on by one character, and the
    end of the line stops every loop. *)

From S2P Require Import Prelude FinshVm FinshData.

(** ** Characters *)

Definition chr_tab : Z := 9.
Definition chr_nl : Z := 10.
Definition chr_cr : Z := 13.
Definition chr_space : Z := 32.

Definition is_lower (c : Z) : bool := (97 <=? c) && (c <=? 122).
Definition is_upper (c : Z) : bool := (65 <=? c) && (c <=? 90).
Definition is_digit (c : Z) : bool := (48 <=? c) && (c <=? 57).
Definition is_alpha (c : Z) : bool := let d := Z.lor c 0x20 - 97 in (0 <=? d) && (d <? 26).
Definition is_xdigit (c : Z) : bool := is_digit c || (let d := Z.lor c 0x20 - 97 in (0 <=? d) && (d <? 6)).
Definition is_octal (c : Z) : bool := (48 <=? c) && (c <=? 55).
Definition is_separator (c : Z) : bool := negb (is_lower c || is_upper c || is_digit c || (c =? 95)).

(** Keywords. *)
Definition finsh_name_table : list (list Z * finsh_token_type) := [
  ([118; 111; 105; 100], T_void);
  ([99; 104; 97; 114], T_char);
  ([115; 104; 111; 114; 116], T_short);
  ([105; 110; 116], T_int);
  ([108; 111; 110; 103], T_long);
  ([117; 110; 115; 105; 103; 110; 101; 100], T_unsigned);
  ([78; 85; 76; 76], T_value_null);
  ([110; 117; 108; 108], T_value_null)].

(** ** State *)

Definition put_token (t : finsh_token) : F unit := modify (fun s => {| s with f_token := t |}).
Definition upd_token (f : finsh_token -> finsh_token) : F unit := t ← gets f_token; put_token (f t).

Definition set_eof (b : bool) : F unit := upd_token (fun t => {| t with tk_eof := b |}).
Definition set_position (n : nat) : F unit := upd_token (fun t => {| t with tk_position := n |}).
Definition set_current (k : finsh_token_type) : F unit := upd_token (fun t => {| t with tk_current := k |}).
Definition set_value (v : Z) : F unit := upd_token (fun t => {| t with tk_value := v |}).
Definition is_eof : F bool := t ← gets f_token; mret (tk_eof t).

(** [finsh_token_replay] *)
Definition finsh_token_replay : F unit := upd_token (fun t => {| t with tk_replay := true |}).

(** [self->string[i] = c] *)
Definition set_string (i : nat) (c : Z) : F unit :=
  t ← gets f_token;
  if bool_decide (i < length (tk_string t))%nat then put_token {| t with tk_string := <[i := c]> (tk_string t) |}
  else fail BadPtr.

(** The string in a buffer, up to the first zero. *)
Fixpoint c_string (l : list Z) : option (list Z) :=
  match l with
  | [] => None
  | c :: l => if c =? 0 then Some [] else (c ::.) <$> c_string l
  end.
Definition token_string : F (list Z) :=
  t ← gets f_token; of_option BadPtr (c_string (tk_string t)).

Definition token_zero (line : list Z) : finsh_token :=
  mk_token false false 0 T_bad 0 (replicate FINSH_STRING_MAX 0) line.
Definition finsh_token_init (line : list Z) : F unit := put_token (token_zero line).

(** ** Reading characters *)

Definition token_next_char : F Z :=
  t ← gets f_token;
  if tk_eof t then mret 0
  else match tk_line t !! tk_position t with
       | Some c =>
           if c =? chr_nl then set_eof true;; set_position 0;; mret 0
           else set_position (S (tk_position t));; mret c
       | None => set_eof true;; set_position 0;; mret 0
       end.

Definition token_prev_char : F unit :=
  t ← gets f_token;
  if tk_eof t then mret tt else set_position (pred (tk_position t)).

Definition line_fuel : F nat := t ← gets f_token; mret (S (S (length (tk_line t)))).

Fixpoint trim_loop (fuel : nat) : F unit :=
  match fuel with
  | O => fail OutOfFuel
  | S fuel =>
      ch ← token_next_char;
      if (ch =? chr_space) || (ch =? chr_tab) || (ch =? chr_cr) then trim_loop fuel else mret tt
  end.
Definition token_trim_space : F unit :=
  fuel ← line_fuel; trim_loop fuel;; token_prev_char.

(** The loop of [token_get_string] that copies an identifier to [string]. *)
Fixpoint get_string_loop (fuel p : nat) (ch : Z) : F nat :=
  match fuel with
  | O => fail OutOfFuel
  | S fuel =>
      eof ← is_eof;
      if negb (is_separator ch) && negb eof then
        set_string p ch;;
        ch ← token_next_char;
        get_string_loop fuel (S p) ch
      else mret p
  end.

Definition token_get_string : F unit :=
  ch ← token_next_char;
  eof ← is_eof;
  if (eof : bool) then mret tt
  else
    set_string 0 0;;
    if is_digit ch then token_prev_char
    else
      fuel ← line_fuel;
      p ← get_string_loop fuel 0 ch;
      set_eof false;;
      token_prev_char;;
      set_string p 0.

(** ** Literals *)

(** Digits of an escape sequence: [result * base + digit]. *)
Fixpoint escape_loop (fuel : nat) (good : Z -> bool) (base : Z) (digit : Z -> Z) (result ch : Z) : F Z :=
  match fuel with
  | O => fail OutOfFuel
  | S fuel =>
      if good ch then
        next ← token_next_char;
        escape_loop fuel good base digit (i32 (result * base + digit ch)) next
      else token_prev_char;; mret result
  end.

Definition token_proc_escape : F Z :=
  ch ← token_next_char;
  fuel ← line_fuel;
  if ch =? 110 then mret 10                       (* n *)
  else if ch =? 116 then mret 9                   (* t *)
  else if ch =? 118 then mret 11                  (* v *)
  else if ch =? 98 then mret 8                    (* b *)
  else if ch =? 114 then mret 13                  (* r *)
  else if ch =? 102 then mret 12                  (* f *)
  else if ch =? 97 then mret 7                    (* a *)
  else if ch =? 34 then mret 34                   (* the double quote *)
  else if (ch =? 120) || (ch =? 88) then          (* x, X *)
    next ← token_next_char;
    escape_loop fuel is_xdigit 16 (fun c => if c <? 65 then c - 48 else Z.lor c 0x20 - 97 + 10) 0 next
  else if is_octal ch then escape_loop fuel is_octal 8 (fun c => c - 48) 0 ch
  else mret 0.

(** The loop of [token_proc_string]; [p] counts the bytes written. *)
Fixpoint string_loop (fuel p : nat) : F unit :=
  match fuel with
  | O => mret tt
  | S fuel =>
      ch ← token_next_char;
      eof ← is_eof;
      if (eof : bool) then finsh_error_set FINSH_ERROR_UNEXPECT_END
      else if ch =? 92 then c ← token_proc_escape; set_string p (u8 c);; string_loop fuel (S p)
      else if ch =? 34 then set_string p 0
      else set_string p ch;; string_loop fuel (S p)
  end.
Definition token_proc_string : F unit := string_loop FINSH_STRING_MAX 0.

(** The digits of a numeric character escape go to a buffer of four bytes,
    of which the loop leaves only room for the terminating zero. *)
Fixpoint char_digits (fuel p : nat) (ch : Z) : F unit :=
  match fuel with
  | O => fail OutOfFuel
  | S fuel =>
      if is_digit ch then
        next ← token_next_char;
        (if bool_decide (p < 4)%nat then mret tt else fail BadPtr);;
        char_digits fuel (S p) next
      else if bool_decide (p < 4)%nat then mret tt else fail BadPtr
  end.

Definition token_proc_char : F Z :=
  ch ← token_next_char;
  ch ← (if ch =? 92 then
          ch ← token_next_char;
          if ch =? 110 then mret 10
          else if ch =? 116 then mret 9
          else if ch =? 118 then mret 11
          else if ch =? 98 then mret 8
          else if ch =? 114 then mret 13
          else if ch =? 92 then mret 92
          else if ch =? 39 then mret 39
          else
            fuel ← line_fuel;
            char_digits fuel 0 ch;;
            token_prev_char;;
            mret 0   (* atoi at the end of the buffer *)
        else mret ch);
  next ← token_next_char;
  when (negb (next =? 39)) (token_prev_char;; finsh_error_set FINSH_ERROR_EXPECT_CHAR);;
  mret ch.

(** One digit of [token_spec_number], on the two words [bn]. *)
Definition spec_digit (t : Z) : Z :=
  if (97 <=? t) && (t <=? 102) then t - 97 + 10
  else if (65 <=? t) && (t <=? 70) then t - 65 + 10
  else t - 48.
Definition spec_step (shift : Z) (bn : Z * Z) (c : Z) : Z * Z :=
  (u32 (Z.lor (Z.shiftl bn.1 shift) (spec_digit c)),
   u32 (Z.lor (Z.shiftl bn.2 shift) (Z.shiftr bn.1 (32 - shift)))).
Definition token_spec_number (string : list Z) (b : Z) : Z :=
  let shift := if b =? 16 then 4 else if b =? 8 then 3 else 1 in
  i32 (foldl (spec_step shift) (0, 0) string).1.

(** Digits copied to the buffer of [token_proc_number], 128 bytes with the
    terminating zero; returns them with the character behind. *)
Fixpoint number_digits (fuel : nat) (good : Z -> bool) (buf : list Z) (ch : Z) : F (list Z * Z) :=
  match fuel with
  | O => fail OutOfFuel
  | S fuel =>
      if good ch then
        if bool_decide (length buf < 127)%nat then
          next ← token_next_char; number_digits fuel good (buf ++ [ch]) next
        else fail BadPtr
      else mret (buf, ch)
  end.

Fixpoint decimal_digits (fuel : nat) (value ch : Z) : F (Z * Z) :=
  match fuel with
  | O => fail OutOfFuel
  | S fuel =>
      if is_digit ch then
        next ← token_next_char; decimal_digits fuel (i32 (value * 10 + (ch - 48))) next
      else mret (value, ch)
  end.

(** The suffix of a number. *)
Definition number_suffix (ch : Z) : F unit :=
  if (ch =? 108) || (ch =? 76) then set_current T_value_long else token_prev_char.

Definition spec_number (b : Z) (r : list Z * Z) : F unit :=
  set_value (u32 (token_spec_number r.1 b));;
  set_current T_value_int;;
  number_suffix r.2.

Definition token_proc_number : F unit :=
  fuel ← line_fuel;
  ch ← token_next_char;
  if ch =? 48 then
    ch ← token_next_char;
    if (ch =? 120) || (ch =? 88) then
      ch ← token_next_char;
      r ← number_digits fuel (fun c => is_digit c || is_alpha c) [] ch;
      spec_number 16 r
    else if (ch =? 98) || (ch =? 66) then
      ch ← token_next_char;
      r ← number_digits fuel (fun c => (c =? 48) || (c =? 49)) [] ch;
      spec_number 2 r
    else if is_octal ch then
      r ← number_digits fuel is_octal [] ch;
      spec_number 8 r
    else
      token_prev_char;; set_value 0;; set_current T_value_int
  else
    r ← decimal_digits fuel 0 ch;
    set_value (u32 r.1);;
    set_current T_value_int;;
    number_suffix r.2.

(** ** Tokens *)

Fixpoint match_name (name : list Z) (l : list (list Z * finsh_token_type)) : option finsh_token_type :=
  match l with
  | [] => None
  | (n, k) :: l => if str_eqb n name then Some k else match_name name l
  end.
Definition token_match_name (str : list Z) : F bool :=
  match match_name str finsh_name_table with
  | Some k => set_current k;; mret true
  | None => mret false
  end.

(** A character that is an operator of its own or, doubled, another one. *)
Definition operator2 (c : Z) (double single : finsh_token_type) : F unit :=
  ch ← token_next_char;
  if ch =? c then set_current double
  else token_prev_char;; set_current single.

Definition token_operator : F unit :=
  ch ← token_next_char;
  if ch =? 40 then set_current T_left_paren                        (* ( *)
  else if ch =? 41 then set_current T_right_paren
  else if ch =? 44 then set_current T_comma
  else if ch =? 59 then set_current T_semicolon
  else if ch =? 38 then set_current T_and
  else if ch =? 42 then set_current T_mul
  else if ch =? 43 then operator2 43 T_inc T_add
  else if ch =? 45 then operator2 45 T_dec T_sub
  else if ch =? 47 then operator2 47 T_eof T_div                   (* a line comment *)
  else if ch =? 60 then operator2 60 T_shl T_bad
  else if ch =? 62 then operator2 62 T_shr T_bad
  else if ch =? 124 then set_current T_or
  else if ch =? 37 then set_current T_mod
  else if ch =? 126 then set_current T_bitwise
  else if ch =? 94 then set_current T_xor
  else if ch =? 61 then set_current T_assign
  else if ch =? 39 then
    c ← token_proc_char;
    upd_token (fun t => {| t with tk_value := slot_put WByte c (tk_value t) |});;
    set_current T_value_char
  else if ch =? 34 then token_proc_string;; set_current T_value_string
  else if is_digit ch then token_prev_char;; token_proc_number
  else finsh_error_set FINSH_ERROR_UNKNOWN_TOKEN;; set_current T_bad.

Definition token_run : F unit :=
  token_trim_space;;
  token_get_string;;
  eof ← is_eof;
  if (eof : bool) then set_current T_eof
  else
    str ← token_string;
    match str with
    | [] => token_operator
    | _ :: _ => found ← token_match_name str; when (negb found) (set_current T_identifier)
    end.

Definition finsh_token_token : F finsh_token_type :=
  t ← gets f_token;
  (if tk_replay t then put_token {| t with tk_replay := false |} else token_run);;
  t ← gets f_token;
  mret (tk_current t).
