(* ===== verification/FinshParser.v ===== *)
(** * The parser of the shell (components/finsh/finsh_parser.c)

    Recursive descent over the tokens, building the syntax tree in the node
    table.  A null pointer to a node is [None].  The recursion takes fuel; the
    functions of the levels between an assignment and a cast take the
    functions they call as arguments. *)

From S2P Require Import Prelude FinshVm FinshData FinshHeap FinshNode FinshToken.

Abbreviation node_ptr := (option nat).

Definition next_token : F finsh_token_type := finsh_token_token.

Definition check_token (token type : finsh_token_type) : F unit :=
  if decide (token = type) then mret tt
  else finsh_error_set FINSH_ERROR_INVALID_TOKEN;; finsh_token_replay.

Definition match_token (type : finsh_token_type) : F unit :=
  token ← next_token; check_token token type.

Definition is_base_type (token : finsh_token_type) : bool :=
  match token with T_void | T_char | T_short | T_int | T_long => true | _ => false end.

(** ** Nodes *)

Definition make_sys_node (type : Z) (node1 node2 : node_ptr) : F node_ptr :=
  node ← finsh_node_allocate type;
  match node1, node with
  | Some n1, Some n => upd_node n (with_child node1);; upd_node n1 (with_sibling node2);; mret node
  | _, _ => finsh_error_set FINSH_ERROR_NULL_NODE;; mret node
  end.

(** [finsh_node_sibling(node) = p] *)
Definition set_sibling (node : node_ptr) (p : node_ptr) : F unit :=
  match node with
  | Some i => upd_node i (with_sibling p)
  | None => fail BadPtr
  end.

(** ** Types and identifiers *)

Definition base_type (token : finsh_token_type) : finsh_type :=
  match token with
  | T_void => finsh_type_void
  | T_char => finsh_type_char
  | T_short => finsh_type_short
  | T_int => finsh_type_int
  | T_long => finsh_type_long
  | _ => finsh_type_unknown
  end.
Definition unsigned_type (token : finsh_token_type) : option finsh_type :=
  match token with
  | T_char => Some finsh_type_uchar
  | T_short => Some finsh_type_ushort
  | T_int => Some finsh_type_uint
  | T_long => Some finsh_type_ulong
  | _ => None
  end.
Definition pointer_type (type : finsh_type) : finsh_type :=
  match type with
  | finsh_type_void => finsh_type_voidp
  | finsh_type_char | finsh_type_uchar => finsh_type_charp
  | finsh_type_short | finsh_type_ushort => finsh_type_shortp
  | finsh_type_int | finsh_type_uint => finsh_type_intp
  | finsh_type_long | finsh_type_ulong => finsh_type_longp
  | _ => finsh_type_voidp
  end.

(** The label [__return] of [proc_type]. *)
Definition type_return (type : finsh_type) : F finsh_type :=
  finsh_token_replay;; finsh_error_set FINSH_ERROR_UNKNOWN_TYPE;; mret type.

Definition type_pointer (type : finsh_type) : F finsh_type :=
  token ← next_token;
  if decide (token = T_mul) then mret (pointer_type type)
  else finsh_token_replay;; mret type.

Definition proc_type : F finsh_type :=
  token ← next_token;
  if is_base_type token then type_pointer (base_type token)
  else if decide (token = T_unsigned) then
    token ← next_token;
    if is_base_type token then
      match unsigned_type token with
      | Some type => type_pointer type
      | None => type_return finsh_type_unknown
      end
    else
      finsh_token_replay;;
      finsh_error_set FINSH_ERROR_EXPECT_TYPE;;
      type_pointer finsh_type_unknown
  else type_return finsh_type_unknown.

Definition proc_identifier : F (list Z) :=
  match_token T_identifier;;
  str ← token_string;
  mret (take FINSH_NAME_MAX str).

Section Parser.
Context {FE : FinshEnv}.

(** ** Expressions *)

Definition proc_primary_expr (expr : F node_ptr) : F node_ptr :=
  token ← next_token;
  match token with
  | T_identifier =>
      finsh_token_replay;;
      id ← proc_identifier;
      finsh_node_new_id id
  | T_left_paren =>
      e ← expr;
      match_token T_right_paren;;
      mret e
  | T_value_int => t ← gets f_token; finsh_node_new_int (tk_value t)
  | T_value_long => t ← gets f_token; finsh_node_new_long (tk_value t)
  | T_value_char => t ← gets f_token; finsh_node_new_char (tk_value t)
  | T_value_string => s ← token_string; finsh_node_new_string s
  | T_value_null => finsh_node_new_ptr 0
  | _ => finsh_error_set FINSH_ERROR_INVALID_TOKEN;; mret None
  end.

(** The loop of [proc_param_list]. *)
Fixpoint param_loop (fuel : nat) (assign_expr : F node_ptr) (assign : nat) (token : finsh_token_type) : F unit :=
  if decide (token = T_comma) then
    match fuel with
    | O => fail OutOfFuel
    | S fuel =>
        next ← assign_expr;
        upd_node assign (with_sibling next);;
        last ← match next with
               | Some n => mret n
               | None => finsh_error_set FINSH_ERROR_EXPECT_OPERATOR;; mret assign
               end;
        token ← next_token;
        param_loop fuel assign_expr last token
    end
  else finsh_token_replay.

Definition proc_param_list (fuel : nat) (assign_expr : F node_ptr) : F node_ptr :=
  assign ← assign_expr;
  match assign with
  | None => mret None
  | Some a =>
      token ← next_token;
      param_loop fuel assign_expr a token;;
      mret assign
  end.

(** The loop of [proc_postfix_expr]. *)
Fixpoint postfix_loop (fuel : nat) (expr : F node_ptr) (postfix : node_ptr) (token : finsh_token_type) : F node_ptr :=
  match token with
  | T_inc | T_dec | T_left_paren =>
      match fuel with
      | O => fail OutOfFuel
      | S fuel =>
          postfix ← match token with
                    | T_inc => make_sys_node FINSH_NODE_SYS_INC postfix None
                    | T_dec => make_sys_node FINSH_NODE_SYS_DEC postfix None
                    | _ =>
                        token ← next_token;
                        param_list ← (if decide (token = T_right_paren) then mret None
                                      else
                                        finsh_token_replay;;
                                        l ← proc_param_list fuel expr;
                                        match_token T_right_paren;;
                                        mret l);
                        make_sys_node FINSH_NODE_SYS_FUNC postfix param_list
                    end;
          token ← next_token;
          postfix_loop fuel expr postfix token
      end
  | _ => finsh_token_replay;; mret postfix
  end.

Definition proc_postfix_expr (fuel : nat) (expr : F node_ptr) : F node_ptr :=
  postfix ← proc_primary_expr expr;
  token ← next_token;
  postfix_loop fuel expr postfix token.

Definition proc_unary_expr (fuel : nat) (cast expr : F node_ptr) : F node_ptr :=
  token ← next_token;
  match token with
  | T_add => cast
  | T_inc => c ← cast; make_sys_node FINSH_NODE_SYS_PREINC c None
  | T_sub => c ← cast; zero ← finsh_node_new_long 0; make_sys_node FINSH_NODE_SYS_SUB zero c
  | T_dec => c ← cast; make_sys_node FINSH_NODE_SYS_PREDEC c None
  | T_bitwise => c ← cast; make_sys_node FINSH_NODE_SYS_BITWISE c None
  | T_mul => c ← cast; make_sys_node FINSH_NODE_SYS_GETVALUE c None
  | T_and => c ← cast; make_sys_node FINSH_NODE_SYS_GETADDR c None
  | _ => finsh_token_replay;; proc_postfix_expr fuel expr
  end.

(** The loop the binary levels share: [ops] gives the node of an operator. *)
Fixpoint binary_loop (fuel : nat) (ops : finsh_token_type -> option Z) (sub : F node_ptr) (node : node_ptr)
    (token : finsh_token_type) : F node_ptr :=
  match ops token with
  | Some type =>
      match fuel with
      | O => fail OutOfFuel
      | S fuel =>
          new ← sub;
          node ← match new with
                 | None => finsh_error_set FINSH_ERROR_EXPECT_OPERATOR;; mret node
                 | Some _ => make_sys_node type node new
                 end;
          token ← next_token;
          binary_loop fuel ops sub node token
      end
  | None => finsh_token_replay;; mret node
  end.
Definition binary_expr (fuel : nat) (ops : finsh_token_type -> option Z) (sub : F node_ptr) : F node_ptr :=
  node ← sub;
  token ← next_token;
  binary_loop fuel ops sub node token.

Definition mul_ops (token : finsh_token_type) : option Z :=
  match token with
  | T_mul => Some FINSH_NODE_SYS_MUL
  | T_div => Some FINSH_NODE_SYS_DIV
  | T_mod => Some FINSH_NODE_SYS_MOD
  | _ => None
  end.
Definition add_ops (token : finsh_token_type) : option Z :=
  match token with T_sub => Some FINSH_NODE_SYS_SUB | T_add => Some FINSH_NODE_SYS_ADD | _ => None end.
Definition shift_ops (token : finsh_token_type) : option Z :=
  match token with T_shl => Some FINSH_NODE_SYS_SHL | T_shr => Some FINSH_NODE_SYS_SHR | _ => None end.
Definition and_ops (token : finsh_token_type) : option Z :=
  match token with T_and => Some FINSH_NODE_SYS_AND | _ => None end.
Definition xor_ops (token : finsh_token_type) : option Z :=
  match token with T_xor => Some FINSH_NODE_SYS_XOR | _ => None end.
Definition or_ops (token : finsh_token_type) : option Z :=
  match token with T_or => Some FINSH_NODE_SYS_OR | _ => None end.

Definition proc_multiplicative_expr (fuel : nat) (cast : F node_ptr) : F node_ptr := binary_expr fuel mul_ops cast.
Definition proc_additive_expr (fuel : nat) (cast : F node_ptr) : F node_ptr :=
  binary_expr fuel add_ops (proc_multiplicative_expr fuel cast).
Definition proc_shift_expr (fuel : nat) (cast : F node_ptr) : F node_ptr :=
  binary_expr fuel shift_ops (proc_additive_expr fuel cast).
Definition proc_and_expr (fuel : nat) (cast : F node_ptr) : F node_ptr :=
  binary_expr fuel and_ops (proc_shift_expr fuel cast).
Definition proc_exclusive_or_expr (fuel : nat) (cast : F node_ptr) : F node_ptr :=
  binary_expr fuel xor_ops (proc_and_expr fuel cast).
Definition proc_inclusive_or_expr (fuel : nat) (cast : F node_ptr) : F node_ptr :=
  binary_expr fuel or_ops (proc_exclusive_or_expr fuel cast).

Fixpoint proc_assign_expr (fuel : nat) : F node_ptr :=
  match fuel with
  | O => fail OutOfFuel
  | S fuel =>
      or ← proc_inclusive_or_expr fuel (proc_cast_expr fuel);
      token ← next_token;
      if decide (token = T_assign) then
        assign ← proc_assign_expr fuel;
        make_sys_node FINSH_NODE_SYS_ASSIGN or assign
      else finsh_token_replay;; mret or
  end
with proc_cast_expr (fuel : nat) : F node_ptr :=
  match fuel with
  | O => fail OutOfFuel
  | S fuel =>
      token ← next_token;
      cast ← (if decide (token = T_left_paren) then
                type ← proc_type;
                match_token T_right_paren;;
                cast ← proc_cast_expr fuel;
                match cast with
                | Some c => upd_node c (with_data (type_code type));; mret cast
                | None => mret None
                end
              else mret None);
      match cast with
      | Some c => mret (Some c)
      | None => finsh_token_replay;; proc_unary_expr fuel (proc_cast_expr fuel) (proc_assign_expr fuel)
      end
  end.

Definition proc_expr (fuel : nat) : F node_ptr := proc_assign_expr fuel.

Definition proc_expr_statement (fuel : nat) : F node_ptr :=
  token ← next_token;
  if decide (token = T_semicolon) then mret None
  else
    finsh_token_replay;;
    expr ← proc_expr fuel;
    match_token T_semicolon;;
    mret expr.

(** ** Declarations *)

Definition declare (type : finsh_type) : F (list Z) :=
  id ← proc_identifier;
  r ← finsh_var_insert id type;
  when (r <? 0) (finsh_error_set FINSH_ERROR_VARIABLE_EXIST);;
  mret id.

(** An initialiser, whose node goes behind [end]; returns the first and the
    last node, and the token behind. *)
Definition initialise (fuel : nat) (id : list Z) (node last : node_ptr) (token : finsh_token_type) :
    F (node_ptr * node_ptr * finsh_token_type) :=
  assign ← proc_assign_expr fuel;
  match assign with
  | None => mret (node, last, token)
  | Some _ =>
      idnode ← finsh_node_new_id id;
      new ← make_sys_node FINSH_NODE_SYS_ASSIGN idnode assign;
      when (bool_decide (is_Some node)) (set_sibling last new);;
      token ← next_token;
      mret (match node with Some _ => node | None => new end, new, token)
  end.

(** The declarators behind a comma. *)
Fixpoint declarators (fuel : nat) (type : finsh_type) (node last : node_ptr) (token : finsh_token_type) : F node_ptr :=
  if decide (token = T_comma) then
    match fuel with
    | O => fail OutOfFuel
    | S fuel =>
        id ← declare type;
        token ← next_token;
        r ← (if decide (token = T_assign) then initialise fuel id node last token else mret (node, last, token));
        declarators fuel type r.1.1 r.1.2 r.2
    end
  else check_token token T_semicolon;; mret node.

Definition proc_variable_decl (fuel : nat) : F node_ptr :=
  type ← proc_type;
  id ← declare type;
  token ← next_token;
  match token with
  | T_comma => declarators fuel type None None token
  | T_assign => r ← initialise fuel id None None token; declarators fuel type r.1.1 r.1.2 r.2
  | T_semicolon => mret None
  | _ => finsh_error_set FINSH_ERROR_EXPECT_TYPE;; mret None
  end.

(** ** Lines *)

(** The statement that starts with [token] is linked behind [node]. *)
Definition link_statement (stmt : F node_ptr) (node : node_ptr) : F (node_ptr * bool) :=
  root ← gets f_root;
  match root with
  | Some _ =>
      match node with
      | None => fail BadPtr
      | Some _ =>
          new ← stmt;
          set_sibling node new;;
          mret (match new with Some _ => (new, true) | None => (node, false) end)
      end
  | None =>
      new ← stmt;
      modify (fun s => {| s with f_root := new |});;
      mret (new, true)
  end.

Fixpoint parse_loop (fuel : nat) (node : node_ptr) (token : finsh_token_type) : F unit :=
  match token with
  | T_eof | T_bad => mret tt
  | _ =>
      match fuel with
      | O => fail OutOfFuel
      | S fuel =>
          finsh_token_replay;;
          r ← link_statement (if is_base_type token || bool_decide (token = T_unsigned)
                              then proc_variable_decl fuel else proc_expr_statement fuel) node;
          when (negb r.2 && negb (is_base_type token || bool_decide (token = T_unsigned) || bool_decide (token = T_identifier)))
            (next_token;; mret tt);;
          root ← gets f_root;
          match root with
          | None => mret tt
          | Some _ => token ← next_token; parse_loop fuel r.1 token
          end
      end
  end.

(** The fuel: every loop and every recursion moves on by a token. *)
Definition parse_fuel (line : list Z) : nat := 8 * (length line + 2).

Definition finsh_parser_run (line : list Z) : F unit :=
  finsh_token_init line;;
  token ← next_token;
  parse_loop (parse_fuel line) None token.

Definition finsh_parser_init : F unit :=
  modify (fun s => {| s with f_token := token_zero []; f_root := None |}).

End Parser.
