(* ===== verification/FinshCompiler.v ===== *)
(** * The compiler of the shell (components/finsh/finsh_compiler.c)

    The type check marks the nodes whose address is needed and gives each
    node the width of its value; the compiler then writes the byte code of the
    tree to the text segment, children before their parent.  The recursion
    over the node table takes fuel. *)

From S2P Require Import Prelude FinshVm FinshData FinshHeap FinshNode.

(** ** Code *)

Definition write_text (i v : Z) : F unit :=
  on_vm (get_text i;; modify (fun s => {| s with vm_text := <[Z.to_nat i := u8 v]> (vm_text s) |})).

Definition set_compile_pc (n : Z) : F unit := modify (fun s => {| s with f_compile_pc := n |}).

(** [FINSH_SET16] and [FINSH_SET32] *)
Definition FINSH_SET16 (p v : Z) : F unit :=
  write_text p (Z.land v 0xff);; write_text (p + 1) (Z.shiftr v 8).
Definition FINSH_SET32 (p v : Z) : F unit :=
  write_text p (Z.land (u32 v) 0xff);;
  write_text (p + 1) (Z.land (Z.shiftr (u32 v) 8) 0xff);;
  write_text (p + 2) (Z.land (Z.shiftr (u32 v) 16) 0xff);;
  write_text (p + 3) (Z.shiftr (u32 v) 24).

Definition finsh_code_byte (x : Z) : F unit :=
  pc ← gets f_compile_pc; write_text pc x;; set_compile_pc (pc + 1).
Definition finsh_code_word (x : Z) : F unit :=
  pc ← gets f_compile_pc; FINSH_SET16 pc x;; set_compile_pc (pc + 2).
Definition finsh_code_dword (x : Z) : F unit :=
  pc ← gets f_compile_pc; FINSH_SET32 pc x;; set_compile_pc (pc + 4).

(** The constant 1 in the given width. *)
Definition code_one (w : width) : F unit :=
  finsh_code_byte (FINSH_OP_LD w);;
  match w with
  | WByte => finsh_code_byte 1
  | WWord => finsh_code_word 1
  | WDword => finsh_code_dword 1
  end.

(** ** Compiling a node *)

(** The width the compiler knows for a type. *)
Definition type_width (t : finsh_type) : option width :=
  match t with
  | finsh_type_char | finsh_type_uchar => Some WByte
  | finsh_type_short | finsh_type_ushort => Some WWord
  | finsh_type_int | finsh_type_uint | finsh_type_long | finsh_type_ulong
  | finsh_type_charp | finsh_type_shortp | finsh_type_intp | finsh_type_longp => Some WDword
  | _ => None
  end.

Definition data_width (data_type : Z) : option width :=
  if data_type =? FINSH_DATA_TYPE_BYTE then Some WByte
  else if data_type =? FINSH_DATA_TYPE_WORD then Some WWord
  else if data_type =? FINSH_DATA_TYPE_DWORD then Some WDword
  else None.

(** The address or the value of a variable. *)
Definition code_variable (idtype : Z) (type : finsh_type) (addr : Z) : F unit :=
  match type_width type with
  | Some w =>
      finsh_code_byte (if truthy (Z.land idtype FINSH_IDTYPE_ADDRESS) then FINSH_OP_LD WDword else FINSH_OP_LD_VALUE w);;
      finsh_code_dword addr
  | None => mret tt
  end.

(** Code in the width of [data_type]; nothing for another data type. *)
Definition code_sized (data_type : Z) (op : width -> Z) : F unit :=
  match data_width data_type with
  | Some w => finsh_code_byte (op w)
  | None => mret tt
  end.

Definition binary_code (node_type : Z) : option (width -> Z) :=
  if node_type =? FINSH_NODE_SYS_ADD then Some FINSH_OP_ADD
  else if node_type =? FINSH_NODE_SYS_SUB then Some FINSH_OP_SUB
  else if node_type =? FINSH_NODE_SYS_MUL then Some FINSH_OP_MUL
  else if node_type =? FINSH_NODE_SYS_DIV then Some FINSH_OP_DIV
  else if node_type =? FINSH_NODE_SYS_MOD then Some FINSH_OP_MOD
  else if node_type =? FINSH_NODE_SYS_AND then Some FINSH_OP_AND
  else if node_type =? FINSH_NODE_SYS_OR then Some FINSH_OP_OR
  else if node_type =? FINSH_NODE_SYS_XOR then Some FINSH_OP_XOR
  else if node_type =? FINSH_NODE_SYS_BITWISE then Some FINSH_OP_BITWISE
  else if node_type =? FINSH_NODE_SYS_SHL then Some FINSH_OP_SHL
  else if node_type =? FINSH_NODE_SYS_SHR then Some FINSH_OP_SHR
  else None.

Section Compiler.
Context {FE : FinshEnv}.

Definition code_id (n : finsh_node) : F unit :=
  s ← getS;
  if truthy (Z.land (n_idtype n) FINSH_IDTYPE_SYSCALL) then
    c ← of_option BadPtr (syscall_at (n_id n) s);
    finsh_code_byte (FINSH_OP_LD WDword);;
    finsh_code_dword (sc_func c)
  else if truthy (Z.land (n_idtype n) FINSH_IDTYPE_SYSVAR) then
    v ← of_option BadPtr (sysvar_at (n_id n) s);
    code_variable (n_idtype n) (sv_type v) (sv_var v)
  else
    v ← of_option BadPtr (var_at (n_id n) (f_vars s));
    code_variable (n_idtype n) (fv_type v) (value_addr (n_id n)).

Definition child_of (n : finsh_node) : F (option finsh_node) :=
  match n_child n with
  | Some i => c ← get_node i; mret (Some c)
  | None => mret None
  end.

(** The node of a variable under an increment or decrement. *)
Definition id_child (n : finsh_node) : F (option finsh_node) :=
  c ← child_of n;
  mret (match c with
        | Some c => if n_type c =? FINSH_NODE_ID then Some c else None
        | None => None
        end).

Definition code_store (data_type : Z) : F unit :=
  match data_width data_type with
  | Some w => finsh_code_byte (FINSH_OP_ST w);; finsh_code_byte (FINSH_OP_LD_VALUE_STACK w)
  | None => finsh_error_set FINSH_ERROR_UNKNOWN_TYPE
  end.

Definition code_assign (n : finsh_node) : F unit :=
  c ← child_of n;
  match c with
  | None => fail BadPtr
  | Some c =>
      if n_type c =? FINSH_NODE_ID then code_store (n_data c)
      else if n_type c =? FINSH_NODE_SYS_GETVALUE then code_store (Z.land (n_data c) 0x0F)
      else mret tt
  end.

(** Pre-increment and pre-decrement; the address is on the stack already. *)
Definition code_pre (op : width -> Z) (n : finsh_node) : F unit :=
  c ← id_child n;
  match c, data_width (n_data n) with
  | Some c, Some w =>
      finsh_code_byte (FINSH_OP_LD_VALUE w);;
      finsh_code_dword (value_addr (n_id c));;
      code_one w;;
      finsh_code_byte (op w);;
      finsh_code_byte (FINSH_OP_ST w);;
      finsh_code_byte (FINSH_OP_LD_VALUE_STACK WDword)
  | _, _ => mret tt
  end.

(** Increment and decrement; the value is on the stack already. *)
Definition code_post (op : width -> Z) (n : finsh_node) : F unit :=
  c ← id_child n;
  match c, data_width (n_data n) with
  | Some c, Some w =>
      finsh_code_byte (FINSH_OP_LD WDword);;
      finsh_code_dword (value_addr (n_id c));;
      finsh_code_byte (FINSH_OP_LD_VALUE w);;
      finsh_code_dword (value_addr (n_id c));;
      code_one w;;
      finsh_code_byte (op w);;
      finsh_code_byte (FINSH_OP_ST w);;
      finsh_code_byte FINSH_OP_POP
  | _, _ => mret tt
  end.

(** The number of nodes from [p] on. *)
Fixpoint siblings (fuel : nat) (p : option nat) : F Z :=
  match p with
  | None => mret 0
  | Some i =>
      match fuel with
      | O => fail OutOfFuel
      | S fuel => n ← get_node i; k ← siblings fuel (n_sibling n); mret (k + 1)
      end
  end.

Definition code_call (n : finsh_node) : F unit :=
  c ← child_of n;
  match c with
  | None => mret tt
  | Some c =>
      parameters ← siblings FINSH_NODE_MAX (n_sibling c);
      finsh_code_byte FINSH_OP_SYSCALL;;
      finsh_code_byte parameters
  end.

Definition code_getvalue (n : finsh_node) : F unit :=
  if truthy (Z.land (n_idtype n) FINSH_IDTYPE_ADDRESS) then mret tt
  else code_sized (n_data n) FINSH_OP_LD_VALUE_STACK.

(** The current node, after its children. *)
Definition code_node (n : finsh_node) : F unit :=
  let t := n_type n in
  if t =? FINSH_NODE_ID then code_id n
  else if t =? FINSH_NODE_VALUE_CHAR then finsh_code_byte (FINSH_OP_LD WByte);; finsh_code_byte (n_value n)
  else if (t =? FINSH_NODE_VALUE_INT) || (t =? FINSH_NODE_VALUE_LONG) ||
          (t =? FINSH_NODE_VALUE_NULL) || (t =? FINSH_NODE_VALUE_STRING) then
    finsh_code_byte (FINSH_OP_LD WDword);; finsh_code_dword (n_value n)
  else match binary_code t with
  | Some op => code_sized (n_data n) op
  | None =>
      if t =? FINSH_NODE_SYS_FUNC then code_call n
      else if t =? FINSH_NODE_SYS_ASSIGN then code_assign n
      else if t =? FINSH_NODE_SYS_PREINC then code_pre FINSH_OP_ADD n
      else if t =? FINSH_NODE_SYS_PREDEC then code_pre FINSH_OP_SUB n
      else if t =? FINSH_NODE_SYS_INC then code_post FINSH_OP_ADD n
      else if t =? FINSH_NODE_SYS_DEC then code_post FINSH_OP_SUB n
      else if t =? FINSH_NODE_SYS_NULL then finsh_code_dword 0
      else if t =? FINSH_NODE_SYS_GETVALUE then code_getvalue n
      else if t =? FINSH_NODE_SYS_GETADDR then mret tt
      else finsh_error_set FINSH_ERROR_UNKNOWN_NODE
  end.

Fixpoint finsh_compile (fuel : nat) (node : option nat) : F unit :=
  match node with
  | None => mret tt
  | Some i =>
      match fuel with
      | O => fail OutOfFuel
      | S fuel =>
          n ← get_node i;
          finsh_compile fuel (n_child n);;
          code_node n;;
          finsh_compile fuel (n_sibling n)
      end
  end.

(** ** Type check *)

(** The data type of a variable; [None] is an unknown type. *)
Definition type_data (t : finsh_type) : option Z :=
  match t with
  | finsh_type_void => Some FINSH_DATA_TYPE_VOID
  | finsh_type_char | finsh_type_uchar => Some FINSH_DATA_TYPE_BYTE
  | finsh_type_short | finsh_type_ushort => Some FINSH_DATA_TYPE_WORD
  | finsh_type_int | finsh_type_uint | finsh_type_long | finsh_type_ulong
  | finsh_type_charp | finsh_type_voidp | finsh_type_shortp | finsh_type_intp | finsh_type_longp =>
      Some FINSH_DATA_TYPE_DWORD
  | finsh_type_unknown => None
  end.

Definition set_type_data (i : nat) (t : finsh_type) : F unit :=
  match type_data t with
  | Some d => upd_node i (with_data d)
  | None => finsh_error_set FINSH_ERROR_UNKNOWN_TYPE
  end.

(** The data type of a node without children. *)
Definition check_leaf (i : nat) (n : finsh_node) : F unit :=
  s ← getS;
  let t := n_type n in
  if t =? FINSH_NODE_ID then
    if truthy (Z.land (n_idtype n) FINSH_IDTYPE_VAR) then
      v ← of_option BadPtr (var_at (n_id n) (f_vars s)); set_type_data i (fv_type v)
    else if truthy (Z.land (n_idtype n) FINSH_IDTYPE_SYSVAR) then
      v ← of_option BadPtr (sysvar_at (n_id n) s); set_type_data i (sv_type v)
    else mret tt
  else if t =? FINSH_NODE_VALUE_CHAR then upd_node i (with_data FINSH_DATA_TYPE_BYTE)
  else if (t =? FINSH_NODE_VALUE_INT) || (t =? FINSH_NODE_VALUE_LONG) ||
          (t =? FINSH_NODE_VALUE_STRING) || (t =? FINSH_NODE_VALUE_NULL) then
    upd_node i (with_data FINSH_DATA_TYPE_DWORD)
  else mret tt.

(** Is the child of the node used as an address? *)
Definition child_mode (t is_addr : Z) : Z :=
  if (t =? FINSH_NODE_SYS_ASSIGN) || (t =? FINSH_NODE_SYS_PREINC) ||
     (t =? FINSH_NODE_SYS_PREDEC) || (t =? FINSH_NODE_SYS_GETADDR) then FINSH_IDTYPE_ADDRESS
  else if (t =? FINSH_NODE_SYS_GETVALUE) && truthy is_addr then 0
  else is_addr.

Fixpoint finsh_type_check (fuel : nat) (node : option nat) (is_addr : Z) : F unit :=
  match node with
  | None => mret tt
  | Some i =>
      match fuel with
      | O => fail OutOfFuel
      | S fuel =>
          n ← get_node i;
          finsh_type_check fuel (n_child n) (child_mode (n_type n) is_addr);;
          finsh_type_check fuel (n_sibling n) FINSH_NODE_VALUE;;
          when (negb (n_idtype n =? FINSH_IDTYPE_SYSCALL)) (upd_node i (with_idtype (Z.lor (n_idtype n) is_addr)));;
          n ← get_node i;
          match n_child n with
          | Some c => cn ← get_node c; upd_node i (with_data (n_data cn))
          | None => check_leaf i n
          end
      end
  end.

(** ** A list of statements *)

Fixpoint compile_statements (fuel : nat) (node : option nat) : F unit :=
  match node with
  | None => mret tt
  | Some i =>
      match fuel with
      | O => fail OutOfFuel
      | S fuel =>
          n ← get_node i;
          upd_node i (with_sibling None);;
          finsh_compile FINSH_NODE_MAX node;;
          when (bool_decide (is_Some (n_sibling n))) (finsh_code_byte FINSH_OP_POP);;
          compile_statements fuel (n_sibling n)
      end
  end.

Definition finsh_compiler_run (node : option nat) : F unit :=
  finsh_type_check FINSH_NODE_MAX node FINSH_NODE_VALUE;;
  modify (fun s => {| s with f_vm := let v := f_vm s in
    {| v with vm_text := replicate (Z.to_nat FINSH_TEXT_MAX) 0; vm_stack := <[0%nat := 0]> (vm_stack v) |} |});;
  set_compile_pc 0;;
  compile_statements FINSH_NODE_MAX node.

End Compiler.
