(* ===== verification/FinshShell.v ===== *)
(** * Running a line (components/finsh/finsh_init.c, shell.c) *)

From S2P Require Import Prelude KString FinshVm FinshData FinshHeap FinshNode FinshToken FinshParser FinshCompiler.

Section Shell.
Context {FE : FinshEnv} {CS : CharSign}.
Variable call : Z -> list Z -> fmem -> option (Z * fmem).

Definition finsh_init : F unit :=
  finsh_parser_init;; finsh_node_init;; finsh_var_init;; finsh_error_init;; finsh_heap_init.

Definition finsh_flush : F unit :=
  finsh_parser_init;; finsh_node_init;; finsh_error_init.

Definition finsh_reset : F unit :=
  finsh_node_init;; finsh_var_init;; finsh_error_init;; finsh_heap_init.

(** What [finsh_run_line] prints: an error number, or the bottom of the
    stack. *)
Inductive line_result := LineError (errno : Z) | LineValue (v : Z).

Definition finsh_run_line (line : list Z) : F (option line_result) :=
  finsh_parser_run line;;
  errno ← finsh_errno;
  (if errno =? 0 then root ← gets f_root; finsh_compiler_run root else mret tt);;
  late ← finsh_errno;
  result ← (if late =? 0 then
              on_vm (finsh_vm_run call);;
              v ← on_vm finsh_stack_bottom;
              mret (Some (LineValue v))
            else mret (if errno =? 0 then None else Some (LineError errno)));
  finsh_flush;;
  mret result.

End Shell.
