(* ===== verification/FinshTree.v ===== *)
(** * Syntax trees in the node table

    A chain of nodes with their children is a [forest], in the shape the node
    table has it: first child and next sibling.  [rep] relates a pointer into
    the table to the forest it stands for.  On forests the type check and the
    compiler are pure functions, [check] and [gen]; the functions on the table
    carry them out. *)

From S2P Require Import Prelude FinshVm FinshData FinshHeap FinshNode FinshCompiler.

(** ** Forests *)

Record ndata := ND { d_type : Z; d_data : Z; d_idtype : Z; d_value : Z; d_id : Z }.

Inductive forest := FNil | FCons (d : ndata) (kids rest : forest).

Definition data_of (n : finsh_node) : ndata := ND (n_type n) (n_data n) (n_idtype n) (n_value n) (n_id n).

Fixpoint rep (l : list finsh_node) (p : option nat) (f : forest) (D : gset nat) : Prop :=
  match f with
  | FNil => p = None /\ D = ∅
  | FCons d kids rest => exists i n D1 D2, p = Some i /\ l !! i = Some n /\ data_of n = d /\
      rep l (n_child n) kids D1 /\ rep l (n_sibling n) rest D2 /\
      D = {[i]} ∪ D1 ∪ D2 /\ (i ∉ D1) /\ (i ∉ D2) /\ D1 ## D2
  end.

Fixpoint height (f : forest) : nat :=
  match f with FNil => O | FCons _ kids rest => S (Nat.max (height kids) (height rest)) end.
Fixpoint fsize (f : forest) : nat :=
  match f with FNil => O | FCons _ kids rest => S (fsize kids + fsize rest) end.

Lemma height_size f : (height f <= fsize f)%nat.
Proof. induction f as [|d kids IH1 rest IH2]; cbn; lia. Qed.

Lemma rep_size l p f D : rep l p f D -> size D = fsize f.
Proof.
  revert p D. induction f as [|d kids IH1 rest IH2]; intros p D; cbn.
  - intros [_ ->]. apply size_empty.
  - intros (i & n & D1 & D2 & _ & _ & _ & H1 & H2 & -> & N1 & N2 & N3).
    rewrite !size_union by set_solver. rewrite size_singleton, (IH1 _ _ H1), (IH2 _ _ H2). lia.
Qed.

Lemma rep_bound l p f D i : rep l p f D -> i ∈ D -> (i < length l)%nat.
Proof.
  revert p D. induction f as [|d kids IH1 rest IH2]; intros p D; cbn.
  - intros [_ ->] H. set_solver.
  - intros (j & n & D1 & D2 & _ & Hj & _ & H1 & H2 & -> & _) Hi.
    apply elem_of_union in Hi as [[->%elem_of_singleton|Hi]%elem_of_union|Hi]; [by eapply lookup_lt_Some|eauto|eauto].
Qed.

(** A forest of a table is no higher than the table is long. *)
Lemma rep_height l p f D : rep l p f D -> (height f <= length l)%nat.
Proof.
  intros H. etransitivity; [apply height_size|]. rewrite <- (rep_size _ _ _ _ H).
  assert (E : size (list_to_set (seq 0 (length l)) : gset nat) = length l).
  { rewrite size_list_to_set by apply NoDup_seq. apply length_seq. }
  rewrite <- E. apply subseteq_size. intros i Hi. apply elem_of_list_to_set, elem_of_seq. pose proof (rep_bound _ _ _ _ _ H Hi). lia.
Qed.

(** The forest depends on its own nodes only. *)
Lemma rep_frame l l' p f D : rep l p f D -> (forall i, i ∈ D -> l' !! i = l !! i) -> rep l' p f D.
Proof.
  revert p D. induction f as [|d kids IH1 rest IH2]; intros p D; cbn; [done|].
  intros (i & n & D1 & D2 & -> & Hi & Hd & H1 & H2 & -> & N1 & N2 & N3) Hl.
  exists i, n, D1, D2. rewrite Hl by set_solver. split; [done|]. split; [done|]. split; [done|].
  split; [apply IH1; [done|]; intros j Hj; apply Hl; set_solver|].
  split; [apply IH2; [done|]; intros j Hj; apply Hl; set_solver|done].
Qed.

(** ** The node operations *)

Definition put_nodes (l : list finsh_node) (s : finsh) : finsh := {| s with f_nodes := l |}.

Lemma put_nodes_id s : put_nodes (f_nodes s) s = s.
Proof. by destruct s. Qed.

Lemma get_node_run i n (s : finsh) : f_nodes s !! i = Some n -> get_node i s = Ok n s.
Proof. intros H. unfold get_node. rewrite bind_gets. by rewrite H. Qed.

Lemma upd_node_run i n (g : finsh_node -> finsh_node) (s : finsh) : f_nodes s !! i = Some n ->
  upd_node i g s = Ok tt (put_nodes (<[i := g n]> (f_nodes s)) s).
Proof. intros H. unfold upd_node. by rewrite (bind_ok _ _ _ _ _ (get_node_run i n s H)). Qed.

Section Tree.
Context {FE : FinshEnv}.

(** ** The type check on forests *)

(** The data type of a leaf; [None] where the type check reports an error. *)
Definition leaf_data (s : finsh) (d : ndata) : option Z :=
  let t := d_type d in
  if t =? FINSH_NODE_ID then
    if truthy (Z.land (d_idtype d) FINSH_IDTYPE_VAR) then v ← var_at (d_id d) (f_vars s); type_data (fv_type v)
    else if truthy (Z.land (d_idtype d) FINSH_IDTYPE_SYSVAR) then v ← sysvar_at (d_id d) s; type_data (sv_type v)
    else Some (d_data d)
  else if t =? FINSH_NODE_VALUE_CHAR then Some FINSH_DATA_TYPE_BYTE
  else if (t =? FINSH_NODE_VALUE_INT) || (t =? FINSH_NODE_VALUE_LONG) ||
          (t =? FINSH_NODE_VALUE_STRING) || (t =? FINSH_NODE_VALUE_NULL) then Some FINSH_DATA_TYPE_DWORD
  else Some (d_data d).

Definition address_mark (idtype is_addr : Z) : Z :=
  if idtype =? FINSH_IDTYPE_SYSCALL then idtype else Z.lor idtype is_addr.
Definition mark (is_addr : Z) (d : ndata) : ndata :=
  {| d with d_idtype := address_mark (d_idtype d) is_addr |}.
Definition typed (is_addr data : Z) (d : ndata) : ndata :=
  {| d with d_idtype := address_mark (d_idtype d) is_addr; d_data := data |}.

Fixpoint check (s : finsh) (is_addr : Z) (f : forest) : option forest :=
  match f with
  | FNil => Some FNil
  | FCons d kids rest =>
      kids ← check s (child_mode (d_type d) is_addr) kids;
      rest ← check s FINSH_NODE_VALUE rest;
      data ← match kids with
             | FCons c _ _ => Some (d_data c)
             | FNil => leaf_data s (mark is_addr d)
             end;
      Some (FCons (typed is_addr data d) kids rest)
  end.

Lemma check_leaf_run (s : finsh) i n x : f_nodes s !! i = Some n -> leaf_data s (data_of n) = Some x ->
  check_leaf i n s = Ok tt (put_nodes (<[i := with_data x n]> (f_nodes s)) s).
Proof.
  intros Hi Hx. unfold check_leaf. rewrite bind_getS. unfold leaf_data in Hx. cbn [d_type d_idtype d_id data_of d_data] in Hx.
  assert (Hsame : x = n_data n -> Ok tt s = Ok tt (put_nodes (<[i := with_data x n]> (f_nodes s)) s)).
  { intros ->. f_equal. replace (with_data (n_data n) n) with n by by destruct n. rewrite list_insert_id by done. by rewrite put_nodes_id. }
  destruct (n_type n =? FINSH_NODE_ID).
  - destruct (truthy (Z.land (n_idtype n) FINSH_IDTYPE_VAR)).
    + destruct (var_at _ _) as [v|]; [|done]. cbn in Hx. unfold set_type_data. cbn [of_option]. rewrite bind_mret, Hx. by apply upd_node_run.
    + destruct (truthy _); [|injection Hx as <-; by apply Hsame].
      destruct (sysvar_at _ _) as [v|]; [|done]. cbn in Hx. unfold set_type_data. cbn [of_option]. rewrite bind_mret, Hx. by apply upd_node_run.
  - destruct (n_type n =? FINSH_NODE_VALUE_CHAR); [injection Hx as <-; by apply upd_node_run|].
    destruct (_ || _); injection Hx as <-; [by apply upd_node_run|by apply Hsame].
Qed.

(** The state a pass over the nodes [D] ends in. *)
Definition rewritten (s : finsh) (D : gset nat) (l : list finsh_node) : Prop :=
  length l = length (f_nodes s) /\ forall i, i ∉ D -> l !! i = f_nodes s !! i.

Lemma leaf_put_nodes s l d : leaf_data (put_nodes l s) d = leaf_data s d.
Proof. done. Qed.
Lemma check_put_nodes s l m f : check (put_nodes l s) m f = check s m f.
Proof.
  revert m. induction f as [|d kids IH1 rest IH2]; intros m; cbn; [done|]. rewrite IH1, IH2. done.
Qed.

(** Marking a node. *)
Lemma mark_run (s : finsh) i n (m : Z) : f_nodes s !! i = Some n ->
  exists n', when (negb (n_idtype n =? FINSH_IDTYPE_SYSCALL)) (upd_node i (with_idtype (Z.lor (n_idtype n) m))) s
    = Ok tt (put_nodes (<[i := n']> (f_nodes s)) s) /\
    data_of n' = mark m (data_of n) /\ n_child n' = n_child n /\ n_sibling n' = n_sibling n.
Proof.
  intros Hi. unfold mark, address_mark. destruct n as [t d it v id sb ch]. cbn in *. destruct (it =? FINSH_IDTYPE_SYSCALL); cbn.
  - exists (mk_node t d it v id sb ch). split; [|done]. rewrite list_insert_id by done. by rewrite put_nodes_id.
  - exists (mk_node t d (Z.lor it m) v id sb ch). split; [by rewrite (upd_node_run _ _ _ _ Hi)|done].
Qed.

Lemma typed_data m x n n' : data_of n' = mark m (data_of n) -> data_of (with_data x n') = typed m x (data_of n).
Proof. destruct n, n'. cbn. unfold mark, typed, data_of. cbn. by intros [= -> -> -> -> ->]. Qed.

Lemma type_check_rep f : forall fuel (s : finsh) p m f' D, rep (f_nodes s) p f D -> check s m f = Some f' -> (height f <= fuel)%nat ->
  exists l, finsh_type_check fuel p m s = Ok tt (put_nodes l s) /\ rep l p f' D /\ rewritten s D l.
Proof.
  induction f as [|d kids IH1 rest IH2]; intros fuel s p m f' D Hr Hc Hh.
  - destruct Hr as [-> ->]. injection Hc as <-. exists (f_nodes s). destruct fuel; cbn; rewrite put_nodes_id; done.
  - destruct Hr as (i & n & D1 & D2 & -> & Hi & <- & H1 & H2 & -> & N1 & N2 & N3). cbn in Hc.
    destruct (check s _ kids) as [kids'|] eqn:E1; [|done]. cbn in Hc.
    destruct (check s _ rest) as [rest'|] eqn:E2; [|done]. cbn in Hc.
    destruct fuel as [|fuel]; cbn in Hh; [lia|]. cbn [finsh_type_check].
    rewrite (bind_ok _ _ _ _ _ (get_node_run i n s Hi)).
    destruct (IH1 fuel s _ _ _ _ H1 E1) as (l1 & R1 & P1 & [L1 O1]); [lia|]. rewrite (bind_ok _ _ _ _ _ R1).
    assert (H2' : rep l1 (n_sibling n) rest D2) by (eapply rep_frame; [exact H2|]; intros j Hj; apply O1; set_solver).
    destruct (IH2 fuel (put_nodes l1 s) _ FINSH_NODE_VALUE rest' _ H2') as (l2 & R2 & P2 & [L2 O2]);
      [by rewrite check_put_nodes|lia|]. rewrite (bind_ok _ _ _ _ _ R2). cbn [f_nodes put_nodes] in L2, O2.
    assert (Hi2 : l2 !! i = Some n) by by rewrite O2, O1.
    destruct (mark_run (put_nodes l2 s) i n m Hi2) as (n' & R3 & Hd & Hch & Hsb).
    rewrite (bind_ok _ _ _ _ _ R3). cbn [f_nodes put_nodes].
    assert (Hlt : (i < length l2)%nat) by by eapply lookup_lt_Some.
    set (l3 := <[i:=n']> l2). assert (Hi3 : l3 !! i = Some n') by by apply list_lookup_insert_eq.
    rewrite (bind_ok _ _ _ _ _ (get_node_run i n' (put_nodes l3 s) Hi3)). rewrite Hch.
    assert (P1' : rep l3 (n_child n) kids' D1).
    { eapply rep_frame; [exact P1|]. intros j Hj. unfold l3. rewrite list_lookup_insert_ne by set_solver. apply O2. set_solver. }
    assert (P2' : rep l3 (n_sibling n) rest' D2).
    { eapply rep_frame; [exact P2|]. intros j Hj. unfold l3. by rewrite list_lookup_insert_ne by set_solver. }
    destruct (match kids' with FCons c _ _ => Some (d_data c) | FNil => leaf_data s (mark m (data_of n)) end) as [x|] eqn:Ex;
      [|done]. cbn in Hc. injection Hc as <-.
    exists (<[i := with_data x n']> l3). split; [|split].
    + destruct kids' as [|c kk kr].
      * destruct P1' as [-> _]. rewrite <- Hd in Ex. by apply (check_leaf_run (put_nodes l3 s) i n' x).
      * destruct P1' as (j & nj & _ & _ & -> & Hj & <- & _). cbn in Ex. injection Ex as <-.
        rewrite (bind_ok _ _ _ _ _ (get_node_run j nj (put_nodes l3 s) Hj)). by rewrite (upd_node_run i n' _ (put_nodes l3 s) Hi3).
    + exists i, (with_data x n'), D1, D2. split; [done|]. rewrite list_lookup_insert_eq by by unfold l3; rewrite length_insert.
      split; [done|]. split; [by rewrite <- (typed_data m x n n' Hd)|]. cbn [n_child n_sibling with_data]. rewrite Hch, Hsb.
      split; [|split; [|done]]; (eapply rep_frame; [eassumption|]); intros j Hj; by rewrite list_lookup_insert_ne by set_solver.
    + split; [unfold l3; rewrite !length_insert; congruence|]. intros j Hj. unfold l3.
      rewrite !list_lookup_insert_ne by set_solver. rewrite O2 by set_solver. apply O1. set_solver.
Qed.

(** ** Code of forests *)

Definition bytes32 (v : Z) : list Z := [v mod 256; v / 256 mod 256; v / 65536 mod 256; v / 16777216 mod 256].
Definition one_code (w : width) : list Z :=
  FINSH_OP_LD w :: match w with WByte => [1] | WWord => [1; 0] | WDword => [1; 0; 0; 0] end.

Definition variable_code (idtype : Z) (type : finsh_type) (addr : Z) : list Z :=
  match type_width type with
  | Some w => (if truthy (Z.land idtype FINSH_IDTYPE_ADDRESS) then FINSH_OP_LD WDword else FINSH_OP_LD_VALUE w) :: bytes32 addr
  | None => []
  end.

Definition id_code (s : finsh) (d : ndata) : option (list Z) :=
  if truthy (Z.land (d_idtype d) FINSH_IDTYPE_SYSCALL) then
    c ← syscall_at (d_id d) s; Some (FINSH_OP_LD WDword :: bytes32 (sc_func c))
  else if truthy (Z.land (d_idtype d) FINSH_IDTYPE_SYSVAR) then
    v ← sysvar_at (d_id d) s; Some (variable_code (d_idtype d) (sv_type v) (sv_var v))
  else v ← var_at (d_id d) (f_vars s); Some (variable_code (d_idtype d) (fv_type v) (value_addr (d_id d))).

Definition sized_code (data : Z) (op : width -> Z) : list Z :=
  match data_width data with Some w => [op w] | None => [] end.
Definition store_code (data : Z) : option (list Z) :=
  w ← data_width data; Some [FINSH_OP_ST w; FINSH_OP_LD_VALUE_STACK w].
Definition assign_code (kids : forest) : option (list Z) :=
  match kids with
  | FNil => None
  | FCons c _ _ =>
      if d_type c =? FINSH_NODE_ID then store_code (d_data c)
      else if d_type c =? FINSH_NODE_SYS_GETVALUE then store_code (Z.land (d_data c) 0x0F)
      else Some []
  end.

Definition pre_code (op : width -> Z) (w : width) (a : Z) : list Z :=
  FINSH_OP_LD_VALUE w :: bytes32 a ++ one_code w ++ [op w; FINSH_OP_ST w; FINSH_OP_LD_VALUE_STACK WDword].
Definition post_code (op : width -> Z) (w : width) (a : Z) : list Z :=
  FINSH_OP_LD WDword :: bytes32 a ++ FINSH_OP_LD_VALUE w :: bytes32 a ++ one_code w ++ [op w; FINSH_OP_ST w; FINSH_OP_POP].

(** The code of an increment or decrement of a variable. *)
Definition step_code (code : width -> Z -> list Z) (data : Z) (kids : forest) : list Z :=
  match kids, data_width data with
  | FCons c _ _, Some w => if d_type c =? FINSH_NODE_ID then code w (value_addr (d_id c)) else []
  | _, _ => []
  end.

Fixpoint flen (f : forest) : nat := match f with FNil => O | FCons _ _ rest => S (flen rest) end.

Definition call_code (kids : forest) : list Z :=
  match kids with FNil => [] | FCons _ _ rest => [FINSH_OP_SYSCALL; Z.of_nat (flen rest) mod 256] end.

Definition node_code (s : finsh) (d : ndata) (kids : forest) : option (list Z) :=
  let t := d_type d in
  if t =? FINSH_NODE_ID then id_code s d
  else if t =? FINSH_NODE_VALUE_CHAR then Some [FINSH_OP_LD WByte; d_value d mod 256]
  else if (t =? FINSH_NODE_VALUE_INT) || (t =? FINSH_NODE_VALUE_LONG) ||
          (t =? FINSH_NODE_VALUE_NULL) || (t =? FINSH_NODE_VALUE_STRING) then
    Some (FINSH_OP_LD WDword :: bytes32 (d_value d))
  else match binary_code t with
  | Some op => Some (sized_code (d_data d) op)
  | None =>
      if t =? FINSH_NODE_SYS_FUNC then Some (call_code kids)
      else if t =? FINSH_NODE_SYS_ASSIGN then assign_code kids
      else if t =? FINSH_NODE_SYS_PREINC then Some (step_code (pre_code FINSH_OP_ADD) (d_data d) kids)
      else if t =? FINSH_NODE_SYS_PREDEC then Some (step_code (pre_code FINSH_OP_SUB) (d_data d) kids)
      else if t =? FINSH_NODE_SYS_INC then Some (step_code (post_code FINSH_OP_ADD) (d_data d) kids)
      else if t =? FINSH_NODE_SYS_DEC then Some (step_code (post_code FINSH_OP_SUB) (d_data d) kids)
      else if t =? FINSH_NODE_SYS_NULL then Some [0; 0; 0; 0]
      else if t =? FINSH_NODE_SYS_GETVALUE then
        Some (if truthy (Z.land (d_idtype d) FINSH_IDTYPE_ADDRESS) then [] else sized_code (d_data d) FINSH_OP_LD_VALUE_STACK)
      else if t =? FINSH_NODE_SYS_GETADDR then Some []
      else None
  end.

Fixpoint gen (s : finsh) (f : forest) : option (list Z) :=
  match f with
  | FNil => Some []
  | FCons d kids rest =>
      c1 ← gen s kids;
      c2 ← node_code s d kids;
      c3 ← gen s rest;
      Some (c1 ++ c2 ++ c3)
  end.

(** ** Writing code *)

Definition emit (c : list Z) (s : finsh) : finsh :=
  let v := f_vm s in
  {| s with f_vm := {| v with vm_text := list_inserts (Z.to_nat (f_compile_pc s)) c (vm_text v) |};
            f_compile_pc := f_compile_pc s + Z.of_nat (length c) |}.

Definition room (c : list Z) (s : finsh) : Prop :=
  0 <= f_compile_pc s /\ f_compile_pc s + Z.of_nat (length c) <= Z.of_nat (length (vm_text (f_vm s))).

(** [m] writes the code [c] in the state [s]. *)
Definition emits (s : finsh) (m : F unit) (c : list Z) : Prop := room c s -> m s = Ok tt (emit c s).

Lemma emit_nil s : emit [] s = s.
Proof. destruct s as [v ? ? ? ? ? ? ? ? ?]. unfold emit. cbn. rewrite Z.add_0_r. by destruct v. Qed.
Lemma emit_app c1 c2 s : 0 <= f_compile_pc s -> emit c2 (emit c1 s) = emit (c1 ++ c2) s.
Proof.
  intros H. unfold emit. cbn. rewrite length_app, list_inserts_app_l, Nat2Z.inj_add, Z.add_assoc.
  rewrite Z2Nat.inj_add, Nat2Z.id by lia. by rewrite Nat.add_comm.
Qed.
Lemma room_app c1 c2 s : room (c1 ++ c2) s -> room c1 s /\ room c2 (emit c1 s).
Proof. unfold room. rewrite length_app. cbn. rewrite length_inserts. lia. Qed.

Lemma emits_ret s : emits s (mret tt) [].
Proof. intros _. by rewrite emit_nil. Qed.
Lemma emits_seq s m1 m2 c1 c2 : emits s m1 c1 -> emits (emit c1 s) m2 c2 -> emits s (m1;; m2) (c1 ++ c2).
Proof.
  intros H1 H2 Hr. destruct (room_app _ _ _ Hr) as [R1 R2]. rewrite (bind_ok _ _ _ _ _ (H1 R1)).
  rewrite (H2 R2). by rewrite emit_app by apply Hr.
Qed.

Lemma write_text_run (s : finsh) i v : 0 <= i < Z.of_nat (length (vm_text (f_vm s))) ->
  write_text i v s = Ok tt (let m := f_vm s in {| s with f_vm := {| m with vm_text := <[Z.to_nat i := u8 v]> (vm_text m) |} |}).
Proof.
  intros Hi. unfold write_text, on_vm, get_text. mrun.
  destruct (Z.ltb_spec i 0); [lia|]. destruct (lookup_lt_is_Some_2 (vm_text (f_vm s)) (Z.to_nat i)) as [x ->]; [lia|]. done.
Qed.

Lemma code_byte_run s x : emits s (finsh_code_byte x) [u8 x].
Proof.
  intros [H1 H2]. cbn in H2. unfold finsh_code_byte. rewrite bind_gets.
  rewrite (bind_ok _ _ _ _ _ (write_text_run s (f_compile_pc s) x ltac:(lia))). done.
Qed.

(** Bytes written one after the other. *)
Definition with_text (l : list Z) (s : finsh) : finsh :=
  let v := f_vm s in {| s with f_vm := {| v with vm_text := l |} |}.

Fixpoint write_bytes (p : Z) (l : list Z) : F unit :=
  match l with
  | [] => mret tt
  | b :: l => write_text p b;; write_bytes (p + 1) l
  end.

Lemma write_bytes_run l : forall (s : finsh) p, 0 <= p -> p + Z.of_nat (length l) <= Z.of_nat (length (vm_text (f_vm s))) ->
  write_bytes p l s = Ok tt (with_text (list_inserts (Z.to_nat p) (u8 <$> l) (vm_text (f_vm s))) s).
Proof.
  induction l as [|b l IH]; intros s p Hp Hl; cbn in Hl; cbn [write_bytes].
  - destruct s as [[] ? ? ? ? ? ? ? ? ?]. done.
  - rewrite (bind_ok _ _ _ _ _ (write_text_run s p b ltac:(lia))). rewrite IH; cbn; [|lia|rewrite length_insert; lia].
    f_equal. unfold with_text. cbn. replace (Z.to_nat (p + 1)) with (S (Z.to_nat p)) by lia. do 2 f_equal.
    symmetry. apply list_insert_inserts_lt. lia.
Qed.

Lemma write_code_run (s : finsh) l (n : Z) : n = Z.of_nat (length l) ->
  emits s (pc ← gets f_compile_pc; write_bytes pc l;; set_compile_pc (pc + n)) (u8 <$> l).
Proof.
  intros -> [H1 H2]. rewrite length_fmap in H2. rewrite bind_gets.
  rewrite (bind_ok _ _ _ _ _ (write_bytes_run l s _ H1 H2)). unfold set_compile_pc, modify, emit, with_text. cbn.
  by rewrite length_fmap.
Qed.

Lemma land255 x : Z.land x 0xff = x mod 256.
Proof. change 0xff with (Z.ones 8). by rewrite Z.land_ones. Qed.

Lemma byte_of v k : 0 <= k <= 24 -> u8 (Z.shiftr (u32 v) k) = v / 2 ^ k mod 256.
Proof.
  intros Hk. unfold u8, u32. change 256 with (2 ^ 8). rewrite Z.shiftr_div_pow2 by lia. apply Z.bits_inj'. intros n Hn.
  destruct (Z.lt_ge_cases n 8) as [H|H].
  - rewrite !Z.mod_pow2_bits_low, !Z.div_pow2_bits, Z.mod_pow2_bits_low by lia. done.
  - by rewrite !Z.mod_pow2_bits_high by lia.
Qed.

Lemma bind_unit (m : F unit) (s : finsh) : (m;; mret tt) s = m s.
Proof. unfold mbind, M_bind. by destruct (m s) as [[] s'|]. Qed.

Lemma bind_eq {A B} (m m' : F A) (k k' : A -> F B) (s : finsh) :
  m s = m' s -> (forall a s, k a s = k' a s) -> (m ≫= k) s = (m' ≫= k') s.
Proof. unfold mbind, M_bind. intros -> H. by destruct (m' s). Qed.

Lemma u8_land x : u8 (Z.land x 0xff) = u8 x.
Proof. rewrite land255. unfold u8. change 256 with (2 ^ 8). by rewrite Z.mod_mod. Qed.

Lemma code_dword_run s x : emits s (finsh_code_dword x) (bytes32 x).
Proof.
  set (l := [Z.land (u32 x) 0xff; Z.land (Z.shiftr (u32 x) 8) 0xff; Z.land (Z.shiftr (u32 x) 16) 0xff; Z.shiftr (u32 x) 24]).
  assert (El : bytes32 x = u8 <$> l).
  { unfold l, bytes32. cbn [fmap list_fmap]. rewrite !u8_land, !byte_of by lia.
    rewrite <- (Z.shiftr_0_r (u32 x)), byte_of by lia. by rewrite Z.div_1_r. }
  rewrite El. intros Hr. rewrite <- (write_code_run s l 4 eq_refl Hr). unfold finsh_code_dword. rewrite !bind_gets.
  apply bind_eq; [|done]. unfold FINSH_SET32, l. cbn [write_bytes].
  do 3 (apply bind_eq; [done|intros [] ?]; rewrite <- ?Z.add_assoc; cbn [Z.add Pos.add Pos.succ]). by rewrite bind_unit.
Qed.

Lemma code_word_run s x : 0 <= x < 65536 -> emits s (finsh_code_word x) [x mod 256; x / 256].
Proof.
  intros Hx. set (l := [Z.land x 0xff; Z.shiftr x 8]).
  assert (El : [x mod 256; x / 256] = u8 <$> l).
  { unfold l. cbn [fmap list_fmap]. rewrite u8_land, Z.shiftr_div_pow2 by lia. change (2 ^ 8) with 256. unfold u8.
    rewrite (Z.mod_small (x / 256)) by (change (2 ^ 8) with 256; split; [apply Z.div_pos|apply Z.div_lt_upper_bound]; lia). done. }
  rewrite El. intros Hr. rewrite <- (write_code_run s l 2 eq_refl Hr). unfold finsh_code_word. rewrite !bind_gets.
  apply bind_eq; [|done]. unfold FINSH_SET16, l. cbn [write_bytes]. apply bind_eq; [done|intros [] ?]. by rewrite bind_unit.
Qed.

(** A byte that is one already. *)
Lemma code_op_run s x : u8 x = x -> emits s (finsh_code_byte x) [x].
Proof. intros H. rewrite <- H at 2. apply code_byte_run. Qed.

(** The op codes are bytes. *)
Ltac op_byte := match goal with
  | |- u8 (_ ?w) = _ => destruct w; reflexivity
  | |- u8 (if ?b then _ else _) = _ => destruct b; op_byte
  | _ => reflexivity
  end.

Lemma code_one_run s w : emits s (code_one w) (one_code w).
Proof.
  unfold code_one, one_code. apply (emits_seq s _ _ [_]); [apply code_op_run; op_byte|].
  destruct w; [by apply code_op_run|by apply (code_word_run _ 1)|by apply (code_dword_run _ 1)].
Qed.

Lemma code_variable_run s idtype type addr : emits s (code_variable idtype type addr) (variable_code idtype type addr).
Proof.
  unfold code_variable, variable_code. destruct (type_width type) as [w|]; [|apply emits_ret].
  apply (emits_seq s _ _ [_]); [apply code_op_run; op_byte|apply code_dword_run].
Qed.

Lemma code_id_run s n c : id_code s (data_of n) = Some c -> emits s (code_id n) c.
Proof.
  unfold id_code, code_id. cbn [d_idtype d_id data_of]. intros H Hr. rewrite bind_getS.
  destruct (truthy _); [|destruct (truthy _)].
  - destruct (syscall_at _ s) as [x|]; cbn in H; [|done]. injection H as <-. cbn [of_option]. rewrite bind_mret. revert Hr.
    apply (emits_seq s _ _ [_]); [by apply code_op_run|apply code_dword_run].
  - destruct (sysvar_at _ s) as [x|]; cbn in H; [|done]. injection H as <-. cbn [of_option]. rewrite bind_mret.
    by apply code_variable_run.
  - destruct (var_at _ _) as [x|]; cbn in H; [|done]. injection H as <-. cbn [of_option]. rewrite bind_mret.
    by apply code_variable_run.
Qed.

Lemma code_sized_run s data op : (forall w, u8 (op w) = op w) -> emits s (code_sized data op) (sized_code data op).
Proof.
  intros H. unfold code_sized, sized_code. destruct (data_width data); [by apply code_op_run|apply emits_ret].
Qed.

(** ** Nodes with children *)

Lemma child_of_run (s : finsh) n kids D : rep (f_nodes s) (n_child n) kids D ->
  exists c, child_of n s = Ok c s /\
    match kids with
    | FNil => c = None
    | FCons d _ rest => exists cn D', c = Some cn /\ data_of cn = d /\ rep (f_nodes s) (n_sibling cn) rest D'
    end.
Proof.
  unfold child_of. destruct kids as [|d kk rest]; cbn [rep].
  - intros [-> _]. by exists None.
  - intros (i & cn & D1 & D2 & -> & Hi & Hd & _ & H2 & _). exists (Some cn).
    rewrite (bind_ok _ _ _ _ _ (get_node_run i cn s Hi)). split; [done|]. by exists cn, D2.
Qed.

Lemma code_store_run s data c : store_code data = Some c -> emits s (code_store data) c.
Proof.
  unfold store_code, code_store. destruct (data_width data) as [w|]; cbn; [|done]. intros [= <-].
  apply (emits_seq s _ _ [_]); apply code_op_run; op_byte.
Qed.

Lemma code_assign_run s n kids D c : rep (f_nodes s) (n_child n) kids D -> assign_code kids = Some c -> emits s (code_assign n) c.
Proof.
  intros Hk Hc Hr. destruct (child_of_run s n kids D Hk) as (ch & E & Hch). unfold code_assign.
  rewrite (bind_ok _ _ _ _ _ E). destruct kids as [|d kk rest]; [done|]. destruct Hch as (cn & D' & -> & <- & _).
  unfold assign_code in Hc. cbn [d_type d_data data_of] in Hc.
  destruct (n_type cn =? FINSH_NODE_ID); [by apply code_store_run|].
  destruct (n_type cn =? FINSH_NODE_SYS_GETVALUE); [by apply code_store_run|]. injection Hc as <-. by apply emits_ret.
Qed.

Lemma id_child_run (s : finsh) n kids D : rep (f_nodes s) (n_child n) kids D ->
  exists c, id_child n s = Ok c s /\
    match c with
    | Some cn => exists d kk rest, kids = FCons d kk rest /\ data_of cn = d /\ (d_type d =? FINSH_NODE_ID) = true
    | None => match kids with FNil => True | FCons d _ _ => (d_type d =? FINSH_NODE_ID) = false end
    end.
Proof.
  intros Hk. destruct (child_of_run s n kids D Hk) as (ch & E & Hch). unfold id_child. rewrite (bind_ok _ _ _ _ _ E).
  destruct kids as [|d kk rest]; [subst ch; by exists None|]. destruct Hch as (cn & D' & -> & Hd & _).
  eexists. split; [done|]. destruct (n_type cn =? FINSH_NODE_ID) eqn:Et; [|by subst d].
  exists d, kk, rest. split; [done|]. split; [done|]. by subst d.
Qed.

(** Code for a variable under an increment or decrement. *)
Lemma step_run s n kids D (m : finsh_node -> width -> F unit) (code : width -> Z -> list Z) :
  rep (f_nodes s) (n_child n) kids D -> (forall c w, emits s (m c w) (code w (value_addr (n_id c)))) ->
  emits s (c ← id_child n; match c, data_width (n_data n) with Some c, Some w => m c w | _, _ => mret tt end)
    (step_code code (n_data n) kids).
Proof.
  intros Hk Hm Hr. destruct (id_child_run s n kids D Hk) as (ch & E & Hch). rewrite (bind_ok _ _ _ _ _ E). revert Hr.
  unfold step_code. destruct ch as [cn|].
  - destruct Hch as (d & kk & rest & -> & <- & Ht). destruct (data_width (n_data n)) as [w|]; [|apply emits_ret].
    rewrite Ht. cbn [d_id data_of]. apply Hm.
  - destruct kids as [|d kk rest]; [apply emits_ret|]. rewrite Hch. destruct (data_width _); apply emits_ret.
Qed.

Lemma pre_run s op (c : finsh_node) w : (forall w, u8 (op w) = op w) ->
  emits s (finsh_code_byte (FINSH_OP_LD_VALUE w);; finsh_code_dword (value_addr (n_id c));; code_one w;;
    finsh_code_byte (op w);; finsh_code_byte (FINSH_OP_ST w);; finsh_code_byte (FINSH_OP_LD_VALUE_STACK WDword))
    (pre_code op w (value_addr (n_id c))).
Proof.
  intros Hop. unfold pre_code. apply (emits_seq s _ _ [_]); [apply code_op_run; op_byte|].
  apply emits_seq; [apply code_dword_run|]. apply emits_seq; [apply code_one_run|].
  apply (emits_seq _ _ _ [_]); [by apply code_op_run|]. apply (emits_seq _ _ _ [_]); apply code_op_run; op_byte.
Qed.

Lemma post_run s op (c : finsh_node) w : (forall w, u8 (op w) = op w) ->
  emits s (finsh_code_byte (FINSH_OP_LD WDword);; finsh_code_dword (value_addr (n_id c));;
    finsh_code_byte (FINSH_OP_LD_VALUE w);; finsh_code_dword (value_addr (n_id c));; code_one w;;
    finsh_code_byte (op w);; finsh_code_byte (FINSH_OP_ST w);; finsh_code_byte FINSH_OP_POP)
    (post_code op w (value_addr (n_id c))).
Proof.
  intros Hop. unfold post_code. apply (emits_seq s _ _ [_]); [apply code_op_run; op_byte|].
  apply emits_seq; [apply code_dword_run|]. apply (emits_seq _ _ _ [_]); [apply code_op_run; op_byte|].
  apply emits_seq; [apply code_dword_run|]. apply emits_seq; [apply code_one_run|].
  apply (emits_seq _ _ _ [_]); [by apply code_op_run|]. apply (emits_seq _ _ _ [_]); apply code_op_run; op_byte.
Qed.

Lemma siblings_run (s : finsh) f : forall fuel p D, rep (f_nodes s) p f D -> (flen f <= fuel)%nat ->
  siblings fuel p s = Ok (Z.of_nat (flen f)) s.
Proof.
  induction f as [|d kids _ rest IH]; intros fuel p D Hr Hf; cbn [rep flen] in *.
  - destruct Hr as [-> _]. by destruct fuel.
  - destruct Hr as (i & n & D1 & D2 & -> & Hi & _ & _ & H2 & _). destruct fuel as [|fuel]; [lia|]. cbn [siblings].
    rewrite (bind_ok _ _ _ _ _ (get_node_run i n s Hi)), (bind_ok _ _ _ _ _ (IH fuel _ _ H2 ltac:(lia))).
    unfold mret, M_ret. f_equal. lia.
Qed.

Lemma flen_height f : (flen f <= height f)%nat.
Proof. induction f; cbn; lia. Qed.

Lemma code_call_run s n kids D : (length (f_nodes s) <= FINSH_NODE_MAX)%nat -> rep (f_nodes s) (n_child n) kids D ->
  emits s (code_call n) (call_code kids).
Proof.
  intros Hl Hk Hr. destruct (child_of_run s n kids D Hk) as (ch & E & Hch). unfold code_call. rewrite (bind_ok _ _ _ _ _ E).
  destruct kids as [|d kk rest]; [subst ch; by apply emits_ret|]. destruct Hch as (cn & D' & -> & _ & H2).
  assert (Hs : (flen rest <= FINSH_NODE_MAX)%nat).
  { etransitivity; [apply flen_height|]. etransitivity; [by eapply rep_height|done]. }
  rewrite (bind_ok _ _ _ _ _ (siblings_run s rest _ _ _ H2 Hs)). revert Hr. unfold call_code.
  apply (emits_seq s _ _ [_] [_]); [by apply code_op_run|apply code_byte_run].
Qed.

Lemma binary_code_byte t op : binary_code t = Some op -> forall w, u8 (op w) = op w.
Proof. unfold binary_code. intros H w. repeat case_match; simplify_eq; by destruct w. Qed.

Lemma code_node_run s n kids D c : (length (f_nodes s) <= FINSH_NODE_MAX)%nat -> rep (f_nodes s) (n_child n) kids D ->
  node_code s (data_of n) kids = Some c -> emits s (code_node n) c.
Proof.
  intros Hl Hk Hc. unfold node_code in Hc. cbn [d_type d_data d_idtype d_value data_of] in Hc. unfold code_node. cbv zeta.
  destruct (n_type n =? FINSH_NODE_ID); [by apply code_id_run|].
  destruct (n_type n =? FINSH_NODE_VALUE_CHAR).
  { injection Hc as <-. apply (emits_seq s _ _ [_] [_]); [by apply code_op_run|apply code_byte_run]. }
  destruct (_ || _).
  { injection Hc as <-. apply (emits_seq s _ _ [_]); [by apply code_op_run|apply code_dword_run]. }
  destruct (binary_code (n_type n)) as [op|] eqn:Eb.
  { injection Hc as <-. apply code_sized_run. by eapply binary_code_byte. }
  destruct (n_type n =? FINSH_NODE_SYS_FUNC); [injection Hc as <-; by eapply code_call_run|].
  destruct (n_type n =? FINSH_NODE_SYS_ASSIGN); [by eapply code_assign_run|].
  destruct (n_type n =? FINSH_NODE_SYS_PREINC);
    [injection Hc as <-; eapply step_run; [exact Hk|intros; apply pre_run; intros []; done]|].
  destruct (n_type n =? FINSH_NODE_SYS_PREDEC);
    [injection Hc as <-; eapply step_run; [exact Hk|intros; apply pre_run; intros []; done]|].
  destruct (n_type n =? FINSH_NODE_SYS_INC);
    [injection Hc as <-; eapply step_run; [exact Hk|intros; apply post_run; intros []; done]|].
  destruct (n_type n =? FINSH_NODE_SYS_DEC);
    [injection Hc as <-; eapply step_run; [exact Hk|intros; apply post_run; intros []; done]|].
  destruct (n_type n =? FINSH_NODE_SYS_NULL); [injection Hc as <-; apply (code_dword_run s 0)|].
  destruct (n_type n =? FINSH_NODE_SYS_GETVALUE).
  { injection Hc as <-. unfold code_getvalue. destruct (truthy _); [apply emits_ret|]. apply code_sized_run. by intros []. }
  destruct (n_type n =? FINSH_NODE_SYS_GETADDR); [injection Hc as <-; apply emits_ret|done].
Qed.

Lemma gen_emit s c f : gen (emit c s) f = gen s f.
Proof. induction f as [|d kids IH1 rest IH2]; cbn [gen]; [done|]. by rewrite IH1, IH2. Qed.

(** The compiler writes the code of the forest. *)
Lemma compile_rep f : forall fuel s p D c, (length (f_nodes s) <= FINSH_NODE_MAX)%nat -> rep (f_nodes s) p f D ->
  gen s f = Some c -> (height f <= fuel)%nat -> emits s (finsh_compile fuel p) c.
Proof.
  induction f as [|d kids IH1 rest IH2]; intros fuel s p D c Hl Hr Hc Hh; cbn [gen rep height] in *.
  - destruct Hr as [-> _]. injection Hc as <-. destruct fuel; apply emits_ret.
  - destruct Hr as (i & n & D1 & D2 & -> & Hi & <- & H1 & H2 & _).
    destruct (gen s kids) as [c1|] eqn:E1; cbn in Hc; [|done].
    destruct (node_code s (data_of n) kids) as [c2|] eqn:E2; cbn in Hc; [|done].
    destruct (gen s rest) as [c3|] eqn:E3; cbn in Hc; [|done]. injection Hc as <-.
    destruct fuel as [|fuel]; [lia|]. intros Hroom. cbn [finsh_compile]. rewrite (bind_ok _ _ _ _ _ (get_node_run i n s Hi)).
    revert Hroom. apply emits_seq; [apply (IH1 fuel s _ D1); [done..|lia]|].
    apply emits_seq; [by apply (code_node_run _ _ kids D1)|].
    apply (IH2 fuel _ _ D2); [done|done|by rewrite !gen_emit|lia].
Qed.

End Tree.
