(* ===== verification/FinshExec.v ===== *)
(** * Expressions and their byte code

    The meaning of an expression, [eval], on memory: an operation works in the
    width of its leftmost operand, a prefix step yields the 32 bits at the
    variable.  Its byte code, [tcode]; and the execution of single operations by
    the virtual machine. *)

From S2P Require Import Prelude KString FinshVm FinshData FinshCompiler FinshTree.

(** ** Expressions *)

(** A variable: its symbol, its type, and where its value lies. *)
Record place := mk_place { pl_kind : Z; pl_id : Z; pl_type : finsh_type; pl_width : width; pl_addr : Z }.

#[warnings="-register-all"]
Inductive tree :=
| TInt (v : Z) | TLong (v : Z) | TChar (c : Z)
| TPlace (x : place)
| TBin (o : binop) (l r : tree)
| TNot (e : tree)
| TAssign (x : place) (e : tree)
| TPre (sub : bool) (x : place) | TPost (sub : bool) (x : place)
| TAddr (x : place) | TDeref (e : tree) | TStore (p e : tree)
| TCall (sym func : Z) (args : list tree).

Section TreeInd.
Variable P : tree -> Prop.
Hypotheses (Hint : forall v, P (TInt v)) (Hlong : forall v, P (TLong v)) (Hchar : forall c, P (TChar c))
  (Hplace : forall x, P (TPlace x)) (Hbin : forall o l r, P l -> P r -> P (TBin o l r)) (Hnot : forall e, P e -> P (TNot e))
  (Hassign : forall x e, P e -> P (TAssign x e)) (Hpre : forall b x, P (TPre b x)) (Hpost : forall b x, P (TPost b x))
  (Haddr : forall x, P (TAddr x)) (Hderef : forall e, P e -> P (TDeref e))
  (Hstore : forall p e, P p -> P e -> P (TStore p e))
  (Hcall : forall sym func args, Forall P args -> P (TCall sym func args)).

Fixpoint tree_rect' (t : tree) : P t :=
  match t with
  | TInt v => Hint v
  | TLong v => Hlong v
  | TChar c => Hchar c
  | TPlace x => Hplace x
  | TBin o l r => Hbin o l r (tree_rect' l) (tree_rect' r)
  | TNot e => Hnot e (tree_rect' e)
  | TAssign x e => Hassign x e (tree_rect' e)
  | TPre b x => Hpre b x
  | TPost b x => Hpost b x
  | TAddr x => Haddr x
  | TDeref e => Hderef e (tree_rect' e)
  | TStore p e => Hstore p e (tree_rect' p) (tree_rect' e)
  | TCall sym func args =>
      Hcall sym func args ((fix go l := match l return Forall P l with
        | [] => Forall_nil_2 P
        | t :: l => Forall_cons_2 P t l (tree_rect' t) (go l)
        end) args)
  end.
End TreeInd.

(** ** Widths *)

Definition width_le (w w' : width) : bool := width_bits w <=? width_bits w'.

(** The width in which an operator on the value works: the width of the
    leftmost operand; none for a call. *)
Fixpoint ttype (t : tree) : option width :=
  match t with
  | TInt _ | TLong _ => Some WDword
  | TChar _ => Some WByte
  | TPlace x | TAssign x _ | TPre _ x | TPost _ x | TAddr x => Some (pl_width x)
  | TBin _ l _ => ttype l
  | TNot e | TDeref e | TStore e _ => ttype e
  | TCall _ _ _ => None
  end.
(** The bits of the slot that the value defines. *)
Definition tdef (t : tree) : width :=
  match t with
  | TInt _ | TLong _ | TPre _ _ | TAddr _ | TCall _ _ _ => WDword
  | TChar _ => WByte
  | TPlace x | TAssign x _ | TPost _ x => pl_width x
  | TBin _ _ _ | TNot _ | TDeref _ | TStore _ _ => default WDword (ttype t)
  end.

Definition addressed (x : place) : bool := (0 <=? pl_addr x) && (pl_addr x <? 2 ^ 32).

(** No operation reads bits its operands leave undefined, and the variables
    have addresses of 32 bits. *)
Fixpoint wide (t : tree) : bool :=
  match t with
  | TInt _ | TLong _ | TChar _ => true
  | TPlace x | TPre _ x | TPost _ x | TAddr x => addressed x
  | TBin _ l r =>
      wide l && wide r &&
      match ttype l with Some w => width_le w (tdef l) && width_le w (tdef r) | None => false end
  | TNot e => wide e && match ttype e with Some w => width_le w (tdef e) | None => false end
  | TAssign x e => addressed x && wide e && width_le (pl_width x) (tdef e)
  | TDeref e => wide e && bool_decide (is_Some (ttype e)) && width_le WDword (tdef e)
  | TStore p e =>
      wide p && wide e && width_le WDword (tdef p) &&
      match ttype p with Some w => width_le w (tdef e) | None => false end
  | TCall _ _ args =>
      forallb wide args && forallb (fun e => width_le WDword (tdef e)) args && (length args <=? 16)%nat
  end.

(** ** Meaning *)

Definition wrapw (w : width) (v : Z) : Z := v mod 2 ^ width_bits w.

(** One more or one less. *)
Definition stepped {CS : CharSign} (sub : bool) (w : width) (v : Z) : Z :=
  wrapw w (slot_get w v + (if sub then -1 else 1)).

Section Sem.
Context {CS : CharSign}.
Variable call : Z -> list Z -> fmem -> option (Z * fmem).

Fixpoint eval (t : tree) (m : fmem) : option (Z * fmem) :=
  match t with
  | TInt v | TLong v => Some (wrapw WDword v, m)
  | TChar c => Some (wrapw WByte c, m)
  | TPlace x => v ← load (width_bytes (pl_width x)) (pl_addr x) m; Some (wrapw (pl_width x) v, m)
  | TBin o l r =>
      w ← ttype l;
      a ← eval l m;
      b ← eval r a.2;
      v ← c_binop o (slot_get w a.1) (slot_get w b.1);
      Some (wrapw w v, b.2)
  | TNot e =>
      w ← ttype e;
      a ← eval e m;
      Some (wrapw w (Z.lnot (slot_get w a.1)), a.2)
  | TAssign x e =>
      a ← eval e m;
      m2 ← store (width_bytes (pl_width x)) (pl_addr x) (wrapw (pl_width x) a.1) a.2;
      Some (wrapw (pl_width x) a.1, m2)
  | TPre sub x =>
      v ← load (width_bytes (pl_width x)) (pl_addr x) m;
      m2 ← store (width_bytes (pl_width x)) (pl_addr x) (stepped sub (pl_width x) v) m;
      r ← load 4 (pl_addr x) m2;
      Some (wrapw WDword r, m2)
  | TPost sub x =>
      v ← load (width_bytes (pl_width x)) (pl_addr x) m;
      m2 ← store (width_bytes (pl_width x)) (pl_addr x) (stepped sub (pl_width x) v) m;
      Some (wrapw (pl_width x) v, m2)
  | TAddr x => Some (wrapw WDword (pl_addr x), m)
  | TDeref e =>
      w ← ttype e;
      a ← eval e m;
      v ← load (width_bytes w) a.1 a.2;
      Some (wrapw w v, a.2)
  | TStore p e =>
      w ← ttype p;
      a ← eval p m;
      b ← eval e a.2;
      m2 ← store (width_bytes w) a.1 (wrapw w b.1) b.2;
      Some (wrapw w b.1, m2)
  | TCall _ func args =>
      vs ← (fix evals l m := match l with
            | [] => Some ([], m)
            | t :: l => a ← eval t m; vs ← evals l a.2; Some (a.1 :: vs.1, vs.2)
            end) args m;
      r ← call (wrapw WDword func) (match vs.1 with [] => [0] | _ => vs.1 end) vs.2;
      Some (wrapw WDword r.1, r.2)
  end.

Fixpoint evals (l : list tree) (m : fmem) : option (list Z * fmem) :=
  match l with
  | [] => Some ([], m)
  | t :: l => a ← eval t m; vs ← evals l a.2; Some (a.1 :: vs.1, vs.2)
  end.

End Sem.

(** ** Byte code *)

Definition bin_op (o : binop) : width -> Z :=
  match o with
  | BAdd => FINSH_OP_ADD | BSub => FINSH_OP_SUB | BDiv => FINSH_OP_DIV | BMod => FINSH_OP_MOD | BMul => FINSH_OP_MUL
  | BAnd => FINSH_OP_AND | BOr => FINSH_OP_OR | BXor => FINSH_OP_XOR | BShl => FINSH_OP_SHL | BShr => FINSH_OP_SHR
  end.
Definition step_op (sub : bool) : width -> Z := if sub then FINSH_OP_SUB else FINSH_OP_ADD.

Fixpoint tcode (t : tree) : list Z :=
  match t with
  | TInt v | TLong v => FINSH_OP_LD WDword :: bytes32 v
  | TChar c => [FINSH_OP_LD WByte; c mod 256]
  | TPlace x => FINSH_OP_LD_VALUE (pl_width x) :: bytes32 (pl_addr x)
  | TBin o l r => tcode l ++ tcode r ++ match ttype l with Some w => [bin_op o w] | None => [] end
  | TNot e => tcode e ++ match ttype e with Some w => [FINSH_OP_BITWISE w] | None => [] end
  | TAssign x e =>
      (FINSH_OP_LD WDword :: bytes32 (pl_addr x)) ++ tcode e ++ [FINSH_OP_ST (pl_width x); FINSH_OP_LD_VALUE_STACK (pl_width x)]
  | TPre sub x => (FINSH_OP_LD WDword :: bytes32 (pl_addr x)) ++ pre_code (step_op sub) (pl_width x) (pl_addr x)
  | TPost sub x => (FINSH_OP_LD_VALUE (pl_width x) :: bytes32 (pl_addr x)) ++ post_code (step_op sub) (pl_width x) (pl_addr x)
  | TAddr x => FINSH_OP_LD WDword :: bytes32 (pl_addr x)
  | TDeref e => tcode e ++ match ttype e with Some w => [FINSH_OP_LD_VALUE_STACK w] | None => [] end
  | TStore p e => tcode p ++ tcode e ++ match ttype p with Some w => [FINSH_OP_ST w; FINSH_OP_LD_VALUE_STACK w] | None => [] end
  | TCall _ func args =>
      (FINSH_OP_LD WDword :: bytes32 func) ++ concat (tcode <$> args) ++ [FINSH_OP_SYSCALL; Z.of_nat (length args) mod 256]
  end.

(** * Execution of byte code by the virtual machine *)

(** ** Bits of slots *)

Lemma width_pos w : 0 < width_bits w <= 32.
Proof. by destruct w. Qed.
Lemma width_pow w : 0 < 2 ^ width_bits w.
Proof. by destruct w. Qed.

Lemma mod_pow_mod x a b : 0 <= b <= a -> (x mod 2 ^ a) mod 2 ^ b = x mod 2 ^ b.
Proof.
  intros H. apply Z.bits_inj'. intros n Hn. destruct (Z.lt_ge_cases n b).
  - rewrite !Z.mod_pow2_bits_low by lia. done.
  - by rewrite !Z.mod_pow2_bits_high by lia.
Qed.

Lemma add_mod_pow x c a b : 0 <= b <= a -> (x mod 2 ^ a + c) mod 2 ^ b = (x + c) mod 2 ^ b.
Proof.
  intros H. rewrite <- (Z.add_mod_idemp_l (x mod 2 ^ a)), mod_pow_mod, Z.add_mod_idemp_l by (try apply Z.pow_nonzero; lia). done.
Qed.

Lemma slot_get_wrap {CS : CharSign} w w' x : width_le w w' = true -> slot_get w (wrapw w' x) = slot_get w x.
Proof.
  intros H%Z.leb_le. unfold slot_get, wrapw, i8, u8, i16, i32. pose proof (width_pos w).
  destruct w; cbn in H; [destruct char_signed|..]; rewrite ?add_mod_pow, ?mod_pow_mod by lia; done.
Qed.

Lemma slot_get_same {CS : CharSign} w w' x y : width_le w w' = true -> wrapw w' x = wrapw w' y -> slot_get w x = slot_get w y.
Proof. intros H E. rewrite <- (slot_get_wrap w w' x), E by done. by apply slot_get_wrap. Qed.

Lemma wrap_wrap w w' x : width_le w w' = true -> wrapw w (wrapw w' x) = wrapw w x.
Proof. intros H%Z.leb_le. apply mod_pow_mod. pose proof (width_pos w). lia. Qed.

Lemma width_le_refl w : width_le w w = true.
Proof. apply Z.leb_refl. Qed.
Lemma width_le_dword w : width_le w WDword = true.
Proof. by destruct w. Qed.

Lemma put_wrap w v s : wrapw w (slot_put w v s) = wrapw w v.
Proof.
  unfold wrapw, slot_put. pose proof (width_pow w). rewrite (Z.div_mod s (2 ^ width_bits w)) at 1 by lia.
  replace (2 ^ width_bits w * (s / 2 ^ width_bits w) + s mod 2 ^ width_bits w - s mod 2 ^ width_bits w + v mod 2 ^ width_bits w)
    with (v mod 2 ^ width_bits w + s / 2 ^ width_bits w * 2 ^ width_bits w) by lia.
  rewrite Z.mod_add by lia. apply Z.mod_mod. lia.
Qed.

Definition is_slot (x : Z) : Prop := 0 <= x < 2 ^ 32.

Lemma slot_range x : is_slot x -> wrapw WDword x = x.
Proof. apply Z.mod_small. Qed.

Lemma put_range w v s : is_slot s -> is_slot (slot_put w v s).
Proof.
  unfold is_slot, slot_put. intros Hs. pose proof (width_pow w) as Hw. pose proof (Z.mod_pos_bound v _ Hw).
  assert (E : s - s mod 2 ^ width_bits w = s / 2 ^ width_bits w * 2 ^ width_bits w) by (pose proof (Z.div_mod s (2 ^ width_bits w)); lia).
  rewrite E. assert (Hp : 2 ^ 32 = 2 ^ (32 - width_bits w) * 2 ^ width_bits w)
    by (pose proof (width_pos w); rewrite <- Z.pow_add_r by lia; f_equal; lia).
  assert (Hq : s / 2 ^ width_bits w < 2 ^ (32 - width_bits w)) by (apply Z.div_lt_upper_bound; lia).
  pose proof (Z.div_pos s (2 ^ width_bits w)). nia.
Qed.

(** ** Memory *)

Lemma store_frame n : forall a v m m' x, store n a v m = Some m' -> x < a -> m' !! x = m !! x.
Proof.
  induction n as [|n IH]; intros a v m m' x H Hx; cbn in H; [by simplify_eq|].
  destruct (m !! a); cbn in H; [|done]. rewrite (IH _ _ _ _ _ H) by lia. by rewrite lookup_insert_ne by lia.
Qed.

Lemma load_store n : forall a v m m', store n a v m = Some m' -> load n a m' = Some (v mod 256 ^ Z.of_nat n).
Proof.
  induction n as [|n IH]; intros a v m m' H; cbn in H; [cbn; by rewrite Z.mod_1_r|].
  destruct (m !! a); cbn in H; [|done]. cbn [load]. rewrite (store_frame _ _ _ _ _ _ H), lookup_insert_eq by lia. cbn.
  rewrite (IH _ _ _ _ H). cbn. f_equal. rewrite Nat2Z.inj_succ, Z.pow_succ_r by lia. rewrite Z.rem_mul_r by lia. done.
Qed.

Lemma width_bytes_pow w : 256 ^ Z.of_nat (width_bytes w) = 2 ^ width_bits w.
Proof. by destruct w. Qed.

Lemma load_store_width w a v m m' : store (width_bytes w) a v m = Some m' -> load (width_bytes w) a m' = Some (wrapw w v).
Proof. intros H. rewrite (load_store _ _ _ _ _ H). by rewrite width_bytes_pow. Qed.

(** ** Code in the text segment *)

Definition at_code (text : list Z) (pc : Z) (c : list Z) : Prop :=
  0 <= pc /\ length text = Z.to_nat FINSH_TEXT_MAX /\ pc + Z.of_nat (length c) <= FINSH_TEXT_MAX /\
  forall k b, c !! k = Some b -> text !! (Z.to_nat pc + k)%nat = Some b.

Lemma at_code_app text pc c1 c2 : at_code text pc (c1 ++ c2) ->
  at_code text pc c1 /\ at_code text (pc + Z.of_nat (length c1)) c2.
Proof.
  intros (H1 & H2 & H3 & H4). rewrite length_app in H3. split; (split; [lia|]); (split; [done|]); (split; [lia|]); intros k b Hk.
  - apply H4. by apply lookup_app_l_Some.
  - replace (Z.to_nat (pc + Z.of_nat (length c1)) + k)%nat with (Z.to_nat pc + (length c1 + k))%nat by lia.
    apply H4. rewrite lookup_app_r by lia. by replace (length c1 + k - length c1)%nat with k by lia.
Qed.
Lemma at_code_cons text pc b c : at_code text pc (b :: c) ->
  text !! Z.to_nat pc = Some b /\ 0 <= pc < FINSH_TEXT_MAX /\ at_code text (pc + 1) c.
Proof.
  intros H. destruct (at_code_app text pc [b] c H) as [_ H2]. destruct H as (H1 & Hl & H3 & H4). cbn in H3.
  split; [|split; [lia|done]]. rewrite <- (Nat.add_0_r (Z.to_nat pc)). by apply H4.
Qed.

Section Exec.
Context {CS : CharSign}.
Variable call : Z -> list Z -> fmem -> option (Z * fmem).

Lemma get_text_run st sp pc text m i b : 0 <= i -> text !! Z.to_nat i = Some b ->
  get_text i (mk_vm st sp pc text m) = Ok b (mk_vm st sp pc text m).
Proof. intros H1 H2. unfold get_text. rewrite bind_getS. destruct (Z.ltb_spec i 0); [lia|]. cbn. by rewrite H2. Qed.

Lemma byte_bits v k n : 0 <= k -> 0 <= n ->
  Z.testbit (Z.shiftl (v / 2 ^ k mod 256) k) n = (k <=? n) && (n <? k + 8) && Z.testbit v n.
Proof.
  intros Hk Hn. rewrite Z.shiftl_spec by done. destruct (Z.leb_spec k n); [|by rewrite Z.testbit_neg_r by lia].
  change 256 with (2 ^ 8). destruct (Z.ltb_spec n (k + 8)).
  - rewrite Z.mod_pow2_bits_low, Z.div_pow2_bits by lia. cbn. f_equal. lia.
  - by rewrite Z.mod_pow2_bits_high by lia.
Qed.

Lemma join_bytes v :
  Z.lor (Z.lor (Z.lor (v mod 256) (Z.shiftl (v / 256 mod 256) 8)) (Z.shiftl (v / 65536 mod 256) 16))
    (Z.shiftl (v / 16777216 mod 256) 24) = wrapw WDword v.
Proof.
  assert (E0 : v mod 256 = Z.shiftl (v / 2 ^ 0 mod 256) 0) by by rewrite Z.div_1_r, Z.shiftl_0_r.
  rewrite E0. change 65536 with (2 ^ 16). change 16777216 with (2 ^ 24). change (v / 256) with (v / 2 ^ 8).
  apply Z.bits_inj'. intros n Hn. rewrite !Z.lor_spec, !byte_bits by lia. unfold wrapw. cbn [width_bits by_width].
  destruct (Z.lt_ge_cases n 32); [rewrite Z.mod_pow2_bits_low by lia|rewrite Z.mod_pow2_bits_high by lia];
    destruct (Z.testbit v n); rewrite ?andb_false_r, ?andb_true_r; [|done| |done];
    repeat match goal with |- context [?a <=? ?b] => destruct (Z.leb_spec a b) | |- context [?a <? ?b] => destruct (Z.ltb_spec a b) end;
    cbn; try done; lia.
Qed.

Lemma get32_run st sp pc text m p v : at_code text p (bytes32 v) ->
  FINSH_GET32 p (mk_vm st sp pc text m) = Ok (wrapw WDword v) (mk_vm st sp pc text m).
Proof.
  intros H. unfold FINSH_GET32, bytes32 in *.
  apply at_code_cons in H as (T0 & R0 & H). apply at_code_cons in H as (T1 & R1 & H).
  apply at_code_cons in H as (T2 & R2 & H). apply at_code_cons in H as (T3 & R3 & _).
  rewrite <- (Z.add_assoc p 1 1) in *. rewrite <- (Z.add_assoc p (1 + 1) 1) in *. cbn [Z.add Pos.add Pos.succ] in *.
  rewrite (bind_ok _ _ _ _ _ (get_text_run st sp pc text m p _ ltac:(lia) T0)).
  rewrite (bind_ok _ _ _ _ _ (get_text_run st sp pc text m (p + 1) _ ltac:(lia) T1)).
  rewrite (bind_ok _ _ _ _ _ (get_text_run st sp pc text m (p + 2) _ ltac:(lia) T2)).
  rewrite (bind_ok _ _ _ _ _ (get_text_run st sp pc text m (p + 3) _ ltac:(lia) T3)).
  by rewrite join_bytes.
Qed.

(** ** Steps *)

(** A run of the loop from one state to another, a turn per byte at most. *)
Definition vruns (s s' : fvm) : Prop :=
  exists n : nat, Z.of_nat n <= vm_pc s' - vm_pc s /\ forall fuel, vm_loop call (n + fuel) s = vm_loop call fuel s'.

Lemma vruns_refl s : vruns s s.
Proof. exists O. split; [lia|done]. Qed.
Lemma vruns_trans s1 s2 s3 : vruns s1 s2 -> vruns s2 s3 -> vruns s1 s3.
Proof.
  intros (n & H1 & E1) (k & H2 & E2). exists (n + k)%nat. split; [lia|]. intros fuel. by rewrite <- Nat.add_assoc, E1, E2.
Qed.
Lemma vruns_step s s' : 0 <= vm_pc s < FINSH_TEXT_MAX -> vm_pc s < vm_pc s' -> vm_step call s = Ok tt s' -> vruns s s'.
Proof.
  intros Hp Hlt E. exists 1%nat. split; [lia|]. intros fuel. cbn [Nat.add vm_loop]. rewrite bind_getS.
  destruct (Z.leb_spec 0 (vm_pc s)); [|lia]. destruct (Z.ltb_spec (vm_pc s) FINSH_TEXT_MAX); [|lia]. cbn [andb].
  by rewrite (bind_ok _ _ _ _ _ E).
Qed.

Lemma vm_step_run st sp pc text m op (f : V unit) : 0 <= pc -> text !! Z.to_nat pc = Some op -> op_table call !! Z.to_nat op = Some f ->
  vm_step call (mk_vm st sp pc text m) = f (mk_vm st sp (pc + 1) text m).
Proof.
  intros Hp Ht Hf. unfold vm_step. rewrite bind_getS. cbn [vm_pc].
  rewrite (bind_ok _ _ _ _ _ (get_text_run _ _ _ _ _ _ _ Hp Ht)). unfold set_pc. rewrite bind_modify.
  rewrite Hf. done.
Qed.

(** The stack: all of its slots, each of 32 bits. *)
Definition stack_ok (st : list Z) : Prop := length st = Z.to_nat FINSH_STACK_MAX /\ Forall is_slot st.

Lemma get_slot_run st sp pc text m i x : 0 <= i -> st !! Z.to_nat i = Some x ->
  get_slot i (mk_vm st sp pc text m) = Ok x (mk_vm st sp pc text m).
Proof. intros H1 H2. unfold get_slot. rewrite bind_getS. destruct (Z.ltb_spec i 0); [lia|]. cbn. by rewrite H2. Qed.
Lemma put_slot_run st sp pc text m i x v : 0 <= i -> st !! Z.to_nat i = Some x ->
  put_slot i v (mk_vm st sp pc text m) = Ok tt (mk_vm (<[Z.to_nat i := v]> st) sp pc text m).
Proof. intros H1 H2. unfold put_slot. by rewrite (bind_ok _ _ _ _ _ (get_slot_run _ _ _ _ _ _ _ H1 H2)). Qed.

Lemma vm_push_run w v st sp pc text m a : 0 <= sp -> st !! Z.to_nat sp = Some a ->
  push_value w v (mk_vm st sp pc text m) = Ok tt (mk_vm (<[Z.to_nat sp := slot_put w v a]> st) (sp + 1) pc text m).
Proof.
  intros H1 H2. unfold push_value. rewrite bind_getS. cbn [vm_sp].
  rewrite (bind_ok _ _ _ _ _ (get_slot_run _ _ _ _ _ _ _ H1 H2)).
  by rewrite (bind_ok _ _ _ _ _ (put_slot_run _ _ _ _ _ _ _ _ H1 H2)).
Qed.

(** *** Instructions *)

(** A step of an instruction of [n] bytes. *)
Lemma vruns_op st sp pc text m op c (f : V unit) st' sp' pc' m' : at_code text pc (op :: c) ->
  op_table call !! Z.to_nat op = Some f -> pc < pc' ->
  f (mk_vm st sp (pc + 1) text m) = Ok tt (mk_vm st' sp' pc' text m') ->
  vruns (mk_vm st sp pc text m) (mk_vm st' sp' pc' text m').
Proof.
  intros Hc Hf Hlt E. apply at_code_cons in Hc as (Ht & Hr & _). apply vruns_step; [done|done|].
  by rewrite (vm_step_run _ _ _ _ _ _ _ (proj1 Hr) Ht Hf).
Qed.

Lemma run_ld_dword st sp pc text m v a : at_code text pc (FINSH_OP_LD WDword :: bytes32 v) -> 0 <= sp -> st !! Z.to_nat sp = Some a ->
  vruns (mk_vm st sp pc text m) (mk_vm (<[Z.to_nat sp := slot_put WDword (wrapw WDword v) a]> st) (sp + 1) (pc + 5) text m).
Proof.
  intros Hc Hs Ha. eapply vruns_op; [exact Hc|reflexivity|lia|]. apply at_code_cons in Hc as (_ & _ & Hc).
  unfold OP_ld_dword. rewrite bind_getS. cbn [vm_pc]. rewrite (bind_ok _ _ _ _ _ (get32_run _ _ _ _ _ _ _ Hc)).
  rewrite (bind_ok _ _ _ _ _ (vm_push_run _ _ _ _ _ _ _ _ Hs Ha)). unfold set_pc, modify. cbn. do 2 f_equal. lia.
Qed.

Lemma run_ld_byte st sp pc text m v a : at_code text pc [FINSH_OP_LD WByte; v] -> 0 <= sp -> st !! Z.to_nat sp = Some a ->
  vruns (mk_vm st sp pc text m) (mk_vm (<[Z.to_nat sp := slot_put WByte v a]> st) (sp + 1) (pc + 2) text m).
Proof.
  intros Hc Hs Ha. eapply vruns_op; [exact Hc|reflexivity|lia|]. apply at_code_cons in Hc as (_ & _ & Hc).
  apply at_code_cons in Hc as (Ht & Hp & _). unfold OP_ld_byte. rewrite bind_getS. cbn [vm_pc].
  rewrite (bind_ok _ _ _ _ _ (get_text_run _ _ _ _ _ _ _ (proj1 Hp) Ht)).
  rewrite (bind_ok _ _ _ _ _ (vm_push_run _ _ _ _ _ _ _ _ Hs Ha)). unfold set_pc, modify. cbn. do 2 f_equal. lia.
Qed.

Lemma run_ld_word st sp pc text m v0 v1 a : at_code text pc [FINSH_OP_LD WWord; v0; v1] -> 0 <= sp -> st !! Z.to_nat sp = Some a ->
  vruns (mk_vm st sp pc text m)
    (mk_vm (<[Z.to_nat sp := slot_put WWord (Z.lor v0 (Z.shiftl v1 8)) a]> st) (sp + 1) (pc + 3) text m).
Proof.
  intros Hc Hs Ha. eapply vruns_op; [exact Hc|reflexivity|lia|]. apply at_code_cons in Hc as (_ & _ & Hc).
  apply at_code_cons in Hc as (T0 & R0 & Hc). apply at_code_cons in Hc as (T1 & R1 & _).
  unfold OP_ld_word, FINSH_GET16. rewrite bind_getS. cbn [vm_pc]. rewrite bind_assoc.
  rewrite (bind_ok _ _ _ _ _ (get_text_run _ _ _ _ _ _ _ (proj1 R0) T0)). rewrite bind_assoc.
  rewrite (bind_ok _ _ _ _ _ (get_text_run _ _ _ _ _ _ _ (proj1 R1) T1)). rewrite bind_mret.
  rewrite (bind_ok _ _ _ _ _ (vm_push_run _ _ _ _ _ _ _ _ Hs Ha)). unfold set_pc, modify. cbn. do 2 f_equal. lia.
Qed.

Lemma mem_load_run w st sp pc text m p v : load (width_bytes w) p m = Some v ->
  mem_load w p (mk_vm st sp pc text m) = Ok v (mk_vm st sp pc text m).
Proof. intros H. unfold mem_load. rewrite bind_getS. cbn [vm_mem]. by rewrite H. Qed.
Lemma mem_store_run w st sp pc text m p v m' : store (width_bytes w) p v m = Some m' ->
  mem_store w p v (mk_vm st sp pc text m) = Ok tt (mk_vm st sp pc text m').
Proof. intros H. unfold mem_store. rewrite bind_getS. cbn [vm_mem]. by rewrite H. Qed.

Lemma run_ld_value w st sp pc text m p v a : at_code text pc (FINSH_OP_LD_VALUE w :: bytes32 p) -> is_slot p ->
  load (width_bytes w) p m = Some v -> 0 <= sp -> st !! Z.to_nat sp = Some a ->
  vruns (mk_vm st sp pc text m) (mk_vm (<[Z.to_nat sp := slot_put w v a]> st) (sp + 1) (pc + 5) text m).
Proof.
  intros Hc Hp Hl Hs Ha. apply (vruns_op _ _ _ _ _ _ _ (OP_ld_value w) _ _ _ _ Hc); [by destruct w|lia|].
  apply at_code_cons in Hc as (_ & _ & Hc). unfold OP_ld_value. rewrite bind_getS. cbn [vm_pc].
  rewrite (bind_ok _ _ _ _ _ (get32_run _ _ _ _ _ _ _ Hc)), slot_range by done.
  rewrite (bind_ok _ _ _ _ _ (mem_load_run _ _ _ _ _ _ _ _ Hl)).
  rewrite (bind_ok _ _ _ _ _ (vm_push_run _ _ _ _ _ _ _ _ Hs Ha)). unfold set_pc, modify. cbn. do 2 f_equal. lia.
Qed.

(** The two top slots of a stack. *)
Lemma run_bin o w st sp pc text m a b v : at_code text pc [bin_op o w] -> 0 <= sp ->
  st !! Z.to_nat sp = Some a -> st !! Z.to_nat (sp + 1) = Some b -> c_binop o (slot_get w a) (slot_get w b) = Some v ->
  vruns (mk_vm st (sp + 2) pc text m) (mk_vm (<[Z.to_nat sp := slot_put w v a]> st) (sp + 1) (pc + 1) text m).
Proof.
  intros Hc Hs Ha Hb Hv. apply (vruns_op _ _ _ _ _ _ _ (OP_BIN w o) _ _ _ _ Hc); [by destruct o, w|lia|].
  unfold OP_BIN. rewrite bind_getS. cbn [vm_sp]. replace (sp + 2 - 2) with sp by lia. replace (sp + 2 - 1) with (sp + 1) by lia.
  rewrite (bind_ok _ _ _ _ _ (get_slot_run _ _ _ _ _ _ _ Hs Ha)).
  rewrite (bind_ok _ _ _ _ _ (get_slot_run _ _ _ _ _ (sp + 1) _ ltac:(lia) Hb)). rewrite Hv. cbn [of_option]. rewrite bind_mret.
  by rewrite (bind_ok _ _ _ _ _ (put_slot_run _ _ _ _ _ _ _ _ Hs Ha)).
Qed.

Lemma run_bw w st sp pc text m a : at_code text pc [FINSH_OP_BITWISE w] -> 0 <= sp -> st !! Z.to_nat sp = Some a ->
  vruns (mk_vm st (sp + 1) pc text m) (mk_vm (<[Z.to_nat sp := slot_put w (Z.lnot (slot_get w a)) a]> st) (sp + 1) (pc + 1) text m).
Proof.
  intros Hc Hs Ha. apply (vruns_op _ _ _ _ _ _ _ (OP_bw w) _ _ _ _ Hc); [by destruct w|lia|].
  unfold OP_bw. rewrite bind_getS. cbn [vm_sp]. replace (sp + 1 - 1) with sp by lia.
  rewrite (bind_ok _ _ _ _ _ (get_slot_run _ _ _ _ _ _ _ Hs Ha)).
  by rewrite (put_slot_run _ _ _ _ _ _ _ _ Hs Ha).
Qed.

Lemma run_ld_stack w st sp pc text m a v : at_code text pc [FINSH_OP_LD_VALUE_STACK w] -> 0 <= sp -> st !! Z.to_nat sp = Some a ->
  load (width_bytes w) a m = Some v ->
  vruns (mk_vm st (sp + 1) pc text m) (mk_vm (<[Z.to_nat sp := slot_put w v a]> st) (sp + 1) (pc + 1) text m).
Proof.
  intros Hc Hs Ha Hl. apply (vruns_op _ _ _ _ _ _ _ (OP_ld_value_stack w) _ _ _ _ Hc); [by destruct w|lia|].
  unfold OP_ld_value_stack. rewrite bind_getS. cbn [vm_sp]. replace (sp + 1 - 1) with sp by lia.
  rewrite (bind_ok _ _ _ _ _ (get_slot_run _ _ _ _ _ _ _ Hs Ha)).
  rewrite (bind_ok _ _ _ _ _ (mem_load_run _ _ _ _ _ _ _ _ Hl)).
  by rewrite (put_slot_run _ _ _ _ _ _ _ _ Hs Ha).
Qed.

Lemma run_st w st sp pc text m a b m' : at_code text pc [FINSH_OP_ST w] -> 0 <= sp ->
  st !! Z.to_nat sp = Some a -> st !! Z.to_nat (sp + 1) = Some b -> store (width_bytes w) a (wrapw w b) m = Some m' ->
  vruns (mk_vm st (sp + 2) pc text m) (mk_vm st (sp + 1) (pc + 1) text m').
Proof.
  intros Hc Hs Ha Hb Hv. apply (vruns_op _ _ _ _ _ _ _ (OP_st w) _ _ _ _ Hc); [by destruct w|lia|].
  unfold OP_st. rewrite bind_getS. cbn [vm_sp]. replace (sp + 2 - 2) with sp by lia. replace (sp + 2 - 1) with (sp + 1) by lia.
  rewrite (bind_ok _ _ _ _ _ (get_slot_run _ _ _ _ _ _ _ Hs Ha)).
  rewrite (bind_ok _ _ _ _ _ (get_slot_run _ _ _ _ _ (sp + 1) _ ltac:(lia) Hb)).
  by rewrite (bind_ok _ _ _ _ _ (mem_store_run _ _ _ _ _ _ _ _ _ Hv)).
Qed.

Lemma run_pop st sp pc text m : at_code text pc [FINSH_OP_POP] ->
  vruns (mk_vm st (sp + 1) pc text m) (mk_vm st sp (pc + 1) text m).
Proof.
  intros Hc. apply (vruns_op _ _ _ _ _ _ _ OP_pop _ _ _ _ Hc); [done|lia|].
  unfold OP_pop. rewrite bind_getS. cbn [vm_sp]. unfold set_sp, modify. cbn. do 2 f_equal. lia.
Qed.

Lemma call_args_run n : forall st sp pc text m acc vs, Z.of_nat n <= sp + 1 -> length vs = n ->
  (forall k x, vs !! k = Some x -> st !! Z.to_nat (sp + 1 - Z.of_nat n + Z.of_nat k) = Some x) ->
  call_args n acc (mk_vm st sp pc text m) = Ok (vs ++ acc) (mk_vm st (sp - Z.of_nat n) pc text m).
Proof.
  induction n as [|n IH]; intros st sp pc text m acc vs Hn Hl Hv.
  - destruct vs; [|done]. cbn. by rewrite Z.sub_0_r.
  - destruct vs as [|x vs _] using rev_ind; [done|]. rewrite length_app in Hl. cbn in Hl.
    cbn [call_args]. rewrite bind_getS. cbn [vm_sp].
    assert (Hx : st !! Z.to_nat sp = Some x).
    { rewrite <- (Hv n x); [do 2 f_equal; lia|]. rewrite lookup_app_r by lia. by replace (n - length vs)%nat with O by lia. }
    rewrite (bind_ok _ _ _ _ _ (get_slot_run _ _ _ _ _ sp _ ltac:(lia) Hx)). unfold set_sp. rewrite bind_modify. cbn.
    rewrite (IH _ _ _ _ _ (x :: acc) vs); [|lia|lia|].
    + rewrite <- app_assoc. cbn. do 2 f_equal. lia.
    + intros k y Hk. rewrite <- (Hv k y); [do 2 f_equal; lia|]. by apply lookup_app_l_Some.
Qed.

Lemma run_call st sp pc text m vs f rm : at_code text pc [FINSH_OP_SYSCALL; Z.of_nat (length vs)] -> 0 <= sp ->
  (length vs <= 16)%nat -> st !! Z.to_nat sp = Some f ->
  (forall k x, vs !! k = Some x -> st !! Z.to_nat (sp + 1 + Z.of_nat k) = Some x) ->
  call f (match vs with [] => [0] | _ => vs end) m = Some rm ->
  vruns (mk_vm st (sp + 1 + Z.of_nat (length vs)) pc text m)
    (mk_vm (<[Z.to_nat sp := wrapw WDword rm.1]> st) (sp + 1) (pc + 2) text rm.2).
Proof.
  intros Hc Hs Hl Hf Hv Hr. apply (vruns_op _ _ _ _ _ _ _ (OP_call call) _ _ _ _ Hc); [done|lia|].
  apply at_code_cons in Hc as (_ & _ & Hc). apply at_code_cons in Hc as (Ht & Hp & _).
  unfold OP_call. rewrite bind_getS. cbn [vm_pc vm_sp].
  rewrite (bind_ok _ _ _ _ _ (get_text_run _ _ _ _ _ _ _ (proj1 Hp) Ht)). unfold set_pc, set_sp. rewrite !bind_modify. cbn [vm_sp vm_pc vm_text vm_stack vm_mem].
  destruct (Z.ltb_spec 16 (Z.of_nat (length vs))); [lia|]. rewrite bind_mret, Nat2Z.id.
  erewrite (bind_ok _ _ _ _ _ (call_args_run _ _ _ _ _ _ [] vs _ eq_refl _)). rewrite bind_getS. cbn [vm_sp vm_mem]. rewrite app_nil_r.
  replace (sp + 1 + Z.of_nat (length vs) - 1 - Z.of_nat (length vs)) with sp by lia.
  rewrite (bind_ok _ _ _ _ _ (get_slot_run _ _ _ _ _ _ _ Hs Hf)).
  replace (if Z.of_nat (length vs) =? 0 then [0] else vs) with (match vs with [] => [0] | _ => vs end) by by destruct vs.
  rewrite Hr. cbn [of_option]. rewrite bind_mret, bind_modify. cbn [vm_sp vm_pc vm_text vm_stack vm_mem].
  rewrite (bind_ok _ _ _ _ _ (put_slot_run _ _ _ _ _ _ _ _ Hs Hf)). unfold modify. cbn. do 2 f_equal. lia.
  Unshelve. { lia. } { intros k x Hk. rewrite <- (Hv k x Hk). do 2 f_equal. lia. }
Qed.

End Exec.
