(* ===== verification/FinshRun.v ===== *)
(** * The byte code of an expression computes its value

    Induction on the expression: its byte code, run by the virtual machine with
    a stack of some depth, ends with the value in one more slot, the slots below
    as they were, and the memory as the expression leaves it.  Every slot pushed
    takes two bytes of code or more, so that the stack of
    [FINSH_STACK_MAX = FINSH_TEXT_MAX / 2] slots suffices for any code that fits
    the text segment. *)

From S2P Require Import Prelude KString FinshVm FinshData FinshTree FinshExec.

Lemma put_dword v s : is_slot s -> slot_put WDword v s = wrapw WDword v.
Proof. intros H. unfold slot_put. rewrite (Z.mod_small s) by done. unfold wrapw. lia. Qed.
Lemma is_slot_wrap v : is_slot (wrapw WDword v).
Proof. apply Z.mod_pos_bound. done. Qed.
Lemma wrap_i32 w v : wrapw w (i32 v) = wrapw w v.
Proof.
  unfold wrapw, i32. pose proof (width_pos w).
  rewrite <- (Z.sub_add (2 ^ 31) v) at 2. rewrite <- (Z.add_simpl_r v (2 ^ 31)) at 2.
  rewrite <- !Z.add_opp_r. rewrite add_mod_pow by lia. f_equal. lia.
Qed.

Lemma stack_ok_insert st i x : stack_ok st -> is_slot x -> stack_ok (<[i := x]> st).
Proof. intros [H1 H2] Hx. split; [by rewrite length_insert|by apply Forall_insert]. Qed.
Lemma stack_ok_lookup st i x : stack_ok st -> st !! i = Some x -> is_slot x.
Proof. intros [_ H] Hi. by eapply Forall_lookup_1. Qed.

Lemma tcode_length t : (2 <= length (tcode t))%nat.
Proof.
  induction t using tree_rect'; cbn; rewrite ?length_app; cbn; lia.
Qed.

Section Run.
Context {CS : CharSign}.
Variable call : Z -> list Z -> fmem -> option (Z * fmem).

(** The machine is about to run the code [c] with [sp] slots in use. *)
Definition ready (text : list Z) (st : list Z) (sp pc : Z) (c : list Z) : Prop :=
  at_code text pc c /\ stack_ok st /\ 0 <= sp /\ 2 * sp <= pc.

(** The code [c] pushes the value [v], of width [w]. *)
Definition pushes (text : list Z) (st : list Z) (sp pc : Z) (m : fmem) (c : list Z) (w : width) (v : Z) (m' : fmem) : Prop :=
  exists st' x, vruns call (mk_vm st sp pc text m) (mk_vm st' (sp + 1) (pc + Z.of_nat (length c)) text m') /\
    stack_ok st' /\ (forall i, (i < Z.to_nat sp)%nat -> st' !! i = st !! i) /\ st' !! Z.to_nat sp = Some x /\ wrapw w x = v.

Lemma ready_slot text st sp pc c : ready text st sp pc c -> (2 <= length c)%nat -> exists a, st !! Z.to_nat sp = Some a /\ is_slot a.
Proof.
  intros (Hc & Hs & H1 & H2) Hl. destruct Hc as (_ & _ & H3 & _). unfold FINSH_TEXT_MAX in H3.
  destruct (lookup_lt_is_Some_2 st (Z.to_nat sp)) as [a Ha]; [rewrite (proj1 Hs); unfold FINSH_STACK_MAX; lia|].
  exists a. split; [done|by eapply stack_ok_lookup].
Qed.

(** An instruction that writes one slot. *)
Lemma pushes_insert text st st1 sp pc m m' c w x :
  vruns call (mk_vm st sp pc text m) (mk_vm (<[Z.to_nat sp := x]> st1) (sp + 1) (pc + Z.of_nat (length c)) text m') ->
  stack_ok st1 -> (forall i, (i < Z.to_nat sp)%nat -> st1 !! i = st !! i) -> (Z.to_nat sp < length st1)%nat -> is_slot x ->
  pushes text st sp pc m c w (wrapw w x) m'.
Proof.
  intros Hr Hs Hi Hl Hx. exists (<[Z.to_nat sp := x]> st1), x. split; [done|]. split; [by apply stack_ok_insert|].
  split; [intros i Hlt; rewrite list_lookup_insert_ne by lia; by apply Hi|]. split; [by apply list_lookup_insert_eq|done].
Qed.

Lemma push_dword text st sp pc m v : ready text st sp pc (FINSH_OP_LD WDword :: bytes32 v) ->
  pushes text st sp pc m (FINSH_OP_LD WDword :: bytes32 v) WDword (wrapw WDword v) m.
Proof.
  intros Hr. destruct (ready_slot _ _ _ _ _ Hr) as (a & Ha & Hx); [cbn; lia|]. destruct Hr as (Hc & Hs & H1 & H2).
  rewrite <- (wrap_wrap _ WDword) by done. apply (pushes_insert _ _ st).
  - pose proof (run_ld_dword call st sp pc text m v a Hc H1 Ha) as E. rewrite put_dword, wrap_wrap in E by done. exact E.
  - done.
  - done.
  - by eapply lookup_lt_Some.
  - apply is_slot_wrap.
Qed.

Lemma push_byte text st sp pc m v : ready text st sp pc [FINSH_OP_LD WByte; v] ->
  pushes text st sp pc m [FINSH_OP_LD WByte; v] WByte (wrapw WByte v) m.
Proof.
  intros Hr. destruct (ready_slot _ _ _ _ _ Hr) as (a & Ha & Hx); [cbn; lia|]. destruct Hr as (Hc & Hs & H1 & H2).
  rewrite <- (put_wrap WByte v a). apply (pushes_insert _ _ st); [by apply run_ld_byte|done|done|by eapply lookup_lt_Some|by apply put_range].
Qed.

Lemma push_load text st sp pc m w p v : ready text st sp pc (FINSH_OP_LD_VALUE w :: bytes32 p) -> is_slot p ->
  load (width_bytes w) p m = Some v -> pushes text st sp pc m (FINSH_OP_LD_VALUE w :: bytes32 p) w (wrapw w v) m.
Proof.
  intros Hr Hp Hl. destruct (ready_slot _ _ _ _ _ Hr) as (a & Ha & Hx); [cbn; lia|]. destruct Hr as (Hc & Hs & H1 & H2).
  rewrite <- (put_wrap w v a). apply (pushes_insert _ _ st); [by eapply run_ld_value|done|done|by eapply lookup_lt_Some|by apply put_range].
Qed.

Lemma push_one text st sp pc m w : ready text st sp pc (one_code w) -> pushes text st sp pc m (one_code w) w 1 m.
Proof.
  intros Hr. destruct w; [by apply push_byte| |exact (push_dword _ _ _ _ m 1 Hr)].
  destruct (ready_slot _ _ _ _ _ Hr) as (a & Ha & Hx); [cbn; lia|]. destruct Hr as (Hc & Hs & H1 & H2).
  change 1 with (wrapw WWord (Z.lor 1 (Z.shiftl 0 8))). rewrite <- (put_wrap WWord _ a).
  apply (pushes_insert _ _ st); [by apply run_ld_word|done|done|by eapply lookup_lt_Some|by apply put_range].
Qed.

(** What is left to run after a push. *)
Lemma ready_next text st st' sp pc c1 c2 : ready text st sp pc (c1 ++ c2) -> stack_ok st' -> (2 <= length c1)%nat ->
  ready text st' (sp + 1) (pc + Z.of_nat (length c1)) c2.
Proof. intros (Hc & _ & H1 & H2) Hs Hl. apply at_code_app in Hc as [_ Hc]. split; [done|]. split; [done|]. lia. Qed.
Lemma ready_first text st sp pc c1 c2 : ready text st sp pc (c1 ++ c2) -> ready text st sp pc c1.
Proof. intros (Hc & H). split; [exact (proj1 (at_code_app _ _ _ _ Hc))|done]. Qed.

(** One code after the other, with a last instruction that works on what the first pushed. *)
Lemma pushes_then text st sp pc m c1 c2 w1 v1 m1 w v m2 : pushes text st sp pc m c1 w1 v1 m1 ->
  (forall st1 x, stack_ok st1 -> (forall i, (i < Z.to_nat sp)%nat -> st1 !! i = st !! i) -> st1 !! Z.to_nat sp = Some x -> wrapw w1 x = v1 ->
    exists st2 y, vruns call (mk_vm st1 (sp + 1) (pc + Z.of_nat (length c1)) text m1)
      (mk_vm st2 (sp + 1) (pc + Z.of_nat (length c1) + Z.of_nat (length c2)) text m2) /\
      stack_ok st2 /\ (forall i, (i < Z.to_nat sp)%nat -> st2 !! i = st1 !! i) /\ st2 !! Z.to_nat sp = Some y /\ wrapw w y = v) ->
  pushes text st sp pc m (c1 ++ c2) w v m2.
Proof.
  intros (st1 & x & R1 & S1 & F1 & X1 & E1) H. destruct (H st1 x S1 F1 X1 E1) as (st2 & y & R2 & S2 & F2 & X2 & E2).
  exists st2, y. rewrite length_app, Nat2Z.inj_add, Z.add_assoc. split; [by eapply vruns_trans|]. split; [done|].
  split; [intros i Hi; by rewrite F2, F1|done].
Qed.

(** A binary operator on what two codes pushed. *)
Lemma pushes_bin text st sp pc m c1 c2 o w w1 w2 a b v m1 m2 : ready text st sp pc (c1 ++ c2 ++ [bin_op o w]) ->
  pushes text st sp pc m c1 w1 a m1 -> (2 <= length c1)%nat ->
  (forall st1, ready text st1 (sp + 1) (pc + Z.of_nat (length c1)) c2 ->
    pushes text st1 (sp + 1) (pc + Z.of_nat (length c1)) m1 c2 w2 b m2) ->
  width_le w w1 = true -> width_le w w2 = true -> c_binop o (slot_get w a) (slot_get w b) = Some v ->
  pushes text st sp pc m (c1 ++ c2 ++ [bin_op o w]) w (wrapw w v) m2.
Proof.
  intros Hr P1 Hl P2 W1 W2 Hv. eapply pushes_then; [exact P1|]. intros st1 x S1 F1 X1 <-.
  pose proof (ready_next _ _ st1 _ _ _ _ Hr S1 Hl) as Hr1.
  destruct (P2 st1 (ready_first _ _ _ _ _ _ Hr1)) as (st2 & y & R2 & S2 & F2 & X2 & <-).
  destruct Hr as (_ & _ & Hsp & _). assert (X1' : st2 !! Z.to_nat sp = Some x) by by rewrite F2 by lia.
  exists (<[Z.to_nat sp := slot_put w v x]> st2), (slot_put w v x). split; [|split; [|split; [|split]]].
  - eapply vruns_trans; [exact R2|]. rewrite length_app, Nat2Z.inj_add, Z.add_assoc. cbn [length].
    replace (sp + 1 + 1) with (sp + 2) by lia. apply (run_bin call o w _ _ _ _ _ x y v); [|done|done|done|].
    + destruct Hr1 as (Hc & _). by apply at_code_app in Hc as [_ Hc].
    + by rewrite <- (slot_get_wrap w w1 x), <- (slot_get_wrap w w2 y).
  - apply stack_ok_insert; [done|]. apply put_range. by eapply stack_ok_lookup.
  - intros i Hi. rewrite list_lookup_insert_ne by lia. apply F2. lia.
  - apply list_lookup_insert_eq. by eapply lookup_lt_Some.
  - apply put_wrap.
Qed.

(** An instruction that replaces the top slot. *)
Lemma pushes_top text st sp pc m c1 i w1 a w v m1 (f : Z -> Z) : pushes text st sp pc m c1 w1 a m1 -> ready text st sp pc (c1 ++ [i]) ->
  (forall st1 x, at_code text (pc + Z.of_nat (length c1)) [i] -> stack_ok st1 -> st1 !! Z.to_nat sp = Some x -> wrapw w1 x = a ->
    vruns call (mk_vm st1 (sp + 1) (pc + Z.of_nat (length c1)) text m1)
      (mk_vm (<[Z.to_nat sp := slot_put w (f x) x]> st1) (sp + 1) (pc + Z.of_nat (length c1) + 1) text m1)
    /\ wrapw w (f x) = v) ->
  pushes text st sp pc m (c1 ++ [i]) w v m1.
Proof.
  intros P1 (Hc & _ & Hsp & _) H. eapply pushes_then; [exact P1|]. intros st1 x S1 F1 X1 E. apply at_code_app in Hc as [_ Hc].
  destruct (H st1 x Hc S1 X1 E) as [R <-].
  exists (<[Z.to_nat sp := slot_put w (f x) x]> st1), (slot_put w (f x) x). split; [exact R|].
  split; [apply stack_ok_insert; [done|]; apply put_range; by eapply stack_ok_lookup|].
  split; [intros j Hj; by rewrite list_lookup_insert_ne by lia|].
  split; [apply list_lookup_insert_eq; by eapply lookup_lt_Some|apply put_wrap].
Qed.

(** The update of [++] and [--]: the address is on top of the stack and stays there. *)
Definition update_code (sub : bool) (w : width) (p : Z) : list Z :=
  ((FINSH_OP_LD_VALUE w :: bytes32 p) ++ one_code w ++ [bin_op (if sub then BSub else BAdd) w]) ++ [FINSH_OP_ST w].

Lemma step_bin (sub : bool) w v : exists r, c_binop (if sub then BSub else BAdd) (slot_get w v) (slot_get w 1) = Some r /\ wrapw w r = stepped sub w v.
Proof.
  assert (E : slot_get w 1 = 1) by (destruct w; [unfold slot_get; by destruct char_signed|done|done]).
  rewrite E. unfold stepped. destruct sub; cbn; eexists; (split; [reflexivity|apply wrap_i32]).
Qed.

Lemma run_update (sub : bool) w p st sp pc text m v m2 : ready text st (sp + 1) pc (update_code sub w p) -> 0 <= sp -> is_slot p ->
  st !! Z.to_nat sp = Some p -> load (width_bytes w) p m = Some v -> store (width_bytes w) p (stepped sub w v) m = Some m2 ->
  exists st', vruns call (mk_vm st (sp + 1) pc text m) (mk_vm st' (sp + 1) (pc + Z.of_nat (length (update_code sub w p))) text m2) /\
    stack_ok st' /\ forall i, (i < Z.to_nat (sp + 1))%nat -> st' !! i = st !! i.
Proof.
  intros Hr Hsp Hp Ha Hl Hst. destruct (step_bin sub w v) as (r & Hb & Er).
  assert (P : pushes text st (sp + 1) pc m ((FINSH_OP_LD_VALUE w :: bytes32 p) ++ one_code w ++ [bin_op (if sub then BSub else BAdd) w])
    w (wrapw w r) m).
  { pose proof (ready_first _ _ _ _ _ _ Hr) as Hr'. eapply (pushes_bin text st (sp + 1) pc m _ _ _ w w w (wrapw w v) 1); [done| | | | | |].
    - apply push_load; [by eapply ready_first|done|done].
    - cbn. lia.
    - intros st1 Hr1. by apply push_one.
    - apply width_le_refl.
    - apply width_le_refl.
    - by rewrite (slot_get_wrap w w) by apply width_le_refl. }
  destruct P as (st' & x & R & S' & F & X & E). exists st'. split; [|by split].
  eapply vruns_trans; [exact R|]. unfold update_code. rewrite (length_app _ [FINSH_OP_ST w]), Nat2Z.inj_add, Z.add_assoc. cbn [length].
  replace (sp + 1 + 1) with (sp + 2) by lia. apply (run_st call w _ _ _ _ _ p x).
  - destruct Hr as (Hc & _). by apply at_code_app in Hc as [_ Hc].
  - done.
  - by rewrite F by lia.
  - done.
  - by rewrite E, Er.
Qed.

(** ** Expressions *)

Definition exec_spec (t : tree) : Prop := forall text st sp pc m v m', wide t = true -> eval call t m = Some (v, m') ->
  ready text st sp pc (tcode t) -> pushes text st sp pc m (tcode t) (tdef t) v m'.

Lemma addressed_slot x : addressed x = true -> is_slot (pl_addr x).
Proof. intros [H1 H2]%andb_true_iff. unfold is_slot. lia. Qed.

Lemma exec_bin o l r : exec_spec l -> exec_spec r -> exec_spec (TBin o l r).
Proof.
  intros IHl IHr text st sp pc m v m' Hw He Hr. cbn [wide] in Hw. apply andb_true_iff in Hw as [[Wl Wr]%andb_true_iff Hw].
  cbn [eval] in He. cbn [tcode] in Hr |- *. unfold tdef. cbn [ttype]. destruct (ttype l) as [w|]; [|done]. cbn in He |- *.
  apply andb_true_iff in Hw as [H1 H2].
  destruct (eval call l m) as [[a m1]|] eqn:El; [|done]. cbn in He. destruct (eval call r m1) as [[b m2]|] eqn:Er; [|done]. cbn in He.
  destruct (c_binop _ _ _) as [x|] eqn:Ex; [|done]. cbn in He. injection He as <- <-.
  eapply pushes_bin; [done| |apply tcode_length| |exact H1|exact H2|exact Ex].
  - apply IHl; [done|done|by eapply ready_first].
  - intros st1 Hr1. by apply IHr.
Qed.

Lemma exec_not e : exec_spec e -> exec_spec (TNot e).
Proof.
  intros IH text st sp pc m v m' Hw He Hr. cbn [wide] in Hw. apply andb_true_iff in Hw as [We Hw].
  cbn [eval] in He. cbn [tcode] in Hr |- *. unfold tdef. cbn [ttype]. destruct (ttype e) as [w|]; [|done]. cbn in He |- *.
  destruct (eval call e m) as [[a m1]|] eqn:Ee; [|done]. cbn in He. injection He as <- <-.
  eapply (pushes_top _ _ _ _ _ _ _ _ _ _ _ _ (fun x => Z.lnot (slot_get w x)));
    [apply IH; [done|exact Ee|by eapply ready_first]|done|]. intros st1 x Hc S1 X1 <-. split.
  - apply run_bw; [done|apply Hr|done].
  - by rewrite (slot_get_wrap w (tdef e) x).
Qed.

Lemma exec_deref e : exec_spec e -> exec_spec (TDeref e).
Proof.
  intros IH text st sp pc m v m' Hw He Hr. cbn [wide] in Hw. apply andb_true_iff in Hw as [[We Hs]%andb_true_iff Hw].
  cbn [eval] in He. cbn [tcode] in Hr |- *. unfold tdef. cbn [ttype]. destruct (ttype e) as [w|]; [|done]. cbn in He |- *.
  destruct (eval call e m) as [[a m1]|] eqn:Ee; [|done]. cbn in He.
  destruct (load _ a m1) as [y|] eqn:Ey; [|done]. cbn in He. injection He as <- <-.
  eapply (pushes_top _ _ _ _ _ _ _ _ _ _ _ _ (fun x => y));
    [apply IH; [done|exact Ee|by eapply ready_first]|done|]. intros st1 x Hc S1 X1 <-. split; [|done].
  apply run_ld_stack; [done|apply Hr|done|]. assert (Ed : tdef e = WDword) by (by destruct (tdef e)). rewrite Ed in Ey.
  rewrite slot_range in Ey by by eapply stack_ok_lookup. done.
Qed.

(** A store: the address and the value are on the stack, the value is left. *)
Lemma pushes_store text st sp pc m c1 c2 w w2 p b m1 m2 m3 : ready text st sp pc (c1 ++ c2 ++ [FINSH_OP_ST w; FINSH_OP_LD_VALUE_STACK w]) ->
  pushes text st sp pc m c1 WDword p m1 -> (2 <= length c1)%nat ->
  (forall st1, ready text st1 (sp + 1) (pc + Z.of_nat (length c1)) c2 ->
    pushes text st1 (sp + 1) (pc + Z.of_nat (length c1)) m1 c2 w2 b m2) ->
  width_le w w2 = true -> store (width_bytes w) p (wrapw w b) m2 = Some m3 ->
  pushes text st sp pc m (c1 ++ c2 ++ [FINSH_OP_ST w; FINSH_OP_LD_VALUE_STACK w]) w (wrapw w b) m3.
Proof.
  intros Hr P1 Hl P2 W2 Hst. eapply pushes_then; [exact P1|]. intros st1 x S1 F1 X1 E1.
  rewrite slot_range in E1 by by eapply stack_ok_lookup. subst x.
  pose proof (ready_next _ _ st1 _ _ _ _ Hr S1 Hl) as Hr1.
  destruct (P2 st1 (ready_first _ _ _ _ _ _ Hr1)) as (st2 & y & R2 & S2 & F2 & X2 & E2).
  destruct Hr as (_ & _ & Hsp & _). assert (X1' : st2 !! Z.to_nat sp = Some p) by by rewrite F2 by lia.
  destruct Hr1 as (Hc & _). apply at_code_app in Hc as [_ Hc]. pose proof (at_code_app _ _ [_] [_] Hc) as [C1 C2]. cbn [length] in C2.
  exists (<[Z.to_nat sp := slot_put w (wrapw w b) p]> st2), (slot_put w (wrapw w b) p).
  split; [|split; [|split; [|split]]].
  - eapply vruns_trans; [exact R2|]. eapply vruns_trans.
    + replace (sp + 1 + 1) with (sp + 2) by lia. eapply run_st; [exact C1|done|done|done|].
      rewrite <- (wrap_wrap _ w2), E2 by done. exact Hst.
    + rewrite (length_app c2), Nat2Z.inj_add, Z.add_assoc.
      pose proof (run_ld_stack call _ _ _ _ _ _ _ _ C2 Hsp X1' (load_store_width _ _ _ _ _ Hst)) as R.
      rewrite wrap_wrap in R by apply width_le_refl. rewrite <- (Z.add_assoc _ 1 1) in R. exact R.
  - apply stack_ok_insert; [done|]. apply put_range. by eapply stack_ok_lookup.
  - intros i Hi. rewrite list_lookup_insert_ne by lia. apply F2. lia.
  - apply list_lookup_insert_eq. by eapply lookup_lt_Some.
  - rewrite put_wrap. apply wrap_wrap, width_le_refl.
Qed.

Lemma exec_assign x e : exec_spec e -> exec_spec (TAssign x e).
Proof.
  intros IH text st sp pc m v m' Hw He Hr. cbn [wide] in Hw. apply andb_true_iff in Hw as [[Ha We]%andb_true_iff Hw].
  cbn [eval] in He. cbn [tcode tdef] in Hr |- *. apply addressed_slot in Ha.
  destruct (eval call e m) as [[a m1]|] eqn:Ee; [|done]. cbn in He.
  destruct (store _ _ _ m1) as [m2|] eqn:Em; [|done]. cbn in He. injection He as <- <-.
  eapply pushes_store; [done|apply push_dword; by eapply ready_first|cbn; lia| |exact Hw|].
  - intros st1 Hr1. by apply IH.
  - by rewrite slot_range.
Qed.

Lemma exec_store p e : exec_spec p -> exec_spec e -> exec_spec (TStore p e).
Proof.
  intros IHp IHe text st sp pc m v m' Hw He Hr. cbn [wide] in Hw.
  apply andb_true_iff in Hw as [[[Wp We]%andb_true_iff Wd]%andb_true_iff Hw].
  cbn [eval] in He. cbn [tcode] in Hr |- *. unfold tdef. cbn [ttype]. destruct (ttype p) as [w|]; [|done]. cbn in He |- *.
  destruct (eval call p m) as [[a m1]|] eqn:Ep; [|done]. cbn in He. destruct (eval call e m1) as [[b m2]|] eqn:Ee; [|done]. cbn in He.
  destruct (store _ _ _ m2) as [m3|] eqn:Em; [|done]. cbn in He. injection He as <- <-.
  assert (Ed : tdef p = WDword) by (by destruct (tdef p)).
  eapply pushes_store; [done| |apply tcode_length| |exact Hw|exact Em].
  - rewrite <- Ed. apply IHp; [done|done|by eapply ready_first].
  - intros st1 Hr1. by apply IHe.
Qed.

Lemma step_op_bin (sub : bool) w : step_op sub w = bin_op (if sub then BSub else BAdd) w.
Proof. by destruct sub. Qed.
Lemma pre_code_update sub w p : pre_code (step_op sub) w p = update_code sub w p ++ [FINSH_OP_LD_VALUE_STACK WDword].
Proof. unfold pre_code, update_code. rewrite step_op_bin, <- !app_assoc. done. Qed.
Lemma post_code_update sub w p :
  post_code (step_op sub) w p = (FINSH_OP_LD WDword :: bytes32 p) ++ update_code sub w p ++ [FINSH_OP_POP].
Proof. unfold post_code, update_code. rewrite step_op_bin, <- !app_assoc. done. Qed.

Lemma exec_pre sub x : exec_spec (TPre sub x).
Proof.
  intros text st sp pc m v m' Hw He Hr. cbn [wide] in Hw. cbn [eval] in He. cbn [tcode tdef] in Hr |- *. apply addressed_slot in Hw.
  destruct (load _ _ m) as [y|] eqn:Ey; [|done]. cbn [mbind option_bind] in He.
  destruct (store _ _ _ m) as [m2|] eqn:Em; [|done]. cbn [mbind option_bind] in He.
  destruct (load 4 _ m2) as [z|] eqn:Ez; [|done]. cbn in He. injection He as <- <-. rewrite pre_code_update in Hr |- *.
  eapply pushes_then; [apply push_dword; by eapply ready_first|]. intros st1 a S1 F1 X1 E1.
  rewrite !slot_range in E1 by (done || by eapply stack_ok_lookup). subst a.
  pose proof (ready_next _ _ st1 _ _ _ _ Hr S1 ltac:(cbn; lia)) as Hr1. destruct Hr as (_ & _ & Hsp & _).
  destruct (run_update _ _ _ _ _ _ _ _ _ _ (ready_first _ _ _ _ _ _ Hr1) Hsp Hw X1 Ey Em) as (st2 & R2 & S2 & F2).
  assert (X2 : st2 !! Z.to_nat sp = Some (pl_addr x)) by by rewrite F2 by lia.
  destruct Hr1 as (Hc & _). apply at_code_app in Hc as [_ Hc].
  exists (<[Z.to_nat sp := slot_put WDword z (pl_addr x)]> st2), (slot_put WDword z (pl_addr x)).
  split; [|split; [|split; [|split]]].
  - eapply vruns_trans; [exact R2|]. rewrite (length_app (update_code _ _ _)), Nat2Z.inj_add, Z.add_assoc. by apply run_ld_stack.
  - by apply stack_ok_insert, put_range.
  - intros i Hi. rewrite list_lookup_insert_ne by lia. apply F2. lia.
  - apply list_lookup_insert_eq. by eapply lookup_lt_Some.
  - apply put_wrap.
Qed.

Lemma exec_post sub x : exec_spec (TPost sub x).
Proof.
  intros text st sp pc m v m' Hw He Hr. cbn [wide] in Hw. cbn [eval] in He. cbn [tcode tdef] in Hr |- *. apply addressed_slot in Hw.
  destruct (load _ _ m) as [y|] eqn:Ey; [|done]. cbn in He. destruct (store _ _ _ m) as [m2|] eqn:Em; [|done]. cbn in He.
  injection He as <- <-. rewrite post_code_update in Hr |- *.
  eapply pushes_then; [apply push_load; [by eapply ready_first|done|done]|]. intros st1 a S1 F1 X1 E1.
  pose proof (ready_next _ _ st1 _ _ _ _ Hr S1 ltac:(cbn; lia)) as Hr1. destruct Hr as (_ & _ & Hsp & _).
  destruct (push_dword _ _ _ _ m _ (ready_first _ _ _ _ _ _ Hr1)) as (st2 & b & R2 & S2 & F2 & X2 & E2).
  rewrite !slot_range in E2 by (done || by eapply stack_ok_lookup). subst b.
  pose proof (ready_next _ _ st2 _ _ _ _ Hr1 S2 ltac:(cbn; lia)) as Hr2.
  destruct (run_update _ _ _ _ _ _ _ _ _ _ (ready_first _ _ _ _ _ _ Hr2) ltac:(lia) Hw X2 Ey Em) as (st3 & R3 & S3 & F3).
  destruct Hr2 as (Hc & _). apply at_code_app in Hc as [_ Hc].
  exists st3, a. split; [|split; [done|split; [|split; [|done]]]].
  - eapply vruns_trans; [exact R2|]. eapply vruns_trans; [exact R3|].
    rewrite (length_app (_ :: _)), (length_app (update_code _ _ _)), !Nat2Z.inj_add, !Z.add_assoc. by apply run_pop.
  - intros i Hi. rewrite F3, F2 by lia. done.
  - rewrite F3, F2 by lia. done.
Qed.

Lemma exec_args args : Forall exec_spec args -> forall text st sp pc m vs m', forallb wide args = true ->
  forallb (fun e => width_le WDword (tdef e)) args = true -> evals call args m = Some (vs, m') ->
  ready text st sp pc (concat (tcode <$> args)) ->
  exists st', vruns call (mk_vm st sp pc text m)
      (mk_vm st' (sp + Z.of_nat (length vs)) (pc + Z.of_nat (length (concat (tcode <$> args)))) text m') /\
    stack_ok st' /\ (forall i, (i < Z.to_nat sp)%nat -> st' !! i = st !! i) /\ length vs = length args /\
    forall k x, vs !! k = Some x -> st' !! Z.to_nat (sp + Z.of_nat k) = Some x.
Proof.
  induction 1 as [|t args Ht _ IH]; intros text st sp pc m vs m' Hw Hd He Hr.
  - injection He as <- <-. exists st. cbn. rewrite !Z.add_0_r. split; [apply vruns_refl|]. by split; [apply Hr|].
  - cbn in Hw, Hd. apply andb_true_iff in Hw as [Wt Hw], Hd as [Dt Hd]. cbn [evals] in He.
    destruct (eval call t m) as [[a m1]|] eqn:Et; [|done]. cbn in He.
    destruct (evals call args m1) as [[vs1 m2]|] eqn:Ea; [|done]. cbn in He. injection He as <- <-. cbn [fmap list_fmap concat] in Hr |- *.
    destruct (Ht _ _ _ _ _ _ _ Wt Et (ready_first _ _ _ _ _ _ Hr)) as (st1 & x & R1 & S1 & F1 & X1 & E1).
    assert (Ed : tdef t = WDword) by (by destruct (tdef t)). rewrite Ed, slot_range in E1 by by eapply stack_ok_lookup. subst x.
    pose proof (ready_next _ _ st1 _ _ _ _ Hr S1 (tcode_length t)) as Hr1. destruct Hr as (_ & _ & Hsp & _).
    destruct (IH _ _ _ _ _ _ _ Hw Hd Ea Hr1) as (st2 & R2 & S2 & F2 & L2 & V2). exists st2. split; [|split; [done|split; [|split]]].
    + eapply vruns_trans; [exact R1|]. cbn [length]. rewrite length_app, Nat2Z.inj_add, Z.add_assoc, Nat2Z.inj_succ.
      by replace (sp + Z.succ (Z.of_nat (length vs1))) with (sp + 1 + Z.of_nat (length vs1)) by lia.
    + intros i Hi. rewrite F2, F1 by lia. done.
    + cbn. by rewrite L2.
    + intros [|k] y Hk; cbn in Hk; [injection Hk as <-; by rewrite Z.add_0_r, F2 by lia|].
      rewrite <- (V2 k y Hk). do 2 f_equal. lia.
Qed.

Lemma exec_call sym func args : Forall exec_spec args -> exec_spec (TCall sym func args).
Proof.
  intros IH text st sp pc m v m' Hw He Hr. cbn [wide] in Hw.
  apply andb_true_iff in Hw as [[Hw Hd]%andb_true_iff Hn%Nat.leb_le].
  change ((vs ← evals call args m; r ← call (wrapw WDword func) (match vs.1 with [] => [0] | _ => vs.1 end) vs.2;
          Some (wrapw WDword r.1, r.2)) = Some (v, m')) in He.
  destruct (evals call args m) as [[vs m1]|] eqn:Ea; [|done]. cbn [mbind option_bind fst snd] in He.
  destruct (call _ _ m1) as [r|] eqn:Ec; [|done]. cbn in He. injection He as <- <-. cbn [tcode tdef] in Hr |- *.
  eapply pushes_then; [apply push_dword; by eapply ready_first|]. intros st1 f S1 F1 X1 E1.
  rewrite (slot_range f) in E1 by by eapply stack_ok_lookup. subst f.
  pose proof (ready_next _ _ st1 _ _ _ _ Hr S1 ltac:(cbn; lia)) as Hr1. destruct Hr as (_ & _ & Hsp & _).
  destruct (exec_args args IH _ _ _ _ _ _ _ Hw Hd Ea (ready_first _ _ _ _ _ _ Hr1)) as (st2 & R2 & S2 & F2 & L2 & V2).
  destruct Hr1 as (Hc & _). apply at_code_app in Hc as [_ Hc]. rewrite Z.mod_small, <- L2 in Hc by lia.
  assert (X2 : st2 !! Z.to_nat sp = Some (wrapw WDword func)) by by rewrite F2 by lia.
  exists (<[Z.to_nat sp := wrapw WDword r.1]> st2), (wrapw WDword r.1). split; [|split; [|split; [|split]]].
  - eapply vruns_trans; [exact R2|]. rewrite (length_app (concat _)), Nat2Z.inj_add, Z.add_assoc. cbn [length].
    eapply run_call; [exact Hc|done|lia|exact X2|exact V2|exact Ec].
  - by apply stack_ok_insert, is_slot_wrap.
  - intros i Hi. rewrite list_lookup_insert_ne by lia. apply F2. lia.
  - apply list_lookup_insert_eq. by eapply lookup_lt_Some.
  - by apply wrap_wrap.
Qed.

(** The byte code of every expression computes its value. *)
Lemma exec_tree t : exec_spec t.
Proof.
  induction t using tree_rect'; [..|by apply exec_bin|by apply exec_not|by apply exec_assign|apply exec_pre|apply exec_post| |
    by apply exec_deref|by apply exec_store|by apply exec_call]; intros text st sp pc m r m' Hw He Hr; cbn [wide] in Hw; cbn [eval] in He;
    cbn [tcode tdef] in Hr |- *.
  1-3,5: injection He as <- <-.
  - by apply push_dword.
  - by apply push_dword.
  - rewrite <- (wrap_wrap _ WByte) by apply width_le_refl. by apply push_byte.
  - by apply push_dword.
  - destruct (load _ _ _) as [y|] eqn:Ey; [|done]. cbn in He. injection He as <- <-. apply push_load; [done|by apply addressed_slot|done].
Qed.

End Run.
