(* ===== verification/FinshComp.v ===== *)
(** * From expressions to byte code

    The syntax tree the parser builds for an expression, what the type check
    makes of it, and that the compiler writes [tcode] for it. *)

From S2P Require Import Prelude KString FinshVm FinshData FinshHeap FinshNode FinshCompiler FinshTree FinshExec.
From S2P Require Import FinshRun.

(** ** Syntax trees of expressions *)

Definition bin_node (o : binop) : Z :=
  match o with
  | BAdd => FINSH_NODE_SYS_ADD | BSub => FINSH_NODE_SYS_SUB | BDiv => FINSH_NODE_SYS_DIV | BMod => FINSH_NODE_SYS_MOD
  | BMul => FINSH_NODE_SYS_MUL | BAnd => FINSH_NODE_SYS_AND | BOr => FINSH_NODE_SYS_OR | BXor => FINSH_NODE_SYS_XOR
  | BShl => FINSH_NODE_SYS_SHL | BShr => FINSH_NODE_SYS_SHR
  end.

Definition plain_node (type : Z) : ndata := ND type 0 0 0 0.
Definition id_node (kind id : Z) : ndata := ND FINSH_NODE_ID 0 kind 0 id.
Definition place_node (x : place) : ndata := id_node (pl_kind x) (pl_id x).

(** The root of the tree of an expression. *)
Definition node_of (t : tree) : ndata :=
  match t with
  | TInt v => ND FINSH_NODE_VALUE_INT 0 0 (u32 v) 0
  | TLong v => ND FINSH_NODE_VALUE_LONG 0 0 (u32 v) 0
  | TChar c => ND FINSH_NODE_VALUE_CHAR 0 0 (c mod 256) 0
  | TPlace x => place_node x
  | TBin o _ _ => plain_node (bin_node o)
  | TNot _ => plain_node FINSH_NODE_SYS_BITWISE
  | TAssign _ _ | TStore _ _ => plain_node FINSH_NODE_SYS_ASSIGN
  | TPre sub _ => plain_node (if sub then FINSH_NODE_SYS_PREDEC else FINSH_NODE_SYS_PREINC)
  | TPost sub _ => plain_node (if sub then FINSH_NODE_SYS_DEC else FINSH_NODE_SYS_INC)
  | TAddr _ => plain_node FINSH_NODE_SYS_GETADDR
  | TDeref _ => plain_node FINSH_NODE_SYS_GETVALUE
  | TCall _ _ _ => plain_node FINSH_NODE_SYS_FUNC
  end.

Fixpoint kids_of (t : tree) : forest :=
  match t with
  | TInt _ | TLong _ | TChar _ | TPlace _ => FNil
  | TBin _ l r => FCons (node_of l) (kids_of l) (FCons (node_of r) (kids_of r) FNil)
  | TNot e | TDeref e => FCons (node_of e) (kids_of e) FNil
  | TAssign x e => FCons (place_node x) FNil (FCons (node_of e) (kids_of e) FNil)
  | TPre _ x | TPost _ x | TAddr x => FCons (place_node x) FNil FNil
  | TStore p e =>
      FCons (plain_node FINSH_NODE_SYS_GETVALUE) (FCons (node_of p) (kids_of p) FNil) (FCons (node_of e) (kids_of e) FNil)
  | TCall sym _ args =>
      FCons (id_node FINSH_IDTYPE_SYSCALL sym) FNil
        ((fix go l := match l with [] => FNil | t :: l => FCons (node_of t) (kids_of t) (go l) end) args)
  end.

Definition forest_of (t : tree) (rest : forest) : forest := FCons (node_of t) (kids_of t) rest.
Definition forests_of (l : list tree) : forest := foldr forest_of FNil l.

Lemma kids_of_call sym func args : kids_of (TCall sym func args) = FCons (id_node FINSH_IDTYPE_SYSCALL sym) FNil (forests_of args).
Proof. reflexivity. Qed.

(** ** Typed trees *)

Definition width_data (w : width) : Z :=
  match w with WByte => FINSH_DATA_TYPE_BYTE | WWord => FINSH_DATA_TYPE_WORD | WDword => FINSH_DATA_TYPE_DWORD end.
Definition tree_data (t : tree) : Z := match ttype t with Some w => width_data w | None => FINSH_DATA_TYPE_VOID end.

Definition with_dtype (data : Z) (d : ndata) : ndata := {| d with d_data := data |}.
Definition typed_node (t : tree) : ndata := with_dtype (tree_data t) (node_of t).

(** A variable as a value and as an address. *)
Definition value_node (x : place) : ndata := with_dtype (width_data (pl_width x)) (place_node x).
Definition address_node (x : place) : ndata :=
  ND FINSH_NODE_ID (width_data (pl_width x)) (Z.lor (pl_kind x) FINSH_IDTYPE_ADDRESS) 0 (pl_id x).

Fixpoint typed_kids (t : tree) : forest :=
  match t with
  | TInt _ | TLong _ | TChar _ | TPlace _ => FNil
  | TBin _ l r => FCons (typed_node l) (typed_kids l) (FCons (typed_node r) (typed_kids r) FNil)
  | TNot e | TDeref e => FCons (typed_node e) (typed_kids e) FNil
  | TAssign x e => FCons (address_node x) FNil (FCons (typed_node e) (typed_kids e) FNil)
  | TPre _ x | TAddr x => FCons (address_node x) FNil FNil
  | TPost _ x => FCons (value_node x) FNil FNil
  | TStore p e =>
      FCons (ND FINSH_NODE_SYS_GETVALUE (tree_data p) FINSH_IDTYPE_ADDRESS 0 0) (FCons (typed_node p) (typed_kids p) FNil)
        (FCons (typed_node e) (typed_kids e) FNil)
  | TCall sym _ args =>
      FCons (id_node FINSH_IDTYPE_SYSCALL sym) FNil
        ((fix go l := match l with [] => FNil | t :: l => FCons (typed_node t) (typed_kids t) (go l) end) args)
  end.

Definition typed_forest (t : tree) (rest : forest) : forest := FCons (typed_node t) (typed_kids t) rest.
Definition typed_forests (l : list tree) : forest := foldr typed_forest FNil l.

Lemma typed_kids_call sym func args :
  typed_kids (TCall sym func args) = FCons (id_node FINSH_IDTYPE_SYSCALL sym) FNil (typed_forests args).
Proof. reflexivity. Qed.

Lemma flen_forests l : flen (typed_forests l) = length l.
Proof. induction l as [|t l IH]; [done|]. cbn [typed_forests foldr typed_forest flen length]. by f_equal. Qed.

Section Comp.
Context {FE : FinshEnv}.

(** ** Symbols *)

(** The variables and functions of the expression are those of the tables. *)
Definition place_ok (s : finsh) (x : place) : Prop :=
  type_width (pl_type x) = Some (pl_width x) /\
  ((pl_kind x = FINSH_IDTYPE_VAR /\ fv_type <$> var_at (pl_id x) (f_vars s) = Some (pl_type x) /\ pl_addr x = value_addr (pl_id x)) \/
   (pl_kind x = FINSH_IDTYPE_SYSVAR /\ exists v, sysvar_at (pl_id x) s = Some v /\ sv_type v = pl_type x /\ sv_var v = pl_addr x)).

Fixpoint linked (s : finsh) (t : tree) : Prop :=
  match t with
  | TInt _ | TLong _ | TChar _ => True
  | TPlace x | TAddr x => place_ok s x
  | TPre _ x | TPost _ x => place_ok s x /\ pl_kind x = FINSH_IDTYPE_VAR
  | TBin _ l r => linked s l /\ linked s r
  | TStore p e => is_Some (ttype p) /\ linked s p /\ linked s e
  | TNot e | TDeref e => linked s e
  | TAssign x e => place_ok s x /\ linked s e
  | TCall sym func args =>
      sc_func <$> syscall_at sym s = Some func /\
      (fix all l := match l with [] => True | t :: l => linked s t /\ all l end) args
  end.
Definition all_linked (s : finsh) : list tree -> Prop :=
  fix all l := match l with [] => True | t :: l => linked s t /\ all l end.

Lemma type_width_data t w : type_width t = Some w -> type_data t = Some (width_data w).
Proof. by destruct t; cbn; intros [= <-]. Qed.
Lemma data_width_data w : data_width (width_data w) = Some w.
Proof. by destruct w. Qed.

Lemma place_leaf s x m : place_ok s x -> m = FINSH_NODE_VALUE \/ m = FINSH_IDTYPE_ADDRESS ->
  leaf_data s (mark m (place_node x)) = Some (width_data (pl_width x)).
Proof.
  intros [Ht Hk] Hm. apply type_width_data in Ht. unfold leaf_data. cbn.
  destruct Hk as [(Ek & Hv & _)|(Ek & v & Hv & Hty & _)]; rewrite Ek.
  - destruct (var_at (pl_id x) (f_vars s)) as [v|]; [|done]. cbn in Hv. injection Hv as Hv. destruct Hm as [->| ->]; cbn; by rewrite Hv.
  - rewrite <- Hty in Ht. destruct Hm as [->| ->]; cbn; rewrite Hv; done.
Qed.

(** ** The type check *)

Lemma check_cons s m d kids rest : check s m (FCons d kids rest) =
  (kids ← check s (child_mode (d_type d) m) kids;
   rest ← check s FINSH_NODE_VALUE rest;
   data ← match kids with FCons c _ _ => Some (d_data c) | FNil => leaf_data s (mark m d) end;
   Some (FCons (typed m data d) kids rest)).
Proof. done. Qed.

Lemma check_place s x rest rest' : place_ok s x -> check s FINSH_NODE_VALUE rest = Some rest' ->
  check s FINSH_NODE_VALUE (FCons (place_node x) FNil rest) = Some (FCons (value_node x) FNil rest') /\
  check s FINSH_IDTYPE_ADDRESS (FCons (place_node x) FNil rest) = Some (FCons (address_node x) FNil rest').
Proof.
  intros Hx Hr. rewrite !check_cons, Hr. cbn [check mbind option_bind]. rewrite !place_leaf by eauto. cbn.
  destruct Hx as [_ [(Ek & _)|(Ek & _)]]; unfold typed, value_node, address_node, place_node, with_dtype; cbn; rewrite Ek; done.
Qed.

Definition check_spec (s : finsh) (t : tree) : Prop := linked s t -> forall rest rest', check s FINSH_NODE_VALUE rest = Some rest' ->
  check s FINSH_NODE_VALUE (forest_of t rest) = Some (typed_forest t rest').

Lemma check_forests s l : Forall (check_spec s) l -> all_linked s l -> check s FINSH_NODE_VALUE (forests_of l) = Some (typed_forests l).
Proof. induction 1 as [|t l Ht _ IH]; [done|]. intros [H1 H2]. apply (Ht H1). by apply IH. Qed.

(** A node over children that have been checked. *)
Lemma check_node s (m : Z) d d' kids rest c ck cr rest' : check s (child_mode (d_type d) m) kids = Some (FCons c ck cr) ->
  check s FINSH_NODE_VALUE rest = Some rest' -> d' = typed m (d_data c) d ->
  check s m (FCons d kids rest) = Some (FCons d' (FCons c ck cr) rest').
Proof. intros H1 H2 ->. rewrite check_cons, H1. cbn [mbind option_bind]. rewrite H2. done. Qed.

Lemma bin_mode o : child_mode (bin_node o) FINSH_NODE_VALUE = FINSH_NODE_VALUE.
Proof. by destruct o. Qed.

Lemma check_tree s t : check_spec s t.
Proof.
  induction t using tree_rect'; intros HL rest rest' Hr; cbn [linked] in HL; unfold forest_of, typed_forest.
  1-3: by rewrite check_cons; cbn; rewrite Hr.
  - by apply check_place.
  - destruct HL as [H1 H2]. eapply check_node; [|done|done]. cbn [node_of plain_node d_type kids_of typed_kids]. rewrite bin_mode.
    by apply (IHt1 H1), (IHt2 H2).
  - eapply check_node; [|done|done]. by apply (IHt HL).
  - destruct HL as [H1 H2]. eapply (check_node s FINSH_NODE_VALUE); [|done|done]. cbn [kids_of]. apply check_place; [done|]. by apply (IHt H2).
  - destruct HL as [H1 H2]. eapply (check_node s FINSH_NODE_VALUE); [|done|done]. destruct b; by apply check_place.
  - destruct HL as [H1 H2]. eapply (check_node s FINSH_NODE_VALUE); [|done|done]. destruct b; by apply check_place.
  - eapply (check_node s FINSH_NODE_VALUE); [|done|done]. by apply check_place.
  - eapply check_node; [|done|done]. by apply (IHt HL).
  - destruct HL as (_ & H1 & H2). eapply (check_node s FINSH_NODE_VALUE); [|done|done]. cbn [kids_of].
    eapply (check_node s FINSH_IDTYPE_ADDRESS); [|by apply (IHt2 H2)|done]. by apply (IHt1 H1).
  - destruct HL as [H1 H2]. rewrite kids_of_call, typed_kids_call. eapply (check_node s FINSH_NODE_VALUE); [|done|done].
    rewrite check_cons. rewrite (check_forests s args H H2). reflexivity.
Qed.

(** ** The code *)

Lemma byte_u32 v k : 0 <= k <= 24 -> u32 v / 2 ^ k mod 256 = v / 2 ^ k mod 256.
Proof. intros H. by rewrite <- (byte_of v k), Z.shiftr_div_pow2 by lia. Qed.
Lemma bytes32_u32 v : bytes32 (u32 v) = bytes32 v.
Proof.
  unfold bytes32. pose proof (byte_u32 v 0) as E. rewrite !Z.div_1_r in E. rewrite E by lia.
  change 16777216 with (2 ^ 24). change 65536 with (2 ^ 16). change (u32 v / 256) with (u32 v / 2 ^ 8). by rewrite !byte_u32 by lia.
Qed.

Lemma place_code s x : place_ok s x ->
  id_code s (value_node x) = Some (FINSH_OP_LD_VALUE (pl_width x) :: bytes32 (pl_addr x)) /\
  id_code s (address_node x) = Some (FINSH_OP_LD WDword :: bytes32 (pl_addr x)).
Proof.
  intros [Ht Hk]. unfold id_code. cbn [value_node address_node with_dtype place_node id_node d_idtype d_id].
  destruct Hk as [(Ek & Hv & ->)|(Ek & v & Hv & Hty & <-)]; rewrite Ek; cbn.
  - destruct (var_at _ _) as [v|]; [|done]. cbn in Hv |- *. injection Hv as ->. unfold variable_code. by rewrite Ht.
  - rewrite Hv. cbn. unfold variable_code. by rewrite Hty, Ht.
Qed.

Lemma sized_tree t op : sized_code (tree_data t) op = match ttype t with Some w => [op w] | None => [] end.
Proof. unfold sized_code, tree_data. destruct (ttype t) as [w|]; [by rewrite data_width_data|done]. Qed.

Lemma gen_cons s d kids rest c1 c2 c3 : gen s kids = Some c1 -> node_code s d kids = Some c2 -> gen s rest = Some c3 ->
  gen s (FCons d kids rest) = Some (c1 ++ c2 ++ c3).
Proof. intros H1 H2 H3. cbn [gen]. rewrite H1. cbn. rewrite H2. cbn. by rewrite H3. Qed.

Lemma gen_leaf s d rest c2 c3 : node_code s d FNil = Some c2 -> gen s rest = Some c3 -> gen s (FCons d FNil rest) = Some (c2 ++ c3).
Proof. intros H2 H3. by apply (gen_cons s d FNil rest []). Qed.

Definition gen_spec (s : finsh) (t : tree) : Prop := linked s t -> forall rest c, gen s rest = Some c ->
  gen s (typed_forest t rest) = Some (tcode t ++ c).

Lemma gen_forests s l : Forall (gen_spec s) l -> all_linked s l -> gen s (typed_forests l) = Some (concat (tcode <$> l)).
Proof. induction 1 as [|t l Ht _ IH]; [done|]. intros [H1 H2]. apply (Ht H1). by apply IH. Qed.
(** A single expression. *)
Lemma gen_one s t : gen_spec s t -> linked s t -> gen s (FCons (typed_node t) (typed_kids t) FNil) = Some (tcode t).
Proof. intros H HL. rewrite <- (app_nil_r (tcode t)). by apply (H HL). Qed.

Lemma gen_place s x rest c : place_ok s x -> gen s rest = Some c ->
  gen s (FCons (value_node x) FNil rest) = Some ((FINSH_OP_LD_VALUE (pl_width x) :: bytes32 (pl_addr x)) ++ c) /\
  gen s (FCons (address_node x) FNil rest) = Some ((FINSH_OP_LD WDword :: bytes32 (pl_addr x)) ++ c).
Proof. intros Hx Hr. destruct (place_code s x Hx) as [H1 H2]. split; by apply gen_leaf. Qed.

Lemma bin_node_code s o data kids : node_code s (with_dtype data (plain_node (bin_node o))) kids = Some (sized_code data (bin_op o)).
Proof. by destruct o. Qed.
Lemma store_width w : store_code (width_data w) = Some [FINSH_OP_ST w; FINSH_OP_LD_VALUE_STACK w].
Proof. unfold store_code. by rewrite data_width_data. Qed.

(** The code of an increment: the variable, then [code]. *)
Lemma step_tree (code : width -> Z -> list Z) x k : (pl_addr x = value_addr (pl_id x)) ->
  (forall d, d = value_node x \/ d = address_node x -> 
    step_code code (width_data (pl_width x)) (FCons d FNil k) = code (pl_width x) (pl_addr x)).
Proof. intros E d Hd. unfold step_code. rewrite data_width_data, E. by destruct Hd as [->| ->]. Qed.

Lemma gen_step s b x rest c : place_ok s x -> pl_kind x = FINSH_IDTYPE_VAR -> gen s rest = Some c ->
  gen s (typed_forest (TPre b x) rest) = Some (tcode (TPre b x) ++ c) /\
  gen s (typed_forest (TPost b x) rest) = Some (tcode (TPost b x) ++ c).
Proof.
  intros Hx Hk Hr. destruct (gen_place s x FNil [] Hx eq_refl) as [H1 H2]. rewrite !app_nil_r in H1, H2.
  assert (E : pl_addr x = value_addr (pl_id x)) by (destruct Hx as [_ [(_ & _ & E)|(E & _)]]; [done|by rewrite Hk in E]).
  cbn [tcode]. rewrite <- !app_assoc. split; (apply gen_cons; [done| |done]).
  - pose proof (step_tree (pre_code (step_op b)) x FNil E (address_node x)) as T. rewrite <- T by by right. by destruct b.
  - pose proof (step_tree (post_code (step_op b)) x FNil E (value_node x)) as T. rewrite <- T by by left. by destruct b.
Qed.

Lemma gen_tree s t : gen_spec s t.
Proof.
  induction t using tree_rect'; intros HL rest r Hr; cbn [linked] in HL.
  1-2: apply gen_leaf; [unfold node_code; cbn; by rewrite bytes32_u32|done].
  - apply gen_leaf; [|done]. unfold node_code; cbn. by rewrite Z.mod_mod.
  - by apply gen_place.
  - destruct HL as [H1 H2]. cbn [tcode]. rewrite <- !app_assoc, app_assoc.
    rewrite <- (sized_tree t1 (bin_op o)). apply gen_cons; [|apply bin_node_code|done]. apply (IHt1 H1). by apply gen_one.
  - cbn [tcode]. rewrite <- !app_assoc, <- (sized_tree t FINSH_OP_BITWISE). apply gen_cons; [by apply gen_one|done|done].
  - destruct HL as [H1 H2]. cbn [tcode]. rewrite <- !app_assoc, app_assoc.
    apply gen_cons; [|apply (store_width (pl_width x))|done]. apply gen_place; [done|]. by apply gen_one.
  - destruct HL. by apply gen_step.
  - destruct HL. by apply gen_step.
  - apply (gen_cons s _ _ _ (FINSH_OP_LD WDword :: bytes32 (pl_addr x)) []); [|done|done].
    rewrite <- (app_nil_r (_ :: _)). by apply gen_place.
  - cbn [tcode]. rewrite <- !app_assoc, <- (sized_tree t FINSH_OP_LD_VALUE_STACK). apply gen_cons; [by apply gen_one|done|done].
  - destruct HL as ([w Hw] & H1 & H2). cbn [tcode]. rewrite Hw. rewrite <- !app_assoc, app_assoc.
    apply gen_cons; [| |done].
    + apply (gen_cons s _ _ _ (tcode t1) []); [by apply gen_one|done|by apply gen_one].
    + change (store_code (Z.land (tree_data t1) 0x0F) = Some [FINSH_OP_ST w; FINSH_OP_LD_VALUE_STACK w]).
      unfold tree_data. rewrite Hw, <- (store_width w). by destruct w.
  - destruct HL as [H1 H2]. unfold typed_forest. rewrite typed_kids_call. cbn [tcode]. rewrite <- !app_assoc, app_assoc.
    destruct (syscall_at sym s) as [c|] eqn:Ec; [|done]. cbn in H1. injection H1 as H1.
    apply gen_cons; [| |done].
    + apply gen_leaf; [|by apply gen_forests]. unfold node_code, id_code. cbn. by rewrite Ec, <- H1.
    + change (Some (call_code (FCons (id_node FINSH_IDTYPE_SYSCALL sym) FNil (typed_forests args))) =
        Some [FINSH_OP_SYSCALL; Z.of_nat (length args) mod 256]). unfold call_code. by rewrite flen_forests.
Qed.

(** Only the symbol tables matter. *)
Definition same_symbols (s s' : finsh) : Prop :=
  f_vars s' = f_vars s /\ f_sysvar_list s' = f_sysvar_list s /\ f_syscall_list s' = f_syscall_list s.

Lemma linked_same s s' t : same_symbols s s' -> linked s t -> linked s' t.
Proof.
  intros (E1 & E2 & E3).
  assert (HP : forall x, place_ok s x -> place_ok s' x) by (intros x; unfold place_ok, sysvar_at; by rewrite E1, E2).
  induction t using tree_rect'; cbn [linked]; try naive_solver.
  unfold syscall_at. rewrite E3. intros [H1 H2]. split; [done|]. induction H; [done|]. naive_solver.
Qed.
Lemma all_linked_same s s' l : same_symbols s s' -> all_linked s l -> all_linked s' l.
Proof. intros E. induction l as [|t l IH]; [done|]. intros [H1 H2]. split; [by eapply linked_same|by apply IH]. Qed.

(** ** Statements *)

Fixpoint prog_code (l : list tree) : list Z :=
  match l with
  | [] => []
  | t :: l => tcode t ++ match l with [] => [] | _ => FINSH_OP_POP :: prog_code l end
  end.

Lemma rep_cut nodes i n d kids rest D : nodes !! i = Some n -> rep nodes (Some i) (FCons d kids rest) D ->
  exists D1 D2, rep (<[i := with_sibling None n]> nodes) (Some i) (FCons d kids FNil) ({[i]} ∪ D1) /\
    rep (<[i := with_sibling None n]> nodes) (n_sibling n) rest D2.
Proof.
  intros Hi (j & n' & D1 & D2 & [= <-] & Hn & Hd & H1 & H2 & -> & N1 & N2 & N3). rewrite Hi in Hn. injection Hn as <-.
  exists D1, D2. split; [|eapply rep_frame; [exact H2|]; intros j Hj; rewrite list_lookup_insert_ne by set_solver; done].
  exists i, (with_sibling None n), D1, ∅. split; [done|]. split; [apply list_lookup_insert_eq; by eapply lookup_lt_Some|].
  split; [by rewrite <- Hd|]. split; [|split; [done|set_solver]].
  eapply rep_frame; [exact H1|]. intros j Hj. by rewrite list_lookup_insert_ne by set_solver.
Qed.

Lemma statements_rep l : forall fuel s p D, (length (f_nodes s) <= FINSH_NODE_MAX)%nat -> rep (f_nodes s) p (typed_forests l) D ->
  all_linked s l -> (length l <= fuel)%nat -> room (prog_code l) s ->
  exists nodes, compile_statements fuel p s = Ok tt (emit (prog_code l) (put_nodes nodes s)).
Proof.
  induction l as [|t l IH]; intros fuel s p D Hn Hr HL Hf Hroom.
  - destruct Hr as [-> _]. exists (f_nodes s). rewrite put_nodes_id. cbn [prog_code]. rewrite emit_nil. by destruct fuel.
  - destruct fuel as [|fuel]; [cbn in Hf; lia|]. cbn in Hf. destruct HL as [H1 H2]. cbn [typed_forests foldr] in Hr.
    assert (exists i n, p = Some i /\ f_nodes s !! i = Some n) as (i & n & -> & Hi)
      by (destruct Hr as (i & n & _ & _ & -> & Hi & _); by exists i, n).
    destruct (rep_cut _ _ _ _ _ _ _ Hi Hr) as (D1 & D2 & R1 & R2). cbn [compile_statements].
    rewrite (bind_ok _ _ _ _ _ (get_node_run i n s Hi)). rewrite (bind_ok _ _ _ _ _ (upd_node_run i n _ s Hi)).
    set (nodes := <[i:=with_sibling None n]> (f_nodes s)) in *.
    assert (Hn' : (length nodes <= FINSH_NODE_MAX)%nat) by by unfold nodes; rewrite length_insert.
    assert (Ec : emits (put_nodes nodes s) (finsh_compile FINSH_NODE_MAX (Some i)) (tcode t)).
    { eapply (compile_rep _ _ (put_nodes nodes s)); [done|exact R1| |etransitivity; [by eapply rep_height|done]].
      apply gen_one; [apply gen_tree|by apply (linked_same s)]. }
    cbn [prog_code] in Hroom |- *. pose proof (room_app _ _ (put_nodes nodes s) Hroom) as [Ra Rb].
    rewrite (bind_ok _ _ _ _ _ (Ec Ra)). destruct l as [|t' l].
    + destruct R2 as [-> _]. exists nodes. cbn. rewrite app_nil_r. by destruct fuel.
    + assert (exists j, n_sibling n = Some j) as [j Hj] by (destruct R2 as (j & _ & _ & _ & -> & _); by exists j).
      rewrite Hj. rewrite bool_decide_true by done. cbn [when].
      pose proof (room_app [FINSH_OP_POP] (prog_code (t' :: l)) _ Rb) as [Rc Rd].
      rewrite (bind_ok _ _ _ _ _ (code_op_run _ FINSH_OP_POP eq_refl Rc)).
      rewrite Hj in R2. destruct (IH fuel (emit [FINSH_OP_POP] (emit (tcode t) (put_nodes nodes s))) (Some j) D2) as [nodes' E];
        [done|done|by apply (all_linked_same s)|cbn in Hf |- *; lia|done|].
      exists nodes'. rewrite E. f_equal. rewrite <- (emit_app (tcode t)) by apply Hroom.
      change (FINSH_OP_POP :: prog_code (t' :: l)) with ([FINSH_OP_POP] ++ prog_code (t' :: l)).
      rewrite <- (emit_app [FINSH_OP_POP]); [done|]. cbn. destruct Hroom. lia.
Qed.

End Comp.

(** * Compiling and running a list of expressions

    The compiler and the virtual machine one after the other, on the syntax
    trees of a list of expressions: the machine ends with the value of the last
    expression at the bottom of its stack. *)

(** The expressions in sequence; the value is that of the last one. *)
Fixpoint eval_prog {CS : CharSign} (call : Z -> list Z -> fmem -> option (Z * fmem)) (l : list tree) (m : fmem) : option (Z * fmem) :=
  match l with
  | [] => None
  | [t] => eval call t m
  | t :: l => a ← eval call t m; eval_prog call l a.2
  end.
Definition prog_def (l : list tree) : width := default WDword (tdef <$> last l).

Section Prog.
Context {CS : CharSign}.
Variable call : Z -> list Z -> fmem -> option (Z * fmem).

Lemma exec_prog l : forall text st sp pc m v m', forallb wide l = true -> eval_prog call l m = Some (v, m') ->
  ready text st sp pc (prog_code l) -> pushes call text st sp pc m (prog_code l) (prog_def l) v m'.
Proof.
  induction l as [|t l IH]; intros text st sp pc m v m' Hw He Hr; [done|]. cbn in Hw. apply andb_true_iff in Hw as [Wt Hw].
  destruct l as [|t' l].
  - cbn [prog_code] in *. rewrite app_nil_r in *. by apply exec_tree.
  - change (eval_prog call (t :: t' :: l) m) with (a ← eval call t m; eval_prog call (t' :: l) a.2) in He.
    destruct (eval call t m) as [[a m1]|] eqn:Et; [|done]. cbn [mbind option_bind snd] in He.
    change (prog_code (t :: t' :: l)) with (tcode t ++ FINSH_OP_POP :: prog_code (t' :: l)) in *.
    replace (prog_def (t :: t' :: l)) with (prog_def (t' :: l)) by done.
    destruct (exec_tree call t _ _ _ _ _ _ _ Wt Et (ready_first _ _ _ _ _ _ Hr)) as (st1 & x & R1 & S1 & F1 & X1 & E1).
    destruct Hr as (Hc & Hs & Hsp & Hpc). apply at_code_app in Hc as [_ Hc].
    pose proof (at_code_app _ _ [FINSH_OP_POP] _ Hc) as [C1 C2]. cbn [length] in C2.
    destruct (IH text st1 sp (pc + Z.of_nat (length (tcode t)) + 1) m1 v m' Hw He) as (st2 & y & R2 & S2 & F2 & X2 & E2).
    { split; [done|]. split; [done|]. lia. }
    exists st2, y. split; [|split; [done|split; [|done]]].
    + eapply vruns_trans; [exact R1|]. eapply vruns_trans; [by apply run_pop|].
      rewrite length_app, Nat2Z.inj_add, Z.add_assoc. cbn [length]. rewrite Nat2Z.inj_succ.
      replace (pc + Z.of_nat (length (tcode t)) + Z.succ (Z.of_nat (length (prog_code (t' :: l)))))
        with (pc + Z.of_nat (length (tcode t)) + 1 + Z.of_nat (length (prog_code (t' :: l)))) by lia. exact R2.
    + intros i Hi. by rewrite F2, F1.
Qed.

(** Behind the code the machine runs through zeros, which are no-operations. *)
Lemma noop_run k : forall fuel st sp pc text m, 0 <= pc -> pc + Z.of_nat k = FINSH_TEXT_MAX -> (k <= fuel)%nat ->
  (forall i, pc <= Z.of_nat i < FINSH_TEXT_MAX -> text !! i = Some 0) ->
  vm_loop call fuel (mk_vm st sp pc text m) = Ok tt (mk_vm st sp FINSH_TEXT_MAX text m).
Proof.
  induction k as [|k IH]; intros fuel st sp pc text m Hp Hk Hf Ht.
  - replace pc with FINSH_TEXT_MAX by lia. by destruct fuel.
  - destruct fuel as [|fuel]; [lia|]. cbn [vm_loop]. rewrite bind_getS. cbn [vm_pc].
    destruct (Z.leb_spec 0 pc); [|lia]. destruct (Z.ltb_spec pc FINSH_TEXT_MAX); [|lia]. cbn [andb].
    assert (E : vm_step call (mk_vm st sp pc text m) = Ok tt (mk_vm st sp (pc + 1) text m)).
    { rewrite (vm_step_run call _ _ _ _ _ 0 OP_no_op); [done|done|apply Ht; lia|done]. }
    rewrite (bind_ok _ _ _ _ _ E). apply IH; [lia|lia|lia|]. intros i Hi. apply Ht. lia.
Qed.

Lemma text_lookup c i : (length c <= Z.to_nat FINSH_TEXT_MAX)%nat -> (i < Z.to_nat FINSH_TEXT_MAX)%nat ->
  list_inserts 0 c (replicate (Z.to_nat FINSH_TEXT_MAX) 0) !! i = Some (default 0 (c !! i)).
Proof.
  intros Hc Hi. destruct (decide (i < length c)%nat) as [H|H].
  - rewrite list_lookup_inserts by (rewrite ?length_replicate; lia). rewrite Nat.sub_0_r.
    destruct (lookup_lt_is_Some_2 c i H) as [x ->]. done.
  - rewrite list_lookup_inserts_ge by lia. rewrite lookup_replicate_2 by lia. by rewrite lookup_ge_None_2 by lia.
Qed.

(** The machine on a text segment with the code of a list of expressions. *)
Lemma vm_run_prog l st sp0 pc0 m v m' : stack_ok st -> forallb wide l = true -> eval_prog call l m = Some (v, m') ->
  (length (prog_code l) <= Z.to_nat FINSH_TEXT_MAX)%nat ->
  let text := list_inserts 0 (prog_code l) (replicate (Z.to_nat FINSH_TEXT_MAX) 0) in
  exists st' x, finsh_vm_run call (mk_vm st sp0 pc0 text m) = Ok tt (mk_vm st' 1 FINSH_TEXT_MAX text m') /\
    stack_ok st' /\ st' !! O = Some x /\ wrapw (prog_def l) x = v.
Proof.
  intros Hs Hw He Hl text.
  assert (Hc : at_code text 0 (prog_code l)).
  { split; [done|]. split; [unfold text; by rewrite length_inserts, length_replicate|]. split; [unfold FINSH_TEXT_MAX in *; lia|].
    intros k b Hk. change (Z.to_nat 0 + k)%nat with k. unfold text. rewrite text_lookup; [by rewrite Hk|done|]. apply lookup_lt_Some in Hk. lia. }
  destruct (exec_prog l text st 0 0 m v m' Hw He) as (st' & x & (n & Hn & R) & S & _ & X & E); [by split; [|split]|].
  cbn [vm_pc] in Hn. exists st', x. split; [|done]. unfold finsh_vm_run, set_sp, set_pc. rewrite !bind_modify.
  cbn [vm_stack vm_text vm_mem vm_sp vm_pc]. rewrite Z.add_0_l in R, Hn.
  replace (Z.to_nat FINSH_TEXT_MAX) with (n + (Z.to_nat FINSH_TEXT_MAX - n))%nat by lia. rewrite R.
  apply (noop_run (Z.to_nat FINSH_TEXT_MAX - length (prog_code l))); [lia|unfold FINSH_TEXT_MAX in *; lia|lia|].
  intros i Hi. unfold text. rewrite text_lookup by lia. by rewrite lookup_ge_None_2 by lia.
Qed.

Context {FE : FinshEnv}.

Lemma check_all s l : all_linked s l -> check s FINSH_NODE_VALUE (forests_of l) = Some (typed_forests l).
Proof. apply check_forests, Forall_forall. intros t _. apply check_tree. Qed.

(** The state the compiler leaves. *)
Definition compiled (c : list Z) (nodes : list finsh_node) (s : finsh) : finsh :=
  let v := f_vm s in
  {| s with f_vm := {| v with vm_text := list_inserts 0 c (replicate (Z.to_nat FINSH_TEXT_MAX) 0); vm_stack := <[0%nat := 0]> (vm_stack v) |};
            f_nodes := nodes; f_compile_pc := Z.of_nat (length c) |}.

Lemma flen_fsize f : (flen f <= fsize f)%nat.
Proof. induction f; cbn; lia. Qed.

Lemma compiler_run_prog l s p D : (length (f_nodes s) <= FINSH_NODE_MAX)%nat -> rep (f_nodes s) p (forests_of l) D -> all_linked s l ->
  (length (prog_code l) <= Z.to_nat FINSH_TEXT_MAX)%nat ->
  exists nodes, finsh_compiler_run p s = Ok tt (compiled (prog_code l) nodes s).
Proof.
  intros Hn Hr HL Hc. unfold finsh_compiler_run.
  destruct (type_check_rep _ FINSH_NODE_MAX s p _ _ D Hr (check_all s l HL)) as (nodes & E & R & [L _]);
    [etransitivity; [by eapply rep_height|done]|].
  rewrite (bind_ok _ _ _ _ _ E), bind_modify. unfold set_compile_pc. rewrite bind_modify. cbn [f_vm put_nodes].
  match goal with |- context [compile_statements _ _ ?x] => set (s1 := x) end.
  assert (Hlen : (length l <= FINSH_NODE_MAX)%nat).
  { rewrite <- flen_forests. etransitivity; [apply flen_height|]. etransitivity; [by eapply rep_height|]. lia. }
  destruct (statements_rep l FINSH_NODE_MAX s1 p D) as [nodes' E']; [by rewrite <- L in Hn|done|by apply (all_linked_same s)|done| |].
  - split; [done|]. cbn. rewrite length_replicate. unfold FINSH_TEXT_MAX in *. lia.
  - exists nodes'. rewrite E'. done.
Qed.

End Prog.
