(* ===== verification/FinshExpr.v ===== *)
(** * Source expressions

    Expressions as they are typed at the shell, their tokens, and the
    expression of [FinshExec] each one stands for once its names are looked up.
    [plain] says that an expression needs no parentheses: its tokens determine
    it by the precedence and associativity of C. *)

From S2P Require Import Prelude FinshVm FinshData FinshHeap FinshNode FinshToken FinshParser FinshCompiler.
From S2P Require Import FinshTree FinshExec FinshComp.

#[warnings="-register-all"]
Inductive expr :=
| ENum (n : Z) | EChar (c : Z) | EId (x : list Z)
| EBin (o : binop) (l r : expr)
| ENeg (e : expr) | EPos (e : expr) | ENot (e : expr)
| EDeref (e : expr) | EAddr (x : list Z)
| EPre (sub : bool) (x : list Z) | EPost (sub : bool) (x : list Z)
| EAssign (x : list Z) (e : expr) | EStore (p e : expr)
| ECall (x : list Z) (args : list expr).

(** ** Tokens *)

Inductive tok := KNum (n : Z) | KChar (c : Z) | KId (x : list Z) | KOp (k : finsh_token_type).

Definition tok_type (x : tok) : finsh_token_type :=
  match x with KNum _ => T_value_int | KChar _ => T_value_char | KId _ => T_identifier | KOp k => k end.

Definition bin_tok (o : binop) : finsh_token_type :=
  match o with
  | BAdd => T_add | BSub => T_sub | BDiv => T_div | BMod => T_mod | BMul => T_mul
  | BAnd => T_and | BOr => T_or | BXor => T_xor | BShl => T_shl | BShr => T_shr
  end.

Fixpoint toks (e : expr) : list tok :=
  match e with
  | ENum n => [KNum n]
  | EChar c => [KChar c]
  | EId x => [KId x]
  | EBin o l r => toks l ++ KOp (bin_tok o) :: toks r
  | ENeg e => KOp T_sub :: toks e
  | EPos e => KOp T_add :: toks e
  | ENot e => KOp T_bitwise :: toks e
  | EDeref e => KOp T_mul :: toks e
  | EAddr x => [KOp T_and; KId x]
  | EPre sub x => [KOp (if sub then T_dec else T_inc); KId x]
  | EPost sub x => [KId x; KOp (if sub then T_dec else T_inc)]
  | EAssign x e => KId x :: KOp T_assign :: toks e
  | EStore p e => KOp T_mul :: toks p ++ KOp T_assign :: toks e
  | ECall x args =>
      KId x :: KOp T_left_paren ::
      match args with
      | [] => []
      | e :: l => toks e ++ (fix more l := match l with [] => [] | e :: l => KOp T_comma :: toks e ++ more l end) l
      end ++ [KOp T_right_paren]
  end.

(** Further arguments, each behind a comma; statements, each before a semicolon. *)
Definition more_toks : list expr -> list tok :=
  fix more l := match l with [] => [] | e :: l => KOp T_comma :: toks e ++ more l end.
Fixpoint stmt_toks (l : list expr) : list tok :=
  match l with [] => [] | e :: l => toks e ++ KOp T_semicolon :: stmt_toks l end.

(** ** Precedence *)

(** Multiplication binds strongest, bitwise or weakest. *)
Definition prec (o : binop) : nat :=
  match o with
  | BMul | BDiv | BMod => 0
  | BAdd | BSub => 1
  | BShl | BShr => 2
  | BAnd => 3
  | BXor => 4
  | BOr => 5
  end.
Definition level (e : expr) : nat :=
  match e with
  | EBin o _ _ => S (prec o)
  | EAssign _ _ | EStore _ _ => 7
  | _ => 0
  end.

Fixpoint plain (e : expr) : bool :=
  match e with
  | ENum _ | EChar _ | EId _ | EAddr _ | EPre _ _ | EPost _ _ => true
  | EBin o l r => plain l && plain r && (level l <=? S (prec o))%nat && (level r <=? prec o)%nat
  | ENeg e | EPos e | ENot e | EDeref e => plain e && (level e =? 0)%nat
  | EAssign _ e => plain e
  | EStore p e => plain p && (level p =? 0)%nat && plain e
  | ECall _ args => forallb plain args
  end.

Section ExprInd.
Variable P : expr -> Prop.
Hypotheses (Hnum : forall n, P (ENum n)) (Hchar : forall c, P (EChar c)) (Hid : forall x, P (EId x))
  (Hbin : forall o l r, P l -> P r -> P (EBin o l r)) (Hneg : forall e, P e -> P (ENeg e)) (Hpos : forall e, P e -> P (EPos e))
  (Hnot : forall e, P e -> P (ENot e)) (Hderef : forall e, P e -> P (EDeref e)) (Haddr : forall x, P (EAddr x))
  (Hpre : forall b x, P (EPre b x)) (Hpost : forall b x, P (EPost b x)) (Hassign : forall x e, P e -> P (EAssign x e))
  (Hstore : forall p e, P p -> P e -> P (EStore p e)) (Hcall : forall x args, Forall P args -> P (ECall x args)).

Fixpoint expr_rect' (e : expr) : P e :=
  match e with
  | ENum n => Hnum n
  | EChar c => Hchar c
  | EId x => Hid x
  | EBin o l r => Hbin o l r (expr_rect' l) (expr_rect' r)
  | ENeg e => Hneg e (expr_rect' e)
  | EPos e => Hpos e (expr_rect' e)
  | ENot e => Hnot e (expr_rect' e)
  | EDeref e => Hderef e (expr_rect' e)
  | EAddr x => Haddr x
  | EPre b x => Hpre b x
  | EPost b x => Hpost b x
  | EAssign x e => Hassign x e (expr_rect' e)
  | EStore p e => Hstore p e (expr_rect' p) (expr_rect' e)
  | ECall x args =>
      Hcall x args ((fix go l := match l return Forall P l with
        | [] => Forall_nil_2 P
        | e :: l => Forall_cons_2 P e l (expr_rect' e) (go l)
        end) args)
  end.
End ExprInd.

(** ** Names *)

Section Elab.
Context {FE : FinshEnv}.

(** The symbol [finsh_node_new_id] finds: a variable, a system variable or a
    system call. *)
Definition resolve (s : finsh) (x : list Z) : option (Z * Z) :=
  match find_name x (f_vars s) with
  | Some i => Some (var_addr i, FINSH_IDTYPE_VAR)
  | None =>
      match table_find sv_name str_eqb x sysvar_table, table_find sv_name (strn_eqb (length x)) x (f_sysvar_list s) with
      | Some p, _ | None, Some p => Some (p, FINSH_IDTYPE_SYSVAR)
      | None, None =>
          match table_find sc_name str_eqb x syscall_table, table_find sc_name (strn_eqb (length x)) x (f_syscall_list s) with
          | Some p, _ | None, Some p => Some (p, FINSH_IDTYPE_SYSCALL)
          | None, None => None
          end
      end
  end.

Definition place_of (s : finsh) (x : list Z) : option place :=
  r ← resolve s x;
  if r.2 =? FINSH_IDTYPE_VAR then
    v ← var_at r.1 (f_vars s); w ← type_width (fv_type v); Some (mk_place r.2 r.1 (fv_type v) w (value_addr r.1))
  else if r.2 =? FINSH_IDTYPE_SYSVAR then
    v ← sysvar_at r.1 s; w ← type_width (sv_type v); Some (mk_place r.2 r.1 (sv_type v) w (sv_var v))
  else None.
(** A variable declared at the shell. *)
Definition var_of (s : finsh) (x : list Z) : option place :=
  p ← place_of s x; if pl_kind p =? FINSH_IDTYPE_VAR then Some p else None.
(** The symbol and the address of a function. *)
Definition func_of (s : finsh) (x : list Z) : option (Z * Z) :=
  r ← resolve s x; if r.2 =? FINSH_IDTYPE_SYSCALL then c ← syscall_at r.1 s; Some (r.1, sc_func c) else None.

Definition elab (s : finsh) : expr -> option tree :=
  fix elab e :=
  match e with
  | ENum n => Some (TInt n)
  | EChar c => Some (TChar c)
  | EId x => p ← place_of s x; Some (TPlace p)
  | EBin o l r => l ← elab l; r ← elab r; Some (TBin o l r)
  | ENeg e => e ← elab e; Some (TBin BSub (TLong 0) e)
  | EPos e => elab e
  | ENot e => e ← elab e; Some (TNot e)
  | EDeref e => e ← elab e; Some (TDeref e)
  | EAddr x => p ← place_of s x; Some (TAddr p)
  | EPre sub x => p ← var_of s x; Some (TPre sub p)
  | EPost sub x => p ← var_of s x; Some (TPost sub p)
  | EAssign x e => p ← place_of s x; e ← elab e; Some (TAssign p e)
  | EStore p e => p ← elab p; _ ← ttype p; e ← elab e; Some (TStore p e)
  | ECall x args =>
      f ← func_of s x;
      l ← (fix all l := match l with [] => Some [] | e :: l => t ← elab e; l ← all l; Some (t :: l) end) args;
      Some (TCall f.1 f.2 l)
  end.
Definition elabs (s : finsh) : list expr -> option (list tree) :=
  fix all l := match l with [] => Some [] | e :: l => t ← elab s e; l ← all l; Some (t :: l) end.

Lemma place_of_ok s x p : place_of s x = Some p -> place_ok s p /\ resolve s x = Some (pl_id p, pl_kind p).
Proof.
  unfold place_of. destruct (resolve s x) as [[i k]|]; [|done]. cbn [mbind option_bind fst snd].
  destruct (Z.eqb_spec k FINSH_IDTYPE_VAR) as [->|N1].
  - destruct (var_at i (f_vars s)) as [v|] eqn:Ev; [|done]. cbn. destruct (type_width _) as [w|] eqn:Ew; [|done]. intros [= <-].
    split; [|done]. split; [done|]. left. cbn. by rewrite Ev.
  - destruct (Z.eqb_spec k FINSH_IDTYPE_SYSVAR) as [->|N2]; [|done].
    destruct (sysvar_at i s) as [v|] eqn:Ev; [|done]. cbn. destruct (type_width _) as [w|] eqn:Ew; [|done]. intros [= <-].
    split; [|done]. split; [done|]. right. cbn. eauto.
Qed.
Lemma var_of_ok s x p : var_of s x = Some p -> place_of s x = Some p /\ pl_kind p = FINSH_IDTYPE_VAR.
Proof. unfold var_of. destruct (place_of s x) as [q|]; [|done]. cbn. destruct (Z.eqb_spec (pl_kind q) FINSH_IDTYPE_VAR); [|done]. by intros [= <-]. Qed.
Lemma func_of_ok s x f : func_of s x = Some f ->
  resolve s x = Some (f.1, FINSH_IDTYPE_SYSCALL) /\ sc_func <$> syscall_at f.1 s = Some f.2.
Proof.
  unfold func_of. destruct (resolve s x) as [[i k]|]; [|done]. cbn [mbind option_bind fst snd].
  destruct (Z.eqb_spec k FINSH_IDTYPE_SYSCALL) as [->|]; [|done]. destruct (syscall_at i s) eqn:E; [|done]. intros [= <-]. cbn. by rewrite E.
Qed.

Lemma elab_call s x args : elab s (ECall x args) = (f ← func_of s x; l ← elabs s args; Some (TCall f.1 f.2 l)).
Proof. reflexivity. Qed.

(** What an expression stands for refers to the tables. *)
Definition elab_spec (s : finsh) (e : expr) : Prop := forall t, elab s e = Some t -> linked s t.
Lemma elabs_spec s l : Forall (elab_spec s) l -> forall tl, elabs s l = Some tl -> all_linked s tl.
Proof.
  induction 1 as [|e l He _ IH]; intros tl E; cbn [elabs] in E; [by injection E as <-|].
  destruct (elab s e) as [t|] eqn:Et; [|done]. cbn in E. destruct (elabs s l) as [l'|] eqn:El; [|done]. injection E as <-.
  split; [by apply He|by apply IH].
Qed.
Lemma elab_linked s e : elab_spec s e.
Proof.
  induction e using expr_rect'; intros t0 E; [..|rewrite elab_call in E]; cbn [elab] in E.
  1-13: simplify_option_eq; cbn; eauto; repeat match goal with H : var_of _ _ = Some _ |- _ => apply var_of_ok in H as [? ?] end;
    repeat match goal with H : place_of _ _ = Some _ |- _ => apply place_of_ok in H as [? ?] end; eauto.
  destruct (func_of s x) as [f|] eqn:Ef; [|done]. apply func_of_ok in Ef as [_ Ef]. cbn [mbind option_bind] in E.
  destruct (elabs s args) as [l|] eqn:El; [|done]. injection E as <-. split; [done|]. by eapply elabs_spec.
Qed.
Lemma elabs_linked s l tl : elabs s l = Some tl -> all_linked s tl.
Proof. apply elabs_spec, Forall_forall. intros e _. apply elab_linked. Qed.

(** Only the symbol tables matter. *)
Lemma place_of_same s s' x : same_symbols s s' -> place_of s' x = place_of s x /\ resolve s' x = resolve s x.
Proof. intros (E1 & E2 & E3). unfold place_of, resolve, sysvar_at. by rewrite E1, E2, E3. Qed.

End Elab.

(** * Tokens and nodes while parsing

    The parser reads tokens, with one token to put back, and allocates nodes
    one after the other.  Its states are [parsed t l s]: the tokenizer in state
    [t], the node table [l], and everything else as in [s].  [pending t l] says
    that the tokenizer in state [t] delivers the tokens [l]. *)

Definition parsed (t : finsh_token) (nodes : list finsh_node) (s : finsh) : finsh := {| s with f_token := t; f_nodes := nodes |}.

(** ** Tokens *)

(** The tokenizer has just read the token [x]. *)
Definition tok_at (x : tok) (t : finsh_token) : Prop :=
  tk_current t = tok_type x /\ tk_replay t = false /\
  match x with
  | KNum n => tk_value t = u32 n
  | KChar c => tk_value t mod 256 = c mod 256
  | KId x => c_string (tk_string t) = Some x /\ (length x < FINSH_NAME_MAX)%nat
  | KOp _ => True
  end.

Definition lexes (t t' : finsh_token) : Prop :=
  forall nodes s, token_run (parsed t nodes s) = Ok tt (parsed t' nodes s).
Fixpoint stream (t : finsh_token) (l : list tok) : Prop :=
  match l with
  | [] => True
  | x :: l => exists t', lexes t t' /\ tok_at x t' /\ stream t' l
  end.

Definition unread (t : finsh_token) : finsh_token := {| t with tk_replay := true |}.
Definition pending (t : finsh_token) (l : list tok) : Prop :=
  (tk_replay t = false /\ stream t l) \/
  (exists t0 x l', t = unread t0 /\ l = x :: l' /\ tok_at x t0 /\ stream t0 l').

Section Tokens.
Variable s : finsh.

Lemma next_run t nodes x l : pending t (x :: l) ->
  exists t', next_token (parsed t nodes s) = Ok (tok_type x) (parsed t' nodes s) /\ tok_at x t' /\ stream t' l.
Proof.
  intros [[Hr (t' & Hl & Ht & Hs)]|(t0 & y & l' & -> & [= <- <-] & Ht & Hs)]; unfold next_token, finsh_token_token.
  - exists t'. split; [|done]. rewrite bind_gets. cbn [f_token parsed]. rewrite Hr.
    rewrite (bind_ok _ _ _ _ _ (Hl nodes s)), bind_gets. cbn. by rewrite (proj1 Ht).
  - exists t0. split; [|done]. rewrite bind_gets. cbn [f_token parsed unread tk_replay]. unfold put_token. rewrite bind_modify, bind_gets. cbn.
    destruct Ht as (Hc & Hr & _). destruct t0 as [a b c d e f g]. cbn in Hc, Hr. rewrite <- Hc. subst b. reflexivity.
Qed.

Lemma replay_run t nodes x l : tok_at x t -> stream t l ->
  finsh_token_replay (parsed t nodes s) = Ok tt (parsed (unread t) nodes s) /\ pending (unread t) (x :: l).
Proof. intros Ht Hs. split; [done|]. right. by exists t, x, l. Qed.

Lemma pending_stream x t l : tok_at x t -> stream t l -> pending t l.
Proof. intros (_ & Hr & _) Hs. by left. Qed.

Lemma match_run t nodes x l : pending t (x :: l) ->
  exists t', match_token (tok_type x) (parsed t nodes s) = Ok tt (parsed t' nodes s) /\ tok_at x t' /\ stream t' l.
Proof.
  intros H. destruct (next_run t nodes x l H) as (t' & E & Ht). exists t'. split; [|done].
  unfold match_token, check_token. rewrite (bind_ok _ _ _ _ _ E). by rewrite decide_True.
Qed.

Lemma identifier_run t nodes x l : pending t (KId x :: l) ->
  exists t', proc_identifier (parsed t nodes s) = Ok x (parsed t' nodes s) /\ pending t' l.
Proof.
  intros H. destruct (match_run t nodes _ l H) as (t' & E & Ht & Hs). exists t'. split; [|by eapply pending_stream].
  unfold proc_identifier. rewrite (bind_ok _ _ _ _ _ E). unfold token_string. rewrite bind_assoc, bind_gets. cbn [f_token parsed].
  destruct Ht as (_ & _ & -> & Hl). cbn [of_option]. rewrite bind_mret. by rewrite take_ge by lia.
Qed.

End Tokens.

(** ** Nodes *)

(** The node table with the nodes [u] in use and [k] nodes left. *)
Definition table (u : list finsh_node) (k : nat) : list finsh_node := u ++ replicate k empty_node.
Definition used_ok (u : list finsh_node) : Prop := Forall (fun n => n_type n <> FINSH_NODE_UNKNOWN) u.

Lemma free_node_table u k : used_ok u -> free_node (table u (S k)) = Some (length u).
Proof.
  induction 1 as [|n u Hn _ IH]; [done|]. cbn. destruct (Z.eqb_spec (n_type n) FINSH_NODE_UNKNOWN); [done|].
  unfold table in IH. cbn in IH. by rewrite IH.
Qed.
Lemma table_insert u k i n : (i < length u)%nat -> <[i := n]> (table u k) = table (<[i := n]> u) k.
Proof. intros H. unfold table. by rewrite insert_app_l. Qed.
Lemma table_lookup u k i n : u !! i = Some n -> table u k !! i = Some n.
Proof. intros H. unfold table. by apply lookup_app_l_Some. Qed.
Lemma table_next u k n : <[length u := n]> (table u (S k)) = table (u ++ [n]) k.
Proof. unfold table. rewrite <- (Nat.add_0_r (length u)), insert_app_r. cbn. by rewrite <- app_assoc. Qed.
Lemma used_snoc u n : used_ok u -> n_type n <> FINSH_NODE_UNKNOWN -> used_ok (u ++ [n]).
Proof. intros H1 H2. apply Forall_app. split; [done|by apply Forall_singleton]. Qed.
Lemma used_insert u i n : used_ok u -> n_type n <> FINSH_NODE_UNKNOWN -> used_ok (<[i := n]> u).
Proof. intros H1 H2. by apply Forall_insert. Qed.

Section Nodes.
Variable s : finsh.

Lemma upd_table_run t u k i n (g : finsh_node -> finsh_node) : u !! i = Some n ->
  upd_node i g (parsed t (table u k) s) = Ok tt (parsed t (table (<[i := g n]> u) k) s).
Proof.
  intros H. rewrite (upd_node_run i n g (parsed t (table u k) s) (table_lookup _ _ _ _ H)). cbn [f_nodes parsed].
  rewrite table_insert by by eapply lookup_lt_Some. done.
Qed.

Lemma node_allocate_run t u k type : used_ok u ->
  finsh_node_allocate type (parsed t (table u (S k)) s) =
    Ok (Some (length u)) (parsed t (table (u ++ [with_type type empty_node]) k) s).
Proof.
  intros Hu. unfold finsh_node_allocate. rewrite bind_gets. cbn [f_nodes parsed]. rewrite free_node_table by done.
  assert (H : f_nodes (parsed t (table u (S k)) s) !! length u = Some empty_node)
    by (cbn; unfold table; rewrite lookup_app_r, Nat.sub_diag by lia; done).
  rewrite (bind_ok _ _ _ _ _ (upd_node_run _ _ _ _ H)). cbn [f_nodes parsed]. rewrite table_next. done.
Qed.

(** A new leaf. *)
Lemma node_new_run t u k type (g : finsh_node -> finsh_node) : used_ok u ->
  node_new type (fun i => upd_node i g) (parsed t (table u (S k)) s) =
    Ok (Some (length u)) (parsed t (table (u ++ [g (with_type type empty_node)]) k) s).
Proof.
  intros Hu. unfold node_new. rewrite (bind_ok _ _ _ _ _ (node_allocate_run t u k type Hu)).
  assert (H : (u ++ [with_type type empty_node]) !! length u = Some (with_type type empty_node)) by by apply list_lookup_middle.
  rewrite (bind_ok _ _ _ _ _ (upd_table_run t _ k _ _ g H)).
  rewrite insert_app_r_alt, Nat.sub_diag by lia. done.
Qed.

Lemma make_sys_run t u k type i n p2 : used_ok u -> u !! i = Some n ->
  make_sys_node type (Some i) p2 (parsed t (table u (S k)) s) =
    Ok (Some (length u)) (parsed t (table (<[i := with_sibling p2 n]> u ++ [with_child (Some i) (with_type type empty_node)]) k) s).
Proof.
  intros Hu Hi. unfold make_sys_node. rewrite (bind_ok _ _ _ _ _ (node_allocate_run t u k type Hu)).
  assert (H : (u ++ [with_type type empty_node]) !! length u = Some (with_type type empty_node)) by by apply list_lookup_middle.
  rewrite (bind_ok _ _ _ _ _ (upd_table_run t _ k _ _ (with_child (Some i)) H)).
  rewrite insert_app_r_alt, Nat.sub_diag by lia. cbn [list_insert insert].
  assert (Hlt : (i < length u)%nat) by by eapply lookup_lt_Some.
  rewrite (bind_ok _ _ _ _ _ (upd_table_run t _ k i n (with_sibling p2) (lookup_app_l_Some _ _ _ _ Hi))).
  by rewrite insert_app_l.
Qed.

End Nodes.

(** A chain of one tree goes before another chain. *)
Lemma rep_before u w i n d kids rest p D1 D2 : u !! i = Some n -> rep u (Some i) (FCons d kids FNil) D1 ->
  w !! i = Some (with_sibling p n) -> (forall j, j ∈ D1 -> j <> i -> w !! j = u !! j) -> rep w p rest D2 -> D1 ## D2 ->
  rep w (Some i) (FCons d kids rest) (D1 ∪ D2).
Proof.
  intros Hi (j & n' & E1 & E2 & [= <-] & Hn & Hd & H1 & [_ ->] & -> & N1 & _ & _) Hw Hf H2 HD. rewrite Hi in Hn. injection Hn as <-.
  exists i, (with_sibling p n), E1, D2. split; [done|]. split; [done|]. split; [by rewrite <- Hd|]. cbn [n_child n_sibling with_sibling].
  split; [eapply rep_frame; [exact H1|]; intros j Hj; apply Hf; set_solver|]. split; [done|set_solver].
Qed.
Lemma rep_link u i n d kids rest p D1 D2 : u !! i = Some n -> rep u (Some i) (FCons d kids FNil) D1 -> rep u p rest D2 -> D1 ## D2 ->
  rep (<[i := with_sibling p n]> u) (Some i) (FCons d kids rest) (D1 ∪ D2).
Proof.
  intros Hi R1 R2 HD. eapply rep_before; [exact Hi|exact R1| | | |done].
  - apply list_lookup_insert_eq. by eapply lookup_lt_Some.
  - intros j _ Hj. by rewrite list_lookup_insert_ne by lia.
  - eapply rep_frame; [exact R2|]. intros j Hj. rewrite list_lookup_insert_ne; [done|]. intros ->.
    destruct R1 as (i' & _ & E1 & E2 & [= <-] & _ & _ & _ & _ & -> & _). set_solver.
Qed.

(** A node over a chain. *)
Lemma rep_over u p kids d n D : rep u p kids D -> data_of n = d -> n_child n = p -> n_sibling n = None ->
  rep (u ++ [n]) (Some (length u)) (FCons d kids FNil) ({[length u]} ∪ D).
Proof.
  intros H Hd Hc Hs. assert (HD : forall j, j ∈ D -> (j < length u)%nat) by (intros j Hj; by eapply rep_bound).
  exists (length u), n, D, ∅. split; [done|]. split; [by apply list_lookup_middle|]. split; [done|]. rewrite Hc, Hs.
  split; [eapply rep_frame; [exact H|]; intros j Hj; rewrite lookup_app_l by auto; done|]. split; [done|].
  split; [set_solver|]. split; [intros Hj; specialize (HD _ Hj); lia|set_solver].
Qed.
Lemma rep_more u v p f D : rep u p f D -> rep (u ++ v) p f D.
Proof. intros H. eapply rep_frame; [exact H|]. intros j Hj. apply lookup_app_l. by eapply rep_bound. Qed.
Lemma rep_head u i d kids rest D : rep u (Some i) (FCons d kids rest) D -> exists n, u !! i = Some n.
Proof. intros (j & n & _ & _ & [= <-] & H & _). by exists n. Qed.
