(* ===== verification/FinshParse.v ===== *)
(** * The parser reads expressions back

    The parser, on the tokens of an expression without parentheses, builds the
    syntax tree of the expression: by induction on the expression, for the
    level of the grammar the expression belongs to and every level above. *)

From S2P Require Import Prelude FinshVm FinshData FinshHeap FinshNode FinshToken FinshParser FinshTree FinshExec FinshComp FinshExpr.

(** ** Trees under construction *)

(** The number of nodes of an expression. *)
Definition tsize (t : tree) : nat := S (fsize (kids_of t)).
Lemma fsize_cons t l : fsize (forests_of (t :: l)) = (tsize t + fsize (forests_of l))%nat.
Proof. reflexivity. Qed.

(** The nodes [w] are the nodes [u] and, behind them, those of the expression [t] with root [i]. *)
Definition builds (u w : list finsh_node) (i : nat) (t : tree) : Prop :=
  used_ok w /\ length w = (length u + tsize t)%nat /\ (forall j, (j < length u)%nat -> w !! j = u !! j) /\
  exists D, rep w (Some i) (forest_of t FNil) D /\ forall j, j ∈ D -> (length u <= j)%nat.

Lemma builds_leaf u n t : used_ok u -> n_type n <> FINSH_NODE_UNKNOWN -> data_of n = node_of t -> kids_of t = FNil ->
  n_child n = None -> n_sibling n = None -> builds u (u ++ [n]) (length u) t.
Proof.
  intros Hu Hn Hd Hk Hc Hs. unfold builds, tsize, forest_of. rewrite Hk. split; [by apply used_snoc|]. split; [by rewrite length_app|].
  split; [intros j Hj; by apply lookup_app_l|]. exists ({[length u]} ∪ ∅). split; [by apply rep_over with (p := None)|].
  intros j Hj. assert (j = length u) by set_solver. lia.
Qed.

(** A node over the expression [l] and the chain [rest]. *)
Lemma builds_over u w i n l p rest D1 D2 type t : used_ok w -> length w = (length u + tsize l + fsize rest)%nat ->
  (forall j, (j < length u)%nat -> w !! j = u !! j) ->
  rep w (Some i) (forest_of l FNil) D1 -> rep w p rest D2 -> D1 ## D2 -> (forall j, j ∈ D1 ∪ D2 -> (length u <= j)%nat) ->
  w !! i = Some n -> kids_of t = forest_of l rest -> node_of t = plain_node type -> type <> FINSH_NODE_UNKNOWN ->
  builds u (<[i := with_sibling p n]> w ++ [with_child (Some i) (with_type type empty_node)]) (length w) t.
Proof.
  intros Hu Hl Hf R1 R2 HD Hj Hi Hk Hn Ht. assert (Hi' : (length u <= i)%nat).
  { apply Hj. destruct R1 as (i' & _ & E1 & E2 & [= <-] & _ & _ & _ & _ & -> & _). set_solver. }
  split; [|split; [|split]].
  - apply used_snoc; [|done]. apply used_insert; [done|]. exact (Forall_lookup_1 _ _ _ _ Hu Hi).
  - unfold tsize. rewrite Hk. rewrite length_app, length_insert, Hl. unfold tsize. cbn. lia.
  - intros j Hlt. rewrite lookup_app_l by (rewrite length_insert; lia). rewrite list_lookup_insert_ne by lia. by apply Hf.
  - exists ({[length w]} ∪ (D1 ∪ D2)). split.
    + rewrite <- (length_insert w i (with_sibling p n)). unfold forest_of. rewrite Hk, Hn.
      apply rep_over with (p := Some i); [|done|done|done]. by apply rep_link.
    + intros j [E%elem_of_singleton|E]%elem_of_union; [lia|by apply Hj].
Qed.

Lemma builds_root u w i t : builds u w i t -> exists n, w !! i = Some n /\ n_sibling n = None.
Proof. intros (_ & _ & _ & D & (j & n & D1 & D2 & [= <-] & H & _ & _ & [Hs _] & _) & _). by exists n. Qed.

Lemma builds_unary u w i n l type t : builds u w i l -> w !! i = Some n -> kids_of t = forest_of l FNil -> node_of t = plain_node type ->
  type <> FINSH_NODE_UNKNOWN ->
  builds u (<[i := with_sibling None n]> w ++ [with_child (Some i) (with_type type empty_node)]) (length w) t.
Proof.
  intros (Hu & Hl & Hf & D & R & HD) Hn Hk Ht Hty. apply (builds_over u w i n l None FNil D ∅); try done; [cbn; lia|].
  intros j Hj. apply HD. set_solver.
Qed.

(** A node over an expression and a chain behind it. *)
Lemma builds_chain u w w2 i n l p rest D2 type t : builds u w i l -> used_ok w2 -> length w2 = (length w + fsize rest)%nat ->
  (forall j, (j < length w)%nat -> w2 !! j = w !! j) -> rep w2 p rest D2 -> (forall j, j ∈ D2 -> (length w <= j)%nat) ->
  w2 !! i = Some n -> kids_of t = forest_of l rest -> node_of t = plain_node type -> type <> FINSH_NODE_UNKNOWN ->
  builds u (<[i := with_sibling p n]> w2 ++ [with_child (Some i) (with_type type empty_node)]) (length w2) t.
Proof.
  intros (Hu & Hl & Hf & D & R & HD) Hu2 Hl2 Hf2 R2 HD2 Hn Hk Ht Hty.
  assert (HDb : forall j, j ∈ D -> (j < length w)%nat) by (intros j Hj; by eapply rep_bound).
  apply (builds_over u w2 i n l p rest D D2); try done.
  - lia.
  - intros j Hj. rewrite Hf2 by lia. by apply Hf.
  - eapply rep_frame; [exact R|]. intros j Hj. by apply Hf2, HDb.
  - intros j H1 H2. specialize (HDb j H1). specialize (HD2 j H2). lia.
  - intros j [Hj|Hj]%elem_of_union; [by apply HD|]. specialize (HD2 j Hj). lia.
Qed.

Lemma builds_binary u w w2 i j n l r type t : builds u w i l -> builds w w2 j r -> w2 !! i = Some n ->
  kids_of t = forest_of l (forest_of r FNil) -> node_of t = plain_node type -> type <> FINSH_NODE_UNKNOWN ->
  builds u (<[i := with_sibling (Some j) n]> w2 ++ [with_child (Some i) (with_type type empty_node)]) (length w2) t.
Proof.
  intros B1 (Hu & Hl & Hf & D & R & HD) Hn Hk Ht Hty. eapply builds_chain; try done. rewrite Hl. unfold tsize. cbn. lia.
Qed.

(** The left operand was built last. *)
Lemma builds_swapped u w w2 i j n l r type t : builds u w i r -> builds w w2 j l -> w2 !! j = Some n ->
  kids_of t = forest_of l (forest_of r FNil) -> node_of t = plain_node type -> type <> FINSH_NODE_UNKNOWN ->
  builds u (<[j := with_sibling (Some i) n]> w2 ++ [with_child (Some j) (with_type type empty_node)]) (length w2) t.
Proof.
  intros (Hu & Hl & Hf & D & R & HD) (Hu2 & Hl2 & Hf2 & D2 & R2 & HD2) Hn Hk Ht Hty.
  assert (HDb : forall j, j ∈ D -> (j < length w)%nat) by (intros k Hj; by eapply rep_bound).
  apply (builds_over u w2 j n l (Some i) (forest_of r FNil) D2 D); try done.
  - rewrite Hl2, Hl. unfold tsize. cbn. lia.
  - intros k Hk'. rewrite Hf2 by lia. by apply Hf.
  - eapply rep_frame; [exact R|]. intros k Hk'. by apply Hf2, HDb.
  - intros k H1 H2. specialize (HDb k H2). specialize (HD2 k H1). lia.
  - intros k [Hk'|Hk']%elem_of_union; [|by apply HD]. specialize (HD2 k Hk'). lia.
Qed.

(** The nodes [w] are the nodes [u] and those of the expressions [l], a chain behind the node [a]. *)
Definition chained (u w : list finsh_node) (a : nat) (n : finsh_node) (l : list tree) : Prop :=
  used_ok w /\ length w = (length u + fsize (forests_of l))%nat /\ (forall j, (j < length u)%nat -> j <> a -> w !! j = u !! j) /\
  exists p D, w !! a = Some (with_sibling p n) /\ rep w p (forests_of l) D /\ forall j, j ∈ D -> (length u <= j)%nat.

Lemma chained_nil u a n : used_ok u -> u !! a = Some n -> n_sibling n = None -> chained u u a n [].
Proof.
  intros Hu Ha Hn. split; [done|]. split; [cbn; lia|]. split; [done|]. exists None, ∅. split; [|by split].
  rewrite Ha. f_equal. destruct n. cbn in Hn. by rewrite Hn.
Qed.
Lemma chained_cons u w1 w a n b nb t l : u !! a = Some n -> builds u w1 b t -> w1 !! b = Some nb ->
  chained (<[a := with_sibling (Some b) n]> w1) w b nb l -> chained u w a n (t :: l).
Proof.
  intros Ha (Hu1 & Hl1 & Hf1 & D1 & R1 & HD1) Hb (Hu & Hl & Hf & p & D & Hp & R & HD). rewrite length_insert in Hl, Hf, HD.
  assert (Hlt : (a < length u)%nat) by by eapply lookup_lt_Some.
  assert (Hub : (length u <= b)%nat) by (apply HD1; destruct R1 as (i & _ & E1 & E2 & [= <-] & _ & _ & _ & _ & -> & _); set_solver).
  assert (Hlb : (b < length w1)%nat) by by eapply lookup_lt_Some.
  split; [done|]. split; [rewrite Hl, Hl1, fsize_cons; lia|]. split.
  - intros j Hj Hne. rewrite Hf by lia. rewrite list_lookup_insert_ne by lia. by apply Hf1.
  - exists (Some b), (D1 ∪ D). split; [rewrite Hf by lia; apply list_lookup_insert_eq; lia|]. split.
    + cbn [forests_of foldr]. eapply rep_before; [exact Hb|exact R1|done| |exact R|].
      * intros j Hj Hne. specialize (HD1 j Hj). rewrite Hf by (try done; by eapply rep_bound). by rewrite list_lookup_insert_ne by lia.
      * intros j H1 H2. specialize (HD j H2). assert (j < length w1)%nat by by eapply rep_bound. lia.
    + intros j [Hj|Hj]%elem_of_union; [by apply HD1|]. specialize (HD j Hj). lia.
Qed.

Lemma chained_rep u w w2 b nb t l : builds u w b t -> w !! b = Some nb -> chained w w2 b nb l ->
  used_ok w2 /\ length w2 = (length u + fsize (forests_of (t :: l)))%nat /\ (forall j, (j < length u)%nat -> w2 !! j = u !! j) /\
  exists D, rep w2 (Some b) (forests_of (t :: l)) D /\ forall j, j ∈ D -> (length u <= j)%nat.
Proof.
  intros (Hu1 & Hl1 & Hf1 & D1 & R1 & HD1) Hb (Hu & Hl & Hf & p & D & Hp & R & HD).
  assert (Hub : (length u <= b)%nat) by (apply HD1; destruct R1 as (i & _ & E1 & E2 & [= <-] & _ & _ & _ & _ & -> & _); set_solver).
  split; [done|]. split; [rewrite Hl, Hl1, fsize_cons; lia|]. split; [intros j Hj; rewrite Hf by lia; by apply Hf1|].
  exists (D1 ∪ D). split; [|intros j [Hj|Hj]%elem_of_union; [by apply HD1|specialize (HD j Hj); lia]].
  cbn [forests_of foldr]. eapply rep_before; [exact Hb|exact R1|done| |exact R|].
  - intros j Hj Hne. apply Hf; [by eapply rep_bound|done].
  - intros j H1 H2. specialize (HD j H2). assert (j < length w)%nat by by eapply rep_bound. lia.
Qed.

(** ** Levels of the grammar *)

Definition level_ops (j : nat) : finsh_token_type -> option Z :=
  match j with 0 => mul_ops | 1 => add_ops | 2 => shift_ops | 3 => and_ops | 4 => xor_ops | _ => or_ops end%nat.

Definition postfix_tok (k : finsh_token_type) : bool := match k with T_inc | T_dec | T_left_paren => true | _ => false end.
(** The token ends an expression of a level below [k]. *)
Definition stops (k : nat) (y : tok) : Prop :=
  postfix_tok (tok_type y) = false /\ forall j, (j < k)%nat -> level_ops j (tok_type y) = None.
Definition ends (y : tok) : Prop := stops 6 y /\ tok_type y <> T_assign.

Lemma stops_le j k y : (j <= k)%nat -> stops k y -> stops j y.
Proof. intros Hle [H1 H2]. split; [done|]. intros i Hi. apply H2. lia. Qed.
Lemma ops_own o : level_ops (prec o) (bin_tok o) = Some (bin_node o).
Proof. by destruct o. Qed.
Lemma ops_stop o : stops (prec o) (KOp (bin_tok o)).
Proof. split; [by destruct o|]. intros j Hj. destruct o; cbn in Hj; try lia; by destruct j as [|[|[|[|[|j]]]]]; try lia. Qed.

Section Parse.
Context {FE : FinshEnv}.
Variable s : finsh.

Fixpoint bin_level (fuel k : nat) (cast : F node_ptr) : F node_ptr :=
  match k with O => cast | S k => binary_expr fuel (level_ops k) (bin_level fuel k cast) end.

Lemma or_level fuel cast : proc_inclusive_or_expr fuel cast = bin_level fuel 6 cast.
Proof. reflexivity. Qed.

(** [P] reads the expression [t] from the tokens [ks] before a token that [follow]s. *)
Definition parses (P : F node_ptr) (ks : list tok) (t : tree) (follow : tok -> Prop) : Prop :=
  forall tk u k y l, pending tk (ks ++ y :: l) -> follow y -> used_ok u -> (tsize t <= k)%nat ->
  exists tk' w i, P (parsed tk (table u k) s) = Ok (Some i) (parsed tk' (table w (k - tsize t)) s) /\
    pending tk' (y :: l) /\ builds u w i t.

(** A binary level has read the expression [t] and the token behind it, in [c] turns at most. *)
Definition spine (fuel j : nat) (cast : F node_ptr) (ks : list tok) (t : tree) (c : nat) : Prop :=
  forall tk u k y l, pending tk (ks ++ y :: l) -> stops j y -> used_ok u -> (tsize t <= k)%nat ->
  exists tk' w i fuel', bin_level fuel (S j) cast (parsed tk (table u k) s) =
      binary_loop fuel' (level_ops j) (bin_level fuel j cast) (Some i) (tok_type y) (parsed tk' (table w (k - tsize t)) s) /\
    (fuel <= fuel' + c)%nat /\ tok_at y tk' /\ stream tk' l /\ builds u w i t.

Lemma spine_base fuel j cast ks t c : parses (bin_level fuel j cast) ks t (stops j) -> spine fuel j cast ks t c.
Proof.
  intros H tk u k y l Hp Hy Hu Hk. destruct (H tk u k y l Hp Hy Hu Hk) as (tk1 & w & i & E & Hp1 & B).
  destruct (next_run s tk1 (table w (k - tsize t)) y l Hp1) as (tk2 & E2 & Ht & Hs).
  exists tk2, w, i, fuel. split; [|split; [lia|done]]. cbn [bin_level]. unfold binary_expr.
  by rewrite (bind_ok _ _ _ _ _ E), (bind_ok _ _ _ _ _ E2).
Qed.

Lemma spine_end fuel j cast ks t c : spine fuel j cast ks t c -> parses (bin_level fuel (S j) cast) ks t (stops (S j)).
Proof.
  intros H tk u k y l Hp Hy Hu Hk.
  destruct (H tk u k y l Hp (stops_le j (S j) y ltac:(lia) Hy) Hu Hk) as (tk1 & w & i & fuel' & E & _ & Ht & Hs & B).
  destruct (replay_run s tk1 (table w (k - tsize t)) y l Ht Hs) as [E2 Hp2].
  exists (unread tk1), w, i. split; [|done]. rewrite E.
  assert (Hn : level_ops j (tok_type y) = None) by (apply Hy; lia).
  destruct fuel'; cbn [binary_loop]; rewrite Hn; by rewrite (bind_ok _ _ _ _ _ E2).
Qed.

Lemma spine_bin fuel cast o kl kr l r cl cr : spine fuel (prec o) cast kl l cl -> (cl < fuel)%nat ->
  parses (bin_level fuel (prec o) cast) kr r (stops (prec o)) ->
  spine fuel (prec o) cast (kl ++ KOp (bin_tok o) :: kr) (TBin o l r) (S cl + cr).
Proof.
  intros Hl Hc Hr tk u k y ts Hp Hy Hu Hk. rewrite <- app_assoc in Hp. cbn [app] in Hp.
  assert (Es : tsize (TBin o l r) = S (tsize l + tsize r)) by (unfold tsize; cbn; lia). rewrite Es in Hk |- *.
  destruct (Hl tk u k _ _ Hp (ops_stop o) Hu ltac:(lia)) as (tk1 & w1 & i & fuel1 & E1 & Hf1 & Ht1 & Hs1 & B1).
  destruct fuel1 as [|fuel1]; [lia|].
  destruct (Hr tk1 w1 (k - tsize l)%nat y ts (pending_stream _ _ _ Ht1 Hs1) Hy (proj1 B1) ltac:(lia)) as (tk2 & w2 & j & E2 & Hp2 & B2).
  destruct (builds_root _ _ _ _ B1) as (n & Hn & _).
  assert (Hn2 : w2 !! i = Some n) by (destruct B2 as (_ & _ & -> & _); [done|by eapply lookup_lt_Some]).
  replace (k - tsize l - tsize r)%nat with (S (k - S (tsize l + tsize r))) in E2 by lia.
  pose proof (make_sys_run s tk2 w2 (k - S (tsize l + tsize r)) (bin_node o) i n (Some j) (proj1 B2) Hn2) as E3.
  assert (B3 := builds_binary u w1 w2 i j n l r (bin_node o) (TBin o l r) B1 B2 Hn2 eq_refl eq_refl ltac:(by destruct o)).
  match type of B3 with builds _ ?w _ _ => destruct (next_run s tk2 (table w (k - S (tsize l + tsize r))) y ts Hp2) as (tk3 & E4 & Ht3 & Hs3) end.
  eexists tk3, _, (length w2), fuel1. split; [|split; [lia|by split; [|split]]].
  rewrite E1. cbn [binary_loop tok_type]. rewrite ops_own, (bind_ok _ _ _ _ _ E2), (bind_ok _ _ _ _ _ E3), (bind_ok _ _ _ _ _ E4). done.
Qed.

(** An expression of some level is one of every level above. *)
Lemma climb fuel cast ks t k k' : parses (bin_level fuel k cast) ks t (stops k) -> (k <= k')%nat ->
  parses (bin_level fuel k' cast) ks t (stops k').
Proof. induction 2 as [|k' _ IH]; [done|]. by apply (spine_end fuel k' cast ks t 0), spine_base. Qed.

(** ** Primary and postfix expressions *)

Definition reads (P : F node_ptr) (ks : list tok) (t : tree) : Prop :=
  forall tk u k l, pending tk (ks ++ l) -> used_ok u -> (tsize t <= k)%nat ->
  exists tk' w i, P (parsed tk (table u k) s) = Ok (Some i) (parsed tk' (table w (k - tsize t)) s) /\ pending tk' l /\ builds u w i t.

Lemma new_id_run tk u k x p kind : resolve s x = Some (p, kind) -> (length x < FINSH_NAME_MAX)%nat -> used_ok u ->
  finsh_node_new_id x (parsed tk (table u (S k)) s) =
    Ok (Some (length u)) (parsed tk (table (u ++ [with_id p kind (with_type FINSH_NODE_ID empty_node)]) k) s).
Proof.
  intros Hx Hl Hu. rewrite <- (node_new_run s tk u k FINSH_NODE_ID (with_id p kind) Hu). unfold finsh_node_new_id, finsh_var_lookup.
  unfold resolve in Hx. rewrite bind_assoc, bind_gets. cbn [f_vars parsed].
  destruct (find_name x (f_vars s)) as [i|]; [injection Hx as <- <-; done|]. cbn [fmap option_fmap option_map]. rewrite bind_mret.
  unfold finsh_sysvar_lookup, terminated. rewrite bool_decide_true by done. rewrite bind_assoc, bind_assoc, bind_mret, bind_assoc, bind_gets.
  rewrite bind_mret. cbn [f_sysvar_list parsed].
  destruct (table_find sv_name str_eqb x sysvar_table) as [q|]; [injection Hx as <- <-; done|].
  destruct (table_find sv_name _ x (f_sysvar_list s)) as [q|]; [injection Hx as <- <-; done|].
  unfold finsh_syscall_lookup, terminated. rewrite bool_decide_true by done. rewrite !bind_assoc, bind_mret, bind_assoc, bind_gets.
  rewrite !bind_mret. cbn [f_syscall_list parsed].
  destruct (table_find sc_name str_eqb x syscall_table) as [q|]; [injection Hx as <- <-; done|].
  destruct (table_find sc_name _ x (f_syscall_list s)) as [q|]; [injection Hx as <- <-; done|done].
Qed.

Lemma primary_id expr x p : resolve s x = Some (pl_id p, pl_kind p) -> reads (proc_primary_expr expr) [KId x] (TPlace p).
Proof.
  intros Hx tk u k l Hp Hu Hk. destruct k as [|k]; [unfold tsize in Hk; lia|]. cbn [app] in Hp.
  destruct (next_run s tk (table u (S k)) _ _ Hp) as (tk1 & E1 & Ht1 & Hs1).
  destruct (replay_run s tk1 (table u (S k)) _ _ Ht1 Hs1) as [E2 Hp2].
  destruct (identifier_run s (unread tk1) (table u (S k)) x l Hp2) as (tk3 & E3 & Hp3).
  exists tk3, (u ++ [with_id (pl_id p) (pl_kind p) (with_type FINSH_NODE_ID empty_node)]), (length u).
  split; [|split; [done|by apply builds_leaf]]. unfold proc_primary_expr. rewrite (bind_ok _ _ _ _ _ E1). cbn [tok_type].
  rewrite (bind_ok _ _ _ _ _ E2), (bind_ok _ _ _ _ _ E3). change (S k - tsize (TPlace p))%nat with (k - 0)%nat. rewrite Nat.sub_0_r.
  apply new_id_run; [done| |done]. by destruct Ht1 as (_ & _ & _ & H).
Qed.

Lemma primary_num expr n : reads (proc_primary_expr expr) [KNum n] (TInt n).
Proof.
  intros tk u k l Hp Hu Hk. destruct k as [|k]; [unfold tsize in Hk; lia|]. cbn [app] in Hp.
  destruct (next_run s tk (table u (S k)) _ _ Hp) as (tk1 & E1 & Ht1 & Hs1).
  exists tk1, (u ++ [with_value (u32 n) (with_type FINSH_NODE_VALUE_INT empty_node)]), (length u).
  split; [|split; [by eapply pending_stream|by apply builds_leaf]]. unfold proc_primary_expr. rewrite (bind_ok _ _ _ _ _ E1). cbn [tok_type].
  rewrite bind_gets. cbn [f_token parsed]. destruct Ht1 as (_ & _ & Hv). rewrite Hv. unfold finsh_node_new_int.
  rewrite (node_new_run s tk1 u k FINSH_NODE_VALUE_INT (with_value (u32 (u32 n))) Hu).
  change (S k - tsize (TInt n))%nat with (k - 0)%nat. rewrite Nat.sub_0_r.
  assert (E : u32 (u32 n) = u32 n) by (unfold u32; by rewrite Z.mod_mod). by rewrite E.
Qed.

Lemma primary_char expr c : reads (proc_primary_expr expr) [KChar c] (TChar c).
Proof.
  intros tk u k l Hp Hu Hk. destruct k as [|k]; [unfold tsize in Hk; lia|]. cbn [app] in Hp.
  destruct (next_run s tk (table u (S k)) _ _ Hp) as (tk1 & E1 & Ht1 & Hs1).
  exists tk1, (u ++ [with_value (c mod 256) (with_type FINSH_NODE_VALUE_CHAR empty_node)]), (length u).
  split; [|split; [by eapply pending_stream|by apply builds_leaf]]. unfold proc_primary_expr. rewrite (bind_ok _ _ _ _ _ E1). cbn [tok_type].
  rewrite bind_gets. cbn [f_token parsed]. destruct Ht1 as (_ & _ & Hv). unfold finsh_node_new_char.
  rewrite (node_new_run s tk1 u k FINSH_NODE_VALUE_CHAR _ Hu).
  change (S k - tsize (TChar c))%nat with (k - 0)%nat. rewrite Nat.sub_0_r. unfold slot_put. cbn. change (2 ^ 8) with 256. rewrite Hv. done.
Qed.

Lemma postfix_run fuel expr ks t : reads (proc_primary_expr expr) ks t -> parses (proc_postfix_expr fuel expr) ks t (stops 0).
Proof.
  intros H tk u k y l Hp [Hy _] Hu Hk. destruct (H tk u k (y :: l) Hp Hu Hk) as (tk1 & w & i & E & Hp1 & B).
  destruct (next_run s tk1 (table w (k - tsize t)) y l Hp1) as (tk2 & E2 & Ht & Hs).
  destruct (replay_run s tk2 (table w (k - tsize t)) y l Ht Hs) as [E3 Hp3].
  exists (unread tk2), w, i. split; [|done]. unfold proc_postfix_expr. rewrite (bind_ok _ _ _ _ _ E), (bind_ok _ _ _ _ _ E2).
  destruct fuel; cbn [postfix_loop]; destruct (tok_type y); try discriminate Hy; by rewrite (bind_ok _ _ _ _ _ E3).
Qed.

(** [x++] and [x--] *)
Lemma postfix_step fuel expr sub x p : resolve s x = Some (pl_id p, pl_kind p) ->
  parses (proc_postfix_expr (S fuel) expr) [KId x; KOp (if sub : bool then T_dec else T_inc)] (TPost sub p) (stops 0).
Proof.
  intros Hx tk u k y l Hp [Hy _] Hu Hk. change (tsize (TPost sub p)) with 2%nat in *. destruct k as [|[|k]]; [lia|lia|].
  destruct (primary_id expr x p Hx tk u (S (S k)) (KOp (if sub then T_dec else T_inc) :: y :: l) Hp Hu ltac:(unfold tsize; cbn; lia)) as (tk1 & w & i & E & Hp1 & B).
  change (S (S k) - tsize (TPlace p))%nat with (S k) in E.
  destruct (next_run s tk1 (table w (S k)) _ _ Hp1) as (tk2 & E2 & Ht & Hs).
  destruct (builds_root _ _ _ _ B) as (n & Hn & _).
  set (type := if sub then FINSH_NODE_SYS_DEC else FINSH_NODE_SYS_INC).
  pose proof (make_sys_run s tk2 w k type i n None (proj1 B) Hn) as E3.
  assert (B3 := builds_unary u w i n _ type (TPost sub p) B Hn eq_refl eq_refl ltac:(by destruct sub)).
  match type of B3 with builds _ ?w _ _ => set (w3 := w) in * end.
  destruct (next_run s tk2 (table w3 k) y l (pending_stream _ _ _ Ht Hs)) as (tk4 & E4 & Ht4 & Hs4).
  destruct (replay_run s tk4 (table w3 k) y l Ht4 Hs4) as [E5 Hp5].
  exists (unread tk4), w3, (length w). replace (S (S k) - 2)%nat with k by lia. split; [|done]. unfold proc_postfix_expr.
  rewrite (bind_ok _ _ _ _ _ E), (bind_ok _ _ _ _ _ E2). unfold type in E3. cbn [tok_type postfix_loop].
  destruct sub; rewrite (bind_ok _ _ _ _ _ E3), (bind_ok _ _ _ _ _ E4);
    (destruct fuel; cbn [postfix_loop]; destruct (tok_type y); try discriminate Hy; by rewrite (bind_ok _ _ _ _ _ E5)).
Qed.

(** ** Calls *)

Lemma ends_closers k : k = T_comma \/ k = T_right_paren \/ k = T_semicolon -> ends (KOp k).
Proof. intros Hk. split; [split|]; [|intros j _|]; destruct Hk as [->|[->| ->]]; try done; by destruct j as [|[|[|[|[|j]]]]]. Qed.

Lemma params_run expr args tl : Forall2 (fun e t => parses expr (toks e) t ends) args tl ->
  forall fuel tk u k a n l, pending tk (more_toks args ++ KOp T_right_paren :: l) -> used_ok u -> u !! a = Some n -> n_sibling n = None ->
  (length args <= fuel)%nat -> (fsize (forests_of tl) <= k)%nat ->
  exists tk' w, (token ← next_token; param_loop fuel expr a token) (parsed tk (table u k) s) =
      Ok tt (parsed tk' (table w (k - fsize (forests_of tl))) s) /\
    pending tk' (KOp T_right_paren :: l) /\ chained u w a n tl.
Proof.
  induction 1 as [|e t args tl He _ IH]; intros fuel tk u k a n l Hp Hu Ha Hn Hf Hk; cbn [more_toks app] in Hp.
  - destruct (next_run s tk (table u k) _ _ Hp) as (tk1 & E1 & Ht1 & Hs1).
    destruct (replay_run s tk1 (table u k) _ _ Ht1 Hs1) as [E2 Hp2]. exists (unread tk1), u. split; [|split; [done|by apply chained_nil]].
    rewrite (bind_ok _ _ _ _ _ E1). cbn [forests_of foldr fsize]. rewrite Nat.sub_0_r. destruct fuel; exact E2.
  - rewrite fsize_cons in Hk |- *.
    destruct fuel as [|fuel]; [cbn in Hf; lia|]. cbn in Hf.
    destruct (next_run s tk (table u k) _ _ Hp) as (tk1 & E1 & Ht1 & Hs1). rewrite <- app_assoc in Hs1.
    assert (exists y l', more_toks args ++ KOp T_right_paren :: l = y :: l' /\ ends y) as (y & l' & Ey & Hy).
    { destruct args as [|e' args]; cbn; eexists _, _; (split; [reflexivity|]); apply ends_closers; auto. }
    rewrite Ey in Hs1. destruct (He tk1 u k y l' (pending_stream _ _ _ Ht1 Hs1) Hy Hu ltac:(lia)) as (tk2 & w1 & b & E2 & Hp2 & B).
    destruct (builds_root _ _ _ _ B) as (nb & Hb & Hnb).
    assert (Ha1 : w1 !! a = Some n) by (destruct B as (_ & _ & -> & _); [done|by eapply lookup_lt_Some]).
    assert (Hab : a <> b) by (destruct B as (_ & _ & Hf1 & D & (i & _ & D1 & D2 & [= <-] & _ & _ & _ & _ & -> & _) & HD);
      intros ->; assert (length u <= b)%nat by (apply HD; set_solver); apply lookup_lt_Some in Ha; lia).
    pose proof (upd_table_run s tk2 w1 (k - tsize t) a n (with_sibling (Some b)) Ha1) as E3. rewrite <- Ey in Hp2.
    set (w2 := <[a:=with_sibling (Some b) n]> w1) in *.
    destruct (IH fuel tk2 w2 (k - tsize t)%nat b nb l Hp2) as (tk4 & w & E4 & Hp4 & C);
      [apply used_insert; [apply B|exact (Forall_lookup_1 _ _ _ _ Hu Ha)]|unfold w2; by rewrite list_lookup_insert_ne|done|lia|lia|].
    exists tk4, w. split; [|split; [done|by apply (chained_cons u w1 w a n b nb)]].
    rewrite (bind_ok _ _ _ _ _ E1). cbn [tok_type param_loop]. rewrite decide_True by done.
    rewrite (bind_ok _ _ _ _ _ E2), (bind_ok _ _ _ _ _ E3), bind_mret. rewrite E4. by replace (k - (tsize t + fsize (forests_of tl)))%nat with (k - tsize t - fsize (forests_of tl))%nat by lia.
Qed.

(** The tokens an expression may start with. *)
Definition starter (k : finsh_token_type) : bool :=
  match k with
  | T_identifier | T_value_int | T_value_char | T_sub | T_add | T_bitwise | T_mul | T_and | T_inc | T_dec => true
  | _ => false
  end.
Lemma toks_head e : exists x l, toks e = x :: l /\ starter (tok_type x) = true.
Proof.
  induction e using expr_rect'; try (eexists _, _; split; [reflexivity|done]).
  - destruct IHe1 as (x & l & E & Hx). cbn. rewrite E. by eexists _, _.
  - destruct b; eexists _, _; (split; [reflexivity|done]).
Qed.

(** The actual parameters between the parentheses. *)
Lemma param_list_run fuel expr e args t tl : Forall2 (fun e t => parses expr (toks e) t ends) (e :: args) (t :: tl) -> (length args <= fuel)%nat ->
  forall tk u k l, pending tk (toks e ++ more_toks args ++ KOp T_right_paren :: l) -> used_ok u -> (fsize (forests_of (t :: tl)) <= k)%nat ->
  exists tk' w b D, proc_param_list fuel expr (parsed tk (table u k) s) =
      Ok (Some b) (parsed tk' (table w (k - fsize (forests_of (t :: tl)))) s) /\
    pending tk' (KOp T_right_paren :: l) /\ used_ok w /\ length w = (length u + fsize (forests_of (t :: tl)))%nat /\
    (forall j, (j < length u)%nat -> w !! j = u !! j) /\ rep w (Some b) (forests_of (t :: tl)) D /\ forall j, j ∈ D -> (length u <= j)%nat.
Proof.
  intros [He Ha]%Forall2_cons Hf tk u k l Hp Hu Hk. rewrite fsize_cons in Hk |- *.
  assert (exists y l', more_toks args ++ KOp T_right_paren :: l = y :: l' /\ ends y) as (y & l' & Ey & Hy).
  { destruct args as [|e' args]; cbn; eexists _, _; (split; [reflexivity|]); apply ends_closers; auto. }
  rewrite Ey in Hp. destruct (He tk u k y l' Hp Hy Hu ltac:(lia)) as (tk1 & w1 & b & E1 & Hp1 & B). rewrite <- Ey in Hp1.
  destruct (builds_root _ _ _ _ B) as (nb & Hb & Hnb).
  destruct (params_run expr args tl Ha fuel tk1 w1 (k - tsize t)%nat b nb l Hp1 (proj1 B) Hb Hnb Hf ltac:(lia)) as (tk2 & w & E2 & Hp2 & C).
  destruct (chained_rep _ _ _ _ _ _ _ B Hb C) as (Hu2 & Hl2 & Hf2 & D & R & HD).
  exists tk2, w, b, D. split; [|rewrite <- fsize_cons; done]. unfold proc_param_list. rewrite (bind_ok _ _ _ _ _ E1), <- bind_assoc.
  rewrite (bind_ok _ _ _ _ _ E2). by replace (k - (tsize t + fsize (forests_of tl)))%nat with (k - tsize t - fsize (forests_of tl))%nat by lia.
Qed.

Definition arg_toks (args : list expr) : list tok := match args with [] => [] | e :: l => toks e ++ more_toks l end.
Lemma toks_call x args : toks (ECall x args) = KId x :: KOp T_left_paren :: arg_toks args ++ [KOp T_right_paren].
Proof. by destruct args. Qed.

(** From the left parenthesis to the right one. *)
Definition proc_args (fuel : nat) (expr : F node_ptr) : F node_ptr :=
  token ← next_token;
  if decide (token = T_right_paren) then mret None
  else finsh_token_replay;; l ← proc_param_list fuel expr; match_token T_right_paren;; mret l.

Lemma args_run fuel expr args tl : Forall2 (fun e t => parses expr (toks e) t ends) args tl -> (length args <= fuel)%nat ->
  forall tk u k l, pending tk (arg_toks args ++ KOp T_right_paren :: l) -> used_ok u -> (fsize (forests_of tl) <= k)%nat ->
  exists tk' w p D, proc_args fuel expr (parsed tk (table u k) s) = Ok p (parsed tk' (table w (k - fsize (forests_of tl))) s) /\
    pending tk' l /\ used_ok w /\ length w = (length u + fsize (forests_of tl))%nat /\
    (forall j, (j < length u)%nat -> w !! j = u !! j) /\ rep w p (forests_of tl) D /\ forall j, j ∈ D -> (length u <= j)%nat.
Proof.
  intros HA Hf tk u k l Hp Hu Hk. unfold proc_args. destruct HA as [|e t args tl He Ha]; cbn [arg_toks app] in Hp.
  - destruct (next_run s tk (table u k) _ _ Hp) as (tk1 & E1 & Ht1 & Hs1). exists tk1, u, None, ∅.
    rewrite (bind_ok _ _ _ _ _ E1). cbn [tok_type]. rewrite decide_True by done. cbn [forests_of foldr fsize]. rewrite Nat.sub_0_r.
    split; [done|]. split; [by eapply pending_stream|]. split; [done|]. split; [lia|]. split; [done|]. by split.
  - rewrite <- app_assoc in Hp. destruct (toks_head e) as (x & l' & Ex & Hx). assert (Hp' := Hp). rewrite Ex in Hp'. cbn [app] in Hp'.
    destruct (next_run s tk (table u k) _ _ Hp') as (tk1 & E1 & Ht1 & Hs1).
    destruct (replay_run s tk1 (table u k) _ _ Ht1 Hs1) as [E2 Hp2]. change (x :: l' ++ ?r) with ((x :: l') ++ r) in Hp2. rewrite <- Ex in Hp2.
    destruct (param_list_run fuel expr e args t tl ltac:(by constructor) ltac:(cbn in Hf; lia) _ u k l Hp2 Hu Hk)
      as (tk3 & w & b & D & E3 & Hp3 & HW).
    destruct (match_run s tk3 (table w (k - fsize (forests_of (t :: tl)))) _ _ Hp3) as (tk4 & E4 & Ht4 & Hs4).
    exists tk4, w, (Some b), D. split; [|split; [by eapply pending_stream|done]].
    rewrite (bind_ok _ _ _ _ _ E1), decide_False by (intros E; by rewrite E in Hx).
    by rewrite (bind_ok _ _ _ _ _ E2), (bind_ok _ _ _ _ _ E3), (bind_ok _ _ _ _ _ E4).
Qed.

Lemma postfix_call fuel expr x f args tl : resolve s x = Some (f.1, FINSH_IDTYPE_SYSCALL) ->
  Forall2 (fun e t => parses expr (toks e) t ends) args tl -> (length args <= fuel)%nat ->
  parses (proc_postfix_expr (S fuel) expr) (toks (ECall x args)) (TCall f.1 f.2 tl) (stops 0).
Proof.
  intros Hx HA Hf tk u k y l Hp [Hy _] Hu Hk. rewrite toks_call in Hp. cbn [app] in Hp. rewrite <- app_assoc in Hp. cbn [app] in Hp.
  set (p := mk_place FINSH_IDTYPE_SYSCALL f.1 finsh_type_unknown WByte 0).
  assert (Es : tsize (TCall f.1 f.2 tl) = (2 + fsize (forests_of tl))%nat) by (unfold tsize; by rewrite kids_of_call). rewrite Es in Hk |- *.
  destruct k as [|[|k]]; [lia|lia|]. cbn in Hk.
  destruct (primary_id expr x p Hx tk u (S (S k)) _ Hp Hu ltac:(unfold tsize; cbn; lia)) as (tk1 & w1 & i & E1 & Hp1 & B).
  change (S (S k) - tsize (TPlace p))%nat with (S k) in E1.
  destruct (next_run s tk1 (table w1 (S k)) _ _ Hp1) as (tk2 & E2 & Ht2 & Hs2).
  destruct (args_run fuel expr args tl HA Hf tk2 w1 (S k) _ (pending_stream _ _ _ Ht2 Hs2) (proj1 B) ltac:(lia))
    as (tk3 & w3 & q & D & E3 & Hp3 & Hu3 & Hl3 & Hf3 & R3 & HD3).
  destruct (builds_root _ _ _ _ B) as (n & Hn & _).
  assert (Hn3 : w3 !! i = Some n) by (rewrite Hf3; [done|by eapply lookup_lt_Some]).
  replace (S k - fsize (forests_of tl))%nat with (S (k - fsize (forests_of tl))) in E3 by lia.
  pose proof (make_sys_run s tk3 w3 (k - fsize (forests_of tl)) FINSH_NODE_SYS_FUNC i n q Hu3 Hn3) as E4.
  assert (B4 := builds_chain u w1 w3 i n _ q _ D FINSH_NODE_SYS_FUNC (TCall f.1 f.2 tl) B Hu3 Hl3 Hf3 R3 HD3 Hn3
    (kids_of_call f.1 f.2 tl) eq_refl ltac:(done)).
  match type of B4 with builds _ ?w _ _ => set (w4 := w) in * end.
  destruct (next_run s tk3 (table w4 (k - fsize (forests_of tl))) y l Hp3) as (tk5 & E5 & Ht5 & Hs5).
  destruct (replay_run s tk5 (table w4 (k - fsize (forests_of tl))) y l Ht5 Hs5) as [E6 Hp6].
  exists (unread tk5), w4, (length w3). replace (S (S k) - (2 + fsize (forests_of tl)))%nat with (k - fsize (forests_of tl))%nat by lia.
  split; [|done]. unfold proc_postfix_expr. rewrite (bind_ok _ _ _ _ _ E1), (bind_ok _ _ _ _ _ E2). cbn [tok_type postfix_loop].
  assert (E34 : (p ← proc_args fuel expr; make_sys_node FINSH_NODE_SYS_FUNC (Some i) p) (parsed tk2 (table w1 (S k)) s) =
    Ok (Some (length w3)) (parsed tk3 (table w4 (k - fsize (forests_of tl))) s)) by by rewrite (bind_ok _ _ _ _ _ E3).
  unfold proc_args in E34. rewrite bind_assoc in E34. rewrite (bind_ok _ _ _ _ _ E34), (bind_ok _ _ _ _ _ E5).
  destruct fuel; cbn [postfix_loop]; destruct (tok_type y); try discriminate Hy; by rewrite (bind_ok _ _ _ _ _ E6).
Qed.

(** ** Unary expressions *)

(** A cast that starts with no parenthesis is a unary expression. *)
Lemma cast_run fuel tk nodes x l : pending tk (x :: l) -> tok_type x <> T_left_paren ->
  exists tk', proc_cast_expr (S fuel) (parsed tk nodes s) =
      proc_unary_expr fuel (proc_cast_expr fuel) (proc_assign_expr fuel) (parsed tk' nodes s) /\ pending tk' (x :: l).
Proof.
  intros Hp Hx. destruct (next_run s tk nodes x l Hp) as (tk1 & E1 & Ht1 & Hs1).
  destruct (replay_run s tk1 nodes x l Ht1 Hs1) as [E2 Hp2]. exists (unread tk1). split; [|done].
  cbn [proc_cast_expr]. rewrite (bind_ok _ _ _ _ _ E1), decide_False, bind_mret by done. by rewrite (bind_ok _ _ _ _ _ E2).
Qed.

Definition prefix_tok (k : finsh_token_type) : bool :=
  match k with T_add | T_inc | T_sub | T_dec | T_bitwise | T_mul | T_and | T_left_paren => true | _ => false end.

Lemma cast_postfix fuel x ks t follow : prefix_tok (tok_type x) = false ->
  parses (proc_postfix_expr fuel (proc_assign_expr fuel)) (x :: ks) t follow -> parses (proc_cast_expr (S fuel)) (x :: ks) t follow.
Proof.
  intros Hx H tk u k y l Hp Hy Hu Hk. cbn [app] in Hp.
  destruct (cast_run fuel tk (table u k) x _ Hp) as (tk1 & E1 & Hp1); [by intros E; rewrite E in Hx|].
  destruct (next_run s tk1 (table u k) _ _ Hp1) as (tk2 & E2 & Ht2 & Hs2).
  destruct (replay_run s tk2 (table u k) _ _ Ht2 Hs2) as [E3 Hp3].
  destruct (H (unread tk2) u k y l Hp3 Hy Hu Hk) as (tk4 & w & i & E4 & HR). exists tk4, w, i. split; [|done].
  rewrite E1. unfold proc_unary_expr. rewrite (bind_ok _ _ _ _ _ E2).
  destruct (tok_type x); try discriminate Hx; by rewrite (bind_ok _ _ _ _ _ E3).
Qed.

Definition prefix_node (k : finsh_token_type) : option Z :=
  match k with
  | T_inc => Some FINSH_NODE_SYS_PREINC
  | T_dec => Some FINSH_NODE_SYS_PREDEC
  | T_bitwise => Some FINSH_NODE_SYS_BITWISE
  | T_mul => Some FINSH_NODE_SYS_GETVALUE
  | T_and => Some FINSH_NODE_SYS_GETADDR
  | _ => None
  end.

Lemma cast_prefix fuel op type ks l t follow : prefix_node op = Some type -> parses (proc_cast_expr fuel) ks l follow ->
  kids_of t = forest_of l FNil -> node_of t = plain_node type ->
  parses (proc_cast_expr (S fuel)) (KOp op :: ks) t follow.
Proof.
  intros Hop H Hkids Hnode tk u k y ts Hp Hy Hu Hk. cbn [app] in Hp.
  assert (Es : tsize t = S (tsize l)) by (unfold tsize; rewrite Hkids; cbn; lia). rewrite Es in Hk |- *. destruct k as [|k]; [lia|].
  destruct (cast_run fuel tk (table u (S k)) _ _ Hp) as (tk1 & E1 & Hp1); [by intros E; cbn in E; subst op|].
  destruct (next_run s tk1 (table u (S k)) _ _ Hp1) as (tk2 & E2 & Ht2 & Hs2).
  destruct (H tk2 u (S k) y ts (pending_stream _ _ _ Ht2 Hs2) Hy Hu ltac:(lia)) as (tk3 & w & i & E3 & Hp3 & B).
  destruct (builds_root _ _ _ _ B) as (n & Hn & _). replace (S k - tsize l)%nat with (S (k - tsize l)) in E3 by lia.
  pose proof (make_sys_run s tk3 w (k - tsize l) type i n None (proj1 B) Hn) as E4.
  assert (Hty : type <> FINSH_NODE_UNKNOWN) by (destruct op; cbn in Hop; try done; by injection Hop as <-).
  assert (B4 := builds_unary u w i n l type t B Hn Hkids Hnode Hty). eexists tk3, _, (length w). split; [|by split].
  rewrite E1. unfold proc_unary_expr. rewrite (bind_ok _ _ _ _ _ E2). cbn [tok_type Nat.sub].
  destruct op; cbn in Hop; try done; injection Hop as <-; by rewrite (bind_ok _ _ _ _ _ E3).
Qed.

Lemma cast_pos fuel ks t follow : parses (proc_cast_expr fuel) ks t follow -> parses (proc_cast_expr (S fuel)) (KOp T_add :: ks) t follow.
Proof.
  intros H tk u k y ts Hp Hy Hu Hk. cbn [app] in Hp.
  destruct (cast_run fuel tk (table u k) _ _ Hp) as (tk1 & E1 & Hp1); [done|].
  destruct (next_run s tk1 (table u k) _ _ Hp1) as (tk2 & E2 & Ht2 & Hs2).
  destruct (H tk2 u k y ts (pending_stream _ _ _ Ht2 Hs2) Hy Hu Hk) as (tk3 & w & i & E3 & HR). exists tk3, w, i. split; [|done].
  rewrite E1. unfold proc_unary_expr. by rewrite (bind_ok _ _ _ _ _ E2).
Qed.

(** A negation is a subtraction from a zero that is allocated late. *)
Lemma cast_neg fuel ks e follow : parses (proc_cast_expr fuel) ks e follow ->
  parses (proc_cast_expr (S fuel)) (KOp T_sub :: ks) (TBin BSub (TLong 0) e) follow.
Proof.
  intros H tk u k y ts Hp Hy Hu Hk. cbn [app] in Hp.
  assert (Es : tsize (TBin BSub (TLong 0) e) = S (S (tsize e))) by (unfold tsize; cbn; lia). rewrite Es in Hk |- *.
  destruct (cast_run fuel tk (table u k) _ _ Hp) as (tk1 & E1 & Hp1); [done|].
  destruct (next_run s tk1 (table u k) _ _ Hp1) as (tk2 & E2 & Ht2 & Hs2).
  destruct (H tk2 u k y ts (pending_stream _ _ _ Ht2 Hs2) Hy Hu ltac:(lia)) as (tk3 & w & i & E3 & Hp3 & B).
  replace (k - tsize e)%nat with (S (S (k - S (S (tsize e))))) in E3 by lia.
  pose proof (node_new_run s tk3 w (S (k - S (S (tsize e)))) FINSH_NODE_VALUE_LONG (with_value (u32 0)) (proj1 B)) as E4.
  set (z := with_value (u32 0) (with_type FINSH_NODE_VALUE_LONG empty_node)) in *.
  assert (Bz : builds w (w ++ [z]) (length w) (TLong 0)) by (apply builds_leaf; [apply B|done..]).
  assert (Hz : (w ++ [z]) !! length w = Some z) by by apply list_lookup_middle.
  pose proof (make_sys_run s tk3 (w ++ [z]) (k - S (S (tsize e))) FINSH_NODE_SYS_SUB (length w) z (Some i) (proj1 Bz) Hz) as E5.
  assert (B5 := builds_swapped u w (w ++ [z]) i (length w) z (TLong 0) e FINSH_NODE_SYS_SUB (TBin BSub (TLong 0) e) B Bz Hz eq_refl eq_refl ltac:(done)).
  eexists tk3, _, (length (w ++ [z])). split; [|by split]. rewrite E1. unfold proc_unary_expr. rewrite (bind_ok _ _ _ _ _ E2). cbn [tok_type].
  rewrite (bind_ok _ _ _ _ _ E3). unfold finsh_node_new_long. by rewrite (bind_ok _ _ _ _ _ E4).
Qed.

(** ** Assignments *)

Lemma assign_none fuel ks t : parses (bin_level fuel 6 (proc_cast_expr fuel)) ks t (stops 6) -> parses (proc_assign_expr (S fuel)) ks t ends.
Proof.
  intros H tk u k y l Hp [Hy Hn] Hu Hk. destruct (H tk u k y l Hp Hy Hu Hk) as (tk1 & w & i & E1 & Hp1 & B).
  destruct (next_run s tk1 (table w (k - tsize t)) _ _ Hp1) as (tk2 & E2 & Ht2 & Hs2).
  destruct (replay_run s tk2 (table w (k - tsize t)) _ _ Ht2 Hs2) as [E3 Hp3]. exists (unread tk2), w, i. split; [|done].
  cbn [proc_assign_expr]. rewrite or_level, (bind_ok _ _ _ _ _ E1), (bind_ok _ _ _ _ _ E2), decide_False by done. by rewrite (bind_ok _ _ _ _ _ E3).
Qed.

Lemma assign_some fuel kl kr l r t : parses (bin_level fuel 6 (proc_cast_expr fuel)) kl l (stops 6) -> parses (proc_assign_expr fuel) kr r ends ->
  kids_of t = forest_of l (forest_of r FNil) -> node_of t = plain_node FINSH_NODE_SYS_ASSIGN ->
  parses (proc_assign_expr (S fuel)) (kl ++ KOp T_assign :: kr) t ends.
Proof.
  intros Hl Hr Hkids Hnode tk u k y ts Hp Hy Hu Hk. rewrite <- app_assoc in Hp. cbn [app] in Hp.
  assert (Es : tsize t = S (tsize l + tsize r)) by (unfold tsize; rewrite Hkids; cbn; lia). rewrite Es in Hk |- *.
  destruct (Hl tk u k _ _ Hp) as (tk1 & w1 & i & E1 & Hp1 & B1); [|done|lia|].
  { split; [done|]. intros j _. by destruct j as [|[|[|[|[|j]]]]]. }
  destruct (next_run s tk1 (table w1 (k - tsize l)) _ _ Hp1) as (tk2 & E2 & Ht2 & Hs2).
  destruct (Hr tk2 w1 (k - tsize l)%nat y ts (pending_stream _ _ _ Ht2 Hs2) Hy (proj1 B1) ltac:(lia)) as (tk3 & w3 & j & E3 & Hp3 & B3).
  destruct (builds_root _ _ _ _ B1) as (n & Hn & _).
  assert (Hn3 : w3 !! i = Some n) by (destruct B3 as (_ & _ & -> & _); [done|by eapply lookup_lt_Some]).
  replace (k - tsize l - tsize r)%nat with (S (k - S (tsize l + tsize r))) in E3 by lia.
  pose proof (make_sys_run s tk3 w3 (k - S (tsize l + tsize r)) FINSH_NODE_SYS_ASSIGN i n (Some j) (proj1 B3) Hn3) as E4.
  assert (B4 := builds_binary u w1 w3 i j n l r FINSH_NODE_SYS_ASSIGN t B1 B3 Hn3 Hkids Hnode ltac:(done)).
  eexists tk3, _, (length w3). split; [|by split]. cbn [proc_assign_expr].
  rewrite or_level, (bind_ok _ _ _ _ _ E1), (bind_ok _ _ _ _ _ E2), decide_True by done. by rewrite (bind_ok _ _ _ _ _ E3).
Qed.

(** ** Expressions *)

(** The levels from [k0] on read the expression. *)
Definition whole (fuel : nat) (ks : list tok) (t : tree) (k0 : nat) : Prop :=
  (forall k, (k0 <= k <= 6)%nat -> parses (bin_level fuel k (proc_cast_expr fuel)) ks t (stops k)) /\
  (forall j, (k0 <= S j)%nat -> (j < 6)%nat -> spine fuel j (proc_cast_expr fuel) ks t (length ks)).

Lemma whole_low fuel ks t : parses (proc_cast_expr fuel) ks t (stops 0) -> whole fuel ks t 0.
Proof.
  intros H. assert (Hc : forall k, parses (bin_level fuel k (proc_cast_expr fuel)) ks t (stops k)) by (intros k; apply (climb fuel _ ks t 0 k H); lia).
  split; [auto|]. intros j _ _. by apply spine_base.
Qed.
Lemma whole_bin fuel ks t j0 : spine fuel j0 (proc_cast_expr fuel) ks t (length ks) -> whole fuel ks t (S j0).
Proof.
  intros H. assert (Hc : forall k, (S j0 <= k)%nat -> parses (bin_level fuel k (proc_cast_expr fuel)) ks t (stops k))
    by (intros k Hk; apply (climb fuel _ ks t (S j0) k); [by eapply spine_end|done]).
  split; [intros k Hk; apply Hc; lia|]. intros j Hj _. destruct (decide (j = j0)) as [->|]; [done|]. apply spine_base, Hc. lia.
Qed.

Definition parse_spec (e : expr) : Prop := forall t fuel, plain e = true -> elab s e = Some t -> (3 * length (toks e) <= fuel)%nat ->
  ((level e <= 6)%nat -> whole fuel (toks e) t (level e)) /\ parses (proc_assign_expr (S fuel)) (toks e) t ends.

(** The second half follows below assignments. *)
Lemma spec_whole fuel e t : (level e <= 6)%nat -> whole fuel (toks e) t (level e) ->
  ((level e <= 6)%nat -> whole fuel (toks e) t (level e)) /\ parses (proc_assign_expr (S fuel)) (toks e) t ends.
Proof. intros Hl Hw. split; [done|]. apply assign_none, Hw. lia. Qed.
Lemma spec_low fuel e t : level e = O -> parses (proc_cast_expr fuel) (toks e) t (stops 0) ->
  ((level e <= 6)%nat -> whole fuel (toks e) t (level e)) /\ parses (proc_assign_expr (S fuel)) (toks e) t ends.
Proof. intros Hl H. apply spec_whole; [lia|]. rewrite Hl. by apply whole_low. Qed.

(** An operand of a unary operator. *)
Lemma spec_operand e t fuel : parse_spec e -> plain e = true -> level e = O -> elab s e = Some t -> (3 * length (toks e) <= fuel)%nat ->
  parses (proc_cast_expr fuel) (toks e) t (stops 0).
Proof. intros H Hp Hl He Hf. destruct (H t fuel Hp He Hf) as [[Hw _] _]; [lia|]. apply (Hw O). lia. Qed.

Lemma name_cast fuel x p : resolve s x = Some (pl_id p, pl_kind p) -> parses (proc_cast_expr (S fuel)) [KId x] (TPlace p) (stops 0).
Proof. intros Hx. apply cast_postfix; [done|]. by apply postfix_run, primary_id. Qed.

Lemma arg_length e args : e ∈ args -> (length (toks e) <= length (arg_toks args))%nat.
Proof.
  destruct args as [|e0 args]; intros H; [by apply elem_of_nil in H|]. cbn. rewrite length_app.
  apply elem_of_cons in H as [->|H]; [lia|]. enough (length (toks e) <= length (more_toks args))%nat by lia.
  induction args as [|e1 args IH]; [by apply elem_of_nil in H|]. cbn. rewrite length_app. apply elem_of_cons in H as [->|H]; [lia|]. specialize (IH H). lia.
Qed.
Lemma args_length args : (length args <= S (length (arg_toks args)))%nat.
Proof.
  destruct args as [|e0 args]; cbn; [lia|]. rewrite length_app. induction args as [|e1 args IH]; cbn; [lia|]. rewrite length_app. lia.
Qed.

Lemma spec_call x args : Forall parse_spec args -> parse_spec (ECall x args).
Proof.
  intros IH t fuel Hpl He Hf. rewrite elab_call in He. destruct (func_of s x) as [f|] eqn:Ef; [|done]. apply func_of_ok in Ef as [Hx _].
  cbn [mbind option_bind] in He. destruct (elabs s args) as [tl|] eqn:El; [|done]. injection He as <-.
  rewrite toks_call in Hf. cbn [length] in Hf. rewrite length_app in Hf. cbn [length] in Hf.
  pose proof (args_length args). destruct fuel as [|[|fuel]]; [lia|lia|]. apply spec_low; [done|].
  assert (HA : Forall2 (fun e t => parses (proc_assign_expr (S fuel)) (toks e) t ends) args tl).
  { assert (Hlen : forall e, e ∈ args -> (3 * length (toks e) <= fuel)%nat) by (intros e He; pose proof (arg_length e args He); lia).
    clear Hf H. revert tl El. cbn [plain] in Hpl. induction IH as [|e l He _ IHl]; intros tl El; cbn [elabs] in El; [by injection El as <-|].
    cbn in Hpl. apply andb_true_iff in Hpl as [Hp1 Hp2].
    destruct (elab s e) as [t|] eqn:Et; [|done]. cbn in El. destruct (elabs s l) as [l'|] eqn:El'; [|done]. injection El as <-.
    constructor; [apply He; [done|done|apply Hlen; by left]|]. apply IHl; [done|intros e' He'; apply Hlen; by right|done]. }
  rewrite toks_call. apply cast_postfix; [done|]. rewrite <- toks_call. apply postfix_call; [done|done|lia].
Qed.

Lemma parse_expr e : parse_spec e.
Proof.
  induction e using expr_rect'; [..|by apply spec_call]; intros t0 fuel Hpl He Hf; cbn [plain] in Hpl; cbn [elab] in He; cbn [toks length] in Hf.
  - injection He as <-. destruct fuel; [lia|]. apply spec_low; [done|]. apply cast_postfix; [done|]. apply postfix_run, primary_num.
  - injection He as <-. destruct fuel; [lia|]. apply spec_low; [done|]. apply cast_postfix; [done|]. apply postfix_run, primary_char.
  - destruct (place_of s x) as [p|] eqn:Ep; [|done]. injection He as <-. destruct fuel; [lia|]. apply spec_low; [done|].
    apply name_cast. by apply place_of_ok in Ep as [_ Ep].
  - apply andb_true_iff in Hpl as [[[P1 P2]%andb_true_iff L1%Nat.leb_le]%andb_true_iff L2%Nat.leb_le].
    destruct (elab s e1) as [l|] eqn:El; [|done]. cbn in He. destruct (elab s e2) as [r|] eqn:Er; [|done]. injection He as <-.
    rewrite length_app in Hf. cbn in Hf. assert (Ho : (prec o < 6)%nat) by (destruct o; cbn; lia).
    destruct (IHe1 l fuel P1 El ltac:(lia)) as [[_ S1] _]; [lia|]. destruct (IHe2 r fuel P2 Er ltac:(lia)) as [[W2 _] _]; [lia|].
    apply spec_whole; [done|]. apply whole_bin. cbn [toks]. rewrite length_app. cbn [length]. rewrite Nat.add_succ_r.
    apply (spine_bin fuel _ o _ _ l r); [by apply S1|lia|apply W2; lia].
  - apply andb_true_iff in Hpl as [P L%Nat.eqb_eq]. destruct (elab s e) as [t|] eqn:Et; [|done]. injection He as <-.
    destruct fuel; [lia|]. apply spec_low; [done|]. apply cast_neg, (spec_operand e t); [done..|lia].
  - apply andb_true_iff in Hpl as [P L%Nat.eqb_eq]. destruct fuel; [lia|]. apply spec_low; [done|].
    apply cast_pos, (spec_operand e t0); [done..|lia].
  - apply andb_true_iff in Hpl as [P L%Nat.eqb_eq]. destruct (elab s e) as [t|] eqn:Et; [|done]. injection He as <-.
    destruct fuel; [lia|]. apply spec_low; [done|]. eapply cast_prefix; [done|apply (spec_operand e t); [done..|lia]|done|done].
  - apply andb_true_iff in Hpl as [P L%Nat.eqb_eq]. destruct (elab s e) as [t|] eqn:Et; [|done]. injection He as <-.
    destruct fuel; [lia|]. apply spec_low; [done|]. eapply cast_prefix; [done|apply (spec_operand e t); [done..|lia]|done|done].
  - destruct (place_of s x) as [p|] eqn:Ep; [|done]. injection He as <-. apply place_of_ok in Ep as [_ Ep].
    destruct fuel as [|[|fuel]]; [lia|lia|]. apply spec_low; [done|]. eapply cast_prefix; [done|by apply name_cast|done|done].
  - destruct (var_of s x) as [p|] eqn:Ep; [|done]. injection He as <-. apply var_of_ok in Ep as [[_ Ep]%place_of_ok _].
    destruct fuel as [|[|fuel]]; [lia|lia|]. apply spec_low; [done|]. destruct b; (eapply cast_prefix; [done|by apply name_cast|done|done]).
  - destruct (var_of s x) as [p|] eqn:Ep; [|done]. injection He as <-. apply var_of_ok in Ep as [[_ Ep]%place_of_ok _].
    destruct fuel as [|[|fuel]]; [lia|lia|]. apply spec_low; [done|]. apply cast_postfix; [done|]. by apply postfix_step.
  - destruct (place_of s x) as [p|] eqn:Ep; [|done]. cbn in He. destruct (elab s e) as [t|] eqn:Et; [|done]. injection He as <-.
    apply place_of_ok in Ep as [_ Ep]. destruct fuel as [|fuel]; [lia|]. split; [cbn; lia|].
    apply (assign_some (S fuel) [KId x] _ (TPlace p) t); [|apply IHe; [done|done|lia]|done|done].
    apply whole_low; [by apply name_cast|lia].
  - apply andb_true_iff in Hpl as [[P1 L1%Nat.eqb_eq]%andb_true_iff P2]. destruct (elab s e1) as [p|] eqn:Ep; [|done]. cbn in He.
    destruct (ttype p); [|done]. cbn in He. destruct (elab s e2) as [t|] eqn:Et; [|done]. injection He as <-.
    rewrite length_app in Hf. cbn in Hf. destruct fuel as [|fuel]; [lia|]. split; [cbn; lia|].
    apply (assign_some (S fuel) (KOp T_mul :: toks e1) _ (TDeref p) t); [|apply IHe2; [done|done|lia]|done|done].
    apply whole_low; [|lia]. eapply cast_prefix; [done|apply (spec_operand e1 p); [done..|lia]|done|done].
Qed.

End Parse.
