(* ===== verification/FinshLex.v ===== *)
(** * The tokenizer reads the text of tokens back

    The text of a token, the character that may stand behind it, and that the
    tokenizer finds the token in a line that has its text behind some blanks.
    Numbers are printed in decimal. *)

From S2P Require Import Prelude FinshVm FinshData FinshHeap FinshNode FinshToken FinshExec FinshExpr.

(** ** Text *)

Fixpoint decimal (fuel : nat) (n : Z) : list Z :=
  match fuel with
  | O => [48 + n mod 10]
  | S fuel => if n <? 10 then [48 + n] else decimal fuel (n / 10) ++ [48 + n mod 10]
  end.
Definition num_text (n : Z) : list Z := decimal (Z.to_nat (Z.log2 n)) n.

Definition op_text (k : finsh_token_type) : list Z :=
  match k with
  | T_left_paren => [40] | T_right_paren => [41] | T_comma => [44] | T_semicolon => [59]
  | T_mul => [42] | T_add => [43] | T_inc => [43; 43] | T_sub => [45] | T_dec => [45; 45] | T_div => [47] | T_mod => [37]
  | T_assign => [61] | T_and => [38] | T_or => [124] | T_xor => [94] | T_bitwise => [126] | T_shl => [60; 60] | T_shr => [62; 62]
  | _ => []
  end.
Definition tok_text (x : tok) : list Z :=
  match x with
  | KNum n => num_text n
  | KChar c => [39; c; 39]
  | KId x => x
  | KOp k => op_text k
  end.

Definition name_ok (x : list Z) : bool :=
  match x with
  | [] => false
  | c :: _ =>
      negb (is_digit c) && forallb (fun c => negb (is_separator c)) x && (length x <? FINSH_NAME_MAX)%nat &&
      match match_name x finsh_name_table with Some _ => false | None => true end
  end.
Definition tok_ok (x : tok) : bool :=
  match x with
  | KNum n => 0 <=? n
  | KChar c => (0 <? c) && (c <? 256) && negb (c =? 92) && negb (c =? chr_nl)
  | KId x => name_ok x
  | KOp k => match op_text k with [] => false | _ => true end
  end.

(** May the character [c] stand behind the token? *)
Definition sep_ok (x : tok) (c : Z) : bool :=
  match x with
  | KNum n =>
      if n =? 0 then negb ((c =? 120) || (c =? 88) || (c =? 98) || (c =? 66) || is_octal c)
      else negb (is_digit c || (c =? 108) || (c =? 76))
  | KChar _ => true
  | KId _ => is_separator c
  | KOp T_add => negb (c =? 43)
  | KOp T_sub => negb (c =? 45)
  | KOp T_div => negb (c =? 47)
  | KOp _ => true
  end.
(** What follows the token in the line; only a semicolon may be the last character. *)
Definition next_ok (x : tok) (l : list Z) : Prop :=
  match l with [] => x = KOp T_semicolon | c :: _ => sep_ok x c = true /\ c <> chr_nl end.

Definition is_blank (c : Z) : bool := (c =? chr_space) || (c =? chr_tab) || (c =? chr_cr).

(** ** Decimal numbers *)

Definition digits_value (v : Z) (l : list Z) : Z := foldl (fun v c => v * 10 + (c - 48)) v l.

Lemma digits_value_snoc v l c : digits_value v (l ++ [c]) = digits_value v l * 10 + (c - 48).
Proof. unfold digits_value. by rewrite foldl_app. Qed.

Lemma decimal_spec fuel n : 0 <= n -> Z.log2 n <= Z.of_nat fuel ->
  digits_value 0 (decimal fuel n) = n /\ Forall (fun c => is_digit c = true) (decimal fuel n) /\
  exists c l, decimal fuel n = c :: l /\ (0 < n -> c <> 48).
Proof.
  revert n. induction fuel as [|fuel IH]; intros n Hn Hf; cbn [decimal].
  - assert (n < 2) by (destruct (Z.lt_ge_cases n 2); [done|]; pose proof (Z.log2_le_mono 2 n ltac:(lia)) as Hl; cbn in Hl; lia).
    rewrite Z.mod_small by lia. cbn. unfold is_digit. split; [lia|]. split; [apply Forall_singleton; lia|]. eexists _, _. split; [done|]. lia.
  - destruct (Z.ltb_spec n 10).
    + cbn. unfold is_digit. split; [lia|]. split; [apply Forall_singleton; lia|]. eexists _, _. split; [done|]. lia.
    + assert (Hlog : Z.log2 (n / 10) <= Z.of_nat fuel).
      { assert (n / 10 <= n / 2) by (apply Z.div_le_compat_l; lia). pose proof (Z.log2_le_mono (n / 10) (n / 2) ltac:(lia)) as Hle.
        change (n / 2) with (n / 2 ^ 1) in Hle. rewrite <- (Z.shiftr_div_pow2 n 1), Z.log2_shiftr in Hle by lia. lia. }
      pose proof (Z.div_pos n 10 Hn ltac:(lia)) as Hd. destruct (IH (n / 10) Hd Hlog) as (E & Hall & c & l & Ec & Hc).
      pose proof (Z.mod_pos_bound n 10 ltac:(lia)). pose proof (Z.div_mod n 10 ltac:(lia)).
      split; [rewrite digits_value_snoc, E; lia|]. split.
      * apply Forall_app. split; [done|]. apply Forall_singleton. unfold is_digit. lia.
      * rewrite Ec. exists c, (l ++ [48 + n mod 10]). split; [done|]. intros _. apply Hc. apply Z.div_str_pos. lia.
Qed.

Lemma num_text_spec n : 0 <= n ->
  digits_value 0 (num_text n) = n /\ Forall (fun c => is_digit c = true) (num_text n) /\ exists c l, num_text n = c :: l /\ (0 < n -> c <> 48).
Proof. intros H. apply decimal_spec; [done|]. pose proof (Z.log2_nonneg n). lia. Qed.

Lemma i32_shift a : exists q, i32 a = a + q * 2 ^ 32.
Proof. exists (- ((a + 2 ^ 31) / 2 ^ 32)). unfold i32. pose proof (Z.div_mod (a + 2 ^ 31) (2 ^ 32)). lia. Qed.
Lemma i32_step a b : i32 (i32 a * 10 + b) = i32 (a * 10 + b).
Proof.
  destruct (i32_shift a) as [q ->]. unfold i32. f_equal.
  replace ((a + q * 2 ^ 32) * 10 + b + 2 ^ 31) with (a * 10 + b + 2 ^ 31 + (q * 10) * 2 ^ 32) by lia. by apply Z.mod_add.
Qed.
Lemma u32_i32 a : u32 (i32 a) = u32 a.
Proof. destruct (i32_shift a) as [q ->]. by apply Z.mod_add. Qed.

(** ** Reading characters *)

Lemma drop_cons {A} (l : list A) p c r : drop p l = c :: r -> l !! p = Some c /\ drop (S p) l = r.
Proof.
  intros H. split.
  - rewrite <- (Nat.add_0_r p), <- lookup_drop, H. done.
  - rewrite <- (Nat.add_1_r p), <- drop_drop, H. done.
Qed.

Lemma inserts_front (x str : list Z) : (length x <= length str)%nat -> list_inserts 0 x str = x ++ drop (length x) str.
Proof.
  intros H. apply list_eq. intros i. destruct (decide (i < length x)%nat).
  - rewrite list_lookup_inserts, lookup_app_l by lia. by rewrite Nat.sub_0_r.
  - rewrite list_lookup_inserts_ge, lookup_app_r, lookup_drop by lia. f_equal. lia.
Qed.
Lemma c_string_app x l : Forall (fun c => c <> 0) x -> c_string (x ++ 0 :: l) = Some x.
Proof. induction 1 as [|c x Hc _ IH]; [done|]. cbn. destruct (Z.eqb_spec c 0); [done|]. by rewrite IH. Qed.

(** The buffer after a word has been copied to it. *)
Definition word_buf (x str : list Z) : list Z := <[length x := 0]> (list_inserts 0 x (<[0%nat := 0]> str)).

Lemma word_buf_length x str : length (word_buf x str) = length str.
Proof. unfold word_buf. by rewrite length_insert, length_inserts, length_insert. Qed.
Lemma word_buf_string x str : Forall (fun c => c <> 0) x -> (length x < length str)%nat -> c_string (word_buf x str) = Some x.
Proof.
  intros Hx Hl. unfold word_buf. set (str0 := <[0%nat:=0]> str). assert (Hl0 : length str0 = length str) by apply length_insert.
  rewrite inserts_front by lia. rewrite insert_app_r_alt, Nat.sub_diag by lia.
  destruct (drop (length x) str0) as [|z l] eqn:Ez; [apply (f_equal length) in Ez; rewrite length_drop in Ez; cbn in Ez; lia|].
  by apply c_string_app.
Qed.

(** What a token leaves in the value and in the buffer. *)
Definition tok_value (x : tok) (v : Z) : Z := match x with KNum n => u32 n | KChar c => slot_put WByte c v | _ => v end.
Definition tok_word (x : tok) : list Z := match x with KId x => x | _ => [] end.

Section Lex.
Variables (line : list Z) (nodes : list finsh_node) (s : finsh).

(** The tokenizer at position [p] of the line. *)
Definition tst (p : nat) (k : finsh_token_type) (v : Z) (str : list Z) : finsh_token := mk_token false false p k v str line.
Definition lst (p : nat) (k : finsh_token_type) (v : Z) (str : list Z) : finsh := parsed (tst p k v str) nodes s.

Lemma next_char_run p k v str c r : drop p line = c :: r -> c <> chr_nl ->
  token_next_char (lst p k v str) = Ok c (lst (S p) k v str).
Proof.
  intros H Hc. apply drop_cons in H as [H _]. unfold token_next_char. rewrite bind_gets. cbn. rewrite H.
  destruct (Z.eqb_spec c chr_nl); [done|]. reflexivity.
Qed.
Lemma prev_char_run p k v str : token_prev_char (lst (S p) k v str) = Ok tt (lst p k v str).
Proof. reflexivity. Qed.
Lemma line_fuel_run p k v str : line_fuel (lst p k v str) = Ok (S (S (length line))) (lst p k v str).
Proof. reflexivity. Qed.
Lemma is_eof_run p k v str : is_eof (lst p k v str) = Ok false (lst p k v str).
Proof. reflexivity. Qed.
Lemma set_string_run i c p k v str : (i < length str)%nat -> set_string i c (lst p k v str) = Ok tt (lst p k v (<[i := c]> str)).
Proof. intros H. unfold set_string. rewrite bind_gets. cbn. by rewrite bool_decide_true. Qed.

Lemma blank_not_nl c : is_blank c = true -> c <> chr_nl.
Proof. by intros H ->. Qed.

Lemma trim_loop_run bl : forall fuel p k v str c r, Forall (fun c => is_blank c = true) bl -> is_blank c = false -> c <> chr_nl ->
  drop p line = bl ++ c :: r -> (length bl < fuel)%nat ->
  trim_loop fuel (lst p k v str) = Ok tt (lst (S (p + length bl)) k v str).
Proof.
  induction bl as [|b bl IH]; intros fuel p k v str c r Hb Hc Hn Hd Hf; (destruct fuel as [|fuel]; [cbn in Hf; lia|]); cbn [trim_loop app] in *.
  - rewrite (bind_ok _ _ _ _ _ (next_char_run p k v str c r Hd Hn)). unfold is_blank in Hc. rewrite Hc. cbn. by rewrite Nat.add_0_r.
  - apply Forall_cons in Hb as [Hb1 Hb]. rewrite (bind_ok _ _ _ _ _ (next_char_run p k v str b _ Hd (blank_not_nl b Hb1))).
    unfold is_blank in Hb1. rewrite Hb1. apply drop_cons in Hd as [_ Hd]. cbn in Hf.
    rewrite (IH fuel (S p) k v str c r Hb Hc Hn Hd ltac:(lia)). by rewrite Nat.add_succ_comm.
Qed.

Lemma drop_length (p : nat) (l r : list Z) : drop p line = l ++ r -> (length l <= length line)%nat.
Proof. intros H. apply (f_equal length) in H. rewrite length_drop, length_app in H. lia. Qed.

Lemma trim_run bl p k v str c r : Forall (fun c => is_blank c = true) bl -> is_blank c = false -> c <> chr_nl ->
  drop p line = bl ++ c :: r -> token_trim_space (lst p k v str) = Ok tt (lst (p + length bl) k v str).
Proof.
  intros Hb Hc Hn Hd. unfold token_trim_space. rewrite (bind_ok _ _ _ _ _ (line_fuel_run p k v str)).
  pose proof (drop_length _ _ _ Hd). rewrite (bind_ok _ _ _ _ _ (trim_loop_run bl (S (S (length line))) p k v str c r Hb Hc Hn Hd ltac:(lia))).
  apply prev_char_run.
Qed.

(** ** Names *)

Lemma get_string_loop_run x : forall fuel i ch m q k v str c r, Forall (fun c => is_separator c = false /\ c <> chr_nl) x ->
  is_separator c = true -> c <> chr_nl -> x ++ [c] = ch :: m -> drop q line = m ++ r -> (length x < fuel)%nat ->
  (i + length x <= length str)%nat ->
  get_string_loop fuel i ch (lst q k v str) = Ok (i + length x)%nat (lst (q + length x) k v (list_inserts i x str)).
Proof.
  induction x as [|a x IH]; intros fuel i ch m q k v str c r Hx Hc Hn Em Hd Hf Hl; (destruct fuel as [|fuel]; [cbn in Hf; lia|]);
    cbn [get_string_loop]; rewrite (bind_ok _ _ _ _ _ (is_eof_run q k v str)).
  - injection Em as <- _. rewrite Hc. cbn. by rewrite !Nat.add_0_r.
  - cbn in Em. injection Em as <- Em. apply Forall_cons in Hx as [[Ha Hna] Hx]. rewrite Ha. cbn [negb andb]. cbn in Hl, Hf.
    rewrite (bind_ok _ _ _ _ _ (set_string_run i a q k v str ltac:(lia))).
    assert (exists c' m', m = c' :: m' /\ c' <> chr_nl) as (c' & m' & -> & Hn').
    { destruct x as [|b x]; cbn in Em; eexists _, _; (split; [by rewrite <- Em|]); [done|]. by apply Forall_cons in Hx as [[_ H] _]. }
    rewrite (bind_ok _ _ _ _ _ (next_char_run q k v _ c' _ Hd Hn')). apply drop_cons in Hd as [_ Hd].
    rewrite (IH fuel (S i) c' m' (S q) k v _ c r Hx Hc Hn Em Hd ltac:(lia)) by (rewrite length_insert; lia).
    cbn [length]. rewrite !Nat.add_succ_comm. do 2 f_equal. symmetry. apply list_insert_inserts_lt. lia.
Qed.

(** [token_get_string] on a word of [x], possibly empty. *)
Lemma get_string_run x ch m p k v str c r : Forall (fun c => is_separator c = false /\ c <> chr_nl /\ c <> 0) x ->
  is_separator c = true -> c <> chr_nl -> x ++ [c] = ch :: m -> is_digit ch = false -> drop p line = x ++ c :: r ->
  (length x < length str)%nat -> token_get_string (lst p k v str) = Ok tt (lst (p + length x) k v (word_buf x str)).
Proof.
  intros Hx Hc Hn Em Hg Hd Hl. unfold token_get_string.
  assert (Hd' : drop p line = ch :: m ++ r) by (rewrite Hd; change (c :: r) with ([c] ++ r); rewrite app_assoc, Em; done).
  assert (Hch : ch <> chr_nl) by (destruct Hx as [|b x [_ [Hb _]] _]; injection Em as <- _; done).
  rewrite (bind_ok _ _ _ _ _ (next_char_run p k v str ch _ Hd' Hch)), (bind_ok _ _ _ _ _ (is_eof_run (S p) k v str)).
  rewrite (bind_ok _ _ _ _ _ (set_string_run 0 0 (S p) k v str ltac:(lia))), Hg, (bind_ok _ _ _ _ _ (line_fuel_run (S p) k v _)).
  apply drop_cons in Hd' as [_ Hd']. pose proof (drop_length _ _ _ Hd). set (str0 := <[0%nat:=0]> str).
  assert (Hl0 : length str0 = length str) by apply length_insert.
  rewrite (bind_ok _ _ _ _ _ (get_string_loop_run x (S (S (length line))) 0 ch m (S p) k v str0 c r
    (Forall_impl _ _ _ Hx (fun c H => conj (proj1 H) (proj1 (proj2 H)))) Hc Hn Em Hd' ltac:(lia) ltac:(lia))).
  unfold set_eof, upd_token, put_token. rewrite bind_assoc, bind_gets, bind_modify. cbn [Nat.add].
  match goal with |- context [(token_prev_char;; _) ?z] => change z with (lst (S (p + length x)) k v (list_inserts 0 x str0)) end.
  rewrite (bind_ok _ _ _ _ _ (prev_char_run (p + length x) k v (list_inserts 0 x str0))).
  apply set_string_run. rewrite length_inserts. lia.
Qed.

(** A digit is left for later. *)
Lemma get_string_digit p k v str c r : drop p line = c :: r -> is_digit c = true -> (0 < length str)%nat ->
  token_get_string (lst p k v str) = Ok tt (lst p k v (word_buf [] str)).
Proof.
  intros Hd Hg Hl. unfold token_get_string. assert (Hn : c <> chr_nl) by (intros ->; done).
  rewrite (bind_ok _ _ _ _ _ (next_char_run p k v str c _ Hd Hn)), (bind_ok _ _ _ _ _ (is_eof_run (S p) k v str)).
  rewrite (bind_ok _ _ _ _ _ (set_string_run 0 0 (S p) k v str Hl)), Hg.
  rewrite (prev_char_run p k v). by destruct str.
Qed.

(** ** Operators *)

Lemma set_current_run p k v str k' : set_current k' (lst p k v str) = Ok tt (lst p k' v str).
Proof. reflexivity. Qed.

Lemma operator2_other c dbl single p k v str d r : drop p line = d :: r -> d <> c -> d <> chr_nl ->
  operator2 c dbl single (lst p k v str) = Ok tt (lst p single v str).
Proof.
  intros Hd Hc Hn. unfold operator2. rewrite (bind_ok _ _ _ _ _ (next_char_run p k v str d r Hd Hn)).
  destruct (Z.eqb_spec d c); [done|]. rewrite (bind_ok _ _ _ _ _ (prev_char_run p k v str)). apply set_current_run.
Qed.
Lemma operator2_same c dbl single p k v str r : drop p line = c :: r -> c <> chr_nl ->
  operator2 c dbl single (lst p k v str) = Ok tt (lst (S p) dbl v str).
Proof.
  intros Hd Hn. unfold operator2. rewrite (bind_ok _ _ _ _ _ (next_char_run p k v str c r Hd Hn)). rewrite Z.eqb_refl. apply set_current_run.
Qed.

Lemma operator_run o p k v str l : drop p line = op_text o ++ l -> op_text o <> [] -> next_ok (KOp o) l ->
  token_operator (lst p k v str) = Ok tt (lst (p + length (op_text o)) o v str).
Proof.
  intros Hd Ho Hn. unfold token_operator. destruct o; try done; cbn [op_text app length] in *;
    (rewrite (bind_ok _ _ _ _ _ (next_char_run p k v str _ _ Hd ltac:(done))); apply drop_cons in Hd as [_ Hd]; rewrite ?Nat.add_1_r;
     try apply set_current_run); cbn [Z.eqb Pos.eqb];
    try (destruct l as [|d l]; [done|]; destruct Hn as [Hn1%negb_true_iff%Z.eqb_neq Hn2]; by eapply operator2_other);
    replace (p + 2)%nat with (S (S p)) by lia; by eapply operator2_same.
Qed.

Lemma char_run c p k v str l : drop p line = 39 :: c :: 39 :: l -> tok_ok (KChar c) = true ->
  token_operator (lst p k v str) = Ok tt (lst (p + 3) T_value_char (slot_put WByte c v) str).
Proof.
  intros Hd Hok. cbn in Hok. apply andb_true_iff in Hok as [[_ H2%negb_true_iff]%andb_true_iff H3%negb_true_iff].
  unfold token_operator. rewrite (bind_ok _ _ _ _ _ (next_char_run p k v str _ _ Hd ltac:(done))). apply drop_cons in Hd as [_ Hd].
  cbn [Z.eqb Pos.eqb]. unfold token_proc_char. rewrite bind_assoc.
  rewrite (bind_ok _ _ _ _ _ (next_char_run (S p) k v str _ _ Hd ltac:(by apply Z.eqb_neq))), H2. apply drop_cons in Hd as [_ Hd].
  rewrite bind_assoc, bind_mret, bind_assoc. rewrite (bind_ok _ _ _ _ _ (next_char_run (S (S p)) k v str _ _ Hd ltac:(done))).
  cbn [Z.eqb Pos.eqb negb when]. rewrite bind_assoc, !bind_mret. replace (p + 3)%nat with (S (S (S p))) by lia. reflexivity.
Qed.

Lemma put_wrap_byte c v : slot_put WByte c v mod 256 = c mod 256.
Proof. apply (put_wrap WByte c v). Qed.

(** ** Numbers *)

Lemma decimal_digits_run x : forall fuel a ch m q k v str c r, Forall (fun c => is_digit c = true) x -> is_digit c = false -> c <> chr_nl ->
  x ++ [c] = ch :: m -> drop q line = m ++ r -> (length x < fuel)%nat ->
  decimal_digits fuel (i32 a) ch (lst q k v str) = Ok (i32 (digits_value a x), c) (lst (q + length x) k v str).
Proof.
  induction x as [|b x IH]; intros fuel a ch m q k v str c r Hx Hc Hn Em Hd Hf; (destruct fuel as [|fuel]; [cbn in Hf; lia|]); cbn [decimal_digits].
  - injection Em as <- _. rewrite Hc. cbn. by rewrite Nat.add_0_r.
  - cbn in Em. injection Em as <- Em. apply Forall_cons in Hx as [Hb Hx]. rewrite Hb. cbn in Hf.
    assert (exists c' m', m = c' :: m' /\ c' <> chr_nl) as (c' & m' & -> & Hn').
    { destruct x as [|b' x]; cbn in Em; eexists _, _; (split; [by rewrite <- Em|]); [done|]. apply Forall_cons in Hx as [H _]. by intros ->. }
    rewrite (bind_ok _ _ _ _ _ (next_char_run q k v str c' _ Hd Hn')). apply drop_cons in Hd as [_ Hd].
    rewrite i32_step, (IH fuel _ c' m' (S q) k v str c r Hx Hc Hn Em Hd ltac:(lia)). cbn [length]. by rewrite Nat.add_succ_comm.
Qed.

Lemma digit_operator p k v str c r : drop p line = c :: r -> is_digit c = true ->
  token_operator (lst p k v str) = token_proc_number (lst p k v str).
Proof.
  intros Hd Hc. unfold token_operator. assert (Hn : c <> chr_nl) by (intros ->; done).
  rewrite (bind_ok _ _ _ _ _ (next_char_run p k v str c r Hd Hn)). assert (Hr : 48 <= c <= 57) by (unfold is_digit in Hc; lia).
  repeat match goal with |- context [c =? ?x] => replace (c =? x) with false by lia end. rewrite Hc.
  by rewrite (bind_ok _ _ _ _ _ (prev_char_run p k v str)).
Qed.

Lemma zero_run p k v str d l : drop p line = 48 :: d :: l -> sep_ok (KNum 0) d = true -> d <> chr_nl ->
  token_proc_number (lst p k v str) = Ok tt (lst (p + 1) T_value_int 0 str).
Proof.
  intros Hd Hs Hn. cbn in Hs. apply negb_true_iff in Hs. repeat (apply orb_false_iff in Hs as [Hs ?]).
  unfold token_proc_number. rewrite (bind_ok _ _ _ _ _ (line_fuel_run p k v str)).
  rewrite (bind_ok _ _ _ _ _ (next_char_run p k v str _ _ Hd ltac:(done))). apply drop_cons in Hd as [_ Hd]. cbn [Z.eqb Pos.eqb].
  rewrite (bind_ok _ _ _ _ _ (next_char_run (S p) k v str _ _ Hd Hn)).
  replace (d =? 120) with false by done. replace (d =? 88) with false by done. replace (d =? 98) with false by done.
  replace (d =? 66) with false by done. replace (is_octal d) with false by done. cbn [orb].
  rewrite (bind_ok _ _ _ _ _ (prev_char_run (S p) k v str)). rewrite Nat.add_1_r. reflexivity.
Qed.

Lemma number_run n p k v str d l : 0 <= n -> drop p line = num_text n ++ d :: l -> sep_ok (KNum n) d = true -> d <> chr_nl ->
  token_operator (lst p k v str) = Ok tt (lst (p + length (num_text n)) T_value_int (u32 n) str).
Proof.
  intros Hn Hd Hs Hnl. destruct (num_text_spec n Hn) as (Ev & Hall & c & x & Ec & Hc0).
  assert (Hd' := Hd). rewrite Ec in Hd'. cbn in Hd'.
  assert (Hdig : is_digit c = true) by (rewrite Ec in Hall; by apply Forall_cons in Hall as [H _]).
  rewrite (digit_operator p k v str c _ Hd' Hdig). destruct (Z.eq_dec n 0) as [->|Hne]; [by apply (zero_run p k v str d l)|].
  cbn in Hs. destruct (Z.eqb_spec n 0); [done|]. apply negb_true_iff in Hs. apply orb_false_iff in Hs as [[Hs1 Hs2]%orb_false_iff Hs3].
  unfold token_proc_number. rewrite (bind_ok _ _ _ _ _ (line_fuel_run p k v str)).
  assert (Hcn : c <> chr_nl) by (intros ->; done).
  rewrite (bind_ok _ _ _ _ _ (next_char_run p k v str c _ Hd' Hcn)). specialize (Hc0 ltac:(lia)). destruct (Z.eqb_spec c 48); [done|].
  assert (Em : num_text n ++ [d] = c :: (x ++ [d])) by by rewrite Ec.
  apply drop_cons in Hd' as [_ Hd']. rewrite (cons_middle d x l), app_assoc in Hd'. pose proof (drop_length _ _ _ Hd).
  rewrite (bind_ok _ _ _ _ _ (decimal_digits_run (num_text n) (S (S (length line))) 0 c _ (S p) k v str d l Hall Hs1 Hnl Em Hd' ltac:(lia))).
  rewrite Ev. cbn [fst snd]. rewrite u32_i32. unfold number_suffix. rewrite Hs2, Hs3. reflexivity.
Qed.

(** ** Tokens *)

Lemma name_chars x : name_ok x = true -> Forall (fun c => is_separator c = false /\ c <> chr_nl /\ c <> 0) x /\ (length x < FINSH_NAME_MAX)%nat.
Proof.
  destruct x as [|a x]; [done|]. cbn [name_ok]. intros [[[_ Hall]%andb_true_iff Hl%Nat.ltb_lt]%andb_true_iff _]%andb_true_iff. split; [|done].
  apply Is_true_true_2, forallb_True in Hall. eapply Forall_impl; [exact Hall|]. intros z Hz%Is_true_true_1%negb_true_iff.
  split; [done|]. split; intros ->; done.
Qed.

(** The end of [token_run] behind a word. *)
Lemma run_string x p k v str : Forall (fun c => c <> 0) x -> (length x < length str)%nat ->
  (str ← token_string;
   match str with
   | [] => token_operator
   | _ :: _ => found ← token_match_name str; when (negb found) (set_current T_identifier)
   end) (lst p k v (word_buf x str)) =
  match x with
  | [] => token_operator
  | _ :: _ => found ← token_match_name x; when (negb found) (set_current T_identifier)
  end (lst p k v (word_buf x str)).
Proof.
  intros Hx Hl. unfold token_string. rewrite bind_assoc, bind_gets. cbn [f_token lst parsed tst tk_string].
  rewrite word_buf_string by done. by destruct x.
Qed.

(** A name. *)
Lemma run_name bl x p k v str l : Forall (fun c => is_blank c = true) bl -> drop p line = bl ++ x ++ l -> name_ok x = true -> next_ok (KId x) l ->
  (length x < length str)%nat -> token_run (lst p k v str) = Ok tt (lst (p + length bl + length x) T_identifier v (word_buf x str)).
Proof.
  intros Hb Hd Hx Hl Hs. destruct l as [|c l]; [done|]. destruct Hl as [Hc Hn]. cbn [sep_ok] in Hc.
  destruct (name_chars x Hx) as [Hsep _]. destruct x as [|a x]; [done|]. cbn [name_ok] in Hx.
  apply andb_true_iff in Hx as [[[Ha%negb_true_iff _]%andb_true_iff _]%andb_true_iff Hk].
  assert (Hab : is_blank a = false /\ a <> chr_nl).
  { apply Forall_cons in Hsep as [(H1 & H2 & _) _]. split; [|done]. unfold is_blank, chr_space, chr_tab, chr_cr.
    destruct (Z.eqb_spec a 32) as [->|]; [done|]. destruct (Z.eqb_spec a 9) as [->|]; [done|]. by destruct (Z.eqb_spec a 13) as [->|]. }
  unfold token_run. rewrite (bind_ok _ _ _ _ _ (trim_run bl p k v str a _ Hb (proj1 Hab) (proj2 Hab) Hd)).
  assert (Hd2 : drop (p + length bl) line = (a :: x) ++ c :: l) by (rewrite <- drop_drop, Hd; apply drop_app_length).
  rewrite (bind_ok _ _ _ _ _ (get_string_run (a :: x) a (x ++ [c]) (p + length bl) k v str c l Hsep Hc Hn eq_refl Ha Hd2 Hs)).
  rewrite (bind_ok _ _ _ _ _ (is_eof_run _ k v _)), run_string; [|eapply Forall_impl; [exact Hsep|]; by intros ? (_ & _ & H)|done].
  unfold token_match_name. destruct (match_name (a :: x) finsh_name_table); [done|]. by rewrite bind_mret.
Qed.

(** Other tokens start with a character that is no letter. *)
Lemma run_other bl c p k v str r : Forall (fun c => is_blank c = true) bl -> drop p line = bl ++ c :: r ->
  is_blank c = false -> c <> chr_nl -> is_separator c = true \/ is_digit c = true -> (0 < length str)%nat ->
  token_run (lst p k v str) = token_operator (lst (p + length bl) k v (word_buf [] str)).
Proof.
  intros Hb Hd Hcb Hn Hc Hs. unfold token_run. rewrite (bind_ok _ _ _ _ _ (trim_run bl p k v str c r Hb Hcb Hn Hd)).
  assert (Hd2 : drop (p + length bl) line = c :: r) by (rewrite <- drop_drop, Hd; apply drop_app_length).
  assert (E : token_get_string (lst (p + length bl) k v str) = Ok tt (lst (p + length bl) k v (word_buf [] str))).
  { destruct (is_digit c) eqn:Eg; [by eapply get_string_digit|]. destruct Hc as [Hc|]; [|done].
    pose proof (get_string_run [] c [] (p + length bl) k v str c r (Forall_nil_2 _) Hc Hn eq_refl Eg Hd2 Hs) as E.
    cbn in E. by rewrite Nat.add_0_r in E. }
  by rewrite (bind_ok _ _ _ _ _ E), (bind_ok _ _ _ _ _ (is_eof_run _ k v _)), run_string.
Qed.

(** Any token, behind blanks. *)
Lemma run_token bl x p k v str l : Forall (fun c => is_blank c = true) bl -> drop p line = bl ++ tok_text x ++ l -> tok_ok x = true -> next_ok x l ->
  length str = FINSH_STRING_MAX ->
  token_run (lst p k v str) = Ok tt (lst (p + length bl + length (tok_text x)) (tok_type x) (tok_value x v) (word_buf (tok_word x) str)).
Proof.
  intros Hb Hd Hx Hl Hs. assert (Hs0 : (0 < length str)%nat) by (rewrite Hs; unfold FINSH_STRING_MAX; lia).
  assert (Hd2 : drop (p + length bl) line = tok_text x ++ l) by (rewrite <- drop_drop, Hd; apply drop_app_length).
  destruct x as [n|c|x|o]; cbn [tok_text tok_type tok_value tok_word] in *.
  - cbn in Hx. destruct l as [|d l]; [done|]. destruct Hl as [Hl1 Hl2]. destruct (num_text_spec n ltac:(lia)) as (_ & Hall & c & y & Ec & _).
    rewrite Ec in Hall. apply Forall_cons in Hall as [Hc _]. assert (Hd3 := Hd). rewrite Ec in Hd3. cbn [app] in Hd3.
    rewrite (run_other bl c p k v str (y ++ d :: l) Hb Hd3);
      [|unfold is_digit in Hc; unfold is_blank, chr_space, chr_tab, chr_cr; lia|by intros ->|by right|done].
    apply (number_run n (p + length bl) k v _ d l ltac:(lia) Hd2 Hl1 Hl2).
  - rewrite (run_other bl 39 p k v str (c :: 39 :: l) Hb Hd); [|done|done|by left|done]. by apply (char_run c (p + length bl) k v _ l).
  - apply (run_name bl x p k v str l); [done..|]. apply name_chars in Hx as [_ Hx]. rewrite Hs. unfold FINSH_NAME_MAX, FINSH_STRING_MAX in *. lia.
  - cbn in Hx. assert (Ho : op_text o <> []) by (intros E; by rewrite E in Hx).
    assert (exists c y, op_text o = c :: y /\ is_blank c = false /\ c <> chr_nl /\ is_separator c = true) as (c & y & Ec & H1 & H2 & H3)
      by (destruct o; try done; eexists _, _; (split; [reflexivity|done])).
    assert (Hd3 := Hd). rewrite Ec in Hd3. rewrite (run_other bl c p k v str (y ++ l) Hb Hd3); [|done|done|by left|done].
    by apply (operator_run o (p + length bl) k v _ l).
Qed.

Lemma token_at x p v str : tok_ok x = true -> length str = FINSH_STRING_MAX -> tok_at x (tst p (tok_type x) (tok_value x v) (word_buf (tok_word x) str)).
Proof.
  intros Hx Hs. split; [done|]. split; [done|]. destruct x as [n|c|x|o]; cbn; [done|apply put_wrap_byte| |done].
  destruct (name_chars x Hx) as [Hc Hl]. split; [|done]. apply word_buf_string; [eapply Forall_impl; [exact Hc|]; by intros ? (_ & _ & H)|].
  rewrite Hs. unfold FINSH_NAME_MAX, FINSH_STRING_MAX in *. lia.
Qed.

(** The end of the line. *)
Definition eof_token (v : Z) (str : list Z) : finsh_token := mk_token true false 0 T_eof v str line.

Lemma trim_loop_eof bl : forall fuel p k v str, Forall (fun c => is_blank c = true) bl -> drop p line = bl -> (length bl < fuel)%nat ->
  trim_loop fuel (lst p k v str) = Ok tt (parsed (mk_token true false 0 k v str line) nodes s).
Proof.
  induction bl as [|b bl IH]; intros fuel p k v str Hb Hd Hf; (destruct fuel as [|fuel]; [cbn in Hf; lia|]); cbn [trim_loop].
  - assert (Hp : line !! p = None) by (rewrite <- (Nat.add_0_r p), <- lookup_drop, Hd; done).
    assert (E : token_next_char (lst p k v str) = Ok 0 (parsed (mk_token true false 0 k v str line) nodes s)).
    { unfold token_next_char. rewrite bind_gets. cbn. by rewrite Hp. }
    by rewrite (bind_ok _ _ _ _ _ E).
  - apply Forall_cons in Hb as [Hb1 Hb]. rewrite (bind_ok _ _ _ _ _ (next_char_run p k v str b bl Hd (blank_not_nl b Hb1))).
    unfold is_blank in Hb1. rewrite Hb1. apply drop_cons in Hd as [_ Hd]. cbn in Hf. apply IH; [done|done|lia].
Qed.
Lemma run_eof bl p k v str : Forall (fun c => is_blank c = true) bl -> drop p line = bl ->
  token_run (lst p k v str) = Ok tt (parsed (eof_token v str) nodes s).
Proof.
  intros Hb Hd. unfold token_run, token_trim_space. rewrite bind_assoc, (bind_ok _ _ _ _ _ (line_fuel_run p k v str)), bind_assoc.
  assert (Hl : (length bl <= length line)%nat) by (rewrite <- Hd, length_drop; lia).
  rewrite (bind_ok _ _ _ _ _ (trim_loop_eof bl (S (S (length line))) p k v str Hb Hd ltac:(lia))). reflexivity.
Qed.

End Lex.

(** ** Lines *)

(** A line: tokens, each behind blanks, and blanks at the end. *)
Fixpoint render (l : list (list Z * tok)) (tb : list Z) : list Z :=
  match l with [] => tb | (bl, x) :: l => bl ++ tok_text x ++ render l tb end.
Definition next_okb (x : tok) (l : list Z) : bool :=
  match l with
  | [] => match x with KOp T_semicolon => true | _ => false end
  | c :: _ => sep_ok x c && negb (c =? chr_nl)
  end.
Fixpoint laid (l : list (list Z * tok)) (tb : list Z) : bool :=
  match l with
  | [] => forallb is_blank tb
  | (bl, x) :: l => forallb is_blank bl && tok_ok x && next_okb x (render l tb) && laid l tb
  end.

Lemma next_okb_true x l : next_okb x l = true -> next_ok x l.
Proof.
  destruct l as [|c l]; cbn; [by destruct x as [| | |[]]|]. intros [H1 H2%negb_true_iff%Z.eqb_neq]%andb_true_iff. done.
Qed.
Lemma forallb_Forall (f : Z -> bool) l : forallb f l = true -> Forall (fun c => f c = true) l.
Proof. induction l as [|c l IH]; cbn; [done|]. intros [H1 H2]%andb_true_iff. constructor; [done|by apply IH]. Qed.

(** The tokenizer delivers the tokens of a line, and then the end. *)
Lemma lex_line line l tb : forall p k v str, laid l tb = true -> drop p line = render l tb -> length str = FINSH_STRING_MAX ->
  stream (tst line p k v str) ((snd <$> l) ++ [KOp T_eof]).
Proof.
  induction l as [|[bl x] l IH]; intros p k v str Hl Hd Hs; cbn [laid render fmap list_fmap app snd stream] in *.
  - exists (eof_token line v str). split; [intros nodes s; apply (run_eof line nodes s tb p k v str); [by apply forallb_Forall|done]|]. done.
  - apply andb_true_iff in Hl as [[[Hb Hx]%andb_true_iff Hn]%andb_true_iff Hl].
    apply forallb_Forall in Hb. apply next_okb_true in Hn.
    exists (tst line (p + length bl + length (tok_text x)) (tok_type x) (tok_value x v) (word_buf (tok_word x) str)).
    split; [intros nodes s; by apply (run_token line nodes s bl x p k v str (render l tb))|]. split; [by apply token_at|].
    apply IH; [done| |by rewrite word_buf_length]. rewrite <- drop_drop, <- drop_drop, Hd, drop_app_length. apply drop_app_length.
Qed.
