(* ===== verification/FinshThm.v ===== *)
(** * A line at the shell

    A line of expressions, each before a semicolon: the parser builds the chain
    of their syntax trees, the compiler writes their code, the machine runs it,
    and the shell is left ready for the next line. *)

From S2P Require Import Prelude KString FinshVm FinshData FinshHeap FinshNode FinshToken FinshParser FinshCompiler.
From S2P Require Import FinshShell FinshTree FinshExec FinshRun FinshComp FinshExpr FinshParse FinshLex.

Section Line.
Context {FE : FinshEnv}.

(** ** Statements *)

Lemma statement_run s e t fuel : plain e = true -> elab s e = Some t -> (3 * length (toks e) < fuel)%nat ->
  reads s (proc_expr_statement fuel) (toks e ++ [KOp T_semicolon]) t.
Proof.
  intros Hp He Hf tk u k l Ht Hu Hk. rewrite <- app_assoc in Ht. cbn [app] in Ht. destruct fuel as [|fuel]; [lia|].
  destruct (parse_expr s e t fuel Hp He ltac:(lia)) as [_ HP]. destruct (toks_head e) as (x & l' & Ex & Hx).
  assert (Ht' := Ht). rewrite Ex in Ht'. cbn [app] in Ht'.
  destruct (next_run s tk (table u k) _ _ Ht') as (tk1 & E1 & Ht1 & Hs1).
  destruct (replay_run s tk1 (table u k) _ _ Ht1 Hs1) as [E2 Hp2]. change (x :: l' ++ ?r) with ((x :: l') ++ r) in Hp2. rewrite <- Ex in Hp2.
  destruct (HP _ u k (KOp T_semicolon) l Hp2 ltac:(apply ends_closers; auto) Hu Hk) as (tk3 & w & i & E3 & Hp3 & B).
  destruct (match_run s tk3 (table w (k - tsize t)) _ _ Hp3) as (tk4 & E4 & Ht4 & Hs4).
  exists tk4, w, i. split; [|split; [by eapply pending_stream|done]]. unfold proc_expr_statement, proc_expr.
  rewrite (bind_ok _ _ _ _ _ E1), decide_False by (intros E; by rewrite E in Hx).
  by rewrite (bind_ok _ _ _ _ _ E2), (bind_ok _ _ _ _ _ E3), (bind_ok _ _ _ _ _ E4).
Qed.

Lemma starter_plain k : starter k = true -> is_base_type k || bool_decide (k = T_unsigned) = false /\ k <> T_eof /\ k <> T_bad.
Proof. by destruct k. Qed.

(** One turn of the loop, with a statement ahead. *)
Lemma parse_turn fuel node tk nodes s x l : pending tk (x :: l) -> starter (tok_type x) = true ->
  exists tk', pending tk' (x :: l) /\
    (token ← next_token; parse_loop (S fuel) node token) (parsed tk nodes s) =
    (r ← link_statement (proc_expr_statement fuel) node;
     when (negb r.2 && negb (bool_decide (tok_type x = T_identifier))) (next_token;; mret tt);;
     root ← gets f_root;
     match root with None => mret tt | Some _ => token ← next_token; parse_loop fuel r.1 token end) (parsed tk' nodes s).
Proof.
  intros Hp Hx. destruct (next_run s tk nodes _ _ Hp) as (tk1 & E1 & Ht1 & Hs1).
  destruct (replay_run s tk1 nodes _ _ Ht1 Hs1) as [E2 Hp2]. exists (unread tk1). split; [done|].
  rewrite (bind_ok _ _ _ _ _ E1). destruct (starter_plain _ Hx) as (Hb & Ne & Nb). cbn [parse_loop]. rewrite Hb.
  destruct (tok_type x); try done; by rewrite (bind_ok _ _ _ _ _ E2).
Qed.

Lemma loop_end fuel node tk nodes s l : pending tk (KOp T_eof :: l) ->
  exists tk', (token ← next_token; parse_loop fuel node token) (parsed tk nodes s) = Ok tt (parsed tk' nodes s).
Proof.
  intros Hp. destruct (next_run s tk nodes _ _ Hp) as (tk1 & E1 & _). exists tk1. rewrite (bind_ok _ _ _ _ _ E1). by destruct fuel.
Qed.

(** The statements behind the first one. *)
Lemma parse_rest s r0 es : f_root s = Some r0 -> forall tl, forallb plain es = true -> elabs s es = Some tl ->
  forall fuel tk u k a n, pending tk (stmt_toks es ++ [KOp T_eof]) -> used_ok u -> u !! a = Some n -> n_sibling n = None ->
  (3 * length (stmt_toks es) < fuel)%nat -> (fsize (forests_of tl) <= k)%nat ->
  exists tk' w, (token ← next_token; parse_loop fuel (Some a) token) (parsed tk (table u k) s) =
      Ok tt (parsed tk' (table w (k - fsize (forests_of tl))) s) /\ chained u w a n tl.
Proof.
  intros Hroot. induction es as [|e es IH]; intros tl Hpl Hel fuel tk u k a n Hp Hu Ha Hn Hf Hk; cbn [elabs stmt_toks] in *.
  - injection Hel as <-. destruct (loop_end fuel (Some a) tk (table u k) s [] Hp) as [tk1 E]. exists tk1, u.
    cbn [forests_of foldr fsize]. rewrite Nat.sub_0_r. split; [done|by apply chained_nil].
  - cbn in Hpl. apply andb_true_iff in Hpl as [P1 P2].
    destruct (elab s e) as [t|] eqn:Et; [|done]. cbn in Hel. destruct (elabs s es) as [tl'|] eqn:El; [|done]. injection Hel as <-.
    rewrite fsize_cons in Hk |- *. rewrite length_app in Hf. cbn in Hf. destruct fuel as [|fuel]; [lia|].
    rewrite <- app_assoc in Hp. cbn [app] in Hp. destruct (toks_head e) as (x & l' & Ex & Hx). assert (Hp' := Hp). rewrite Ex in Hp'. cbn [app] in Hp'.
    destruct (parse_turn fuel (Some a) tk (table u k) s x _ Hp' Hx) as (tk1 & Hp1 & E1). change (x :: l' ++ ?r) with ((x :: l') ++ r) in Hp1.
    rewrite <- Ex in Hp1. change (KOp T_semicolon :: ?r) with ([KOp T_semicolon] ++ r) in Hp1. rewrite app_assoc in Hp1.
    destruct (statement_run s e t fuel P1 Et ltac:(lia) tk1 u k _ Hp1 Hu ltac:(lia)) as (tk2 & w1 & b & E2 & Hp2 & B).
    destruct (builds_root _ _ _ _ B) as (nb & Hb & Hnb).
    assert (Ha1 : w1 !! a = Some n) by (destruct B as (_ & _ & -> & _); [done|by eapply lookup_lt_Some]).
    assert (Hab : a <> b) by (destruct B as (_ & _ & _ & D & (i & _ & D1 & D2 & [= <-] & _ & _ & _ & _ & -> & _) & HD);
      intros ->; assert (length u <= b)%nat by (apply HD; set_solver); apply lookup_lt_Some in Ha; lia).
    pose proof (upd_table_run s tk2 w1 (k - tsize t) a n (with_sibling (Some b)) Ha1) as E3.
    set (w2 := <[a:=with_sibling (Some b) n]> w1) in *.
    destruct (IH tl' P2 eq_refl fuel tk2 w2 (k - tsize t)%nat b nb Hp2) as (tk4 & w & E4 & C);
      [apply used_insert; [apply B|exact (Forall_lookup_1 _ _ _ _ Hu Ha)]|unfold w2; by rewrite list_lookup_insert_ne|done|lia|lia|].
    exists tk4, w. split; [|by apply (chained_cons u w1 w a n b nb)]. rewrite E1. unfold link_statement.
    rewrite bind_assoc, bind_gets. cbn [f_root parsed]. rewrite Hroot, bind_assoc, (bind_ok _ _ _ _ _ E2), bind_assoc.
    cbn [set_sibling]. rewrite (bind_ok _ _ _ _ _ E3), bind_mret. cbn [snd fst negb andb when]. rewrite bind_mret, bind_gets. cbn [f_root parsed].
    rewrite Hroot, E4. by replace (k - (tsize t + fsize (forests_of tl')))%nat with (k - tsize t - fsize (forests_of tl'))%nat by lia.
Qed.

Definition with_root (r : option nat) (s : finsh) : finsh := {| s with f_root := r |}.

(** All statements. *)
Lemma parse_all s e es t tl : f_root s = None -> forallb plain (e :: es) = true -> elabs s (e :: es) = Some (t :: tl) ->
  forall fuel tk k, pending tk (stmt_toks (e :: es) ++ [KOp T_eof]) -> (3 * length (stmt_toks (e :: es)) < fuel)%nat ->
  (fsize (forests_of (t :: tl)) <= k)%nat ->
  exists tk' w i D, (token ← next_token; parse_loop fuel None token) (parsed tk (table [] k) s) =
      Ok tt (parsed tk' (table w (k - fsize (forests_of (t :: tl)))) (with_root (Some i) s)) /\
    length w = fsize (forests_of (t :: tl)) /\ rep w (Some i) (forests_of (t :: tl)) D.
Proof.
  intros Hroot Hpl Hel fuel tk k Hp Hf Hk. cbn [elabs stmt_toks] in *. cbn in Hpl. apply andb_true_iff in Hpl as [P1 P2].
  destruct (elab s e) as [t'|] eqn:Et; [|done]. cbn in Hel. destruct (elabs s es) as [tl'|] eqn:El; [|done]. injection Hel as -> ->.
  rewrite fsize_cons in Hk |- *. rewrite length_app in Hf. cbn in Hf. destruct fuel as [|fuel]; [lia|].
  rewrite <- app_assoc in Hp. cbn [app] in Hp. destruct (toks_head e) as (x & l' & Ex & Hx). assert (Hp' := Hp). rewrite Ex in Hp'. cbn [app] in Hp'.
  destruct (parse_turn fuel None tk (table [] k) s x _ Hp' Hx) as (tk1 & Hp1 & E1). change (x :: l' ++ ?r) with ((x :: l') ++ r) in Hp1.
  rewrite <- Ex in Hp1. change (KOp T_semicolon :: ?r) with ([KOp T_semicolon] ++ r) in Hp1. rewrite app_assoc in Hp1.
  destruct (statement_run s e t fuel P1 Et ltac:(lia) tk1 [] k _ Hp1 (Forall_nil_2 _) ltac:(lia)) as (tk2 & w1 & b & E2 & Hp2 & B).
  destruct (builds_root _ _ _ _ B) as (nb & Hb & Hnb).
  destruct (parse_rest (with_root (Some b) s) b es eq_refl tl P2 El fuel tk2 w1 (k - tsize t)%nat b nb Hp2 (proj1 B) Hb Hnb ltac:(lia) ltac:(lia))
    as (tk4 & w & E4 & C).
  destruct (chained_rep _ _ _ _ _ _ _ B Hb C) as (_ & Hl & _ & D & R & _).
  exists tk4, w, b, D. split; [|split; [exact Hl|exact R]]. rewrite E1. unfold link_statement.
  rewrite bind_assoc, bind_gets. cbn [f_root parsed]. rewrite Hroot, bind_assoc, (bind_ok _ _ _ _ _ E2), bind_assoc, bind_modify, bind_mret.
  cbn [snd fst negb andb when]. rewrite bind_mret, bind_gets. cbn [f_root parsed].
  match goal with |- context [(next_token ≫= _) ?z] => change z with (parsed tk2 (table w1 (k - tsize t)) (with_root (Some b) s)) end.
  rewrite E4. by replace (k - (tsize t + fsize (forests_of tl)))%nat with (k - tsize t - fsize (forests_of tl))%nat by lia.
Qed.

(** ** The parser on a line *)

Lemma tok_text_length x : tok_ok x = true -> (1 <= length (tok_text x))%nat.
Proof.
  destruct x as [n|c|x|o]; cbn; intros H; [|lia|destruct x; cbn in *; [done|lia]|destruct (op_text o); cbn in *; [done|lia]].
  destruct (num_text_spec n ltac:(lia)) as (_ & _ & c & l & -> & _). cbn. lia.
Qed.
Lemma render_length l tb : laid l tb = true -> (length l <= length (render l tb))%nat.
Proof.
  induction l as [|[bl x] l IH]; cbn [laid render]; [cbn; lia|]. intros [[[_ Hx]%andb_true_iff _]%andb_true_iff Hl]%andb_true_iff.
  rewrite !length_app. pose proof (tok_text_length x Hx). specialize (IH Hl). cbn [length]. lia.
Qed.

(** The shell between two lines. *)
Definition shell_idle (s : finsh) : Prop :=
  f_nodes s = replicate FINSH_NODE_MAX empty_node /\ f_errno s = FINSH_ERROR_OK /\ f_root s = None /\ stack_ok (vm_stack (f_vm s)).

Lemma parser_run_line s items tb e es t tl : shell_idle s -> laid items tb = true -> snd <$> items = stmt_toks (e :: es) ->
  forallb plain (e :: es) = true -> elabs s (e :: es) = Some (t :: tl) -> (fsize (forests_of (t :: tl)) <= FINSH_NODE_MAX)%nat ->
  exists tk nodes i D, finsh_parser_run (render items tb) s = Ok tt (parsed tk nodes (with_root (Some i) s)) /\
    length nodes = FINSH_NODE_MAX /\ rep nodes (Some i) (forests_of (t :: tl)) D.
Proof.
  intros (Hn & _ & Hr & _) Hl Hi Hp He Hs. set (line := render items tb).
  assert (Hst : pending (token_zero line) (stmt_toks (e :: es) ++ [KOp T_eof])).
  { left. split; [done|]. rewrite <- Hi. apply (lex_line line items tb 0 T_bad 0); [done|done|apply length_replicate]. }
  assert (Hf : (3 * length (stmt_toks (e :: es)) < parse_fuel line)%nat).
  { unfold parse_fuel. rewrite <- Hi, length_fmap. pose proof (render_length items tb Hl). unfold line. lia. }
  destruct (parse_all s e es t tl Hr Hp He (parse_fuel line) (token_zero line) FINSH_NODE_MAX Hst Hf Hs) as (tk & w & i & D & E & Hw & R).
  exists tk, (table w (FINSH_NODE_MAX - fsize (forests_of (t :: tl)))), i, D. split; [|split; [|by apply rep_more]].
  - unfold finsh_parser_run, finsh_token_init, put_token. rewrite bind_modify. rewrite <- E.
    f_equal. unfold parsed, table. cbn [app]. by rewrite <- Hn.
  - unfold table. rewrite length_app, length_replicate, Hw. lia.
Qed.

(** ** Running a line *)

Context {CS : CharSign}.
Variable call : Z -> list Z -> fmem -> option (Z * fmem).

Lemma on_vm_run {A} (m : V A) (s : finsh) a v : m (f_vm s) = Ok a v -> on_vm m s = Ok a {| s with f_vm := v |}.
Proof. intros H. unfold on_vm, zoom. by rewrite H. Qed.

Lemma run_line s items tb e es t tl v m' : shell_idle s -> laid items tb = true -> snd <$> items = stmt_toks (e :: es) ->
  forallb plain (e :: es) = true -> elabs s (e :: es) = Some (t :: tl) -> forallb wide (t :: tl) = true ->
  (fsize (forests_of (t :: tl)) <= FINSH_NODE_MAX)%nat -> (length (prog_code (t :: tl)) <= Z.to_nat FINSH_TEXT_MAX)%nat ->
  eval_prog call (t :: tl) (vm_mem (f_vm s)) = Some (v, m') ->
  exists s' r, finsh_run_line call (render items tb) s = Ok (Some (LineValue r)) s' /\ r = i32 r /\ wrapw (prog_def (t :: tl)) r = v /\
    vm_mem (f_vm s') = m' /\ shell_idle s' /\ same_symbols s s'.
Proof.
  intros Hidle Hl Hi Hp He Hw Hs Hc Hev.
  destruct (parser_run_line s items tb e es t tl Hidle Hl Hi Hp He Hs) as (tk & nodes & i & D & E1 & Hn & R).
  set (s1 := parsed tk nodes (with_root (Some i) s)) in *.
  assert (HL : all_linked s1 (t :: tl)) by (apply (all_linked_same s); [done|by eapply elabs_linked]).
  assert (Hn1 : (length (f_nodes s1) <= FINSH_NODE_MAX)%nat) by (cbn [f_nodes s1 parsed]; lia).
  destruct (compiler_run_prog (t :: tl) s1 (Some i) D Hn1 R HL Hc) as [nodes2 E2].
  destruct Hidle as (_ & He0 & _ & Hst).
  destruct (vm_run_prog call (t :: tl) (<[0%nat := 0]> (vm_stack (f_vm s))) (vm_sp (f_vm s)) (vm_pc (f_vm s)) (vm_mem (f_vm s)) v m')
    as (st' & x & E3 & S3 & X3 & W3); [by apply stack_ok_insert|done|done|done|].
  set (text := list_inserts 0 (prog_code (t :: tl)) (replicate (Z.to_nat FINSH_TEXT_MAX) 0)) in *.
  exists (mk_finsh (mk_vm st' 1 FINSH_TEXT_MAX text m') (replicate FINSH_NODE_MAX empty_node) (f_vars s) FINSH_ERROR_OK (f_heap s)
    (token_zero []) None (Z.of_nat (length (prog_code (t :: tl)))) (f_sysvar_list s) (f_syscall_list s)), (i32 x).
  split; [|split; [|split; [|by split]]].
  - unfold finsh_run_line, finsh_errno. rewrite (bind_ok _ _ _ _ _ E1), bind_gets. cbn [f_errno s1 parsed with_root]. rewrite He0. change (FINSH_ERROR_OK =? 0) with true. cbv iota.
    rewrite bind_assoc, bind_gets. cbn [f_root s1 parsed with_root]. fold s1. rewrite (bind_ok _ _ _ _ _ E2), bind_gets.
    cbn [f_errno compiled s1 parsed with_root]. rewrite He0. change (FINSH_ERROR_OK =? 0) with true. cbv iota. rewrite bind_assoc.
    rewrite (bind_ok _ _ _ _ _ (on_vm_run (finsh_vm_run call) (compiled (prog_code (t :: tl)) nodes2 s1) _ _ E3)), bind_assoc.
    match goal with |- context [(on_vm finsh_stack_bottom ≫= _) ?z] => set (s3 := z) end.
    assert (E4 : finsh_stack_bottom (f_vm s3) = Ok (i32 x) (f_vm s3)).
    { unfold finsh_stack_bottom. cbn [f_vm s3]. by rewrite (bind_ok _ _ _ _ _ (get_slot_run st' 1 FINSH_TEXT_MAX _ m' 0 x ltac:(lia) X3)). }
    rewrite (bind_ok _ _ _ _ _ (on_vm_run _ s3 _ _ E4)), bind_mret. reflexivity.
  - symmetry. apply i32_small. unfold i32. pose proof (Z.mod_pos_bound (x + 2 ^ 31) (2 ^ 32)). lia.
  - by rewrite wrap_i32.
Qed.

End Line.

(** * The shell computes what is typed

    The statements about the shell as a whole: a line of expressions is
    evaluated; the parser is the inverse of printing; byte code always ends. *)

(** ** The machine ends *)

(** Operations that leave the program counter alone, and those that move it on. *)
Definition keeps_pc {A} (m : V A) : Prop := forall s, match m s with Ok _ s' => vm_pc s' = vm_pc s | Fault f => f <> OutOfFuel end.
Definition moves_pc (p : Z) (m : V unit) : Prop :=
  forall s, vm_pc s = p -> match m s with Ok _ s' => p <= vm_pc s' | Fault f => f <> OutOfFuel end.

Create HintDb pc.

Lemma pc_bind {A B} (m : V A) (k : A -> V B) : keeps_pc m -> (forall a, keeps_pc (k a)) -> keeps_pc (x ← m; k x).
Proof.
  intros H1 H2 s. unfold mbind, M_bind. specialize (H1 s). destruct (m s) as [a s'|f]; [|done].
  specialize (H2 a s'). destruct (k a s') as [b s''|f]; [congruence|done].
Qed.
Lemma pc_ret {A} (a : A) : keeps_pc (mret a).
Proof. by intros s. Qed.
Lemma keeps_get : keeps_pc getS.
Proof. by intros s. Qed.
Lemma pc_fail {A} : keeps_pc (fail BadPtr : V A).
Proof. by intros s. Qed.
Lemma pc_option {A} f (o : option A) : f <> OutOfFuel -> keeps_pc (of_option f o).
Proof. intros H s. by destruct o. Qed.
Lemma pc_modify g : (forall s, vm_pc (g s) = vm_pc s) -> keeps_pc (modify g).
Proof. intros H s. cbn. apply H. Qed.
Lemma keeps_sp n : keeps_pc (set_sp n).
Proof. by apply pc_modify. Qed.
#[local] Hint Resolve pc_ret keeps_get pc_fail keeps_sp : pc.

Lemma keeps_get_slot i : keeps_pc (get_slot i).
Proof. apply pc_bind; [auto with pc|]. intros s. destruct (i <? 0); [auto with pc|by apply pc_option]. Qed.
Lemma keeps_get_text i : keeps_pc (get_text i).
Proof. apply pc_bind; [auto with pc|]. intros s. destruct (i <? 0); [auto with pc|by apply pc_option]. Qed.
Lemma keeps_put_slot i v : keeps_pc (put_slot i v).
Proof. apply pc_bind; [apply keeps_get_slot|]. intros _. by apply pc_modify. Qed.
Lemma keeps_load w a : keeps_pc (mem_load w a).
Proof. apply pc_bind; [auto with pc|]. intros s. by apply pc_option. Qed.
Lemma keeps_store w a v : keeps_pc (mem_store w a v).
Proof. apply pc_bind; [auto with pc|]. intros s. apply pc_bind; [by apply pc_option|]. intros m. by apply pc_modify. Qed.
#[local] Hint Resolve keeps_get_slot keeps_get_text keeps_put_slot keeps_load keeps_store : pc.

Ltac keeps := repeat first
  [ progress eauto with pc
  | apply pc_bind; [|intros ?]
  | apply pc_option; discriminate
  | apply pc_modify; reflexivity
  | match goal with |- keeps_pc (if ?b then _ else _) => destruct b end ].

Lemma keeps_get16 p : keeps_pc (FINSH_GET16 p).
Proof. unfold FINSH_GET16. keeps. Qed.
Lemma keeps_get32 p : keeps_pc (FINSH_GET32 p).
Proof. unfold FINSH_GET32. keeps. Qed.
Lemma keeps_push w v : keeps_pc (push_value w v).
Proof. unfold push_value. keeps. Qed.
Lemma keeps_args n : forall l, keeps_pc (call_args n l).
Proof. induction n as [|n IH]; intros l; cbn [call_args]; keeps. Qed.
#[local] Hint Resolve keeps_get16 keeps_get32 keeps_push keeps_args : pc.

Section Ends.
Context {CS : CharSign}.
Variable call : Z -> list Z -> fmem -> option (Z * fmem).

Lemma moves_keeps p m : keeps_pc m -> moves_pc p m.
Proof. intros H s <-. specialize (H s). destruct (m s); [lia|done]. Qed.
Lemma moves_get p k : (forall s, vm_pc s = p -> moves_pc p (k s)) -> moves_pc p (s ← getS; k s).
Proof. intros H s Hs. rewrite bind_getS. by apply H. Qed.
Lemma moves_bind {A} p (m : V A) k : keeps_pc m -> (forall a, moves_pc p (k a)) -> moves_pc p (x ← m; k x).
Proof.
  intros H1 H2 s Hs. unfold mbind, M_bind. specialize (H1 s). destruct (m s) as [a s'|f]; [|done]. apply H2. congruence.
Qed.
Lemma moves_set p n : 0 <= n -> moves_pc p (set_pc (p + n)).
Proof. intros Hn s _. cbn. lia. Qed.
Lemma moves_then p n k : 0 <= n -> (forall a, keeps_pc (k a)) -> moves_pc p (x ← set_pc (p + n); k x).
Proof.
  intros Hn Hk s _. unfold set_pc. rewrite bind_modify. match goal with |- match k tt ?z with _ => _ end => specialize (Hk tt z); destruct (k tt z) end; [|done].
  rewrite Hk. cbn. lia.
Qed.

Ltac moves := repeat first
  [ apply moves_get; intros ? <-
  | apply moves_set; lia
  | apply moves_then; [lia|intros ?; keeps]
  | apply moves_bind; [keeps|intros ?] ].

Lemma op_moves i f : op_table call !! i = Some f -> forall p, moves_pc p f.
Proof.
  intros Hf p. unfold op_table, by_widths in Hf. cbn [app] in Hf.
  repeat (destruct i as [|i]; cbn [lookup list_lookup] in Hf; [injection Hf as <-|]); [..|done].
  all: unfold OP_add, OP_sub, OP_div, OP_mod, OP_mul, OP_and, OP_or, OP_xor, OP_shl, OP_shr, OP_BIN, OP_bw, OP_ld_value, OP_ld_value_stack,
    OP_st, OP_pop, OP_no_op, OP_ld_byte, OP_ld_word, OP_ld_dword, OP_call.
  all: first [apply moves_keeps; solve [keeps]|moves].
Qed.

(** Every turn moves the program counter on. *)
Lemma step_moves s : match vm_step call s with Ok _ s' => vm_pc s < vm_pc s' | Fault f => f <> OutOfFuel end.
Proof.
  unfold vm_step. rewrite bind_getS. pose proof (keeps_get_text (vm_pc s) s) as H. unfold mbind at 1, M_bind at 1.
  destruct (get_text (vm_pc s) s) as [op s1|]; [|done]. unfold set_pc. rewrite bind_modify.
  destruct (op_table call !! Z.to_nat op) as [f|] eqn:Ef; [|done]. cbn [of_option]. rewrite bind_mret.
  match goal with |- match f ?z with _ => _ end => pose proof (op_moves _ _ Ef (vm_pc s + 1) z eq_refl); destruct (f z) end; [lia|done].
Qed.

Lemma loop_ends fuel : forall s, FINSH_TEXT_MAX - vm_pc s <= Z.of_nat fuel -> vm_loop call fuel s <> Fault OutOfFuel.
Proof.
  induction fuel as [|fuel IH]; intros s Hf; cbn [vm_loop]; rewrite bind_getS;
    (destruct (Z.leb_spec 0 (vm_pc s)); [|done]); (destruct (Z.ltb_spec (vm_pc s) FINSH_TEXT_MAX); [|done]); cbn [andb]; [lia|].
  unfold mbind, M_bind. pose proof (step_moves s) as Hm. destruct (vm_step call s) as [[] s'|f]; [|congruence]. apply IH. lia.
Qed.

End Ends.

(** ** Expressions *)

Section Correct.
Context {FE : FinshEnv} {CS : CharSign}.
Variable call : Z -> list Z -> fmem -> option (Z * fmem).

Lemma elabs_nonempty s es tl : es <> [] -> elabs s es = Some tl -> exists e es' t tl', es = e :: es' /\ tl = t :: tl'.
Proof.
  destruct es as [|e es]; [done|]. intros _ H. cbn [elabs] in H. destruct (elab s e) as [t|]; [|done]. cbn in H.
  destruct (elabs s es) as [l|]; [|done]. injection H as <-. eauto 10.
Qed.

(** C3: A line of expressions typed at the shell is evaluated.  Let the line
    [render items tb] consist of the tokens of the expressions [es], each
    expression before a semicolon, with any blanks between the tokens that keep
    them apart.  If no expression needs parentheses, all names are known, no
    operator is applied to a narrower operand, and nodes and code fit the tables
    of the shell, then [finsh_run_line] (tokenizer, parser, type check, compiler
    and virtual machine) returns the value of the last expression, in its width,
    changes the memory as the expressions do, keeps all symbols, and is ready
    for the next line. *)
Theorem finsh_line_correct s items tb es tl v m' : shell_idle s -> laid items tb = true -> es <> [] -> snd <$> items = stmt_toks es ->
  forallb plain es = true -> elabs s es = Some tl -> forallb wide tl = true ->
  (fsize (forests_of tl) <= FINSH_NODE_MAX)%nat -> (length (prog_code tl) <= Z.to_nat FINSH_TEXT_MAX)%nat ->
  eval_prog call tl (vm_mem (f_vm s)) = Some (v, m') ->
  exists s' r, finsh_run_line call (render items tb) s = Ok (Some (LineValue r)) s' /\ r = i32 r /\ wrapw (prog_def tl) r = v /\
    vm_mem (f_vm s') = m' /\ shell_idle s' /\ same_symbols s s'.
Proof.
  intros Hs Hl Hne Hi Hp He. destruct (elabs_nonempty s es tl Hne He) as (e & es' & t & tl' & -> & ->). intros Hw Hn Hc Hev.
  by apply (run_line call s items tb e es' t tl').
Qed.

(** C17: The parser is the inverse of printing.  For expressions that need no
    parentheses and whose nodes fit the node table, [finsh_parser_run] on the
    text of their tokens ends without an error and leaves in the node table the
    syntax trees of exactly these expressions, by the precedence and
    associativity of C, in a chain from the root. *)
Theorem finsh_parse_roundtrip s items tb es tl : shell_idle s -> laid items tb = true -> es <> [] -> snd <$> items = stmt_toks es ->
  forallb plain es = true -> elabs s es = Some tl -> (fsize (forests_of tl) <= FINSH_NODE_MAX)%nat ->
  exists s' D, finsh_parser_run (render items tb) s = Ok tt s' /\ f_errno s' = FINSH_ERROR_OK /\
    rep (f_nodes s') (f_root s') (forests_of tl) D.
Proof.
  intros Hs Hl Hne Hi Hp He Hn. destruct (elabs_nonempty s es tl Hne He) as (e & es' & t & tl' & -> & ->).
  destruct (parser_run_line s items tb e es' t tl' Hs Hl Hi Hp He Hn) as (tk & nodes & i & D & E & _ & R).
  eexists _, D. split; [exact E|]. split; [apply Hs|exact R].
Qed.

(** C16: The compiler is correct.  On the syntax trees of a list of expressions
    in the node table, [finsh_compiler_run] writes code to the text segment on
    which [finsh_vm_run] ends, without a fault, with the value of the last
    expression at the bottom of the stack and the memory the expressions leave:
    the stack of 64 slots never overflows. *)
Theorem finsh_compile_correct s p D tl v m' : (length (f_nodes s) <= FINSH_NODE_MAX)%nat -> rep (f_nodes s) p (forests_of tl) D ->
  all_linked s tl -> forallb wide tl = true -> (length (prog_code tl) <= Z.to_nat FINSH_TEXT_MAX)%nat -> stack_ok (vm_stack (f_vm s)) ->
  eval_prog call tl (vm_mem (f_vm s)) = Some (v, m') ->
  exists s' vm x, finsh_compiler_run p s = Ok tt s' /\ finsh_vm_run call (f_vm s') = Ok tt vm /\
    vm_stack vm !! 0%nat = Some x /\ wrapw (prog_def tl) x = v /\ vm_mem vm = m'.
Proof.
  intros Hn Hr HL Hw Hc Hst Hev. destruct (compiler_run_prog tl s p D Hn Hr HL Hc) as [nodes E].
  destruct (vm_run_prog call tl (<[0%nat := 0]> (vm_stack (f_vm s))) (vm_sp (f_vm s)) (vm_pc (f_vm s)) (vm_mem (f_vm s)) v m')
    as (st' & x & E3 & S3 & X3 & W3); [by apply stack_ok_insert|done|done|done|].
  eexists _, _, x. split; [exact E|]. split; [exact E3|done].
Qed.


End Correct.

(** ** Examples *)

(** A shell with the function [add] and the variable [x]. *)
Module Demo.
Definition add_addr : Z := 1000.
#[export] Instance env : FinshEnv := {|
  global_variable := 4096; finsh_heap := 8192; sysvar_table := [];
  syscall_table := [(100, mk_syscall [97; 100; 100] add_addr)] |}.
#[export] Instance sign : CharSign := true.
Definition call (f : Z) (args : list Z) (m : fmem) : option (Z * fmem) :=
  match args with [a; b] => if f =? add_addr then Some (a + b, m) else None | _ => None end.
Definition memory : fmem := list_to_map ((fun i => (4116 + Z.of_nat i, 0)) <$> seq 0 4).
Definition shell : finsh :=
  mk_finsh (mk_vm (replicate 64 0) 0 0 (replicate 128 0) memory) (replicate FINSH_NODE_MAX empty_node)
    (mk_var [120] finsh_type_int :: replicate 7 empty_var) 0 (mk_fheap ∅ 0 0) (token_zero []) None 0 [] [].

(** x=4*add(2, 3); x-1; *)
Definition items : list (list Z * tok) :=
  [([], KId [120]); ([], KOp T_assign); ([], KNum 4); ([], KOp T_mul); ([], KId [97; 100; 100]); ([], KOp T_left_paren); ([], KNum 2);
   ([], KOp T_comma); ([32], KNum 3); ([], KOp T_right_paren); ([], KOp T_semicolon); ([32], KId [120]); ([], KOp T_sub); ([], KNum 1);
   ([], KOp T_semicolon)].
Definition line : list Z :=
  [120; 61; 52; 42; 97; 100; 100; 40; 50; 44; 32; 51; 41; 59; 32; 120; 45; 49; 59].
Definition exprs : list expr :=
  [EAssign [120] (EBin BMul (ENum 4) (ECall [97; 100; 100] [ENum 2; ENum 3])); EBin BSub (EId [120]) (ENum 1)].
Definition x_place : place := mk_place FINSH_IDTYPE_VAR 4096 finsh_type_int WDword 4116.
Definition trees : list tree :=
  [TAssign x_place (TBin BMul (TInt 4) (TCall 100 add_addr [TInt 2; TInt 3])); TBin BSub (TPlace x_place) (TInt 1)].
Definition after : fmem := <[4116 := 20]> memory.

Lemma shell_ok : shell_idle shell.
Proof. split; [reflexivity|]. split; [reflexivity|]. split; [reflexivity|]. split; [reflexivity|]. apply Forall_replicate. unfold is_slot. lia. Qed.
End Demo.
#[local] Existing Instances Demo.env Demo.sign.

(** [x=4*add(2, 3); x-1;] is 19, and [x] is 20 afterwards. *)
Lemma finsh_line_correct_witness : exists s' r, finsh_run_line Demo.call Demo.line Demo.shell = Ok (Some (LineValue r)) s' /\ r = i32 r /\
  wrapw WDword r = 19 /\ vm_mem (f_vm s') = Demo.after /\ shell_idle s' /\ same_symbols Demo.shell s'.
Proof.
  change Demo.line with (render Demo.items []). change WDword with (prog_def Demo.trees).
  apply (finsh_line_correct Demo.call Demo.shell Demo.items [] Demo.exprs Demo.trees).
  - apply Demo.shell_ok.
  - vm_compute. reflexivity.
  - discriminate.
  - reflexivity.
  - reflexivity.
  - vm_compute. reflexivity.
  - vm_compute. reflexivity.
  - vm_compute. lia.
  - vm_compute. lia.
  - vm_compute. reflexivity.
Defined.

Lemma finsh_parse_roundtrip_witness : exists s' D, finsh_parser_run Demo.line Demo.shell = Ok tt s' /\ f_errno s' = FINSH_ERROR_OK /\
  rep (f_nodes s') (f_root s') (forests_of Demo.trees) D.
Proof.
  change Demo.line with (render Demo.items []). apply (finsh_parse_roundtrip Demo.shell Demo.items [] Demo.exprs Demo.trees).
  - apply Demo.shell_ok.
  - vm_compute. reflexivity.
  - discriminate.
  - reflexivity.
  - reflexivity.
  - vm_compute. reflexivity.
  - vm_compute. lia.
Defined.

(** The node of the number 7. *)
Lemma finsh_compile_correct_witness :
  let s := {| Demo.shell with f_nodes := [mk_node FINSH_NODE_VALUE_INT 0 0 7 0 None None] |} in
  exists s' vm x, finsh_compiler_run (Some 0%nat) s = Ok tt s' /\ finsh_vm_run Demo.call (f_vm s') = Ok tt vm /\
    vm_stack vm !! 0%nat = Some x /\ wrapw WDword x = 7 /\ vm_mem vm = Demo.memory.
Proof.
  intros s. change WDword with (prog_def [TInt 7]). apply (finsh_compile_correct Demo.call s (Some 0%nat) ({[0%nat]} ∪ ∅ ∪ ∅)).
  - cbn. unfold FINSH_NODE_MAX. lia.
  - exists 0%nat, (mk_node FINSH_NODE_VALUE_INT 0 0 7 0 None None), ∅, ∅. repeat split; try reflexivity; set_solver.
  - repeat split.
  - reflexivity.
  - vm_compute. lia.
  - apply Demo.shell_ok.
  - reflexivity.
Defined.
