(* ===== verification/FinshCases.v ===== *)
(** * Sessions of the shell

    Lines typed at a freshly started shell, run on the model: what the grammar,
    the type check and the symbol lists make of input outside the expressions
    [FinshThm] is about. *)

From Stdlib Require Import Strings.String Strings.Ascii.
From S2P Require Import Prelude KString FinshVm FinshData FinshHeap FinshNode FinshToken FinshParser FinshCompiler FinshShell.

(** A shell with the functions [add] and [version_long], which add up their
    arguments, and the system variables [tick] and [counter]; [version_long] and
    [counter] are appended at run time. *)
Module Session.

Fixpoint text (s : string) : list Z :=
  match s with EmptyString => [] | String c r => Z.of_nat (nat_of_ascii c) :: text r end.

#[export] Instance session_env : FinshEnv := {|
  global_variable := 4096; finsh_heap := 8192;
  sysvar_table := [(200, mk_sysvar (text "tick") finsh_type_uint 12288)];
  syscall_table := [(100, mk_syscall (text "add") 1000)] |}.
#[export] Instance session_sign : CharSign := true.

Definition session_call (f : Z) (args : list Z) (m : fmem) : option (Z * fmem) :=
  if f =? 1000 then Some (foldr Z.add 0 args, m) else None.

(** Zeroed variables and heap; [tick] is 7. *)
Definition session_memory : fmem :=
  <[12288 := 7]> (list_to_map ((fun p => (p, 0)) <$> seqZ 4096 192 ++ seqZ 8192 512 ++ seqZ 12288 4)).

Definition zeroed : finsh :=
  mk_finsh (mk_vm (replicate 64 0) 0 0 (replicate 128 0) session_memory) [] (replicate 8 empty_var) 0 (mk_fheap ∅ 0 0)
    (token_zero []) None 0 [(300, mk_sysvar (text "counter") finsh_type_uint 12288)] [(301, mk_syscall (text "version_long") 1000)].

Fixpoint run_lines (lines : list string) : F (list (option line_result)) :=
  match lines with
  | [] => mret []
  | l :: r => x ← finsh_run_line session_call (text l); xs ← run_lines r; mret (x :: xs)
  end.

(** What the lines print after [finsh_init], or the fault they end in. *)
Definition session (lines : list string) : list (option line_result) + fault :=
  match (finsh_init;; run_lines lines) zeroed with Ok r _ => inl r | Fault f => inr f end.

End Session.
Import Session.
#[local] Open Scope string_scope.

(** Declarations, assignments through pointers, prefix and postfix steps, calls. *)
Example session_works :
  session ["int a=3;"; "int *p=&a;"; "*p=a<<2|1;"; "a++;"; "--a;"; "add(a, 0x10, 2);"; "tick*2;"] =
  inl (Some ∘ LineValue <$> [3; 4116; 13; 13; 13; 31; 14]).
Proof. vm_compute. reflexivity. Qed.

(** A variable is declared once; an undeclared name is an error. *)
Example session_errors :
  session ["int a=3;"; "int a=4;"; "a;"; "b;"] =
  inl [Some (LineValue 3); Some (LineError FINSH_ERROR_VARIABLE_EXIST); Some (LineValue 3); Some (LineError FINSH_ERROR_UNKNOWN_SYMBOL)].
Proof. vm_compute. reflexivity. Qed.

(** An expression in parentheses is taken for a cast and refused. *)
Example parentheses_refused : session ["(1+2);"] = inl [Some (LineError FINSH_ERROR_INVALID_TOKEN)].
Proof. vm_compute. reflexivity. Qed.

(** A cast is parsed and has no effect. *)
Example cast_ignored : session ["(char)300;"] = inl [Some (LineValue 300)].
Proof. vm_compute. reflexivity. Qed.

(** The operator behind a call is dropped: the value is the one of the call. *)
Example call_operand_dropped : session ["add(1, 2)+4;"] = inl [Some (LineValue 3)].
Proof. vm_compute. reflexivity. Qed.

(** A byte operand of a wider operation brings along the upper bytes an earlier
    line left in its slot: [1+'a'] is 98 on a fresh stack. *)
Example stale_bytes :
  session ["1+'a';"] = inl [Some (LineValue 98)] /\
  session ["1+70000;"; "1+'a';"] = inl [Some (LineValue 70001); Some (LineValue 69986)].
Proof. vm_compute. split; reflexivity. Qed.

(** The value of an assignment to a [char] has the upper bytes of the address of
    the variable. *)
Example narrow_assignment : session ["char c=0;"; "c=5;"; "c;"] = inl [Some (LineValue 4096); Some (LineValue 4101); Some (LineValue 5)].
Proof. vm_compute. reflexivity. Qed.

(** The statement behind a declaration with two initialisers takes the place of
    the second one in the chain of statements. *)
Example initialiser_lost : session ["int a=1,b=2; a;"; "b;"] = inl [Some (LineValue 1); Some (LineValue 0)].
Proof. vm_compute. reflexivity. Qed.

(** A declaration without an initialiser hides the rest of its line. *)
Example declaration_ends_line : session ["int a; a=5;"; "a;"] = inl [Some (LineValue 0); Some (LineValue 0)].
Proof. vm_compute. reflexivity. Qed.

(** A prefix of the name of a symbol appended at run time finds it. *)
Example prefix_finds : session ["cou;"; "version(1, 2);"] = inl [Some (LineValue 7); Some (LineValue 3)].
Proof. vm_compute. reflexivity. Qed.

(** A character given by its number is the null character. *)
Example numeric_character : session ["'\65';"] = inl [Some (LineValue 0)].
Proof. vm_compute. reflexivity. Qed.

(** A step of a system variable reads its descriptor as a variable. *)
Example system_variable_step : session ["tick++;"] = inr BadPtr.
Proof. vm_compute. reflexivity. Qed.

(** The compiler does not know [void] pointers: the assignment emits no address
    and stores through a slot below the stack. *)
Example void_pointer : session ["void *p=0;"] = inr BadPtr.
Proof. vm_compute. reflexivity. Qed.

(** An identifier at the end of a line without a semicolon starts the line
    over. *)
Example identifier_restarts : session ["tick"] = inr OutOfFuel.
Proof. vm_compute. reflexivity. Qed.
